(* ===== verification/_CoqProject ===== *)
-Q . S2P
Prelude.v
Bitmap.v
Region.v
KFrame.v
KFrameInv.v
KFrameAlloc.v
KFrameFree.v
QueueSpec.v
CircQueue.v
KbdTables.v
Keyboard.v
KeyboardProps.v
Paging.v
PagingProps.v
PtAlloc.v
PtAllocProps.v
UFrame.v
UFrameProps.v
DynQueue.v
Sched.v
SchedProps.v
SleepProps.v
SchedWitness.v
Net.v
Tcp.v
TcpProps.v
TcpWf.v
RbTree.v
RbShape.v
RbInsert.v
RbOps.v
RbErase.v
Hashtable.v
HashShape.v
HashOps.v
HashProps.v
HashGrow.v
StateExn.v
Bytes.v
Vec.v
Fat.v
FatProps.v
ExtAlloc.v
ExtAllocProps.v
ExtExtent.v
ExtExtentProps.v
ExtDir.v
ExtDirProps.v
Jbd2.v
Jbd2Props.v
Vfs.v
VfsProps.v
Dhcp.v
DhcpProps.v
Arp.v
ArpProps.v
Sysfs.v
SysfsProps.v
SysfsTable.v
SysfsTableProps.v
Elf.v
ElfProps.v
Numstr.v
NumstrProps.v
NetBuf.v
NetDev.v
NetDevProps.v
