(* ===== verification/Prelude.v ===== *)
(** * OoOS: a verification library for the kernel's core logic

    OoOS is an operating system kernel for x86-64 written in C++ (src/kernel,
    src/common/include/kernel) on a C++ library of its own (src/lib/libk,
    src/common/include/c++).  This library models the parts that carry its logic as
    executable Rocq definitions and proves what they do.

    ** The program and the files that model it

    - Memory.  [kernel_memory_mgr] hands out physical blocks recorded in status
      bytes (kernel/mm/kernel_mm.cpp): Region.v.  [kframe_tag] and [kframe_exports]
      cut those blocks into tagged heap blocks with 24 free lists: KFrame.v (model),
      KFrameInv.v (heap invariant), KFrameAlloc.v and KFrameFree.v.  The page table
      functions of the same file and the address structures of kernel_defs.h:
      Paging.v, PagingProps.v.  The allocation of page tables and DMA blocks:
      PtAlloc.v (over KFrame.v and Paging.v), PtAllocProps.v.  The address spaces of
      processes ([uframe_tag]), the frame manager (kernel/mm/frame_manager.cpp) and
      the system calls over them: UFrame.v (over Paging.v and an interface to the
      heap, of which the pool of PtAlloc.v is the instance), UFrameProps.v.
      Bitmaps (kernel/util/bitmap.cpp): Bitmap.v.
    - Containers.  The circular queue (kernel/util/circular_queue.hpp): CircQueue.v,
      an instance of the queue interface of QueueSpec.v.  The resettable queue
      (c++/bits/dynamic_queue.hpp, stl_queue.hpp): DynQueue.v.  The red-black tree
      of the ordered containers (lib/libk/tree_impl.cpp, c++/bits/stl_tree.hpp):
      RbTree.v (model), RbShape.v, RbInsert.v, RbOps.v, RbErase.v.  The hash table
      of the unordered containers (c++/bits/hashtable.hpp, hash_map.hpp):
      Hashtable.v (model), HashShape.v, HashOps.v, HashProps.v, HashGrow.v.
    - Scheduling.  [scheduler], [task_queue], [kthread_ptr] and the deferred actions
      (kernel/sched): Sched.v (model, over DynQueue.v), SchedProps.v (selection),
      SleepProps.v (timed waits), SchedWitness.v.
    - Input.  The PS/2 keyboard driver (kernel/drivers/keyboard.cpp): KbdTables.v
      (tables), Keyboard.v (decoder, command queue, interrupt handler; it reads its
      bytes through QueueSpec.v), KeyboardProps.v.
    - Network.  Big-endian fields, checksums, IPv4 and UDP and the dispatch of frames
      (kernel/net): Net.v.  The TCP port handler (net/protocol/tcp.cpp): Tcp.v
      (model), TcpProps.v, TcpWf.v.  The DHCP client (net/protocol/dhcp.cpp): Dhcp.v,
      DhcpProps.v.  Address resolution (net/protocol/arp.cpp), with the check that the
      client makes before it takes an address: Arp.v, ArpProps.v.  The buffers between the
      stack and a device (net/netstack_buffer.cpp): NetBuf.v.  What the kernel does with
      them (util/kernel_api.cpp) and the descriptor rings of the e1000e driver
      (modules/e1000e): NetDev.v, NetDevProps.v.
    - File systems.  The vectors they keep their blocks in (c++/bits/dynamic_buffer.hpp,
      c++/vector): Vec.v.  FAT32 (kernel/fs/fat32): Fat.v, FatProps.v.  The ext file
      system (kernel/fs/ext): the allocation of inodes and blocks in ExtAlloc.v and
      ExtAllocProps.v, the block pointers of an inode in ExtExtent.v and
      ExtExtentProps.v, directories in ExtDir.v and ExtDirProps.v, the journal in
      Jbd2.v and Jbd2Props.v.  Paths, nodes, descriptors, permissions and pipes
      (kernel/fs/filesystem.cpp, fs_node.cpp) on the RAM file system (kernel/fs/ramfs),
      with the system calls on files: Vfs.v, VfsProps.v.
    - Configuration.  The store of system objects (kernel/fs/sysfs): names, extent trees
      and open objects in Sysfs.v and SysfsProps.v, the hash tables kept in such objects
      in SysfsTable.v and SysfsTableProps.v.
    - Programs.  The index of the symbols of an image and its versions
      (kernel/prog/elf64_dynsym_index.cpp, elf64_dynamic.cpp): Elf.v, ElfProps.v.
    - C library.  Numbers to strings and back, and [rand] (lib/libk/string_impl.tcc,
      rand.cpp): Numstr.v, NumstrProps.v.

    This file has what they share: machine integers, outcomes, automation and general
    lemmas.  StateExn.v has the state and exception monad with the equations of its
    operations, Bytes.v the reading and writing of bytes and numbers in a buffer.

    ** How the code is translated

    Integers of the source are [Z] with their wrap-around written out.  A pointer is
    an address or an offset; memory that is shared (heap tags, page tables, task
    blocks, tree and hash nodes) is a finite map from addresses, so that aliasing and
    dangling pointers are visible.  A function that can fail to have defined
    behaviour, or whose loop need not end, returns an [outcome]: [Done] with its
    result, [Undef] where the source's behaviour is undefined (an access outside an
    array, a null or dangling pointer, a division by zero), [NoFuel] when a bounded
    unrolling was too short.  Components that throw run in a state and exception monad
    over their state.  What is not in the sources (devices, clocks, the processor, template
    arguments, allocators of storage) is a parameter, with what is relied on stated
    as a class of laws ([UserHeapLaws], [QueueLaws], [StrictWeak],
    [HashLaws], [NewAddrLaws], [StoreWrites], [JournalLaws]) that has an instance.  What
    the page tables and user frames rely on of the kernel heap is a condition on the state
    of the heap: [fresh_supply], that the page tables it hands out are new, which
    [kernel_heap_supplies] (PtAllocProps.v) proves of the modelled heap as long as it has no
    free block in the size class of page tables, and [heap_answers], that it answers a
    request.  Members that no constructor sets are arguments ([uninit] in Tcp.v), and so is
    what fresh memory holds.  The
    disks under the file systems ([ExtStore], [ExtDevice], [DirStore], [JournalStore])
    and the contents of files ([FileData]), the devices and clocks under DHCP and ARP
    ([NetEnv], [Link]), the memory, card and protocols around the network buffers
    ([Memory], [Card], [Stack]) and the files under the configuration store ([Backing]) are such
    classes of operations.

    ** What is proved

    - Region: a claim returns a block that was free, covers the request and becomes
      used, and nothing else changes; it always returns and fails only when there is
      no room; a release undoes a claim; what exhaustion returns.
    - Heap: allocation and release keep the heap invariant, live blocks never
      overlap, allocation returns unless the memory is exhausted, the tag of a pointer
      is found across its alignment gap; releasing next to a free left neighbour
      loses the invariant.
    - Paging: mapping and unmapping change exactly the pages of their range; when the
      kernel heap supplies fresh page tables, and where their allocation damages the heap.
    - User frames: mapping memory for a process changes its own range only and
      records the block, or does not end well when tables run out and the block cannot be
      given back; unmapping and shrinking do not work, and how they fail.
    - Containers: the circular queue, the resettable queue and a hash table that need
      not grow refine lists, lists with a cursor and dictionaries over every sequence
      of the operations listed with each theorem; the red-black tree stays balanced and ordered under insertion,
      finds what it holds, iterates in order, in logarithmic depth; what erasing from
      the tree and growing, moving and copying the hash table lose.
    - Scheduler: which task is selected and that selection returns, the cases in
      which it does not, exactness of the sleepers' delta list and where it breaks.
    - Keyboard: the decoder always returns, its tables are consistent, press and
      release match.
    - Network: the checksum is that of RFC 1071, datagrams survive the trip through
      their own layers, the TCP state machine takes eleven transitions only, its
      fields stay in their types, and which states it can and cannot reach; the DHCP
      client reads every list of options of at most 253 bytes, takes a lease by an offer and an
      acknowledgement, and ignores every offer after it declined one; when an address
      is taken in spite of the check by ARP; packets are given to the driver and received
      frames to the stack in order and unchanged, and where frames of several buffers,
      failed transmissions and the limits of buffers go wrong.
    - File systems: vectors refine lists (emplace and assignments apart); FAT32 names are read back, a growing file is
      forgotten by the table; in the ext file system inodes are claimed correctly and
      released wrongly, files of up to four extents and new entries in a directory of one block are
      read back, what a fifth extent and removing a name destroy; the journal writes
      what was logged, in order, but never replays it after a restart, and a
      transaction after a sync destroys its superblock; directories made for a path
      are found again, and what is wrong with permissions, read-only opening,
      pipes, unlinking and making directories.
    - Configuration: the name of a new object survives a restart, committed objects of one
      extent are written to their blocks and to no other, a value added to a hash table is found,
      with all others; where the second extent of an object, an object opened again and
      the third value of a bucket go wrong.
    - Programs: the lookup by hash gives the first exported symbol of a name and, but for
      names of symbols that are not exported, agrees with the search through the whole table.
    - C library: a number printed in decimal or hexadecimal is read back, what spaces
      behind a number do, and that [rand] is the generator of Park and Miller.

    Theorems about a defect state exactly what the code does there; each has a
    concrete input on which it applies.

    ** Fuel and bounds

    Loops over data structures have as many steps as the structure has nodes: their
    fuel is the size of the store plus one ([node_fuel], [fuel_of]) or the length of a
    queue, and the theorems show that it is enough for every structure in good shape.
    Where the fuel is an argument ([select_next], [find_fit], [find_tag],
    [bitmap_scan_chain_zeroes], the options of a DHCP message, a bucket of symbols, an
    extent tree) the theorems that the code returns give a bound on it,
    and those that it does not return hold for every fuel.  Allocations of 2^63
    elements do not happen.  Widths: 64-bit addresses, sizes and bitmap words, 32-bit
    sequence numbers, 16-bit lengths and checksum words, [float] and [double] load
    factors with their rounding.

    ** Not modelled

    Code that only moves data between device registers and memory (drivers of timers,
    interrupt controllers, PCI, AHCI, the set-up of e1000e, graphics), assembly, the UEFI loader,
    vendored libraries (gdtoa, stb, bcrypt, demangler, unwinder), the compile-time
    machinery of the C++ headers, and build tools: there is no state of their own to
    reason about, or the code is not the project's.  In the file systems: symbolic
    links, the buffers of files, times, device nodes, mounts (nothing creates one),
    record locks and directory streams.  In the configuration store: the streams of
    objects, string tables and the making of empty files.  In the images: segments,
    relocation and the managers of programs and shared objects.  Task contexts and the
    system calls on other things than files are the project's own and not modelled:
    they are mostly assembly, register frames and calls of the components above. *)
From Stdlib Require Export ZArith Lia.
From stdpp Require Export base numbers list gmap.

(** ** Machine integers

    An unsigned integer of width [w] is a [Z] in the range [0 .. 2^w - 1]; the
    source's arithmetic wraps, so every operation that can leave the range is
    wrapped where the source computes it. *)
Declare Scope mach_scope.
Delimit Scope mach_scope with mach.
Open Scope Z_scope.

Definition wrap (w x : Z) : Z := x mod 2 ^ w.
Abbreviation u8 := (wrap 8).
Abbreviation u16 := (wrap 16).
Abbreviation u32 := (wrap 32).
Abbreviation u64 := (wrap 64).

(** Complement at width [w] (the source's [~x] on an unsigned operand). *)
Definition bnot (w x : Z) : Z := Z.lxor x (Z.ones w).

(** Left and right shifts at width [w]; a shift by a count outside
    [0 .. w - 1] has no defined behaviour. *)
Definition shl (w x n : Z) : option Z :=
  if (0 <=? n) && (n <? w) then Some (wrap w (Z.shiftl x n)) else None.
Definition shr (w x n : Z) : option Z :=
  if (0 <=? n) && (n <? w) then Some (Z.shiftr x n) else None.

(** Value of a two's complement signed integer of width [w]. *)
Definition signed (w x : Z) : Z :=
  let y := wrap w x in if y <? 2 ^ (w - 1) then y else y - 2 ^ w.

Definition in_range (w x : Z) : Prop := 0 <= x < 2 ^ w.
Abbreviation is_u64 := (in_range 64).
Abbreviation is_u32 := (in_range 32).
Abbreviation is_u16 := (in_range 16).
Abbreviation is_u8 := (in_range 8).

(** Integer division rounded up, and rounding up to a multiple, as the
    templates of libk_decls.h compute them. *)
Definition div_round_up (num denom : Z) : Z :=
  if num mod denom =? 0 then num / denom else 1 + num / denom.
Definition up_to_nearest (n unit : Z) : Z :=
  if n mod unit =? 0 then n else unit * div_round_up n unit.
Definition truncate (n unit : Z) : Z :=
  if n mod unit =? 0 then n else n - n mod unit.

(** ** Outcomes

    The result of running a piece of kernel code: [Done] with its value, [Undef]
    where the source's behaviour is undefined (an access outside an array, a null
    or dangling pointer), or [NoFuel] when a bounded unrolling of a loop or
    recursion was not long enough.  Theorems that the code returns exclude both. *)
Inductive outcome (A : Type) : Type :=
| Done (a : A)
| Undef
| NoFuel.
Arguments Done {A} a.
Arguments Undef {A}.
Arguments NoFuel {A}.

#[export] Instance outcome_eq_dec A `{EqDecision A} : EqDecision (outcome A).
Proof. solve_decision. Defined.
#[export] Instance outcome_ret : MRet outcome := fun A a => Done a.
#[export] Instance outcome_bind : MBind outcome :=
  fun A B f m => match m with Done a => f a | Undef => Undef | NoFuel => NoFuel end.
Definition or_undef {A} (o : option A) : outcome A :=
  match o with Some a => Done a | None => Undef end.

(** Array element access: undefined outside the array. *)
Definition array_get {A} (l : list A) (i : Z) : outcome A :=
  if 0 <=? i then or_undef (l !! Z.to_nat i) else Undef.
Definition array_set {A} (l : list A) (i : Z) (x : A) : outcome (list A) :=
  _ ← array_get l i; Done (<[Z.to_nat i := x]> l).

(** ** Automation *)
Create HintDb ooos discriminated.

Ltac zlia := Z.div_mod_to_equations; nia.
Ltac blia := rewrite ?Z.leb_le, ?Z.ltb_lt, ?Z.eqb_eq, ?Z.leb_gt, ?Z.ltb_ge, ?Z.eqb_neq in *; lia.

(** Split on every Boolean comparison of integers in the goal. *)
Ltac case_cmp :=
  repeat match goal with
  | |- context [?a <? ?b] => destruct (Z.ltb_spec a b)
  | |- context [?a <=? ?b] => destruct (Z.leb_spec a b)
  | |- context [?a =? ?b] => destruct (Z.eqb_spec a b)
  end.
Ltac case_cmp_in H :=
  repeat match type of H with
  | context [?a <? ?b] => destruct (Z.ltb_spec a b)
  | context [?a <=? ?b] => destruct (Z.leb_spec a b)
  | context [?a =? ?b] => destruct (Z.eqb_spec a b)
  end.

Lemma pow2_pos w : 0 <= w -> 0 < 2 ^ w.
Proof. intros; apply Z.pow_pos_nonneg; lia. Qed.

Lemma wrap_range w x : 0 <= w -> in_range w (wrap w x).
Proof. intros; apply Z.mod_pos_bound, pow2_pos; lia. Qed.

Lemma wrap_small w x : in_range w x -> wrap w x = x.
Proof. apply Z.mod_small. Qed.

Lemma wrap_wrap w x : 0 <= w -> wrap w (wrap w x) = wrap w x.
Proof. intros; apply wrap_small, wrap_range; lia. Qed.

Lemma wrap_testbit w x i : 0 <= w -> Z.testbit (wrap w x) i = (i <? w) && Z.testbit x i.
Proof.
  intros Hw. unfold wrap. destruct (Z.ltb_spec i w) as [Hi|Hi]; simpl.
  - apply Z.mod_pow2_bits_low; lia.
  - apply Z.mod_pow2_bits_high; lia.
Qed.

Lemma in_range_testbit w x i : in_range w x -> w <= i -> Z.testbit x i = false.
Proof.
  intros [Hlo Hhi] Hi. destruct (Z.eq_dec x 0) as [->|Hx]; [apply Z.bits_0|].
  apply Z.bits_above_log2; [lia|].
  apply Z.log2_lt_pow2; [lia|]. apply Z.lt_le_trans with (2 ^ w); [lia|].
  apply Z.pow_le_mono_r; lia.
Qed.

(** A number whose bits vanish above [w] is an unsigned integer of width [w]. *)
Lemma testbit_in_range w x :
  0 <= w -> 0 <= x -> (forall i, w <= i -> Z.testbit x i = false) -> in_range w x.
Proof.
  intros Hw Hx Hb. split; [done|].
  assert (x = wrap w x) as ->; [|apply wrap_range; lia].
  apply Z.bits_inj'; intros i Hi. rewrite wrap_testbit by lia.
  destruct (Z.ltb_spec i w); simpl; [done|]. apply Hb; lia.
Qed.

Lemma ones_testbit w i : 0 <= w -> 0 <= i -> Z.testbit (Z.ones w) i = (i <? w).
Proof.
  intros. destruct (Z.ltb_spec i w).
  - apply Z.ones_spec_low; lia.
  - apply Z.ones_spec_high; lia.
Qed.

Lemma bnot_testbit w x i :
  0 <= w -> 0 <= i -> Z.testbit (bnot w x) i = xorb (Z.testbit x i) (i <? w).
Proof. intros. unfold bnot. by rewrite Z.lxor_spec, ones_testbit. Qed.

Lemma bitop_range (op : Z -> Z -> Z) (f : bool -> bool -> bool) w x y :
  (forall a b i, Z.testbit (op a b) i = f (Z.testbit a i) (Z.testbit b i)) ->
  f false false = false -> (0 <= x -> 0 <= y -> 0 <= op x y) ->
  0 <= w -> in_range w x -> in_range w y -> in_range w (op x y).
Proof.
  intros Hs Hf Hn Hw Hx Hy. apply testbit_in_range; [done|apply Hn; apply Hx || apply Hy|].
  intros i Hi. by rewrite Hs, (in_range_testbit w x), (in_range_testbit w y).
Qed.

Lemma lor_range w x y : 0 <= w -> in_range w x -> in_range w y -> in_range w (Z.lor x y).
Proof. apply (bitop_range Z.lor orb); auto using Z.lor_spec. intros; by apply Z.lor_nonneg. Qed.
Lemma land_range w x y : 0 <= w -> in_range w x -> in_range w y -> in_range w (Z.land x y).
Proof. apply (bitop_range Z.land andb); auto using Z.land_spec. intros; apply Z.land_nonneg; auto. Qed.
Lemma lxor_range w x y : 0 <= w -> in_range w x -> in_range w y -> in_range w (Z.lxor x y).
Proof.
  apply (bitop_range Z.lxor xorb); auto using Z.lxor_spec.
  intros; apply Z.lxor_nonneg; lia.
Qed.

Lemma ones_range w : 0 <= w -> in_range w (Z.ones w).
Proof. intros. rewrite Z.ones_equiv. pose proof (pow2_pos w). split; lia. Qed.
Lemma bnot_range w x : 0 <= w -> in_range w x -> in_range w (bnot w x).
Proof. intros. apply lxor_range; auto using ones_range. Qed.

Lemma shr_range w x n y : in_range w x -> shr w x n = Some y -> in_range w y.
Proof.
  unfold shr. intros Hx Hs. case_match eqn:E; simplify_eq.
  apply andb_true_iff in E as [E1 E2]. rewrite Z.shiftr_div_pow2 by blia.
  assert (0 < 2 ^ n) by (apply pow2_pos; blia). split.
  - apply Z.div_pos; [apply Hx|lia].
  - apply Z.le_lt_trans with x; [|apply Hx]. apply Z.div_le_upper_bound; [lia|].
    destruct Hx. nia.
Qed.

Lemma shl_testbit w x n y i :
  0 <= i -> shl w x n = Some y -> Z.testbit y i = (i <? w) && Z.testbit x (i - n).
Proof.
  unfold shl. intros Hi Hs. case_match eqn:E; simplify_eq.
  apply andb_true_iff in E as [E1 E2]. by rewrite wrap_testbit, Z.shiftl_spec by blia.
Qed.
Lemma shr_testbit w x n y i :
  0 <= i -> shr w x n = Some y -> Z.testbit y i = Z.testbit x (i + n).
Proof.
  unfold shr. intros Hi Hs. case_match eqn:E; simplify_eq. by rewrite Z.shiftr_spec.
Qed.
Lemma shl_range w x n y : 0 <= w -> shl w x n = Some y -> in_range w y.
Proof. unfold shl. intros ? Hs. case_match; simplify_eq. by apply wrap_range. Qed.
Lemma shl_Some w x n : 0 <= n < w -> exists y, shl w x n = Some y.
Proof. intros. unfold shl. case_cmp; simpl; eauto; lia. Qed.
Lemma shr_Some w x n : 0 <= n < w -> exists y, shr w x n = Some y.
Proof. intros. unfold shr. case_cmp; simpl; eauto; lia. Qed.

#[export] Hint Resolve shl_range shr_range : ooos.
#[export] Hint Resolve wrap_range lor_range land_range lxor_range ones_range bnot_range : ooos.
Create Rewrite HintDb bits.
#[export] Hint Rewrite Z.lor_spec Z.land_spec Z.lxor_spec Z.bits_0 : bits.

Lemma div_round_up_spec n d :
  0 < d -> (div_round_up n d - 1) * d < n <= div_round_up n d * d.
Proof. intros Hd. unfold div_round_up. case_cmp; zlia. Qed.

Lemma up_to_nearest_spec n d :
  0 < d -> n <= up_to_nearest n d < n + d /\ (up_to_nearest n d) mod d = 0.
Proof.
  intros Hd. unfold up_to_nearest. case_cmp.
  - split; [lia|done].
  - pose proof (div_round_up_spec n d Hd). split; [nia|].
    rewrite Z.mul_comm. apply Z.mod_mul. lia.
Qed.

(** ** Outcomes and arrays *)
Lemma bind_Done {A B} (f : A -> outcome B) m b :
  m ≫= f = Done b -> exists a, m = Done a /\ f a = Done b.
Proof. destruct m; simpl; eauto; discriminate. Qed.

(** Decompose a successful run into the runs of its steps. *)
Ltac inv_done :=
  repeat match goal with
  | H : (_ ≫= _) = Done _ |- _ =>
      let x := fresh "x" in let Hx := fresh "Hrun" in
      apply bind_Done in H as (x & Hx & H)
  | H : Done _ = Done _ |- _ => injection H as H
  | H : Undef = Done _ |- _ => discriminate H
  | H : NoFuel = Done _ |- _ => discriminate H
  end.

Lemma array_get_Done {A} (l : list A) i x :
  array_get l i = Done x <-> 0 <= i /\ l !! Z.to_nat i = Some x.
Proof.
  unfold array_get. destruct (Z.leb_spec 0 i); [|split; [done|lia]].
  destruct (l !! Z.to_nat i); simpl; split; intros Hx; simplify_eq; auto; destruct_and!; simplify_eq; done.
Qed.
Lemma array_get_is_Done {A} (l : list A) i :
  0 <= i < Z.of_nat (length l) -> exists x, array_get l i = Done x.
Proof.
  intros Hi. destruct (lookup_lt_is_Some_2 l (Z.to_nat i)) as [x Hx]; [lia|].
  exists x. apply array_get_Done. auto with lia.
Qed.
Lemma array_get_bound {A} (l : list A) i x : array_get l i = Done x -> 0 <= i < Z.of_nat (length l).
Proof. rewrite array_get_Done. intros [? Hl%lookup_lt_Some]. lia. Qed.

Lemma array_set_get {A} (l l' : list A) i x :
  array_set l i x = Done l' ->
  length l' = length l /\ (forall j, array_get l' j = if j =? i then Done x else array_get l j).
Proof.
  unfold array_set. intros Hs. inv_done. subst. rewrite length_insert. split; [done|].
  apply array_get_Done in Hrun as [Hi Hl]. pose proof (lookup_lt_Some _ _ _ Hl).
  intros j. unfold array_get. case_cmp; subst; try lia; try done.
  - by rewrite list_lookup_insert_eq.
  - rewrite list_lookup_insert_ne by lia. done.
Qed.
Lemma array_set_Done {A} (l : list A) i x :
  0 <= i < Z.of_nat (length l) -> array_set l i x = Done (<[Z.to_nat i := x]> l).
Proof. intros Hi. unfold array_set. destruct (array_get_is_Done l i Hi) as [y ->]. done. Qed.
