(* ===== verification/Bitmap.v ===== *)
(** Bitmaps of 64-bit words (kernel/util/bitmap.cpp).

    A bitmap is the list of its [unsigned long] words; bit [p] of the bitmap is
    bit [p mod 64] of word [p / 64].  An access outside the array, or a shift by
    the word width, has no defined behaviour: the operations that can do either
    return [None] there.  [bitmap_scan_chain_zeroes] has a loop whose progress
    depends on the data, so it takes fuel and distinguishes running out of it. *)
From S2P Require Import Prelude.

Module Bitmap.

Definition ulsize : Z := 8 * 8.

(** [bitmap[i]] and [bitmap[i] = w], defined inside the array only. *)
Definition word_at (bm : list Z) (i : Z) : option Z :=
  if 0 <=? i then bm !! Z.to_nat i else None.
Definition word_set (bm : list Z) (i w : Z) : option (list Z) :=
  _ ← word_at bm i; Some (<[Z.to_nat i := w]> bm).

(** [__builtin_ctzl]: number of trailing zero bits of a non-zero word. *)
Fixpoint ctz_pos (p : positive) : Z :=
  match p with xO q => 1 + ctz_pos q | _ => 0 end.
Definition ctzl (w : Z) : Z := match w with Zpos p => ctz_pos p | _ => 0 end.

Definition bitmap_set_bit (bm : list Z) (bit_pos : Z) : option (list Z) :=
  w ← word_at bm (bit_pos / ulsize);
  m ← shl 64 1 (bit_pos mod ulsize);
  word_set bm (bit_pos / ulsize) (Z.lor w m).

Definition bitmap_clear_bit (bm : list Z) (bit_pos : Z) : option (list Z) :=
  w ← word_at bm (bit_pos / ulsize);
  m ← shl 64 1 (bit_pos mod ulsize);
  word_set bm (bit_pos / ulsize) (Z.land w (bnot 64 m)).

(** The loop of [bitmap_scan_single_zero] from word [i] on: the list is the
    rest of the array. *)
Fixpoint scan_single_from (bm : list Z) (i : Z) : Z :=
  match bm with
  | [] => -1
  | w :: rest =>
      let ul := bnot 64 w in
      if ul =? 0 then scan_single_from rest (i + 1) else ulsize * i + ctzl ul
  end.
Definition bitmap_scan_single_zero (bm : list Z) (num_ulongs : Z) : Z :=
  scan_single_from (take (Z.to_nat num_ulongs) bm) 0.

(** [std::strnlen<unsigned long>]: length of the run of non-zero words at the
    front, up to [n] of them; reading past the array is undefined. *)
Fixpoint strnlen (bm : list Z) (n : nat) : option Z :=
  match n, bm with
  | O, _ => Some 0
  | S n', [] => None
  | S n', w :: rest => if w =? 0 then Some 0 else r ← strnlen rest n'; Some (1 + r)
  end.

Inductive scan_result :=
| Found (pos : Z)
| OutOfFuel
| Undefined.

(** The loop over whole words for requests of more than [ulsize] bits. *)
Fixpoint scan_words (fuel : nat) (bm : list Z) (num_ulongs needed i : Z) : scan_result :=
  if num_ulongs <=? i then Found (-1) else
  match fuel with
  | O => OutOfFuel
  | S f =>
      match strnlen (drop (Z.to_nat i) bm) (Z.to_nat needed) with
      | None => Undefined
      | Some n => if n =? needed then Found (i * ulsize)
                  else scan_words f bm num_ulongs needed (i + n)
      end
  end.

(** The inner loop over shifts of the mask within word [cur]. *)
Fixpoint scan_shifts (cur mask : Z) (j : Z) (count : nat) : option Z :=
  match count with
  | O => None
  | S c => if Z.land cur (u64 (Z.shiftl mask j)) =? 0 then Some j
           else scan_shifts cur mask (j + 1) c
  end.
Fixpoint scan_in_words (bm : list Z) (num_zeroes i : Z) : scan_result :=
  match bm with
  | [] => Found (-1)
  | cur :: rest =>
      if (num_zeroes =? ulsize) && (cur =? 0) then Found (i * ulsize)
      else if num_zeroes =? ulsize then scan_in_words rest num_zeroes (i + 1)
      else
        let mask := bnot 64 (Z.shiftr (Z.ones 64) num_zeroes) in
        match scan_shifts cur mask 0 (Z.to_nat (ulsize - num_zeroes)) with
        | Some j => Found (i * ulsize + j)
        | None => scan_in_words rest num_zeroes (i + 1)
        end
  end.
Definition bitmap_scan_chain_zeroes (fuel : nat) (bm : list Z) (num_ulongs num_zeroes : Z) : scan_result :=
  if num_zeroes =? 1 then Found (bitmap_scan_single_zero bm num_ulongs)
  else if ulsize <? num_zeroes then
    scan_words fuel bm num_ulongs (div_round_up num_zeroes ulsize) 0
  else scan_in_words (take (Z.to_nat num_ulongs) bm) num_zeroes 0.

(** The branch of the chain operations for fewer than [ulsize] bits: [upd w m]
    is the word update ([|= m] or [&= ~m]). *)
Definition chain_small (upd : Z -> Z -> Z) (bm : list Z) (bit_pos num_bits : Z) : option (list Z) :=
  let ulpos := bit_pos / ulsize in
  let bit_off := bit_pos mod ulsize in
  mask ← (if num_bits =? 1 then Some 1 else shr 64 (Z.ones 64) (ulsize - num_bits));
  m0 ← shl 64 mask bit_off;
  w0 ← word_at bm ulpos;
  bm1 ← word_set bm ulpos (upd w0 m0);
  if ulsize <? bit_off + num_bits then
    m1 ← shr 64 mask ((num_bits + bit_off) mod ulsize);
    w1 ← word_at bm1 (ulpos + 1);
    word_set bm1 (ulpos + 1) (upd w1 m1)
  else Some bm1.

Definition set_word (w m : Z) : Z := Z.lor w m.
Definition clear_word (w m : Z) : Z := Z.land w (bnot 64 m).

(** [bitmap_set_chain_bits] recurses on the bits left after the first word;
    every call but the last consumes at least one word, so the number of words
    plus one is enough fuel ([set_chain_fuel] below). *)
Fixpoint set_chain_rec (fuel : nat) (bm : list Z) (bit_pos num_bits : Z) : option (list Z) :=
  match fuel with
  | O => None
  | S f =>
      if num_bits =? 1 then bitmap_set_bit bm bit_pos
      else if ulsize <=? num_bits then
        let ulpos := bit_pos / ulsize in
        let bit_off := bit_pos mod ulsize in
        let actual := Z.min num_bits (ulsize - bit_off) in
        m ← shl 64 (Z.ones 64) bit_off;
        w ← word_at bm ulpos;
        bm1 ← word_set bm ulpos (set_word w m);
        if actual <? num_bits then set_chain_rec f bm1 (bit_pos + actual) (num_bits - actual)
        else Some bm1
      else chain_small set_word bm bit_pos num_bits
  end.
Definition set_chain_fuel (num_bits : Z) : nat := Z.to_nat (num_bits / ulsize + 3).
Definition bitmap_set_chain_bits (bm : list Z) (bit_pos num_bits : Z) : option (list Z) :=
  set_chain_rec (set_chain_fuel num_bits) bm bit_pos num_bits.

Definition bitmap_clear_chain_bits (bm : list Z) (bit_pos num_bits : Z) : option (list Z) :=
  if num_bits =? 1 then bitmap_clear_bit bm bit_pos
  else if ulsize <=? num_bits then
    let ulpos := bit_pos / ulsize in
    let bit_off := bit_pos mod ulsize in
    let actual := Z.min num_bits (ulsize - bit_off) in
    m ← shl 64 (Z.ones 64) bit_off;
    w ← word_at bm ulpos;
    bm1 ← word_set bm ulpos (clear_word w m);
    if actual <? num_bits then bitmap_set_chain_bits bm1 (bit_pos + actual) (num_bits - actual)
    else Some bm1
  else chain_small clear_word bm bit_pos num_bits.

(** ** Specification: the bitmap as a set of bit positions *)
Definition bit (bm : list Z) (p : Z) : bool :=
  match word_at bm (p / ulsize) with Some w => Z.testbit w (p mod ulsize) | None => false end.
Definition wf (bm : list Z) : Prop := Forall is_u64 bm.
Definition nbits (bm : list Z) : Z := ulsize * Z.of_nat (length bm).

(** ** Lemmas on words *)
Lemma word_at_Some bm i : 0 <= i < Z.of_nat (length bm) -> exists w, word_at bm i = Some w.
Proof.
  intros Hi. unfold word_at. case_cmp; [|lia].
  apply lookup_lt_is_Some_2. lia.
Qed.

Lemma word_at_range bm i w : wf bm -> word_at bm i = Some w -> is_u64 w.
Proof.
  unfold word_at, wf. intros Hwf. case_cmp; [|done].
  intros Hl. by eapply Forall_lookup_1 in Hl.
Qed.

Lemma word_set_spec bm i w bm' :
  word_set bm i w = Some bm' -> wf bm -> is_u64 w ->
  wf bm' /\ length bm' = length bm /\
  (forall j, word_at bm' j = if j =? i then Some w else word_at bm j).
Proof.
  unfold word_set. intros Hs Hwf Hw. destruct (word_at bm i) as [v|] eqn:E; [|done].
  simpl in Hs; simplify_eq. split; [by apply Forall_insert|split; [apply length_insert|]].
  intros j. unfold word_at in *. case_cmp_in E; [|done].
  pose proof (lookup_lt_Some _ _ _ E). case_cmp; subst; try lia; try done.
  - by apply list_lookup_insert_eq.
  - apply list_lookup_insert_ne; lia.
Qed.

Lemma word_set_Some bm i w v : word_at bm i = Some v -> exists bm', word_set bm i w = Some bm'.
Proof. unfold word_set. intros ->. simpl; eauto. Qed.

(** Changing one word changes the 64 bits it holds and no other. *)
Lemma bit_word_set bm i w bm' q :
  word_set bm i w = Some bm' -> wf bm -> is_u64 w ->
  bit bm' q = if q / ulsize =? i then Z.testbit w (q mod ulsize) else bit bm q.
Proof.
  intros Hs Hwf Hw. destruct (word_set_spec _ _ _ _ Hs Hwf Hw) as (_ & _ & Hj).
  unfold bit. rewrite Hj. by case_cmp.
Qed.

Lemma bit_of_word bm q w :
  word_at bm (q / ulsize) = Some w -> bit bm q = Z.testbit w (q mod ulsize).
Proof. unfold bit. by intros ->. Qed.

Lemma ulsize_mod q : 0 <= q mod ulsize < ulsize.
Proof. apply Z.mod_pos_bound. unfold ulsize; lia. Qed.

(** Index of the word that holds an in-range bit. *)
Lemma word_of_bit bm p : 0 <= p < nbits bm -> exists w, word_at bm (p / ulsize) = Some w.
Proof. unfold nbits, ulsize. intros Hp. apply word_at_Some. zlia. Qed.

(** ** Single bits *)
Lemma one_bit m n i : 0 <= i -> 0 <= n -> shl 64 1 n = Some m -> i < 64 -> Z.testbit m i = (i =? n).
Proof.
  intros Hi Hn Hm Hlt. rewrite (shl_testbit _ _ _ _ _ Hi Hm).
  destruct (Z.ltb_spec i 64); [|lia]. simpl.
  destruct (Z.eqb_spec i n) as [->|Hne]; [by rewrite Z.sub_diag|].
  destruct (Z.ltb_spec i n); [apply Z.testbit_neg_r; lia|].
  apply Z.bits_above_log2; simpl; lia.
Qed.

(** A word update that acts bitwise as [f]: [|= m] and [&= ~m] are the two
    instances the operations use. *)
Class BitUpdate (upd : Z -> Z -> Z) (f : bool -> bool -> bool) : Prop := {
  upd_range w m : is_u64 w -> is_u64 m -> is_u64 (upd w m);
  upd_bit w m i : 0 <= i < 64 -> Z.testbit (upd w m) i = f (Z.testbit w i) (Z.testbit m i);
  upd_skip b : f b false = b;
}.
#[export] Instance set_word_update : BitUpdate set_word orb.
Proof.
  split; intros; unfold set_word; auto with ooos; [apply lor_range; auto; lia|apply Z.lor_spec|by destruct b].
Qed.
#[export] Instance clear_word_update : BitUpdate clear_word (fun b m => b && negb m).
Proof.
  split; intros; unfold clear_word.
  - apply land_range; [lia|done|apply bnot_range; [lia|done]].
  - rewrite Z.land_spec, bnot_testbit by lia. destruct (Z.ltb_spec i 64); [|lia].
    by destruct (Z.testbit m i).
  - by destruct b.
Qed.

Section Update.
Context {upd : Z -> Z -> Z} {f : bool -> bool -> bool} `{HU : BitUpdate upd f}.

(** Read, update with a mask, write back: bit [q] of the bitmap goes through
    [f] with bit [q] of the mask if it lies in the word, and is kept otherwise. *)
Lemma update_word bm i w m :
  wf bm -> word_at bm i = Some w -> is_u64 m ->
  exists bm', word_set bm i (upd w m) = Some bm' /\ wf bm' /\ length bm' = length bm /\
    forall q, bit bm' q = f (bit bm q) ((q / ulsize =? i) && Z.testbit m (q mod ulsize)).
Proof.
  intros Hwf Hw Hm. destruct (word_set_Some bm i (upd w m) w Hw) as [bm' Hs].
  assert (is_u64 (upd w m)) as Hr by eauto using upd_range, word_at_range.
  exists bm'. destruct (word_set_spec _ _ _ _ Hs Hwf Hr) as (Hwf' & Hlen & _).
  do 3 (split; [done|]). intros q. rewrite (bit_word_set _ _ _ _ q Hs Hwf Hr).
  destruct (Z.eqb_spec (q / ulsize) i) as [<-|]; simpl.
  - rewrite upd_bit by apply ulsize_mod. by rewrite (bit_of_word _ _ _ Hw).
  - by rewrite upd_skip.
Qed.

Lemma update_one_bit bm p w m :
  wf bm -> 0 <= p -> word_at bm (p / ulsize) = Some w -> shl 64 1 (p mod ulsize) = Some m ->
  exists bm', word_set bm (p / ulsize) (upd w m) = Some bm' /\ wf bm' /\ length bm' = length bm /\
    forall q, 0 <= q -> bit bm' q = f (bit bm q) (q =? p).
Proof.
  intros Hwf Hp Hw Hm. destruct (update_word bm (p / ulsize) w m) as (bm' & Hs & Hwf' & Hl & Hb); eauto with ooos.
  { eapply shl_range; [|done]; lia. }
  exists bm'. do 3 (split; [done|]). intros q Hq. rewrite Hb. f_equal.
  pose proof (ulsize_mod q). pose proof (ulsize_mod p).
  rewrite (one_bit m (p mod ulsize)) by (done || unfold ulsize in *; lia).
  unfold ulsize in *. case_cmp; simpl; zlia.
Qed.
End Update.

Lemma set_bit_ok bm p :
  wf bm -> 0 <= p < nbits bm ->
  exists bm', bitmap_set_bit bm p = Some bm' /\ wf bm' /\ length bm' = length bm /\
    forall q, 0 <= q -> bit bm' q = bit bm q || (q =? p).
Proof.
  intros Hwf Hp. destruct (word_of_bit bm p Hp) as [w Hw].
  destruct (shl_Some 64 1 (p mod ulsize)) as [m Hm]; [apply ulsize_mod|].
  unfold bitmap_set_bit. rewrite Hw; simpl. rewrite Hm; simpl.
  apply (update_one_bit (upd := set_word)); auto; lia.
Qed.

Lemma clear_bit_ok bm p :
  wf bm -> 0 <= p < nbits bm ->
  exists bm', bitmap_clear_bit bm p = Some bm' /\ wf bm' /\ length bm' = length bm /\
    forall q, 0 <= q -> bit bm' q = bit bm q && negb (q =? p).
Proof.
  intros Hwf Hp. destruct (word_of_bit bm p Hp) as [w Hw].
  destruct (shl_Some 64 1 (p mod ulsize)) as [m Hm]; [apply ulsize_mod|].
  unfold bitmap_clear_bit. rewrite Hw; simpl. rewrite Hm; simpl.
  apply (update_one_bit (upd := clear_word) (f := fun b m => b && negb m)); auto; lia.
Qed.

(** ** Scanning for one zero *)
Lemma ctz_pos_nonneg p : 0 <= ctz_pos p.
Proof. induction p; simpl; lia. Qed.

Lemma ctzl_spec w :
  0 < w -> 0 <= ctzl w /\ Z.testbit w (ctzl w) = true /\
  forall i, 0 <= i < ctzl w -> Z.testbit w i = false.
Proof.
  destruct w as [|p|p]; try lia. intros _. simpl. split; [apply ctz_pos_nonneg|].
  induction p as [p IH|p IH|]; simpl; [split; [done|lia]| |split; [done|lia]].
  destruct IH as [IH1 IH2]. pose proof (ctz_pos_nonneg p).
  change (Z.pos p~0) with (2 * Z.pos p). split.
  - replace (1 + ctz_pos p) with (Z.succ (ctz_pos p)) by lia. by rewrite Z.double_bits_succ.
  - intros i Hi. destruct (Z.eq_dec i 0) as [->|]; [apply Z.testbit_even_0|].
    replace i with (Z.succ (i - 1)) by lia. rewrite Z.double_bits_succ. apply IH2; lia.
Qed.

Definition full (w : Z) : Prop := forall b, 0 <= b < 64 -> Z.testbit w b = true.

Lemma bnot_zero_full w : is_u64 w -> bnot 64 w = 0 -> full w.
Proof.
  intros Hw H0 b Hb. pose proof (bnot_testbit 64 w b) as Ht. rewrite H0, Z.bits_0 in Ht.
  destruct (Z.ltb_spec b 64); [|lia]. destruct (Z.testbit w b); [done|].
  specialize (Ht ltac:(lia) ltac:(lia)). done.
Qed.

Lemma bnot_first_zero w :
  is_u64 w -> bnot 64 w <> 0 ->
  let c := ctzl (bnot 64 w) in
  0 <= c < 64 /\ Z.testbit w c = false /\ forall b, 0 <= b < c -> Z.testbit w b = true.
Proof.
  intros Hw Hne c. pose proof (bnot_range 64 w ltac:(lia) Hw) as Hr.
  destruct (ctzl_spec (bnot 64 w)) as (H0 & H1 & H2); [destruct Hr; lia|]. fold c in H0, H1, H2.
  assert (c < 64) as Hc.
  { destruct (Z.ltb_spec c 64); [done|]. by rewrite (in_range_testbit 64) in H1. }
  rewrite bnot_testbit in H1 by lia. destruct (Z.ltb_spec c 64); [|lia].
  split; [lia|split].
  - by destruct (Z.testbit w c).
  - intros b Hb. specialize (H2 b Hb). rewrite bnot_testbit in H2 by lia.
    destruct (Z.ltb_spec b 64); [|lia]. by destruct (Z.testbit w b).
Qed.

Lemma scan_single_from_spec ws i :
  Forall is_u64 ws -> 0 <= i ->
  (scan_single_from ws i = -1 /\ Forall full ws) \/
  (exists k w c, ws !! k = Some w /\ 0 <= c < 64 /\
     scan_single_from ws i = ulsize * (i + Z.of_nat k) + c /\
     Z.testbit w c = false /\ (forall b, 0 <= b < c -> Z.testbit w b = true) /\
     Forall full (take k ws)).
Proof.
  intros Hws. revert i. induction Hws as [|w ws Hw Hws IH]; intros i Hi; [by left|]. simpl.
  destruct (Z.eqb_spec (bnot 64 w) 0) as [E|E].
  - pose proof (bnot_zero_full _ Hw E) as Hf.
    destruct (IH (i + 1) ltac:(lia)) as [[-> ?]|(k & v & c & Hk & Hc & -> & ?)].
    + left; split; [done|by constructor].
    + destruct_and!. right; exists (S k), v, c. simpl. split_and!; try done; [unfold ulsize; lia|].
      by constructor.
  - right. destruct (bnot_first_zero w Hw E) as (Hc & Hz & Hb).
    exists 0%nat, w, (ctzl (bnot 64 w)). simpl. split_and!; try done; unfold ulsize; lia.
Qed.

Lemma word_at_lookup bm k w : bm !! k = Some w -> word_at bm (Z.of_nat k) = Some w.
Proof. unfold word_at. case_cmp; [|lia]. by rewrite Nat2Z.id. Qed.

(** Bits of an all-ones prefix of the array are set. *)
Lemma full_prefix_bits bm k q :
  Forall full (take k bm) -> (k <= length bm)%nat -> 0 <= q < ulsize * Z.of_nat k -> bit bm q = true.
Proof.
  intros Hf Hk Hq. unfold ulsize in Hq.
  destruct (lookup_lt_is_Some_2 bm (Z.to_nat (q / ulsize))) as [w Hw]; [unfold ulsize; zlia|].
  assert (full w) as Hw'.
  { eapply Forall_lookup_1; [apply Hf|]. rewrite lookup_take_lt; [done|unfold ulsize; zlia]. }
  rewrite (bit_of_word bm q w); [apply Hw', ulsize_mod|].
  apply word_at_lookup in Hw. by rewrite Z2Nat.id in Hw by (unfold ulsize; zlia).
Qed.

(** ** Chains of bits *)
Lemma set_range_bit mask off n m i :
  0 <= i < 64 -> 0 < n -> 0 <= off -> off + n <= 64 ->
  (forall j, 0 <= j -> Z.testbit mask j = (j <? n)) -> shl 64 mask off = Some m ->
  Z.testbit m i = (off <=? i) && (i <? off + n).
Proof.
  intros Hi Hn Hoff Hfit Hmask Hs. rewrite (shl_testbit _ _ _ _ i ltac:(lia) Hs).
  destruct (Z.ltb_spec i 64); [simpl|lia].
  destruct (Z.leb_spec off i); simpl.
  - rewrite Hmask by lia. case_cmp; try done; lia.
  - apply Z.testbit_neg_r. lia.
Qed.

Lemma small_mask n :
  1 < n < 64 -> exists mask, shr 64 (Z.ones 64) (ulsize - n) = Some mask /\
    forall j, 0 <= j -> Z.testbit mask j = (j <? n).
Proof.
  intros Hn. destruct (shr_Some 64 (Z.ones 64) (ulsize - n)) as [mask Hm]; [unfold ulsize; lia|].
  exists mask. split; [done|]. intros j Hj.
  rewrite (shr_testbit _ _ _ _ _ Hj Hm), ones_testbit by (unfold ulsize; lia).
  unfold ulsize. case_cmp; try done; lia.
Qed.

(** Membership in a run of bits that stays within the word of its first bit. *)
Lemma in_word_run p n q :
  0 <= p -> 0 <= q -> 0 < n -> p mod ulsize + n <= ulsize ->
  (q / ulsize =? p / ulsize) && ((p mod ulsize <=? q mod ulsize) && (q mod ulsize <? p mod ulsize + n))
  = (p <=? q) && (q <? p + n).
Proof. unfold ulsize. intros. case_cmp; simpl; try done; zlia. Qed.

Section Chains.
Context {upd : Z -> Z -> Z} {f : bool -> bool -> bool} `{HU : BitUpdate upd f}.

(** A run of 2 to 63 bits that stays within one word is updated exactly. *)
Lemma chain_small_ok bm p n :
  wf bm -> 0 <= p -> 1 < n < 64 -> p mod ulsize + n <= ulsize -> p + n <= nbits bm ->
  exists bm', chain_small upd bm p n = Some bm' /\ wf bm' /\ length bm' = length bm /\
    forall q, 0 <= q -> bit bm' q = f (bit bm q) ((p <=? q) && (q <? p + n)).
Proof.
  intros Hwf Hp Hn Hfit Hlen. pose proof (ulsize_mod p) as Hmod.
  destruct (word_of_bit bm p) as [w Hw]; [lia|].
  destruct (small_mask n Hn) as (mask & Hmask & Hbits).
  destruct (shl_Some 64 mask (p mod ulsize)) as [m Hm]; [done|].
  destruct (update_word bm (p / ulsize) w m) as (bm' & Hs & Hwf' & Hl & Hb); auto.
  { eapply shl_range; [|done]; lia. }
  exists bm'. unfold chain_small. destruct (Z.eqb_spec n 1); [lia|].
  rewrite Hmask; simpl. rewrite Hm; simpl. rewrite Hw; simpl. rewrite Hs; simpl.
  destruct (Z.ltb_spec ulsize (p mod ulsize + n)); [lia|]. do 3 (split; [done|]).
  intros q Hq. rewrite Hb. f_equal.
  rewrite (set_range_bit mask (p mod ulsize) n m); auto; try (unfold ulsize in *; lia).
  - apply in_word_run; lia.
  - apply ulsize_mod.
Qed.

(** The first step of a run of at least 64 bits: from the first bit to the end
    of its word. *)
Lemma chain_first_word bm p n w m :
  wf bm -> 0 <= p -> 64 <= n -> word_at bm (p / ulsize) = Some w ->
  shl 64 (Z.ones 64) (p mod ulsize) = Some m ->
  exists bm', word_set bm (p / ulsize) (upd w m) = Some bm' /\ wf bm' /\ length bm' = length bm /\
    forall q, 0 <= q -> bit bm' q = f (bit bm q) ((p <=? q) && (q <? p + (ulsize - p mod ulsize))).
Proof.
  intros Hwf Hp Hn Hw Hm. pose proof (ulsize_mod p) as Hmod.
  destruct (update_word bm (p / ulsize) w m) as (bm' & Hs & Hwf' & Hl & Hb); auto.
  { eapply shl_range; [|done]; lia. }
  exists bm'. do 3 (split; [done|]). intros q Hq. rewrite Hb. f_equal.
  rewrite (shl_testbit _ _ _ _ _ (proj1 (ulsize_mod q)) Hm).
  pose proof (ulsize_mod q) as Hq'. rewrite <- in_word_run by (unfold ulsize in *; lia).
  f_equal. destruct (Z.leb_spec (p mod ulsize) (q mod ulsize)); simpl.
  - rewrite ones_testbit by (unfold ulsize in *; lia). unfold ulsize in *. case_cmp; try done; lia.
  - rewrite Z.testbit_neg_r by lia. by rewrite andb_false_r.
Qed.
End Chains.

(** The recursion of [bitmap_set_chain_bits] sets exactly its run, for every
    run whose part of less than a word does not straddle two words. *)
Lemma set_chain_rec_ok fuel bm p n :
  wf bm -> 0 <= p -> 1 <= n -> p + n <= nbits bm ->
  64 <= n \/ p mod ulsize + n <= ulsize ->
  (Z.to_nat (n / ulsize + (if p mod ulsize =? 0 then 1 else 2))%Z <= fuel)%nat ->
  exists bm', set_chain_rec fuel bm p n = Some bm' /\ wf bm' /\ length bm' = length bm /\
    forall q, 0 <= q -> bit bm' q = bit bm q || ((p <=? q) && (q <? p + n)).
Proof.
  revert bm p n. induction fuel as [|fuel IH]; intros bm p n Hwf Hp Hn Hlen Hshape Hfuel.
  { exfalso. unfold ulsize in *. case_cmp_in Hfuel; zlia. }
  pose proof (ulsize_mod p) as Hmod. simpl.
  destruct (Z.eqb_spec n 1) as [->|Hn1].
  { destruct (set_bit_ok bm p Hwf) as (bm' & Hs & ? & ? & Hb); [lia|].
    exists bm'. do 3 (split; [done|]). intros q Hq. rewrite Hb by done. f_equal. case_cmp; simpl; lia || done. }
  destruct (Z.leb_spec ulsize n) as [Hbig|Hsmall].
  2: { apply (chain_small_ok (upd := set_word) (f := orb)); auto; unfold ulsize in *; lia. }
  destruct (word_of_bit bm p) as [w Hw]; [lia|].
  destruct (shl_Some 64 (Z.ones 64) (p mod ulsize)) as [m Hm]; [done|].
  rewrite Hm; simpl. rewrite Hw; simpl.
  destruct (chain_first_word (upd := set_word) (f := orb) bm p n w m)
    as (bm1 & Hs & Hwf1 & Hl1 & Hb1); auto.
  rewrite Hs; simpl.
  replace (n `min` (ulsize - p mod ulsize)) with (ulsize - p mod ulsize) by lia.
  destruct (Z.ltb_spec (ulsize - p mod ulsize) n) as [Hmore|Hdone].
  - destruct (IH bm1 (p + (ulsize - p mod ulsize)) (n - (ulsize - p mod ulsize)))
      as (bm2 & H2 & Hwf2 & Hl2 & Hb2); auto; try lia.
    + unfold nbits in *. rewrite Hl1. lia.
    + unfold ulsize in *. destruct (Z.leb_spec 64 (n - (64 - p mod 64))); [by left|right]. zlia.
    + assert ((p + (ulsize - p mod ulsize)) mod ulsize = 0) as -> by (unfold ulsize in *; zlia).
      simpl. unfold ulsize in *. case_cmp_in Hfuel; zlia.
    + exists bm2. split; [done|]. split; [done|]. split; [congruence|].
      intros q Hq. rewrite Hb2, Hb1 by lia. rewrite <- orb_assoc. f_equal.
      case_cmp; simpl; try done; lia.
  - exists bm1. do 3 (split; [done|]). intros q Hq. rewrite Hb1 by done. do 2 f_equal.
    case_cmp; done || lia.
Qed.

(** A bitmap is determined by its length and its bits. *)
Lemma bits_ext bm bm' :
  wf bm -> wf bm' -> length bm = length bm' -> (forall q, 0 <= q -> bit bm q = bit bm' q) -> bm = bm'.
Proof.
  intros H H' Hl Hb. apply list_eq_same_length with (length bm); [done..|].
  intros k x y Hk Hx Hy. apply Z.bits_inj'; intros i Hi.
  pose proof (Forall_lookup_1 _ _ _ _ H Hx). pose proof (Forall_lookup_1 _ _ _ _ H' Hy).
  destruct (Z.ltb_spec i 64); [|by rewrite !(in_range_testbit 64) by done].
  specialize (Hb (ulsize * Z.of_nat k + i) ltac:(unfold ulsize; lia)).
  assert ((ulsize * Z.of_nat k + i) / ulsize = Z.of_nat k) as E1 by (unfold ulsize; zlia).
  assert ((ulsize * Z.of_nat k + i) mod ulsize = i) as E2 by (unfold ulsize; zlia).
  rewrite (bit_of_word _ _ x), (bit_of_word _ _ y), E2 in Hb; rewrite ?E1; auto using word_at_lookup.
Qed.

(** ** Properties *)

(** [bitmap_scan_single_zero] returns the position of the first clear bit of
    the first [n] words, and -1 exactly when all of them are set. *)
Theorem scan_single_zero_first bm n :
  wf bm -> 0 <= n <= Z.of_nat (length bm) ->
  let r := bitmap_scan_single_zero bm n in
  (r = -1 /\ forall q, 0 <= q < ulsize * n -> bit bm q = true) \/
  (0 <= r < ulsize * n /\ bit bm r = false /\ forall q, 0 <= q < r -> bit bm q = true).
Proof.
  intros Hwf Hn. unfold bitmap_scan_single_zero.
  destruct (scan_single_from_spec (take (Z.to_nat n) bm) 0) as [[-> Hf]|(k & w & c & Hk & Hc & -> & Hz & Hb & Hf)];
    [by apply Forall_take|lia|left; split; [done|]|right].
  { intros q Hq. eapply full_prefix_bits; [done|lia|unfold ulsize in *; lia]. }
  assert (k < Z.to_nat n)%nat as Hkn by (apply lookup_lt_Some in Hk; rewrite length_take in Hk; lia).
  rewrite lookup_take_lt in Hk by done. rewrite take_take, Nat.min_l in Hf by lia.
  assert (forall b, 0 <= b < 64 -> bit bm (ulsize * (0 + Z.of_nat k) + b) = Z.testbit w b) as Hbit.
  { intros b Hb'. rewrite (bit_of_word _ _ w).
    - f_equal. unfold ulsize; zlia.
    - rewrite <- (word_at_lookup _ _ _ Hk). f_equal. unfold ulsize; zlia. }
  split; [unfold ulsize in *; lia|]. split; [by rewrite Hbit|].
  intros q Hq. destruct (Z.ltb_spec q (ulsize * Z.of_nat k)).
  - apply (full_prefix_bits _ k); [done| |lia]. apply lookup_lt_Some in Hk. lia.
  - replace q with (ulsize * (0 + Z.of_nat k) + (q - ulsize * Z.of_nat k)) by lia.
    rewrite Hbit by (unfold ulsize in *; lia). apply Hb. lia.
Qed.

(** Setting an in-range clear bit succeeds, marks that bit and no other, and
    clearing it again restores the bitmap word for word. *)
Theorem set_clear_roundtrip bm p :
  wf bm -> 0 <= p < nbits bm -> bit bm p = false ->
  exists bm', bitmap_set_bit bm p = Some bm' /\
    (forall q, 0 <= q -> bit bm' q = bit bm q || (q =? p)) /\
    bitmap_clear_bit bm' p = Some bm.
Proof.
  intros Hwf Hp Hfree. destruct (set_bit_ok bm p Hwf Hp) as (bm' & Hs & Hwf' & Hl & Hb).
  exists bm'. do 2 (split; [done|]).
  destruct (clear_bit_ok bm' p Hwf') as (bm2 & Hc & Hwf2 & Hl2 & Hb2); [unfold nbits in *; by rewrite Hl|].
  rewrite Hc. f_equal. apply bits_ext; auto; [congruence|].
  intros q Hq. rewrite Hb2, Hb by done. destruct (Z.eqb_spec q p) as [->|]; simpl.
  - by rewrite Hfree, andb_false_r.
  - by rewrite orb_false_r, andb_true_r.
Qed.

(** [bitmap_set_chain_bits] terminates and sets exactly the [n] bits from [p]
    on, for every run that fits the bitmap and either has at least 64 bits or
    stays within one word. *)
Theorem set_chain_bits_exact bm p n :
  wf bm -> 0 <= p -> 1 <= n -> p + n <= nbits bm ->
  64 <= n \/ p mod ulsize + n <= ulsize ->
  exists bm', bitmap_set_chain_bits bm p n = Some bm' /\ wf bm' /\ length bm' = length bm /\
    forall q, 0 <= q -> bit bm' q = bit bm q || ((p <=? q) && (q <? p + n)).
Proof.
  intros. apply set_chain_rec_ok; auto. unfold set_chain_fuel, ulsize in *. case_cmp; zlia.
Qed.

(** [bitmap_clear_chain_bits] undoes [bitmap_set_chain_bits] on a run of free
    bits within one word: the bitmap is restored. *)
Theorem clear_chain_undoes_set bm p n bm' :
  wf bm -> 0 <= p -> 1 <= n < 64 -> p + n <= nbits bm -> p mod ulsize + n <= ulsize ->
  (forall q, p <= q < p + n -> bit bm q = false) ->
  bitmap_set_chain_bits bm p n = Some bm' -> bitmap_clear_chain_bits bm' p n = Some bm.
Proof.
  intros Hwf Hp Hn Hlen Hfit Hfree Hs.
  destruct (set_chain_rec_ok (set_chain_fuel n) bm p n) as (bm0 & Hs' & Hwf' & Hl & Hb); auto; try lia.
  { unfold set_chain_fuel, ulsize in *. case_cmp; zlia. }
  unfold bitmap_set_chain_bits in Hs. rewrite Hs in Hs'. simplify_eq.
  assert (exists bm2, bitmap_clear_chain_bits bm0 p n = Some bm2 /\ wf bm2 /\ length bm2 = length bm0 /\
    forall q, 0 <= q -> bit bm2 q = bit bm0 q && negb ((p <=? q) && (q <? p + n)))
    as (bm2 & Hc & Hwf2 & Hl2 & Hb2).
  { unfold bitmap_clear_chain_bits. destruct (Z.eqb_spec n 1) as [->|].
    - destruct (clear_bit_ok bm0 p Hwf') as (bm2 & ? & ? & ? & Hb2); [unfold nbits in *; rewrite Hl; lia|].
      exists bm2. split_and!; auto. intros q Hq. rewrite Hb2 by done. do 2 f_equal. case_cmp; simpl; lia || done.
    - destruct (Z.leb_spec ulsize n); [unfold ulsize in *; lia|].
      apply (chain_small_ok (upd := clear_word) (f := fun b m => b && negb m)); auto; try lia.
      unfold nbits in *. by rewrite Hl. }
  rewrite Hc. f_equal. apply bits_ext; auto; [congruence|].
  intros q Hq. rewrite Hb2, Hb by done.
  destruct ((p <=? q) && (q <? p + n)) eqn:E; simpl.
  - rewrite andb_false_r. symmetry. apply Hfree. blia.
  - by rewrite orb_false_r, andb_true_r.
Qed.

(** [bitmap_scan_chain_zeroes] asked for more than 64 bits never returns when
    the first word of the bitmap is free: its loop advances by the length of the
    run of non-zero words, which is 0 there, so no amount of fuel is enough. *)
Theorem scan_chain_zeroes_diverges fuel rest n k :
  1 <= n -> 64 < k -> bitmap_scan_chain_zeroes fuel (0 :: rest) n k = OutOfFuel.
Proof.
  intros Hn Hk. unfold bitmap_scan_chain_zeroes.
  destruct (Z.eqb_spec k 1); [lia|]. destruct (Z.ltb_spec ulsize k); [|unfold ulsize in *; lia].
  assert (2 <= div_round_up k ulsize) as Hd.
  { pose proof (div_round_up_spec k ulsize). unfold ulsize in *. nia. }
  induction fuel as [|f IH]; simpl; (destruct (Z.leb_spec n 0); [lia|]); [done|].
  destruct (Z.to_nat (div_round_up k ulsize)) as [|m] eqn:E; [lia|]. simpl.
  destruct (div_round_up k ulsize) as [|d|d]; [lia|exact IH|lia].
Qed.

(** ** Witnesses *)
Lemma scan_single_zero_first_witness :
  bitmap_scan_single_zero [Z.ones 64; 5] 2 = 65 /\
  ((bitmap_scan_single_zero [Z.ones 64; 5] 2 = -1 /\ forall q, 0 <= q < ulsize * 2 -> bit [Z.ones 64; 5] q = true) \/
   (0 <= bitmap_scan_single_zero [Z.ones 64; 5] 2 < ulsize * 2 /\
    bit [Z.ones 64; 5] (bitmap_scan_single_zero [Z.ones 64; 5] 2) = false /\
    forall q, 0 <= q < bitmap_scan_single_zero [Z.ones 64; 5] 2 -> bit [Z.ones 64; 5] q = true)).
Proof.
  split; [reflexivity|]. apply (scan_single_zero_first [Z.ones 64; 5] 2); [|simpl; lia].
  repeat constructor; vm_compute; congruence.
Defined.

Lemma set_clear_roundtrip_witness :
  exists bm', bitmap_set_bit [1; 0] 70 = Some bm' /\
    (forall q, 0 <= q -> bit bm' q = bit [1; 0] q || (q =? 70)) /\ bitmap_clear_bit bm' 70 = Some [1; 0].
Proof.
  apply (set_clear_roundtrip [1; 0] 70); [repeat constructor; vm_compute; congruence|vm_compute; split; congruence|reflexivity].
Defined.

Lemma set_chain_bits_exact_witness :
  bitmap_set_chain_bits [0; 0; 0] 60 72 = Some [0xF000000000000000; Z.ones 64; 15] /\
  exists bm', bitmap_set_chain_bits [0; 0; 0] 60 72 = Some bm' /\ wf bm' /\ length bm' = length [0; 0; 0] /\
    forall q, 0 <= q -> bit bm' q = bit [0; 0; 0] q || ((60 <=? q) && (q <? 60 + 72)).
Proof.
  split; [reflexivity|]. apply (set_chain_bits_exact [0; 0; 0] 60 72); [repeat constructor; vm_compute; congruence|lia|lia|vm_compute; congruence|left; lia].
Defined.

Lemma clear_chain_undoes_set_witness :
  bitmap_clear_chain_bits [6; 0x1F8] 67 6 = Some [6; 0].
Proof.
  apply (clear_chain_undoes_set [6; 0] 67 6 [6; 0x1F8]);
    [repeat constructor; vm_compute; congruence|lia|lia|vm_compute; congruence|vm_compute; congruence| |reflexivity].
  intros q Hq. assert (q = 67 \/ q = 68 \/ q = 69 \/ q = 70 \/ q = 71 \/ q = 72) as Hc by lia.
  destruct Hc as [->|[->|[->|[->|[->| ->]]]]]; reflexivity.
Defined.

Lemma scan_chain_zeroes_diverges_witness :
  bitmap_scan_chain_zeroes 1000 [0; 0; 0] 3 128 = OutOfFuel.
Proof. apply (scan_chain_zeroes_diverges 1000 [0; 0] 3 128); lia. Defined.

(** ** Concrete runs *)

(** A run of 6 bits from bit 60 also sets bits 66 and 67, past its end. *)
Example set_chain_straddle : bitmap_set_chain_bits [0; 0] 60 6 = Some [0xF000000000000000; 15].
Proof. reflexivity. Qed.

(** Clearing 128 bits from bit 0 of a full bitmap clears the first word and
    leaves the second one set. *)
Example clear_chain_long : bitmap_clear_chain_bits [Z.ones 64; Z.ones 64] 0 128 = Some [0; Z.ones 64].
Proof. reflexivity. Qed.

(** Asked for two free bits in a word whose bit 0 is used, the scan returns 0. *)
Example scan_chain_used : bitmap_scan_chain_zeroes 10 [1] 1 2 = Found 0.
Proof. reflexivity. Qed.

End Bitmap.
