(* ===== verification/Region.v ===== *)
(** Stage 1 of the kernel heap: the region allocator of [kernel_memory_mgr]
    (kernel/mm/kernel_mm.cpp and common/include/kernel/kernel_mm.hpp).

    Physical memory is divided into regions of 512 pages; one status byte per
    region records which of its eight blocks are in use.  The status bytes are
    kept in arrays of 512, one array per gigabyte; here they are one list, and
    [sb_index] computes the position the source's two indices denote. *)
From S2P Require Import Prelude.

Module Region.

Definition page_size : Z := 0x1000.
Definition page_table_length : Z := 0x200.
Definition region_size : Z := page_size * page_table_length.
Definition gigabyte : Z := 0x40000000.
Definition sizeof_block_tag : Z := 64.

Inductive block_idx := I0 | I1 | I2 | I3 | I4 | I5 | I6 | I7 | ALL.
Definition idx_val (i : block_idx) : Z :=
  match i with
  | I0 => 0x01 | I1 => 0x02 | I2 => 0x04 | I3 => 0x08
  | I4 => 0x10 | I5 => 0x20 | I6 => 0x40 | I7 => 0x80 | ALL => 0xFF
  end.
Inductive block_size := S512 | S256 | S128 | S64 | S32 | S16 | S08 | S04.
Definition size_val (s : block_size) : Z :=
  match s with
  | S512 => 512 * page_size | S256 => 256 * page_size | S128 => 128 * page_size | S64 => 64 * page_size
  | S32 => 32 * page_size | S16 => 16 * page_size | S08 => 8 * page_size | S04 => 4 * page_size
  end.
#[export] Instance block_size_eq_dec : EqDecision block_size.
Proof. solve_decision. Defined.
#[export] Instance block_idx_eq_dec : EqDecision block_idx.
Proof. solve_decision. Defined.

(** ** Status bytes *)
Definition sb_has (b i : Z) : bool := Z.land b i =? 0.
Definition all_free (b : Z) : bool := b =? 0.
Definition has_free (b : Z) (i : block_idx) : bool := sb_has b (idx_val i).
Definition all_used (b : Z) : bool := b =? 0xFF.
Definition set_used (b : Z) (i : block_idx) : Z := Z.lor b (idx_val i).
Definition set_free (b : Z) (i : block_idx) : Z := Z.land b (bnot 8 (idx_val i)).
(** [operator[](block_size)] *)
Definition sb_size (b : Z) (s : block_size) : bool :=
  match s with
  | S04 => sb_has b (idx_val I7) || sb_has b (idx_val I6)
  | S08 => sb_has b (idx_val I5)
  | S16 => sb_has b (idx_val I4)
  | S32 => sb_has b (idx_val I3)
  | S64 => sb_has b (idx_val I2)
  | S128 => sb_has b (idx_val I1)
  | S256 => sb_has b (idx_val I0)
  | S512 => sb_has b (idx_val ALL)
  end.
(** Both results are converted to a 32-bit [unsigned int]. *)
Definition gb_of (addr : Z) : Z := u32 (addr / gigabyte).
Definition sb_of (addr : Z) : Z := (addr / region_size) mod 512.

(** ** Sizes and offsets *)
Definition clzl (x : Z) : Z := 63 - Z.log2 x.
Definition clzb (b : Z) : Z := clzl b - 8 * (8 - 1).
Definition ramp_shift (base i : Z) : Z := if i =? 0 then 0 else base * Z.shiftl 1 (i - 1).
Definition block_offset (addr : Z) (idx : block_idx) : Z :=
  u64 (addr + ramp_shift (size_val S04) (clzb (idx_val idx))).
Definition nearest (sz : Z) : block_size :=
  if sz <=? size_val S04 then S04 else if sz <=? size_val S08 then S08
  else if sz <=? size_val S16 then S16 else if sz <=? size_val S32 then S32
  else if sz <=? size_val S64 then S64 else if sz <=? size_val S128 then S128
  else if sz <=? size_val S256 then S256 else S512.
Definition region_size_for (sz : Z) : Z :=
  if size_val S512 <? sz then up_to_nearest sz region_size else size_val (nearest sz).

(** ** The memory manager *)
Record kmm := MkKmm {
  status_bytes : list Z;
  num_status_bytes : Z;
  kernel_heap_begin : Z;
  watermark : Z;
}.
Definition with_status (s : kmm) (l : list Z) : kmm :=
  MkKmm l (num_status_bytes s) (kernel_heap_begin s) (watermark s).
Definition with_watermark (s : kmm) (w : Z) : kmm :=
  MkKmm (status_bytes s) (num_status_bytes s) (kernel_heap_begin s) w.

(** [__get_sb]: element [sb_of addr] of array [gb_of addr]. *)
Definition sb_index (addr : Z) : Z := gb_of addr * 512 + sb_of addr.
Definition status (s : kmm) (addr : Z) : outcome Z := array_get (status_bytes s) (sb_index addr).
Definition set_status (s : kmm) (addr b : Z) : outcome kmm :=
  l ← array_set (status_bytes s) (sb_index addr) b; Done (with_status s l).
Definition mark (f : Z -> block_idx -> Z) (s : kmm) (addr : Z) (i : block_idx) : outcome kmm :=
  b ← status s addr; set_status s addr (f b i).

Definition claim_region (s : kmm) (addr : Z) (idx : block_idx) : outcome (Z * kmm) :=
  s' ← mark set_used s addr idx; Done (block_offset addr idx, s').

(** [n] consecutive regions from [start] on ([__mark_used], and the marking
    loops of [__find_and_claim] and [__release_region]). *)
Fixpoint mark_regions (f : Z -> block_idx -> Z) (s : kmm) (start : Z) (n : nat) : outcome kmm :=
  match n with
  | O => Done s
  | S n' => s' ← mark f s start ALL; mark_regions f s' (u64 (start + region_size)) n'
  end.
Definition mark_used (s : kmm) (start num_regions : Z) : outcome kmm :=
  mark_regions set_used s start (Z.to_nat num_regions).

(** Search for [num_regions] consecutive free regions; [n] are still missing
    and the current run starts at [result].  [None]: the end was reached. *)
Fixpoint search_large (fuel : nat) (s : kmm) (num_regions n addr result : Z) : outcome (option (Z * kmm)) :=
  if (gb_of addr <? num_status_bytes s) && (0 <? n) then
    match fuel with
    | O => NoFuel
    | S f =>
        b ← status s addr;
        if all_free b then
          let n' := n - 1 in
          if n' =? 0 then
            s' ← mark_regions set_used s result (Z.to_nat ((addr - result) / region_size + 1));
            Done (Some (result, s'))
          else search_large f s num_regions n' (u64 (addr + region_size)) result
        else search_large f s num_regions num_regions (u64 (addr + region_size)) (u64 (addr + region_size))
    end
  else Done None.

Fixpoint search_small (fuel : nat) (s : kmm) (bs : block_size) (addr : Z) : outcome (option (Z * kmm)) :=
  if gb_of addr <? num_status_bytes s then
    match fuel with
    | O => NoFuel
    | S f =>
        b ← status s addr;
        if sb_size b bs then
          r ← match bs with
              | S04 => claim_region s addr (if has_free b I7 then I7 else I6)
              | S08 => claim_region s addr I5
              | S16 => claim_region s addr I4
              | S32 => claim_region s addr I3
              | S64 => claim_region s addr I2
              | S128 => claim_region s addr I1
              | _ => claim_region s addr I0
              end;
          Done (Some r)
        else search_small f s bs (u64 (addr + region_size))
    end
  else Done None.

(** One pass over the status bytes; every step moves one region up, so one more
    step than there are regions is enough. *)
Definition search (s : kmm) (sz : Z) : outcome (option (Z * kmm)) :=
  let addr := u64 (up_to_nearest (watermark s) region_size) in
  let fuel := S (length (status_bytes s)) in
  if size_val S256 <? sz then
    let num_regions := div_round_up sz region_size in
    search_large fuel s num_regions num_regions addr addr
  else search_small fuel s (nearest sz) addr.

(** [__find_and_claim] calls itself with the watermark reset when nothing was
    found; the guard fails on the second call, so depth 2 is enough. *)
Fixpoint find_and_claim_rec (depth : nat) (s : kmm) (sz : Z) : outcome (Z * kmm) :=
  match depth with
  | O => NoFuel
  | S d =>
      r ← search s sz;
      match r with
      | Some res => Done res
      | None =>
          let base := u64 (kernel_heap_begin s + num_status_bytes s) in
          if base <? watermark s then find_and_claim_rec d (with_watermark s base) sz
          else Done (0, s)
      end
  end.
Definition find_and_claim (s : kmm) (sz : Z) : outcome (Z * kmm) := find_and_claim_rec 2 s sz.

Definition release_region (s : kmm) (sz start : Z) : outcome kmm :=
  let bs := nearest sz in
  if size_val S256 <? sz then
    mark_regions set_free s start (Z.to_nat (div_round_up sz region_size))
  else
    match bs with
    | S256 => mark set_free s start I0
    | S128 => mark set_free s start I1
    | S64 => mark set_free s start I2
    | S32 => mark set_free s start I3
    | S16 => mark set_free s start I4
    | S08 => mark set_free s start I5
    | _ => mark set_free s start (if start mod region_size =? 0 then I7 else I6)
    end.

(** [allocate_kernel_block]: the block handed out starts [sizeof(block_tag)]
    bytes below the claimed region, and the watermark is raised to it.  The
    locking and the switch to the kernel's page tables around it have no effect
    on the region state. *)
Definition allocate_kernel_block (s : kmm) (sz : Z) : outcome (Z * kmm) :=
  '(a, s1) ← find_and_claim s sz;
  let result := u64 (a - sizeof_block_tag) in
  Done (result, with_watermark s1 (Z.max result (watermark s1))).

(** ** Specification: memory as a set of pages

    Block [i] of a region covers pages [idx_first i] to
    [idx_first i + idx_pages i - 1] of it; page [o] of a region is covered by
    the block of bit [page_bit o]. *)
Definition idx_first (i : block_idx) : Z :=
  match i with I7 => 0 | I6 => 4 | I5 => 8 | I4 => 16 | I3 => 32 | I2 => 64 | I1 => 128 | I0 => 256 | ALL => 0 end.
Definition idx_pages (i : block_idx) : Z :=
  match i with I7 => 4 | I6 => 4 | I5 => 8 | I4 => 16 | I3 => 32 | I2 => 64 | I1 => 128 | I0 => 256 | ALL => 512 end.
Definition page_bit (o : Z) : Z := if o <? 4 then 7 else 8 - Z.log2 o.
Definition page_used (s : kmm) (p : Z) : bool :=
  match status_bytes s !! Z.to_nat (p / 512) with
  | Some b => Z.testbit b (page_bit (p mod 512))
  | None => true
  end.
Definition in_pages (first n p : Z) : bool := (first <=? p) && (p <? first + n).

(** The manager's invariant: one byte per region, and addresses far enough
    from the end of the address space that none of the arithmetic wraps. *)
Record wf (s : kmm) : Prop := {
  wf_len : Z.of_nat (length (status_bytes s)) = 512 * num_status_bytes s;
  wf_num : 0 <= num_status_bytes s <= 2 ^ 31;
  wf_bytes : Forall is_u8 (status_bytes s);
  wf_heap : 0 <= kernel_heap_begin s < 2 ^ 60;
  wf_mark : 0 <= watermark s < 2 ^ 61;
}.

Lemma in_pages_spec a n p : reflect (a <= p < a + n) (in_pages a n p).
Proof. unfold in_pages. apply iff_reflect. rewrite andb_true_iff, Z.leb_le, Z.ltb_lt. done. Qed.
(** Split on every span test of the goal and discard the impossible cases. *)
Ltac case_pages :=
  repeat match goal with
  | |- context [in_pages ?a ?n ?p] => destruct (in_pages_spec a n p)
  end.

(** ** Status byte lemmas *)
Lemma page_bit_range o : 0 <= o < 512 -> 0 <= page_bit o < 8.
Proof.
  intros Ho. unfold page_bit. case_cmp; [lia|].
  assert (2 <= Z.log2 o) by (apply Z.log2_le_pow2; lia).
  assert (Z.log2 o < 9) by (apply Z.log2_lt_pow2; lia). lia.
Qed.

Lemma idx_val_range i : is_u8 (idx_val i).
Proof. destruct i; vm_compute; split; congruence. Qed.

(** Each block index has the bits of exactly the pages it covers. *)
Lemma idx_val_pages i o :
  0 <= o < 512 -> Z.testbit (idx_val i) (page_bit o) = in_pages (idx_first i) (idx_pages i) o.
Proof.
  intros Ho.
  assert (forallb (fun k => forallb (fun i => Bool.eqb (Z.testbit (idx_val i) (page_bit (Z.of_nat k)))
            (in_pages (idx_first i) (idx_pages i) (Z.of_nat k)))
            [I0; I1; I2; I3; I4; I5; I6; I7; ALL]) (seq 0 512) = true) as H by (vm_compute; reflexivity).
  rewrite forallb_forall in H. specialize (H (Z.to_nat o)). rewrite in_seq, forallb_forall in H.
  specialize (H ltac:(lia) i). rewrite Z2Nat.id in H by lia. apply eqb_prop, H. destruct i; simpl; tauto.
Qed.

(** Every bit of a status byte is the bit of some page. *)
Lemma bit_has_page j : 0 <= j < 8 -> exists o, 0 <= o < 512 /\ page_bit o = j.
Proof.
  intros Hj. assert (j = 0 \/ j = 1 \/ j = 2 \/ j = 3 \/ j = 4 \/ j = 5 \/ j = 6 \/ j = 7) as Hc by lia.
  destruct Hc as [->|[->|[->|[->|[->|[->|[->| ->]]]]]]];
    [exists 256|exists 128|exists 64|exists 32|exists 16|exists 8|exists 4|exists 0]; split; [lia|reflexivity|..];
    lia || reflexivity.
Qed.

Lemma set_used_range b i : is_u8 b -> is_u8 (set_used b i).
Proof. intros. apply lor_range; [lia|done|apply idx_val_range]. Qed.
Lemma set_free_range b i : is_u8 b -> is_u8 (set_free b i).
Proof. intros. apply land_range; [lia|done|apply bnot_range; [lia|apply idx_val_range]]. Qed.

Lemma set_used_page b i o :
  0 <= o < 512 ->
  Z.testbit (set_used b i) (page_bit o) = Z.testbit b (page_bit o) || in_pages (idx_first i) (idx_pages i) o.
Proof. intros. unfold set_used. by rewrite Z.lor_spec, idx_val_pages. Qed.
Lemma set_free_page b i o :
  0 <= o < 512 ->
  Z.testbit (set_free b i) (page_bit o) = Z.testbit b (page_bit o) && negb (in_pages (idx_first i) (idx_pages i) o).
Proof.
  intros Ho. pose proof (page_bit_range o Ho). unfold set_free.
  rewrite Z.land_spec, bnot_testbit, idx_val_pages by lia.
  destruct (Z.ltb_spec (page_bit o) 8); [|lia]. by rewrite xorb_true_r.
Qed.

(** A block is free exactly when none of its pages is used. *)
Lemma sb_has_pages b i :
  is_u8 b -> has_free b i = true <->
  forall o, 0 <= o < 512 -> in_pages (idx_first i) (idx_pages i) o = true -> Z.testbit b (page_bit o) = false.
Proof.
  intros Hb. unfold has_free, sb_has. rewrite Z.eqb_eq. split.
  - intros H0 o Ho Hin. rewrite <- idx_val_pages in Hin by done.
    pose proof (Z.land_spec b (idx_val i) (page_bit o)) as Hl. rewrite H0, Z.bits_0, Hin in Hl.
    by rewrite andb_true_r in Hl.
  - intros Hfree. apply Z.bits_inj'; intros j Hj. rewrite Z.land_spec, Z.bits_0.
    destruct (Z.ltb_spec j 8); [|by rewrite (in_range_testbit 8 b)].
    destruct (bit_has_page j) as (o & Ho & <-); [lia|].
    destruct (in_pages (idx_first i) (idx_pages i) o) eqn:E.
    + by rewrite Hfree.
    + by rewrite idx_val_pages, E, andb_false_r.
Qed.

Lemma all_free_has b : all_free b = has_free b ALL && all_free b.
Proof. unfold all_free. case_cmp; [by subst|by rewrite andb_false_r]. Qed.

(** ** Addresses and regions *)
Lemma sb_index_region addr : 0 <= addr < 2 ^ 62 -> sb_index addr = addr / region_size.
Proof.
  intros Ha. unfold sb_index, gb_of, sb_of.
  assert (0 <= addr / gigabyte < 2 ^ 32) by (unfold gigabyte; zlia).
  rewrite wrap_small by done. unfold gigabyte, region_size, page_size, page_table_length in *. zlia.
Qed.

Lemma gb_of_bound addr n : 0 <= addr < 2 ^ 62 -> (gb_of addr <? n) = (addr / region_size <? 512 * n).
Proof.
  intros Ha. unfold gb_of.
  assert (0 <= addr / gigabyte < 2 ^ 32) by (unfold gigabyte; zlia).
  rewrite wrap_small by done. unfold gigabyte, region_size, page_size, page_table_length in *.
  case_cmp; try done; zlia.
Qed.

Ltac runfold := unfold region_size, page_size, page_table_length, gigabyte in *.

Lemma status_at s addr :
  wf s -> 0 <= addr < 2 ^ 62 -> addr / region_size < 512 * num_status_bytes s ->
  exists b, status s addr = Done b /\ is_u8 b /\ status_bytes s !! Z.to_nat (addr / region_size) = Some b.
Proof.
  intros Hwf Ha Hr. unfold status. rewrite sb_index_region by done.
  destruct (array_get_is_Done (status_bytes s) (addr / region_size)) as [b Hb].
  { rewrite (wf_len s Hwf). runfold. zlia. }
  exists b. split; [done|]. apply array_get_Done in Hb as [_ Hb]. split; [|done].
  eapply Forall_lookup_1 in Hb; [|apply (wf_bytes s Hwf)]. done.
Qed.

Definition same_cfg (s s' : kmm) : Prop :=
  num_status_bytes s' = num_status_bytes s /\ kernel_heap_begin s' = kernel_heap_begin s /\
  watermark s' = watermark s.
Lemma same_cfg_refl s : same_cfg s s.
Proof. done. Qed.
Lemma same_cfg_trans s1 s2 s3 : same_cfg s1 s2 -> same_cfg s2 s3 -> same_cfg s1 s3.
Proof. unfold same_cfg. intuition congruence. Qed.

(** ** Marking blocks

    [set_used] and [set_free] act on the pages of the block as a Boolean
    operation; both are instances of one interface, so the lemmas on marking
    are proved once. *)
Class BlockUpdate (f : Z -> block_idx -> Z) (g : bool -> bool -> bool) : Prop := {
  bu_range b i : is_u8 b -> is_u8 (f b i);
  bu_page b i o : 0 <= o < 512 ->
    Z.testbit (f b i) (page_bit o) = g (Z.testbit b (page_bit o)) (in_pages (idx_first i) (idx_pages i) o);
  bu_skip b : g b false = b;
}.
Definition andn (b m : bool) : bool := b && negb m.
#[export] Instance set_used_update : BlockUpdate set_used orb.
Proof. split; auto using set_used_range, set_used_page, orb_false_r. Qed.
#[export] Instance set_free_update : BlockUpdate set_free andn.
Proof. split; [apply set_free_range|intros; by apply set_free_page|by intros []]. Qed.

Section Marking.
Context {f : Z -> block_idx -> Z} {g : bool -> bool -> bool} `{HB : BlockUpdate f g}.

Lemma mark_ok s addr i :
  wf s -> 0 <= addr < 2 ^ 62 -> addr / region_size < 512 * num_status_bytes s ->
  exists s', mark f s addr i = Done s' /\ wf s' /\ same_cfg s s' /\
    forall p, 0 <= p ->
      page_used s' p = g (page_used s p) (in_pages (addr / region_size * 512 + idx_first i) (idx_pages i) p).
Proof.
  intros Hwf Ha Hr. destruct (status_at s addr Hwf Ha Hr) as (b & Hb & Hb8 & Hl).
  assert (0 <= addr / region_size) as H0 by (runfold; zlia).
  pose proof (wf_len s Hwf) as Hlen.
  unfold mark, set_status. rewrite Hb. simpl.
  rewrite sb_index_region, array_set_Done by lia. simpl. eexists; split; [done|].
  split; [|split; [done|]].
  { destruct Hwf; constructor; simpl; auto; [by rewrite length_insert|].
    by apply Forall_insert; [|apply bu_range]. }
  intros p Hp. unfold page_used; simpl.
  assert (0 <= p mod 512 < 512) as Ho by (apply Z.mod_pos_bound; lia).
  destruct (Z.eq_dec (p / 512) (addr / region_size)) as [E|E].
  - rewrite E, Hl. rewrite list_lookup_insert_eq by lia. rewrite bu_page by done. f_equal.
    rewrite <- E. case_pages; try done; zlia.
  - rewrite list_lookup_insert_ne by zlia.
    assert (0 <= idx_first i /\ idx_first i + idx_pages i <= 512) by (destruct i; simpl; lia).
    case_pages; [zlia|by rewrite bu_skip].
Qed.

(** Marking [n] whole regions from region [r] on. *)
Lemma mark_regions_ok n s r :
  wf s -> 0 <= r -> r + Z.of_nat n <= 512 * num_status_bytes s ->
  exists s', mark_regions f s (r * region_size) n = Done s' /\ wf s' /\ same_cfg s s' /\
    forall p, 0 <= p -> page_used s' p = g (page_used s p) (in_pages (r * 512) (Z.of_nat n * 512) p).
Proof.
  revert s r. induction n as [|n IH]; intros s r Hwf Hr Hn; simpl.
  { exists s. do 3 (split; [done|]). intros p Hp.
    case_pages; [lia|by rewrite bu_skip]. }
  pose proof (wf_num s Hwf).
  destruct (mark_ok s (r * region_size) ALL) as (s1 & -> & Hwf1 & Hc1 & Hp1); [done|runfold; lia|runfold; zlia|].
  simpl. replace (u64 (r * region_size + region_size)) with ((r + 1) * region_size).
  2: { rewrite wrap_small; unfold in_range; runfold; lia. }
  destruct (IH s1 (r + 1)) as (s2 & -> & Hwf2 & Hc2 & Hp2); auto; [lia| |].
  { destruct Hc1 as [-> _]. lia. }
  exists s2. split; [done|]. split; [done|]. split; [by eapply same_cfg_trans|].
  intros p Hp. rewrite Hp2, Hp1 by done.
  replace (r * region_size / region_size) with r by (runfold; zlia). simpl.
  case_pages; rewrite ?bu_skip; done || lia.
Qed.
End Marking.

(** ** Searching *)
Lemma region_bound addr n : addr / region_size < n -> addr < n * region_size.
Proof. runfold. intros. zlia. Qed.
Lemma region_addr_bound addr : 0 <= addr -> addr / region_size < 2 ^ 41 -> 0 <= addr < 2 ^ 62.
Proof. intros ? H%region_bound. runfold. lia. Qed.

Lemma next_region addr :
  0 <= addr < 2 ^ 62 -> addr mod region_size = 0 ->
  u64 (addr + region_size) = addr + region_size /\ (addr + region_size) mod region_size = 0 /\
  (addr + region_size) / region_size = addr / region_size + 1.
Proof. intros Ha Hm. rewrite wrap_small; unfold in_range; runfold; zlia. Qed.

(** The block that [__find_and_claim] takes in a region with status [b]. *)
Definition choose_idx (b : Z) (bs : block_size) : block_idx :=
  match bs with
  | S04 => if has_free b I7 then I7 else I6
  | S08 => I5 | S16 => I4 | S32 => I3 | S64 => I2 | S128 => I1 | _ => I0
  end.
Lemma choose_idx_free b bs : bs <> S512 -> sb_size b bs = true -> has_free b (choose_idx b bs) = true.
Proof.
  intros Hbs. unfold sb_size, choose_idx, has_free. destruct bs; try done.
  destruct (sb_has b (idx_val I7)) eqn:E; [done|]. by intros [?|?]%orb_true_iff.
Qed.
Lemma choose_idx_size b bs :
  bs <> S512 -> idx_pages (choose_idx b bs) * page_size = size_val bs /\ choose_idx b bs <> ALL.
Proof. intros Hbs. destruct bs; simpl; try done. by destruct (has_free b I7). Qed.
Lemma claim_choice s addr b bs :
  match bs with
  | S04 => claim_region s addr (if has_free b I7 then I7 else I6)
  | S08 => claim_region s addr I5
  | S16 => claim_region s addr I4
  | S32 => claim_region s addr I3
  | S64 => claim_region s addr I2
  | S128 => claim_region s addr I1
  | _ => claim_region s addr I0
  end = claim_region s addr (choose_idx b bs).
Proof. by destruct bs. Qed.

Lemma block_offset_pages r i :
  0 <= r < 2 ^ 41 -> i <> ALL ->
  block_offset (r * region_size) i = (r * 512 + idx_first i) * page_size.
Proof.
  intros Hr Hi. unfold block_offset.
  replace (ramp_shift (size_val S04) (clzb (idx_val i))) with (idx_first i * page_size) by (destruct i; done).
  rewrite wrap_small; [|unfold in_range]; destruct i; simpl; runfold; lia.
Qed.

(** Outcome of a search from region [r0] on, for blocks whose availability in
    region [r] is [avail r]: either nothing is available, or the first
    available block has been claimed. *)
Definition size_free (s : kmm) (bs : block_size) (r : Z) : bool :=
  match status_bytes s !! Z.to_nat r with Some b => sb_size b bs | None => false end.

(** Pages [p .. p + n - 1] were free and are now the only newly used ones. *)
Record claimed (s s' : kmm) (p n : Z) : Prop := {
  cl_wf : wf s';
  cl_cfg : same_cfg s s';
  cl_free q : p <= q < p + n -> page_used s q = false;
  cl_used q : 0 <= q -> page_used s' q = page_used s q || in_pages p n q;
  cl_fits : 0 <= p /\ p + n <= 512 * 512 * num_status_bytes s;
}.

Lemma claim_ok s addr b i :
  wf s -> 0 <= addr < 2 ^ 62 -> addr mod region_size = 0 -> addr / region_size < 512 * num_status_bytes s ->
  status_bytes s !! Z.to_nat (addr / region_size) = Some b -> is_u8 b -> has_free b i = true -> i <> ALL ->
  exists s', claim_region s addr i = Done ((addr / region_size * 512 + idx_first i) * page_size, s') /\
    claimed s s' (addr / region_size * 512 + idx_first i) (idx_pages i).
Proof.
  intros Hwf Ha Hm Hr Hl Hb Hfree Hall. set (r := addr / region_size) in *.
  assert (addr = r * region_size) as Er by (subst r; runfold; zlia).
  assert (0 <= r < 2 ^ 41) as Hr0 by (subst r; pose proof (wf_num s Hwf); runfold; zlia).
  destruct (mark_ok (f := set_used) (g := orb) s addr i Hwf Ha Hr) as (s' & Hs & Hwf' & Hc & Hp).
  exists s'. unfold claim_region. rewrite Hs; simpl. rewrite Er, block_offset_pages by done. split; [done|].
  assert (0 <= idx_first i /\ idx_first i + idx_pages i <= 512) by (destruct i; simpl; lia).
  constructor; auto; [|lia]. intros q Hq. rewrite (sb_has_pages b i Hb) in Hfree.
  unfold page_used. replace (q / 512) with r by zlia. rewrite Hl.
  apply Hfree; [apply Z.mod_pos_bound; lia|]. case_pages; [done|zlia].
Qed.

(** Page [p] is where a region has a block of size [bs]. *)
Definition block_shape (bs : block_size) (p : Z) : Prop :=
  exists i, i <> ALL /\ idx_pages i * page_size = size_val bs /\ p mod 512 = idx_first i.

Lemma search_small_ok fuel s bs addr :
  wf s -> bs <> S512 -> 0 <= addr -> addr / region_size < 2 ^ 41 -> addr mod region_size = 0 ->
  (Z.to_nat (512 * num_status_bytes s - addr / region_size) < fuel)%nat ->
  (search_small fuel s bs addr = Done None /\
     forall r, addr / region_size <= r < 512 * num_status_bytes s -> size_free s bs r = false) \/
  (exists p s', search_small fuel s bs addr = Done (Some (p * page_size, s')) /\ block_shape bs p /\
     claimed s s' p (size_val bs / page_size)).
Proof.
  intros Hwf Hbs. revert addr. induction fuel as [|fuel IH]; intros addr Ha Hb Hm Hfuel; [lia|].
  pose proof (wf_num s Hwf). simpl.
  assert (0 <= addr < 2 ^ 62) as Ha62 by (apply region_addr_bound; lia).
  rewrite gb_of_bound by done.
  destruct (Z.ltb_spec (addr / region_size) (512 * num_status_bytes s)) as [Hlt|Hge].
  2: { left. split; [done|]. intros r Hr. lia. }
  destruct (status_at s addr Hwf) as (b & -> & Hb8 & Hl); [done..|]. simpl.
  destruct (sb_size b bs) eqn:E.
  - right. rewrite claim_choice. pose proof (choose_idx_free b bs Hbs E) as Hfree.
    destruct (choose_idx_size b bs Hbs) as [Hsz Hall].
    destruct (claim_ok s addr b (choose_idx b bs)) as (s' & -> & Hcl); auto.
    eexists _, s'. split; [done|]. split.
    { exists (choose_idx b bs). split_and!; auto. destruct (choose_idx b bs); simpl; zlia. }
    rewrite <- Hsz, Z.div_mul by (runfold; lia). done.
  - destruct (next_region addr) as (-> & Hm' & Hd); [done..|].
    destruct (IH (addr + region_size)) as [[-> Hnone]|Hfound]; auto; try (runfold; lia).
    left. split; [done|]. intros r Hr. destruct (Z.eq_dec r (addr / region_size)) as [->|].
    + unfold size_free. by rewrite Hl.
    + apply Hnone. lia.
Qed.

Definition region_free (s : kmm) (r : Z) : Prop := status_bytes s !! Z.to_nat r = Some 0.

Lemma region_free_pages s r q : region_free s r -> q / 512 = r -> page_used s q = false.
Proof. unfold region_free, page_used. intros Hl ->. rewrite Hl. apply Z.bits_0. Qed.

Lemma mark_run_ok s r k :
  wf s -> 0 <= r -> 0 < k -> r + k <= 512 * num_status_bytes s ->
  (forall r', r <= r' < r + k -> region_free s r') ->
  exists s', mark_regions set_used s (r * region_size) (Z.to_nat k) = Done s' /\ claimed s s' (r * 512) (k * 512).
Proof.
  intros Hwf Hr Hk Hn Hfree.
  destruct (mark_regions_ok (f := set_used) (g := orb) (Z.to_nat k) s r) as (s' & Hs & Hwf' & Hc & Hp);
    [done|done|lia|]. rewrite Z2Nat.id in Hp by lia.
  exists s'. split; [done|]. constructor; auto; [|lia].
  intros q Hq. apply (region_free_pages s (q / 512)); [|done]. apply Hfree. zlia.
Qed.

Lemma search_large_ok fuel s k n addr result :
  wf s -> 0 < n <= k -> 0 <= result -> result mod region_size = 0 -> addr mod region_size = 0 ->
  addr / region_size < 2 ^ 41 -> addr / region_size - result / region_size = k - n ->
  (forall r, result / region_size <= r < addr / region_size -> region_free s r) ->
  (Z.to_nat (512 * num_status_bytes s - addr / region_size) < fuel)%nat ->
  (search_large fuel s k n addr result = Done None /\
     forall r, result / region_size <= r -> r + k <= 512 * num_status_bytes s ->
       ~ (forall r', r <= r' < r + k -> region_free s r')) \/
  (exists r s', search_large fuel s k n addr result = Done (Some (r * region_size, s')) /\ 0 <= r /\
     claimed s s' (r * 512) (k * 512)).
Proof.
  intros Hwf. revert n addr result.
  induction fuel as [|fuel IH]; intros n addr result Hn Hres Hmr Hma Hlim Hdiff Hfree Hfuel; [lia|].
  pose proof (wf_num s Hwf).
  assert (0 <= result / region_size) as Hr0 by (apply Z.div_pos; runfold; lia).
  assert (0 <= addr < 2 ^ 62) as Ha62.
  { apply region_addr_bound; [|lia]. rewrite (Z.div_mod addr region_size), Hma by (runfold; lia).
    runfold. nia. }
  simpl. rewrite gb_of_bound by done. destruct (Z.ltb_spec 0 n); [|lia]. rewrite andb_true_r.
  destruct (Z.ltb_spec (addr / region_size) (512 * num_status_bytes s)) as [Hlt|Hge].
  2: { left. split; [done|]. intros r Hr Hfit Hrun. lia. }
  destruct (status_at s addr Hwf) as (b & -> & Hb8 & Hl); [done..|]. simpl.
  destruct (next_region addr) as (Hnext & Hm' & Hd); [done..|]. rewrite !Hnext.
  unfold all_free. destruct (Z.eqb_spec b 0) as [->|Hb].
  - destruct (Z.eqb_spec (n - 1) 0) as [Hn1|Hn1].
    + right. assert ((addr - result) / region_size + 1 = k) as ->.
      { rewrite (Z.div_mod addr region_size), (Z.div_mod result region_size), Hma, Hmr by (runfold; lia).
        replace (_ - _) with ((addr / region_size - result / region_size) * region_size) by lia.
        rewrite Z.div_mul by (runfold; lia). lia. }
      assert (result = result / region_size * region_size) as Er
        by (rewrite (Z.div_mod result region_size), Hmr at 1; runfold; lia).
      destruct (mark_run_ok s (result / region_size) k) as (s' & Hs & Hcl); auto; try lia.
      { intros r' Hr'. destruct (Z.eq_dec r' (addr / region_size)) as [->|]; [done|]. apply Hfree. lia. }
      rewrite <- Er in Hs. rewrite Hs. simpl. exists (result / region_size), s'. rewrite <- Er. done.
    + apply IH; auto; try lia. intros r Hr.
      destruct (Z.eq_dec r (addr / region_size)) as [->|]; [done|]. apply Hfree. lia.
  - destruct (IH k (addr + region_size) (addr + region_size)) as [[-> Hnone]|Hfound]; auto; try lia.
    + runfold; lia.
    + left. split; [done|]. intros r Hr Hfit Hrun.
      destruct (Z.leb_spec (addr / region_size + 1) r); [apply (Hnone r); auto; lia|].
      specialize (Hrun (addr / region_size) ltac:(lia)). unfold region_free in Hrun. congruence.
Qed.

(** Number of pages of the block claimed for a request, and whether region [r]
    can start one. *)
Definition block_pages (sz : Z) : Z := region_size_for sz / page_size.
Definition shaped (sz p : Z) : Prop :=
  if size_val S256 <? sz then p mod 512 = 0 else block_shape (nearest sz) p.
Definition block_at (s : kmm) (sz r : Z) : Prop :=
  if size_val S256 <? sz then
    r + div_round_up sz region_size <= 512 * num_status_bytes s /\
    forall r', r <= r' < r + div_round_up sz region_size -> region_free s r'
  else size_free s (nearest sz) r = true.

Lemma region_size_for_large sz :
  size_val S256 < sz -> region_size_for sz = div_round_up sz region_size * region_size.
Proof.
  intros Hsz. unfold region_size_for, nearest. simpl in *.
  destruct (Z.ltb_spec (512 * page_size) sz) as [Hlt|Hle].
  - unfold up_to_nearest, div_round_up. case_cmp; [|lia].
    rewrite (Z.div_mod sz region_size) at 1 by (runfold; lia). lia.
  - runfold. case_cmp; try lia. simpl. unfold div_round_up. runfold. case_cmp; zlia.
Qed.
Lemma nearest_small sz : sz <= size_val S256 -> nearest sz <> S512 /\ region_size_for sz = size_val (nearest sz).
Proof.
  intros Hsz. unfold region_size_for. simpl in *. destruct (Z.ltb_spec (512 * page_size) sz); [runfold; lia|].
  split; [|done]. unfold nearest. simpl. case_cmp; done || lia.
Qed.

(** The size granted covers the size asked for. *)
Lemma region_size_for_covers sz : 0 < sz -> sz <= region_size_for sz /\ 0 < block_pages sz.
Proof.
  intros Hsz. unfold block_pages. destruct (Z.ltb_spec (size_val S256) sz) as [Hl|Hs].
  - rewrite region_size_for_large by done. pose proof (div_round_up_spec sz region_size).
    split; [runfold; lia|]. apply Z.div_str_pos. runfold. split; [lia|]. simpl in *. nia.
  - destruct (nearest_small sz Hs) as [_ ->]. unfold nearest. simpl in *. runfold.
    case_cmp; (split; [simpl; runfold; lia|reflexivity]).
Qed.

Lemma region_size_for_pages sz : region_size_for sz = block_pages sz * page_size.
Proof.
  unfold block_pages. assert (region_size_for sz mod page_size = 0) as Hm.
  { destruct (Z.ltb_spec (size_val S256) sz) as [Hl|Hs].
    - rewrite region_size_for_large by done. runfold. zlia.
    - destruct (nearest_small sz Hs) as [_ ->]. by destruct (nearest sz). }
  rewrite (Z.div_mod (region_size_for sz) page_size) at 1 by done. lia.
Qed.

Definition search_start (s : kmm) : Z := u64 (up_to_nearest (watermark s) region_size) / region_size.

Lemma search_start_bound s :
  wf s -> u64 (up_to_nearest (watermark s) region_size) = up_to_nearest (watermark s) region_size /\
    0 <= search_start s < 2 ^ 41 /\ up_to_nearest (watermark s) region_size mod region_size = 0.
Proof.
  intros Hwf. pose proof (wf_mark s Hwf).
  destruct (up_to_nearest_spec (watermark s) region_size) as [Hu Hm]; [runfold; lia|].
  assert (u64 (up_to_nearest (watermark s) region_size) = up_to_nearest (watermark s) region_size) as E.
  { apply wrap_small. unfold in_range. runfold. lia. }
  unfold search_start. rewrite E. split; [done|]. split; [|done].
  split; [apply Z.div_pos; runfold; lia|]. apply Z.div_lt_upper_bound; runfold; lia.
Qed.

Lemma search_ok s sz :
  wf s -> 0 < sz ->
  (search s sz = Done None /\ forall r, search_start s <= r < 512 * num_status_bytes s -> ~ block_at s sz r) \/
  (exists p s', search s sz = Done (Some (p * page_size, s')) /\ shaped sz p /\ claimed s s' p (block_pages sz)).
Proof.
  intros Hwf Hsz. destruct (search_start_bound s Hwf) as (Eu & Hst & Hm).
  pose proof (wf_len s Hwf). pose proof (wf_mark s Hwf).
  assert (0 <= up_to_nearest (watermark s) region_size) as Hup0
    by (destruct (up_to_nearest_spec (watermark s) region_size); runfold; lia).
  assert (Z.to_nat (512 * num_status_bytes s - search_start s) < S (length (status_bytes s)))%nat as Hfuel by lia.
  unfold search, search_start in *. rewrite !Eu in *. unfold block_at, block_pages, shaped.
  destruct (Z.ltb_spec (size_val S256) sz) as [Hl|Hs].
  - assert (0 < div_round_up sz region_size)
      by (pose proof (div_round_up_spec sz region_size); runfold; simpl in *; lia).
    destruct (search_large_ok (S (length (status_bytes s))) s (div_round_up sz region_size)
      (div_round_up sz region_size) (up_to_nearest (watermark s) region_size)
      (up_to_nearest (watermark s) region_size)) as [[-> Hnone]|(r & s' & -> & Hr & Hcl)]; auto; try lia.
    + left. split; [done|]. intros r Hr [Hfit Hrun]. apply (Hnone r); auto; lia.
    + right. exists (r * 512), s'. rewrite region_size_for_large by done.
      split; [do 3 f_equal; runfold; lia|]. split; [zlia|].
      replace (div_round_up sz region_size * region_size / page_size) with (div_round_up sz region_size * 512); [done|].
      runfold. zlia.
  - destruct (nearest_small sz Hs) as [Hne ->].
    destruct (search_small_ok (S (length (status_bytes s))) s (nearest sz) (up_to_nearest (watermark s) region_size))
      as [[-> Hnone]|(p & s' & -> & Hp & Hcl)]; auto; try lia.
    + left. split; [done|]. intros r Hr Hf. by rewrite Hnone in Hf.
    + right. by exists p, s'.
Qed.

Lemma with_watermark_wf s w : wf s -> 0 <= w < 2 ^ 61 -> wf (with_watermark s w).
Proof. intros [] ?; by constructor. Qed.

Definition heap_base (s : kmm) : Z := u64 (kernel_heap_begin s + num_status_bytes s).
Lemma heap_base_bound s : wf s -> heap_base s = kernel_heap_begin s + num_status_bytes s /\ 0 <= heap_base s < 2 ^ 61.
Proof.
  intros [? Hn ? Hh ?]. unfold heap_base. rewrite wrap_small; unfold in_range; lia.
Qed.

(** Outcome of [__find_and_claim]: a block was claimed, with the watermark as
    it was or reset, or no region from the heap base on can hold one. *)
Lemma find_and_claim_cases s sz :
  wf s -> 0 < sz ->
  exists w, 0 <= w <= Z.max (watermark s) (heap_base s) /\
  let s0 := with_watermark s w in wf s0 /\
  ((find_and_claim s sz = Done (0, s0) /\
      forall r, up_to_nearest (heap_base s) region_size / region_size <= r < 512 * num_status_bytes s -> ~ block_at s sz r) \/
   (exists p s', find_and_claim s sz = Done (p * page_size, s') /\ shaped sz p /\ claimed s0 s' p (block_pages sz))).
Proof.
  intros Hwf Hsz. pose proof (wf_mark s Hwf). destruct (heap_base_bound s Hwf) as [_ Hb].
  assert (with_watermark s (watermark s) = s) as Es by (by destruct s).
  unfold find_and_claim. simpl. fold (heap_base s).
  destruct (search_ok s sz Hwf Hsz) as [[-> Hnone]|(p & s' & -> & Hp & Hcl)]; simpl.
  2: { exists (watermark s). rewrite Es. split; [lia|]. split; [done|]. right. by exists p, s'. }
  destruct (Z.ltb_spec (heap_base s) (watermark s)) as [Hreset|Hlow].
  - pose proof (with_watermark_wf s (heap_base s) Hwf Hb) as Hwf0.
    exists (heap_base s). split; [lia|]. split; [done|].
    destruct (search_ok _ sz Hwf0 Hsz) as [[-> Hnone0]|(p & s' & -> & Hp & Hcl)]; simpl.
    + fold (heap_base s). destruct (Z.ltb_spec (heap_base s) (heap_base s)); [lia|]. left. split; [done|].
      intros r Hr. apply (Hnone0 r). unfold search_start.
      destruct (search_start_bound _ Hwf0) as [-> _]. exact Hr.
    + right. by exists p, s'.
  - exists (watermark s). rewrite Es. split; [lia|]. split; [done|]. left. split; [done|].
    intros r Hr. apply Hnone. split; [|lia]. unfold search_start.
    destruct (search_start_bound s Hwf) as [-> _].
    etrans; [|apply Hr]. apply Z.div_le_mono; [runfold; lia|].
    unfold up_to_nearest, div_round_up. runfold. case_cmp; zlia.
Qed.

Lemma block_shape_idx bs p : block_shape bs p -> bs <> S512 ->
  exists i, i <> ALL /\ idx_pages i = size_val bs / page_size /\ p mod 512 = idx_first i /\
    forall s start, start = p * page_size ->
    match bs with
    | S256 => mark set_free s start I0
    | S128 => mark set_free s start I1
    | S64 => mark set_free s start I2
    | S32 => mark set_free s start I3
    | S16 => mark set_free s start I4
    | S08 => mark set_free s start I5
    | _ => mark set_free s start (if start mod region_size =? 0 then I7 else I6)
    end = mark set_free s start i.
Proof.
  intros (i & Hi & Hsz & Hp) Hbs. exists i. split; [done|]. split; [rewrite <- Hsz, Z.div_mul by done; done|].
  split; [done|]. intros s start ->. destruct bs, i; try done;
    destruct (Z.eqb_spec (p * page_size mod region_size) 0) as [E|E]; try done; simpl in Hp; runfold; zlia.
Qed.

(** Releasing a block where one can be: its pages, and no other, become free. *)
Lemma release_region_ok s sz p :
  wf s -> 0 < sz -> shaped sz p -> 0 <= p -> p + block_pages sz <= 512 * 512 * num_status_bytes s ->
  exists s', release_region s sz (p * page_size) = Done s' /\ wf s' /\ same_cfg s s' /\
    forall q, 0 <= q -> page_used s' q = andn (page_used s q) (in_pages p (block_pages sz) q).
Proof.
  intros Hwf Hsz Hshape Hp Hfit. unfold shaped, release_region, block_pages in *.
  pose proof (wf_num s Hwf).
  destruct (Z.ltb_spec (size_val S256) sz) as [Hl|Hs].
  - rewrite region_size_for_large in * by done. set (k := div_round_up sz region_size) in *.
    assert (0 < k) by (subst k; pose proof (div_round_up_spec sz region_size); runfold; simpl in *; lia).
    assert (k * region_size / page_size = k * 512) as Ek by (runfold; zlia). rewrite Ek in *.
    destruct (mark_regions_ok (f := set_free) (g := andn) (Z.to_nat k) s (p / 512)) as (s' & Hs & Hwf' & Hc & Hpg);
      [done|zlia|zlia|].
    replace (p / 512 * region_size) with (p * page_size) in Hs by (runfold; zlia).
    exists s'. do 3 (split; [done|]). intros q Hq. rewrite Hpg by done. f_equal. f_equal; zlia.
  - destruct (nearest_small sz Hs) as [Hne E]. rewrite E in *.
    destruct (block_shape_idx _ _ Hshape Hne) as (i & Hi & Hn & Hf & ->); [|done].
    assert (0 <= idx_first i /\ idx_first i + idx_pages i <= 512) by (destruct i; simpl; lia).
    assert (p * page_size / region_size = p / 512) as Er by (runfold; zlia).
    assert (0 < idx_pages i) by (destruct i; simpl; lia).
    destruct (mark_ok (f := set_free) (g := andn) s (p * page_size) i) as (s' & Hs' & Hwf' & Hc & Hpg);
      [done|runfold; zlia|rewrite Er; zlia|].
    exists s'. do 3 (split; [done|]). intros q Hq. rewrite Hpg by done. rewrite Er, Hn.
    f_equal. f_equal. zlia.
Qed.

(** The status bytes are determined by the pages in use. *)
Lemma pages_ext s s' :
  wf s -> wf s' -> num_status_bytes s' = num_status_bytes s ->
  (forall q, 0 <= q -> page_used s' q = page_used s q) -> status_bytes s' = status_bytes s.
Proof.
  intros Hwf Hwf' Hn Hq. pose proof (wf_len s Hwf). pose proof (wf_len s' Hwf').
  apply list_eq_same_length with (length (status_bytes s)); [lia|lia|].
  intros k x y Hk Hx Hy. pose proof (Forall_lookup_1 _ _ _ _ (wf_bytes s' Hwf') Hx).
  pose proof (Forall_lookup_1 _ _ _ _ (wf_bytes s Hwf) Hy).
  apply Z.bits_inj'; intros j Hj. destruct (Z.ltb_spec j 8).
  2: by rewrite !(in_range_testbit 8) by done.
  destruct (bit_has_page j) as (o & Ho & <-); [lia|].
  specialize (Hq (Z.of_nat k * 512 + o) ltac:(lia)). unfold page_used in Hq.
  replace ((Z.of_nat k * 512 + o) / 512) with (Z.of_nat k) in Hq by zlia.
  replace ((Z.of_nat k * 512 + o) mod 512) with o in Hq by zlia.
  by rewrite Nat2Z.id, Hx, Hy in Hq.
Qed.

(** ** Properties *)

(** C3: A block claimed by [__find_and_claim] is at least as large as requested,
    lies within the managed memory, consists of pages that were free, and after
    the claim exactly its pages are newly in use. *)
Theorem find_and_claim_sound s sz a s' :
  wf s -> 0 < sz -> find_and_claim s sz = Done (a, s') -> a <> 0 ->
  exists p, a = p * page_size /\ sz <= block_pages sz * page_size /\
    0 <= p /\ p + block_pages sz <= 512 * 512 * num_status_bytes s /\
    (forall q, p <= q < p + block_pages sz -> page_used s q = false) /\
    (forall q, 0 <= q -> page_used s' q = page_used s q || in_pages p (block_pages sz) q) /\ wf s'.
Proof.
  intros Hwf Hsz Hrun Ha. destruct (find_and_claim_cases s sz Hwf Hsz) as (w & Hw & Hwf0 & [[E _]|(p & s1 & E & Hp & Hcl)]).
  { rewrite E in Hrun. inv_done. congruence. }
  rewrite E in Hrun. injection Hrun as <- <-. destruct Hcl as [? _ Hfree Hused Hfit].
  exists p. split; [done|]. split; [|split_and!; try apply Hfit; auto].
  rewrite <- region_size_for_pages. by apply region_size_for_covers.
Qed.

(** C4: [__find_and_claim] always returns; when it reports failure (0, which the
    reserved first page is never claimed as), no region from the heap base on
    can hold a block of the requested size, and no status byte has changed. *)
Theorem find_and_claim_complete s sz :
  wf s -> 0 < sz -> page_used s 0 = true ->
  exists a s', find_and_claim s sz = Done (a, s') /\
    (a = 0 -> status_bytes s' = status_bytes s /\
      forall r, up_to_nearest (heap_base s) region_size / region_size <= r < 512 * num_status_bytes s -> ~ block_at s sz r).
Proof.
  intros Hwf Hsz H0. destruct (find_and_claim_cases s sz Hwf Hsz) as (w & Hw & Hwf0 & [[E Hnone]|(p & s1 & E & Hp & Hcl)]).
  - eexists _, _. split; [exact E|]. auto.
  - eexists _, _. split; [exact E|]. intros Hz. exfalso.
    assert (p = 0) as -> by (runfold; lia). destruct Hcl as [_ _ Hfree _ _].
    destruct (region_size_for_covers sz Hsz) as [_ Hb].
    assert (page_used s 0 = false) by (apply (Hfree 0); lia). congruence.
Qed.

(** C13: Releasing a claimed block with the size it was claimed with restores every
    status byte. *)
Theorem release_undoes_claim s sz a s' :
  wf s -> 0 < sz -> find_and_claim s sz = Done (a, s') -> a <> 0 ->
  exists s'', release_region s' sz a = Done s'' /\ status_bytes s'' = status_bytes s.
Proof.
  intros Hwf Hsz Hrun Ha. destruct (find_and_claim_cases s sz Hwf Hsz) as (w & Hw & Hwf0 & [[E _]|(p & s1 & E & Hp & Hcl)]).
  { rewrite E in Hrun. inv_done. congruence. }
  rewrite E in Hrun. injection Hrun as <- <-. destruct Hcl as [Hwf1 (Hn & Hh & Hm) Hfree Hused Hfit]. simpl in *.
  destruct (release_region_ok s1 sz p) as (s2 & Hs & Hwf2 & (Hn2 & _) & Hpg); auto; try lia.
  exists s2. split; [done|]. apply pages_ext; auto; [congruence|].
  intros q Hq. rewrite Hpg, Hused by done. unfold andn. change (page_used (with_watermark s w) q) with (page_used s q).
  case_pages; simpl; [|by rewrite andb_true_r, orb_false_r]. rewrite andb_false_r. symmetry. by apply Hfree.
Qed.

(** [allocate_kernel_block] does not report exhaustion: when no block can be
    claimed it returns the address 64 bytes below 0, which is not null, and
    raises the watermark to it. *)
Theorem allocate_kernel_block_exhausted s sz s1 :
  find_and_claim s sz = Done (0, s1) -> watermark s1 < 2 ^ 64 - 64 ->
  allocate_kernel_block s sz = Done (2 ^ 64 - 64, with_watermark s1 (2 ^ 64 - 64)).
Proof.
  intros E Hw. unfold allocate_kernel_block. rewrite E. simpl.
  replace (u64 (0 - sizeof_block_tag)) with (2 ^ 64 - 64) by reflexivity. do 3 f_equal. lia.
Qed.

(** ** Witnesses

    A machine with one gigabyte: the kernel and its tables occupy the first two
    regions, the heap starts at the third. *)
Definition demo (used : nat) : kmm :=
  MkKmm (replicate used 0xFF ++ replicate (512 - used) 0) 1 (2 * region_size - page_size) (2 * region_size).
Lemma demo_wf used : (used <= 512)%nat -> wf (demo used).
Proof.
  intros Hu. constructor; simpl; try (vm_compute; split; congruence).
  - rewrite length_app, !length_replicate. lia.
  - apply Forall_app. split; apply Forall_replicate; vm_compute; split; congruence.
Qed.

Lemma find_and_claim_sound_witness :
  exists s', find_and_claim (demo 2) 20000 = Done (1032 * page_size, s') /\
    exists p, 1032 * page_size = p * page_size /\ 20000 <= block_pages 20000 * page_size /\
    0 <= p /\ p + block_pages 20000 <= 512 * 512 * num_status_bytes (demo 2) /\
    (forall q, p <= q < p + block_pages 20000 -> page_used (demo 2) q = false) /\
    (forall q, 0 <= q -> page_used s' q = page_used (demo 2) q || in_pages p (block_pages 20000) q) /\ wf s'.
Proof.
  eexists. split; [vm_compute; reflexivity|].
  apply (find_and_claim_sound (demo 2) 20000); [apply demo_wf; lia|lia|vm_compute; reflexivity|vm_compute; congruence].
Defined.

Lemma find_and_claim_complete_witness :
  exists a s', find_and_claim (demo 512) 20000 = Done (a, s') /\
    (a = 0 -> status_bytes s' = status_bytes (demo 512) /\
      forall r, up_to_nearest (heap_base (demo 512)) region_size / region_size <= r < 512 * num_status_bytes (demo 512) ->
        ~ block_at (demo 512) 20000 r).
Proof. apply (find_and_claim_complete (demo 512) 20000); [apply demo_wf; lia|lia|reflexivity]. Defined.

Lemma release_undoes_claim_witness :
  exists s' s'', find_and_claim (demo 2) 5000000 = Done (2 * region_size, s') /\
    release_region s' 5000000 (2 * region_size) = Done s'' /\ status_bytes s'' = status_bytes (demo 2).
Proof.
  assert (exists s', find_and_claim (demo 2) 5000000 = Done (2 * region_size, s')) as [s' Hs]
    by (eexists; vm_compute; reflexivity).
  exists s'. edestruct (release_undoes_claim (demo 2) 5000000) as [s'' Hr];
    [apply demo_wf; lia|lia|exact Hs|vm_compute; congruence|]. exists s''. split; [exact Hs|exact Hr].
Defined.

Lemma allocate_kernel_block_exhausted_witness :
  exists s1, allocate_kernel_block (demo 512) 4096 = Done (2 ^ 64 - 64, with_watermark s1 (2 ^ 64 - 64)).
Proof.
  eexists. apply (allocate_kernel_block_exhausted (demo 512) 4096); [vm_compute; reflexivity|reflexivity].
Defined.

End Region.
