(* ===== verification/KFrame.v ===== *)
(** Stage 2 of the kernel heap: block tags and the kernel frame
    (kernel/mm/kernel_mm.cpp, common/include/kernel/kernel_mm.hpp).

    Pointers are addresses, 0 is null.  The memory that holds block tags is a
    finite map from the address of a tag to its fields; a tag that was merged
    into its neighbour stays in memory, as in the source.  Dereferencing an
    address where no tag was constructed is undefined, except in [find_tag],
    which looks for the magic number byte by byte: [peek] gives the 8 bytes at an
    address that holds no tag.  [translate] is the page-table translation of the
    current address space.  The diagnostics printed on suspicious tags, the
    spinlocks and the copy of the payload in [reallocate] do not touch this
    state; the repairs made next to the diagnostics do, and are modelled. *)
From S2P Require Import Prelude Region.
Import Region.

Module KFrame.

Definition min_exponent : Z := 8.
Definition max_exponent : Z := 32.
Definition block_index_range : Z := max_exponent - min_exponent.
Definition max_block_index : Z := block_index_range - 1.
Definition min_block_size : Z := Z.shiftl 1 min_exponent.
Definition max_block_size : Z := Z.shiftl 1 max_block_index.
Definition region_cap : Z := 5.
Definition block_magic : Z := 0xB1600FBA615F.
Definition bt_offset : Z := sizeof_block_tag.

(** ** Block tags *)
Record block_tag := MkTag {
  magic : Z;
  block_size : Z;
  held_size : Z;
  left_split : Z;
  right_split : Z;
  previous : Z;
  next : Z;
  index : Z;
  align_bytes : Z;
}.
Definition set_magic (t : block_tag) (v : Z) : block_tag :=
  MkTag v (block_size t) (held_size t) (left_split t) (right_split t) (previous t) (next t) (index t) (align_bytes t).
Definition set_block_size (t : block_tag) (v : Z) : block_tag :=
  MkTag (magic t) v (held_size t) (left_split t) (right_split t) (previous t) (next t) (index t) (align_bytes t).
Definition set_held_size (t : block_tag) (v : Z) : block_tag :=
  MkTag (magic t) (block_size t) v (left_split t) (right_split t) (previous t) (next t) (index t) (align_bytes t).
Definition set_left_split (t : block_tag) (v : Z) : block_tag :=
  MkTag (magic t) (block_size t) (held_size t) v (right_split t) (previous t) (next t) (index t) (align_bytes t).
Definition set_right_split (t : block_tag) (v : Z) : block_tag :=
  MkTag (magic t) (block_size t) (held_size t) (left_split t) v (previous t) (next t) (index t) (align_bytes t).
Definition set_previous (t : block_tag) (v : Z) : block_tag :=
  MkTag (magic t) (block_size t) (held_size t) (left_split t) (right_split t) v (next t) (index t) (align_bytes t).
Definition set_next (t : block_tag) (v : Z) : block_tag :=
  MkTag (magic t) (block_size t) (held_size t) (left_split t) (right_split t) (previous t) v (index t) (align_bytes t).
Definition set_index (t : block_tag) (v : Z) : block_tag :=
  MkTag (magic t) (block_size t) (held_size t) (left_split t) (right_split t) (previous t) (next t) v (align_bytes t).
Definition set_align_bytes (t : block_tag) (v : Z) : block_tag :=
  MkTag (magic t) (block_size t) (held_size t) (left_split t) (right_split t) (previous t) (next t) (index t) v.

(** The two constructors; the magic number is the member's initializer. *)
Definition new_tag (size held idx left right prev nxt align : Z) : block_tag :=
  MkTag block_magic size held left right prev nxt idx align.
Definition new_tag_unlinked (size held idx align : Z) : block_tag :=
  MkTag block_magic size held 0 0 0 0 idx align.

Definition allocated_size (t : block_tag) : Z := u64 (block_size t - sizeof_block_tag).
Definition aligned_size (t : block_tag) : Z := u64 (block_size t - (align_bytes t + sizeof_block_tag)).
Definition available_size (t : block_tag) : Z := u64 (allocated_size t - u64 (held_size t + align_bytes t)).
Definition actual_start (p : Z) (t : block_tag) : Z := u64 (p + (sizeof_block_tag + align_bytes t)).
Definition is_free (t : block_tag) : bool := (0 <=? index t) && (held_size t =? 0).
Definition is_split (t : block_tag) : bool := negb (left_split t =? 0) || negb (right_split t =? 0).

Definition calculate_block_index (size : Z) : Z :=
  if size <? min_block_size then 0
  else if max_block_size <? size then max_block_index
  else (64 - clzl size) - min_exponent.
Definition add_align_size (tag align : Z) : Z :=
  if 1 <? align then u32 (u64 (up_to_nearest (u64 (tag + bt_offset)) align) - u64 (tag + bt_offset)) else 0.

(** ** The kernel frame *)
Record kframe := MkFrame {
  complete_regions : list Z;
  available_blocks : list Z;
  tags : gmap Z block_tag;
  mgr : kmm;
  remaining_memory : Z;
}.
Definition with_complete (k : kframe) (l : list Z) : kframe :=
  MkFrame l (available_blocks k) (tags k) (mgr k) (remaining_memory k).
Definition with_available (k : kframe) (l : list Z) : kframe :=
  MkFrame (complete_regions k) l (tags k) (mgr k) (remaining_memory k).
Definition with_tags (k : kframe) (m : gmap Z block_tag) : kframe :=
  MkFrame (complete_regions k) (available_blocks k) m (mgr k) (remaining_memory k).
Definition with_mgr (k : kframe) (m : kmm) : kframe :=
  MkFrame (complete_regions k) (available_blocks k) (tags k) m (remaining_memory k).
Definition with_remaining (k : kframe) (r : Z) : kframe :=
  MkFrame (complete_regions k) (available_blocks k) (tags k) (mgr k) r.

(** Reading and writing a tag through a pointer. *)
Definition get_tag (k : kframe) (p : Z) : outcome block_tag := or_undef (tags k !! p).
Definition upd_tag (k : kframe) (p : Z) (f : block_tag -> block_tag) : outcome kframe :=
  t ← get_tag k p; Done (with_tags k (<[p := f t]> (tags k))).
(** Placement new: only managed memory is mapped. *)
Definition place_tag (k : kframe) (p : Z) (t : block_tag) : outcome kframe :=
  if (0 <? p) && (p + sizeof_block_tag <=? num_status_bytes (mgr k) * gigabyte)
  then Done (with_tags k (<[p := t]> (tags k))) else Undef.

(** [available_blocks[idx]].  The code also evaluates it with index -1, that of
    a tag on no list: the 8 bytes in front of the array are the last four
    elements of [complete_regions]. *)
Definition head_get (k : kframe) (idx : Z) : outcome Z :=
  if idx =? -1 then
    a ← array_get (complete_regions k) 20; b ← array_get (complete_regions k) 21;
    c ← array_get (complete_regions k) 22; d ← array_get (complete_regions k) 23;
    Done (a + Z.shiftl b 16 + Z.shiftl c 32 + Z.shiftl d 48)
  else array_get (available_blocks k) idx.
Definition head_set (k : kframe) (idx v : Z) : outcome kframe :=
  if idx =? -1 then
    l0 ← array_set (complete_regions k) 20 (u16 v); l1 ← array_set l0 21 (u16 (Z.shiftr v 16));
    l2 ← array_set l1 22 (u16 (Z.shiftr v 32)); l3 ← array_set l2 23 (u16 (Z.shiftr v 48));
    Done (with_complete k l3)
  else l ← array_set (available_blocks k) idx v; Done (with_available k l).

Definition remove_block (k : kframe) (blk : Z) : outcome kframe :=
  t ← get_tag k blk;
  h ← head_get k (index t);
  k1 ← (if h =? blk then head_set k (index t) (next t)
        else if negb (previous t =? 0) then upd_tag k (previous t) (fun q => set_next q (next t))
        else Done k);
  k2 ← (if negb (next t =? 0) then upd_tag k1 (next t) (fun q => set_previous q (previous t)) else Done k1);
  upd_tag k2 blk (fun q => set_index (set_previous (set_next q 0) 0) (-1)).

Definition insert_block (k : kframe) (blk idx : Z) : outcome kframe :=
  t ← get_tag k blk;
  let i := if idx <? 0 then calculate_block_index (block_size t) else idx in
  k1 ← upd_tag k blk (fun q => set_index q i);
  if negb (previous t =? 0) || negb (next t =? 0) then Done k1
  else
    h ← head_get k1 i;
    k2 ← (if negb (h =? 0) && negb (blk =? h) then
            k' ← upd_tag k1 h (fun q => set_previous q blk);
            upd_tag k' blk (fun q => set_next q h)
          else Done k1);
    head_set k2 i blk.

(** [block_tag::split]: returns the address of the new tag. *)
Definition split (k : kframe) (p : Z) : outcome (Z * kframe) :=
  t ← get_tag k p;
  let that := u64 (actual_start p t + held_size t) in
  k1 ← place_tag k that (new_tag (available_size t) 0 (-1) p (right_split t) 0 0 0);
  k2 ← (if negb (right_split t =? 0) then upd_tag k1 (right_split t) (fun q => set_left_split q that) else Done k1);
  k3 ← upd_tag k2 p (fun q => set_right_split q that);
  n ← get_tag k3 that;
  k4 ← upd_tag k3 p (fun q => set_block_size q (u64 (block_size q - block_size n)));
  Done (that, k4).

Definition melt_left (k : kframe) (tag : Z) : outcome (Z * kframe) :=
  t ← get_tag k tag;
  let left := left_split t in
  k1 ← upd_tag k left (fun q => set_right_split (set_block_size q (u64 (block_size q + block_size t))) (right_split t));
  k2 ← (if negb (right_split t =? 0) then upd_tag k1 (right_split t) (fun q => set_left_split q left) else Done k1);
  k3 ← remove_block k2 tag;
  Done (left, k3).

Definition melt_right (k : kframe) (tag : Z) : outcome (Z * kframe) :=
  t ← get_tag k tag;
  let right := right_split t in
  k1 ← remove_block k right;
  r ← get_tag k1 right;
  k2 ← upd_tag k1 tag (fun q => set_right_split (set_block_size q (u64 (block_size q + block_size r))) (right_split r));
  k3 ← (if negb (right_split r =? 0) then upd_tag k2 (right_split r) (fun q => set_left_split q tag) else Done k2);
  Done (tag, k3).

(** [complete_regions[idx]++] and [--] on 16-bit counters. *)
Definition bump_complete (k : kframe) (idx d : Z) : outcome kframe :=
  c ← array_get (complete_regions k) idx;
  l ← array_set (complete_regions k) idx (u16 (c + d)); Done (with_complete k l).

Definition create_tag (k : kframe) (size align : Z) : outcome (Z * kframe) :=
  let actual_size := u64 (Z.max (u64 (size + bt_offset)) align + align) in
  '(allocated, m) ← allocate_kernel_block (mgr k) actual_size;
  let k1 := with_mgr k m in
  if allocated =? 0 then Done (0, k1)
  else
    k2 ← place_tag k1 allocated (new_tag_unlinked (region_size_for actual_size) size (-1) (add_align_size allocated align));
    Done (allocated, k2).

(** The repairs made on a suspicious tag while walking a list. *)
Definition repair_tag (k : kframe) (p : Z) : outcome kframe :=
  t ← get_tag k p;
  k1 ← (if next t =? p then upd_tag k p (fun q => set_next q 0) else Done k);
  k2 ← (if previous t =? p then upd_tag k1 p (fun q => set_previous q 0) else Done k1);
  if negb (magic t =? block_magic) then upd_tag k2 p (fun q => set_magic q block_magic) else Done k2.

(** The walk of [get_for_allocation] over list [idx] from tag [p] on: the tag
    taken from the list, or 0. *)
Fixpoint find_fit (fuel : nat) (k : kframe) (p size align idx : Z) : outcome (Z * kframe) :=
  if p =? 0 then Done (0, k)
  else match fuel with
  | O => NoFuel
  | S f =>
      k1 ← repair_tag k p;
      t ← get_tag k1 p;
      let align_add := add_align_size p align in
      if u64 (size + align_add) <=? available_size t then
        k2 ← remove_block k1 p;
        k3 ← upd_tag k2 p (fun q => set_align_bytes (set_held_size q size) align_add);
        k4 ← (if (left_split t =? 0) && (right_split t =? 0) then bump_complete k3 idx (-1) else Done k3);
        Done (p, k4)
      else find_fit f k1 (next t) size align idx
  end.

(** [get_for_allocation]: 0 when the region allocator fails (the source panics
    and returns null).  The list is walked with one step more than there are
    tags in memory. *)
Definition get_for_allocation (k : kframe) (size0 align : Z) : outcome (Z * kframe) :=
  let size := Z.max size0 16 in
  let idx := calculate_block_index size in
  h ← head_get k idx;
  '(tag0, k1) ← find_fit (S (stdpp.base.size (tags k))) k h size align idx;
  '(tag, k2) ← (if tag0 =? 0 then create_tag k1 size align else Done (tag0, k1));
  if tag =? 0 then Done (0, k2)
  else
    t ← get_tag k2 tag;
    k3 ← (if min_block_size + bt_offset <=? available_size t then
            '(that, k') ← split k2 tag; insert_block k' that (-1)
          else Done k2);
    t' ← get_tag k3 tag;
    Done (tag, with_remaining k3 (u64 (remaining_memory k3 - block_size t'))).

Section WithMemory.
Context (peek : Z -> Z) (translate : Z -> Z).

(** [deallocate_block] as [release_block] calls it, with [should_unmap] false. *)
Definition page_aligned (a : Z) : Z := u64 (a - a mod page_size).
Definition deallocate_block (k : kframe) (base sz : Z) : outcome kframe :=
  let phys := translate (page_aligned (u64 (base + sizeof_block_tag))) in
  if phys =? 0 then Done k
  else
    m ← release_region (mgr k) sz phys;
    Done (with_mgr k (with_watermark m (Z.min phys (watermark m)))).

Fixpoint melt_left_loop (fuel : nat) (k : kframe) (tag : Z) : outcome (Z * kframe) :=
  match fuel with
  | O => NoFuel
  | S f =>
      t ← get_tag k tag;
      if left_split t =? 0 then Done (tag, k)
      else
        l ← get_tag k (left_split t);
        if is_free l then '(tag', k') ← melt_left k tag; melt_left_loop f k' tag'
        else Done (tag, k)
  end.
Fixpoint melt_right_loop (fuel : nat) (k : kframe) (tag : Z) : outcome (Z * kframe) :=
  match fuel with
  | O => NoFuel
  | S f =>
      t ← get_tag k tag;
      if right_split t =? 0 then Done (tag, k)
      else
        r ← get_tag k (right_split t);
        if is_free r then '(tag', k') ← melt_right k tag; melt_right_loop f k' tag'
        else Done (tag, k)
  end.

Definition release_block (k : kframe) (tag : Z) : outcome kframe :=
  t ← get_tag k tag;
  if is_free t then Done k
  else
    k1 ← upd_tag k tag (fun q => set_align_bytes (set_held_size q 0) 0);
    let k2 := with_remaining k1 (u64 (remaining_memory k1 + block_size t)) in
    let fuel := S (stdpp.base.size (tags k)) in
    '(tag1, k3) ← melt_left_loop fuel k2 tag;
    '(tag2, k4) ← melt_right_loop fuel k3 tag1;
    t2 ← get_tag k4 tag2;
    let idx := calculate_block_index (allocated_size t2) in
    c ← array_get (complete_regions k4) idx;
    if is_split t2 || (c <? region_cap) then
      k5 ← (if negb (is_split t2) then bump_complete k4 idx 1 else Done k4);
      insert_block k5 tag2 idx
    else deallocate_block k4 tag2 (block_size t2).

Definition magic_at (k : kframe) (p : Z) : Z :=
  match tags k !! p with Some t => magic t | None => peek p end.
(** The backwards walk of [find_tag]; [n] is the number of steps left when the
    alignment bounds them, and the walk stops at address 0. *)
Fixpoint find_magic (fuel : nat) (k : kframe) (tag i align : Z) : outcome Z :=
  if negb (tag =? 0) && negb (magic_at k tag =? block_magic) && ((align =? 0) || (i <? align)) then
    match fuel with
    | O => NoFuel
    | S f => find_magic f k (u64 (tag - 1)) (i + 1) align
    end
  else Done tag.
Definition find_tag (fuel : nat) (k : kframe) (ptr align : Z) : outcome Z :=
  if ptr =? 0 then Done 0
  else
    tag ← find_magic fuel k (u64 (ptr - bt_offset)) 0 align;
    let tag' := if negb (tag =? 0) && negb (magic_at k tag =? block_magic) then page_aligned ptr else tag in
    Done (if negb (tag' =? 0) && (magic_at k tag' =? block_magic) then tag' else 0).

Definition allocate (k : kframe) (size align : Z) : outcome (Z * kframe) :=
  if size =? 0 then Done (0, k)
  else
    '(tag, k1) ← get_for_allocation k size align;
    if tag =? 0 then Done (0, k1)
    else t ← get_tag k1 tag; Done (actual_start tag t, k1).

Definition deallocate (fuel : nat) (k : kframe) (ptr align : Z) : outcome kframe :=
  if ptr =? 0 then Done k
  else
    tag ← find_tag fuel k ptr align;
    if tag =? 0 then Done k else release_block k tag.

Definition reallocate (fuel : nat) (k : kframe) (ptr size align : Z) : outcome (Z * kframe) :=
  tag ← find_tag fuel k ptr align;
  if tag =? 0 then allocate k size align
  else if size =? 0 then k1 ← deallocate fuel k ptr align; Done (0, k1)
  else
    t ← get_tag k tag;
    if u64 (size + add_align_size tag align) <=? allocated_size t then
      k1 ← upd_tag k tag (fun q => set_held_size (set_align_bytes q (add_align_size tag align)) size);
      t1 ← get_tag k1 tag; Done (actual_start tag t1, k1)
    else
      '(result, k1) ← allocate k size align;
      k2 ← deallocate fuel k1 ptr align;
      Done (result, k2).

Definition array_allocate (k : kframe) (num size : Z) : outcome (Z * kframe) :=
  allocate k (u64 (num * size)) size.
End WithMemory.

End KFrame.
