(* ===== verification/KFrameInv.v ===== *)
(** Stage 2 of the kernel heap: the invariant of the tag heap and its
    preservation by the list operations, by splitting and by allocation.

    The invariant has three parts.  [geom]: the extents of the live tags are
    disjoint, neighbour links agree with addresses, a tag's payload fits its
    extent, and the extents lie in pages the region allocator has marked used.
    [lists_ok]: each size class is a doubly linked list of free live tags, and a
    tag on no list is unlinked with index -1.  The region allocator's own
    invariant [Region.wf]. *)
From S2P Require Import Prelude Region KFrame.
Import Region KFrame.

Module KFrameInv.

(** The fields the geometry depends on, and those the lists depend on. *)
Definition body (t : block_tag) : Z * Z * Z * Z * Z * Z :=
  (magic t, block_size t, held_size t, left_split t, right_split t, align_bytes t).
Definition links (t : block_tag) : Z * Z * Z * Z * Z * Z :=
  (magic t, held_size t, align_bytes t, previous t, next t, index t).

(** ** Geometry *)
Record geom (m : gmap Z block_tag) (L : gset Z) (used : Z -> bool) (top : Z) : Prop := {
  g_dom p : p ∈ L -> exists t, m !! p = Some t;
  g_fit p t : p ∈ L -> m !! p = Some t ->
    0 < p /\ 0 <= align_bytes t /\ 0 <= held_size t /\
    64 + align_bytes t + held_size t <= block_size t /\ p + block_size t + 64 <= top;
  g_disj p q t : p ∈ L -> q ∈ L -> m !! p = Some t -> p < q -> p + block_size t <= q;
  g_right p t : p ∈ L -> m !! p = Some t -> right_split t <> 0 ->
    right_split t ∈ L /\ right_split t = p + block_size t /\
    exists t', m !! right_split t = Some t' /\ left_split t' = p;
  g_left p t : p ∈ L -> m !! p = Some t -> left_split t <> 0 ->
    left_split t ∈ L /\ exists t', m !! left_split t = Some t' /\ right_split t' = p;
  g_used p t x : p ∈ L -> m !! p = Some t -> p <= x < p + block_size t -> used ((x + 64) / page_size) = true;
}.

(** The geometry depends on the bodies of the tags only. *)
Lemma geom_body m m' L used top :
  (forall p, body <$> m' !! p = body <$> m !! p) -> geom m L used top -> geom m' L used top.
Proof.
  intros Hb [G1 G2 G3 G4 G5 G6].
  assert (forall p t', m' !! p = Some t' -> exists t, m !! p = Some t /\ body t' = body t) as Hback.
  { intros p t' Hp. specialize (Hb p). rewrite Hp in Hb. destruct (m !! p) as [t|]; simpl in Hb; [|done].
    exists t. split; congruence. }
  assert (forall p t, m !! p = Some t -> exists t', m' !! p = Some t' /\ body t' = body t) as Hforth.
  { intros p t Hp. specialize (Hb p). rewrite Hp in Hb. destruct (m' !! p) as [t'|]; simpl in Hb; [|done].
    exists t'. split; congruence. }
  constructor.
  - intros p Hp. destruct (G1 p Hp) as [t Ht]. destruct (Hforth _ _ Ht) as (t' & ? & _). eauto.
  - intros p t' Hp Ht'. destruct (Hback _ _ Ht') as (t & Ht & [= _ Es Eh _ _ Ea]). rewrite Es, Eh, Ea. by apply G2.
  - intros p q t' Hp Hq Ht' Hlt. destruct (Hback _ _ Ht') as (t & Ht & [= _ Es _ _ _ _]). rewrite Es. by apply (G3 p q).
  - intros p t' Hp Ht' Hne. destruct (Hback _ _ Ht') as (t & Ht & [= _ Es _ _ Er _]). rewrite Es, Er in *.
    destruct (G4 p t Hp Ht Hne) as (? & ? & t2 & Ht2 & ?). split_and!; auto.
    destruct (Hforth _ _ Ht2) as (t2' & ? & [= _ _ _ El _ _]). exists t2'. split; congruence.
  - intros p t' Hp Ht' Hne. destruct (Hback _ _ Ht') as (t & Ht & [= _ _ _ El _ _]). rewrite El in *.
    destruct (G5 p t Hp Ht Hne) as (? & t2 & Ht2 & ?). split; [done|].
    destruct (Hforth _ _ Ht2) as (t2' & ? & [= _ _ _ _ Er _]). exists t2'. split; congruence.
  - intros p t' x Hp Ht' Hx. destruct (Hback _ _ Ht') as (t & Ht & [= _ Es _ _ _ _]). rewrite Es in Hx. eauto.
Qed.

(** ** Free lists *)
Fixpoint chain (m : gmap Z block_tag) (i prev h : Z) (l : list Z) : Prop :=
  match l with
  | [] => h = 0
  | p :: l' => h = p /\ p <> 0 /\ exists t, m !! p = Some t /\ previous t = prev /\ index t = i /\
      held_size t = 0 /\ align_bytes t = 0 /\ magic t = block_magic /\ chain m i p (next t) l'
  end.

Lemma chain_links m m' i prev h l :
  (forall p, p ∈ l -> links <$> m' !! p = links <$> m !! p) -> chain m i prev h l -> chain m' i prev h l.
Proof.
  revert prev h. induction l as [|p l IH]; intros prev h Hl; [done|]. simpl.
  intros (-> & Hp & t & Ht & Hc). split; [done|]. split; [done|].
  pose proof (Hl p ltac:(by left)) as E. rewrite Ht in E. destruct (m' !! p) as [t'|]; simpl in E; [|done].
  injection E as E1 E2 E3 E4 E5 E6. exists t'. destruct Hc as (? & ? & ? & ? & ? & Hc).
  split_and!; try congruence. rewrite E5. apply IH; [|done]. intros q Hq. apply Hl. by right.
Qed.

Lemma chain_elem m i prev h l p :
  chain m i prev h l -> p ∈ l -> p <> 0 /\ exists t, m !! p = Some t /\ index t = i /\ held_size t = 0 /\
    align_bytes t = 0 /\ magic t = block_magic.
Proof.
  revert prev h. induction l as [|q l IH]; intros prev h; [by intros _ []%elem_of_nil|]. simpl.
  intros (-> & Hq & t & Ht & _ & ? & ? & ? & ? & Hc) [->|Hp]%elem_of_cons; [split; eauto 10|eauto].
Qed.

Definition nclasses : Z := 24.
Record lists_ok (m : gmap Z block_tag) (heads : list Z) (ls : Z -> list Z) (L : gset Z) : Prop := {
  l_len : Z.of_nat (length heads) = nclasses;
  l_chain i : 0 <= i < nclasses -> exists h, array_get heads i = Done h /\ chain m i 0 h (ls i);
  l_nodup i : 0 <= i < nclasses -> NoDup (ls i);
  l_live i p : 0 <= i < nclasses -> p ∈ ls i -> p ∈ L;
  l_off p : p ∈ L -> (forall i, 0 <= i < nclasses -> p ∉ ls i) ->
    exists t, m !! p = Some t /\ index t = -1 /\ previous t = 0 /\ next t = 0 /\ magic t = block_magic;
}.

(** A tag is on one list at most. *)
Lemma lists_unique m heads ls L i j p :
  lists_ok m heads ls L -> 0 <= i < nclasses -> 0 <= j < nclasses -> p ∈ ls i -> p ∈ ls j -> i = j.
Proof.
  intros H Hi Hj Hpi Hpj. destruct (l_chain _ _ _ _ H i Hi) as (h & _ & Hc). destruct (l_chain _ _ _ _ H j Hj) as (h' & _ & Hc').
  destruct (chain_elem _ _ _ _ _ _ Hc Hpi) as (_ & t & Ht & ? & _).
  destruct (chain_elem _ _ _ _ _ _ Hc' Hpj) as (_ & t' & Ht' & ? & _). congruence.
Qed.

Definition top (k : kframe) : Z := num_status_bytes (mgr k) * gigabyte.
Record kinv (k : kframe) (ls : Z -> list Z) (L : gset Z) : Prop := {
  k_geom : geom (tags k) L (page_used (mgr k)) (top k);
  k_lists : lists_ok (tags k) (available_blocks k) ls L;
  k_wf : wf (mgr k);
  k_complete : Z.of_nat (length (complete_regions k)) = nclasses;
}.

(** ** Reading and writing tags *)
Lemma get_tag_Done k p t : get_tag k p = Done t <-> tags k !! p = Some t.
Proof. unfold get_tag. destruct (tags k !! p); simpl; split; congruence. Qed.
Lemma upd_tag_Done k p f t :
  tags k !! p = Some t -> upd_tag k p f = Done (with_tags k (<[p := f t]> (tags k))).
Proof. intros Hp. unfold upd_tag, get_tag. by rewrite Hp. Qed.

(** Updates of one tag that keep its body keep every body; likewise for links. *)
Lemma body_insert (m : gmap Z block_tag) p t t' q :
  m !! p = Some t -> body t' = body t -> body <$> <[p := t']> m !! q = body <$> m !! q.
Proof.
  intros Hp Hb. destruct (decide (p = q)) as [<-|]; [by rewrite lookup_insert_eq, Hp; simpl; rewrite Hb|].
  by rewrite lookup_insert_ne.
Qed.
Lemma links_insert (m : gmap Z block_tag) p t t' q :
  m !! p = Some t -> links t' = links t -> links <$> <[p := t']> m !! q = links <$> m !! q.
Proof.
  intros Hp Hb. destruct (decide (p = q)) as [<-|]; [by rewrite lookup_insert_eq, Hp; simpl; rewrite Hb|].
  by rewrite lookup_insert_ne.
Qed.

(** ** Removing a tag from its list *)

(** Changing what the first tag of a chain has in front of it. *)
Lemma chain_set_front m m' i prev prev' h l :
  chain m i prev h l -> NoDup l ->
  (forall q t, head l = Some q -> m !! q = Some t -> links <$> m' !! q = Some (links (set_previous t prev'))) ->
  (forall q, q ∈ tail l -> links <$> m' !! q = links <$> m !! q) ->
  chain m' i prev' h l.
Proof.
  destruct l as [|q l]; [done|]. simpl. intros (-> & Hq & t & Ht & Hc) Hnd Hhd Htl.
  destruct Hc as (_ & ? & ? & ? & ? & Hc). split; [done|]. split; [done|].
  specialize (Hhd q t eq_refl Ht). destruct (m' !! q) as [t'|]; simpl in Hhd; [|done].
  injection Hhd as E1 E2 E3 E4 E5 E6. exists t'. split_and!; try congruence.
  rewrite E5. by eapply chain_links.
Qed.

(** Replacing what follows the tag [x] of a chain. *)
Lemma chain_set_tail m m' i prev h l1 x l2 h3 l3 tx :
  chain m i prev h (l1 ++ x :: l2) -> m !! x = Some tx -> x ∉ l1 ->
  links <$> m' !! x = Some (links (set_next tx h3)) ->
  (forall q, q ∈ l1 -> links <$> m' !! q = links <$> m !! q) ->
  chain m' i x h3 l3 -> chain m' i prev h (l1 ++ x :: l3).
Proof.
  revert prev h. induction l1 as [|q l1 IH]; intros prev h; simpl.
  - intros (-> & Hx & t & Ht & Hc) Htx _ Hm' _ H3. simplify_eq. destruct Hc as (? & ? & ? & ? & ? & _).
    split; [done|]. split; [done|]. destruct (m' !! x) as [t'|]; simpl in Hm'; [|done].
    injection Hm' as E1 E2 E3 E4 E5 E6. exists t'. split_and!; try congruence.
  - intros (-> & Hq & t & Ht & Hc) Htx Hnin Hm' Hl1 H3. destruct Hc as (? & ? & ? & ? & ? & Hc).
    split; [done|]. split; [done|]. pose proof (Hl1 q ltac:(by left)) as E. rewrite Ht in E.
    destruct (m' !! q) as [t'|]; simpl in E; [|done]. injection E as E1 E2 E3 E4 E5 E6.
    exists t'. split_and!; try congruence. rewrite E5. eapply IH; eauto; [set_solver|].
    intros q' Hq'. apply Hl1. by right.
Qed.

(** What a chain says of the tag in the middle of it. *)
Lemma chain_middle m i prev h l1 p l2 :
  chain m i prev h (l1 ++ p :: l2) ->
  exists t, m !! p = Some t /\ previous t = default prev (last l1) /\ chain m i p (next t) l2 /\
    h = default p (head l1).
Proof.
  revert prev h. induction l1 as [|q l1 IH]; intros prev h; simpl.
  - intros (-> & ? & t & ? & ? & ? & ? & ? & ? & ?). eauto 10.
  - intros (-> & ? & t & ? & ? & ? & ? & ? & ? & Hc). destruct (IH _ _ Hc) as (t' & ? & Hp & ? & _).
    exists t'. split_and!; auto. rewrite Hp, last_cons. by destruct (last l1).
Qed.

(** [remove_block] as an update of the tag map. *)
Definition unlinked (t : block_tag) : block_tag := set_index (set_previous (set_next t 0) 0) (-1).
Definition patch_next (m : gmap Z block_tag) (x v : Z) : gmap Z block_tag :=
  match m !! x with Some t => <[x := set_next t v]> m | None => m end.
Definition patch_previous (m : gmap Z block_tag) (x v : Z) : gmap Z block_tag :=
  match m !! x with Some t => <[x := set_previous t v]> m | None => m end.
Definition drop_tag (m : gmap Z block_tag) (before : option Z) (p : Z) (after : option Z) (t : block_tag) : gmap Z block_tag :=
  let m1 := match before with Some x => patch_next m x (next t) | None => m end in
  let m2 := match after with Some y => patch_previous m1 y (previous t) | None => m1 end in
  <[p := unlinked t]> m2.

Lemma patch_next_other m x v q : q <> x -> patch_next m x v !! q = m !! q.
Proof. intros. unfold patch_next. destruct (m !! x); [by rewrite lookup_insert_ne|done]. Qed.
Lemma patch_previous_other m x v q : q <> x -> patch_previous m x v !! q = m !! q.
Proof. intros. unfold patch_previous. destruct (m !! x); [by rewrite lookup_insert_ne|done]. Qed.
Lemma patch_next_same m x v t : m !! x = Some t -> patch_next m x v !! x = Some (set_next t v).
Proof. intros Hx. unfold patch_next. rewrite Hx. apply lookup_insert_eq. Qed.
Lemma patch_previous_same m x v t : m !! x = Some t -> patch_previous m x v !! x = Some (set_previous t v).
Proof. intros Hx. unfold patch_previous. rewrite Hx. apply lookup_insert_eq. Qed.
Lemma patch_next_body m x v q : body <$> patch_next m x v !! q = body <$> m !! q.
Proof. unfold patch_next. destruct (m !! x) eqn:E; [by eapply body_insert|done]. Qed.
Lemma patch_previous_body m x v q : body <$> patch_previous m x v !! q = body <$> m !! q.
Proof. unfold patch_previous. destruct (m !! x) eqn:E; [by eapply body_insert|done]. Qed.

Lemma drop_tag_other m before p after t q :
  q <> p -> Some q <> before -> Some q <> after -> drop_tag m before p after t !! q = m !! q.
Proof.
  intros. unfold drop_tag. rewrite lookup_insert_ne by done.
  destruct after; [rewrite patch_previous_other by congruence|]; (destruct before; [rewrite patch_next_other by congruence|]); done.
Qed.
Lemma drop_tag_body m before p after t q :
  m !! p = Some t -> body <$> drop_tag m before p after t !! q = body <$> m !! q.
Proof.
  intros Hp. unfold drop_tag. destruct (decide (p = q)) as [<-|].
  - rewrite lookup_insert_eq, Hp. done.
  - rewrite lookup_insert_ne by done.
    destruct after; [rewrite patch_previous_body|]; (destruct before; [rewrite patch_next_body|]); done.
Qed.

(** Dropping a tag from the middle of a chain leaves the chain of the others. *)
Lemma chain_drop m i l1 p l2 h t :
  chain m i 0 h (l1 ++ p :: l2) -> NoDup (l1 ++ p :: l2) -> m !! p = Some t ->
  chain (drop_tag m (last l1) p (head l2) t) i 0 (match l1 with [] => next t | _ => h end) (l1 ++ l2).
Proof.
  intros Hc Hnd Ht. destruct (chain_middle _ _ _ _ _ _ _ Hc) as (t0 & Ht0 & Hprev & Hc2 & _).
  assert (t0 = t) as -> by congruence.
  apply NoDup_app in Hnd as (Hnd1 & Hd & Hnd2). apply NoDup_cons in Hnd2 as [Hp2 Hnd2].
  set (m' := drop_tag m (last l1) p (head l2) t).
  assert (forall pr, pr = previous t -> chain m' i pr (next t) l2) as Hsuffix.
  { intros pr ->. eapply chain_set_front; [done|done| |].
    - intros q tq Hq Htq. destruct l2 as [|q' l2]; simplify_eq/=. unfold m', drop_tag.
      rewrite lookup_insert_ne by set_solver. simpl.
      erewrite patch_previous_same; [done|]. destruct (last l1) as [x|] eqn:El; [|done].
      rewrite patch_next_other; [done|]. apply last_Some_elem_of in El. intros ->. set_solver.
    - intros q Hq. unfold m'. rewrite drop_tag_other; [done|..].
      + intros ->. destruct l2; simpl in *; set_solver.
      + intros El. symmetry in El. apply last_Some_elem_of in El. destruct l2; simpl in *; set_solver.
      + destruct l2 as [|y l2]; simpl; [done|]. intros [= ->]. apply NoDup_cons in Hnd2 as [? _]. set_solver. }
  destruct l1 as [|x0 l0] using rev_ind; [by apply Hsuffix|]. clear IHl0.
  rewrite last_snoc in *. rewrite <- app_assoc. simpl in *.
  rewrite <- app_assoc in Hc. simpl in Hc.
  destruct (chain_middle _ _ _ _ _ _ _ Hc) as (tx & Htx & _).
  replace (match l0 ++ [x0] with [] => next t | _ => h end) with h by (by destruct l0).
  apply NoDup_app in Hnd1 as (_ & Hx0 & _).
  eapply chain_set_tail; [exact Hc|exact Htx| | | |].
  - intros Hin. apply (Hx0 x0 Hin). set_solver.
  - unfold m', drop_tag. rewrite lookup_insert_ne by set_solver.
    assert (forall mm, mm !! x0 = Some (set_next tx (next t)) ->
      match head l2 with Some y => patch_previous mm y (previous t) | None => mm end !! x0 = Some (set_next tx (next t))) as Hm.
    { intros mm Hmm. destruct l2 as [|y l2]; simpl; [done|]. rewrite patch_previous_other; [done|]. set_solver. }
    rewrite Hm; [done|]. rewrite last_snoc. by apply patch_next_same.
  - intros q Hq. unfold m'. rewrite drop_tag_other; [done|set_solver|..].
    + rewrite last_snoc. intros [= ->]. apply (Hx0 x0 Hq). set_solver.
    + destruct l2 as [|y l2]; simpl; [done|]. intros [= ->]. set_solver.
  - apply Hsuffix. by rewrite Hprev.
Qed.

Definition upd_list (ls : Z -> list Z) (i : Z) (l : list Z) : Z -> list Z := fun j => if j =? i then l else ls j.
Lemma upd_list_same ls i l : upd_list ls i l i = l.
Proof. unfold upd_list. by rewrite Z.eqb_refl. Qed.
Lemma upd_list_other ls i l j : j <> i -> upd_list ls i l j = ls j.
Proof. intros. unfold upd_list. by destruct (Z.eqb_spec j i). Qed.

Lemma upd_next_Done k x v :
  is_Some (tags k !! x) -> upd_tag k x (fun q => set_next q v) = Done (with_tags k (patch_next (tags k) x v)).
Proof. intros [t Ht]. rewrite (upd_tag_Done _ _ _ _ Ht). unfold patch_next. by rewrite Ht. Qed.
Lemma upd_previous_Done k x v :
  is_Some (tags k !! x) -> upd_tag k x (fun q => set_previous q v) = Done (with_tags k (patch_previous (tags k) x v)).
Proof. intros [t Ht]. rewrite (upd_tag_Done _ _ _ _ Ht). unfold patch_previous. by rewrite Ht. Qed.
Lemma patch_next_is_Some m x v q : is_Some (m !! q) -> is_Some (patch_next m x v !! q).
Proof.
  intros Hq. unfold patch_next. destruct (m !! x) as [t|]; [|done].
  destruct (decide (x = q)) as [->|]; [rewrite lookup_insert_eq; eauto|by rewrite lookup_insert_ne].
Qed.

Definition heads_drop (heads : list Z) (i : Z) (l1 : list Z) (nx : Z) : list Z :=
  match l1 with [] => <[Z.to_nat i := nx]> heads | _ => heads end.

(** [remove_block] on a tag of list [i] computes exactly the drop. *)
Lemma remove_block_eval k ls L i l1 p l2 t :
  lists_ok (tags k) (available_blocks k) ls L -> 0 <= i < nclasses ->
  ls i = l1 ++ p :: l2 -> tags k !! p = Some t ->
  remove_block k p = Done (MkFrame (complete_regions k) (heads_drop (available_blocks k) i l1 (next t))
    (drop_tag (tags k) (last l1) p (head l2) t) (mgr k) (remaining_memory k)).
Proof.
  intros HL Hi Hls Ht. destruct (l_chain _ _ _ _ HL i Hi) as (h & Hh & Hc). rewrite Hls in Hc.
  pose proof (l_nodup _ _ _ _ HL i Hi) as Hnd. rewrite Hls in Hnd.
  destruct (chain_middle _ _ _ _ _ _ _ Hc) as (t0 & Ht0 & Hprev & Hc2 & Hhd).
  assert (t0 = t) as -> by congruence.
  assert (forall q, q ∈ l1 ++ p :: l2 -> q <> 0 /\ is_Some (tags k !! q)) as Hsome.
  { intros q Hq. destruct (chain_elem _ _ _ _ _ _ Hc Hq) as (? & tq & ? & _). eauto. }
  destruct (chain_elem _ _ _ _ _ p Hc) as (_ & t1 & Ht1 & Hidx & _); [set_solver|].
  assert (t1 = t) as -> by congruence.
  unfold remove_block. unfold get_tag at 1. rewrite Ht. simpl. unfold head_get. rewrite Hidx.
  destruct (Z.eqb_spec i (-1)); [lia|]. rewrite Hh. simpl.
  apply NoDup_app in Hnd as (_ & Hd & Hnd2). apply NoDup_cons in Hnd2 as [Hp2 _].
  assert (Hfin : forall m1 av, m1 !! p = Some t -> (forall q, q ∈ l2 -> is_Some (m1 !! q)) ->
    (k2 ← (if negb (next t =? 0) then upd_tag (MkFrame (complete_regions k) av m1 (mgr k) (remaining_memory k)) (next t)
             (fun q => set_previous q (previous t))
           else Done (MkFrame (complete_regions k) av m1 (mgr k) (remaining_memory k)));
     upd_tag k2 p (fun q => set_index (set_previous (set_next q 0) 0) (-1))) =
    Done (MkFrame (complete_regions k) av
      (<[p := unlinked t]> (match head l2 with Some y => patch_previous m1 y (previous t) | None => m1 end)) (mgr k) (remaining_memory k))).
  { intros m1 av Hm1 Hl2. destruct l2 as [|y l2]; simpl in Hc2.
    - rewrite Hc2. simpl. by erewrite upd_tag_Done.
    - destruct Hc2 as (-> & Hy & _). destruct (Z.eqb_spec y 0); [done|]. simpl.
      rewrite upd_previous_Done by (simpl; apply Hl2; by left). simpl.
      erewrite upd_tag_Done; [done|]. simpl. rewrite patch_previous_other by set_solver. done. }
  destruct l1 as [|x l1 _] using rev_ind.
  - simpl in *. rewrite Hhd, Z.eqb_refl. unfold head_set. destruct (Z.eqb_spec i (-1)); [lia|].
    rewrite array_set_Done by (pose proof (l_len _ _ _ _ HL); lia). simpl.
    unfold with_available. rewrite Hfin; [done|done|].
    intros q Hq. apply Hsome. set_solver.
  - rewrite last_snoc in *. simpl in Hprev.
    destruct (Z.eqb_spec h p) as [E|_].
    { exfalso. apply (Hd h); [|rewrite E; by left]. rewrite Hhd. destruct l1; simpl; set_solver. }
    destruct (Hsome x) as [Hx0 Hx]; [set_solver|]. rewrite Hprev.
    destruct (Z.eqb_spec x 0); [done|]. simpl. rewrite upd_next_Done by done. simpl.
    rewrite <- Hprev. unfold with_tags. rewrite Hfin.
    + unfold drop_tag, heads_drop. by destruct l1.
    + rewrite patch_next_other; [done|]. intros E. apply (Hd x); set_solver.
    + intros q Hq. apply patch_next_is_Some, Hsome. set_solver.
Qed.

Lemma lists_drop m heads ls L i l1 p l2 t :
  lists_ok m heads ls L -> 0 <= i < nclasses -> ls i = l1 ++ p :: l2 -> m !! p = Some t ->
  lists_ok (drop_tag m (last l1) p (head l2) t) (heads_drop heads i l1 (next t)) (upd_list ls i (l1 ++ l2)) L.
Proof.
  intros HL Hi Hls Ht. pose proof (l_nodup _ _ _ _ HL i Hi) as Hnd. rewrite Hls in Hnd.
  destruct (l_chain _ _ _ _ HL i Hi) as (h & Hh & Hc). rewrite Hls in Hc.
  pose proof (array_get_bound _ _ _ Hh) as Hb.
  assert (forall q, q ∉ ls i -> drop_tag m (last l1) p (head l2) t !! q = m !! q) as Hother.
  { intros q Hq. rewrite Hls in Hq. apply drop_tag_other; [set_solver|..].
    - intros E. symmetry in E. apply last_Some_elem_of in E. set_solver.
    - destruct l2; simpl; [done|]. intros [= ->]. set_solver. }
  constructor.
  - unfold heads_drop. destruct l1; [rewrite length_insert|]; apply (l_len _ _ _ _ HL).
  - intros j Hj. destruct (Z.eq_dec j i) as [->|Hji].
    + rewrite upd_list_same. exists (match l1 with [] => next t | _ => h end). split; [|by apply chain_drop].
      destruct l1; simpl; [|done]. apply array_get_Done. split; [lia|]. apply list_lookup_insert_eq. lia.
    + rewrite upd_list_other by done. destruct (l_chain _ _ _ _ HL j Hj) as (h' & Hh' & Hc').
      exists h'. split.
      * unfold heads_drop. destruct l1; [|done]. apply array_get_Done in Hh' as [? ?].
        apply array_get_Done. split; [lia|]. rewrite list_lookup_insert_ne; [done|lia].
      * eapply chain_links; [|done]. intros q Hq. rewrite Hother; [done|].
        intros Hqi. apply Hji. by eapply lists_unique.
  - intros j Hj. destruct (Z.eq_dec j i) as [->|]; [rewrite upd_list_same|rewrite upd_list_other by done; by eapply l_nodup].
    apply NoDup_app in Hnd as (? & Hd & [_ ?]%NoDup_cons). apply NoDup_app. split_and!; auto. set_solver.
  - intros j q Hj. destruct (Z.eq_dec j i) as [->|]; [rewrite upd_list_same|rewrite upd_list_other by done; by eapply l_live].
    intros Hq. eapply (l_live _ _ _ _ HL i); [done|]. rewrite Hls. set_solver.
  - intros q Hq Hoff. destruct (decide (q = p)) as [->|Hqp].
    + exists (unlinked t). unfold drop_tag. rewrite lookup_insert_eq. split_and!; auto. simpl.
      destruct (chain_elem _ _ _ _ _ p Hc) as (_ & t1 & Ht1 & _ & _ & _ & Hm); [set_solver|]. congruence.
    + destruct (l_off _ _ _ _ HL q Hq) as (tq & Htq & ?).
      { intros j Hj. specialize (Hoff j Hj). destruct (Z.eq_dec j i) as [->|]; [|by rewrite upd_list_other in Hoff].
        rewrite upd_list_same in Hoff. rewrite Hls. set_solver. }
      exists tq. split; [|done]. rewrite Hother; [done|].
      specialize (Hoff i Hi). rewrite upd_list_same in Hoff. rewrite Hls. set_solver.
Qed.

(** ** Inserting a tag at the head of a list *)
Definition push_tag (m : gmap Z block_tag) (h blk i : Z) (t : block_tag) : gmap Z block_tag :=
  <[blk := set_next (set_index t i) h]> (if h =? 0 then m else patch_previous m h blk).

Lemma push_tag_body m h blk i t q :
  m !! blk = Some t -> body <$> push_tag m h blk i t !! q = body <$> m !! q.
Proof.
  intros Hb. unfold push_tag. destruct (decide (blk = q)) as [<-|].
  - by rewrite lookup_insert_eq, Hb.
  - rewrite lookup_insert_ne by done. case_cmp; [done|apply patch_previous_body].
Qed.
Lemma push_tag_other m h blk i t q : q <> blk -> q <> h -> push_tag m h blk i t !! q = m !! q.
Proof.
  intros. unfold push_tag. rewrite lookup_insert_ne by done. case_cmp; [done|by apply patch_previous_other].
Qed.

Lemma insert_block_eval k ls L blk idx i t h :
  lists_ok (tags k) (available_blocks k) ls L ->
  i = (if idx <? 0 then calculate_block_index (block_size t) else idx) -> 0 <= i < nclasses ->
  tags k !! blk = Some t -> previous t = 0 -> next t = 0 -> blk ∉ ls i ->
  array_get (available_blocks k) i = Done h ->
  insert_block k blk idx = Done (MkFrame (complete_regions k) (<[Z.to_nat i := blk]> (available_blocks k))
    (push_tag (tags k) h blk i t) (mgr k) (remaining_memory k)).
Proof.
  intros HL Hi Hir Ht Hp Hn Hnin Hh. destruct (l_chain _ _ _ _ HL i Hir) as (h' & Hh' & Hc).
  assert (h' = h) as -> by congruence.
  unfold insert_block. unfold get_tag at 1. rewrite Ht. simpl. rewrite <- Hi.
  rewrite (upd_tag_Done _ _ _ _ Ht). simpl. rewrite Hp, Hn. simpl.
  unfold head_get. destruct (Z.eqb_spec i (-1)); [lia|]. simpl. rewrite Hh. simpl.
  unfold push_tag. destruct (ls i) as [|p l] eqn:El; simpl in Hc.
  - subst h. simpl. unfold head_set. destruct (Z.eqb_spec i (-1)); [lia|]. simpl.
    rewrite array_set_Done by (by eapply array_get_bound). simpl. do 2 f_equal. f_equal.
    destruct t; simpl in *; by subst.
  - destruct Hc as (-> & Hp0 & tp & Htp & _). destruct (Z.eqb_spec p 0); [done|].
    destruct (Z.eqb_spec blk p) as [->|Hne]; [set_solver|]. simpl.
    rewrite upd_previous_Done by (simpl; rewrite lookup_insert_ne by done; eauto). simpl.
    erewrite upd_tag_Done by (simpl; rewrite patch_previous_other by done; apply lookup_insert_eq). simpl.
    unfold head_set. destruct (Z.eqb_spec i (-1)); [lia|]. simpl.
    rewrite array_set_Done by (by eapply array_get_bound). simpl. do 2 f_equal.
    unfold patch_previous. rewrite lookup_insert_ne by done. rewrite Htp.
    rewrite (insert_insert_ne _ p blk) by done. by rewrite insert_insert_eq.
Qed.

Lemma lists_push m heads ls L blk i t h :
  lists_ok m heads ls L -> 0 <= i < nclasses -> blk ∈ L -> blk <> 0 -> (forall j, 0 <= j < nclasses -> blk ∉ ls j) ->
  m !! blk = Some t -> held_size t = 0 -> align_bytes t = 0 -> array_get heads i = Done h ->
  lists_ok (push_tag m h blk i t) (<[Z.to_nat i := blk]> heads) (upd_list ls i (blk :: ls i)) L.
Proof.
  intros HL Hi HbL Hb0 Hoff Ht Hheld Halign Hh.
  destruct (l_off _ _ _ _ HL blk HbL Hoff) as (t0 & Ht0 & Hidx & Hprev & Hnext & Hmag).
  assert (t0 = t) as -> by congruence. pose proof (array_get_bound _ _ _ Hh) as Hbnd.
  destruct (l_chain _ _ _ _ HL i Hi) as (h' & Hh' & Hc). assert (h' = h) as -> by congruence.
  pose proof (l_nodup _ _ _ _ HL i Hi) as Hnd.
  assert (h = 0 \/ h ∈ ls i) as Hhin by (destruct (ls i); simpl in Hc; [by left|destruct Hc; right; set_solver]).
  assert (forall j q, 0 <= j < nclasses -> j <> i -> q ∈ ls j -> push_tag m h blk i t !! q = m !! q) as Hother.
  { intros j q Hj Hji Hq. assert (q <> 0) by (destruct (l_chain _ _ _ _ HL j Hj) as (? & _ & Hcj); by eapply chain_elem in Hcj as [? _]).
    apply push_tag_other; [intros ->; by eapply Hoff|]. intros ->. destruct Hhin; [done|].
    apply Hji. by eapply lists_unique. }
  constructor.
  - rewrite length_insert. apply (l_len _ _ _ _ HL).
  - intros j Hj. destruct (Z.eq_dec j i) as [->|Hji].
    + rewrite upd_list_same. exists blk. split.
      { apply array_get_Done. split; [lia|]. apply list_lookup_insert_eq. lia. }
      simpl. split; [done|]. split; [done|]. exists (set_next (set_index t i) h). unfold push_tag at 1.
      rewrite lookup_insert_eq. split_and!; auto. simpl.
      eapply chain_set_front; [exact Hc|done| |].
      * intros q tq Hq Htq. destruct (ls i) as [|q' l] eqn:El; simplify_eq/=. destruct Hc as (-> & Hq0 & _).
        unfold push_tag. specialize (Hoff i Hi). rewrite El in Hoff. rewrite lookup_insert_ne by set_solver.
        destruct (Z.eqb_spec q 0); [done|]. erewrite patch_previous_same; done.
      * intros q Hq. specialize (Hoff i Hi). destruct (ls i) as [|q' l] eqn:El; simpl in *; [set_solver|].
        apply NoDup_cons in Hnd as [? _]. destruct Hc as (-> & _). rewrite push_tag_other; [done|set_solver|set_solver].
    + rewrite upd_list_other by done. destruct (l_chain _ _ _ _ HL j Hj) as (h' & Hh2 & Hc'). exists h'. split.
      * apply array_get_Done in Hh2 as [? ?]. apply array_get_Done. split; [lia|]. rewrite list_lookup_insert_ne; [done|lia].
      * eapply chain_links; [|done]. intros q Hq. by rewrite (Hother j).
  - intros j Hj. destruct (Z.eq_dec j i) as [->|]; [rewrite upd_list_same|rewrite upd_list_other by done; by eapply l_nodup].
    apply NoDup_cons. auto.
  - intros j q Hj. destruct (Z.eq_dec j i) as [->|]; [rewrite upd_list_same|rewrite upd_list_other by done; by eapply l_live].
    intros [->|Hq]%elem_of_cons; [done|]. by eapply l_live.
  - intros q Hq Hoff'. pose proof (Hoff' i Hi) as Hqi. rewrite upd_list_same in Hqi.
    assert (q <> 0 -> push_tag m h blk i t !! q = m !! q) as E.
    { intros. apply push_tag_other; [set_solver|]. destruct Hhin; set_solver. }
    destruct (l_off _ _ _ _ HL q Hq) as (tq & Htq & Hrest).
    { intros j Hj. specialize (Hoff' j Hj). destruct (Z.eq_dec j i) as [->|]; [set_solver|by rewrite upd_list_other in Hoff']. }
    exists tq. split; [|done]. destruct (decide (q = h)) as [->|Hqh].
    + destruct Hhin as [->|]; [|set_solver]. unfold push_tag. rewrite lookup_insert_ne by done. done.
    + rewrite push_tag_other; [done|set_solver|done].
Qed.

(** ** Holding and splitting a tag *)
Lemma geom_hold m L used tp p t h a :
  geom m L used tp -> m !! p = Some t -> 0 <= h -> 0 <= a -> 64 + a + h <= block_size t ->
  geom (<[p := set_align_bytes (set_held_size t h) a]> m) L used tp.
Proof.
  intros [G1 G2 G3 G4 G5 G6] Ht Hh Ha Hfit.
  assert (forall q t', <[p := set_align_bytes (set_held_size t h) a]> m !! q = Some t' ->
    exists t0, m !! q = Some t0 /\ block_size t' = block_size t0 /\ left_split t' = left_split t0 /\
      right_split t' = right_split t0 /\ (q <> p -> t' = t0) /\ (q = p -> t' = set_align_bytes (set_held_size t h) a)) as Hinv.
  { intros q t' Hq. destruct (decide (p = q)) as [<-|].
    - rewrite lookup_insert_eq in Hq. simplify_eq. by exists t.
    - rewrite lookup_insert_ne in Hq by done. exists t'. split_and!; auto; congruence. }
  assert (forall q t0, m !! q = Some t0 -> exists t', <[p := set_align_bytes (set_held_size t h) a]> m !! q = Some t' /\
      left_split t' = left_split t0 /\ right_split t' = right_split t0) as Hfwd.
  { intros q t0 Hq. destruct (decide (p = q)) as [<-|]; [rewrite lookup_insert_eq|rewrite lookup_insert_ne by done]; eauto.
    simplify_eq. eauto. }
  constructor.
  - intros q Hq. destruct (G1 q Hq) as [t0 Ht0]. destruct (Hfwd _ _ Ht0) as (? & ? & _). eauto.
  - intros q t' Hq Ht'. destruct (Hinv _ _ Ht') as (t0 & Ht0 & Es & _ & _ & Hne & Heq).
    pose proof (G2 q t0 Hq Ht0). destruct (decide (q = p)) as [->|]; [|by rewrite Hne].
    rewrite Heq by done. simplify_eq/=. lia.
  - intros q r t' Hq Hr Ht' Hlt. destruct (Hinv _ _ Ht') as (t0 & Ht0 & -> & _). by apply (G3 q r).
  - intros q t' Hq Ht' Hne. destruct (Hinv _ _ Ht') as (t0 & Ht0 & Es & _ & Er & _). rewrite Er, Es in *.
    destruct (G4 q t0 Hq Ht0 Hne) as (? & ? & t2 & Ht2 & ?). split_and!; auto.
    destruct (Hfwd _ _ Ht2) as (t2' & ? & El & _). exists t2'. split; congruence.
  - intros q t' Hq Ht' Hne. destruct (Hinv _ _ Ht') as (t0 & Ht0 & _ & El & _). rewrite El in *.
    destruct (G5 q t0 Hq Ht0 Hne) as (? & t2 & Ht2 & ?). split; auto.
    destruct (Hfwd _ _ Ht2) as (t2' & ? & _ & Er). exists t2'. split; congruence.
  - intros q t' x Hq Ht' Hx. destruct (Hinv _ _ Ht') as (t0 & Ht0 & Es & _). rewrite Es in Hx. by eapply G6.
Qed.

Definition patch_left (m : gmap Z block_tag) (x v : Z) : gmap Z block_tag :=
  match m !! x with Some t => <[x := set_left_split t v]> m | None => m end.
(** The tag map after [split] of tag [p] at address [that]. *)
Definition rest_tag (p : Z) (t : block_tag) (n : Z) : block_tag := new_tag n 0 (-1) p (right_split t) 0 0 0.
Definition split_tags (m : gmap Z block_tag) (p that n : Z) (t : block_tag) : gmap Z block_tag :=
  <[p := set_block_size (set_right_split t that) (block_size t - n)]>
    ((if right_split t =? 0 then id else fun m' => patch_left m' (right_split t) that)
      (<[that := rest_tag p t n]> m)).

Lemma split_lookup m L used tp p that n t :
  geom m L used tp -> p ∈ L -> m !! p = Some t -> p < that -> that + n = p + block_size t -> 0 < n ->
  that ∉ L /\
  split_tags m p that n t !! p = Some (set_block_size (set_right_split t that) (block_size t - n)) /\
  split_tags m p that n t !! that = Some (rest_tag p t n) /\
  (right_split t <> 0 -> exists tr, m !! right_split t = Some tr /\ left_split tr = p /\
     split_tags m p that n t !! right_split t = Some (set_left_split tr that)) /\
  (forall q, q <> p -> q <> that -> (right_split t <> 0 -> q <> right_split t) -> split_tags m p that n t !! q = m !! q).
Proof.
  intros G Hp Ht Hlt Hn Hn0.
  assert (that ∉ L) as Hnin by (intros Hin; pose proof (g_disj _ _ _ _ G p that t Hp Hin Ht Hlt); lia).
  split; [done|]. unfold split_tags. rewrite lookup_insert_eq. split; [done|].
  destruct (Z.eqb_spec (right_split t) 0) as [E|E].
  - split; [rewrite lookup_insert_ne by lia; apply lookup_insert_eq|]. split; [done|].
    intros q Hq Hq' _. rewrite lookup_insert_ne by done. simpl. by rewrite lookup_insert_ne.
  - destruct (g_right _ _ _ _ G p t Hp Ht E) as (HrL & Hr & tr & Htr & Hl). unfold patch_left.
    rewrite (lookup_insert_ne _ that) by lia. rewrite Htr. split_and!.
    + rewrite !lookup_insert_ne by lia. apply lookup_insert_eq.
    + intros _. exists tr. split_and!; auto. rewrite lookup_insert_ne by lia. apply lookup_insert_eq.
    + intros q Hq Hq' Hq''. specialize (Hq'' E). by rewrite !lookup_insert_ne by done.
Qed.

Lemma geom_split m L used tp p that n t :
  geom m L used tp -> p ∈ L -> m !! p = Some t -> 64 <= n -> that + n = p + block_size t ->
  that - p = 64 + align_bytes t + held_size t ->
  geom (split_tags m p that n t) ({[that]} ∪ L) used tp.
Proof.
  intros G Hp Ht Hn Hsum Hthat. pose proof (g_fit _ _ _ _ G p t Hp Ht) as Hfit.
  destruct (split_lookup m L used tp p that n t) as (Hnin & Hlp & Hlt & Hlr & Hlo); auto; try lia.
  assert (forall q t', q ∈ L -> q <> p -> split_tags m p that n t !! q = Some t' ->
    exists t0, m !! q = Some t0 /\ block_size t' = block_size t0 /\ right_split t' = right_split t0 /\
      held_size t' = held_size t0 /\ align_bytes t' = align_bytes t0 /\
      left_split t' = if (right_split t =? q) then that else left_split t0) as Hinv.
  { intros q t' Hq Hqp Hq'. pose proof (g_fit _ _ _ _ G q). assert (q <> that) by set_solver.
    destruct (Z.eqb_spec (right_split t) q) as [E|E].
    - destruct Hlr as (tr & Htr & _ & Hs); [destruct (g_dom _ _ _ _ G q Hq) as [tq Hq1]; destruct (g_fit _ _ _ _ G q tq Hq Hq1); lia|].
      rewrite E in *. rewrite Hs in Hq'. simplify_eq. by exists tr.
    - rewrite Hlo in Hq' by congruence. by exists t'. }
  assert (forall q, q ∈ L -> exists t', split_tags m p that n t !! q = Some t') as Hdom.
  { intros q Hq. destruct (decide (q = p)) as [->|]; [eauto|]. destruct (decide (right_split t <> 0 /\ q = right_split t)) as [[E ->]|E].
    - destruct (Hlr E) as (tr & _ & _ & ?). eauto.
    - rewrite Hlo; [by apply (g_dom _ _ _ _ G)|done|set_solver|]. intros ? ->. by apply E. }
  constructor.
  - intros q [->%elem_of_singleton|Hq]%elem_of_union; eauto.
  - intros q t' [->%elem_of_singleton|Hq]%elem_of_union Ht'.
    + rewrite Hlt in Ht'. simplify_eq/=. lia.
    + destruct (decide (q = p)) as [->|Hqp]; [rewrite Hlp in Ht'; simplify_eq/=; lia|].
      destruct (Hinv _ _ Hq Hqp Ht') as (t0 & Ht0 & -> & _ & -> & -> & _). by apply (g_fit _ _ _ _ G).
  - intros q r t' Hq Hr Ht' Hqr.
    assert (r <> that -> r ∈ L) as HrL by set_solver.
    apply elem_of_union in Hq as [->%elem_of_singleton|Hq].
    + rewrite Hlt in Ht'. simplify_eq/=. pose proof (g_disj _ _ _ _ G p r t Hp (HrL ltac:(lia)) Ht). lia.
    + destruct (decide (q = p)) as [->|Hqp].
      * rewrite Hlp in Ht'. simplify_eq/=. destruct (decide (r = that)) as [->|]; [lia|].
        pose proof (g_disj _ _ _ _ G p r t Hp (HrL ltac:(done)) Ht). lia.
      * destruct (Hinv _ _ Hq Hqp Ht') as (t0 & Ht0 & -> & _).
        destruct (decide (r = that)) as [->|]; [|by apply (g_disj _ _ _ _ G); auto].
        destruct (Z.ltb_spec q p); [pose proof (g_disj _ _ _ _ G q p t0 Hq Hp Ht0); lia|].
        pose proof (g_disj _ _ _ _ G p q t Hp Hq Ht). lia.
  - intros q t' [->%elem_of_singleton|Hq]%elem_of_union Ht' Hne.
    + rewrite Hlt in Ht'. simplify_eq/=. destruct (g_right _ _ _ _ G p t Hp Ht Hne) as (HrL & Hr & _).
      destruct (Hlr Hne) as (tr & _ & _ & Hs). split; [set_solver|]. split; [lia|]. by exists (set_left_split tr that).
    + destruct (decide (q = p)) as [->|Hqp].
      * rewrite Hlp in Ht'. simplify_eq/=. split; [set_solver|]. split; [lia|]. by exists (rest_tag p t n).
      * destruct (Hinv _ _ Hq Hqp Ht') as (t0 & Ht0 & -> & Er & _). rewrite Er in *.
        destruct (g_right _ _ _ _ G q t0 Hq Ht0 Hne) as (HrL & Hr & tr & Htr & Hl).
        split; [set_solver|]. split; [done|]. destruct (Hdom _ HrL) as [t2 Ht2]. exists t2. split; [done|].
        destruct (decide (right_split t0 = p)) as [E|E].
        -- rewrite E in *. rewrite Hlp in Ht2. simplify_eq/=. done.
        -- destruct (Hinv _ _ HrL E Ht2) as (t3 & Ht3 & _ & _ & _ & _ & ->). simplify_eq.
           destruct (Z.eqb_spec (right_split t) (right_split t0)) as [E'|]; [|done].
           destruct Hlr as (t4 & Ht4 & Hl4 & _); [congruence|]. rewrite E' in Ht4. simplify_eq.
  - intros q t' [->%elem_of_singleton|Hq]%elem_of_union Ht' Hne.
    + rewrite Hlt in Ht'. simplify_eq/=. split; [set_solver|]. eauto.
    + destruct (decide (q = p)) as [->|Hqp].
      * rewrite Hlp in Ht'. simplify_eq/=. destruct (g_left _ _ _ _ G p t Hp Ht Hne) as (HlL & tl & Htl & Hr).
        split; [set_solver|]. destruct (Hdom _ HlL) as [t2 Ht2]. exists t2. split; [done|].
        assert (left_split t <> p) as E.
        { intros E. rewrite E in Htl. simplify_eq.
          destruct (g_right _ _ _ _ G _ _ Hp Htl) as (_ & ? & _); [lia|]. lia. }
        destruct (Hinv _ _ HlL E Ht2) as (t3 & Ht3 & _ & -> & _). congruence.
      * destruct (Hinv _ _ Hq Hqp Ht') as (t0 & Ht0 & _ & _ & _ & _ & El). rewrite El in *.
        destruct (Z.eqb_spec (right_split t) q) as [E|E].
        -- split; [set_solver|]. eexists. split; [exact Hlt|]. done.
        -- destruct (g_left _ _ _ _ G q t0 Hq Ht0 Hne) as (HlL & tl & Htl & Hr). split; [set_solver|].
           destruct (Hdom _ HlL) as [t2 Ht2]. exists t2. split; [done|].
           destruct (decide (left_split t0 = p)) as [E2|E2].
           { rewrite E2 in *. simplify_eq. }
           destruct (Hinv _ _ HlL E2 Ht2) as (t3 & Ht3 & _ & -> & _). congruence.
  - intros q t' x [->%elem_of_singleton|Hq]%elem_of_union Ht' Hx.
    + rewrite Hlt in Ht'. simplify_eq/=. apply (g_used _ _ _ _ G p t); auto. lia.
    + destruct (decide (q = p)) as [->|Hqp].
      * rewrite Hlp in Ht'. simplify_eq/=. apply (g_used _ _ _ _ G p t); auto. lia.
      * destruct (Hinv _ _ Hq Hqp Ht') as (t0 & Ht0 & Es & _). rewrite Es in Hx. by apply (g_used _ _ _ _ G q t0).
Qed.

End KFrameInv.
