(* ===== verification/KFrameAlloc.v ===== *)
(** Stage 2 of the kernel heap: allocation preserves the heap invariant and
    returns blocks that overlap no other live block. *)
From S2P Require Import Prelude Region KFrame KFrameInv.
Import Region KFrame KFrameInv.

Module KFrameAlloc.

(** ** Sizes *)
Lemma calculate_block_index_range size : 0 <= size -> 0 <= calculate_block_index size < nclasses.
Proof.
  intros Hs. unfold calculate_block_index, nclasses, min_block_size, max_block_size, max_block_index, clzl.
  change (Z.shiftl 1 min_exponent) with 256. change (Z.shiftl 1 (block_index_range - 1)) with 8388608.
  change (block_index_range - 1) with 23. unfold min_exponent. case_cmp; try lia.
  assert (8 <= Z.log2 size) by (apply Z.log2_le_pow2; lia).
  assert (Z.log2 size < 24) by (apply Z.log2_lt_pow2; lia). lia.
Qed.

Lemma available_size_exact p t tp :
  0 < p -> 0 <= align_bytes t -> 0 <= held_size t -> 64 + align_bytes t + held_size t <= block_size t ->
  p + block_size t + 64 <= tp -> tp <= 2 ^ 61 ->
  available_size t = block_size t - 64 - held_size t - align_bytes t.
Proof.
  intros. unfold available_size, allocated_size, sizeof_block_tag.
  rewrite !(wrap_small 64) by (unfold in_range; rewrite ?(wrap_small 64) by (unfold in_range; lia); lia). lia.
Qed.

Lemma add_align_size_spec p align :
  0 <= p -> p + 64 < 2 ^ 62 -> 0 <= align < 2 ^ 32 ->
  0 <= add_align_size p align <= align /\ (1 < align -> (p + 64 + add_align_size p align) mod align = 0).
Proof.
  intros Hp Hb Ha. unfold add_align_size, bt_offset, sizeof_block_tag. case_cmp; [|lia].
  rewrite (wrap_small 64 (p + 64)) by (unfold in_range; lia).
  destruct (up_to_nearest_spec (p + 64) align) as [Hu Hm]; [lia|].
  rewrite (wrap_small 64) by (unfold in_range; lia). rewrite (wrap_small 32) by (unfold in_range; lia).
  split; [lia|]. intros _. by replace (p + 64 + (up_to_nearest (p + 64) align - (p + 64))) with (up_to_nearest (p + 64) align) by lia.
Qed.

Lemma top_bound k : wf (mgr k) -> 0 <= top k <= 2 ^ 61.
Proof. intros [_ Hn _ _ _]. unfold top, gigabyte. lia. Qed.

Lemma live_fit k ls L p t :
  kinv k ls L -> p ∈ L -> tags k !! p = Some t ->
  0 < p /\ 0 <= align_bytes t /\ 0 <= held_size t /\ 64 + align_bytes t + held_size t <= block_size t /\
  p + block_size t + 64 <= 2 ^ 61 /\ available_size t = block_size t - 64 - held_size t - align_bytes t /\
  actual_start p t = p + 64 + align_bytes t.
Proof.
  intros [G _ Hwf _] Hp Ht. destruct (g_fit _ _ _ _ G p t Hp Ht) as (? & ? & ? & ? & ?).
  pose proof (top_bound k Hwf). split_and!; try lia.
  - eapply available_size_exact; eauto; lia.
  - unfold actual_start, sizeof_block_tag. rewrite wrap_small; [lia|unfold in_range; lia].
Qed.

(** ** Walking a list *)
Lemma repair_id k ls L i l1 p l2 :
  kinv k ls L -> 0 <= i < nclasses -> ls i = l1 ++ p :: l2 -> repair_tag k p = Done k.
Proof.
  intros [_ HL _ _] Hi Hls. destruct (l_chain _ _ _ _ HL i Hi) as (h & _ & Hc). rewrite Hls in Hc.
  pose proof (l_nodup _ _ _ _ HL i Hi) as Hnd. rewrite Hls in Hnd.
  apply NoDup_app in Hnd as (_ & Hd & [Hp2 _]%NoDup_cons).
  destruct (chain_middle _ _ _ _ _ _ _ Hc) as (t & Ht & Hprev & Hc2 & _).
  destruct (chain_elem _ _ _ _ _ p Hc) as (Hp0 & t1 & Ht1 & _ & _ & _ & Hm); [set_solver|].
  assert (t1 = t) as -> by congruence.
  unfold repair_tag. unfold get_tag. rewrite Ht. simpl.
  assert (next t <> p) as Hn by (destruct l2; simpl in Hc2; [congruence|destruct Hc2 as [-> _]; set_solver]).
  assert (previous t <> p) as Hpv.
  { rewrite Hprev. destruct (last l1) as [x|] eqn:E; simpl; [|congruence].
    apply last_Some_elem_of in E. intros ->. by apply (Hd p E); left. }
  destruct (Z.eqb_spec (next t) p); [done|]. simpl. destruct (Z.eqb_spec (previous t) p); [done|]. simpl.
  by rewrite Hm, Z.eqb_refl.
Qed.

Lemma bump_complete_ok k i d :
  Z.of_nat (length (complete_regions k)) = nclasses -> 0 <= i < nclasses ->
  exists l, length l = length (complete_regions k) /\ bump_complete k i d = Done (with_complete k l).
Proof.
  intros Hl Hi. unfold bump_complete. destruct (array_get_is_Done (complete_regions k) i) as [c ->]; [lia|]. simpl.
  rewrite array_set_Done by lia. simpl. eexists. split; [|done]. apply length_insert.
Qed.

(** Tag [q] of heap [k] has been taken off its list in [k'] to hold [size]
    bytes after [a] bytes of alignment; nothing else about the heap differs but
    the list it was on. *)
Record took (k k' : kframe) (L : gset Z) (q size a : Z) : Prop := {
  tk_inv : exists ls', kinv k' ls' L /\ forall i, 0 <= i < nclasses -> q ∉ ls' i;
  tk_tag : exists t t', tags k !! q = Some t /\ tags k' !! q = Some t' /\ block_size t' = block_size t /\
    held_size t' = size /\ align_bytes t' = a /\ held_size t = 0 /\ 0 <= index t;
  tk_other r : r <> q -> body <$> tags k' !! r = body <$> tags k !! r;
  tk_live : q ∈ L;
}.

Lemma upd_hold_Done k q t size a :
  tags k !! q = Some t ->
  upd_tag k q (fun u => set_align_bytes (set_held_size u size) a) =
  Done (with_tags k (<[q := set_align_bytes (set_held_size t size) a]> (tags k))).
Proof. apply upd_tag_Done. Qed.

(** Taking a fitting tag off its list. *)
Lemma take_ok k ls L i l1 q l2 t size a :
  kinv k ls L -> 0 <= i < nclasses -> ls i = l1 ++ q :: l2 -> tags k !! q = Some t ->
  0 <= size -> 0 <= a -> size + a <= available_size t ->
  exists k', (k2 ← remove_block k q;
              k3 ← upd_tag k2 q (fun u => set_align_bytes (set_held_size u size) a);
              k4 ← (if (left_split t =? 0) && (right_split t =? 0) then bump_complete k3 i (-1) else Done k3);
              Done (q, k4)) = Done (q, k') /\ took k k' L q size a.
Proof.
  intros K Hi Hls Ht Hs Ha Hfit. pose proof K as [G HL Hwf Hcr].
  assert (q ∈ L) as Hq by (eapply (l_live _ _ _ _ HL i); [done|rewrite Hls; set_solver]).
  destruct (live_fit _ _ _ _ _ K Hq Ht) as (Hq0 & Hal & Hh & Hsz & Htop & Hav & _).
  destruct (l_chain _ _ _ _ HL i Hi) as (h & _ & Hc). rewrite Hls in Hc.
  destruct (chain_elem _ _ _ _ _ q Hc) as (_ & t1 & Ht1 & Hidx & Hheld & Halign & Hmag); [set_solver|].
  assert (t1 = t) as -> by congruence.
  rewrite (remove_block_eval k ls L i l1 q l2 t HL Hi Hls Ht). simpl.
  set (m1 := drop_tag (tags k) (last l1) q (head l2) t).
  set (av := heads_drop (available_blocks k) i l1 (next t)).
  assert (m1 !! q = Some (unlinked t)) as Hm1 by (subst m1; unfold drop_tag; apply lookup_insert_eq).
  rewrite (upd_hold_Done _ q (unlinked t)) by done. simpl.
  set (m2 := <[q := set_align_bytes (set_held_size (unlinked t) size) a]> m1).
  pose proof (lists_drop _ _ _ _ _ _ _ _ _ HL Hi Hls Ht) as HL1. fold m1 av in HL1.
  assert (forall r, body <$> m1 !! r = body <$> tags k !! r) as Hb1 by (intros; by apply drop_tag_body).
  pose proof (geom_body _ _ _ _ _ Hb1 G) as G1.
  assert (geom m2 L (page_used (mgr k)) (top k)) as G2 by (apply geom_hold; auto; simpl; lia).
  pose proof (l_nodup _ _ _ _ HL i Hi) as Hnd. rewrite Hls in Hnd.
  assert (forall j, 0 <= j < nclasses -> q ∉ upd_list ls i (l1 ++ l2) j) as Hoff.
  { intros j Hj. destruct (Z.eq_dec j i) as [->|Hji].
    - rewrite upd_list_same. apply NoDup_app in Hnd as (_ & Hd & [? _]%NoDup_cons). set_solver.
    - rewrite upd_list_other by done. intros Hqj. apply Hji. eapply (lists_unique _ _ _ _ _ _ q HL); auto. rewrite Hls. set_solver. }
  assert (lists_ok m2 av (upd_list ls i (l1 ++ l2)) L) as HL2.
  { destruct HL1 as [X1 X2 X3 X4 X5]. constructor; auto.
    - intros j Hj. destruct (X2 j Hj) as (hj & Hhj & Hcj). exists hj. split; [done|].
      eapply chain_links; [|exact Hcj]. intros r Hr. unfold m2. rewrite lookup_insert_ne; [done|].
      intros <-. by apply (Hoff j Hj).
    - intros r Hr Hroff. destruct (decide (r = q)) as [->|].
      + exists (set_align_bytes (set_held_size (unlinked t) size) a). unfold m2. rewrite lookup_insert_eq. by split_and!.
      + destruct (X5 r Hr Hroff) as (tr & ? & ?). exists tr. unfold m2. rewrite lookup_insert_ne by done. auto. }
  assert (forall c rm, Z.of_nat (length c) = nclasses -> took k (MkFrame c av m2 (mgr k) rm) L q size a) as Hdone.
  { intros c rm Hc'. constructor; simpl; auto.
    - exists (upd_list ls i (l1 ++ l2)). split; [by constructor|done].
    - exists t, (set_align_bytes (set_held_size (unlinked t) size) a). split; [done|].
      split; [apply lookup_insert_eq|]. split_and!; auto. lia.
    - intros r Hr. unfold m2. rewrite lookup_insert_ne by done. apply Hb1. }
  destruct ((left_split t =? 0) && (right_split t =? 0)); simpl.
  - edestruct (bump_complete_ok) as (l & Hl & ->); [|exact Hi|]; [exact Hcr|]. simpl.
    eexists. split; [done|]. apply Hdone. simpl in Hl. congruence.
  - eexists. split; [done|]. by apply Hdone.
Qed.

(** The walk over list [i]: it stops at the end with the heap unchanged, or
    takes a tag that fits. *)
Lemma find_fit_ok fuel k ls L i l1 l2 size align :
  kinv k ls L -> 0 <= i < nclasses -> ls i = l1 ++ l2 -> (length l2 < fuel)%nat ->
  0 <= size < 2 ^ 40 -> 0 <= align < 2 ^ 32 ->
  find_fit fuel k (default 0 (head l2)) size align i = Done (0, k) \/
  exists q k', q ∈ l2 /\ find_fit fuel k (default 0 (head l2)) size align i = Done (q, k') /\
    took k k' L q size (add_align_size q align).
Proof.
  intros K Hi. revert l1 l2. induction fuel as [|fuel IH]; intros l1 l2 Hls Hf Hs Ha; [lia|].
  destruct l2 as [|p l2]; [by left|]. simpl.
  pose proof K as [G HL Hwf Hcr]. destruct (l_chain _ _ _ _ HL i Hi) as (h & _ & Hc). rewrite Hls in Hc.
  destruct (chain_middle _ _ _ _ _ _ _ Hc) as (t & Ht & _ & Hc2 & _).
  destruct (chain_elem _ _ _ _ _ p Hc) as (Hp0 & _); [set_solver|].
  destruct (Z.eqb_spec p 0); [done|]. rewrite (repair_id _ _ _ _ _ _ _ K Hi Hls). simpl.
  rewrite (proj2 (get_tag_Done k p t) Ht). simpl.
  assert (p ∈ L) as Hp by (eapply (l_live _ _ _ _ HL i); [done|rewrite Hls; set_solver]).
  destruct (live_fit _ _ _ _ _ K Hp Ht) as (? & ? & ? & ? & ? & Hav & _).
  destruct (add_align_size_spec p align) as [Hadd _]; [lia|lia|done|].
  rewrite (wrap_small 64) by (unfold in_range; lia).
  destruct (Z.leb_spec (size + add_align_size p align) (available_size t)) as [Hle|Hgt].
  - right. destruct (take_ok k ls L i l1 p l2 t size (add_align_size p align)) as (k' & E & Htk); auto; try lia.
    exists p, k'. split; [by left|]. split; [exact E|done].
  - assert (next t = default 0 (head l2)) as -> by (destruct l2; simpl in *; [done|by destruct Hc2 as [-> _]]).
    destruct (IH (l1 ++ [p]) l2) as [->|(q & k' & Hq & -> & Htk)]; auto.
    + by rewrite <- app_assoc.
    + simpl in Hf. lia.
    + right. exists q, k'. split; [by right|]. done.
Qed.

(** The list is never longer than the map of tags. *)
Lemma list_short m heads ls L i :
  lists_ok m heads ls L -> 0 <= i < nclasses -> (length (ls i) <= stdpp.base.size m)%nat.
Proof.
  intros HL Hi. destruct (l_chain _ _ _ _ HL i Hi) as (h & _ & Hc).
  rewrite <- (size_list_to_set (C := gset Z) (ls i)) by (by eapply l_nodup).
  rewrite <- (size_dom (D := gset Z) m). apply subseteq_size. intros p Hp%elem_of_list_to_set.
  destruct (chain_elem _ _ _ _ _ _ Hc Hp) as (_ & t & Ht & _). apply elem_of_dom. eauto.
Qed.

(** ** A new tag *)
Lemma lists_ext m m' heads ls L q t :
  lists_ok m heads ls L -> q ∉ L -> (forall r, r ∈ L -> links <$> m' !! r = links <$> m !! r) ->
  m' !! q = Some t -> index t = -1 -> previous t = 0 -> next t = 0 -> magic t = block_magic ->
  lists_ok m' heads ls ({[q]} ∪ L).
Proof.
  intros [X1 X2 X3 X4 X5] Hq Hl Ht Hi Hp Hn Hm. constructor; auto.
  - intros i Hir. destruct (X2 i Hir) as (h & Hh & Hc). exists h. split; [done|].
    eapply chain_links; [|exact Hc]. intros r Hr. by apply Hl, (X4 i).
  - intros i p Hir Hpi. apply elem_of_union_r. eauto.
  - intros p [->%elem_of_singleton|HpL]%elem_of_union Hoff; [eauto 10|].
    destruct (X5 p HpL Hoff) as (tp & Htp & ? & ? & ? & ?). specialize (Hl p HpL). rewrite Htp in Hl.
    destruct (m' !! p) as [t'|]; simpl in Hl; [|done]. injection Hl as E1 E2 E3 E4 E5 E6.
    exists t'. split_and!; congruence.
Qed.

Lemma geom_add m L used used' tp q t :
  geom m L used tp -> (forall x, 0 <= x -> used x = true -> used' x = true) ->
  0 < q -> 0 <= align_bytes t -> 0 <= held_size t -> 64 + align_bytes t + held_size t <= block_size t ->
  q + block_size t + 64 <= tp -> left_split t = 0 -> right_split t = 0 ->
  (forall x, q <= x < q + block_size t -> used ((x + 64) / page_size) = false) ->
  (forall x, q <= x < q + block_size t -> used' ((x + 64) / page_size) = true) ->
  q ∉ L /\ geom (<[q := t]> m) ({[q]} ∪ L) used' tp.
Proof.
  intros G Hmono Hq Ha Hh Hfit Htop Hl Hr Hfree Hused. pose proof G as [G1 G2 G3 G4 G5 G6].
  assert (forall r tr, r ∈ L -> m !! r = Some tr -> r + block_size tr <= q \/ q + block_size t <= r) as Hsep.
  { intros r tr HrL Htr. destruct (G2 r tr HrL Htr) as (? & ? & ? & ? & ?).
    destruct (Z.le_gt_cases (r + block_size tr) q) as [|Hgt]; [by left|right].
    destruct (Z.le_gt_cases (q + block_size t) r) as [|Hgt2]; [done|]. exfalso.
    assert (used ((Z.max r q + 64) / page_size) = true) by (apply (G6 r tr); auto; lia).
    assert (used ((Z.max r q + 64) / page_size) = false) by (apply Hfree; lia). congruence. }
  assert (q ∉ L) as Hnin.
  { intros HqL. destruct (G1 q HqL) as [tq Htq]. pose proof (G2 q tq HqL Htq). pose proof (Hsep q tq HqL Htq). lia. }
  assert (forall r, r ∈ L -> <[q := t]> m !! r = m !! r) as Hold by (intros r HrL; apply lookup_insert_ne; intros ->; done).
  split; [done|]. constructor.
  - intros p [->%elem_of_singleton|Hp]%elem_of_union; [rewrite lookup_insert_eq; eauto|rewrite Hold by done; auto].
  - intros p tp' [->%elem_of_singleton|Hp]%elem_of_union; [rewrite lookup_insert_eq; intros [= <-]; lia|rewrite Hold by done; auto].
  - intros p r tp' [->%elem_of_singleton|Hp]%elem_of_union [->%elem_of_singleton|Hr']%elem_of_union; [lia| | |].
    + rewrite lookup_insert_eq. intros [= <-] ?. destruct (G1 r Hr') as [tr Htr].
      pose proof (Hsep r tr Hr' Htr). pose proof (G2 r tr Hr' Htr). lia.
    + rewrite Hold by done. intros Htp ?. pose proof (Hsep p tp' Hp Htp). lia.
    + rewrite Hold by done. by apply G3.
  - intros p tp' [->%elem_of_singleton|Hp]%elem_of_union; [rewrite lookup_insert_eq; intros [= <-]; done|].
    rewrite Hold by done. intros Htp Hne. destruct (G4 p tp' Hp Htp Hne) as (? & ? & ?).
    rewrite Hold by done. split; [set_solver|done].
  - intros p tp' [->%elem_of_singleton|Hp]%elem_of_union; [rewrite lookup_insert_eq; intros [= <-]; done|].
    rewrite Hold by done. intros Htp Hne. destruct (G5 p tp' Hp Htp Hne) as (? & ?).
    rewrite Hold by done. split; [set_solver|done].
  - intros p tp' x [->%elem_of_singleton|Hp]%elem_of_union; [rewrite lookup_insert_eq; intros [= <-]; auto|].
    rewrite Hold by done. intros Htp Hx. pose proof (G2 p tp' Hp Htp). apply Hmono; [apply Z.div_pos; [lia|done]|eauto].
Qed.

(** Tag [q] holds [size] bytes after [a] bytes of alignment in [k'], on no list;
    it was free or not a tag before, and the other tags keep their bodies. *)
Record obtained (k k' : kframe) (L L' : gset Z) (q size a : Z) : Prop := {
  ob_inv : exists ls', kinv k' ls' L' /\ forall i, 0 <= i < nclasses -> q ∉ ls' i;
  ob_tag : exists t', tags k' !! q = Some t' /\ held_size t' = size /\ align_bytes t' = a;
  ob_fresh : q ∉ L \/ exists t, tags k !! q = Some t /\ is_free t = true;
  ob_other r : r ∈ L -> r <> q -> body <$> tags k' !! r = body <$> tags k !! r;
  ob_sub : L ⊆ L';
  ob_live : q ∈ L';
}.
Lemma took_obtained k k' L q size a : took k k' L q size a -> obtained k k' L L q size a.
Proof.
  intros [Hi (t & t' & Ht & Ht' & _ & Hh & Ha & Hz & Hx) Ho Hl]. constructor; auto.
  - by exists t'.
  - right. exists t. split; [done|]. unfold is_free. rewrite Hz, Z.eqb_refl. case_cmp; [done|lia].
Qed.

(** The number of bytes [create_tag] asks the region allocator for. *)
Definition request (size align : Z) : Z := Z.max (size + 64) align + align.

Lemma create_tag_ok k ls L size align :
  kinv k ls L -> 16 <= size < 2 ^ 40 -> 0 <= align < 2 ^ 32 ->
  (exists q k' L', create_tag k size align = Done (q, k') /\ q <> 0 /\
     obtained k k' L L' q size (add_align_size q align)) \/
  (create_tag k size align = Undef /\
     (page_used (mgr k) 0 = true -> exists s, find_and_claim (mgr k) (request size align) = Done (0, s))).
Proof.
  intros [G HL Hwf Hcr] Hs Ha. unfold create_tag, bt_offset, sizeof_block_tag.
  rewrite !(wrap_small 64) by (unfold in_range; rewrite ?(wrap_small 64) by (unfold in_range; lia); lia).
  fold (request size align). set (sz := request size align). assert (0 < sz) as Hsz by (unfold sz, request; lia).
  assert (size + 64 + align <= sz) as Hcov by (unfold sz, request; lia).
  unfold allocate_kernel_block, sizeof_block_tag. pose proof (top_bound k Hwf) as Htop. unfold top in Htop.
  assert (forall s w t, num_status_bytes s = num_status_bytes (mgr k) ->
    place_tag (with_mgr k (with_watermark s w)) (2 ^ 64 - 64) t = Undef) as Hundef.
  { intros s w t E. unfold place_tag. simpl. rewrite E. unfold sizeof_block_tag. case_cmp; simpl; [lia|done]. }
  destruct (find_and_claim_cases (mgr k) sz Hwf Hsz) as (w & Hw & Hwf0 & [[E _]|(p & s1 & E & Hp & Hcl)]).
  { right. rewrite E. simpl. change (u64 (0 - 64)) with (2 ^ 64 - 64). split; [|by eauto].
    simpl. rewrite Hundef by done. done. }
  rewrite E. simpl. destruct Hcl as [Hwf1 (Hn & Hh & Hm) Hfree Hused Hfit]. simpl in Hn, Hh, Hm, Hfit.
  change (page_used (with_watermark (mgr k) w)) with (page_used (mgr k)) in *.
  destruct (region_size_for_covers sz Hsz) as [Hc Hb]. pose proof (region_size_for_pages sz) as Hpg.
  assert (p * page_size + region_size_for sz <= num_status_bytes (mgr k) * gigabyte) as Hpt
    by (rewrite Hpg; unfold gigabyte, page_size in *; lia).
  destruct (Z.eq_dec p 0) as [->|Hp0].
  { right. change (u64 (0 * page_size - 64)) with (2 ^ 64 - 64). simpl. rewrite Hundef by done. split; [done|].
    intros H0. rewrite (Hfree 0) in H0 by lia. done. }
  left. set (q := p * page_size - 64). assert (0 < q) as Hq by (unfold q, page_size in *; lia).
  rewrite (wrap_small 64) by (unfold in_range, page_size in *; lia). fold q.
  destruct (Z.eqb_spec q 0); [lia|]. unfold place_tag. simpl. unfold sizeof_block_tag.
  rewrite Hn. destruct (Z.ltb_spec 0 q); [|lia].
  destruct (Z.leb_spec (q + 64) (num_status_bytes (mgr k) * gigabyte)); [|unfold q in *; lia]. simpl.
  set (t := new_tag_unlinked (region_size_for sz) size (-1) (add_align_size q align)).
  destruct (add_align_size_spec q align) as [Hadd _]; [lia|unfold q in *; lia|done|].
  assert (forall x, q <= x < q + block_size t -> p <= (x + 64) / page_size < p + block_pages sz) as Hx.
  { intros x Hx. subst t q. simpl in Hx. rewrite Hpg in Hx. unfold page_size in *. zlia. }
  destruct (geom_add (tags k) L (page_used (mgr k)) (page_used s1) (top k) q t) as [Hnin G']; simpl; auto; try lia.
  { intros x Hx0 Hu. rewrite Hused, Hu by done. done. }
  { unfold top. subst q. lia. }
  { intros x Hxx. pose proof (Hx x Hxx). rewrite Hused by (apply Z.div_pos; [lia|done]).
    destruct (in_pages_spec p (block_pages sz) ((x + 64) / page_size)); [apply orb_true_r|lia]. }
  eexists q, _, ({[q]} ∪ L). split; [reflexivity|]. split; [lia|]. constructor; simpl.
  - exists ls. split.
    + constructor; simpl; [| |apply with_watermark_wf; auto|done].
      * unfold top in *. simpl. rewrite Hn. exact G'.
      * eapply lists_ext; [done|done| |apply lookup_insert_eq|done|done|done|done].
        intros r Hr. rewrite lookup_insert_ne; [done|]. intros ->. done.
      * pose proof (wf_mark _ Hwf1). unfold q. split; [lia|]. apply Z.max_lub_lt; lia.
    + intros i Hi Hqi. apply Hnin. by eapply l_live.
  - exists t. rewrite lookup_insert_eq. done.
  - by left.
  - intros r Hr Hne. by rewrite lookup_insert_ne.
  - set_solver.
  - set_solver.
Qed.

(** ** Splitting *)
Lemma split_eval k ls L p t :
  kinv k ls L -> p ∈ L -> tags k !! p = Some t -> 320 <= available_size t ->
  let that := p + 64 + align_bytes t + held_size t in
  split k p = Done (that, with_tags k (split_tags (tags k) p that (available_size t) t)).
Proof.
  intros K Hp Ht Hav that. destruct (live_fit _ _ _ _ _ K Hp Ht) as (? & ? & ? & ? & ? & Hn & Hst).
  destruct K as [G HL Hwf Hcr]. destruct (g_fit _ _ _ _ G p t Hp Ht) as (_ & _ & _ & _ & Htop).
  unfold split. rewrite (proj2 (get_tag_Done k p t) Ht). simpl. rewrite Hst.
  rewrite (wrap_small 64) by (unfold in_range; lia). fold that.
  assert (p < that) by (unfold that; lia). assert (that + available_size t = p + block_size t) as Hsum by (unfold that; lia).
  unfold place_tag, sizeof_block_tag. fold (top k).
  destruct (Z.ltb_spec 0 that); [|lia]. destruct (Z.leb_spec (that + 64) (top k)); [|lia]. simpl.
  fold (rest_tag p t (available_size t)). set (m1 := <[that := rest_tag p t (available_size t)]> (tags k)).
  assert (m1 !! p = Some t) as Hm1 by (unfold m1; by rewrite lookup_insert_ne by lia).
  assert (exists m2, (if negb (right_split t =? 0) then upd_tag (with_tags k m1) (right_split t) (fun q => set_left_split q that)
            else Done (with_tags k m1)) = Done (with_tags k m2) /\ m2 !! p = Some t /\
            m2 !! that = Some (rest_tag p t (available_size t)) /\
            m2 = (if right_split t =? 0 then id else fun m' => patch_left m' (right_split t) that) m1) as (m2 & E & Hm2 & Hm2' & Em2).
  { destruct (Z.eqb_spec (right_split t) 0) as [Er|Er]; simpl.
    - exists m1. split_and!; auto. apply lookup_insert_eq.
    - destruct (g_right _ _ _ _ G p t Hp Ht Er) as (HrL & Hr & tr & Htr & Hl).
      assert (m1 !! right_split t = Some tr) as Hmr by (unfold m1; by rewrite lookup_insert_ne by lia).
      erewrite upd_tag_Done by exact Hmr. eexists. split; [reflexivity|]. unfold patch_left. rewrite Hmr.
      rewrite !lookup_insert_ne by lia. split_and!; auto. apply lookup_insert_eq. }
  rewrite E. simpl. erewrite upd_tag_Done by exact Hm2. simpl.
  rewrite (proj2 (get_tag_Done _ that (rest_tag p t (available_size t)))) by (simpl; rewrite lookup_insert_ne by lia; done). simpl.
  erewrite upd_tag_Done by (simpl; apply lookup_insert_eq). simpl. rewrite insert_insert_eq.
  rewrite (wrap_small 64) by (unfold in_range; lia). unfold split_tags. by rewrite Em2.
Qed.

(** What the clients of the heap see of a tag: the size of its block and what
    it holds. *)
Definition view (t : block_tag) : Z * Z * Z := (block_size t, held_size t, align_bytes t).
Lemma view_body (m m' : gmap Z block_tag) r :
  body <$> m' !! r = body <$> m !! r -> view <$> m' !! r = view <$> m !! r.
Proof.
  destruct (m' !! r), (m !! r); simpl; intros E; try done. injection E as ? ? ? ? ? ?. unfold view. congruence.
Qed.

(** Splitting the free rest off an allocated tag and listing it. *)
Lemma split_insert_ok k ls L p t :
  kinv k ls L -> p ∈ L -> (forall i, 0 <= i < nclasses -> p ∉ ls i) -> tags k !! p = Some t -> 320 <= available_size t ->
  exists k' ls' L' t', (k1 ← ('(that, k') ← split k p; insert_block k' that (-1)); Done k1) = Done k' /\
    kinv k' ls' L' /\ L ⊆ L' /\ tags k' !! p = Some t' /\ index t' = -1 /\
    held_size t' = held_size t /\ align_bytes t' = align_bytes t /\
    (forall r, r ∈ L -> r <> p -> view <$> tags k' !! r = view <$> tags k !! r).
Proof.
  intros K Hp Hoff Ht Hav. destruct (live_fit _ _ _ _ _ K Hp Ht) as (Hp0 & Ha0 & Hh0 & Hfit & Hpb & Hn & _).
  rewrite (split_eval _ _ _ _ _ K Hp Ht Hav). destruct K as [G HL Hwf Hcr].
  destruct (l_off _ _ _ _ HL p Hp Hoff) as (t0 & Ht0 & Hidx & _). assert (t0 = t) as -> by congruence.
  set (that := p + 64 + align_bytes t + held_size t). set (n := available_size t) in *.
  assert (that + n = p + block_size t) as Hsum by (unfold that; lia).
  pose proof (geom_split (tags k) L _ _ p that n t G Hp Ht ltac:(lia) Hsum ltac:(unfold that; lia)) as G1.
  destruct (split_lookup (tags k) L _ _ p that n t G Hp Ht) as (Hnin & Hlp & Hlt & Hlr & Hlo); [unfold that; lia|done|lia|].
  set (m1 := split_tags (tags k) p that n t) in *.
  assert (forall r, r ∈ L -> links <$> m1 !! r = links <$> tags k !! r /\
    (r <> p -> view <$> m1 !! r = view <$> tags k !! r)) as Hsame.
  { intros r Hr. destruct (decide (r = p)) as [->|Hrp]; [by rewrite Hlp, Ht|].
    destruct (decide (right_split t <> 0 /\ r = right_split t)) as [[E ->]|E].
    - destruct (Hlr E) as (tr & Htr & _ & ->). by rewrite Htr.
    - rewrite Hlo; [done|done|set_solver|]. intros ? ->. by apply E. }
  assert (lists_ok m1 (available_blocks k) ls ({[that]} ∪ L)) as HL1.
  { eapply lists_ext; [exact HL|done|by apply Hsame|exact Hlt|done..]. }
  assert (forall j, 0 <= j < nclasses -> that ∉ ls j) as Hthat by (intros j Hj Hin; apply Hnin; by eapply l_live).
  pose proof (calculate_block_index_range n ltac:(lia)) as Hi. set (i := calculate_block_index n) in *.
  destruct (l_chain _ _ _ _ HL i Hi) as (h & Hh & _). simpl.
  rewrite (insert_block_eval (with_tags k m1) ls ({[that]} ∪ L) that (-1) i (rest_tag p t n) h); [|exact HL1|reflexivity|exact Hi|exact Hlt|done|done|by apply Hthat|exact Hh].
  assert (that <> 0) as Hthat0 by (unfold that; lia).
  eexists _, _, ({[that]} ∪ L), _. split; [reflexivity|]. simpl. split.
  { constructor; simpl; [| |done|done].
    - unfold top. simpl. fold (top k). eapply geom_body; [|exact G1]. intros r. by apply push_tag_body.
    - eapply lists_push; [exact HL1|exact Hi|set_solver|exact Hthat0|exact Hthat|exact Hlt|done|done|exact Hh]. }
  split; [set_solver|]. assert (p <> h) as Hph.
  { intros ->. destruct (l_chain _ _ _ _ HL i Hi) as (h' & Hh' & Hc). assert (h' = h) as -> by congruence.
    destruct (ls i) as [|x l] eqn:El; simpl in Hc; [lia|]. destruct Hc as [-> _]. apply (Hoff i Hi). rewrite El. by left. }
  rewrite push_tag_other by (unfold that; lia || done). rewrite Hlp. split_and!; try done.
  intros r Hr Hrp. destruct (Hsame r Hr) as [_ Hv]. rewrite <- (Hv Hrp). apply view_body. by apply push_tag_body.
Qed.

(** The outcome of an allocation. *)
Record allocated (k k' : kframe) (L : gset Z) (q size align : Z) : Prop := {
  al_inv : exists ls' L', kinv k' ls' L' /\ L ⊆ L' /\ q ∈ L';
  al_tag : exists t, tags k' !! q = Some t /\ index t = -1 /\ held_size t = size /\
    (1 < align -> actual_start q t mod align = 0);
  al_fresh : q ∉ L \/ exists t, tags k !! q = Some t /\ is_free t = true;
  al_other r : r ∈ L -> r <> q -> view <$> tags k' !! r = view <$> tags k !! r;
}.

Lemma get_for_allocation_cases k ls L size align :
  kinv k ls L -> 0 <= size < 2 ^ 40 -> 0 <= align < 2 ^ 32 ->
  (exists q k', get_for_allocation k size align = Done (q, k') /\ q <> 0 /\ allocated k k' L q (Z.max size 16) align) \/
  (get_for_allocation k size align = Undef /\
    (page_used (mgr k) 0 = true -> exists s, find_and_claim (mgr k) (request (Z.max size 16) align) = Done (0, s))).
Proof.
  intros K Hs Ha. unfold get_for_allocation. set (sz := Z.max size 16) in *.
  assert (16 <= sz < 2 ^ 40) as Hsz by (unfold sz; lia). cbv zeta.
  pose proof (calculate_block_index_range sz ltac:(lia)) as Hi. set (i := calculate_block_index sz) in *.
  destruct (l_chain _ _ _ _ (k_lists _ _ _ K) i Hi) as (h & Hh & Hc).
  assert (h = default 0 (head (ls i))) as -> by (destruct (ls i); simpl in Hc; [done|by destruct Hc]).
  unfold head_get. destruct (Z.eqb_spec i (-1)); [lia|]. rewrite Hh.
  pose proof (list_short _ _ _ _ i (k_lists _ _ _ K) Hi) as Hlen.
  remember (S (stdpp.base.size (tags k))) as fuel eqn:Hfuel. simpl.
  assert (Hrest : forall q k1 L1, q <> 0 -> obtained k k1 L L1 q sz (add_align_size q align) ->
    exists k', (t ← get_tag k1 q;
      k3 ← (if min_block_size + bt_offset <=? available_size t then '(that, k') ← split k1 q; insert_block k' that (-1) else Done k1);
      t' ← get_tag k3 q; Done (q, with_remaining k3 (u64 (remaining_memory k3 - KFrame.block_size t')))) = Done (q, k') /\
      allocated k k' L q sz align).
  { intros q k1 L1 Hq0 [(ls1 & K1 & Hoff) (t & Ht & Hheld & Halg) Hfresh Hother Hsub Hlive].
    rewrite (proj2 (get_tag_Done k1 q t) Ht). simpl. change (min_block_size + bt_offset) with 320.
    destruct (live_fit _ _ _ _ _ K1 Hlive Ht) as (? & ? & ? & ? & ? & Hav & Hst).
    assert (1 < align -> actual_start q t mod align = 0) as Halign.
    { intros Hal. rewrite Hst, Halg. by apply add_align_size_spec; [lia|lia|lia|]. }
    destruct (l_off _ _ _ _ (k_lists _ _ _ K1) q Hlive Hoff) as (t0 & Ht0 & Hidx & _). assert (t0 = t) as -> by congruence.
    destruct (Z.leb_spec 320 (available_size t)) as [Hle|_].
    - destruct (split_insert_ok k1 ls1 L1 q t K1 Hlive Hoff Ht Hle) as (k' & ls' & L' & t' & E & K' & HL' & Ht' & Hi' & Hh' & Ha' & Hv).
      apply bind_Done in E as (k2 & E & [= ->]). rewrite E. simpl.
      rewrite (proj2 (get_tag_Done k' q t') Ht'). simpl. eexists. split; [reflexivity|]. constructor; simpl; auto.
      + exists ls', L'. split; [destruct K'; by constructor|]. set_solver.
      + exists t'. split_and!; auto; [congruence|]. unfold actual_start in *. by rewrite Ha'.
      + intros r Hr Hrq. rewrite Hv by (set_solver || done). by apply view_body, Hother.
    - simpl. rewrite (proj2 (get_tag_Done k1 q t) Ht). simpl. eexists. split; [reflexivity|]. constructor; simpl; auto.
      + exists ls1, L1. split; [destruct K1; by constructor|]. done.
      + exists t. split_and!; auto.
      + intros r Hr Hrq. by apply view_body, Hother. }
  destruct (find_fit_ok fuel k ls L i [] (ls i) sz align K Hi eq_refl ltac:(lia) ltac:(lia) Ha)
    as [->|(q & k1 & Hq & -> & Htk)]; simpl.
  - destruct (create_tag_ok k ls L sz align K Hsz Ha) as [(q & k1 & L1 & -> & Hq0 & Hob)|[-> Hex]]; simpl.
    + left. destruct (Hrest q k1 L1 Hq0 Hob) as (k' & E & Hal). exists q, k'.
      destruct (Z.eqb_spec q 0); [done|]. done.
    + right. done.
  - destruct (chain_elem _ _ _ _ _ q Hc Hq) as (Hq0 & _).
    left. destruct (Hrest q k1 L Hq0 (took_obtained _ _ _ _ _ _ Htk)) as (k' & E & Hal). exists q, k'.
    destruct (Z.eqb_spec q 0); [done|]. simpl. destruct (Z.eqb_spec q 0); [done|]. done.
Qed.

Lemma allocate_cases k ls L size align :
  kinv k ls L -> 0 < size < 2 ^ 40 -> 0 <= align < 2 ^ 32 ->
  (exists ptr q t k', allocate k size align = Done (ptr, k') /\ tags k' !! q = Some t /\ ptr = actual_start q t /\
     q <> 0 /\ allocated k k' L q (Z.max size 16) align) \/
  (allocate k size align = Undef /\
    (page_used (mgr k) 0 = true -> exists s, find_and_claim (mgr k) (request (Z.max size 16) align) = Done (0, s))).
Proof.
  intros K Hs Ha. unfold allocate. destruct (Z.eqb_spec size 0); [lia|].
  destruct (get_for_allocation_cases k ls L size align K ltac:(lia) Ha) as [(q & k' & -> & Hq & Hal)|[-> Hex]]; [left|by right].
  simpl. destruct (Z.eqb_spec q 0); [done|]. destruct (al_tag _ _ _ _ _ _ Hal) as (t & Ht & _).
  rewrite (proj2 (get_tag_Done k' q t) Ht). simpl. by exists (actual_start q t), q, t, k'.
Qed.

(** ** Properties *)

(** C1: An allocation of the kernel heap preserves the heap invariant.  The
    pointer returned is aligned as asked; the [size] bytes at it lie within the
    block of the tag that holds them, and outside the block of every other live
    tag; the tag was free or did not exist; and no other live block changes its
    size or what it holds. *)
Theorem allocate_safe k ls L size align ptr k' :
  kinv k ls L -> 0 < size < 2 ^ 40 -> 0 <= align < 2 ^ 32 -> allocate k size align = Done (ptr, k') ->
  exists q t ls' L', kinv k' ls' L' /\ L ⊆ L' /\ q ∈ L' /\ tags k' !! q = Some t /\
    held_size t = Z.max size 16 /\ index t = -1 /\
    (1 < align -> ptr mod align = 0) /\ q + 64 <= ptr /\ ptr + size <= q + KFrame.block_size t /\
    (forall r tr, r ∈ L' -> r <> q -> tags k' !! r = Some tr -> ptr + size <= r \/ r + KFrame.block_size tr <= ptr) /\
    (q ∉ L \/ exists t0, tags k !! q = Some t0 /\ is_free t0 = true) /\
    (forall r, r ∈ L -> r <> q -> view <$> tags k' !! r = view <$> tags k !! r).
Proof.
  intros K Hs Ha Hrun.
  destruct (allocate_cases k ls L size align K Hs Ha) as [(ptr0 & q & t & k0 & E & Ht & -> & Hq & Hal)|[E _]]; [|congruence].
  rewrite E in Hrun. injection Hrun as <- <-.
  destruct Hal as [(ls' & L' & K' & Hsub & HqL) (t0 & Ht0 & Hidx & Hheld & Hal) Hfresh Hother].
  assert (t0 = t) as -> by congruence.
  destruct (live_fit _ _ _ _ _ K' HqL Ht) as (? & ? & ? & ? & ? & _ & Hst).
  exists q, t, ls', L'. split_and!; auto; try lia.
  intros r tr Hr Hrq Htr. pose proof (k_geom _ _ _ K') as G.
  pose proof (g_disj _ _ _ _ G q r t HqL Hr Ht). pose proof (g_disj _ _ _ _ G r q tr Hr HqL Htr). lia.
Qed.

(** C37: Unless the region allocator has no block left for the request, an
    allocation returns, and what it returns is not null. *)
Theorem allocate_returns k ls L size align :
  kinv k ls L -> 0 < size < 2 ^ 40 -> 0 <= align < 2 ^ 32 -> page_used (mgr k) 0 = true ->
  (forall s, find_and_claim (mgr k) (request (Z.max size 16) align) <> Done (0, s)) ->
  exists ptr k', allocate k size align = Done (ptr, k') /\ 64 < ptr.
Proof.
  intros K Hs Ha H0 Hne.
  destruct (allocate_cases k ls L size align K Hs Ha) as [(ptr0 & q & t & k0 & E & Ht & -> & Hq & Hal)|[_ Hex]].
  - eexists _, _. split; [exact E|]. destruct Hal as [(ls' & L' & K' & _ & HqL) _ _ _].
    destruct (live_fit _ _ _ _ _ K' HqL Ht) as (? & ? & ? & ? & ? & _ & ->). lia.
  - destruct (Hex H0) as [s Hs']. by destruct (Hne s).
Qed.

(** ** Witnesses: the heap at boot *)
Definition boot_frame : kframe := MkFrame (replicate 24 0) (replicate 24 0) ∅ (demo 2) (510 * region_size).
Lemma boot_inv : kinv boot_frame (fun _ => []) ∅.
Proof.
  constructor; [constructor; set_solver| |apply demo_wf; lia|done].
  constructor; [done| |intros; constructor|set_solver|set_solver].
  intros i Hi. exists 0. split; [|done]. apply array_get_Done. split; [lia|].
  simpl. apply (lookup_replicate_2 24). unfold nclasses in Hi. lia.
Qed.
Lemma allocate_safe_witness :
  exists ptr k', allocate boot_frame 1000 4096 = Done (ptr, k') /\
  exists q t ls' L', kinv k' ls' L' /\ ∅ ⊆ L' /\ q ∈ L' /\ tags k' !! q = Some t /\
    held_size t = Z.max 1000 16 /\ index t = -1 /\
    (1 < 4096 -> ptr mod 4096 = 0) /\ q + 64 <= ptr /\ ptr + 1000 <= q + KFrame.block_size t /\
    (forall r tr, r ∈ L' -> r <> q -> tags k' !! r = Some tr -> ptr + 1000 <= r \/ r + KFrame.block_size tr <= ptr) /\
    (q ∉ (∅ : gset Z) \/ exists t0, tags boot_frame !! q = Some t0 /\ is_free t0 = true) /\
    (forall r, r ∈ (∅ : gset Z) -> r <> q -> view <$> tags k' !! r = view <$> tags boot_frame !! r).
Proof.
  destruct (allocate boot_frame 1000 4096) as [[ptr k']| |] eqn:E; [|vm_compute in E; discriminate E..].
  exists ptr, k'. split; [reflexivity|].
  exact (allocate_safe boot_frame (fun _ => []) ∅ 1000 4096 ptr k' boot_inv ltac:(lia) ltac:(lia) E).
Defined.
Lemma allocate_returns_witness : exists ptr k', allocate boot_frame 1000 4096 = Done (ptr, k') /\ 64 < ptr.
Proof.
  apply (allocate_returns boot_frame (fun _ => []) ∅ 1000 4096); [apply boot_inv|lia|lia|reflexivity|].
  intros s. vm_compute. congruence.
Defined.

End KFrameAlloc.
