(* ===== verification/KFrameFree.v ===== *)
(** Stage 2 of the kernel heap: releasing a block.

    A block whose left neighbour is in use goes back to the heap merged with the
    free blocks to its right, and the heap invariant is preserved.  When the left
    neighbour is free the code merges into it while it stays on its old list, and
    the invariant is lost. *)
From S2P Require Import Prelude Region KFrame KFrameInv KFrameAlloc.
Import Region KFrame KFrameInv KFrameAlloc.

Module KFrameFree.

(** ** Merging a tag with its right neighbour *)
Definition merged (t tr : block_tag) : block_tag :=
  set_right_split (set_block_size t (block_size t + block_size tr)) (right_split tr).
Definition merge_tags (m : gmap Z block_tag) (p : Z) (t tr : block_tag) : gmap Z block_tag :=
  (if right_split tr =? 0 then id else fun m' => patch_left m' (right_split tr) p) (<[p := merged t tr]> m).

Lemma merge_lookup m L used tp p r t tr :
  geom m L used tp -> p ∈ L -> m !! p = Some t -> right_split t = r -> r <> 0 -> m !! r = Some tr ->
  p < r /\ r = p + block_size t /\ r ∈ L /\ 64 <= block_size tr /\ left_split tr = p /\
  merge_tags m p t tr !! p = Some (merged t tr) /\
  (right_split tr <> 0 -> r < right_split tr /\ right_split tr ∈ L /\ exists tn, m !! right_split tr = Some tn /\ left_split tn = r /\
     merge_tags m p t tr !! right_split tr = Some (set_left_split tn p)) /\
  (forall q, q <> p -> (right_split tr <> 0 -> q <> right_split tr) -> merge_tags m p t tr !! q = m !! q).
Proof.
  intros G Hp Ht Hr Hr0 Htr. pose proof (g_fit _ _ _ _ G p t Hp Ht) as Hfp.
  destruct (g_right _ _ _ _ G p t Hp Ht ltac:(congruence)) as (HrL & Hra & t1 & Ht1 & Hl). rewrite Hr in *.
  assert (t1 = tr) as -> by congruence. pose proof (g_fit _ _ _ _ G r tr HrL Htr) as Hfr.
  split; [lia|]. split; [done|]. split; [done|]. split; [lia|]. split; [done|]. unfold merge_tags.
  destruct (Z.eqb_spec (right_split tr) 0) as [E|E]; simpl.
  - rewrite lookup_insert_eq. split; [done|]. split; [done|]. intros q Hq _. by apply lookup_insert_ne.
  - destruct (g_right _ _ _ _ G r tr HrL Htr E) as (HnL & Hna & tn & Htn & Hln).
    unfold patch_left. rewrite (lookup_insert_ne _ p) by lia. rewrite Htn.
    rewrite lookup_insert_ne by lia. rewrite lookup_insert_eq. split; [done|]. split.
    + intros _. split; [lia|]. split; [done|]. exists tn. split_and!; auto. apply lookup_insert_eq.
    + intros q Hq Hq'. rewrite !lookup_insert_ne; [done|congruence|]. intros E'. by apply Hq'.
Qed.

Lemma geom_merge m L used tp p r t tr :
  geom m L used tp -> p ∈ L -> m !! p = Some t -> right_split t = r -> r <> 0 -> m !! r = Some tr ->
  geom (merge_tags m p t tr) (L ∖ {[r]}) used tp.
Proof.
  intros G Hp Ht Hr Hr0 Htr.
  destruct (merge_lookup m L used tp p r t tr G Hp Ht Hr Hr0 Htr) as (Hpr & Hra & HrL & Hbs & Hlr & Hmp & Hmn & Hmo).
  pose proof (g_fit _ _ _ _ G p t Hp Ht) as Hfp. pose proof (g_fit _ _ _ _ G r tr HrL Htr) as Hfr.
  set (m' := merge_tags m p t tr) in *.
  assert (forall q, q ∈ L ∖ {[r]} -> q <> p -> exists t0 t', m !! q = Some t0 /\ m' !! q = Some t' /\
    view t' = view t0 /\ right_split t' = right_split t0 /\ right_split t0 <> r /\
    left_split t' = (if left_split t0 =? r then p else left_split t0)) as Hq.
  { intros q [HqL Hqr]%elem_of_difference Hqp. assert (q <> r) as Hqr' by set_solver.
    destruct (g_dom _ _ _ _ G q HqL) as [t0 Ht0].
    assert (right_split t0 <> r) as Hnr.
    { intros E. destruct (g_right _ _ _ _ G q t0 HqL Ht0) as (_ & _ & t2 & Ht2 & Hl2); [congruence|]. rewrite E in Ht2.
      assert (t2 = tr) as -> by congruence. congruence. }
    destruct (decide (right_split tr <> 0 /\ q = right_split tr)) as [[E ->]|E].
    - destruct (Hmn E) as (_ & _ & tn & Htn & Hln & Hs). assert (tn = t0) as -> by congruence.
      exists t0, (set_left_split t0 p). split_and!; auto. simpl. by rewrite Hln, Z.eqb_refl.
    - exists t0, t0. rewrite Hmo; [|done|intros ? ->; by apply E]. split_and!; auto.
      destruct (Z.eqb_spec (left_split t0) r) as [El|]; [|done]. exfalso.
      destruct (g_left _ _ _ _ G q t0 HqL Ht0) as (_ & t2 & Ht2 & Hr2); [congruence|]. rewrite El in Ht2.
      assert (t2 = tr) as -> by congruence. apply E. split; [|done].
      destruct (g_fit _ _ _ _ G q t0 HqL Ht0). lia. }
  assert (p ∈ L ∖ {[r]}) as HpL' by (apply elem_of_difference; split; [done|]; rewrite elem_of_singleton; lia).
  constructor.
  - intros q HqL. destruct (decide (q = p)) as [->|Hqp]; [eauto|]. destruct (Hq q HqL Hqp) as (t0 & t' & _ & ? & _). eauto.
  - intros q t' HqL Ht'. destruct (decide (q = p)) as [->|Hqp].
    { rewrite Hmp in Ht'. injection Ht' as <-. simpl. lia. }
    destruct (Hq q HqL Hqp) as (t0 & t2 & Ht0 & Ht2 & [= Ev1 Ev2 Ev3] & _). assert (t2 = t') as -> by congruence.
    rewrite Ev1, Ev2, Ev3. eapply g_fit; [exact G| |done]. set_solver.
  - intros q q2 t' HqL Hq2L Ht' Hlt. apply elem_of_difference in Hq2L as [Hq2L Hq2r]. rewrite elem_of_singleton in Hq2r.
    destruct (decide (q = p)) as [->|Hqp].
    + rewrite Hmp in Ht'. injection Ht' as <-. simpl. pose proof (g_disj _ _ _ _ G p q2 t Hp Hq2L Ht Hlt).
      pose proof (g_disj _ _ _ _ G r q2 tr HrL Hq2L Htr). lia.
    + destruct (Hq q HqL Hqp) as (t0 & t2 & Ht0 & Ht2 & [= Ev1 Ev2 Ev3] & _). assert (t2 = t') as -> by congruence.
      rewrite Ev1. eapply g_disj; [exact G| | |exact Ht0|]; set_solver.
  - intros q t' HqL Ht' Hne. destruct (decide (q = p)) as [->|Hqp].
    + rewrite Hmp in Ht'. injection Ht' as <-. simpl in *. destruct (Hmn Hne) as (? & HnL & tn & Htn & Hln & Hs).
      destruct (g_right _ _ _ _ G r tr HrL Htr Hne) as (_ & ? & _).
      split; [apply elem_of_difference; rewrite elem_of_singleton; split; [done|lia]|]. split; [lia|]. by exists (set_left_split tn p).
    + destruct (Hq q HqL Hqp) as (t0 & t2 & Ht0 & Ht2 & [= Ev1 Ev2 Ev3] & Er & Hner & _). assert (t2 = t') as -> by congruence.
      rewrite Er, Ev1 in *. destruct (g_right _ _ _ _ G q t0 ltac:(set_solver) Ht0 Hne) as (HxL & Hx & tx & Htx & Hlx).
      assert (right_split t0 ∈ L ∖ {[r]}) as HxL' by (apply elem_of_difference; rewrite elem_of_singleton; auto).
      split; [done|]. split; [done|]. destruct (decide (right_split t0 = p)) as [E|E].
      * rewrite E in *. exists (merged t tr). split; [done|]. simpl. congruence.
      * destruct (Hq _ HxL' E) as (t3 & t4 & Ht3 & Ht4 & _ & _ & _ & El). exists t4. split; [done|].
        rewrite El. assert (t3 = tx) as -> by congruence. rewrite Hlx.
        apply elem_of_difference in HqL as [_ HqL]. rewrite elem_of_singleton in HqL. by destruct (Z.eqb_spec q r).
  - intros q t' HqL Ht' Hne. destruct (decide (q = p)) as [->|Hqp].
    + rewrite Hmp in Ht'. injection Ht' as <-. simpl in *. destruct (g_left _ _ _ _ G p t Hp Ht Hne) as (HxL & tx & Htx & Hrx).
      assert (left_split t <> r /\ left_split t <> p) as [? ?].
      { split; intros E; rewrite E in Htx.
        - assert (tx = tr) as -> by congruence. destruct (g_right _ _ _ _ G r tr HrL Htr) as (_ & ? & _); [lia|]. lia.
        - assert (tx = t) as -> by congruence. lia. }
      assert (left_split t ∈ L ∖ {[r]}) as HxL' by (apply elem_of_difference; rewrite elem_of_singleton; auto).
      split; [done|]. destruct (Hq _ HxL' ltac:(done)) as (t3 & t4 & Ht3 & Ht4 & _ & Er & _). exists t4. split; [done|]. congruence.
    + destruct (Hq q HqL Hqp) as (t0 & t2 & Ht0 & Ht2 & _ & _ & _ & El). assert (t2 = t') as -> by congruence. rewrite El in *.
      destruct (Z.eqb_spec (left_split t0) r) as [E|E].
      * split; [done|]. exists (merged t tr). split; [done|]. simpl.
        destruct (g_left _ _ _ _ G q t0 ltac:(set_solver) Ht0) as (_ & tx & Htx & Hrx); [congruence|]. rewrite E in Htx. congruence.
      * destruct (g_left _ _ _ _ G q t0 ltac:(set_solver) Ht0 Hne) as (HxL & tx & Htx & Hrx).
        assert (left_split t0 ∈ L ∖ {[r]}) as HxL' by (apply elem_of_difference; rewrite elem_of_singleton; auto).
        split; [done|]. destruct (decide (left_split t0 = p)) as [E'|E'].
        -- exfalso. rewrite E' in Htx. assert (tx = t) as -> by congruence. set_solver.
        -- destruct (Hq _ HxL' E') as (t3 & t4 & Ht3 & Ht4 & _ & Er & _). exists t4. split; [done|]. congruence.
  - intros q t' x HqL Ht' Hx. destruct (decide (q = p)) as [->|Hqp].
    + rewrite Hmp in Ht'. injection Ht' as <-. simpl in Hx.
      destruct (Z.ltb_spec x (p + block_size t)); [apply (g_used _ _ _ _ G p t)|apply (g_used _ _ _ _ G r tr)]; auto; lia.
    + destruct (Hq q HqL Hqp) as (t0 & t2 & Ht0 & Ht2 & [= Ev1 _ _] & _). assert (t2 = t') as -> by congruence.
      rewrite Ev1 in Hx. eapply (g_used _ _ _ _ G q t0); auto. set_solver.
Qed.

(** A free live tag is on a list. *)
Lemma free_listed m heads ls L r t :
  lists_ok m heads ls L -> r ∈ L -> m !! r = Some t -> 0 <= index t ->
  exists i l1 l2, 0 <= i < nclasses /\ ls i = l1 ++ r :: l2.
Proof.
  intros HL Hr Ht Hi.
  destruct (decide (Exists (fun n => r ∈ ls (Z.of_nat n)) (seq 0 24))) as [He|He].
  - apply Exists_exists in He as (n & Hn%elem_of_seq & Hrn). apply list_elem_of_split in Hrn as (l1 & l2 & E).
    exists (Z.of_nat n), l1, l2. unfold nclasses. split; [lia|done].
  - destruct (l_off _ _ _ _ HL r Hr) as (t' & Ht' & Hx & _); [|assert (t' = t) as -> by congruence; lia].
    intros i Hir Hri. apply He, Exists_exists. exists (Z.to_nat i). unfold nclasses in Hir.
    rewrite elem_of_seq, Z2Nat.id by lia. split; [lia|done].
Qed.

Lemma lists_restrict m m' heads ls L L' :
  lists_ok m heads ls L -> L' ⊆ L -> (forall i r, 0 <= i < nclasses -> r ∈ ls i -> r ∈ L') ->
  (forall r, r ∈ L' -> links <$> m' !! r = links <$> m !! r) -> lists_ok m' heads ls L'.
Proof.
  intros [X1 X2 X3 X4 X5] Hsub Hin Hl. constructor; auto.
  - intros i Hi. destruct (X2 i Hi) as (h & Hh & Hc). exists h. split; [done|].
    eapply chain_links; [|exact Hc]. intros r Hr. apply Hl. eauto.
  - intros p Hp Hoff. destruct (X5 p (Hsub p Hp) Hoff) as (tp & Htp & ? & ? & ? & ?). specialize (Hl p Hp). rewrite Htp in Hl.
    destruct (m' !! p) as [t'|]; simpl in Hl; [|done]. injection Hl as E1 E2 E3 E4 E5 E6.
    exists t'. split_and!; congruence.
Qed.

(** Tag [p] is live, unlisted and holds nothing. *)
Record open_tag (k : kframe) (ls : Z -> list Z) (L : gset Z) (p : Z) (t : block_tag) : Prop := {
  op_inv : kinv k ls L;
  op_live : p ∈ L;
  op_off i : 0 <= i < nclasses -> p ∉ ls i;
  op_tag : tags k !! p = Some t;
  op_empty : held_size t = 0 /\ align_bytes t = 0;
}.

(** One step of [melt_right]: the free right neighbour leaves its list and its
    block is appended to the tag. *)
Lemma melt_right_ok k ls L p t r tr :
  open_tag k ls L p t -> right_split t = r -> r <> 0 -> tags k !! r = Some tr -> is_free tr = true ->
  exists k' ls' t', melt_right k p = Done (p, k') /\ open_tag k' ls' (L ∖ {[r]}) p t' /\ r ∈ L /\
    complete_regions k' = complete_regions k /\ left_split t' = left_split t /\
    (forall q, q ∈ L ∖ {[r]} -> q <> p -> view <$> tags k' !! q = view <$> tags k !! q) /\
    (forall q tq, q ∈ L -> q <> p -> tags k !! q = Some tq -> index tq = -1 ->
       exists tq', tags k' !! q = Some tq' /\ index tq' = -1).
Proof.
  intros [K Hp Hoff Ht [Hh Ha]] Hr Hr0 Htr Hfree. pose proof K as [G HL Hwf Hcr].
  destruct (merge_lookup _ _ _ _ p r t tr G Hp Ht Hr Hr0 Htr) as (Hpr & Hra & HrL & Hbs & _).
  apply andb_true_iff in Hfree as [Hix Hhr]. apply Z.leb_le in Hix.
  destruct (free_listed _ _ _ _ _ _ HL HrL Htr Hix) as (i & l1 & l2 & Hi & Hls).
  destruct (live_fit _ _ _ _ _ K Hp Ht) as (? & _ & _ & ? & ? & _). destruct (live_fit _ _ _ _ _ K HrL Htr) as (_ & _ & _ & ? & ? & _).
  unfold melt_right. rewrite (proj2 (get_tag_Done k p t) Ht). simpl. rewrite Hr.
  rewrite (remove_block_eval k ls L i l1 r l2 tr HL Hi Hls Htr). simpl.
  pose proof (lists_drop _ _ _ _ _ _ _ _ _ HL Hi Hls Htr) as HL1.
  set (m1 := drop_tag (tags k) (last l1) r (head l2) tr) in *. set (av := heads_drop (available_blocks k) i l1 (next tr)) in *.
  assert (forall q, body <$> m1 !! q = body <$> tags k !! q) as Hb1 by (intros; by apply drop_tag_body).
  pose proof (geom_body _ _ _ _ _ Hb1 G) as G1.
  assert (forall q, q ∉ ls i -> m1 !! q = tags k !! q) as Hm1.
  { intros q Hq. rewrite Hls in Hq. apply drop_tag_other; [set_solver|..].
    - intros E. symmetry in E. apply last_Some_elem_of in E. set_solver.
    - destruct l2; simpl; [done|]. intros [= ->]. set_solver. }
  assert (m1 !! p = Some t) as Hm1p by (rewrite Hm1; auto).
  assert (m1 !! r = Some (unlinked tr)) as Hm1r by (subst m1; unfold drop_tag; apply lookup_insert_eq).
  rewrite (proj2 (get_tag_Done _ r (unlinked tr))) by done. simpl.
  erewrite upd_tag_Done by exact Hm1p. simpl. rewrite (wrap_small 64) by (unfold in_range; lia).
  pose proof (geom_merge m1 L _ _ p r t (unlinked tr) G1 Hp Hm1p Hr Hr0 Hm1r) as G2.
  destruct (merge_lookup m1 _ _ _ p r t (unlinked tr) G1 Hp Hm1p Hr Hr0 Hm1r) as (_ & _ & _ & _ & _ & Hmp & Hmn & Hmo).
  assert (exists k', (k3 ← (if negb (right_split tr =? 0)
      then upd_tag (MkFrame (complete_regions k) av (<[p := merged t (unlinked tr)]> m1) (mgr k) (remaining_memory k)) (right_split tr) (fun q => set_left_split q p)
      else Done (MkFrame (complete_regions k) av (<[p := merged t (unlinked tr)]> m1) (mgr k) (remaining_memory k))); Done (p, k3)) = Done (p, k') /\
      k' = MkFrame (complete_regions k) av (merge_tags m1 p t (unlinked tr)) (mgr k) (remaining_memory k)) as (k' & E & Ek').
  { unfold merge_tags. simpl. destruct (Z.eqb_spec (right_split tr) 0) as [E|E]; simpl; [by eexists|].
    destruct (Hmn E) as (? & HnL & tn & Htn & _). unfold patch_left. simpl in *. rewrite (lookup_insert_ne _ p) by lia. rewrite Htn.
    erewrite upd_tag_Done by (simpl; rewrite lookup_insert_ne by lia; exact Htn). simpl. eexists. split; reflexivity. }
  unfold with_tags. simpl. unfold merged in E. simpl in E. rewrite E. subst k'.
  assert (forall q, q <> p -> q ∈ L -> exists tq tq', m1 !! q = Some tq /\ merge_tags m1 p t (unlinked tr) !! q = Some tq' /\
    links tq' = links tq /\ view tq' = view tq) as Hq.
  { intros q Hqp HqL. destruct (g_dom _ _ _ _ G1 q HqL) as [tq Htq]. exists tq.
    destruct (decide (right_split tr <> 0 /\ q = right_split tr)) as [[E' ->]|E'].
    - destruct (Hmn E') as (_ & _ & tn & Htn & _ & Hs). simpl in Htn, Hs. assert (tn = tq) as -> by congruence.
      exists (set_left_split tq p). done.
    - exists tq. rewrite Hmo; [done|done|]. simpl. intros ? ->. by apply E'. }
  eexists _, (upd_list ls i (l1 ++ l2)), (merged t (unlinked tr)). split; [reflexivity|].
  pose proof (l_nodup _ _ _ _ HL i Hi) as Hnd. rewrite Hls in Hnd.
  split; [|split_and!; simpl; auto].
  - assert (forall j, 0 <= j < nclasses -> p ∉ upd_list ls i (l1 ++ l2) j /\ r ∉ upd_list ls i (l1 ++ l2) j) as Hout.
    { intros j Hj. pose proof (Hoff j Hj). destruct (Z.eq_dec j i) as [->|Hji].
      - rewrite upd_list_same. rewrite Hls in *. apply NoDup_app in Hnd as (_ & Hd & [? _]%NoDup_cons). set_solver.
      - rewrite upd_list_other by done. split; [done|]. intros Hrj. apply Hji.
        eapply (lists_unique _ _ _ _ j i r HL); auto. rewrite Hls. set_solver. }
    constructor; simpl; auto.
    + constructor; simpl; [exact G2| |exact Hwf|exact Hcr].
      eapply lists_restrict; [exact HL1|set_solver| |].
      * intros j q Hj Hqj. apply elem_of_difference. rewrite elem_of_singleton. split; [by eapply l_live|].
        intros ->. by apply (Hout j Hj).
      * intros q [HqL Hqr]%elem_of_difference. destruct (decide (q = p)) as [->|Hqp]; [by rewrite Hmp, Hm1p|].
        destruct (Hq q Hqp HqL) as (tq & tq' & -> & -> & Hlk & _). simpl. by rewrite Hlk.
    + apply elem_of_difference. rewrite elem_of_singleton. split; [done|lia].
    + intros j Hj. by apply Hout.
  - intros q [HqL _]%elem_of_difference Hqp. destruct (Hq q Hqp HqL) as (tq & tq' & Htq & Htq' & _ & Hv).
    rewrite Htq'. simpl. rewrite Hv, <- (view_body _ _ q (Hb1 q)), Htq. done.
  - intros q tq HqL Hqp Htq Hixq. destruct (Hq q Hqp HqL) as (t1 & t2 & Ht1 & Ht2 & [= _ _ _ _ _ Hl6] & _).
    exists t2. split; [done|]. rewrite Hl6. rewrite Hm1 in Ht1; [congruence|].
    intros Hqi. destruct (l_chain _ _ _ _ HL i Hi) as (h & _ & Hc). rewrite <- Hls in *.
    destruct (chain_elem _ _ _ _ _ q Hc Hqi) as (_ & t3 & Ht3 & Hx & _). assert (t3 = tq) as -> by congruence. lia.
Qed.

(** Blocks in use keep their size and contents, and stay in use. *)
Definition kept (k k' : kframe) (L L' : gset Z) (p : Z) : Prop :=
  forall q tq, q ∈ L -> q <> p -> tags k !! q = Some tq -> index tq = -1 ->
    q ∈ L' /\ exists tq', tags k' !! q = Some tq' /\ index tq' = -1 /\ view tq' = view tq.

Lemma melt_right_loop_ok fuel k ls L p t :
  open_tag k ls L p t -> (stdpp.base.size L < fuel)%nat ->
  exists k' ls' L' t', melt_right_loop fuel k p = Done (p, k') /\ open_tag k' ls' L' p t' /\
    complete_regions k' = complete_regions k /\ left_split t' = left_split t /\ L' ⊆ L /\ kept k k' L L' p /\
    (forall tr, right_split t' <> 0 -> tags k' !! right_split t' = Some tr -> is_free tr = false).
Proof.
  revert k ls L t. induction fuel as [|fuel IH]; intros k ls L t Hop Hf; [lia|]. simpl.
  pose proof Hop as [K Hp Hoff Ht _]. rewrite (proj2 (get_tag_Done k p t) Ht). simpl.
  assert (Hstop : (forall tr, right_split t <> 0 -> tags k !! right_split t = Some tr -> is_free tr = false) ->
    exists k' ls' L' t', Done (p, k) = Done (p, k') /\ open_tag k' ls' L' p t' /\
    complete_regions k' = complete_regions k /\ left_split t' = left_split t /\ L' ⊆ L /\ kept k k' L L' p /\
    (forall tr, right_split t' <> 0 -> tags k' !! right_split t' = Some tr -> is_free tr = false)).
  { intros Hnf. exists k, ls, L, t. split_and!; auto. intros q tq ? ? ? ?. split; [done|]. by exists tq. }
  destruct (Z.eqb_spec (right_split t) 0) as [E|E]; [by apply Hstop|].
  destruct (g_right _ _ _ _ (k_geom _ _ _ K) p t Hp Ht E) as (HrL & _ & tr & Htr & _).
  rewrite (proj2 (get_tag_Done k _ tr) Htr). simpl.
  destruct (is_free tr) eqn:Hfree; [|apply Hstop; intros; congruence].
  destruct (melt_right_ok k ls L p t _ tr Hop eq_refl E Htr Hfree) as (k1 & ls1 & t1 & -> & Hop1 & _ & Hc1 & Hl1 & Hv1 & Hi1). simpl.
  destruct (IH k1 ls1 _ t1 Hop1) as (k2 & ls2 & L2 & t2 & -> & Hop2 & Hc2 & Hl2 & Hs2 & Hk2 & Hn2).
  { assert (stdpp.base.size (L ∖ {[right_split t]}) < stdpp.base.size L)%nat; [|lia].
    apply subset_size. set_solver. }
  exists k2, ls2, L2, t2. split_and!; auto; try congruence; [set_solver|].
  intros q tq Hq Hqp Htq Hix. destruct (Hi1 q tq Hq Hqp Htq Hix) as (tq1 & Htq1 & Hix1).
  assert (q ∈ L ∖ {[right_split t]}) as Hq1.
  { apply elem_of_difference. rewrite elem_of_singleton. split; [done|]. intros ->.
    assert (tr = tq) as -> by congruence. unfold is_free in Hfree. rewrite Hix in Hfree. done. }
  destruct (Hk2 q tq1 Hq1 Hqp Htq1 Hix1) as (? & tq2 & ? & ? & Hvw). split; [done|]. exists tq2. split_and!; auto.
  specialize (Hv1 q Hq1 Hqp). rewrite Htq1, Htq in Hv1. simpl in Hv1. congruence.
Qed.

(** ** Releasing *)
Definition caps_ok (k : kframe) : Prop := Forall (fun c => 0 <= c < region_cap) (complete_regions k).

Lemma listing_ok k ls L p t :
  open_tag k ls L p t -> caps_ok k ->
  let idx := calculate_block_index (allocated_size t) in
  exists k' ls' t', (k5 ← (if negb (is_split t) then bump_complete k idx 1 else Done k); insert_block k5 p idx) = Done k' /\
    kinv k' ls' L /\ tags k' !! p = Some t' /\ is_free t' = true /\ view t' = view t /\ right_split t' = right_split t /\
    kept k k' L L p /\ p ∈ ls' idx /\
    (forall q, body <$> tags k' !! q = body <$> tags k !! q) /\
    (forall q tq tq', tags k !! q = Some tq -> q <> p -> tags k' !! q = Some tq' -> index tq' = index tq).
Proof.
  intros [K Hp Hoff Ht [Hh Ha]] Hcap idx. pose proof K as [G HL Hwf Hcr].
  destruct (live_fit _ _ _ _ _ K Hp Ht) as (? & ? & ? & ? & ? & _).
  assert (allocated_size t = block_size t - 64) as Has by (unfold allocated_size, sizeof_block_tag; apply wrap_small; unfold in_range; lia).
  assert (0 <= idx < nclasses) as Hi by (apply calculate_block_index_range; lia).
  destruct (l_chain _ _ _ _ HL idx Hi) as (h & Hhd & Hch). destruct (l_off _ _ _ _ HL p Hp Hoff) as (t0 & Ht0 & Hix & Hpv & Hnx & Hmg).
  assert (t0 = t) as -> by congruence.
  assert (exists k5, (if negb (is_split t) then bump_complete k idx 1 else Done k) = Done k5 /\
    k5 = with_complete k (complete_regions k5) /\ Z.of_nat (length (complete_regions k5)) = nclasses) as (k5 & -> & Ek5 & Hl5).
  { destruct (is_split t); simpl; [exists k; by destruct k|].
    destruct (bump_complete_ok k idx 1 Hcr Hi) as (l & Hl & ->). eexists. split; [done|]. simpl. by rewrite Hl. }
  rewrite Ek5. simpl.
  rewrite (insert_block_eval (with_complete k (complete_regions k5)) ls L p idx idx t h); auto; [|by destruct (Z.ltb_spec idx 0); [lia|]].
  assert (p <> h) as Hph.
  { intros ->. destruct (ls idx) as [|x l] eqn:El; simpl in Hch; [lia|]. destruct Hch as [-> _]. apply (Hoff idx Hi). rewrite El. by left. }
  eexists _, _, (set_next (set_index t idx) h). split; [reflexivity|]. simpl.
  assert (forall q, body <$> push_tag (tags k) h p idx t !! q = body <$> tags k !! q) as Hb by (intros; by apply push_tag_body).
  assert (forall q tq tq', tags k !! q = Some tq -> q <> p -> push_tag (tags k) h p idx t !! q = Some tq' -> index tq' = index tq) as Hidx.
  { intros q tq tq' Hq Hqp. unfold push_tag. rewrite lookup_insert_ne by done. unfold patch_previous.
    destruct (h =? 0); [congruence|]. destruct (tags k !! h) as [th|] eqn:Eh; [|congruence].
    destruct (decide (q = h)) as [->|]; [rewrite lookup_insert_eq; intros [= <-]; simpl; congruence|].
    rewrite lookup_insert_ne by done. congruence. }
  split; [constructor; simpl; [| |exact Hwf|exact Hl5]|].
  - eapply geom_body; [|exact G]. exact Hb.
  - eapply lists_push; [exact HL|exact Hi|exact Hp|lia|exact Hoff|exact Ht|exact Hh|exact Ha|exact Hhd].
  - split; [apply lookup_insert_eq|]. split; [unfold is_free; simpl; rewrite Hh; destruct (Z.leb_spec 0 idx); [done|lia]|].
    split; [done|]. split; [done|]. split; [|split; [rewrite upd_list_same; by left|split; [exact Hb|exact Hidx]]].
    intros q tq Hq Hqp Htq Hixq. split; [done|]. pose proof (Hb q) as E. rewrite Htq in E.
    destruct (push_tag (tags k) h p idx t !! q) as [tq'|] eqn:Eq; simpl in E; [|done].
    exists tq'. split_and!; [done|rewrite (Hidx q tq tq'); auto|]. injection E as ? ? ? ? ? ?. unfold view. congruence.
Qed.

(** A tag in use is on no list. *)
Lemma in_use_unlisted k ls L p t : kinv k ls L -> tags k !! p = Some t -> index t = -1 -> forall i, 0 <= i < nclasses -> p ∉ ls i.
Proof.
  intros K Ht Hix i Hi Hpi. destruct (l_chain _ _ _ _ (k_lists _ _ _ K) i Hi) as (h & _ & Hc).
  destruct (chain_elem _ _ _ _ _ p Hc Hpi) as (_ & t1 & Ht1 & Hx & _). assert (t1 = t) as -> by congruence. lia.
Qed.
(** Giving up what a tag holds. *)
Lemma open_release k ls L p t rem :
  kinv k ls L -> p ∈ L -> tags k !! p = Some t -> index t = -1 ->
  open_tag (with_remaining (with_tags k (<[p := set_align_bytes (set_held_size t 0) 0]> (tags k))) rem) ls L p (set_align_bytes (set_held_size t 0) 0).
Proof.
  intros K Hp Ht Hix. pose proof K as [G HL Hwf Hcr]. pose proof (in_use_unlisted _ _ _ _ _ K Ht Hix) as Hoff.
  destruct (live_fit _ _ _ _ _ K Hp Ht) as (? & ? & ? & ? & ? & _). set (t1 := set_align_bytes (set_held_size t 0) 0).
  constructor; auto; [|apply lookup_insert_eq]. constructor; simpl; auto.
  - unfold top. simpl. apply geom_hold; auto; simpl; lia.
  - destruct HL as [X1 X2 X3 X4 X5]. constructor; auto.
    + intros i Hi. destruct (X2 i Hi) as (h & Hh & Hc). exists h. split; [done|].
      eapply chain_links; [|exact Hc]. intros r Hr. rewrite lookup_insert_ne; [done|]. intros <-. by apply (Hoff i Hi).
    + intros r Hr Hro. destruct (X5 r Hr Hro) as (tr & Htr & Hrest). destruct (decide (r = p)) as [->|].
      * exists t1. rewrite lookup_insert_eq. assert (tr = t) as -> by congruence. done.
      * exists tr. by rewrite lookup_insert_ne.
Qed.

(** C2: Releasing a block in use whose left neighbour is in use (or absent), while
    no size class has reached its cap of cached regions: the heap invariant is
    preserved, the block is free, on the list of its size class and merged with
    every free block to its right, and every other block in use keeps its size
    and contents. *)
Theorem release_block_safe translate k ls L p t :
  kinv k ls L -> caps_ok k -> p ∈ L -> tags k !! p = Some t -> index t = -1 ->
  (forall tl, left_split t <> 0 -> tags k !! left_split t = Some tl -> is_free tl = false) ->
  exists k' ls' L' t', release_block translate k p = Done k' /\ kinv k' ls' L' /\ L' ⊆ L /\ p ∈ L' /\
    tags k' !! p = Some t' /\ is_free t' = true /\ p ∈ ls' (calculate_block_index (allocated_size t')) /\
    (forall tr, right_split t' <> 0 -> tags k' !! right_split t' = Some tr -> is_free tr = false) /\
    kept k k' L L' p.
Proof.
  intros K Hcap Hp Ht Hix Hleft. pose proof K as [G HL Hwf Hcr].
  unfold release_block. rewrite (proj2 (get_tag_Done k p t) Ht). remember (S (stdpp.base.size (tags k))) as fuel eqn:Hfuel. simpl.
  assert (is_free t = false) as -> by (unfold is_free; by rewrite Hix).
  rewrite (upd_tag_Done k p _ t Ht). simpl. set (t1 := set_align_bytes (set_held_size t 0) 0).
  set (k2 := with_remaining _ _). destruct (live_fit _ _ _ _ _ K Hp Ht) as (? & ? & ? & ? & ? & _).
  assert (forall r, r <> p -> tags k2 !! r = tags k !! r) as Hk2 by (intros; by apply lookup_insert_ne).
  assert (open_tag k2 ls L p t1) as Hop by by apply open_release.
  assert (melt_left_loop fuel k2 p = Done (p, k2)) as ->.
  { rewrite Hfuel. simpl. rewrite (proj2 (get_tag_Done k2 p t1) (op_tag _ _ _ _ _ Hop)). simpl.
    destruct (Z.eqb_spec (left_split t) 0) as [|E]; [done|].
    destruct (g_left _ _ _ _ G p t Hp Ht E) as (_ & tl & Htl & Hrl).
    assert (left_split t <> p) as Hne.
    { intros Ep. rewrite Ep in Htl. assert (tl = t) as -> by congruence.
      destruct (g_right _ _ _ _ G p t Hp Ht) as (_ & ? & _); [lia|]. lia. }
    unfold get_tag. simpl. rewrite lookup_insert_ne by done. rewrite Htl. simpl. by rewrite (Hleft tl E Htl). }
  simpl. destruct (melt_right_loop_ok fuel k2 ls L p t1 Hop) as (k3 & ls3 & L3 & t3 & -> & Hop3 & Hc3 & _ & Hs3 & Hk3 & Hn3).
  { subst fuel. apply Nat.lt_succ_r. rewrite <- (size_dom (D := gset Z)). apply subseteq_size.
    intros q Hq. destruct (g_dom _ _ _ _ G q Hq) as [tq Htq]. apply elem_of_dom. eauto. }
  simpl. rewrite (proj2 (get_tag_Done k3 p t3) (op_tag _ _ _ _ _ Hop3)). simpl.
  assert (caps_ok k3) as Hcap3 by (unfold caps_ok; by rewrite Hc3).
  destruct (listing_ok k3 ls3 L3 p t3 Hop3 Hcap3) as (k4 & ls4 & t4 & E4 & K4 & Ht4 & Hf4 & [= Hv1 Hv2 Hv3] & Hr4 & Hk4 & Hin4 & Hb4 & Hi4).
  destruct (live_fit _ _ _ _ _ (op_inv _ _ _ _ _ Hop3) (op_live _ _ _ _ _ Hop3) (op_tag _ _ _ _ _ Hop3)) as (? & ? & ? & ? & ? & _).
  set (idx := calculate_block_index (allocated_size t3)) in *.
  assert (0 <= idx < nclasses) as Hi.
  { apply calculate_block_index_range. unfold allocated_size, sizeof_block_tag. rewrite wrap_small; unfold in_range; lia. }
  assert (exists c, array_get (complete_regions k3) idx = Done c /\ (c <? region_cap) = true) as (c & -> & Hc).
  { destruct (array_get_is_Done (complete_regions k3) idx) as [c Ec]; [rewrite (k_complete _ _ _ (op_inv _ _ _ _ _ Hop3)); done|].
    exists c. split; [done|]. apply array_get_Done in Ec as [_ Ec]. apply Z.ltb_lt. eapply Forall_lookup_1 in Hcap3; [|exact Ec]. lia. }
  simpl. rewrite Hc, orb_true_r, E4.
  exists k4, ls4, L3, t4. split_and!; auto.
  - apply (op_live _ _ _ _ _ Hop3).
  - assert (allocated_size t4 = allocated_size t3) as -> by (unfold allocated_size; by rewrite Hv1). done.
  - rewrite Hr4. intros tr Hne Htr. specialize (Hb4 (right_split t3)). rewrite Htr in Hb4.
    destruct (g_right _ _ _ _ (k_geom _ _ _ (op_inv _ _ _ _ _ Hop3)) p t3 (op_live _ _ _ _ _ Hop3) (op_tag _ _ _ _ _ Hop3) Hne) as (_ & Hra & t5 & Ht5 & _).
    rewrite Ht5 in Hb4. simpl in Hb4. injection Hb4 as _ _ Eh _ _ _. pose proof (Hn3 t5 Hne Ht5) as Hf5.
    unfold is_free in *. rewrite Eh. rewrite (Hi4 _ t5 tr Ht5); [done|lia|done].
  - intros q tq Hq Hqp Htq Hixq. rewrite <- (Hk2 q Hqp) in Htq. destruct (Hk3 q tq Hq Hqp Htq Hixq) as (Hq3 & tq3 & Htq3 & Hix3 & Hvw3).
    destruct (Hk4 q tq3 Hq3 Hqp Htq3 Hix3) as (_ & tq4 & ? & ? & Hvw4). split; [done|]. exists tq4. split_and!; auto. congruence.
Qed.

(** ** Finding the tag of a pointer *)
Lemma find_magic_ok peek k q n fuel i align :
  0 < q -> q + Z.of_nat n < 2 ^ 64 -> magic_at peek k q = block_magic -> (n <= fuel)%nat ->
  (forall x, q < x <= q + Z.of_nat n -> magic_at peek k x <> block_magic) ->
  align = 0 \/ i + Z.of_nat n <= align ->
  find_magic peek fuel k (q + Z.of_nat n) i align = Done q.
Proof.
  intros Hq. revert fuel i. induction n as [|n IH]; intros fuel i Hb Hm Hf Hno Ha.
  - rewrite Z.add_0_r. destruct fuel; simpl; rewrite Hm, Z.eqb_refl, andb_false_r; done.
  - destruct fuel as [|fuel]; [lia|]. simpl.
    destruct (Z.eqb_spec (q + Z.of_nat (S n)) 0); [lia|].
    destruct (Z.eqb_spec (magic_at peek k (q + Z.of_nat (S n))) block_magic) as [E|_]; [exfalso; apply (Hno (q + Z.of_nat (S n))); [lia|done]|].
    assert ((align =? 0) || (i <? align) = true) as -> by (destruct Ha; case_cmp; simpl; done || lia). simpl.
    replace (u64 (q + Z.of_nat (S n) - 1)) with (q + Z.of_nat n) by (rewrite wrap_small; unfold in_range; lia).
    apply IH; auto; try lia. intros x Hx. apply Hno. lia.
Qed.

(** [deallocate] finds the tag of every pointer the heap has handed out, as long
    as the alignment gap in front of it does not contain the magic number: it
    releases the block that holds the pointer, and its search of the gap ends. *)
Theorem deallocate_finds_tag peek translate fuel k ls L q t align :
  kinv k ls L -> q ∈ L -> tags k !! q = Some t -> magic t = block_magic ->
  align = 0 \/ align_bytes t <= align -> align_bytes t <= Z.of_nat fuel ->
  (forall x, q < x <= q + align_bytes t -> magic_at peek k x <> block_magic) ->
  deallocate peek translate fuel k (actual_start q t) align = release_block translate k q.
Proof.
  intros K Hq Ht Hm Ha Hf Hno. destruct (live_fit _ _ _ _ _ K Hq Ht) as (? & ? & ? & ? & ? & _ & ->).
  assert (magic_at peek k q = block_magic) as Hmq by (unfold magic_at; by rewrite Ht).
  unfold deallocate, find_tag. destruct (Z.eqb_spec (q + 64 + align_bytes t) 0); [lia|].
  unfold bt_offset, sizeof_block_tag. rewrite (wrap_small 64) by (unfold in_range; lia).
  replace (q + 64 + align_bytes t - 64) with (q + Z.of_nat (Z.to_nat (align_bytes t))) by lia.
  rewrite find_magic_ok; auto; try lia; [|intros x Hx; apply Hno; lia]. simpl. rewrite Hmq, Z.eqb_refl, andb_false_r. simpl.
  destruct (Z.eqb_spec q 0); [lia|]. simpl. destruct (Z.eqb_spec (if magic_at peek k q =? block_magic then q else 0) 0) as [E|_].
  - rewrite Hmq, Z.eqb_refl in E. lia.
  - by rewrite Hmq, Z.eqb_refl.
Qed.

(** ** Witnesses *)
Definition one_block : kframe := match allocate boot_frame 1000 4096 with Done (_, k) => k | _ => boot_frame end.
Lemma release_block_safe_witness :
  exists p k' ls' L' t', release_block id one_block p = Done k' /\ kinv k' ls' L' /\ p ∈ L' /\
    tags k' !! p = Some t' /\ is_free t' = true /\ p ∈ ls' (calculate_block_index (allocated_size t')).
Proof.
  destruct (allocate_cases boot_frame (fun _ => []) ∅ 1000 4096 boot_inv ltac:(lia) ltac:(lia))
    as [(ptr & q & t & k1 & E & Ht & _ & Hq & Hal)|[E _]]; [|vm_compute in E; discriminate E].
  assert (one_block = k1) as Hk by (unfold one_block; by rewrite E).
  destruct (al_inv _ _ _ _ _ _ Hal) as (ls & L & K & _ & HqL). destruct (al_tag _ _ _ _ _ _ Hal) as (t0 & Ht0 & Hix & _).
  assert (t0 = t) as -> by congruence.
  assert (map_Forall (fun _ u => index u = -1 -> left_split u = 0) (tags one_block)) as Hl
    by (apply (bool_decide_unpack _); vm_compute; exact I).
  assert (complete_regions one_block = replicate 24 0) as Hc by (vm_compute; reflexivity).
  rewrite Hk in Hl, Hc |- *. clear Hk E.
  destruct (release_block_safe id k1 ls L q t K) as (k' & ls' & L' & t' & H1 & H2 & _ & H3 & H4 & H5 & H6 & _); [|done|done|done| |].
  - unfold caps_ok. rewrite Hc. by apply Forall_replicate.
  - intros tl Hne. by rewrite (Hl q t Ht Hix) in Hne.
  - exists q, k', ls', L', t'. split_and!; done.
Defined.

Lemma deallocate_finds_tag_witness :
  exists q t, tags one_block !! q = Some t /\
    deallocate (fun _ => 0) id 4096 one_block (actual_start q t) 4096 = release_block id one_block q.
Proof.
  destruct (allocate_cases boot_frame (fun _ => []) ∅ 1000 4096 boot_inv ltac:(lia) ltac:(lia))
    as [(ptr & q & t & k1 & E & Ht & _ & Hq & Hal)|[E _]]; [|vm_compute in E; discriminate E].
  assert (one_block = k1) as Hk by (unfold one_block; by rewrite E).
  destruct (al_inv _ _ _ _ _ _ Hal) as (ls & L & K & _ & HqL).
  assert (map_Forall (fun _ u => align_bytes u = 0 /\ magic u = block_magic) (tags one_block)) as Hl
    by (apply (bool_decide_unpack _); vm_compute; exact I).
  rewrite Hk in Hl |- *. clear Hk E. destruct (Hl q t Ht) as [Ha Hm].
  exists q, t. split; [done|]. apply (deallocate_finds_tag _ _ 4096 k1 ls L q t 4096 K HqL Ht Hm); [right; lia|lia|lia].
Defined.

(** ** Merging to the left *)

(** Two blocks of the same region, freed in address order. *)
Definition left_merge_run : outcome (Z * kframe) :=
  '(a, k1) ← allocate boot_frame 3000 0;
  '(b, k2) ← allocate k1 9000 0;
  k3 ← release_block id k2 (a - bt_offset);
  k4 ← release_block id k3 (b - bt_offset);
  Done (a - bt_offset, k4).

Lemma head_listed m heads ls L i p :
  lists_ok m heads ls L -> 0 <= i < nclasses -> array_get heads i = Done p -> p <> 0 -> p ∈ ls i.
Proof.
  intros HL Hi Hh Hp. destruct (l_chain _ _ _ _ HL i Hi) as (h & Hh' & Hc). assert (h = p) as -> by congruence.
  destruct (ls i); simpl in Hc; [done|]. destruct Hc as [-> _]. by left.
Qed.

(** Releasing a block whose left neighbour is free merges it into the neighbour
    without taking the neighbour off its list: after two allocations from one
    region and their release in address order, the merged tag heads the lists of
    size classes 4 and 6, so the free lists are not disjoint and no heap
    invariant of the form [kinv] holds any more. *)
Theorem left_merge_breaks_lists :
  exists p k, left_merge_run = Done (p, k) /\
    array_get (available_blocks k) 4 = Done p /\ array_get (available_blocks k) 6 = Done p /\
    forall ls L, ~ kinv k ls L.
Proof.
  destruct left_merge_run as [[p k]| |] eqn:E; [|vm_compute in E; discriminate E..].
  exists p, k. vm_compute in E. injection E as <- <-.
  split; [reflexivity|]. split; [reflexivity|]. split; [reflexivity|].
  intros ls L [_ HL _ _]. assert (4 = 6) as Habs; [|discriminate Habs].
  eapply (lists_unique _ _ _ _ _ _ 4194240 HL); [split; done|split; done|..]; eapply head_listed; eauto; split; done.
Qed.

End KFrameFree.
