(* ===== verification/QueueSpec.v ===== *)
(** What a first-in first-out queue promises its clients.

    [QueueOps] are the operations the kernel's code calls on a queue; [QueueLaws]
    relates them to the list of the queue's contents.  Clients are proved against
    the laws; the circular queue and plain lists are instances. *)
From S2P Require Import Prelude.

Class QueueOps (Q A : Type) : Type := {
  qpush : Q -> A -> outcome Q;
  qpop : Q -> outcome (A * Q);
  qpeek : Q -> outcome A;
  qempty : Q -> bool;
  qlen : Q -> nat;
  qflush : Q -> outcome Q;
}.

Class QueueLaws (Q A : Type) {ops : QueueOps Q A} : Type := {
  qok : Q -> Prop;
  qcontents : Q -> list A;
  qempty_law q : qok q -> qempty q = match qcontents q with [] => true | _ => false end;
  qlen_law q : qok q -> qlen q = length (qcontents q);
  qpush_law q x : qok q -> exists q', qpush q x = Done q' /\ qok q' /\ qcontents q' = qcontents q ++ [x];
  qpop_law q x l : qok q -> qcontents q = x :: l -> exists q', qpop q = Done (x, q') /\ qok q' /\ qcontents q' = l;
  qpeek_law q x l : qok q -> qcontents q = x :: l -> qpeek q = Done x;
  qflush_law q : qok q -> exists q', qflush q = Done q' /\ qok q' /\ qcontents q' = [];
}.

(** Lists as queues. *)
#[export] Instance list_queue_ops A : QueueOps (list A) A := {
  qpush q x := Done (q ++ [x]);
  qpop q := match q with x :: q' => Done (x, q') | [] => Undef end;
  qpeek q := match q with x :: _ => Done x | [] => Undef end;
  qempty q := match q with [] => true | _ => false end;
  qlen := length;
  qflush _ := Done [];
}.
#[export] Instance list_queue_laws A : QueueLaws (list A) A.
Proof.
  refine {| qok := fun _ => True; qcontents := fun q => q |}; simpl; eauto.
  - intros q x l _ ->. eauto.
  - intros q x l _ ->. done.
Defined.
