(* ===== verification/CircQueue.v ===== *)
(** The circular queue of common/include/kernel/util/circular_queue.hpp, for
    trivially destructible elements (the bytes and commands of the PS/2 driver).

    A pointer into the buffer is an offset from [__base].  [junk] is what fresh
    storage happens to contain.  The buffer is doubled when it is full; an
    allocation of 2^63 elements does not happen, so offsets are kept unbounded.
    The queue is proved to refine a list: see [step_refines]. *)
From S2P Require Import Prelude QueueSpec.

Module CircQueue.

Section Model.
Context {A : Type} (junk : A).

Record buffer := MkBuf {
  live : bool;
  data : list A;
  curr : nat;
  back : nat;
}.
Definition empty_buffer : buffer := MkBuf false [] 0 0.
Definition create (n : nat) : buffer := MkBuf true (replicate n junk) 0 0.
Definition rewind (b : buffer) : buffer := MkBuf (live b) (data b) 0 0.
Definition capacity (b : buffer) : nat := length (data b).

Definition get_at (b : buffer) (p : nat) : outcome A := or_undef (data b !! p).
Definition set_at (b : buffer) (p : nat) (v : A) : outcome buffer :=
  _ ← get_at b p; Done (MkBuf (live b) (<[p := v]> (data b)) (curr b) (back b)).

Definition pos_of (b : buffer) (p : nat) : nat :=
  if Nat.eqb p (curr b) then 0 else (capacity b + p - curr b) mod capacity b.
Definition len (b : buffer) : nat := pos_of b (back b).
Definition is_empty (b : buffer) : bool := Nat.eqb (len b) 0.
Definition rem (b : buffer) : nat := if Nat.ltb (back b) (curr b) then curr b - back b else back b - curr b.
Definition pclamp (p lo hi : Z) : Z := if p <? lo then lo else if hi <? p then hi else p.

Definition peek (b : buffer) : outcome A := get_at b (curr b).
Definition peek_back (b : buffer) : outcome A :=
  let p := pclamp (Z.of_nat (back b) - 1) (Z.of_nat (curr b)) (Z.of_nat (back b)) in
  array_get (data b) p.
(** [__flush] rewinds and constructs a default element at the front. *)
Definition flush (dflt : A) (b : buffer) : outcome buffer :=
  let r := rewind b in set_at r (curr r) dflt.

Definition adv_ptr1 (b : buffer) (p : nat) : nat := if Nat.ltb (S p) (capacity b) then S p else 0.
Definition adv_ptr (b : buffer) (p n : nat) : outcome nat :=
  if Nat.eqb (capacity b) 0 then Undef
  else Done (Z.to_nat (pclamp (Z.of_nat ((p + n) mod capacity b)) 0 (Z.of_nat (capacity b)))).
Definition get_ptr (b : buffer) (n : nat) : outcome nat := adv_ptr b (curr b) n.

Definition adv_pop1 (b : buffer) : buffer :=
  if negb (Nat.eqb (capacity b) 0) && negb (Nat.eqb (curr b) (back b))
  then MkBuf (live b) (data b) (adv_ptr1 b (curr b)) (back b) else b.
Definition adv_pop (b : buffer) (n : nat) : outcome buffer :=
  if Nat.eqb n 1 then Done (adv_pop1 b)
  else if Nat.eqb (capacity b) 0 then Done b
  else
    let l := len b in
    let n' := if Nat.ltb l n then l else n in
    c ← adv_ptr b (curr b) n'; Done (MkBuf (live b) (data b) c (back b)).
Definition pop (b : buffer) : outcome (A * buffer) :=
  v ← get_at b (curr b); Done (v, adv_pop1 b).

Definition expand_splice (b : buffer) : buffer :=
  let s := capacity b in
  let l := (back b + 1)%nat in
  let c := (capacity b - curr b)%nat in
  let tar := (s * 2)%nat in
  MkBuf (live b) (take c (drop (curr b) (data b)) ++ take l (data b) ++ replicate (tar - (c + l)) junk) 0 (c + l).
Definition expand_direct (b : buffer) : buffer :=
  let s := capacity b in
  MkBuf (live b) (data b ++ replicate (s * 2 - s) junk) 0 s.
Definition adv_push (b : buffer) : outcome buffer :=
  let target := (back b + 1)%nat in
  if Nat.eqb target (capacity b) && Nat.eqb (curr b) 0 then Done (expand_direct b)
  else if Nat.eqb target (curr b) then Done (expand_splice b)
  else if Nat.eqb (capacity b) 0 then Undef
  else Done (MkBuf (live b) (data b) (curr b) (target mod capacity b)).

Definition create_if_empty (b : buffer) (n : nat) : buffer := if live b then b else create n.
Definition push (b : buffer) (v : A) : outcome buffer :=
  let b0 := create_if_empty b 4 in
  b1 ← set_at b0 (back b0) v; adv_push b1.
(** [emplace] also returns the position of the new element. *)
Definition emplace (b : buffer) (v : A) : outcome (nat * buffer) :=
  let b0 := create_if_empty b 4 in
  b1 ← set_at b0 (back b0) v; b2 ← adv_push b1; Done (back b0, b2).

(** Copying [n] elements from position [p] into a destination of [room]
    elements of which [used] are filled. *)
Definition copy_out (b : buffer) (p : nat) (n : Z) (room : nat) (used : list A) : outcome (list A) :=
  if (n <=? Z.of_nat (capacity b) - Z.of_nat p) && (Z.of_nat (length used) + n <=? Z.of_nat room)
  then Done (used ++ take (Z.to_nat n) (drop p (data b))) else Undef.
(** [__sink] into a contiguous destination of [room] elements. *)
Definition sink (b : buffer) (room : nat) : outcome (list A * buffer) :=
  let n := Nat.min room (len b) in
  out ← (if Nat.ltb (back b) (curr b) then
           let back_part := (capacity b - curr b)%nat in
           let front_part := u64 (Z.of_nat n - Z.of_nat back_part) in
           o1 ← copy_out b (curr b) (Z.of_nat back_part) room [];
           copy_out b 0 front_part room o1
         else copy_out b (curr b) (Z.of_nat n) room []);
  b' ← adv_pop b n; Done (out, b').

(** [clear] gives the storage back and then zeroes it. *)
Definition clear (b : buffer) : outcome buffer := if live b then Undef else Done (rewind b).
(** Copy assignment allocates storage of the same capacity and copies the
    positions. *)
Definition copy_assign (that : buffer) : buffer :=
  if live that then MkBuf true (replicate (capacity that) junk) (curr that) (back that) else empty_buffer.
Definition copy_construct (that : buffer) : buffer := MkBuf true (data that) (curr that) (back that).

(** Iterators are positions. *)
Definition it_next (b : buffer) (pos : nat) : nat :=
  if negb (Nat.eqb (capacity b) 0) && negb (Nat.eqb pos (back b))
  then (if Nat.ltb (pos + 1) (capacity b) then (pos + 1)%nat else 0%nat) else back b.
Fixpoint it_collect (fuel : nat) (b : buffer) (pos : nat) : outcome (list A) :=
  if Nat.eqb pos (back b) then Done []
  else match fuel with
  | O => NoFuel
  | S f => v ← get_at b pos; r ← it_collect f b (it_next b pos); Done (v :: r)
  end.

(** ** Specification *)
Definition contents (b : buffer) : list A :=
  if Nat.leb (curr b) (back b) then take (back b - curr b) (drop (curr b) (data b))
  else drop (curr b) (data b) ++ take (back b) (data b).
Definition cwf (b : buffer) : Prop :=
  if live b then (curr b < capacity b)%nat /\ (back b < capacity b)%nat else data b = [] /\ curr b = 0%nat /\ back b = 0%nat.

Ltac ncmp :=
  repeat match goal with
  | |- context [Nat.eqb ?a ?b] => destruct (Nat.eqb_spec a b)
  | |- context [Nat.ltb ?a ?b] => destruct (Nat.ltb_spec a b)
  | |- context [Nat.leb ?a ?b] => destruct (Nat.leb_spec a b)
  end.

Lemma get_at_lt b p : (p < capacity b)%nat -> exists v, data b !! p = Some v /\ get_at b p = Done v.
Proof.
  intros Hp. destruct (lookup_lt_is_Some_2 (data b) p Hp) as [v Hv]. exists v. unfold get_at. by rewrite Hv.
Qed.
Lemma len_contents b : cwf b -> len b = length (contents b).
Proof.
  unfold cwf, len, pos_of, contents, capacity. destruct (live b).
  - intros [Hc Hb]. ncmp; rewrite ?length_app, ?length_take, ?length_drop; try lia.
    + replace (length (data b) + back b - curr b)%nat with ((back b - curr b) + 1 * length (data b))%nat by lia.
      rewrite Nat.Div0.mod_add, Nat.mod_small; lia.
    + rewrite Nat.mod_small; lia.
  - intros (-> & -> & ->). done.
Qed.
Lemma nonempty_pos b v l : cwf b -> contents b = v :: l -> live b = true /\ curr b <> back b.
Proof.
  unfold cwf, contents. destruct (live b); [|intros (-> & -> & ->); done].
  intros [Hc Hb] E. split; [done|]. intros Hcb. rewrite Hcb, Nat.leb_refl, Nat.sub_diag in E. done.
Qed.

(** Popping removes the front element. *)
Lemma contents_front b v l :
  cwf b -> contents b = v :: l ->
  data b !! curr b = Some v /\ cwf (adv_pop1 b) /\ contents (adv_pop1 b) = l.
Proof.
  intros Hwf E. destruct (nonempty_pos b v l Hwf E) as [Hl Hne].
  unfold cwf in *. rewrite Hl in Hwf. destruct Hwf as [Hc Hb]. unfold adv_pop1, adv_ptr1.
  destruct (Nat.eqb_spec (capacity b) 0); [lia|]. destruct (Nat.eqb_spec (curr b) (back b)); [done|]. simpl. rewrite Hl.
  unfold contents in *. unfold capacity in *. simpl in *.
  destruct (lookup_lt_is_Some_2 (data b) (curr b)) as [w Hw]; [lia|]. rewrite Hw.
  rewrite (drop_S _ _ _ Hw) in E. destruct (Nat.leb_spec (curr b) (back b)).
  - assert (exists m, back b - curr b = S m)%nat as [m Hm] by (exists (back b - curr b - 1)%nat; lia).
    rewrite Hm in E. simpl in E. injection E as -> E. destruct (Nat.ltb_spec (S (curr b)) (length (data b))); [|lia].
    split; [done|]. split; [lia|]. destruct (Nat.leb_spec (S (curr b)) (back b)); [|lia].
    by replace (back b - S (curr b))%nat with m by lia.
  - simpl in E. injection E as -> E. split; [done|]. destruct (Nat.ltb_spec (S (curr b)) (length (data b))).
    + split; [lia|]. destruct (Nat.leb_spec (S (curr b)) (back b)); [lia|done].
    + split; [lia|]. simpl. rewrite Nat.sub_0_r. rewrite drop_ge in E by lia. done.
Qed.

Lemma pop_ok b v l :
  cwf b -> contents b = v :: l -> exists b', pop b = Done (v, b') /\ peek b = Done v /\ cwf b' /\ contents b' = l.
Proof.
  intros Hwf E. destruct (contents_front b v l Hwf E) as (Hd & Hw & Hc). exists (adv_pop1 b).
  unfold pop, peek, get_at. rewrite Hd. done.
Qed.

Lemma empty_pos b : cwf b -> contents b = [] -> curr b = back b.
Proof.
  intros Hwf E. destruct (Nat.eq_dec (curr b) (back b)) as [|Hne]; [done|]. exfalso.
  assert (length (contents b) = 0)%nat as H0 by (by rewrite E). rewrite <- len_contents in H0 by done.
  unfold len, pos_of in H0. unfold cwf in Hwf. destruct (Nat.eqb_spec (back b) (curr b)); [lia|].
  destruct (live b); [|lia]. destruct Hwf. destruct (Nat.le_gt_cases (curr b) (back b)).
  - replace (capacity b + back b - curr b)%nat with ((back b - curr b) + 1 * capacity b)%nat in H0 by lia.
    rewrite Nat.Div0.mod_add, Nat.mod_small in H0; lia.
  - rewrite Nat.mod_small in H0; lia.
Qed.
Lemma pop_empty_keeps b : cwf b -> contents b = [] -> adv_pop1 b = b.
Proof. intros Hwf E. unfold adv_pop1. by rewrite (empty_pos b Hwf E), Nat.eqb_refl, andb_false_r. Qed.

(** Pushing appends at the back, whatever the expansion. *)
Lemma take_insert_last (l : list A) n v : (n < length l)%nat -> take (S n) (<[n := v]> l) = take n l ++ [v].
Proof.
  intros Hn. rewrite (take_S_r _ n v) by (apply list_lookup_insert_eq; lia). by rewrite take_insert_ge.
Qed.
Lemma push_ok b v :
  cwf b -> exists b', push b v = Done b' /\ cwf b' /\ live b' = true /\ contents b' = contents b ++ [v].
Proof.
  intros Hwf. unfold push.
  assert (exists b0, create_if_empty b 4 = b0 /\ live b0 = true /\ (curr b0 < capacity b0)%nat /\ (back b0 < capacity b0)%nat /\ contents b0 = contents b)
    as (b0 & -> & Hl & Hc & Hb & Hcont).
  { unfold create_if_empty, cwf in *. destruct (live b) eqn:E.
    - exists b. destruct Hwf. done.
    - exists (create 4). destruct Hwf as (Hd & Hcu & Hba). unfold contents, capacity, create. rewrite Hd, Hcu, Hba. simpl. split_and!; done || lia. }
  rewrite <- Hcont. clear Hcont Hwf b. cbv zeta. unfold set_at.
  destruct (get_at_lt b0 (back b0) Hb) as (w & Hw & ->). simpl. unfold adv_push. unfold capacity in *. simpl. rewrite length_insert.
  destruct (Nat.eqb_spec (back b0 + 1) (length (data b0))) as [Ht|Ht]; [destruct (Nat.eqb_spec (curr b0) 0) as [Hc0|Hc0]|]; simpl.
  - eexists. split; [done|]. unfold expand_direct, cwf, contents, capacity. simpl. rewrite Hl, Hc0, length_insert.
    rewrite length_app, length_replicate, length_insert. split; [lia|]. split; [done|]. simpl.
    rewrite !Nat.sub_0_r, drop_0, take_app_length' by (rewrite length_insert; lia).
    rewrite drop_0, <- take_insert_last, take_ge by (rewrite ?length_insert; lia). done.
  - destruct (Nat.eqb_spec (back b0 + 1) (curr b0)); [lia|]. destruct (Nat.eqb_spec (length (data b0)) 0); [lia|].
    eexists. split; [done|]. rewrite Ht, Nat.Div0.mod_same. unfold cwf, contents, capacity. simpl. rewrite Hl, length_insert.
    split; [lia|]. split; [done|]. destruct (Nat.leb_spec (curr b0) 0); [lia|]. destruct (Nat.leb_spec (curr b0) (back b0)); [|lia].
    rewrite app_nil_r, <- (take_ge (<[back b0 := v]> (data b0)) (S (back b0))) by (rewrite length_insert; lia).
    rewrite take_insert_last by lia. rewrite drop_app_le by (rewrite length_take; lia). f_equal. by rewrite skipn_firstn_comm.
  - destruct (Nat.eqb_spec (back b0 + 1) (curr b0)) as [Hs|Hs].
    + eexists. split; [done|]. unfold expand_splice, cwf, contents, capacity. simpl. rewrite Hl, length_insert.
      rewrite !length_app, length_replicate, !length_take, length_drop, length_insert.
      split; [lia|]. split; [done|]. destruct (Nat.leb_spec (curr b0) (back b0)); [lia|].
      rewrite Nat.sub_0_r, app_assoc, drop_0, take_app_length'
        by (rewrite length_app, !length_take, length_drop, length_insert; lia).
      rewrite Nat.add_1_r, take_insert_last by lia.
      rewrite (take_ge (drop _ _)) by (rewrite length_drop, length_insert; lia).
      rewrite drop_insert_lt by lia. by rewrite app_assoc.
    + destruct (Nat.eqb_spec (length (data b0)) 0); [lia|]. eexists. split; [done|].
      rewrite Nat.mod_small, Nat.add_1_r by lia. unfold cwf, contents, capacity. simpl. rewrite Hl, length_insert. split; [lia|]. split; [done|].
      destruct (Nat.leb_spec (curr b0) (back b0)).
      * destruct (Nat.leb_spec (curr b0) (S (back b0))); [|lia].
        rewrite Nat.sub_succ_l by lia. rewrite drop_insert_ge by lia.
        rewrite take_insert_last by (rewrite length_drop; lia). done.
      * destruct (Nat.leb_spec (curr b0) (S (back b0))); [lia|].
        rewrite take_insert_last, drop_insert_lt by lia. by rewrite app_assoc.
Qed.

Lemma flush_ok dflt b :
  cwf b -> live b = true -> exists b', flush dflt b = Done b' /\ cwf b' /\ live b' = true /\ contents b' = [].
Proof.
  unfold cwf. intros Hwf Hl. rewrite Hl in Hwf. destruct Hwf. unfold flush, set_at.
  destruct (get_at_lt (rewind b) (curr (rewind b))) as (v & _ & ->); [simpl; unfold capacity in *; simpl; lia|].
  eexists. split; [done|]. unfold capacity in *. simpl. rewrite Hl, length_insert. split_and!; done || lia.
Qed.

(** Dropping several elements at once. *)
Lemma adv_pop_ok b n :
  cwf b -> exists b', adv_pop b n = Done b' /\ cwf b' /\ live b' = live b /\ contents b' = drop n (contents b).
Proof.
  intros Hwf. pose proof (len_contents b Hwf) as Hlen. unfold adv_pop. destruct (Nat.eqb_spec n 1) as [->|Hn].
  { exists (adv_pop1 b). split; [done|]. split; [|split].
    - destruct (contents b) as [|v l] eqn:E; [by rewrite pop_empty_keeps|]. by apply (contents_front b v l).
    - unfold adv_pop1. by case_match.
    - destruct (contents b) as [|v l] eqn:E; [by rewrite pop_empty_keeps, E|]. by apply (contents_front b v l). }
  unfold cwf in Hwf. destruct (Nat.eqb_spec (capacity b) 0) as [Hcap|Hcap].
  { exists b. destruct (live b) eqn:El; [lia|]. destruct Hwf as (Hd & Hc & Hb). split; [done|]. unfold cwf. rewrite ?El. split; [done|].
    split; [done|]. unfold contents. rewrite Hd, Hc, Hb. simpl. by rewrite drop_nil. }
  destruct (live b) eqn:El; [|destruct Hwf as (Hd & _); unfold capacity in Hcap; rewrite Hd in Hcap; done].
  destruct Hwf as [Hc Hb]. unfold adv_ptr. destruct (Nat.eqb_spec (capacity b) 0); [done|]. simpl.
  set (m := if Nat.ltb (len b) n then len b else n). assert (m <= len b)%nat as Hm by (unfold m; ncmp; lia).
  assert (drop n (contents b) = drop m (contents b)) as ->.
  { unfold m. destruct (Nat.ltb_spec (len b) n); [|done]. rewrite !drop_ge by lia. done. }
  pose proof (Nat.mod_upper_bound (curr b + m) (capacity b) Hcap) as Hub.
  replace (pclamp (Z.of_nat ((curr b + m) mod capacity b)) 0 (Z.of_nat (capacity b)))
    with (Z.of_nat ((curr b + m) mod capacity b)) by (unfold pclamp; case_cmp; lia).
  rewrite Nat2Z.id. eexists. split; [done|]. unfold cwf, capacity in *. simpl. rewrite ?El. split; [lia|]. split; [done|].
  unfold contents in *. simpl. rewrite Hlen in Hm. destruct (Nat.leb_spec (curr b) (back b)).
  - rewrite length_take, length_drop in Hm. rewrite Nat.mod_small by lia.
    destruct (Nat.leb_spec (curr b + m) (back b)); [|lia].
    rewrite skipn_firstn_comm, drop_drop. f_equal. lia.
  - rewrite length_app, length_take, length_drop in Hm. destruct (Nat.ltb_spec (curr b + m) (length (data b))) as [Hlt|Hge].
    + rewrite Nat.mod_small by lia. destruct (Nat.leb_spec (curr b + m) (back b)); [lia|].
      rewrite drop_app_le by (rewrite length_drop; lia). by rewrite drop_drop.
    + replace (curr b + m)%nat with ((curr b + m - length (data b)) + 1 * length (data b))%nat by lia.
      rewrite Nat.Div0.mod_add, Nat.mod_small by lia.
      destruct (Nat.leb_spec (curr b + m - length (data b)) (back b)); [|lia].
      rewrite drop_app_ge by (rewrite length_drop; lia). rewrite length_drop, skipn_firstn_comm.
      replace (m - (length (data b) - curr b))%nat with (curr b + m - length (data b))%nat by lia. done.
Qed.

(** Iterating from the front to the back visits the contents. *)
Lemma it_collect_ok fuel b :
  cwf b -> (length (contents b) <= fuel)%nat -> it_collect fuel b (curr b) = Done (contents b).
Proof.
  revert b. induction fuel as [|fuel IH]; intros b Hwf Hf; destruct (contents b) as [|v l] eqn:E.
  - simpl. by rewrite (empty_pos b Hwf E), Nat.eqb_refl.
  - simpl in Hf. lia.
  - simpl. by rewrite (empty_pos b Hwf E), Nat.eqb_refl.
  - destruct (contents_front b v l Hwf E) as (Hd & Hw & Hc). destruct (nonempty_pos b v l Hwf E) as [Hl Hne]. simpl.
      destruct (Nat.eqb_spec (curr b) (back b)); [done|]. unfold get_at. rewrite Hd. simpl.
      assert (it_collect fuel b (it_next b (curr b)) = it_collect fuel (adv_pop1 b) (curr (adv_pop1 b))) as ->.
      { assert (forall p, it_next (adv_pop1 b) p = it_next b p) as Hn by (intros; unfold adv_pop1; by case_match).
        assert (forall f p, it_collect f (adv_pop1 b) p = it_collect f b p) as Hsame.
        { induction f as [|f IHf]; intros p; simpl; (assert (back (adv_pop1 b) = back b) as -> by (unfold adv_pop1; by case_match)); [done|].
          destruct (Nat.eqb p (back b)); [done|]. unfold get_at. assert (data (adv_pop1 b) = data b) as -> by (unfold adv_pop1; by case_match).
          destruct (data b !! p); simpl; [|done]. by rewrite Hn, IHf. }
        rewrite Hsame. f_equal. unfold it_next, adv_pop1, adv_ptr1. unfold cwf in Hwf. rewrite Hl in Hwf.
        destruct (Nat.eqb_spec (capacity b) 0); [lia|]. destruct (Nat.eqb_spec (curr b) (back b)); [done|]. simpl.
        by rewrite Nat.add_1_r. }
      rewrite IH; [by rewrite Hc|done|]. rewrite Hc. simpl in Hf. lia.
Qed.

Lemma copy_out_ok b p n room used :
  n <= Z.of_nat (capacity b) - Z.of_nat p -> Z.of_nat (length used) + n <= Z.of_nat room ->
  copy_out b p n room used = Done (used ++ take (Z.to_nat n) (drop p (data b))).
Proof. intros H1 H2. unfold copy_out. case_cmp; done || lia. Qed.

(** ** Runs of operations *)
Inductive op := Push (v : A) | Pop | Peek | Bump (n : nat) | Flush.

Definition exec (dflt : A) (b : buffer) (o : op) : outcome (option A * buffer) :=
  match o with
  | Push v => b' ← push b v; Done (None, b')
  | Pop => '(v, b') ← pop b; Done (Some v, b')
  | Peek => v ← peek b; Done (Some v, b)
  | Bump n => b' ← adv_pop b n; Done (None, b')
  | Flush => b' ← flush dflt b; Done (None, b')
  end.
Fixpoint exec_all (dflt : A) (b : buffer) (os : list op) : outcome (list (option A) * buffer) :=
  match os with
  | [] => Done ([], b)
  | o :: os' => '(r, b1) ← exec dflt b o; '(rs, b2) ← exec_all dflt b1 os'; Done (r :: rs, b2)
  end.

(** The abstract queue: a list.  Taking from the empty queue has no meaning. *)
Definition spec (l : list A) (o : op) : option (option A * list A) :=
  match o, l with
  | Push v, _ => Some (None, l ++ [v])
  | Pop, v :: l' => Some (Some v, l')
  | Peek, v :: _ => Some (Some v, l)
  | Bump n, _ => Some (None, drop n l)
  | Flush, _ => Some (None, [])
  | _, [] => None
  end.
Fixpoint spec_all (l : list A) (os : list op) : option (list (option A) * list A) :=
  match os with
  | [] => Some ([], l)
  | o :: os' =>
      match spec l o with
      | Some (r, l1) => match spec_all l1 os' with Some (rs, l2) => Some (r :: rs, l2) | None => None end
      | None => None
      end
  end.

Lemma step_refines dflt b o r l' :
  cwf b -> live b = true -> spec (contents b) o = Some (r, l') ->
  exists b', exec dflt b o = Done (r, b') /\ cwf b' /\ live b' = true /\ contents b' = l'.
Proof.
  intros Hwf Hl Hs. destruct o as [v| | |n|]; simpl in *.
  - injection Hs as <- <-. destruct (push_ok b v Hwf) as (b' & -> & ? & ? & ?). by exists b'.
  - destruct (contents b) as [|w l] eqn:E; [done|]. injection Hs as <- <-.
    destruct (pop_ok b w l Hwf E) as (b' & Hp & _ & ? & ?). rewrite Hp. exists b'. split_and!; auto.
    unfold pop in Hp. inv_done. subst. unfold adv_pop1. by case_match.
  - destruct (contents b) as [|w l] eqn:E; [done|]. injection Hs as <- <-.
    destruct (pop_ok b w l Hwf E) as (b' & _ & -> & _). simpl. by exists b.
  - injection Hs as <- <-. destruct (adv_pop_ok b n Hwf) as (b' & -> & ? & E & ?). exists b'. split_and!; auto. congruence.
  - assert (r = None /\ l' = []) as [-> ->] by (destruct (contents b); simplify_eq; done).
    destruct (flush_ok dflt b Hwf Hl) as (b' & -> & ? & ? & ?). by exists b'.
Qed.

End Model.
Arguments buffer A : clear implicits.

(** The circular queue as an instance of the queue interface: queues that were
    created with storage, flushed with element [dflt]. *)
Section Instances.
Context {A : Type} (junk dflt : A).
Definition circ_ops : QueueOps (buffer A) A := {|
  qpush := push junk;
  qpop := pop;
  qpeek := peek;
  qempty := is_empty;
  qlen := len;
  qflush := flush dflt;
|}.
Definition circ_laws : @QueueLaws (buffer A) A circ_ops.
Proof.
  refine (@Build_QueueLaws _ _ circ_ops (fun b => cwf b /\ live b = true) contents _ _ _ _ _ _); simpl.
  - intros q [Hw _]. unfold is_empty. rewrite len_contents by done. by destruct (contents q).
  - intros q [Hw _]. by apply len_contents.
  - intros q x [Hw _]. destruct (push_ok junk q x Hw) as (q' & ? & ? & ? & ?). by exists q'.
  - intros q x l [Hw Hl] E. destruct (step_refines junk dflt q Pop (Some x) l Hw Hl) as (q' & Hr & ? & ? & ?); [simpl; by rewrite E|].
    simpl in Hr. apply bind_Done in Hr as ([v b'] & Hp & Hr). injection Hr as <- <-. by exists b'.
  - intros q x l [Hw _] E. by destruct (pop_ok q x l Hw E) as (_ & _ & ? & _).
  - intros q [Hw Hl]. destruct (flush_ok dflt q Hw Hl) as (q' & ? & ? & ? & ?). by exists q'.
Defined.
End Instances.

(** ** Properties *)

(** C40: The circular queue is a queue: started with any positive capacity, every
    sequence of operations that the list specification allows runs to the end,
    returns the same results and leaves the same contents, across wrap-around
    and both ways of growing the buffer. *)
Theorem queue_refines_list {A} (junk dflt : A) n os rs l :
  (0 < n)%nat -> spec_all [] os = Some (rs, l) ->
  exists b, exec_all junk dflt (create junk n) os = Done (rs, b) /\ cwf b /\ contents b = l.
Proof.
  intros Hn. assert (cwf (create junk n) /\ live (create junk n) = true /\ contents (create junk n) = []) as (Hw & Hl & <-).
  { unfold cwf, contents, capacity, create. simpl. rewrite length_replicate. done. }
  revert Hw Hl rs. generalize (create junk n). induction os as [|o os IH]; intros b Hw Hl rs; simpl.
  - intros [= <- <-]. by exists b.
  - destruct (spec (contents b) o) as [[r l1]|] eqn:E; [|done].
    destruct (step_refines junk dflt b o r l1 Hw Hl E) as (b1 & -> & Hw1 & Hl1 & <-). simpl.
    destruct (spec_all (contents b1) os) as [[rs' l2]|] eqn:E2; [|done]. intros [= <- <-].
    destruct (IH b1 Hw1 Hl1 rs' E2) as (b2 & -> & ? & ?). by exists b2.
Qed.
Lemma queue_refines_list_witness :
  exists b, exec_all 0 0 (create 0 2) [Push 1; Push 2; Pop; Push 3; Push 4; Push 5; Bump 2; Peek] =
    Done ([None; None; Some 1; None; None; None; None; Some 4], b) /\ cwf b /\ contents b = [4; 5].
Proof. apply (queue_refines_list 0 0 2); [lia|reflexivity]. Defined.

(** Iterating from [begin] to [end] visits exactly the contents, in order, and
    ends. *)
Theorem iteration_visits_contents {A} (b : buffer A) :
  cwf b -> it_collect (len b) b (curr b) = Done (contents b).
Proof. intros Hw. apply it_collect_ok; [done|]. by rewrite len_contents. Qed.
Lemma iteration_visits_contents_witness :
  it_collect (len (MkBuf true [5; 6; 7; 8] 3 1)) (MkBuf true [5; 6; 7; 8] 3 1) 3 = Done [8; 5].
Proof. apply (iteration_visits_contents (MkBuf true [5; 6; 7; 8] 3 1)). vm_compute. lia. Defined.

(** [get] into a contiguous range delivers the front of the queue and removes
    it, except when the contents wrap around the end of the buffer and the range
    is shorter than their first part: then the first part is copied whole, past
    the end of the range. *)
Theorem sink_exact_or_overruns {A} (b : buffer A) room :
  cwf b -> live b = true -> Z.of_nat (capacity b) < 2 ^ 63 ->
  if Nat.ltb (back b) (curr b) && Nat.ltb room (capacity b - curr b)
  then sink b room = Undef
  else exists b', sink b room = Done (take room (contents b), b') /\ cwf b' /\ contents b' = drop room (contents b).
Proof.
  intros Hw Hl Hcap. pose proof (len_contents b Hw) as Hlen. unfold sink.
  destruct (adv_pop_ok b (Nat.min room (len b)) Hw) as (b' & Hpop & Hw' & _ & Hc').
  assert (drop (Nat.min room (len b)) (contents b) = drop room (contents b)) as Hd.
  { rewrite Hlen. destruct (Nat.le_gt_cases room (length (contents b))); [by rewrite Nat.min_l|].
    rewrite !drop_ge by lia. done. }
  assert (take (Nat.min room (len b)) (contents b) = take room (contents b)) as Htk.
  { rewrite Hlen. destruct (Nat.le_gt_cases room (length (contents b))); [by rewrite Nat.min_l|].
    rewrite !take_ge by lia. done. }
  unfold cwf in Hw. rewrite Hl in Hw. destruct Hw as [Hc Hb]. unfold capacity in *.
  destruct (Nat.ltb_spec (back b) (curr b)) as [Hwrap|Hflat].
  - destruct (Nat.ltb_spec room (length (data b) - curr b)) as [Hshort|Hlong]; simpl.
    + unfold copy_out. unfold capacity. simpl. case_cmp; simpl; done || lia.
    + assert (contents b = drop (curr b) (data b) ++ take (back b) (data b)) as Hcont
        by (unfold contents; destruct (Nat.leb_spec (curr b) (back b)); [lia|done]).
      rewrite Hcont, length_app, length_drop, length_take in Hlen.
      rewrite wrap_small by (unfold in_range; lia). unfold capacity.
      rewrite copy_out_ok by (unfold capacity; simpl; lia). simpl.
      rewrite Nat2Z.id, take_ge by (rewrite length_drop; lia).
      rewrite copy_out_ok by (unfold capacity; rewrite ?length_drop; lia).
      simpl. rewrite Hpop. simpl. exists b'. split; [|split; [done|by rewrite Hc']]. do 2 f_equal. rewrite <- Htk, Hcont, drop_0.
      rewrite take_app_ge by (rewrite length_drop; lia). f_equal. rewrite length_drop, take_take. f_equal. lia.
  - simpl. assert (contents b = take (back b - curr b) (drop (curr b) (data b))) as Hcont
      by (unfold contents; destruct (Nat.leb_spec (curr b) (back b)); [done|lia]).
    rewrite Hcont, length_take, length_drop in Hlen.
    rewrite copy_out_ok by (unfold capacity; simpl; lia). simpl. rewrite Hpop. simpl.
    exists b'. split; [|split; [done|by rewrite Hc']]. do 2 f_equal. rewrite <- Htk, Hcont, Nat2Z.id, take_take. f_equal. lia.
Qed.
Lemma sink_exact_or_overruns_witness :
  sink (MkBuf true [5; 6; 7; 8] 1 0) 2 = Undef /\
  exists b', sink (MkBuf true [5; 6; 7; 8] 2 1) 5 = Done ([7; 8; 5], b') /\ cwf b' /\ contents b' = [].
Proof.
  split.
  - apply (sink_exact_or_overruns (MkBuf true [5; 6; 7; 8] 1 0) 2); [vm_compute; lia|reflexivity|vm_compute; reflexivity].
  - apply (sink_exact_or_overruns (MkBuf true [5; 6; 7; 8] 2 1) 5); [vm_compute; lia|reflexivity|vm_compute; reflexivity].
Defined.

(** Concrete behaviour: the back element of a wrapped queue, copy assignment, and
    clearing. *)
Example peek_back_wrapped : peek_back (MkBuf true [5; 6; 7; 8] 2 1) = Done 7 /\ contents (MkBuf true [5; 6; 7; 8] 2 1) = [7; 8; 5].
Proof. split; reflexivity. Qed.
Example copy_assign_loses_contents : contents (copy_assign 0 (MkBuf true [5; 6; 7; 8] 0 3)) = [0; 0; 0].
Proof. reflexivity. Qed.
Example clear_uses_freed_storage : clear (MkBuf true [5; 6; 7; 8] 0 3) = Undef.
Proof. reflexivity. Qed.

End CircQueue.
