(* ===== verification/KbdTables.v ===== *)
(** Keyboard events, key codes and the scan code tables of the PS/2 keyboard
    driver (common/include/kernel/keyboard_event.hpp and the tables of
    kernel/drivers/keyboard.cpp).

    The 21-bit code of an event and the byte of modifier bits are unsigned
    integers; the modifier byte has the layout of [keyboard_vstate], left Ctrl in
    bit 0 to right GUI in bit 7, and the lock byte that of [keyboard_lstate]. *)
From Stdlib Require Import Ascii String.
From S2P Require Import Prelude.

Module KbdTables.
Local Open Scope char_scope.
Local Open Scope Z_scope.
Local Open Scope list_scope.

(** ** Key codes *)
Definition KC_MAX_CHAR : Z := 0x10FFFF.
Definition KC_F1 : Z := 0x110001.
Definition KC_F2 : Z := 0x110002.
Definition KC_F3 : Z := 0x110003.
Definition KC_F4 : Z := 0x110004.
Definition KC_F5 : Z := 0x110005.
Definition KC_F6 : Z := 0x110006.
Definition KC_F7 : Z := 0x110007.
Definition KC_F8 : Z := 0x110008.
Definition KC_F9 : Z := 0x110009.
Definition KC_F10 : Z := 0x11000A.
Definition KC_F11 : Z := 0x11000B.
Definition KC_F12 : Z := 0x11000C.
Definition KC_LCTRL : Z := 0x120001.
Definition KC_LSHFT : Z := 0x120002.
Definition KC_LALT : Z := 0x120003.
Definition KC_RCTRL : Z := 0x120004.
Definition KC_RSHFT : Z := 0x120005.
Definition KC_RALT : Z := 0x120006.
Definition KC_LGUI : Z := 0x120007.
Definition KC_RGUI : Z := 0x120008.
Definition KC_CAPS : Z := 0x120009.
Definition KC_NUM : Z := 0x12000A.
Definition KC_SCRLL : Z := 0x12000B.
Definition KC_INS : Z := 0x12000C.
Definition KC_PAUSE : Z := 0x130001.
Definition KC_PRTSC : Z := 0x130002.
Definition KC_END : Z := 0x140001.
Definition KC_HOME : Z := 0x140002.
Definition KC_PG_UP : Z := 0x140003.
Definition KC_PG_DN : Z := 0x140004.
Definition KC_LEFT : Z := 0x140005.
Definition KC_RIGHT : Z := 0x140006.
Definition KC_UP : Z := 0x140007.
Definition KC_DOWN : Z := 0x140008.
Definition KC_POWER : Z := 0x150001.
Definition KC_SLEEP : Z := 0x150002.
Definition KC_WAKE : Z := 0x150003.
Definition KC_M1 : Z := 0x160001.
Definition KC_M2 : Z := 0x160002.
Definition KC_M3 : Z := 0x160003.
Definition KC_M4 : Z := 0x160004.
Definition KC_M5 : Z := 0x160005.
Definition KC_M6 : Z := 0x160006.
Definition KC_M7 : Z := 0x160007.
Definition KC_M8 : Z := 0x160008.
Definition KC_M9 : Z := 0x160009.
Definition KC_M10 : Z := 0x16000A.
Definition KC_M11 : Z := 0x16000B.
Definition KC_M12 : Z := 0x16000C.
Definition KC_M13 : Z := 0x16000D.
Definition KC_M14 : Z := 0x16000E.
Definition KC_M15 : Z := 0x16000F.
Definition KC_M16 : Z := 0x160010.
Definition KC_M17 : Z := 0x160011.
Definition KC_M18 : Z := 0x160012.
Definition KC_APPS : Z := 0x160013.
Definition KC_BRB : Z := 0x1700F0.
Definition KC_EXB : Z := 0x1700E0.
Definition KC_SEQB : Z := 0x1700E1.
Definition KC_SEQ_UNKNOWN : Z := 0x1E0000.
Definition KC_UNKNOWN : Z := 0x1F0000.
Definition KC_EXT_UNKNOWN : Z := 0x1FE000.

(** ** Events *)
Record keyboard_event := MkEvent {
  kv_code : Z;
  kv_release : bool;
  kv_numpad : bool;
  kv_multiscan : bool;
  kv_vstate : Z;
}.
#[export] Instance keyboard_event_eq_dec : EqDecision keyboard_event.
Proof. solve_decision. Defined.

Definition left_ctrl : Z := 0.
Definition left_shift : Z := 1.
Definition left_alt : Z := 2.
Definition left_gui : Z := 3.
Definition right_ctrl : Z := 4.
Definition right_shift : Z := 5.
Definition right_alt : Z := 6.
Definition right_gui : Z := 7.
Definition vs_shift (v : Z) : bool := Z.testbit v left_shift || Z.testbit v right_shift.
Definition lk_scroll : Z := 0.
Definition lk_num : Z := 1.
Definition lk_caps : Z := 2.

(** ** Packet prototypes *)
Definition ch (c : ascii) : Z := Z.of_N (N_of_ascii c).
Definition of_unicode (unicode : Z) (is_break is_numpad : bool) : keyboard_event :=
  MkEvent unicode is_break is_numpad false 0.
Definition flag (b : bool) (i : Z) : Z := if b then Z.shiftl 1 i else 0.
Definition of_special (code : Z) (is_break : bool) : keyboard_event :=
  MkEvent code is_break false (negb is_break && (code =? KC_SEQB))
    (flag (code =? KC_LCTRL) left_ctrl + flag (code =? KC_LSHFT) left_shift + flag (code =? KC_LALT) left_alt +
     flag (code =? KC_LGUI) left_gui + flag (code =? KC_RCTRL) right_ctrl + flag (code =? KC_RSHFT) right_shift +
     flag (code =? KC_RALT) right_alt + flag (code =? KC_RGUI) right_gui).
Definition c_dn (code : Z) : keyboard_event := of_unicode code false false.
Definition n_dn (code : Z) : keyboard_event := of_unicode code false true.
Definition s_dn (code : Z) : keyboard_event := of_special code false.
Definition c_up (code : Z) : keyboard_event := of_unicode code true false.
Definition n_up (code : Z) : keyboard_event := of_unicode code true true.
Definition s_up (code : Z) : keyboard_event := of_special code true.
Definition plain (code : Z) : keyboard_event := MkEvent code false false false 0.
Definition uk_sc (scan : Z) : keyboard_event := plain (Z.lor KC_UNKNOWN scan).
Definition uk_ex (scan : Z) : keyboard_event := plain (Z.lor KC_EXT_UNKNOWN scan).
Definition uk_seq (first second : Z) : keyboard_event := plain (Z.lor KC_SEQ_UNKNOWN (first + Z.shiftl second 8)).
Definition prtscr_packet : keyboard_event := MkEvent KC_PRTSC false false true 0.
Definition prtscr_break : keyboard_event := MkEvent KC_PRTSC true false true 0.
Definition pause_packet : keyboard_event := MkEvent KC_PAUSE false false true 0.

(** ** Scan code tables *)
Definition set1_base : list keyboard_event := [
  uk_sc 0x00; c_dn 27; c_dn (ch "1"); c_dn (ch "2");
  c_dn (ch "3"); c_dn (ch "4"); c_dn (ch "5"); c_dn (ch "6");
  c_dn (ch "7"); c_dn (ch "8"); c_dn (ch "9"); c_dn (ch "0");
  c_dn (ch "-"); c_dn (ch "="); c_dn 8; c_dn 9;
  c_dn (ch "q"); c_dn (ch "w"); c_dn (ch "e"); c_dn (ch "r");
  c_dn (ch "t"); c_dn (ch "y"); c_dn (ch "u"); c_dn (ch "i");
  c_dn (ch "o"); c_dn (ch "p"); c_dn (ch "["); c_dn (ch "]");
  c_dn 10; s_dn KC_LCTRL; c_dn (ch "a"); c_dn (ch "s");
  c_dn (ch "d"); c_dn (ch "f"); c_dn (ch "g"); c_dn (ch "h");
  c_dn (ch "j"); c_dn (ch "k"); c_dn (ch "l"); c_dn (ch ";");
  c_dn 39; c_dn (ch "`"); s_dn KC_LSHFT; c_dn 92;
  c_dn (ch "z"); c_dn (ch "x"); c_dn (ch "c"); c_dn (ch "v");
  c_dn (ch "b"); c_dn (ch "n"); c_dn (ch "m"); c_dn (ch ",");
  c_dn (ch "."); c_dn (ch "/"); s_dn KC_RSHFT; n_dn (ch "*");
  s_dn KC_LALT; c_dn (ch " "); s_dn KC_CAPS; s_dn KC_F1;
  s_dn KC_F2; s_dn KC_F3; s_dn KC_F4; s_dn KC_F5;
  s_dn KC_F6; s_dn KC_F7; s_dn KC_F8; s_dn KC_F9;
  s_dn KC_F10; s_dn KC_NUM; s_dn KC_SCRLL; n_dn (ch "7");
  n_dn (ch "8"); n_dn (ch "9"); n_dn (ch "-"); n_dn (ch "4");
  n_dn (ch "5"); n_dn (ch "6"); n_dn (ch "+"); n_dn (ch "1");
  n_dn (ch "2"); n_dn (ch "3"); n_dn (ch "0"); n_dn (ch ".");
  uk_sc 0x54; uk_sc 0x55; uk_sc 0x56; s_dn KC_F11;
  s_dn KC_F12; uk_sc 0x59; uk_sc 0x5A; uk_sc 0x5B;
  uk_sc 0x5C; uk_sc 0x5D; uk_sc 0x5E; uk_sc 0x5F;
  uk_sc 0x60; uk_sc 0x61; uk_sc 0x62; uk_sc 0x63;
  uk_sc 0x64; uk_sc 0x65; uk_sc 0x66; uk_sc 0x67;
  uk_sc 0x68; uk_sc 0x69; uk_sc 0x6A; uk_sc 0x6B;
  uk_sc 0x6C; uk_sc 0x6D; uk_sc 0x6E; uk_sc 0x6F;
  uk_sc 0x70; uk_sc 0x71; uk_sc 0x72; uk_sc 0x73;
  uk_sc 0x74; uk_sc 0x75; uk_sc 0x76; uk_sc 0x77;
  uk_sc 0x78; uk_sc 0x79; uk_sc 0x7A; uk_sc 0x7B;
  uk_sc 0x7C; uk_sc 0x7D; uk_sc 0x7E; uk_sc 0x7F;
  uk_sc 0x80; c_up 27; c_up (ch "1"); c_up (ch "2");
  c_up (ch "3"); c_up (ch "4"); c_up (ch "5"); c_up (ch "6");
  c_up (ch "7"); c_up (ch "8"); c_up (ch "9"); c_up (ch "0");
  c_up (ch "-"); c_up (ch "="); c_up 8; c_up 9;
  c_up (ch "q"); c_up (ch "w"); c_up (ch "e"); c_up (ch "r");
  c_up (ch "t"); c_up (ch "y"); c_up (ch "u"); c_up (ch "i");
  c_up (ch "o"); c_up (ch "p"); c_up (ch "["); c_up (ch "]");
  c_up 10; s_up KC_LCTRL; c_up (ch "a"); c_up (ch "s");
  c_up (ch "d"); c_up (ch "f"); c_up (ch "g"); c_up (ch "h");
  c_up (ch "j"); c_up (ch "k"); c_up (ch "l"); c_up (ch ";");
  c_up 39; c_up (ch "`"); s_up KC_LSHFT; c_up 92;
  c_up (ch "z"); c_up (ch "x"); c_up (ch "c"); c_up (ch "v");
  c_up (ch "b"); c_up (ch "n"); c_up (ch "m"); c_up (ch ",");
  c_up (ch "."); c_up (ch "/"); s_up KC_RSHFT; n_up (ch "*");
  s_up KC_LALT; c_up (ch " "); s_up KC_CAPS; s_up KC_F1;
  s_up KC_F2; s_up KC_F3; s_up KC_F4; s_up KC_F5;
  s_up KC_F6; s_up KC_F7; s_up KC_F8; s_up KC_F9;
  s_up KC_F10; s_up KC_NUM; s_up KC_SCRLL; n_up (ch "7");
  n_up (ch "8"); n_up (ch "9"); n_up (ch "-"); n_up (ch "4");
  n_up (ch "5"); n_up (ch "6"); n_up (ch "+"); n_up (ch "1");
  n_up (ch "2"); n_up (ch "3"); n_up (ch "0"); n_up (ch ".");
  uk_sc 0xD4; uk_sc 0xD5; uk_sc 0xD6; s_up KC_F11;
  s_up KC_F12; uk_sc 0xD9; uk_sc 0xDA; uk_sc 0xDB;
  uk_sc 0xDC; uk_sc 0xDD; uk_sc 0xDE; uk_sc 0xDF;
  s_dn KC_EXB; s_dn KC_SEQB; uk_sc 0xE2; uk_sc 0xE3;
  uk_sc 0xE4; uk_sc 0xE5; uk_sc 0xE6; uk_sc 0xE7;
  uk_sc 0xE8; uk_sc 0xE9; uk_sc 0xEA; uk_sc 0xEB;
  uk_sc 0xEC; uk_sc 0xED; uk_sc 0xEE; uk_sc 0xEF;
  uk_sc 0xF0; uk_sc 0xF1; uk_sc 0xF2; uk_sc 0xF3;
  uk_sc 0xF4; uk_sc 0xF5; uk_sc 0xF6; uk_sc 0xF7;
  uk_sc 0xF8; uk_sc 0xF9; uk_sc 0xFA; uk_sc 0xFB;
  uk_sc 0xFC; uk_sc 0xFD; uk_sc 0xFE; uk_sc 0xFF
].
Definition set1_escaped : list keyboard_event := [
  uk_ex 0x00; uk_ex 0x01; uk_ex 0x02; uk_ex 0x03;
  uk_ex 0x04; uk_ex 0x05; uk_ex 0x06; uk_ex 0x07;
  uk_ex 0x08; uk_ex 0x09; uk_ex 0x0A; uk_ex 0x0B;
  uk_ex 0x0C; uk_ex 0x0D; uk_ex 0x0E; uk_ex 0x0F;
  s_dn KC_M1; uk_ex 0x11; uk_ex 0x12; uk_ex 0x13;
  uk_ex 0x14; uk_ex 0x15; uk_ex 0x16; uk_ex 0x17;
  uk_ex 0x18; s_dn KC_M2; uk_ex 0x1A; uk_ex 0x1B;
  n_dn 10; s_dn KC_RCTRL; uk_ex 0x1E; uk_ex 0x1F;
  s_dn KC_M3; s_dn KC_M4; s_dn KC_M5; uk_ex 0x23;
  s_dn KC_M6; uk_ex 0x25; uk_ex 0x26; uk_ex 0x27;
  uk_ex 0x28; uk_ex 0x29; prtscr_packet; uk_ex 0x2B;
  uk_ex 0x2C; uk_ex 0x2D; s_dn KC_M7; uk_ex 0x2F;
  s_dn KC_M8; uk_ex 0x31; s_dn KC_M9; uk_ex 0x33;
  uk_ex 0x34; n_dn (ch "/"); uk_ex 0x36; prtscr_packet;
  s_dn KC_RALT; uk_ex 0x39; uk_ex 0x3A; uk_ex 0x3B;
  uk_ex 0x3C; uk_ex 0x3D; uk_ex 0x3E; uk_ex 0x3F;
  uk_ex 0x40; uk_ex 0x41; uk_ex 0x42; uk_ex 0x43;
  uk_ex 0x44; uk_ex 0x45; uk_ex 0x46; s_dn KC_HOME;
  s_dn KC_UP; s_dn KC_PG_UP; uk_ex 0x4A; s_dn KC_LEFT;
  uk_ex 0x4C; s_dn KC_RIGHT; uk_ex 0x4E; s_dn KC_END;
  s_dn KC_DOWN; s_dn KC_PG_DN; s_dn KC_INS; c_dn 127;
  uk_ex 0x54; uk_ex 0x55; uk_ex 0x56; uk_ex 0x57;
  uk_ex 0x58; uk_ex 0x59; uk_ex 0x5A; s_dn KC_LGUI;
  s_dn KC_RGUI; s_dn KC_APPS; s_dn KC_POWER; s_dn KC_SLEEP;
  uk_ex 0x60; uk_ex 0x61; uk_ex 0x62; s_dn KC_WAKE;
  uk_ex 0x64; s_dn KC_M10; s_dn KC_M11; s_dn KC_M12;
  s_dn KC_M13; s_dn KC_M14; s_dn KC_M15; s_dn KC_M16;
  s_dn KC_M17; s_dn KC_M18; uk_ex 0x6E; uk_ex 0x6F;
  uk_ex 0x70; uk_ex 0x71; uk_ex 0x72; uk_ex 0x73;
  uk_ex 0x74; uk_ex 0x75; uk_ex 0x76; uk_ex 0x77;
  uk_ex 0x78; uk_ex 0x79; uk_ex 0x7A; uk_ex 0x7B;
  uk_ex 0x7C; uk_ex 0x7D; uk_ex 0x7E; uk_ex 0x7F;
  uk_ex 0x80; uk_ex 0x81; uk_ex 0x82; uk_ex 0x83;
  uk_ex 0x84; uk_ex 0x85; uk_ex 0x86; uk_ex 0x87;
  uk_ex 0x88; uk_ex 0x89; uk_ex 0x8A; uk_ex 0x8B;
  uk_ex 0x8C; uk_ex 0x8D; uk_ex 0x8E; uk_ex 0x8F;
  s_up KC_M1; uk_ex 0x91; uk_ex 0x92; uk_ex 0x93;
  uk_ex 0x94; uk_ex 0x95; uk_ex 0x96; uk_ex 0x97;
  uk_ex 0x98; s_up KC_M2; uk_ex 0x9A; uk_ex 0x9B;
  n_up 10; s_up KC_RCTRL; uk_ex 0x9E; uk_ex 0x9F;
  s_up KC_M3; s_up KC_M4; s_up KC_M5; uk_ex 0xA3;
  s_up KC_M6; uk_ex 0xA5; uk_ex 0xA6; uk_ex 0xA7;
  uk_ex 0xA8; uk_ex 0xA9; prtscr_break; uk_ex 0xAB;
  uk_ex 0xAC; uk_ex 0xAD; s_up KC_M7; uk_ex 0xAF;
  s_up KC_M8; uk_ex 0xB1; s_up KC_M9; uk_ex 0xB3;
  uk_ex 0xB4; n_up (ch "/"); uk_ex 0xB6; prtscr_break;
  s_up KC_RALT; uk_ex 0xB9; uk_ex 0xBA; uk_ex 0xBB;
  uk_ex 0xBC; uk_ex 0xBD; uk_ex 0xBE; uk_ex 0xBF;
  uk_ex 0xC0; uk_ex 0xC1; uk_ex 0xC2; uk_ex 0xC3;
  uk_ex 0xC4; uk_ex 0xC5; uk_ex 0xC6; s_up KC_HOME;
  s_up KC_UP; s_up KC_PG_UP; uk_ex 0xCA; s_up KC_LEFT;
  uk_ex 0xCC; s_up KC_RIGHT; uk_ex 0xCE; s_up KC_END;
  s_up KC_DOWN; s_up KC_PG_DN; s_up KC_INS; c_up 127;
  uk_ex 0xD4; uk_ex 0xD5; uk_ex 0xD6; uk_ex 0xD7;
  uk_ex 0xD8; uk_ex 0xD9; uk_ex 0xDA; s_up KC_LGUI;
  s_up KC_RGUI; s_up KC_APPS; s_up KC_POWER; s_up KC_SLEEP;
  uk_ex 0xE0; uk_ex 0xE1; uk_ex 0xE2; s_up KC_WAKE;
  uk_ex 0xE4; s_up KC_M10; s_up KC_M11; s_up KC_M12;
  s_up KC_M13; s_up KC_M14; s_up KC_M15; s_up KC_M16;
  s_up KC_M17; s_up KC_M18; uk_ex 0xEE; uk_ex 0xEF;
  uk_ex 0xF0; uk_ex 0xF1; uk_ex 0xF2; uk_ex 0xF3;
  uk_ex 0xF4; uk_ex 0xF5; uk_ex 0xF6; uk_ex 0xF7;
  uk_ex 0xF8; uk_ex 0xF9; uk_ex 0xFA; uk_ex 0xFB;
  uk_ex 0xFC; uk_ex 0xFD; uk_ex 0xFE; uk_ex 0xFF
].
Definition set2_base : list keyboard_event := [
  uk_sc 0x00; s_dn KC_F9; uk_sc 0x02; s_dn KC_F5;
  s_dn KC_F3; s_dn KC_F1; s_dn KC_F2; s_dn KC_F12;
  uk_sc 0x08; s_dn KC_F10; s_dn KC_F8; s_dn KC_F6;
  s_dn KC_F4; c_dn 9; c_dn (ch "`"); uk_sc 0x0F;
  uk_sc 0x10; s_dn KC_LALT; s_dn KC_LSHFT; uk_sc 0x13;
  s_dn KC_LCTRL; c_dn (ch "q"); c_dn (ch "1"); uk_sc 0x17;
  uk_sc 0x18; uk_sc 0x19; c_dn (ch "z"); c_dn (ch "s");
  c_dn (ch "a"); c_dn (ch "w"); c_dn (ch "2"); uk_sc 0x1F;
  uk_sc 0x20; c_dn (ch "c"); c_dn (ch "x"); c_dn (ch "d");
  c_dn (ch "e"); c_dn (ch "4"); c_dn (ch "3"); uk_sc 0x27;
  uk_sc 0x28; c_dn (ch " "); c_dn (ch "v"); c_dn (ch "f");
  c_dn (ch "t"); c_dn (ch "r"); c_dn (ch "5"); uk_sc 0x2F;
  uk_sc 0x30; c_dn (ch "n"); c_dn (ch "b"); c_dn (ch "h");
  c_dn (ch "g"); c_dn (ch "y"); c_dn (ch "6"); uk_sc 0x37;
  uk_sc 0x38; uk_sc 0x39; c_dn (ch "m"); c_dn (ch "j");
  c_dn (ch "u"); c_dn (ch "7"); c_dn (ch "8"); uk_sc 0x3F;
  uk_sc 0x40; c_dn (ch ","); c_dn (ch "k"); c_dn (ch "i");
  c_dn (ch "o"); c_dn (ch "0"); c_dn (ch "9"); uk_sc 0x47;
  uk_sc 0x48; c_dn (ch "."); c_dn (ch "/"); c_dn (ch "l");
  c_dn (ch ";"); c_dn (ch "p"); c_dn (ch "-"); uk_sc 0x4F;
  uk_sc 0x50; uk_sc 0x51; c_dn 39; uk_sc 0x53;
  c_dn (ch "["); c_dn (ch "="); uk_sc 0x56; uk_sc 0x57;
  s_dn KC_CAPS; s_dn KC_RSHFT; c_dn 10; c_dn (ch "]");
  uk_sc 0x5C; c_dn 92; uk_sc 0x5E; uk_sc 0x5F;
  uk_sc 0x60; uk_sc 0x61; uk_sc 0x62; uk_sc 0x63;
  uk_sc 0x64; uk_sc 0x65; c_dn 8; uk_sc 0x67;
  uk_sc 0x68; n_dn (ch "1"); uk_sc 0x6A; n_dn (ch "4");
  n_dn (ch "7"); uk_sc 0x6D; uk_sc 0x6E; uk_sc 0x6F;
  n_dn (ch "0"); n_dn (ch "."); n_dn (ch "2"); n_dn (ch "5");
  n_dn (ch "6"); n_dn (ch "8"); c_dn 27; s_dn KC_NUM;
  s_dn KC_F11; n_dn (ch "+"); n_dn (ch "3"); n_dn (ch "-");
  n_dn (ch "*"); n_dn (ch "9"); s_dn KC_SCRLL; uk_sc 0x7F;
  uk_sc 0x80; uk_sc 0x81; uk_sc 0x82; s_dn KC_F7;
  uk_sc 0x84; uk_sc 0x85; uk_sc 0x86; uk_sc 0x87;
  uk_sc 0x88; uk_sc 0x89; uk_sc 0x8A; uk_sc 0x8B;
  uk_sc 0x8C; uk_sc 0x8D; uk_sc 0x8E; uk_sc 0x8F;
  uk_sc 0x90; uk_sc 0x91; uk_sc 0x92; uk_sc 0x93;
  uk_sc 0x94; uk_sc 0x95; uk_sc 0x96; uk_sc 0x97;
  uk_sc 0x98; uk_sc 0x99; uk_sc 0x9A; uk_sc 0x9B;
  uk_sc 0x9C; uk_sc 0x9D; uk_sc 0x9E; uk_sc 0x9F;
  uk_sc 0xA0; uk_sc 0xA1; uk_sc 0xA2; uk_sc 0xA3;
  uk_sc 0xA4; uk_sc 0xA5; uk_sc 0xA6; uk_sc 0xA7;
  uk_sc 0xA8; uk_sc 0xA9; uk_sc 0xAA; uk_sc 0xAB;
  uk_sc 0xAC; uk_sc 0xAD; uk_sc 0xAE; uk_sc 0xAF;
  uk_sc 0xB0; uk_sc 0xB1; uk_sc 0xB2; uk_sc 0xB3;
  uk_sc 0xB4; uk_sc 0xB5; uk_sc 0xB6; uk_sc 0xB7;
  uk_sc 0xB8; uk_sc 0xB9; uk_sc 0xBA; uk_sc 0xBB;
  uk_sc 0xBC; uk_sc 0xBD; uk_sc 0xBE; uk_sc 0xBF;
  uk_sc 0xC0; uk_sc 0xC1; uk_sc 0xC2; uk_sc 0xC3;
  uk_sc 0xC4; uk_sc 0xC5; uk_sc 0xC6; uk_sc 0xC7;
  uk_sc 0xC8; uk_sc 0xC9; uk_sc 0xCA; uk_sc 0xCB;
  uk_sc 0xCC; uk_sc 0xCD; uk_sc 0xCE; uk_sc 0xCF;
  uk_sc 0xD0; uk_sc 0xD1; uk_sc 0xD2; uk_sc 0xD3;
  uk_sc 0xD4; uk_sc 0xD5; uk_sc 0xD6; uk_sc 0xD7;
  uk_sc 0xD8; uk_sc 0xD9; uk_sc 0xDA; uk_sc 0xDB;
  uk_sc 0xDC; uk_sc 0xDD; uk_sc 0xDE; uk_sc 0xDF;
  s_dn KC_EXB; s_dn KC_SEQB; uk_sc 0xE2; uk_sc 0xE3;
  uk_sc 0xE4; uk_sc 0xE5; uk_sc 0xE6; uk_sc 0xE7;
  uk_sc 0xE8; uk_sc 0xE9; uk_sc 0xEA; uk_sc 0xEB;
  uk_sc 0xEC; uk_sc 0xED; uk_sc 0xEE; uk_sc 0xEF;
  s_up KC_BRB; uk_sc 0xF1; uk_sc 0xF2; uk_sc 0xF3;
  uk_sc 0xF4; uk_sc 0xF5; uk_sc 0xF6; uk_sc 0xF7;
  uk_sc 0xF8; uk_sc 0xF9; uk_sc 0xFA; uk_sc 0xFB;
  uk_sc 0xFC; uk_sc 0xFD; uk_sc 0xFE; uk_sc 0xFF
].
Definition set2_escaped : list keyboard_event := [
  uk_ex 0x00; uk_ex 0x01; uk_ex 0x02; uk_ex 0x03;
  uk_ex 0x04; uk_ex 0x05; uk_ex 0x06; uk_ex 0x07;
  uk_ex 0x08; uk_ex 0x09; uk_ex 0x0A; uk_ex 0x0B;
  uk_ex 0x0C; uk_ex 0x0D; uk_ex 0x0E; uk_ex 0x0F;
  s_dn KC_M10; s_dn KC_RALT; prtscr_packet; uk_ex 0x13;
  s_dn KC_RCTRL; s_dn KC_M1; uk_ex 0x16; uk_ex 0x17;
  s_dn KC_M11; uk_sc 0x19; uk_ex 0x1A; uk_ex 0x1B;
  uk_ex 0x1C; uk_ex 0x1D; uk_ex 0x1E; s_dn KC_LGUI;
  s_dn KC_M12; s_dn KC_M7; uk_ex 0x22; s_dn KC_M3;
  uk_ex 0x24; uk_ex 0x25; uk_ex 0x26; s_dn KC_RGUI;
  s_dn KC_M13; uk_ex 0x29; uk_ex 0x2A; s_dn KC_M4;
  uk_ex 0x2C; uk_ex 0x2D; uk_ex 0x2E; s_dn KC_APPS;
  s_dn KC_M14; uk_ex 0x31; s_dn KC_M8; uk_ex 0x33;
  s_dn KC_M5; uk_ex 0x35; uk_ex 0x36; s_dn KC_POWER;
  s_dn KC_M15; uk_ex 0x39; s_dn KC_M9; s_dn KC_M6;
  uk_ex 0x3C; uk_ex 0x3D; uk_ex 0x3E; s_dn KC_SLEEP;
  s_dn KC_M16; uk_ex 0x41; uk_ex 0x42; uk_ex 0x43;
  uk_ex 0x44; uk_ex 0x45; uk_ex 0x46; uk_ex 0x47;
  s_dn KC_M17; uk_ex 0x49; n_dn (ch "/"); uk_ex 0x4B;
  uk_ex 0x4C; s_dn KC_M2; uk_ex 0x4E; uk_ex 0x4F;
  s_dn KC_M18; uk_ex 0x51; uk_ex 0x52; uk_ex 0x53;
  uk_ex 0x54; uk_ex 0x55; uk_ex 0x56; uk_ex 0x57;
  uk_ex 0x58; uk_ex 0x59; n_dn 10; uk_ex 0x5B;
  uk_ex 0x5C; uk_ex 0x5D; s_dn KC_WAKE; uk_ex 0x5F;
  uk_ex 0x60; uk_ex 0x61; uk_ex 0x62; uk_ex 0x63;
  uk_ex 0x64; uk_ex 0x65; uk_ex 0x66; uk_ex 0x67;
  uk_ex 0x68; s_dn KC_END; uk_ex 0x6A; s_dn KC_LEFT;
  s_dn KC_HOME; uk_ex 0x6D; uk_ex 0x6E; uk_ex 0x6F;
  s_dn KC_INS; c_dn 127; s_dn KC_DOWN; uk_ex 0x73;
  s_dn KC_RIGHT; s_dn KC_UP; uk_ex 0x76; uk_ex 0x77;
  uk_ex 0x78; uk_ex 0x79; s_dn KC_PG_DN; uk_ex 0x7B;
  prtscr_packet; s_dn KC_PG_UP; uk_ex 0x7E; uk_ex 0x7F;
  uk_ex 0x80; uk_ex 0x81; uk_ex 0x82; uk_ex 0x83;
  uk_ex 0x84; uk_ex 0x85; uk_ex 0x86; uk_ex 0x87;
  uk_ex 0x88; uk_ex 0x89; uk_ex 0x8A; uk_ex 0x8B;
  uk_ex 0x8C; uk_ex 0x8D; uk_ex 0x8E; uk_ex 0x8F;
  uk_ex 0x90; uk_ex 0x91; uk_ex 0x92; uk_ex 0x93;
  uk_ex 0x94; uk_ex 0x95; uk_ex 0x96; uk_ex 0x97;
  uk_ex 0x98; uk_ex 0x99; uk_ex 0x9A; uk_ex 0x9B;
  uk_ex 0x9C; uk_ex 0x9D; uk_ex 0x9E; uk_ex 0x9F;
  uk_ex 0xA0; uk_ex 0xA1; uk_ex 0xA2; uk_ex 0xA3;
  uk_ex 0xA4; uk_ex 0xA5; uk_ex 0xA6; uk_ex 0xA7;
  uk_ex 0xA8; uk_ex 0xA9; uk_ex 0xAA; uk_ex 0xAB;
  uk_ex 0xAC; uk_ex 0xAD; uk_ex 0xAE; uk_ex 0xAF;
  uk_ex 0xB0; uk_ex 0xB1; uk_ex 0xB2; uk_ex 0xB3;
  uk_ex 0xB4; uk_ex 0xB5; uk_ex 0xB6; uk_ex 0xB7;
  uk_ex 0xB8; uk_ex 0xB9; uk_ex 0xBA; uk_ex 0xBB;
  uk_ex 0xBC; uk_ex 0xBD; uk_ex 0xBE; uk_ex 0xBF;
  uk_ex 0xC0; uk_ex 0xC1; uk_ex 0xC2; uk_ex 0xC3;
  uk_ex 0xC4; uk_ex 0xC5; uk_ex 0xC6; uk_ex 0xC7;
  uk_ex 0xC8; uk_ex 0xC9; uk_ex 0xCA; uk_ex 0xCB;
  uk_ex 0xCC; uk_ex 0xCD; uk_ex 0xCE; uk_ex 0xCF;
  uk_ex 0xD0; uk_ex 0xD1; uk_ex 0xD2; uk_ex 0xD3;
  uk_ex 0xD4; uk_ex 0xD5; uk_ex 0xD6; uk_ex 0xD7;
  uk_ex 0xD8; uk_ex 0xD9; uk_ex 0xDA; uk_ex 0xDB;
  uk_ex 0xDC; uk_ex 0xDD; uk_ex 0xDE; uk_ex 0xDF;
  uk_ex 0xE0; uk_ex 0xE1; uk_ex 0xE2; uk_ex 0xE3;
  uk_ex 0xE4; uk_ex 0xE5; uk_ex 0xE6; uk_ex 0xE7;
  uk_ex 0xE8; uk_ex 0xE9; uk_ex 0xEA; uk_ex 0xEB;
  uk_ex 0xEC; uk_ex 0xED; uk_ex 0xEE; uk_ex 0xEF;
  s_up KC_BRB; uk_ex 0xF1; uk_ex 0xF2; uk_ex 0xF3;
  uk_ex 0xF4; uk_ex 0xF5; uk_ex 0xF6; uk_ex 0xF7;
  uk_ex 0xF8; uk_ex 0xF9; uk_ex 0xFA; uk_ex 0xFB;
  uk_ex 0xFC; uk_ex 0xFD; uk_ex 0xFE; uk_ex 0xFF
].
Definition set3_base : list keyboard_event := [
  uk_sc 0x00; uk_sc 0x01; uk_sc 0x02; uk_sc 0x03;
  uk_sc 0x00; uk_sc 0x01; uk_sc 0x02; s_dn KC_F1;
  c_dn 27; uk_sc 0x09; uk_sc 0x0A; uk_sc 0x0B;
  uk_sc 0x0C; c_dn 9; c_dn (ch "`"); s_dn KC_F2;
  uk_sc 0x10; s_dn KC_LCTRL; s_dn KC_LSHFT; uk_sc 0x13;
  s_dn KC_CAPS; c_dn (ch "q"); c_dn (ch "1"); s_dn KC_F3;
  uk_sc 0x18; s_dn KC_LALT; c_dn (ch "z"); c_dn (ch "s");
  c_dn (ch "a"); c_dn (ch "w"); c_dn (ch "2"); s_dn KC_F4;
  uk_sc 0x20; c_dn (ch "c"); c_dn (ch "x"); c_dn (ch "d");
  c_dn (ch "e"); c_dn (ch "4"); c_dn (ch "3"); s_dn KC_F5;
  uk_sc 0x28; c_dn (ch " "); c_dn (ch "v"); c_dn (ch "f");
  c_dn (ch "t"); c_dn (ch "r"); c_dn (ch "5"); s_dn KC_F6;
  uk_sc 0x30; c_dn (ch "n"); c_dn (ch "b"); c_dn (ch "h");
  c_dn (ch "g"); c_dn (ch "y"); c_dn (ch "6"); s_dn KC_F7;
  uk_sc 0x28; s_dn KC_RALT; c_dn (ch "m"); c_dn (ch "j");
  c_dn (ch "u"); c_dn (ch "7"); c_dn (ch "8"); s_dn KC_F8;
  uk_sc 0x40; c_dn (ch ","); c_dn (ch "k"); c_dn (ch "i");
  c_dn (ch "o"); c_dn (ch "0"); c_dn (ch "9"); s_dn KC_F9;
  uk_sc 0x48; c_dn (ch "."); c_dn (ch "/"); c_dn (ch "l");
  c_dn (ch ";"); c_dn (ch "p"); c_dn (ch "-"); s_dn KC_F10;
  uk_sc 0x50; uk_sc 0x51; c_dn 39; uk_sc 0x53;
  c_dn (ch "["); c_dn (ch "="); s_dn KC_F11; s_dn KC_PRTSC;
  s_dn KC_RCTRL; s_dn KC_RSHFT; c_dn 10; c_dn (ch "]");
  c_dn 92; uk_sc 0x5D; s_dn KC_F12; s_dn KC_SCRLL;
  s_dn KC_DOWN; s_dn KC_LEFT; s_dn KC_PAUSE; s_dn KC_UP;
  c_dn 127; s_dn KC_END; c_dn 8; s_dn KC_INS;
  uk_sc 0x68; n_dn (ch "1"); s_dn KC_RIGHT; n_dn (ch "4");
  n_dn (ch "7"); s_dn KC_PG_DN; s_dn KC_HOME; s_dn KC_PG_UP;
  n_dn (ch "0"); n_dn (ch "."); n_dn (ch "2"); n_dn (ch "5");
  n_dn (ch "6"); n_dn (ch "8"); s_dn KC_NUM; uk_sc 0x77;
  uk_sc 0x78; n_dn 10; n_dn (ch "3"); uk_sc 0x7B;
  n_dn (ch "+"); n_dn (ch "9"); n_dn (ch "*"); uk_sc 0x7F;
  uk_sc 0x80; uk_sc 0x81; uk_sc 0x82; uk_sc 0x83;
  uk_sc 0x84; uk_sc 0x85; uk_sc 0x86; uk_sc 0x87;
  uk_sc 0x88; uk_sc 0x89; uk_sc 0x8A; s_dn KC_LGUI;
  s_dn KC_RGUI; s_dn KC_APPS; uk_sc 0x8E; uk_sc 0x8F;
  uk_sc 0x90; uk_sc 0x91; uk_sc 0x92; uk_sc 0x93;
  uk_sc 0x94; uk_sc 0x95; uk_sc 0x96; uk_sc 0x97;
  uk_sc 0x98; uk_sc 0x99; uk_sc 0x9A; uk_sc 0x9B;
  uk_sc 0x9C; uk_sc 0x9D; uk_sc 0x9E; uk_sc 0x9F;
  uk_sc 0xA0; uk_sc 0xA1; uk_sc 0xA2; uk_sc 0xA3;
  uk_sc 0xA4; uk_sc 0xA5; uk_sc 0xA6; uk_sc 0xA7;
  uk_sc 0xA8; uk_sc 0xA9; uk_sc 0xAA; uk_sc 0xAB;
  uk_sc 0xAC; uk_sc 0xAD; uk_sc 0xAE; uk_sc 0xAF;
  uk_sc 0xB0; uk_sc 0xB1; uk_sc 0xB2; uk_sc 0xB3;
  uk_sc 0xB4; uk_sc 0xB5; uk_sc 0xB6; uk_sc 0xB7;
  uk_sc 0xB8; uk_sc 0xB9; uk_sc 0xBA; uk_sc 0xBB;
  uk_sc 0xBC; uk_sc 0xBD; uk_sc 0xBE; uk_sc 0xBF;
  uk_sc 0xC0; uk_sc 0xC1; uk_sc 0xC2; uk_sc 0xC3;
  uk_sc 0xC4; uk_sc 0xC5; uk_sc 0xC6; uk_sc 0xC7;
  uk_sc 0xC8; uk_sc 0xC9; uk_sc 0xCA; uk_sc 0xCB;
  uk_sc 0xCC; uk_sc 0xCD; uk_sc 0xCE; uk_sc 0xCF;
  uk_sc 0xD0; uk_sc 0xD1; uk_sc 0xD2; uk_sc 0xD3;
  uk_sc 0xD4; uk_sc 0xD5; uk_sc 0xD6; uk_sc 0xD7;
  uk_sc 0xD8; uk_sc 0xD9; uk_sc 0xDA; uk_sc 0xDB;
  uk_sc 0xDC; uk_sc 0xDD; uk_sc 0xDE; uk_sc 0xDF;
  uk_sc 0xE0; uk_sc 0xE1; uk_sc 0xE2; uk_sc 0xE3;
  uk_sc 0xE4; uk_sc 0xE5; uk_sc 0xE6; uk_sc 0xE7;
  uk_sc 0xE8; uk_sc 0xE9; uk_sc 0xEA; uk_sc 0xEB;
  uk_sc 0xEC; uk_sc 0xED; uk_sc 0xEE; uk_sc 0xEF;
  s_up KC_BRB; uk_sc 0xF1; uk_sc 0xF2; uk_sc 0xF3;
  uk_sc 0xF4; uk_sc 0xF5; uk_sc 0xF6; uk_sc 0xF7;
  uk_sc 0xF8; uk_sc 0xF9; uk_sc 0xFA; uk_sc 0xFB;
  uk_sc 0xFC; uk_sc 0xFD; uk_sc 0xFE; uk_sc 0xFF
].
Definition pause_set1 : list Z := [0xE1; 0x1D; 0x45; 0xE1; 0x9D; 0xC5].
Definition pause_set2 : list Z := [0xE1; 0x14; 0x77; 0xE1; 0xF0; 0x14; 0xF0; 0x77].

(** ** Characters under shift *)
Definition case_diff : Z := 32.
Definition shift_char (value : Z) : Z :=
  if (ch "a" <=? value) && (value <=? ch "z") then value - case_diff
  else if (ch "A" <=? value) && (value <=? ch "Z") then value + case_diff
  else if value =? ch "," then ch "<" else if value =? ch "." then ch ">" else if value =? ch "/" then ch "?"
  else if value =? ch ";" then ch ":" else if value =? ch "'" then 34 else if value =? ch "[" then ch "{"
  else if value =? ch "]" then ch "}" else if value =? ch "\" then ch "|" else if value =? ch "`" then ch "~"
  else if value =? ch "1" then ch "!" else if value =? ch "2" then ch "@" else if value =? ch "3" then ch "#"
  else if value =? ch "4" then ch "$" else if value =? ch "5" then ch "%" else if value =? ch "6" then ch "^"
  else if value =? ch "7" then ch "&" else if value =? ch "8" then ch "*" else if value =? ch "9" then ch "("
  else if value =? ch "0" then ch ")" else if value =? ch "-" then ch "_" else if value =? ch "=" then ch "+"
  else value.
Definition shift_table : list Z := map (fun n => shift_char (Z.of_nat n)) (seq 0 127).
Definition numpad_shift (base : Z) : Z :=
  let c := u8 base in
  if c =? ch "0" then KC_INS else if c =? ch "1" then KC_END else if c =? ch "2" then KC_DOWN
  else if c =? ch "3" then KC_PG_DN else if c =? ch "4" then KC_LEFT else if c =? ch "6" then KC_RIGHT
  else if c =? ch "7" then KC_HOME else if c =? ch "8" then KC_UP else if c =? ch "9" then KC_PG_UP
  else if c =? ch "." then 127 else base.

End KbdTables.
