(* ===== verification/Keyboard.v ===== *)
(** The PS/2 keyboard: the scan code decoder, the command queue of the controller
    and the interrupt handler (kernel/drivers/keyboard.cpp).

    The decoder reads its bytes through the queue interface of QueueSpec, so its
    theorems hold for the circular queue the driver uses.  The device behind the
    PS/2 port is a parameter: [dev_write] sends a byte (it fails when the port
    stays busy, which throws), [dev_wait] waits for one. *)
From Stdlib Require Import Ascii.
From S2P Require Import Prelude QueueSpec CircQueue KbdTables.
Import KbdTables.

Module Keyboard.

Inductive keyboard_scanset := SC_SET1 | SC_SET2 | SC_SET3.
#[export] Instance keyboard_scanset_eq_dec : EqDecision keyboard_scanset.
Proof. solve_decision. Defined.

Definition base_scan_table (ss : keyboard_scanset) : list keyboard_event :=
  match ss with SC_SET2 => set2_base | SC_SET3 => set3_base | SC_SET1 => set1_base end.
Definition escape_table (ss : keyboard_scanset) : option (list keyboard_event) :=
  match ss with SC_SET3 => None | SC_SET2 => Some set2_escaped | SC_SET1 => Some set1_escaped end.
Definition pause_sequence (ss : keyboard_scanset) : option (list Z) :=
  match ss with SC_SET3 => None | SC_SET2 => Some pause_set2 | SC_SET1 => Some pause_set1 end.

(** ** The decoder *)
Record decoder := MkDecoder {
  scans : list keyboard_event;
  escaped_scans : option (list keyboard_event);
  pause_seq : option (list Z);
  current_state : Z;
  lock_state : Z;
}.
Definition new_decoder (ss : keyboard_scanset) : decoder :=
  MkDecoder (base_scan_table ss) (escape_table ss) (pause_sequence ss) 0 0.
Definition default_decoder : decoder := MkDecoder set2_base (Some set2_escaped) (Some pause_set2) 0 0.
Definition set_scanset (d : decoder) (ss : keyboard_scanset) : decoder :=
  MkDecoder (base_scan_table ss) (escape_table ss) (pause_sequence ss) (current_state d) (lock_state d).
Definition with_state (d : decoder) (cs ls : Z) : decoder :=
  MkDecoder (scans d) (escaped_scans d) (pause_seq d) cs ls.

Definition to_break (e : keyboard_event) : keyboard_event :=
  MkEvent (kv_code e) true (kv_numpad e) (kv_multiscan e) (kv_vstate e).

Definition compute_by_state (e : keyboard_event) (locks : Z) : outcome Z :=
  let value := kv_code e in
  let is_shift := vs_shift (kv_vstate e) in
  if kv_numpad e && (Z.testbit locks lk_num || is_shift) then Done (numpad_shift value)
  else
    let value' := if Z.testbit locks lk_caps && ((ch "a"%char <=? value) && (value <=? ch "z"%char)) then value - case_diff else value in
    if (value' <? 127) && is_shift then array_get shift_table value' else Done value'.

Section Decode.
Context {Q : Type} {ops : QueueOps Q Z}.

(** The loop of [__decode_one_seq] over the bytes expected after the first: the
    second received byte, and whether all matched. *)
Fixpoint seq_loop (expected : list Z) (i : nat) (second : Z) (rem : Q) : outcome (bool * Z * Q) :=
  match expected with
  | [] => Done (true, second, rem)
  | x :: expected' =>
      if qempty rem then Done (false, second, rem)
      else
        '(c, rem') ← qpop rem;
        let second' := if Nat.eqb i 2 then c else second in
        if negb (c =? x) then Done (false, second', rem')
        else seq_loop expected' (S i) second' rem'
  end.
Definition decode_one_seq (d : decoder) (seq_bookend : Z) (rem : Q) : outcome (keyboard_event * Q) :=
  match pause_seq d with
  | None => Done (uk_sc seq_bookend, rem)
  | Some seq =>
      p0 ← array_get seq 0;
      if negb (seq_bookend =? p0) || qempty rem then Done (uk_sc seq_bookend, rem)
      else
        first ← qpeek rem;
        '(matched, second, rem') ← seq_loop (tail seq) 1 0 rem;
        Done (if matched : bool then pause_packet else uk_seq first second, rem')
  end.

(** Every recursive call has taken a byte from the queue, so one step more than
    its length is enough. *)
Fixpoint decode_one (fuel : nat) (d : decoder) (scan : Z) (rem : Q) : outcome (keyboard_event * Q) :=
  match fuel with
  | O => NoFuel
  | S f =>
      e ← array_get (scans d) scan;
      if kv_code e =? KC_EXB then
        if qempty rem then Done (uk_sc scan, rem)
        else '(b, rem') ← qpop rem; decode_one_escaped f d b rem'
      else if kv_code e =? KC_SEQB then
        if qempty rem then Done (uk_sc scan, rem) else decode_one_seq d scan rem
      else if kv_code e =? KC_BRB then
        if qempty rem then Done (uk_sc scan, rem)
        else '(b, rem') ← qpop rem; '(r, rem'') ← decode_one f d b rem'; Done (to_break r, rem'')
      else Done (e, rem)
  end
with decode_one_escaped (fuel : nat) (d : decoder) (scan : Z) (rem : Q) : outcome (keyboard_event * Q) :=
  match fuel with
  | O => NoFuel
  | S f =>
      tbl ← or_undef (escaped_scans d);
      e0 ← array_get tbl scan;
      r ← (if kv_code e0 =? KC_BRB then
             if qempty rem then Done (inl (uk_ex scan, rem))
             else '(b, rem') ← qpop rem; '(r, rem'') ← decode_one_escaped f d b rem'; Done (inr (to_break r, rem''))
           else Done (inr (e0, rem)));
      match r with
      | inl ret => Done ret
      | inr (e, rem1) =>
          if kv_multiscan e then
            if qempty rem1 then Done (uk_ex scan, rem1)
            else
              next ← qpeek rem1;
              '(b, rem2) ← qpop rem1;
              '(g, rem3) ← decode_one f d b rem2;
              if negb (kv_code g =? kv_code e) || negb (Bool.eqb (kv_release g) (kv_release e))
              then Done (uk_seq scan next, rem3) else Done (e, rem3)
          else Done (e, rem1)
      end
  end.

Definition is_unknown (code : Z) : bool := Z.land (u8 (Z.shiftr code 16)) 0x0E =? 0x0E.
Definition toggle (locks : Z) (b : bool) (i : Z) : Z := if b then Z.lxor locks (Z.shiftl 1 i) else locks.
(** What [decode] does to the packet of a decoded sequence. *)
Definition apply_event (d : decoder) (e : keyboard_event) : outcome (keyboard_event * decoder) :=
  if is_unknown (kv_code e) then Done (e, d)
  else
    let mod_state := Z.lxor (current_state d) (kv_vstate e) in
    let locks :=
      if negb (kv_release e) then
        toggle (toggle (toggle (lock_state d) (kv_code e =? KC_CAPS) lk_caps) (kv_code e =? KC_NUM) lk_num)
          (kv_code e =? KC_SCRLL) lk_scroll
      else lock_state d in
    let e1 := MkEvent (kv_code e) (kv_release e) (kv_numpad e) (kv_multiscan e) (current_state d) in
    code ← compute_by_state e1 locks;
    Done (MkEvent code (kv_release e) (kv_numpad e) (kv_multiscan e) (current_state d), with_state d mod_state locks).
Definition decode (d : decoder) (scan_bytes : Q) : outcome (keyboard_event * decoder * Q) :=
  if qempty scan_bytes then Done (uk_sc 0, d, scan_bytes)
  else
    '(b, rem) ← qpop scan_bytes;
    '(e, rem') ← decode_one (S (qlen scan_bytes)) d b rem;
    '(e', d') ← apply_event d e;
    q' ← qflush rem';
    Done (e', d', q').
End Decode.
Arguments apply_event : simpl never.
Arguments is_unknown : simpl never.

(** ** The controller *)
Definition KBC_SET_LEDS : Z := 0xED.
Definition KBC_SCANSET : Z := 0xF0.
Definition KBC_TYPEMATIC : Z := 0xF3.
Definition KBC_SCEN : Z := 0xF4.
Definition KBC_SCDIS : Z := 0xF5.
Definition sig_keybd_ack : Z := 0xFA.
Record keyboard_command := MkCmd {
  has_sub : bool;
  expects_response : bool;
  cmd_byte : Z;
  sub : Z;
  response_out : Z;
}.

Section Controller.
Context {D : Type} (dev_write : D -> Z -> option D) (dev_wait : D -> option Z * D).
(** The port: the device and the bytes sent to it. *)
Record port := MkPort { device : D; sent : list Z }.

(** [__send_cmd_byte]: [false] stands for a thrown exception.  The loop gives up
    after the fourth attempt. *)
Fixpoint send_loop (fuel : nat) (attempts : Z) (b : Z) (p : port) : bool * port :=
  match fuel with
  | O => (false, p)
  | S f =>
      match dev_write (device p) b with
      | None => (false, p)
      | Some dv =>
          let '(r, dv') := dev_wait dv in
          let p' := MkPort dv' (sent p ++ [b]) in
          match r with
          | None => (false, p')
          | Some resp =>
              if 3 <? attempts + 1 then (false, p')
              else if resp =? sig_keybd_ack then (true, p') else send_loop f (attempts + 1) b p'
          end
      end
  end.
Definition send_cmd_byte (b : Z) (p : port) : bool * port := send_loop 4 0 b p.

(** [__execute_next] on command [cmd]: the byte stored through [response_out],
    if any is stored. *)
Definition execute_cmd (cmd : keyboard_command) (p : port) : option Z * port :=
  let failed (p : port) := (if negb (response_out cmd =? 0) then Some 0xFF else None, p) in
  let '(ok1, p1) := if expects_response cmd then send_cmd_byte KBC_SCDIS p else (true, p) in
  if negb ok1 then failed p1
  else
    let '(ok2, p2) := send_cmd_byte (cmd_byte cmd) p1 in
    if negb ok2 then failed p2
    else if expects_response cmd then
      let '(resp, p3) :=
        if negb (response_out cmd =? 0) then
          let '(r, dv) := dev_wait (device p2) in
          (Some (match r with Some v => v | None => 0xFF end), MkPort dv (sent p2))
        else (None, p2) in
      let '(ok3, p4) := send_cmd_byte KBC_SCEN p3 in
      if negb ok3 then failed p4 else (resp, p4)
    else (None, p2).
End Controller.
Arguments MkPort {D} device sent.
Arguments device {D} p.
Arguments sent {D} p.

(** The commands queued by the driver. *)
Record controller (C : Type) := MkController { cmd_queue : C; scanset : keyboard_scanset; typematic : Z; state_valid : bool }.
Arguments MkController {C} cmd_queue scanset typematic state_valid.
Arguments cmd_queue {C} c.
Arguments scanset {C} c.
Arguments typematic {C} c.
Arguments state_valid {C} c.

Section Commands.
Context {C : Type} {cops : QueueOps C keyboard_command}.
Definition enqueue_command (k : controller C) (cmd : keyboard_command) : outcome (bool * controller C) :=
  if negb (state_valid k) then Done (false, k)
  else q ← qpush (cmd_queue k) cmd; Done (true, MkController q (scanset k) (typematic k) (state_valid k)).
Definition request_scanset (k : controller C) (value : keyboard_scanset) : outcome (bool * controller C) :=
  if decide (scanset k = value) then Done (true, k)
  else enqueue_command k (MkCmd true false KBC_SCANSET (match value with SC_SET1 => 1 | SC_SET2 => 2 | SC_SET3 => 3 end) 0).
Definition request_typematic (k : controller C) (value : Z) : outcome (bool * controller C) :=
  if value =? typematic k then Done (true, k)
  else enqueue_command k (MkCmd true false KBC_TYPEMATIC value 0).
Definition set_leds (k : controller C) (lstate : Z) : outcome (bool * controller C) :=
  enqueue_command k (MkCmd true false KBC_SET_LEDS lstate 0).

Context {Q : Type} {qops : QueueOps Q Z}.
Record keyboard := MkKeyboard { ctl : controller C; dec : decoder; input_queue : Q }.
Fixpoint push_all (q : Q) (bytes : list Z) : outcome Q :=
  match bytes with [] => Done q | b :: bs => q' ← qpush q b; push_all q' bs end.
(** [__on_irq] when [bytes] are waiting at the port: the event delivered to the
    listeners. *)
Definition on_irq (k : keyboard) (bytes : list Z) : outcome (option keyboard_event * keyboard) :=
  q ← push_all (input_queue k) bytes;
  if qempty q then Done (None, MkKeyboard (ctl k) (dec k) q)
  else
    '(e, d', q') ← decode (dec k) q;
    c ← (if negb (lock_state d' =? lock_state (dec k)) then '(_, c) ← set_leds (ctl k) (lock_state d'); Done c else Done (ctl k));
    Done (Some e, MkKeyboard c d' q').
End Commands.

End Keyboard.
