(* ===== verification/KeyboardProps.v ===== *)
(** Correctness of the keyboard decoder: it always returns, it does not depend on
    how the byte queue is implemented, and the scan code tables are consistent. *)
From Stdlib Require Import Ascii.
From S2P Require Import Prelude QueueSpec CircQueue KbdTables Keyboard.
Import KbdTables Keyboard.

Module KeyboardProps.

(** Perform the steps of a run whose results are known. *)
Ltac run := cbn beta iota delta [mbind outcome_bind].

(** ** The decoder on a queue is the decoder on its contents *)
Section Sim.
Context {Q : Type} {ops : QueueOps Q Z} {laws : QueueLaws Q Z}.

Definition sim {X} (r : outcome (X * Q)) (s : outcome (X * list Z)) : Prop :=
  match s with
  | Done (x, l) => exists q, r = Done (x, q) /\ qok q /\ qcontents q = l
  | Undef => r = Undef
  | NoFuel => r = NoFuel
  end.

Lemma sim_bind {X Y} (r : outcome (X * Q)) s (f : X -> Q -> outcome (Y * Q)) g :
  sim r s -> (forall x q, qok q -> sim (f x q) (g x (qcontents q))) ->
  sim ('(x, q) ← r; f x q) ('(x, l) ← s; g x l).
Proof.
  unfold sim at 1. destruct s as [[x l]| |]; [|by intros ->..].
  intros (q & -> & Hq & <-) Hf. simpl. by apply Hf.
Qed.
Lemma sim_ret {X} (x : X) q : qok q -> sim (Done (x, q)) (Done (x, qcontents q)).
Proof. intros. exists q. done. Qed.
(** What [__decode_one_escaped] does with the packet it found. *)
Definition multiscan_tail {Q'} {ops' : QueueOps Q' Z} (f : nat) (d : decoder) (s : Z) (e : keyboard_event) (q1 : Q') : outcome (keyboard_event * Q') :=
  if kv_multiscan e then
    if qempty q1 then Done (uk_ex s, q1)
    else
      next ← qpeek q1; '(b, rem2) ← qpop q1; '(g, rem3) ← decode_one f d b rem2;
      if negb (kv_code g =? kv_code e) || negb (Bool.eqb (kv_release g) (kv_release e))
      then Done (uk_seq s next, rem3) else Done (e, rem3)
  else Done (e, q1).

Lemma seq_loop_sim expected i second q : qok q -> sim (seq_loop expected i second q) (seq_loop expected i second (qcontents q)).
Proof.
  revert i second q. induction expected as [|x ex IH]; intros i second q Hq; simpl; [by apply (sim_ret (true, second))|].
  rewrite (qempty_law q Hq). destruct (qcontents q) as [|b l] eqn:E; [rewrite <- E; by apply (sim_ret (false, second))|].
  destruct (qpop_law q b l Hq E) as (q' & -> & Hq' & <-). simpl.
  destruct (negb (b =? x)); [by apply (sim_ret (false, _))|by apply IH].
Qed.
Lemma decode_one_seq_sim d s q : qok q -> sim (decode_one_seq d s q) (decode_one_seq d s (qcontents q)).
Proof.
  intros Hq. unfold decode_one_seq. destruct (pause_seq d) as [seq|]; [|by apply sim_ret].
  destruct (array_get seq 0) as [p0| |]; simpl; [|done..]. rewrite (qempty_law q Hq).
  destruct (qcontents q) as [|b l] eqn:E; [rewrite orb_true_r, <- E; by apply sim_ret|]. rewrite orb_false_r.
  destruct (negb (s =? p0)); [rewrite <- E; by apply sim_ret|].
  rewrite (qpeek_law q b l Hq E). simpl. rewrite <- E.
  pose proof (seq_loop_sim (tail seq) 1 0 q Hq) as Hs. unfold sim in Hs |- *.
  destruct (seq_loop (tail seq) 1 0 (qcontents q)) as [[[m sec] l']| |]; simpl; [|by rewrite Hs..].
  destruct Hs as (q' & -> & ? & ?). simpl. by exists q'.
Qed.

Lemma decode_one_sim fuel d :
  (forall s q, qok q -> sim (decode_one fuel d s q) (decode_one fuel d s (qcontents q))) /\
  (forall s q, qok q -> sim (decode_one_escaped fuel d s q) (decode_one_escaped fuel d s (qcontents q))).
Proof.
  induction fuel as [|f [IH1 IH2]]; [done|]. split; intros s q Hq; simpl.
  - destruct (array_get (scans d) s) as [e| |]; simpl; [|done..]. rewrite (qempty_law q Hq).
    destruct (qcontents q) as [|b l] eqn:E.
    { destruct (kv_code e =? KC_EXB), (kv_code e =? KC_SEQB), (kv_code e =? KC_BRB); rewrite <- E; by apply sim_ret. }
    destruct (qpop_law q b l Hq E) as (q' & Hpop & Hq' & Hl).
    destruct (kv_code e =? KC_EXB); [rewrite Hpop; simpl; rewrite <- Hl; by apply IH2|].
    destruct (kv_code e =? KC_SEQB); [rewrite <- E; by apply decode_one_seq_sim|].
    destruct (kv_code e =? KC_BRB); [|rewrite <- E; by apply sim_ret].
    rewrite Hpop. simpl. rewrite <- Hl. apply sim_bind; [by apply IH1|]. intros r q'' Hq''. by apply sim_ret.
  - destruct (escaped_scans d) as [tbl|]; simpl; [|done]. destruct (array_get tbl s) as [e0| |]; simpl; [|done..].
    rewrite (qempty_law q Hq).
    assert (Hcont : forall e q1, qok q1 -> sim (multiscan_tail f d s e q1) (multiscan_tail f d s e (qcontents q1))).
    { intros e q1 Hq1. unfold multiscan_tail. destruct (kv_multiscan e); [|by apply sim_ret]. rewrite (qempty_law q1 Hq1). simpl.
      destruct (qcontents q1) as [|b l] eqn:E1; [rewrite <- E1; by apply sim_ret|]. rewrite (qpeek_law q1 b l Hq1 E1). simpl.
      destruct (qpop_law q1 b l Hq1 E1) as (q2 & -> & Hq2 & <-). simpl. apply sim_bind; [by apply IH1|].
      intros g q3 Hq3. case_match; by apply sim_ret. }
    destruct (kv_code e0 =? KC_BRB); simpl; [|by apply Hcont].
    destruct (qcontents q) as [|b l] eqn:E1; simpl; [rewrite <- E1; by apply sim_ret|].
    destruct (qpop_law q b l Hq E1) as (q2 & -> & Hq2 & <-). simpl.
    pose proof (IH2 b q2 Hq2) as Hs. unfold sim in Hs at 1. destruct (decode_one_escaped f d b (qcontents q2)) as [[r l']| |]; simpl.
    + destruct Hs as (q3 & -> & Hq3 & <-). simpl. by apply (Hcont (to_break r)).
    + by rewrite Hs.
    + by rewrite Hs.
Qed.

(** The results of the decoder on a queue and on the list of its contents. *)
Lemma decode_sim d q :
  qok q ->
  match decode d (qcontents q) with
  | Done (e, d', l) => exists q', decode d q = Done (e, d', q') /\ qok q' /\ qcontents q' = l
  | Undef => decode d q = Undef
  | NoFuel => decode d q = NoFuel
  end.
Proof.
  intros Hq. unfold decode. rewrite (qempty_law q Hq), (qlen_law q Hq).
  change (qlen (qcontents q)) with (length (qcontents q)). remember (S (length (qcontents q))) as fuel eqn:Hf. clear Hf.
  change (qempty (qcontents q)) with (match qcontents q with [] => true | _ => false end).
  change (qpop (qcontents q)) with (match qcontents q with x :: l => Done (x, l) | [] => Undef end).
  destruct (qcontents q) as [|b l] eqn:E; [by exists q|].
  destruct (qpop_law q b l Hq E) as (q' & -> & Hq' & <-). run.
  pose proof (proj1 (decode_one_sim fuel d) b q' Hq') as Hs. unfold sim in Hs.
  destruct (decode_one fuel d b (qcontents q')) as [[e l']| |]; run; [|by rewrite Hs..].
  destruct Hs as (q2 & -> & Hq2 & <-). run. destruct (apply_event d e) as [[e' d']| |]; run; [|done..].
  destruct (qflush_law q2 Hq2) as (q3 & -> & Hq3 & Hc3). run. by exists q3.
Qed.
End Sim.

(** ** The tables *)
Definition tables_of (d : decoder) (ss : keyboard_scanset) : Prop :=
  scans d = base_scan_table ss /\ escaped_scans d = escape_table ss /\ pause_seq d = pause_sequence ss.
Definition good (e : keyboard_event) : Prop := 0 <= kv_code e.
Definition goodb (e : keyboard_event) : bool := 0 <=? kv_code e.

Lemma forallb_entry (P : keyboard_event -> bool) t i e :
  forallb P t = true -> array_get t i = Done e -> P e = true.
Proof.
  intros Hf [_ Hi]%array_get_Done. rewrite forallb_forall in Hf. apply Hf.
  apply list_elem_of_In. by eapply list_elem_of_lookup_2.
Qed.
Lemma tables_good ss : forallb goodb (base_scan_table ss) = true /\
  match escape_table ss with Some t => forallb goodb t = true | None => True end.
Proof. destruct ss; split; vm_compute; done. Qed.
Lemma tables_length ss : length (base_scan_table ss) = 256%nat /\
  match escape_table ss with Some t => length t = 256%nat | None => True end.
Proof. destruct ss; split; vm_compute; done. Qed.
(** Set 3, which has no escape table, has no escape byte either. *)
Lemma no_escape_byte ss : escape_table ss = None -> forallb (fun e => negb (kv_code e =? KC_EXB)) (base_scan_table ss) = true.
Proof. by destruct ss. Qed.

Lemma uk_good s : 0 <= s -> good (uk_sc s) /\ good (uk_ex s).
Proof. intros. unfold good, uk_sc, uk_ex. simpl. split; apply Z.lor_nonneg; done. Qed.
Lemma uk_seq_good a b : 0 <= a -> 0 <= b -> good (uk_seq a b).
Proof. intros. unfold good, uk_seq. simpl. apply Z.lor_nonneg. split; [done|]. apply Z.add_nonneg_nonneg; [done|]. by apply Z.shiftl_nonneg. Qed.

(** ** The decoder returns *)
Lemma seq_loop_total expected i second (l : list Z) :
  0 <= second -> Forall is_u8 l ->
  exists m s l', seq_loop expected i second l = Done (m, s, l') /\ 0 <= s /\ (length l' <= length l)%nat /\ Forall is_u8 l'.
Proof.
  revert i second l. induction expected as [|x ex IH]; intros i second l Hs Hl; simpl; [eauto 10|].
  destruct l as [|b l]; simpl; [eauto 10|]. apply Forall_cons in Hl as [Hb Hl].
  assert (0 <= (if Nat.eqb i 2 then b else second)) by (destruct Hb; by destruct (Nat.eqb i 2)).
  destruct (negb (b =? x)); [eexists _, _, l; split_and!; eauto; lia|].
  destruct (IH (S i) (if Nat.eqb i 2 then b else second) l) as (m & s & l' & -> & ? & ? & ?); auto.
  exists m, s, l'. split_and!; auto; lia.
Qed.

Definition returns (r : outcome (keyboard_event * list Z)) (n : nat) : Prop :=
  exists e l', r = Done (e, l') /\ good e /\ (length l' <= n)%nat /\ Forall is_u8 l'.

Lemma decode_one_total fuel d ss :
  tables_of d ss ->
  (forall s l, is_u8 s -> Forall is_u8 l -> (length l < fuel)%nat -> returns (decode_one fuel d s l) (length l)) /\
  (forall s l, is_u8 s -> Forall is_u8 l -> (length l < fuel)%nat -> escape_table ss <> None ->
     returns (decode_one_escaped fuel d s l) (length l)).
Proof.
  intros (Hsc & Hes & Hps). destruct (tables_good ss) as [Hg1 Hg2]. destruct (tables_length ss) as [Hn1 Hn2].
  assert (Hret : forall e l, good e -> Forall is_u8 l -> returns (Done (e, l)) (length l)) by (intros; eexists _, _; eauto).
  assert (Hle : forall r m n, returns r m -> (m <= n)%nat -> returns r n).
  { intros r m n (e & l' & ? & ? & ? & ?) ?. exists e, l'. split_and!; auto. lia. }
  induction fuel as [|f [IH1 IH2]]; [split; intros; lia|]. split; intros s l [Hs0 Hs1] Hl Hf; simpl.
  - destruct (array_get_is_Done (base_scan_table ss) s) as [e He]; [rewrite Hn1; lia|]. rewrite Hsc, He. simpl.
    pose proof (forallb_entry goodb _ _ _ Hg1 He) as Hge. apply Z.leb_le in Hge.
    destruct (kv_code e =? KC_EXB) eqn:Eexb.
    { destruct l as [|b l]; simpl; [by apply Hret; [apply uk_good|]|]. apply Forall_cons in Hl as [Hb Hl]. simpl in Hf.
      eapply Hle; [apply IH2; auto; [lia|]|simpl; lia]. intros Hnone.
      pose proof (forallb_entry _ _ _ _ (no_escape_byte ss Hnone) He) as Hx. simpl in Hx. by rewrite Eexb in Hx. }
    destruct (kv_code e =? KC_SEQB).
    { destruct l as [|b l]; simpl; [by apply Hret; [apply uk_good|]|]. unfold decode_one_seq. rewrite Hps.
      destruct (pause_sequence ss) as [seq|] eqn:Epause; [|by apply Hret; [apply uk_good|]].
      assert (exists p0 rest, seq = p0 :: rest) as (p0 & rest & ->) by (destruct ss; simplify_eq/=; eauto).
      simpl. rewrite orb_false_r. destruct (negb (s =? p0)); [by apply Hret; [apply uk_good|]|].
      destruct (seq_loop_total rest 1 0 (b :: l)) as (m & sec & l' & Hrun & ? & ? & ?); [lia|done|].
      rewrite Hrun. simpl. eexists _, l'. split; [done|]. split; [|done].
      destruct m; [done|]. apply Forall_cons in Hl as [[? ?] _]. by apply uk_seq_good. }
    destruct (kv_code e =? KC_BRB); [|by apply Hret].
    destruct l as [|b l]; simpl; [by apply Hret; [apply uk_good|]|]. apply Forall_cons in Hl as [Hb Hl]. simpl in Hf.
    destruct (IH1 b l Hb Hl ltac:(lia)) as (r & l' & -> & ? & ? & ?). simpl. eexists _, l'. split_and!; eauto; simpl; lia.
  - intros Hesc. rewrite Hes. destruct (escape_table ss) as [tbl|]; [|done]. simpl.
    destruct (array_get_is_Done tbl s) as [e0 He]; [rewrite Hn2; lia|]. rewrite He. simpl.
    pose proof (forallb_entry goodb _ _ _ Hg2 He) as Hge. apply Z.leb_le in Hge.
    assert (Hcont : forall e (l1 : list Z), good e -> Forall is_u8 l1 -> (length l1 < S f)%nat ->
      returns (multiscan_tail f d s e l1) (length l1)).
    { intros e l1 He1 Hl1 Hf1. unfold multiscan_tail. destruct (kv_multiscan e); [|by apply Hret].
      destruct l1 as [|b l1]; simpl; [by apply Hret; [apply uk_good|]|]. apply Forall_cons in Hl1 as [Hb Hl1]. simpl in Hf1.
      destruct (IH1 b l1 Hb Hl1 ltac:(lia)) as (g & l' & -> & ? & ? & ?). simpl. destruct Hb.
      case_match; (eexists _, l'; split; [done|]; split; [by apply uk_seq_good || done|]; split; [simpl; lia|done]). }
    destruct (kv_code e0 =? KC_BRB); simpl; [|by apply Hcont].
    destruct l as [|b l]; simpl; [by apply Hret; [apply uk_good|]|]. apply Forall_cons in Hl as [Hb Hl]. simpl in Hf.
    destruct (IH2 b l Hb Hl ltac:(lia) ltac:(done)) as (r & l' & -> & ? & ? & ?). simpl.
    eapply Hle; [apply (Hcont (to_break r) l'); auto; lia|simpl; lia].
Qed.

Lemma compute_by_state_total e locks : good e -> exists c, compute_by_state e locks = Done c.
Proof.
  unfold good, compute_by_state. intros He. destruct (kv_numpad e && _); [eauto|].
  set (v := if Z.testbit locks lk_caps && _ then _ else _).
  assert (0 <= v) as Hv.
  { unfold v, case_diff. change (ch "a"%char) with 97. destruct (Z.testbit locks lk_caps); simpl; [|done]. case_cmp; simpl; lia. }
  destruct (Z.ltb_spec v 127); simpl; [|eauto]. destruct (vs_shift _); [|eauto].
  apply array_get_is_Done. change (length shift_table) with 127%nat. lia.
Qed.

Lemma apply_event_total d e ss :
  tables_of d ss -> good e -> exists e' d', apply_event d e = Done (e', d') /\ tables_of d' ss.
Proof.
  intros Ht He. unfold apply_event. destruct (is_unknown (kv_code e)); [eauto|].
  edestruct (compute_by_state_total (MkEvent (kv_code e) (kv_release e) (kv_numpad e) (kv_multiscan e) (current_state d))) as [c ->]; [done|].
  simpl. eauto.
Qed.

Lemma decode_list_total d ss (l : list Z) :
  tables_of d ss -> Forall is_u8 l -> l <> [] -> exists e d', decode d l = Done (e, d', []) /\ tables_of d' ss.
Proof.
  intros Ht Hl Hne. unfold decode. destruct l as [|b l]; [done|]. apply Forall_cons in Hl as [Hb Hl]. remember (S (qlen (b :: l))) as fuel.
  change (qpop (b :: l)) with (Done (b, l)). change (qempty (b :: l)) with false. run.
  destruct (proj1 (decode_one_total fuel d ss Ht) b l Hb Hl) as (e & l' & -> & He & _); [subst; simpl; lia|]. run.
  destruct (apply_event_total d e ss Ht He) as (e' & d' & -> & Ht'). run. by exists e', d'.
Qed.

(** ** Press and release *)
Lemma decode_one_state fuel d cs ls :
  (forall s (l : list Z), decode_one fuel (with_state d cs ls) s l = decode_one fuel d s l) /\
  (forall s (l : list Z), decode_one_escaped fuel (with_state d cs ls) s l = decode_one_escaped fuel d s l).
Proof.
  induction fuel as [|f [IH1 IH2]]; [done|]. split; intros s l; simpl.
  - destruct (array_get (scans d) s) as [e| |]; simpl; [|done..].
    destruct (kv_code e =? KC_EXB); [destruct l; simpl; [done|apply IH2]|].
    destruct (kv_code e =? KC_SEQB); [done|]. destruct (kv_code e =? KC_BRB); [|done]. destruct l; simpl; [done|by rewrite IH1].
  - destruct (escaped_scans d) as [tbl|]; simpl; [|done]. destruct (array_get tbl s) as [e0| |]; simpl; [|done..].
    assert (forall e (l1 : list Z), multiscan_tail f (with_state d cs ls) s e l1 = multiscan_tail f d s e l1) as Hm.
    { intros e l1. unfold multiscan_tail. destruct (kv_multiscan e); [|done]. destruct l1; simpl; [done|by rewrite IH1]. }
    destruct (kv_code e0 =? KC_BRB); simpl; [|apply Hm]. destruct l as [|b l]; simpl; [done|]. rewrite IH2.
    destruct (decode_one_escaped f d b l) as [[r l']| |]; simpl; [|done..]. apply (Hm (to_break r)).
Qed.

(** The make and break sequences of the key with scan code [b] in the base
    table, or in the escape table when [ext]. *)
Definition make_bytes (ext : bool) (b : Z) : list Z := if ext then [0xE0; b] else [b].
Definition break_bytes (ss : keyboard_scanset) (ext : bool) (b : Z) : list Z :=
  match ss with
  | SC_SET1 => if ext then [0xE0; b + 0x80] else [b + 0x80]
  | SC_SET2 => if ext then [0xE0; 0xF0; b] else [0xF0; b]
  | SC_SET3 => [0xF0; b]
  end.
(** The packets of the single keys: not an unknown scan, an escape byte or part
    of a longer sequence. *)
Definition single_key (e : keyboard_event) : bool :=
  negb (is_unknown (kv_code e)) && negb (kv_multiscan e) && negb (kv_code e =? KC_EXB) && negb (kv_code e =? KC_SEQB) && negb (kv_code e =? KC_BRB).
Definition key (ss : keyboard_scanset) (ext : bool) (b : Z) : option keyboard_event :=
  t ← (if ext then escape_table ss else Some (base_scan_table ss));
  e ← t !! Z.to_nat b;
  if single_key e && (0 <=? b) && (b <? (if decide (ss = SC_SET1) then 128 else 256)) then Some e else None.

Definition plain_mods (e : keyboard_event) : bool :=
  ((kv_vstate e =? 0) && negb (kv_code e =? KC_CAPS) && negb (kv_code e =? KC_NUM) && negb (kv_code e =? KC_SCRLL)) ||
  ((127 <=? kv_code e) && negb (kv_numpad e)).
(** The packet of a sequence, before the modifiers are applied. *)
Definition packet (d : decoder) (l : list Z) : outcome (keyboard_event * list Z) :=
  match l with [] => Undef | b :: l' => decode_one (S (length l)) d b l' end.
Definition key_checks (ss : keyboard_scanset) (ext : bool) (n : nat) : bool :=
  match key ss ext (Z.of_nat n) with
  | None => true
  | Some e =>
      plain_mods e && negb (kv_release e) && (0 <=? kv_code e) &&
      bool_decide (packet (new_decoder ss) (make_bytes ext (Z.of_nat n)) = Done (e, [])) &&
      bool_decide (packet (new_decoder ss) (break_bytes ss ext (Z.of_nat n)) = Done (to_break e, []))
  end.
Lemma keys_checked ss ext : forallb (key_checks ss ext) (seq 0 256) = true.
Proof. destruct ss, ext; vm_compute; reflexivity. Qed.

Lemma packet_state d ss l : tables_of d ss -> packet d l = packet (new_decoder ss) l.
Proof.
  intros (H1 & H2 & H3). destruct l as [|b l]; [done|]. unfold packet.
  rewrite <- (proj1 (decode_one_state (S (length (b :: l))) (new_decoder ss) (current_state d) (lock_state d))).
  f_equal. destruct d; simpl in *. unfold with_state, new_decoder. simpl. congruence.
Qed.

Lemma key_ok ss ext b e :
  key ss ext b = Some e ->
  is_unknown (kv_code e) = false /\ plain_mods e = true /\ kv_release e = false /\ 0 <= kv_code e /\
  (forall d, tables_of d ss -> packet d (make_bytes ext b) = Done (e, []) /\ packet d (break_bytes ss ext b) = Done (to_break e, [])).
Proof.
  intros Hk. assert (0 <= b < 256 /\ is_unknown (kv_code e) = false) as [Hb Hu].
  { unfold key in Hk. apply bind_Some in Hk as (t & _ & Hk). apply bind_Some in Hk as (e' & _ & Hk).
    destruct (single_key e' && _ && _) eqn:E; [|discriminate Hk]. injection Hk as ->. apply andb_true_iff in E as [E E2]. apply andb_true_iff in E as [E E1].
    unfold single_key in E. repeat (apply andb_true_iff in E as [E ?]). split; [|by apply negb_true_iff].
    destruct (decide (ss = SC_SET1)); blia. }
  split; [done|]. pose proof (keys_checked ss ext) as Hc. rewrite forallb_forall in Hc. specialize (Hc (Z.to_nat b)).
  unfold key_checks in Hc. rewrite Z2Nat.id, Hk in Hc by lia.
  assert (In (Z.to_nat b) (seq 0 256)) as Hin by (apply in_seq; lia). specialize (Hc Hin).
  apply andb_true_iff in Hc as [Hc H5%bool_decide_eq_true]. apply andb_true_iff in Hc as [Hc H4%bool_decide_eq_true].
  apply andb_true_iff in Hc as [Hc H3%Z.leb_le]. apply andb_true_iff in Hc as [H1 H2%negb_true_iff].
  split; [exact H1|]. split; [exact H2|]. split; [exact H3|]. intros d Ht. rewrite !(packet_state d ss _ Ht). split; assumption.
Qed.

Lemma decode_packet d l e : packet d l = Done (e, []) -> decode d l = ('(e', d') ← apply_event d e; Done (e', d', [])).
Proof.
  unfold packet, decode. destruct l as [|b l]; [done|]. change (qlen (b :: l)) with (length (b :: l)).
  change (qpop (b :: l)) with (Done (b, l)). change (qempty (b :: l)) with false. run. by intros ->.
Qed.

(** The code of a key does not depend on the state its own press leaves. *)
Lemma compute_same e cs cs' ls ls' :
  0 <= kv_code e -> (127 <= kv_code e /\ kv_numpad e = false) \/ (cs = cs' /\ ls = ls') ->
  forall r r', compute_by_state (MkEvent (kv_code e) r (kv_numpad e) (kv_multiscan e) cs) ls =
  compute_by_state (MkEvent (kv_code e) r' (kv_numpad e) (kv_multiscan e) cs') ls'.
Proof.
  intros H0 [[H1 H2]|[-> ->]] r r'; [|done]. unfold compute_by_state. simpl. rewrite H2. simpl.
  change (ch "a"%char) with 97. change (ch "z"%char) with 122.
  destruct (Z.leb_spec (kv_code e) 122); [lia|]. rewrite !andb_false_r. by destruct (Z.ltb_spec (kv_code e) 127); [lia|].
Qed.

Lemma press_release d ss ext b e :
  tables_of d ss -> key ss ext b = Some e ->
  exists code d1, decode d (make_bytes ext b) = Done (MkEvent code false (kv_numpad e) (kv_multiscan e) (current_state d), d1, []) /\
  current_state d1 = Z.lxor (current_state d) (kv_vstate e) /\ tables_of d1 ss /\
  exists d2, decode d1 (break_bytes ss ext b) = Done (MkEvent code true (kv_numpad e) (kv_multiscan e) (current_state d1), d2, []) /\
    tables_of d2 ss /\ current_state d2 = current_state d /\ lock_state d2 = lock_state d1.
Proof.
  intros Ht Hk. destruct (key_ok ss ext b e Hk) as (Hu & Hp & Hr & H0 & Hpk). destruct (Hpk d Ht) as [Hm _].
  rewrite (decode_packet d _ e Hm). unfold apply_event at 1. rewrite Hu, Hr. simpl negb. cbv iota.
  set (ls := toggle _ _ lk_scroll).
  edestruct (compute_by_state_total (MkEvent (kv_code e) false (kv_numpad e) (kv_multiscan e) (current_state d)) ls) as [code Hcode]; [done|].
  rewrite Hcode. run. eexists code, _. split; [reflexivity|]. split; [reflexivity|].
  set (d1 := with_state d _ ls). assert (tables_of d1 ss) as Ht1 by done. split; [done|].
  destruct (Hpk d1 Ht1) as [_ Hb]. rewrite (decode_packet d1 _ _ Hb). unfold apply_event. simpl kv_code. rewrite Hu. simpl.
  assert (compute_by_state (MkEvent (kv_code e) true (kv_numpad e) (kv_multiscan e) (current_state d1)) (lock_state d1) = Done code) as Hc2.
  { rewrite <- Hcode. symmetry. apply (compute_same e); [done|]. unfold plain_mods in Hp. apply orb_true_iff in Hp as [Hp|Hp].
    - right. repeat (apply andb_true_iff in Hp as [Hp ?]). apply Z.eqb_eq in Hp. subst d1. simpl. rewrite Hp, Z.lxor_0_r.
      split; [done|]. done.
    - left. apply andb_true_iff in Hp as [? ?%negb_true_iff]. split; [blia|done]. }
  simpl in Hc2. rewrite Hc2. run. eexists. split; [reflexivity|]. split; [done|]. simpl.
  split; [|done]. by rewrite Z.lxor_assoc, Z.lxor_nilpotent, Z.lxor_0_r.
Qed.

Lemma send_loop_bytes {D} (w : D -> Z -> option D) r fuel a b p :
  exists n, sent (snd (send_loop w r fuel a b p)) = sent p ++ replicate n b.
Proof.
  revert a p. induction fuel as [|f IH]; intros a p; simpl; [by exists 0%nat; rewrite app_nil_r|].
  destruct (w (device p) b) as [dv|]; [|by exists 0%nat; rewrite app_nil_r]. destruct (r dv) as [[resp|] dv']; simpl; [|by exists 1%nat].
  destruct (3 <? a + 1); [by exists 1%nat|]. destruct (resp =? sig_keybd_ack); [by exists 1%nat|].
  destruct (IH (a + 1) (MkPort dv' (sent p ++ [b]))) as [n Hn]. exists (S n). rewrite Hn. simpl. by rewrite <- app_assoc.
Qed.

(** ** Properties *)
Section Claims.
Context {Q : Type} {ops : QueueOps Q Z} {laws : QueueLaws Q Z}.

(** C39: The decoder always returns an event for a non-empty queue of bytes, in
    every scan code set: every table access is within its table, set 3 never
    reaches the escape table it does not have, and the recursion ends.  It
    leaves the queue empty. *)
Theorem decode_total d ss (q : Q) :
  tables_of d ss -> qok q -> Forall is_u8 (qcontents q) -> qcontents q <> [] ->
  exists e d' q', decode d q = Done (e, d', q') /\ qok q' /\ qcontents q' = [] /\ tables_of d' ss.
Proof.
  intros Ht Hq Hb Hne. destruct (decode_list_total d ss _ Ht Hb Hne) as (e & d' & E & Ht').
  pose proof (decode_sim d q Hq) as Hs. rewrite E in Hs. destruct Hs as (q' & ? & ? & ?). by exists e, d', q'.
Qed.

(** Pressing and releasing a key, in any scan code set and any keyboard state:
    the press is reported as a make event and the release as a break event of the
    same key code, each with the modifier state before it, and the release
    restores the modifiers. *)
Theorem press_release_events d ss ext b e (q1 q2 : Q) :
  tables_of d ss -> key ss ext b = Some e -> qok q1 -> qok q2 ->
  qcontents q1 = make_bytes ext b -> qcontents q2 = break_bytes ss ext b ->
  exists code d1 d2 q1' q2',
    decode d q1 = Done (MkEvent code false (kv_numpad e) (kv_multiscan e) (current_state d), d1, q1') /\
    decode d1 q2 = Done (MkEvent code true (kv_numpad e) (kv_multiscan e) (current_state d1), d2, q2') /\
    current_state d1 = Z.lxor (current_state d) (kv_vstate e) /\
    current_state d2 = current_state d /\ lock_state d2 = lock_state d1.
Proof.
  intros Ht Hk Hq1 Hq2 E1 E2. destruct (press_release d ss ext b e Ht Hk) as (code & d1 & H1 & Hs & Ht1 & d2 & H2 & _ & H3 & H4).
  pose proof (decode_sim d q1 Hq1) as S1. rewrite E1, H1 in S1. destruct S1 as (q1' & R1 & _).
  pose proof (decode_sim d1 q2 Hq2) as S2. rewrite E2, H2 in S2. destruct S2 as (q2' & R2 & _).
  by exists code, d1, d2, q1', q2'.
Qed.
End Claims.

Lemma decode_total_witness :
  exists e d' q', @decode _ (CircQueue.circ_ops 0 0) default_decoder (CircQueue.MkBuf true [0x74; 0; 0; 0xE0] 3 1) = Done (e, d', q') /\
    @qok _ _ _ (CircQueue.circ_laws 0 0) q' /\ @qcontents _ _ _ (CircQueue.circ_laws 0 0) q' = [] /\ tables_of d' SC_SET2.
Proof.
  apply (@decode_total _ _ (CircQueue.circ_laws 0 0) default_decoder SC_SET2).
  - split_and!; reflexivity.
  - vm_compute. split; [lia|reflexivity].
  - simpl. repeat constructor; vm_compute; congruence.
  - simpl. discriminate.
Defined.
Lemma press_release_events_witness :
  exists code d1 d2 q1' q2',
    decode default_decoder (make_bytes true 0x14) = Done (MkEvent code false false false 0, d1, q1') /\
    decode d1 (break_bytes SC_SET2 true 0x14) = Done (MkEvent code true false false (current_state d1), d2, q2') /\
    current_state d1 = Z.lxor 0 16 /\ current_state d2 = 0 /\ lock_state d2 = lock_state d1.
Proof.
  apply (press_release_events default_decoder SC_SET2 true 0x14 (s_dn KC_RCTRL) (make_bytes true 0x14) (break_bytes SC_SET2 true 0x14));
    [split_and!; reflexivity|vm_compute; reflexivity|exact I|exact I|reflexivity|reflexivity].
Defined.

(** A letter is reported in upper case exactly when one of shift and caps lock
    is on, and not both. *)
Theorem letter_case v r m cs locks :
  ch "a"%char <= v <= ch "z"%char ->
  compute_by_state (MkEvent v r false m cs) locks =
  Done (if xorb (vs_shift cs) (Z.testbit locks lk_caps) then v - case_diff else v).
Proof.
  intros Hv. assert (exists n, (n < 26)%nat /\ v = 97 + Z.of_nat n) as (n & Hn & ->).
  { exists (Z.to_nat (v - 97)). change (ch "a"%char) with 97 in Hv. change (ch "z"%char) with 122 in Hv. lia. }
  unfold compute_by_state. simpl kv_numpad. simpl kv_code. simpl kv_vstate. cbv beta iota delta [andb].
  destruct (vs_shift cs), (Z.testbit locks lk_caps); do 26 (destruct n as [|n]; [reflexivity|]); lia.
Qed.
Lemma letter_case_witness :
  compute_by_state (MkEvent 103 false false false 2) 4 = Done (if xorb (vs_shift 2) (Z.testbit 4 lk_caps) then 103 - case_diff else 103).
Proof. apply (letter_case 103 false false 2 4). vm_compute. split; discriminate. Defined.

(** In every base and escape table, a scan code that stands for no key maps to
    the placeholder that carries this very scan code; the exceptions are codes
    0x04, 0x05, 0x06 and 0x38 of set 3, which carry another code, and 0x19 of the
    escape table of set 2, which has the placeholder of the base table. *)
Theorem unknown_entries_carry_scan ss n e :
  (base_scan_table ss !! n = Some e -> is_unknown (kv_code e) = true ->
     (e = uk_sc (Z.of_nat n) <-> ~ (ss = SC_SET3 /\ n ∈ [4; 5; 6; 0x38]%nat))) /\
  (forall t, escape_table ss = Some t -> t !! n = Some e -> is_unknown (kv_code e) = true ->
     (e = uk_ex (Z.of_nat n) <-> ~ (ss = SC_SET2 /\ n = 0x19%nat))).
Proof.
  split.
  - intros Hn Hu. assert (forallb (fun i => match base_scan_table ss !! i with
      | Some e => negb (is_unknown (kv_code e)) || Bool.eqb (bool_decide (e = uk_sc (Z.of_nat i))) (bool_decide (~ (ss = SC_SET3 /\ i ∈ [4; 5; 6; 0x38]%nat)))
      | None => true end) (seq 0 256) = true) as Hc by (destruct ss; vm_compute; reflexivity).
    rewrite forallb_forall in Hc. specialize (Hc n). rewrite Hn, Hu in Hc. simpl in Hc.
    assert (In n (seq 0 256)) as Hin by (apply lookup_lt_Some in Hn; rewrite (proj1 (tables_length ss)) in Hn; apply in_seq; lia).
    specialize (Hc Hin). apply Bool.eqb_prop in Hc. split; intros H; [apply (bool_decide_eq_true_2 _) in H; rewrite Hc in H|apply (bool_decide_eq_true_2 _) in H; rewrite <- Hc in H];
      by apply bool_decide_eq_true_1 in H.
  - intros t Ht Hn Hu. assert (forallb (fun i => match t !! i with
      | Some e => negb (is_unknown (kv_code e)) || Bool.eqb (bool_decide (e = uk_ex (Z.of_nat i))) (bool_decide (~ (ss = SC_SET2 /\ i = 0x19%nat)))
      | None => true end) (seq 0 256) = true) as Hc by (destruct ss; injection Ht as <- || discriminate Ht; vm_compute; reflexivity).
    rewrite forallb_forall in Hc. specialize (Hc n). rewrite Hn, Hu in Hc. simpl in Hc.
    assert (In n (seq 0 256)) as Hin by (apply lookup_lt_Some in Hn; pose proof (proj2 (tables_length ss)) as Hl; rewrite Ht in Hl; rewrite Hl in Hn; apply in_seq; lia).
    specialize (Hc Hin). apply Bool.eqb_prop in Hc. split; intros H; [apply (bool_decide_eq_true_2 _) in H; rewrite Hc in H|apply (bool_decide_eq_true_2 _) in H; rewrite <- Hc in H];
      by apply bool_decide_eq_true_1 in H.
Qed.
Lemma unknown_entries_carry_scan_witness :
  (uk_sc 0x28 = uk_sc 0x38 <-> ~ (SC_SET3 = SC_SET3 /\ 0x38%nat ∈ [4; 5; 6; 0x38]%nat)).
Proof. apply (unknown_entries_carry_scan SC_SET3 0x38%nat (uk_sc 0x28)); vm_compute; reflexivity. Defined.

(** The Pause sequences of sets 1 and 2 are recognised.  The Print Screen
    sequences are not: the second half of each sequence is itself marked as the
    start of a longer one, so press and release are reported as an unknown
    sequence. *)
Theorem pause_yes_print_screen_no :
  (forall d, tables_of d SC_SET1 -> packet d pause_set1 = Done (pause_packet, [])) /\
  (forall d, tables_of d SC_SET2 -> packet d pause_set2 = Done (pause_packet, [])) /\
  (forall d, tables_of d SC_SET1 ->
    packet d [0xE0; 0x2A; 0xE0; 0x37] = Done (uk_seq 0x2A 0xE0, []) /\ packet d [0xE0; 0xB7; 0xE0; 0xAA] = Done (uk_seq 0xB7 0xE0, [])) /\
  (forall d, tables_of d SC_SET2 ->
    packet d [0xE0; 0x12; 0xE0; 0x7C] = Done (uk_seq 0x12 0xE0, []) /\
    packet d [0xE0; 0xF0; 0x7C; 0xE0; 0xF0; 0x12] = Done (to_break (uk_seq 0x7C 0xE0), [])).
Proof.
  split; [|split; [|split]]; intros d Ht; rewrite ?(packet_state d _ _ Ht); repeat split; vm_compute; reflexivity.
Qed.

(** Modifier keys are toggled by every make code: while a shift key is held,
    the repeated make codes of the keyboard switch the modifier off and on. *)
Theorem repeated_make_toggles d ss ext b e :
  tables_of d ss -> key ss ext b = Some e ->
  exists e1 d1 e2 d2, decode d (make_bytes ext b) = Done (e1, d1, []) /\ decode d1 (make_bytes ext b) = Done (e2, d2, []) /\
    current_state d1 = Z.lxor (current_state d) (kv_vstate e) /\ current_state d2 = current_state d.
Proof.
  intros Ht Hk. destruct (press_release d ss ext b e Ht Hk) as (c1 & d1 & H1 & Hs1 & Ht1 & _).
  destruct (press_release d1 ss ext b e Ht1 Hk) as (c2 & d2 & H2 & Hs2 & _).
  eexists _, d1, _, d2. split; [exact H1|]. split; [exact H2|]. split; [done|].
  by rewrite Hs2, Hs1, Z.lxor_assoc, Z.lxor_nilpotent, Z.lxor_0_r.
Qed.
Lemma repeated_make_toggles_witness :
  exists e1 d1 e2 d2, decode default_decoder (make_bytes false 0x12) = Done (e1, d1, []) /\ decode d1 (make_bytes false 0x12) = Done (e2, d2, []) /\
    current_state d1 = Z.lxor 0 2 /\ current_state d2 = 0.
Proof. apply (repeated_make_toggles default_decoder SC_SET2 false 0x12 (s_dn KC_LSHFT)); [split_and!; reflexivity|vm_compute; reflexivity]. Defined.

(** Executing a command sends the command byte, and the bytes that disable and
    enable scanning around a command with a response, but never the
    subcommand byte: whatever the device answers, only those bytes are sent. *)
Theorem subcommand_never_sent {D} (w : D -> Z -> option D) r cmd p b :
  b ∈ drop (length (sent p)) (sent (snd (execute_cmd w r cmd p))) -> b = cmd_byte cmd \/ b = KBC_SCDIS \/ b = KBC_SCEN.
Proof.
  set (allowed := fun l : list Z => Forall (fun x => x = cmd_byte cmd \/ x = KBC_SCDIS \/ x = KBC_SCEN) l).
  assert (Hsend : forall c p0, c = cmd_byte cmd \/ c = KBC_SCDIS \/ c = KBC_SCEN ->
    exists l, sent (snd (send_cmd_byte w r c p0)) = sent p0 ++ l /\ allowed l).
  { intros c p0 Hc. destruct (send_loop_bytes w r 4 0 c p0) as [n Hn]. exists (replicate n c). split; [exact Hn|]. by apply Forall_replicate. }
  assert (exists l, sent (snd (execute_cmd w r cmd p)) = sent p ++ l /\ allowed l) as (l & -> & Hl);
    [|rewrite drop_app_length; intros Hb; by apply (proj1 (Forall_forall _ _) Hl b Hb)].
  unfold execute_cmd.
  assert (exists l1, sent (snd (if expects_response cmd then send_cmd_byte w r KBC_SCDIS p else (true, p))) = sent p ++ l1 /\ allowed l1) as (l1 & H1 & A1).
  { destruct (expects_response cmd); [apply Hsend; auto|]. exists []. split; [by rewrite app_nil_r|constructor]. }
  destruct (if expects_response cmd then send_cmd_byte w r KBC_SCDIS p else (true, p)) as [ok1 p1]. simpl in H1.
  destruct ok1; simpl; [|by exists l1]. destruct (Hsend (cmd_byte cmd) p1 ltac:(by left)) as (l2 & H2 & A2).
  destruct (send_cmd_byte w r (cmd_byte cmd) p1) as [ok2 p2]. simpl in H2. rewrite H1, <- app_assoc in H2.
  destruct ok2; simpl; [|exists (l1 ++ l2); split; [done|by apply Forall_app]].
  destruct (expects_response cmd); simpl; [|exists (l1 ++ l2); split; [done|by apply Forall_app]].
  assert (Hfin : forall resp p3, sent p3 = sent p2 -> exists l, sent (snd (let '(ok3, p4) := send_cmd_byte w r KBC_SCEN p3 in
      if negb ok3 then (if negb (response_out cmd =? 0) then Some 0xFF else None, p4) else (resp : option Z, p4))) = sent p ++ l /\ allowed l).
  { intros resp p3 E3. destruct (Hsend KBC_SCEN p3 ltac:(by right; right)) as (l3 & H3 & A3). destruct (send_cmd_byte w r KBC_SCEN p3) as [ok3 p4].
    simpl in H3. exists ((l1 ++ l2) ++ l3). rewrite E3, H2 in H3. split; [destruct ok3; simpl; rewrite H3; by rewrite <- !app_assoc|].
    apply Forall_app. split; [by apply Forall_app|done]. }
  destruct (negb (response_out cmd =? 0)); [|by apply Hfin]. destruct (r (device p2)) as [rv dv]. by apply Hfin.
Qed.
Lemma subcommand_never_sent_witness :
  KBC_SET_LEDS = cmd_byte (MkCmd true false KBC_SET_LEDS 4 0) \/ KBC_SET_LEDS = KBC_SCDIS \/ KBC_SET_LEDS = KBC_SCEN.
Proof.
  apply (subcommand_never_sent (fun (d : nat) _ => Some d) (fun d => (Some sig_keybd_ack, d)) (MkCmd true false KBC_SET_LEDS 4 0) (MkPort 0%nat []) KBC_SET_LEDS).
  vm_compute. left.
Defined.

End KeyboardProps.
