(* ===== verification/Paging.v ===== *)
(** Page tables (kernel/mm/kernel_mm.cpp, the static functions from [__find_table]
    to [__unmap_pages], and the address structures of kernel_defs.h).

    The memory that holds page tables is a map from a table's address and an
    index to an entry; [tables] are the addresses at which tables were
    allocated, and reading an entry elsewhere is undefined.  Memory is identity
    mapped for the kernel, so the physical address in an entry is the address of
    the table it refers to.  The tables are allocated through the interface
    [PtAllocator]; [fresh_supply] says of a state of the allocator that it hands out only tables
    that are not in use, and PtAllocProps.v shows it of the kernel heap.
    Flushing the translation buffer does not touch this state. *)
From S2P Require Import Prelude.

Module Paging.

Definition PAGESIZE : Z := 0x1000.
Record pt_entry := MkPte {
  present : bool;
  write : bool;
  user_access : bool;
  write_thru : bool;
  cache_disable : bool;
  global : bool;
  physical_address : Z;
  execute_disable : bool;
}.
#[export] Instance pt_entry_eq_dec : EqDecision pt_entry.
Proof. solve_decision. Defined.
Definition zero_entry : pt_entry := MkPte false false false false false false 0 false.
Definition set_tree_flags (e : pt_entry) (wt : bool) : pt_entry :=
  MkPte (present e) (write e) true wt (cache_disable e) (global e) (physical_address e) (execute_disable e).
(** The address an entry refers to. *)
Definition child (e : pt_entry) : Z := Z.shiftl (physical_address e) 12.

(** The fields of [addr_t]: [idx 0] is [page_idx], [idx 1] [pd_idx], [idx 2]
    [pdp_idx] and [idx 3] [pml4_idx]. *)
Definition offset (v : Z) : Z := Z.land v 0xFFF.
Definition idx (n : nat) (v : Z) : Z := Z.land (Z.shiftr v (12 + 9 * Z.of_nat n)) 0x1FF.
Definition page_idx (v : Z) : Z := idx 0 v.

(** ** The allocator interface *)
Class PtAllocator (A : Type) : Type := alloc_pt : A -> outcome (Z * A).
(** From the state [a] on, when the tables [T] are in use, the next [m] allocations each give
    no table or one that is not in use, at a page boundary. *)
Fixpoint supplies {A : Type} {alloc : PtAllocator A} (m : nat) (a : A) (T : gset Z) : Prop :=
  match m with
  | O => True
  | S m => exists t a', alloc_pt a = Done (t, a') /\
      ((t = 0 /\ supplies m a' T) \/ (t ∉ T /\ t mod PAGESIZE = 0 /\ 0 < t < 2 ^ 48 /\ supplies m a' ({[t]} ∪ T)))
  end.
Definition fresh_supply {A : Type} {alloc : PtAllocator A} (a : A) (T : gset Z) : Prop := forall m, supplies m a T.
Lemma fresh_supply_step {A : Type} {alloc : PtAllocator A} (a : A) T : fresh_supply a T ->
  exists t a', alloc_pt a = Done (t, a') /\
    ((t = 0 /\ fresh_supply a' T) \/ (t ∉ T /\ t mod PAGESIZE = 0 /\ 0 < t < 2 ^ 48 /\ fresh_supply a' ({[t]} ∪ T))).
Proof.
  intros H. destruct (H 1%nat) as (t & a' & E & Ht). exists t, a'. split; [done|].
  assert (forall m, (t = 0 /\ supplies m a' T) \/ (t ∉ T /\ t mod PAGESIZE = 0 /\ 0 < t < 2 ^ 48 /\ supplies m a' ({[t]} ∪ T))) as Hm.
  { intros m. destruct (H (S m)) as (t2 & a2 & E2 & H2). rewrite E in E2. by simplify_eq. }
  destruct Ht as [[-> _]|(Hn & Hp & Hr & _)].
  - left. split; [done|]. intros m. destruct (Hm m) as [[_ ?]|(_ & _ & ? & _)]; [done|lia].
  - right. split_and!; [done|done|lia|lia|]. intros m. destruct (Hm m) as [[-> _]|(_ & _ & _ & ?)]; [lia|done].
Qed.

Section Tables.
Context {A : Type} {alloc : PtAllocator A}.

Record ptmem := MkPt { tables : gset Z; entries : gmap (Z * Z) pt_entry; pool : A }.
Definition ent (st : ptmem) (t i : Z) : pt_entry := default zero_entry (entries st !! (t, i)).
Definition read_entry (st : ptmem) (t i : Z) : outcome pt_entry :=
  if decide (t ∈ tables st) then Done (ent st t i) else Undef.
Definition write_entry (st : ptmem) (t i : Z) (e : pt_entry) : outcome ptmem :=
  if decide (t ∈ tables st) then Done (MkPt (tables st) (<[(t, i) := e]> (entries st)) (pool st)) else Undef.

(** [__find_table]: 0 is the null pointer. *)
Fixpoint find_from (n : nat) (st : ptmem) (t v : Z) : outcome Z :=
  match n with
  | O => Done t
  | S m => e ← read_entry st t (idx n v); if present e then find_from m st (child e) v else Done 0
  end.
Definition find_table (st : ptmem) (of_page pml4 : Z) : outcome Z := find_from 3 st pml4 of_page.

(** A new table is page aligned and zeroed by the allocator. *)
Definition add_table (st : ptmem) (t : Z) (a : A) : ptmem :=
  MkPt ({[t]} ∪ tables st) (filter (fun '((t', _), _) => t' <> t) (entries st)) a.
Definition new_branch (result : Z) (wt : bool) : pt_entry :=
  MkPte true true true wt false false (wrap 36 (Z.shiftr result 12)) false.
Definition build_new_pt (st : ptmem) (t i : Z) (wt : bool) : outcome (Z * ptmem) :=
  '(result, a) ← alloc_pt (pool st);
  if result =? 0 then Done (0, MkPt (tables st) (entries st) a)
  else st' ← write_entry (add_table st result a) t i (new_branch result wt); Done (result, st').

(** [__get_table]: walks down, giving each present entry on the way the flags of
    the request, and builds the missing tables. *)
Fixpoint build_from (n : nat) (st : ptmem) (t v : Z) (wt : bool) : outcome (Z * ptmem) :=
  match n with
  | O => Done (t, st)
  | S m =>
      '(c, st1) ← build_new_pt st t (idx n v) wt;
      if c =? 0 then Done (0, st1) else build_from m st1 c v wt
  end.
Fixpoint get_from (n : nat) (st : ptmem) (t v : Z) (wt : bool) : outcome (Z * ptmem) :=
  match n with
  | O => Done (t, st)
  | S m =>
      e ← read_entry st t (idx n v);
      if present e then
        st1 ← write_entry st t (idx n v) (set_tree_flags e wt);
        get_from m st1 (child e) v wt
      else build_from n st t v wt
  end.
Definition get_table (st : ptmem) (of_page : Z) (wt : bool) (pml4 : Z) : outcome (Z * ptmem) :=
  get_from 3 st pml4 of_page wt.

(** The loop the mapping functions share: [f i curr old] is the entry to
    construct for page [i], or none when the old one is kept. *)
Fixpoint map_loop (n : nat) (f : Z -> Z -> pt_entry -> option pt_entry) (st : ptmem) (i curr pt : Z) (wt : bool) (pml4 : Z) : outcome (bool * ptmem) :=
  match n with
  | O => Done (true, st)
  | S n' =>
      let px := page_idx curr in
      '(pt1, st1) ← (if negb (i =? 0) && (px =? 0) then get_table st curr wt pml4 else Done (pt, st));
      if pt1 =? 0 then Done (false, st1)
      else
        e ← read_entry st1 pt1 px;
        st2 ← (match f i curr e with Some e' => write_entry st1 pt1 px e' | None => Done st1 end);
        map_loop n' f st2 (i + 1) (u64 (curr + PAGESIZE)) pt1 wt pml4
  end.
Definition map_pages (f : Z -> Z -> pt_entry -> option pt_entry) (st : ptmem) (start : Z) (pages : nat) (wt : bool) (pml4 : Z) : outcome (Z * ptmem) :=
  '(pt, st1) ← get_table st start wt pml4;
  if pt =? 0 then Done (0, st1)
  else '(ok, st2) ← map_loop pages f st1 0 start pt wt pml4; Done (if ok : bool then start else 0, st2).

Definition frame (a : Z) : Z := wrap 36 (Z.shiftr a 12).
Definition kernel_entry (gl : bool) (i curr : Z) (e : pt_entry) : option pt_entry :=
  if present e && (global e || (physical_address e =? Z.shiftr curr 12)) then None
  else Some (MkPte true true false false false gl (frame curr) false).
Definition mmio_entry (i curr : Z) (e : pt_entry) : option pt_entry :=
  Some (MkPte true true false true false true (frame curr) false).
Definition uncached_entry (i curr : Z) (e : pt_entry) : option pt_entry :=
  Some (MkPte true true false false true true (frame curr) false).
Definition user_entry (start_paddr : Z) (w x : bool) (i curr : Z) (e : pt_entry) : option pt_entry :=
  Some (MkPte true w true false false false (frame (u64 (start_paddr + i * PAGESIZE))) (negb x)).

Definition map_kernel_pages (st : ptmem) (start : Z) (pages : nat) (gl : bool) (root : Z) : outcome (Z * ptmem) :=
  if start =? 0 then Done (0, st) else map_pages (kernel_entry gl) st start pages false root.
Definition map_mmio_pages (st : ptmem) (start : Z) (pages : nat) (root : Z) : outcome (Z * ptmem) :=
  if start =? 0 then Done (0, st) else map_pages mmio_entry st start pages true root.
Definition map_uncached_mmio_pages (st : ptmem) (start : Z) (pages : nat) (root : Z) : outcome (Z * ptmem) :=
  if start =? 0 then Done (0, st) else map_pages uncached_entry st start pages true root.
Definition map_user_pages (st : ptmem) (start_vaddr start_paddr : Z) (pages : nat) (pml4 : Z) (w x : bool) : outcome (Z * ptmem) :=
  if negb (start_vaddr =? 0) && negb (start_paddr =? 0) && negb (Nat.eqb pages 0) && negb (pml4 =? 0)
  then map_pages (user_entry start_paddr w x) st start_vaddr pages false pml4
  else Done (0, st).

Fixpoint unmap_loop (n : nat) (st : ptmem) (curr pt pml4 : Z) : outcome ptmem :=
  match n with
  | O => Done st
  | S n' =>
      pt1 ← (if (pt =? 0) || (page_idx curr =? 0) then find_table st curr pml4 else Done pt);
      st1 ← (if pt1 =? 0 then Done st
             else e ← read_entry st pt1 (page_idx curr);
                  if global e then Done st else write_entry st pt1 (page_idx curr) zero_entry);
      unmap_loop n' st1 (u64 (curr + PAGESIZE)) pt1 pml4
  end.
Definition unmap_pages (st : ptmem) (start : Z) (pages : nat) (pml4 : Z) : outcome ptmem :=
  if negb (start =? 0) && negb (Nat.eqb pages 0) then unmap_loop pages st start 0 pml4 else Done st.

Definition frame_translate (st : ptmem) (addr pml4 : Z) : outcome Z :=
  pt ← find_table st addr pml4;
  if pt =? 0 then Done 0
  else
    e ← read_entry st pt (page_idx addr);
    Done (if present e && negb (physical_address e =? 0) then Z.lor (Z.shiftl (physical_address e) 12) (offset addr) else 0).
(** [translate_vaddr] does not look at the present bit. *)
Definition translate_vaddr (st : ptmem) (addr root : Z) : outcome Z :=
  pt ← find_table st addr root;
  if pt =? 0 then Done 0
  else e ← read_entry st pt (page_idx addr); Done (Z.lor (Z.shiftl (physical_address e) 12) (offset addr)).

(** [copy_kernel_mappings]: copies the leaf entries of the kernel's pages into
    another address space; [is_sigtramp] tells the pages user code may enter. *)
Fixpoint copy_loop (n : nat) (is_sigtramp : Z -> bool) (st : ptmem) (i curr pt upt root target : Z) : outcome (bool * ptmem) :=
  match n with
  | O => Done (true, st)
  | S n' =>
      let px := page_idx curr in
      '(pts, st1) ← (if negb (i =? 0) && (px =? 0) then
           '(p, sa) ← get_table st curr true root; '(u, sb) ← get_table sa curr false target; Done ((p, u), sb)
         else Done ((pt, upt), st));
      let '(pt1, upt1) := pts in
      if (pt1 =? 0) || (upt1 =? 0) then Done (false, st1)
      else
        e ← read_entry st1 pt1 px;
        st2 ← write_entry st1 upt1 px
          (if is_sigtramp curr then MkPte (present e) (write e) true (write_thru e) (cache_disable e) (global e) (physical_address e) (execute_disable e) else e);
        copy_loop n' is_sigtramp st2 (i + 1) (u64 (curr + PAGESIZE)) pt1 upt1 root target
  end.
Definition copy_kernel_mappings (st : ptmem) (start : Z) (kernel_pages : nat) (is_sigtramp : Z -> bool) (root target : Z) : outcome (Z * ptmem) :=
  '(pt, st1) ← get_table st start false root;
  '(upt, st2) ← get_table st1 start false target;
  if (upt =? 0) || (pt =? 0) then Done (0, st2)
  else '(ok, st3) ← copy_loop kernel_pages is_sigtramp st2 0 start pt upt root target; Done (if ok : bool then start else 0, st3).

(** [__set_kernel_page_flags] over [n] pages from [addr]. *)
Fixpoint set_kernel_page_flags (n : nat) (is_readonly : Z -> bool) (st : ptmem) (addr pt root : Z) : outcome ptmem :=
  match n with
  | O => Done st
  | S n' =>
      pt1 ← (if (pt =? 0) || (page_idx addr =? 0) then find_table st addr root else Done pt);
      st1 ← (if pt1 =? 0 then Done st
             else e ← read_entry st pt1 (page_idx addr);
                  write_entry st pt1 (page_idx addr)
                    (MkPte (present e) (negb (is_readonly addr)) false (write_thru e) (cache_disable e) true (physical_address e) (execute_disable e)));
      set_kernel_page_flags n' is_readonly st1 (u64 (addr + PAGESIZE)) pt1 root
  end.
End Tables.
Arguments ptmem A : clear implicits.
Arguments MkPt {A} tables entries pool.

End Paging.
