(* ===== verification/PagingProps.v ===== *)
(** Page tables form a forest, and the mapping functions change exactly the
    translations they are asked to change.

    [tree] is the invariant: every table has a level (3 for a root, 0 for a table
    of pages), a present entry of an upper table refers to a table one level down,
    and no table is referred to twice.  [leaf] is the abstract view of an address
    space: the entry that governs an address, the zero entry where no table
    exists. *)
From S2P Require Import Prelude Paging.
Import Paging.

Module PagingProps.

Section Props.
Context {A : Type} {alloc : PtAllocator A}.
Implicit Types (st : ptmem A).

(** The walk of [__find_table] on the entries alone. *)
Fixpoint walk (n : nat) st (t v : Z) : option Z :=
  match n with
  | O => Some t
  | S m => if present (ent st t (idx n v)) then walk m st (child (ent st t (idx n v))) v else None
  end.
Definition leaf_from (n : nat) st (t v : Z) : pt_entry :=
  match walk n st t v with Some pt => ent st pt (page_idx v) | None => zero_entry end.
Definition leaf st (root v : Z) : pt_entry := leaf_from 3 st root v.

Record tree st (lvl : Z -> nat) : Prop := {
  t_pool : fresh_supply (pool st) (tables st);
  t_addr t : t ∈ tables st -> t mod PAGESIZE = 0 /\ 0 < t < 2 ^ 48;
  t_child t i : t ∈ tables st -> lvl t <> 0%nat -> present (ent st t i) = true ->
    child (ent st t i) ∈ tables st /\ lvl t = S (lvl (child (ent st t i)));
  t_once t i t' i' : t ∈ tables st -> t' ∈ tables st -> lvl t <> 0%nat -> lvl t' <> 0%nat ->
    present (ent st t i) = true -> present (ent st t' i') = true ->
    child (ent st t i) = child (ent st t' i') -> t = t' /\ i = i';
  t_root t i r : t ∈ tables st -> lvl t <> 0%nat -> present (ent st t i) = true -> lvl r = 3%nat -> child (ent st t i) <> r;
  t_keys t i : t ∉ tables st -> entries st !! (t, i) = None;
  t_lvl t : t ∈ tables st -> (lvl t <= 3)%nat;
}.

Lemma walk_table n st lvl t v pt :
  tree st lvl -> t ∈ tables st -> lvl t = n -> walk n st t v = Some pt -> pt ∈ tables st /\ lvl pt = 0%nat.
Proof.
  intros T. revert t. induction n as [|n IH]; intros t Ht Hl; simpl; [intros [= <-]; done|].
  destruct (present (ent st t (idx (S n) v))) eqn:Hp; [|done].
  destruct (t_child _ _ T t (idx (S n) v) Ht ltac:(lia) Hp) as [Hc Hlc]. apply IH; [done|lia].
Qed.

Lemma find_from_walk n st lvl t v :
  tree st lvl -> t ∈ tables st -> lvl t = n -> find_from n st t v = Done (default 0 (walk n st t v)).
Proof.
  intros T. revert t. induction n as [|n IH]; intros t Ht Hl; simpl; [done|].
  unfold read_entry. destruct (decide (t ∈ tables st)); [|done]. simpl.
  destruct (present (ent st t (idx (S n) v))) eqn:Hp; [|done].
  destruct (t_child _ _ T t (idx (S n) v) Ht ltac:(lia) Hp) as [Hc Hlc]. apply IH; [done|lia].
Qed.

(** Two walks that end in the same table started in the same table and took the
    same turns. *)
Fixpoint same_path (n : nat) (v w : Z) : Prop :=
  match n with O => True | S m => idx n v = idx n w /\ same_path m v w end.
Lemma walk_inj n st lvl t t' v w pt :
  tree st lvl -> t ∈ tables st -> t' ∈ tables st -> lvl t = n -> lvl t' = n ->
  walk n st t v = Some pt -> walk n st t' w = Some pt -> t = t' /\ same_path n v w.
Proof.
  intros T. revert t t'. induction n as [|n IH]; intros t t' Ht Ht' Hl Hl'; simpl; [intros [= <-] [= <-]; done|].
  destruct (present (ent st t (idx (S n) v))) eqn:Hp; [|done]. destruct (present (ent st t' (idx (S n) w))) eqn:Hp'; [|done].
  destruct (t_child _ _ T t (idx (S n) v) Ht ltac:(lia) Hp) as [Hc Hlc].
  destruct (t_child _ _ T t' (idx (S n) w) Ht' ltac:(lia) Hp') as [Hc' Hlc'].
  intros Hw Hw'. destruct (IH _ _ Hc Hc' ltac:(lia) ltac:(lia) Hw Hw') as [Heq Hsame].
  destruct (t_once _ _ T t (idx (S n) v) t' (idx (S n) w)) as [-> Hi]; auto; lia.
Qed.

Lemma leaf_from_entries n st st' t v : entries st' = entries st -> leaf_from n st' t v = leaf_from n st t v.
Proof.
  intros E. assert (forall t i, ent st' t i = ent st t i) as He by (intros; unfold ent; by rewrite E).
  unfold leaf_from. assert (walk n st' t v = walk n st t v) as ->.
  { revert t. induction n as [|n IH]; intros t; simpl; [done|]. rewrite He. by destruct (present _). }
  by destruct (walk n st t v).
Qed.

(** ** Atomic changes *)
Definition put st (t i : Z) (e : pt_entry) : ptmem A := MkPt (tables st) (<[(t, i) := e]> (entries st)) (pool st).
Lemma ent_put st t i e t' i' : ent (put st t i e) t' i' = if decide ((t, i) = (t', i')) then e else ent st t' i'.
Proof.
  unfold ent, put. simpl. destruct (decide ((t, i) = (t', i'))) as [E|E]; [rewrite E, lookup_insert_eq|rewrite lookup_insert_ne]; done.
Qed.
Lemma write_put st t i e : t ∈ tables st -> write_entry st t i e = Done (put st t i e).
Proof. intros. unfold write_entry. by destruct (decide _). Qed.
Lemma read_ent st t i : t ∈ tables st -> read_entry st t i = Done (ent st t i).
Proof. intros. unfold read_entry. by destruct (decide _). Qed.

(** A change that keeps the links of the upper tables keeps every walk. *)
Definition links_kept st st' (lvl : Z -> nat) : Prop :=
  tables st' = tables st /\ pool st' = pool st /\
  (forall t i, t ∉ tables st -> entries st' !! (t, i) = entries st !! (t, i)) /\
  forall t i, t ∈ tables st -> lvl t <> 0%nat ->
    present (ent st' t i) = present (ent st t i) /\ child (ent st' t i) = child (ent st t i).
Lemma links_kept_walk n st st' lvl t v :
  tree st lvl -> links_kept st st' lvl -> t ∈ tables st -> lvl t = n -> walk n st' t v = walk n st t v.
Proof.
  intros T (_ & _ & _ & Hk). revert t. induction n as [|n IH]; intros t Ht Hl; simpl; [done|].
  destruct (Hk t (idx (S n) v) Ht ltac:(lia)) as [-> ->]. destruct (present (ent st t (idx (S n) v))) eqn:Hp; [|done].
  destruct (t_child _ _ T t (idx (S n) v) Ht ltac:(lia) Hp) as [Hc Hlc]. apply IH; [done|lia].
Qed.
Lemma links_kept_tree st st' lvl : tree st lvl -> links_kept st st' lvl -> tree st' lvl.
Proof.
  intros [T1 T2 T3 T4 T5 T6 T7] (Ht & Hp & Hout & Hk). constructor; rewrite ?Ht, ?Hp; auto.
  - intros t i Hin Hl Hpr. destruct (Hk t i Hin Hl) as [E1 E2]. rewrite E2, E1 in *. auto.
  - intros t i t' i' Hin Hin' Hl Hl' Hpr Hpr'. destruct (Hk t i Hin Hl) as [E1 E2]. destruct (Hk t' i' Hin' Hl') as [E1' E2'].
    rewrite E2, E2', E1, E1' in *. auto.
  - intros t i r Hin Hl Hpr. destruct (Hk t i Hin Hl) as [E1 E2]. rewrite E2, E1 in *. auto.
  - intros t i Hin. rewrite Hout by done. auto.
Qed.

(** Setting the flags of a branch. *)
Lemma flags_kept st lvl t i wt : t ∈ tables st -> links_kept st (put st t i (set_tree_flags (ent st t i) wt)) lvl.
Proof.
  intros Ht. split; [done|]. split; [done|]. split.
  - intros t' i' Hn. simpl. rewrite lookup_insert_ne; [done|]. congruence.
  - intros t' i' _ _. rewrite ent_put. destruct (decide _) as [E|]; [|done]. injection E as <- <-. done.
Qed.
(** Writing a leaf entry. *)
Lemma leaf_kept st lvl t i e : t ∈ tables st -> lvl t = 0%nat -> links_kept st (put st t i e) lvl.
Proof.
  intros Ht Hl. split; [done|]. split; [done|]. split.
  - intros t' i' Hn. simpl. rewrite lookup_insert_ne; [done|]. congruence.
  - intros t' i' _ Hl'. rewrite ent_put. destruct (decide _) as [E|]; [|done]. injection E as <- <-. congruence.
Qed.

(** ** Adding a table *)
Lemma child_new c wt : c mod PAGESIZE = 0 -> 0 < c < 2 ^ 48 -> child (new_branch c wt) = c.
Proof.
  intros Hm Hc. unfold child, new_branch. simpl. unfold PAGESIZE in Hm. rewrite Z.shiftr_div_pow2, Z.shiftl_mul_pow2 by lia.
  rewrite wrap_small; [zlia|]. unfold in_range. split; [apply Z.div_pos; lia|]. apply Z.div_lt_upper_bound; lia.
Qed.
Definition grown st (t i c : Z) (wt : bool) (a : A) : ptmem A := put (add_table st c a) t i (new_branch c wt).
Lemma ent_grown st lvl t i c wt a t' i' :
  tree st lvl -> c ∉ tables st -> t ∈ tables st ->
  ent (grown st t i c wt a) t' i' = if decide ((t, i) = (t', i')) then new_branch c wt else ent st t' i'.
Proof.
  intros T Hc Ht. unfold grown. rewrite ent_put. destruct (decide _) as [|Hne]; [done|]. unfold ent, add_table. simpl.
  destruct (decide (t' = c)) as [->|Hn].
  - rewrite (t_keys _ _ T c i' Hc). rewrite map_lookup_filter_None_2; [done|]. right. intros x _ Hx. done.
  - f_equal. destruct (entries st !! (t', i')) eqn:E.
    + apply map_lookup_filter_Some_2; done.
    + apply map_lookup_filter_None_2. by left.
Qed.

Section Grow.
Context (st : ptmem A) (lvl : Z -> nat) (t i c : Z) (wt : bool) (a : A) (m : nat).
Context (T : tree st lvl) (Ht : t ∈ tables st) (Hl : lvl t = S m) (Hnp : present (ent st t i) = false).
Context (Hc : c ∉ tables st) (Hca : c mod PAGESIZE = 0) (Hcr : 0 < c < 2 ^ 48) (Hh : fresh_supply a ({[c]} ∪ tables st)).
Definition lvl' (x : Z) : nat := if decide (x = c) then m else lvl x.
Let st' := grown st t i c wt a.

Lemma new_table_empty i' : ent st c i' = zero_entry.
Proof. unfold ent. by rewrite (t_keys _ _ T c i' Hc). Qed.
Lemma lvl'_old x : x ∈ tables st -> lvl' x = lvl x.
Proof. intros Hx. unfold lvl'. destruct (decide (x = c)) as [->|]; done. Qed.
Lemma lvl'_new : lvl' c = m.
Proof. unfold lvl'. by destruct (decide _). Qed.
Lemma ent_st' t' i' : ent st' t' i' = if decide ((t, i) = (t', i')) then new_branch c wt else ent st t' i'.
Proof. by apply (ent_grown st lvl). Qed.

(** A present entry of the grown forest is the new branch or an old one. *)
Lemma grow_cases t' i' :
  t' ∈ tables st' -> lvl' t' <> 0%nat -> present (ent st' t' i') = true ->
  (t' = t /\ i' = i /\ child (ent st' t' i') = c) \/
  (t' ∈ tables st /\ lvl t' <> 0%nat /\ present (ent st t' i') = true /\ child (ent st' t' i') = child (ent st t' i') /\
   child (ent st t' i') ∈ tables st /\ lvl t' = S (lvl (child (ent st t' i'))) /\ (t', i') <> (t, i)).
Proof.
  intros Hin Hl' Hp. rewrite ent_st' in *. destruct (decide ((t, i) = (t', i'))) as [E|E].
  - injection E as <- <-. left. split; [done|]. split; [done|]. by apply child_new.
  - right. simpl in Hin. apply elem_of_union in Hin as [->%elem_of_singleton|Hin].
    + rewrite new_table_empty in Hp. done.
    + rewrite lvl'_old in Hl' by done. destruct (t_child _ _ T t' i' Hin Hl' Hp). split_and!; auto.
Qed.

Lemma grow_tree : (m < 3)%nat -> tree st' lvl'.
Proof.
  intros Hm. constructor; simpl.
  - exact Hh.
  - intros x [->%elem_of_singleton|Hx]%elem_of_union; [done|by apply (t_addr _ _ T)].
  - intros t' i' Hin Hl' Hp. destruct (grow_cases t' i' Hin Hl' Hp) as [(-> & -> & ->)|(Hin' & _ & _ & -> & Hch & Hlv & _)].
    + rewrite lvl'_new, lvl'_old by done. split; [set_solver|done].
    + rewrite !lvl'_old by done. split; [set_solver|done].
  - intros t1 i1 t2 i2 Hin1 Hin2 Hl1 Hl2 Hp1 Hp2 Heq.
    destruct (grow_cases t1 i1 Hin1 Hl1 Hp1) as [(-> & -> & E1)|(Hi1 & Hlv1 & Hpr1 & E1 & Hch1 & _)];
      destruct (grow_cases t2 i2 Hin2 Hl2 Hp2) as [(-> & -> & E2)|(Hi2 & Hlv2 & Hpr2 & E2 & Hch2 & _)]; try done.
    + exfalso. apply Hc. congruence.
    + exfalso. apply Hc. congruence.
    + apply (t_once _ _ T); auto; congruence.
  - intros t' i' r Hin Hl' Hp Hr. destruct (grow_cases t' i' Hin Hl' Hp) as [(_ & _ & ->)|(Hin' & Hlv & Hpr & -> & Hch & _)].
    + intros <-. rewrite lvl'_new in Hr. lia.
    + intros E. unfold lvl' in Hr. destruct (decide (r = c)) as [->|]; [apply Hc; congruence|].
      by apply (t_root _ _ T t' i' r).
  - intros x j Hx. destruct (decide ((t, i) = (x, j))) as [E|E]; [injection E as <- <-; set_solver|].
    rewrite lookup_insert_ne by done. apply map_lookup_filter_None_2. left. apply (t_keys _ _ T). set_solver.
  - intros x [->%elem_of_singleton|Hx]%elem_of_union; [rewrite lvl'_new; lia|rewrite lvl'_old by done; by apply (t_lvl _ _ T)].
Qed.

(** The translations do not change: the new table is empty. *)
Lemma walk_new n v : n = m -> walk n st' c v = match n with O => Some c | S _ => None end.
Proof.
  intros ->. destruct m as [|k]; [done|]. simpl. rewrite ent_st'. destruct (decide _) as [E|]; [injection E as -> _; done|].
  by rewrite new_table_empty.
Qed.
Lemma leaf_from_zero n v : n = m -> leaf_from n st' c v = zero_entry.
Proof.
  intros E. unfold leaf_from. rewrite walk_new by done. destruct n; [|done]. rewrite ent_st'.
  destruct (decide _) as [E'|]; [injection E' as -> _; done|]. apply new_table_empty.
Qed.
Lemma grow_leaf n r v : r ∈ tables st -> lvl r = n -> leaf_from n st' r v = leaf_from n st r v.
Proof.
  revert r. induction n as [|n IH]; intros r Hr Hlr.
  - unfold leaf_from. simpl. rewrite ent_st'. destruct (decide _) as [E|]; [injection E as -> _; lia|done].
  - unfold leaf_from. simpl. rewrite ent_st'. destruct (decide ((t, i) = (r, idx (S n) v))) as [E|E].
    + injection E as <- <-. rewrite Hnp. change (present (new_branch c wt)) with true. cbv iota. rewrite child_new by done.
      fold (leaf_from n st' c v). apply leaf_from_zero. lia.
    + destruct (present (ent st r (idx (S n) v))) eqn:Hp; [|done].
      destruct (t_child _ _ T r (idx (S n) v) Hr ltac:(lia) Hp) as [Hch Hlv]. apply IH; [done|lia].
Qed.
End Grow.

(** ** Descending *)
Record extends st (lvl : Z -> nat) st' (lvl2 : Z -> nat) : Prop := {
  ex_tree : tree st' lvl2;
  ex_sub : tables st ⊆ tables st';
  ex_lvl t : t ∈ tables st -> lvl2 t = lvl t;
  ex_links t i : t ∈ tables st -> lvl t <> 0%nat -> present (ent st t i) = true ->
    present (ent st' t i) = true /\ child (ent st' t i) = child (ent st t i);
  ex_leaf r v : r ∈ tables st -> leaf_from (lvl r) st' r v = leaf_from (lvl r) st r v;
}.
Lemma extends_refl st lvl : tree st lvl -> extends st lvl st lvl.
Proof. intros T. by constructor. Qed.
Lemma extends_trans st1 l1 st2 l2 st3 l3 : extends st1 l1 st2 l2 -> extends st2 l2 st3 l3 -> extends st1 l1 st3 l3.
Proof.
  intros [A1 A2 A3 A4 A5] [B1 B2 B3 B4 B5]. constructor; [done|set_solver|..].
  - intros t Ht. rewrite B3 by auto. auto.
  - intros t i Ht Hl Hp. destruct (A4 t i Ht Hl Hp) as [P1 C1]. rewrite <- C1. apply B4; auto. by rewrite A3.
  - intros r v Hr. rewrite <- A5 by done. rewrite <- (A3 r Hr). apply B5. auto.
Qed.
Lemma extends_walk n st lvl st' lvl2 t v pt :
  tree st lvl -> extends st lvl st' lvl2 -> t ∈ tables st -> lvl t = n -> walk n st t v = Some pt -> walk n st' t v = Some pt.
Proof.
  intros T E. revert t. induction n as [|n IH]; intros t Ht Hl; simpl; [done|].
  destruct (present (ent st t (idx (S n) v))) eqn:Hp; [|done].
  destruct (ex_links _ _ _ _ E t (idx (S n) v) Ht ltac:(lia) Hp) as [-> ->].
  destruct (t_child _ _ T t (idx (S n) v) Ht ltac:(lia) Hp) as [Hch Hlv]. apply IH; [done|lia].
Qed.
Lemma links_kept_extends st st' lvl :
  tree st lvl -> links_kept st st' lvl ->
  (forall t i, t ∈ tables st -> lvl t = 0%nat -> ent st' t i = ent st t i) -> extends st lvl st' lvl.
Proof.
  intros T Hk Hleaf. pose proof Hk as (Htab & _ & _ & Hl). constructor; auto.
  - by eapply links_kept_tree.
  - by rewrite Htab.
  - intros t i Ht Hlv Hp. destruct (Hl t i Ht Hlv) as [-> ->]. done.
  - intros r v Hr. unfold leaf_from. erewrite links_kept_walk by eauto.
    destruct (walk (lvl r) st r v) as [pt|] eqn:Hw; [|done].
    destruct (walk_table (lvl r) st lvl r v pt T Hr eq_refl Hw). by apply Hleaf.
Qed.
Lemma grow_extends st lvl t i c wt a m :
  tree st lvl -> t ∈ tables st -> lvl t = S m -> (m < 3)%nat -> present (ent st t i) = false -> c ∉ tables st ->
  c mod PAGESIZE = 0 -> 0 < c < 2 ^ 48 -> fresh_supply a ({[c]} ∪ tables st) ->
  extends st lvl (grown st t i c wt a) (lvl' lvl c m).
Proof.
  intros T Ht Hl Hm Hnp Hc Hca Hcr Hh. constructor.
  - by apply grow_tree.
  - simpl. set_solver.
  - intros x Hx. by apply (lvl'_old st lvl c m Hc).
  - intros x j Hx Hlv Hp. rewrite (ent_st' st lvl t i c wt a T Ht Hc). destruct (decide _) as [E|]; [|done].
    injection E as <- <-. congruence.
  - intros r v Hr. by eapply grow_leaf.
Qed.

Lemma build_from_ok n st lvl t v wt :
  tree st lvl -> t ∈ tables st -> lvl t = n -> (n <= 3)%nat -> (n <> 0%nat -> present (ent st t (idx n v)) = false) ->
  exists c st' lvl2, build_from n st t v wt = Done (c, st') /\ extends st lvl st' lvl2 /\ (c <> 0 -> walk n st' t v = Some c).
Proof.
  revert st lvl t. induction n as [|m IH]; intros st lvl t T Ht Hl Hn3 Hnp; simpl.
  - exists t, st, lvl. split; [done|]. split; [by apply extends_refl|done].
  - unfold build_new_pt. destruct (fresh_supply_step _ _ (t_pool _ _ T)) as (c & a & -> & [[-> Hh]|(Hc & Hca & Hcr & Hh)]); simpl.
    + exists 0, (MkPt (tables st) (entries st) a), lvl. split; [done|]. split; [|done].
      destruct T as [T1 T2 T3 T4 T5 T6 T7]. constructor; [by constructor|done|done|done|].
      intros r w _. by apply leaf_from_entries.
    + destruct (Z.eqb_spec c 0); [lia|]. rewrite write_put by (simpl; set_solver). simpl.
      destruct (Z.eqb_spec c 0); [lia|]. fold (grown st t (idx (S m) v) c wt a).
      pose proof (grow_extends st lvl t (idx (S m) v) c wt a m T Ht Hl ltac:(lia) (Hnp ltac:(done)) Hc Hca Hcr Hh) as Hex.
      destruct (IH (grown st t (idx (S m) v) c wt a) (lvl' lvl c m) c) as (c2 & st2 & lvl2 & -> & Hex2 & Hw2).
      * apply (ex_tree _ _ _ _ Hex).
      * simpl. set_solver.
      * apply (lvl'_new lvl c m).
      * lia.
      * intros _. rewrite (ent_st' st lvl t _ c wt a T Ht Hc). destruct (decide _) as [E|]; [injection E as -> _; done|].
        by rewrite (new_table_empty st lvl c T Hc).
      * exists c2, st2, lvl2. split; [done|]. split; [by eapply extends_trans|]. intros Hc2. specialize (Hw2 Hc2).
        destruct (ex_links _ _ _ _ Hex2 t (idx (S m) v)) as [Hp Hch].
        -- simpl. set_solver.
        -- rewrite (lvl'_old st lvl c m Hc) by done. lia.
        -- rewrite (ent_st' st lvl t _ c wt a T Ht Hc). by destruct (decide _).
        -- rewrite Hp, Hch, (ent_st' st lvl t _ c wt a T Ht Hc). destruct (decide _); [|done]. by rewrite child_new.
Qed.

Lemma get_from_ok n st lvl t v wt :
  tree st lvl -> t ∈ tables st -> lvl t = n -> (n <= 3)%nat ->
  exists c st' lvl2, get_from n st t v wt = Done (c, st') /\ extends st lvl st' lvl2 /\ (c <> 0 -> walk n st' t v = Some c).
Proof.
  revert st lvl t. induction n as [|m IH]; intros st lvl t T Ht Hl Hn3; simpl.
  - exists t, st, lvl. split; [done|]. split; [by apply extends_refl|done].
  - rewrite read_ent by done. simpl. destruct (present (ent st t (idx (S m) v))) eqn:Hp.
    + rewrite write_put by done. simpl. set (st1 := put st t (idx (S m) v) _).
      pose proof (flags_kept st lvl t (idx (S m) v) wt Ht) as Hk. fold st1 in Hk.
      assert (extends st lvl st1 lvl) as Hex.
      { apply links_kept_extends; auto. intros t' i' Ht' Hl'. unfold st1. rewrite ent_put.
        destruct (decide _) as [E|]; [injection E as -> _; lia|done]. }
      destruct (t_child _ _ T t (idx (S m) v) Ht ltac:(lia) Hp) as [Hc Hlc].
      destruct (IH st1 lvl (child (ent st t (idx (S m) v)))) as (c & st' & lvl2 & -> & Hex2 & Hw); [apply (ex_tree _ _ _ _ Hex)|done|lia|lia|].
      exists c, st', lvl2. split; [done|]. split; [by eapply extends_trans|]. intros Hc0.
      pose proof (extends_trans _ _ _ _ _ _ Hex Hex2) as Hx. destruct (ex_links _ _ _ _ Hx t (idx (S m) v) Ht ltac:(lia) Hp) as [-> ->]. by apply Hw.
    + by apply (build_from_ok (S m) st lvl t v wt).
Qed.

(** [__get_table] succeeds or reports failure, and changes no translation; on
    success the table it returns is the one the walk finds. *)
Lemma get_table_ok st lvl root v wt :
  tree st lvl -> root ∈ tables st -> lvl root = 3%nat ->
  exists c st' lvl2, get_table st v wt root = Done (c, st') /\ extends st lvl st' lvl2 /\
    (c <> 0 -> walk 3 st' root v = Some c /\ c ∈ tables st' /\ lvl2 c = 0%nat).
Proof.
  intros T Hr Hl. destruct (get_from_ok 3 st lvl root v wt T Hr Hl ltac:(lia)) as (c & st' & lvl2 & E & Hex & Hw).
  exists c, st', lvl2. split; [done|]. split; [done|]. intros Hc. specialize (Hw Hc). split; [done|].
  eapply walk_table; [apply (ex_tree _ _ _ _ Hex)| | |exact Hw].
  - by apply (ex_sub _ _ _ _ Hex).
  - by rewrite (ex_lvl _ _ _ _ Hex).
Qed.

(** ** Pages of the address space *)
Definition pn (v : Z) : Z := v / PAGESIZE.
Definition canonical (v : Z) : Prop := 0 <= v < 2 ^ 48.
Lemma idx_div n v : idx n v = (pn v / 512 ^ Z.of_nat n) mod 512.
Proof.
  unfold idx, pn, PAGESIZE. change 0x1FF with (Z.ones 9). rewrite Z.land_ones, Z.shiftr_div_pow2 by lia.
  change (2 ^ 9) with 512. change 0x1000 with (2 ^ 12). rewrite Z.pow_add_r by lia.
  replace (2 ^ (9 * Z.of_nat n)) with (512 ^ Z.of_nat n) by (rewrite Z.pow_mul_r by lia; done).
  by rewrite Z.div_div by lia.
Qed.
Lemma same_page v w : canonical v -> canonical w -> same_path 3 v w -> page_idx v = page_idx w -> pn v = pn w.
Proof.
  unfold canonical, same_path, page_idx. rewrite !idx_div. intros Hv Hw (H3 & H2 & H1 & _) H0.
  assert (0 <= pn v < 2 ^ 36 /\ 0 <= pn w < 2 ^ 36) as [Bv Bw] by (unfold pn, PAGESIZE; zlia).
  generalize dependent (pn v). generalize dependent (pn w). intros q Bq p.
  change (512 ^ Z.of_nat 3) with (512 * 512 * 512). change (512 ^ Z.of_nat 2) with (512 * 512).
  change (512 ^ Z.of_nat 1) with 512. change (512 ^ Z.of_nat 0) with 1.
  rewrite <- !Z.div_div, !Z.div_1_r by lia. intros. Z.div_mod_to_equations. lia.
Qed.
Lemma path_of_page v w n : pn v / 512 = pn w / 512 -> same_path n v w.
Proof.
  intros E. induction n as [|n IH]; [done|]. split; [|done]. rewrite !idx_div, Nat2Z.inj_succ, Z.pow_succ_r by lia.
  rewrite <- !Z.div_div by lia. by rewrite E.
Qed.
Lemma walk_path n st t v w : same_path n v w -> walk n st t v = walk n st t w.
Proof.
  revert t. induction n as [|n IH]; intros t; [done|]. intros [E H]. cbn [walk]. rewrite E.
  destruct (present _); [by apply IH|done].
Qed.
Lemma next_page v : pn (v + PAGESIZE) = pn v + 1.
Proof. unfold pn, PAGESIZE. zlia. Qed.
Lemma next_page_path v : page_idx (v + PAGESIZE) <> 0 -> same_path 3 v (v + PAGESIZE).
Proof.
  unfold page_idx. rewrite idx_div, next_page. change (512 ^ Z.of_nat 0) with 1. rewrite Z.div_1_r. intros H. apply path_of_page. rewrite next_page. zlia.
Qed.

(** Writing the entry of a page changes that page of that address space. *)
Lemma leaf_put st lvl root v pt e r w :
  tree st lvl -> root ∈ tables st -> lvl root = 3%nat -> walk 3 st root v = Some pt ->
  r ∈ tables st -> lvl r = 3%nat -> canonical v -> canonical w ->
  leaf (put st pt (page_idx v) e) r w = if (r =? root) && (pn w =? pn v) then e else leaf st r w.
Proof.
  intros T Hroot Hlroot Hw Hr Hlr Hv Hcw. destruct (walk_table 3 st lvl root v pt T Hroot Hlroot Hw) as [Hpt Hlpt].
  unfold leaf, leaf_from. rewrite (links_kept_walk 3 st _ lvl r w T (leaf_kept st lvl pt (page_idx v) e Hpt Hlpt) Hr Hlr).
  destruct (Z.eqb_spec r root) as [->|Hne]; cbn [andb].
  - destruct (Z.eqb_spec (pn w) (pn v)) as [E|E].
    + rewrite (walk_path 3 st root w v) by (apply path_of_page; congruence). rewrite Hw, ent_put.
      assert (page_idx v = page_idx w) as -> by (unfold page_idx; by rewrite !idx_div, E). by destruct (decide _).
    + destruct (walk 3 st root w) as [pt'|] eqn:Hw'; [|done]. rewrite ent_put. destruct (decide _) as [Eq|]; [|done].
      injection Eq as -> Ei. exfalso. apply E. symmetry. apply same_page; auto.
      by destruct (walk_inj 3 st lvl root root v w pt' T Hroot Hroot Hlroot Hlroot Hw Hw').
  - destruct (walk 3 st r w) as [pt'|] eqn:Hw'; [|done]. rewrite ent_put. destruct (decide _) as [Eq|]; [|done].
    injection Eq as -> Ei. exfalso. apply Hne. by destruct (walk_inj 3 st lvl r root w v pt' T Hr Hroot Hlr Hlroot Hw' Hw).
Qed.

Record grows st (lvl : Z -> nat) st' (lvl2 : Z -> nat) : Prop := {
  gr_tree : tree st' lvl2;
  gr_sub : tables st ⊆ tables st';
  gr_lvl t : t ∈ tables st -> lvl2 t = lvl t;
}.
Lemma grows_refl st lvl : tree st lvl -> grows st lvl st lvl.
Proof. intros. by constructor. Qed.
Lemma grows_trans st1 l1 st2 l2 st3 l3 : grows st1 l1 st2 l2 -> grows st2 l2 st3 l3 -> grows st1 l1 st3 l3.
Proof. intros [A1 A2 A3] [B1 B2 B3]. constructor; [done|set_solver|]. intros t Ht. rewrite B3 by auto. auto. Qed.
Lemma extends_grows st lvl st' lvl2 : extends st lvl st' lvl2 -> grows st lvl st' lvl2.
Proof. intros []. by constructor. Qed.

(** The leaf entries after the pages from [curr] on have been given the entries
    [f] computes, the first of them as page number [i] of the request. *)
Definition mapped (f : Z -> Z -> pt_entry -> option pt_entry) st (root i curr : Z) (k : nat) (r w : Z) : pt_entry :=
  let j := pn w - pn curr in
  if (r =? root) && ((0 <=? j) && (j <? Z.of_nat k))
  then default (leaf st r w) (f (i + j) (curr + j * PAGESIZE) (leaf st r w)) else leaf st r w.

Lemma map_loop_ok n f st lvl root i curr pt wt :
  tree st lvl -> root ∈ tables st -> lvl root = 3%nat -> pt <> 0 -> 0 <= i ->
  0 <= curr -> curr + Z.of_nat n * PAGESIZE <= 2 ^ 48 ->
  (i = 0 \/ page_idx curr <> 0 -> walk 3 st root curr = Some pt) ->
  exists ok k st' lvl2, map_loop n f st i curr pt wt root = Done (ok, st') /\ grows st lvl st' lvl2 /\
    (k <= n)%nat /\ (ok = true -> k = n) /\
    forall r w, r ∈ tables st -> lvl r = 3%nat -> canonical w -> leaf st' r w = mapped f st root i curr k r w.
Proof.
  revert st lvl i curr pt. induction n as [|n IH]; intros st lvl i curr pt T Hroot Hlr Hpt Hi Hc Hend Hw.
  { exists true, 0%nat, st, lvl. split; [done|]. split; [by apply grows_refl|]. split; [done|]. split; [done|].
    intros r w _ _ _. unfold mapped. case_cmp; simpl; lia || by rewrite ?andb_false_r. }
  cbn [map_loop].
  assert (exists pt1 st1 lvl1, (if negb (i =? 0) && (page_idx curr =? 0) then get_table st curr wt root else Done (pt, st)) = Done (pt1, st1) /\
    extends st lvl st1 lvl1 /\ (pt1 <> 0 -> walk 3 st1 root curr = Some pt1)) as (pt1 & st1 & lvl1 & -> & Hex & Hw1).
  { destruct (Z.eqb_spec i 0) as [Hi0|Hi0]; simpl; [exists pt, st, lvl; split; [done|]; split; [by apply extends_refl|auto]|].
    destruct (Z.eqb_spec (page_idx curr) 0) as [Hp0|Hp0]; simpl; [|exists pt, st, lvl; split; [done|]; split; [by apply extends_refl|auto]].
    destruct (get_table_ok st lvl root curr wt T Hroot Hlr) as (c & st1 & l1 & -> & ? & Hc1). exists c, st1, l1. split; [done|]. split; [done|].
    intros Hne. by destruct (Hc1 Hne). }
  cbn [mbind outcome_bind]. cbv beta iota.
  assert (forall r w, r ∈ tables st -> lvl r = 3%nat -> leaf st1 r w = leaf st r w) as Hleaf1.
  { intros r w Hr Hl3. unfold leaf. rewrite <- Hl3. by apply (ex_leaf _ _ _ _ Hex). }
  destruct (Z.eqb_spec pt1 0) as [Hz|Hnz].
  { exists false, 0%nat, st1, lvl1. split; [done|]. split; [by apply extends_grows|]. split; [lia|]. split; [done|].
    intros r w Hr Hl3 _. unfold mapped. rewrite Hleaf1 by done. case_cmp; simpl; lia || by rewrite ?andb_false_r. }
  specialize (Hw1 Hnz). pose proof (ex_tree _ _ _ _ Hex) as T1.
  assert (root ∈ tables st1) as Hroot1 by (by apply (ex_sub _ _ _ _ Hex)). assert (lvl1 root = 3%nat) as Hlr1 by (by rewrite (ex_lvl _ _ _ _ Hex)).
  destruct (walk_table 3 st1 lvl1 root curr pt1 T1 Hroot1 Hlr1 Hw1) as [Hpt1 Hlpt1].
  assert (canonical curr) as Hcan by (unfold canonical, PAGESIZE in *; lia).
  rewrite read_ent by done. cbn [mbind outcome_bind].
  assert (ent st1 pt1 (page_idx curr) = leaf st root curr) as He.
  { rewrite <- Hleaf1 by done. unfold leaf, leaf_from. by rewrite Hw1. }
  set (e' := f i curr (ent st1 pt1 (page_idx curr))).
  assert (exists st2, (match e' with Some e => write_entry st1 pt1 (page_idx curr) e | None => Done st1 end) = Done st2 /\
    tree st2 lvl1 /\ tables st2 = tables st1 /\ walk 3 st2 root curr = Some pt1 /\
    forall r w, r ∈ tables st -> lvl r = 3%nat -> canonical w -> leaf st2 r w =
      if (r =? root) && (pn w =? pn curr) then default (leaf st r w) (f i curr (leaf st r w)) else leaf st r w)
    as (st2 & -> & T2 & Htab2 & Hw2 & Hleaf2).
  { destruct e' as [e|] eqn:Ee.
    - rewrite write_put by done. exists (put st1 pt1 (page_idx curr) e). split; [done|].
      pose proof (leaf_kept st1 lvl1 pt1 (page_idx curr) e Hpt1 Hlpt1) as Hk.
      split; [by eapply links_kept_tree|]. split; [done|].
      split; [rewrite (links_kept_walk 3 st1 _ lvl1 root curr T1 Hk Hroot1 Hlr1); done|].
      intros r w Hr Hl3 Hcw.
      rewrite (leaf_put st1 lvl1 root curr pt1 e r w); auto; [|by apply (ex_sub _ _ _ _ Hex)|by rewrite (ex_lvl _ _ _ _ Hex)].
      rewrite Hleaf1 by done. destruct (Z.eqb_spec r root) as [->|]; cbn [andb]; [|done]. destruct (Z.eqb_spec (pn w) (pn curr)) as [E|]; [|done].
      assert (leaf st root w = leaf st root curr) as ->.
      { unfold leaf, leaf_from. rewrite (walk_path 3 st root w curr) by (apply path_of_page; congruence).
        assert (page_idx w = page_idx curr) as -> by (unfold page_idx; by rewrite !idx_div, E). done. }
      rewrite <- He. unfold e' in Ee. rewrite Ee. done.
    - exists st1. split; [done|]. split; [done|]. split; [done|]. split; [done|]. intros r w Hr Hl3 Hcw. rewrite Hleaf1 by done.
      destruct (Z.eqb_spec r root) as [->|]; cbn [andb]; [|done]. destruct (Z.eqb_spec (pn w) (pn curr)) as [E|]; [|done].
      assert (leaf st root w = leaf st root curr) as ->.
      { unfold leaf, leaf_from. rewrite (walk_path 3 st root w curr) by (apply path_of_page; congruence).
        assert (page_idx w = page_idx curr) as -> by (unfold page_idx; by rewrite !idx_div, E). done. }
      rewrite <- He. unfold e' in Ee. rewrite Ee. done. }
  cbn [mbind outcome_bind].
  rewrite (wrap_small 64 (curr + PAGESIZE)) by (unfold in_range, PAGESIZE in *; lia).
  destruct (IH st2 lvl1 (i + 1) (curr + PAGESIZE) pt1) as (ok & k & st' & lvl2 & -> & Hg & Hk & Hok & Hleaf'); auto.
  - by rewrite Htab2.
  - lia.
  - unfold PAGESIZE in *; lia.
  - unfold PAGESIZE in *; lia.
  - intros [?|Hp]; [lia|]. rewrite <- (walk_path 3 st2 root curr (curr + PAGESIZE)) by (by apply next_page_path). done.
  - exists ok, (S k), st', lvl2. split; [done|].
    assert (grows st lvl st' lvl2) as Hgr.
    { eapply grows_trans; [by apply extends_grows|]. destruct Hg as [G1 G2 G3]. constructor; [done|by rewrite <- Htab2|].
      intros x Hx. apply G3. by rewrite Htab2. }
    split; [done|]. split; [lia|]. split; [intros Ho; f_equal; by apply Hok|].
    intros r w Hr Hl3 Hcw. rewrite Hleaf'; [| |by rewrite (ex_lvl _ _ _ _ Hex)|done].
    2: { rewrite Htab2. by apply (ex_sub _ _ _ _ Hex). }
    unfold mapped. rewrite next_page, Hleaf2 by done.
    destruct (Z.eqb_spec r root) as [->|]; cbn [andb]; [|done].
    destruct (Z.eqb_spec (pn w) (pn curr)) as [E|E].
    + rewrite E. replace (pn curr - (pn curr + 1)) with (-1) by lia. replace (pn curr - pn curr) with 0 by lia. simpl.
      rewrite Z.add_0_r, Z.mul_0_l, Z.add_0_r. done.
    + replace (i + 1 + (pn w - (pn curr + 1))) with (i + (pn w - pn curr)) by lia.
      replace (curr + PAGESIZE + (pn w - (pn curr + 1)) * PAGESIZE) with (curr + (pn w - pn curr) * PAGESIZE) by (unfold PAGESIZE; lia).
      case_cmp; simpl; done || lia.
Qed.

Lemma map_pages_ok f st lvl root start n wt :
  tree st lvl -> root ∈ tables st -> lvl root = 3%nat -> 0 < start -> start + Z.of_nat n * PAGESIZE <= 2 ^ 48 ->
  exists ret k st' lvl2, map_pages f st start n wt root = Done (ret, st') /\ grows st lvl st' lvl2 /\ (k <= n)%nat /\
    (ret = 0 \/ ret = start /\ k = n) /\
    forall r w, r ∈ tables st -> lvl r = 3%nat -> canonical w -> leaf st' r w = mapped f st root 0 start k r w.
Proof.
  intros T Hroot Hl Hs Hend. unfold map_pages.
  destruct (get_table_ok st lvl root start wt T Hroot Hl) as (pt & st1 & lvl1 & -> & Hex & Hw). cbn [mbind outcome_bind]. cbv beta iota.
  assert (forall r w, r ∈ tables st -> lvl r = 3%nat -> leaf st1 r w = leaf st r w) as Hleaf1.
  { intros r w Hr Hl3. unfold leaf. rewrite <- Hl3. by apply (ex_leaf _ _ _ _ Hex). }
  destruct (Z.eqb_spec pt 0) as [|Hpt].
  - exists 0, 0%nat, st1, lvl1. split; [done|]. split; [by apply extends_grows|]. split; [lia|]. split; [by left|].
    intros r w Hr Hl3 _. unfold mapped. rewrite Hleaf1 by done. case_cmp; simpl; lia || by rewrite ?andb_false_r.
  - destruct (Hw Hpt) as (Hw1 & _).
    destruct (map_loop_ok n f st1 lvl1 root 0 start pt wt) as (ok & k & st' & lvl2 & -> & Hg & Hk & Hok & Hleaf'); auto; try lia.
    + apply (ex_tree _ _ _ _ Hex).
    + by apply (ex_sub _ _ _ _ Hex).
    + by rewrite (ex_lvl _ _ _ _ Hex).
    + cbn [mbind outcome_bind]. eexists _, k, st', lvl2. split; [done|]. split; [eapply grows_trans; [by apply extends_grows|done]|].
      split; [done|]. split; [destruct ok; auto|]. intros r w Hr Hl3 Hcw.
      rewrite Hleaf'; [|by apply (ex_sub _ _ _ _ Hex)|by rewrite (ex_lvl _ _ _ _ Hex)|done]. unfold mapped. by rewrite Hleaf1.
Qed.

Lemma frame_translate_leaf st lvl root a :
  tree st lvl -> root ∈ tables st -> lvl root = 3%nat ->
  frame_translate st a root = Done (let e := leaf st root a in
    if present e && negb (physical_address e =? 0) then Z.lor (Z.shiftl (physical_address e) 12) (offset a) else 0).
Proof.
  intros T Hroot Hl. unfold frame_translate, find_table. rewrite (find_from_walk 3 st lvl root a T Hroot Hl). cbn [mbind outcome_bind].
  unfold leaf, leaf_from. destruct (walk 3 st root a) as [pt|] eqn:Hw; [|done]. cbn [default].
  destruct (walk_table 3 st lvl root a pt T Hroot Hl Hw) as [Hpt _]. destruct (t_addr _ _ T pt Hpt) as [_ Hpos].
  simpl. destruct (Z.eqb_spec pt 0); [lia|]. rewrite read_ent by done. done.
Qed.

(** ** Unmapping *)
Definition unmapped st (root curr : Z) (k : nat) (r w : Z) : pt_entry :=
  let j := pn w - pn curr in
  if (r =? root) && ((0 <=? j) && (j <? Z.of_nat k)) && negb (global (leaf st r w)) then zero_entry else leaf st r w.
Lemma unmap_loop_ok n st lvl root curr pt :
  tree st lvl -> root ∈ tables st -> lvl root = 3%nat -> 0 <= curr -> curr + Z.of_nat n * PAGESIZE <= 2 ^ 48 ->
  (pt = 0 \/ page_idx curr = 0 \/ walk 3 st root curr = Some pt) ->
  exists st', unmap_loop n st curr pt root = Done st' /\ tree st' lvl /\ tables st' = tables st /\
    forall r w, r ∈ tables st -> lvl r = 3%nat -> canonical w -> leaf st' r w = unmapped st root curr n r w.
Proof.
  revert st curr pt. induction n as [|n IH]; intros st curr pt T Hroot Hl Hc Hend Hw.
  { exists st. split; [done|]. split; [done|]. split; [done|]. intros r w _ _ _. unfold unmapped. case_cmp; simpl; lia || by rewrite ?andb_false_r. }
  cbn [unmap_loop].
  assert ((if (pt =? 0) || (page_idx curr =? 0) then find_table st curr root else Done pt) = Done (default 0 (walk 3 st root curr))) as ->.
  { unfold find_table. rewrite (find_from_walk 3 st lvl root curr T Hroot Hl). destruct (Z.eqb_spec pt 0); [done|].
    destruct (Z.eqb_spec (page_idx curr) 0); [done|]. cbn [orb]. destruct Hw as [?|[?|Hw]]; [done|done|by rewrite Hw]. }
  cbn [mbind outcome_bind]. assert (canonical curr) as Hcan by (unfold canonical, PAGESIZE in *; lia).
  assert (exists st1, (if default 0 (walk 3 st root curr) =? 0 then Done st
      else e ← read_entry st (default 0 (walk 3 st root curr)) (page_idx curr);
           if global e then Done st else write_entry st (default 0 (walk 3 st root curr)) (page_idx curr) zero_entry) = Done st1 /\
      tree st1 lvl /\ tables st1 = tables st /\ (forall v, walk 3 st1 root v = walk 3 st root v) /\
      forall r w, r ∈ tables st -> lvl r = 3%nat -> canonical w -> leaf st1 r w =
        if (r =? root) && (pn w =? pn curr) && negb (global (leaf st r w)) then zero_entry else leaf st r w)
    as (st1 & -> & T1 & Htab & Hwk & Hleaf1).
  { assert (forall w, pn w = pn curr -> leaf st root w = leaf st root curr) as Hsame.
    { intros w E. unfold leaf, leaf_from. rewrite (walk_path 3 st root w curr) by (apply path_of_page; congruence).
      assert (page_idx w = page_idx curr) as -> by (unfold page_idx; by rewrite !idx_div, E). done. }
    destruct (walk 3 st root curr) as [pt'|] eqn:Hwalk; cbn [default from_option id].
    - destruct (walk_table 3 st lvl root curr pt' T Hroot Hl Hwalk) as [Hpt Hlpt]. destruct (t_addr _ _ T pt' Hpt) as [_ Hpos].
      unfold id. destruct (Z.eqb_spec pt' 0); [lia|]. rewrite read_ent by done. cbn [mbind outcome_bind].
      assert (ent st pt' (page_idx curr) = leaf st root curr) as -> by (unfold leaf, leaf_from; by rewrite Hwalk).
      destruct (global (leaf st root curr)) eqn:Hg.
      + exists st. split; [done|]. split; [done|]. split; [done|]. split; [done|]. intros r w Hr Hl3 Hcw.
        destruct (Z.eqb_spec r root) as [->|]; cbn [andb]; [|done]. destruct (Z.eqb_spec (pn w) (pn curr)) as [E|]; cbn [andb]; [|done].
        by rewrite (Hsame w E), Hg.
      + rewrite write_put by done. exists (put st pt' (page_idx curr) zero_entry). split; [done|].
        pose proof (leaf_kept st lvl pt' (page_idx curr) zero_entry Hpt Hlpt) as Hk.
        split; [by eapply links_kept_tree|]. split; [done|]. split; [intros v; by eapply links_kept_walk|].
        intros r w Hr Hl3 Hcw. rewrite (leaf_put st lvl root curr pt' zero_entry r w); auto.
        destruct (Z.eqb_spec r root) as [->|]; cbn [andb]; [|done]. destruct (Z.eqb_spec (pn w) (pn curr)) as [E|]; cbn [andb]; [|done].
        by rewrite (Hsame w E), Hg.
    - cbn [Z.eqb]. exists st. split; [done|]. split; [done|]. split; [done|]. split; [done|]. intros r w Hr Hl3 Hcw.
      destruct (Z.eqb_spec r root) as [->|]; cbn [andb]; [|done]. destruct (Z.eqb_spec (pn w) (pn curr)) as [E|]; cbn [andb]; [|done].
      rewrite (Hsame w E). unfold leaf, leaf_from. by rewrite Hwalk. }
  cbn [mbind outcome_bind]. rewrite (wrap_small 64 (curr + PAGESIZE)) by (unfold in_range, PAGESIZE in *; lia).
  destruct (IH st1 (curr + PAGESIZE) (default 0 (walk 3 st root curr))) as (st' & -> & T' & Htab' & Hleaf'); auto.
  - by rewrite Htab.
  - unfold PAGESIZE in *; lia.
  - unfold PAGESIZE in *; lia.
  - rewrite Hwk. destruct (walk 3 st root curr) as [pt'|] eqn:Hwalk; [|by left]. right.
    destruct (Z.eq_dec (page_idx (curr + PAGESIZE)) 0); [by left|right]. by rewrite <- (walk_path 3 st root curr) by (by apply next_page_path).
  - exists st'. split; [done|]. split; [done|]. split; [congruence|]. intros r w Hr Hl3 Hcw.
    rewrite Hleaf' by (rewrite ?Htab; done). unfold unmapped. rewrite next_page, Hleaf1 by done.
    destruct (Z.eqb_spec r root) as [->|]; cbn [andb]; [|done]. destruct (Z.eqb_spec (pn w) (pn curr)) as [E|E]; cbn [andb].
    + rewrite E. replace (pn curr - (pn curr + 1)) with (-1) by lia. replace (pn curr - pn curr) with 0 by lia. simpl.
      by destruct (negb (global (leaf st root w))).
    + case_cmp; simpl; done || lia.
Qed.

(** ** Properties *)
Lemma frame_shift a : 0 <= a < 2 ^ 48 -> Z.shiftl (frame a) 12 = pn a * PAGESIZE.
Proof.
  intros Ha. unfold frame, pn, PAGESIZE. rewrite Z.shiftr_div_pow2, Z.shiftl_mul_pow2 by lia. rewrite wrap_small; [done|].
  unfold in_range. split; [apply Z.div_pos; lia|apply Z.div_lt_upper_bound; lia].
Qed.
Lemma page_offset a q : 0 <= a -> Z.lor (q * PAGESIZE) (offset a) = q * PAGESIZE + a mod PAGESIZE.
Proof.
  intros Ha. unfold offset, PAGESIZE. change 0xFFF with (Z.ones 12). change 0x1000 with (2 ^ 12). rewrite Z.land_ones by lia.
  rewrite <- Z.shiftl_mul_pow2 by lia. rewrite Z.add_nocarry_lxor, Z.lxor_lor; [done|..];
  (apply Z.bits_inj'; intros i Hi; rewrite Z.land_spec, Z.shiftl_spec, Z.bits_0 by lia;
   destruct (Z.ltb_spec i 12); [rewrite (Z.testbit_neg_r q) by lia; done|
     rewrite <- (Z.land_ones a 12), Z.land_spec, Z.ones_spec_high by lia; by rewrite !andb_false_r]).
Qed.

(** What mapping user pages does to every translation. *)
Lemma map_user_pages_ok st lvl root v p n w x :
  tree st lvl -> root ∈ tables st -> lvl root = 3%nat -> 0 < v -> 0 < p -> n <> 0%nat ->
  v mod PAGESIZE = 0 -> p mod PAGESIZE = 0 -> v + Z.of_nat n * PAGESIZE <= 2 ^ 48 -> p + Z.of_nat n * PAGESIZE <= 2 ^ 48 ->
  exists ret st' lvl2, map_user_pages st v p n root w x = Done (ret, st') /\ grows st lvl st' lvl2 /\ (ret = 0 \/ ret = v) /\
    (ret = v -> forall a, v <= a < v + Z.of_nat n * PAGESIZE -> frame_translate st' a root = Done (p + (a - v))) /\
    (forall r a, r ∈ tables st -> lvl r = 3%nat -> canonical a -> ~ (r = root /\ v <= a < v + Z.of_nat n * PAGESIZE) ->
       leaf st' r a = leaf st r a).
Proof.
  intros T Hroot Hl Hv Hp Hn Hvm Hpm Hve Hpe. unfold map_user_pages.
  destruct (Z.eqb_spec v 0); [lia|]. destruct (Z.eqb_spec p 0); [lia|]. destruct (Nat.eqb_spec n 0); [done|].
  destruct (t_addr _ _ T root Hroot) as [_ ?]. destruct (Z.eqb_spec root 0); [lia|]. cbn [negb andb].
  destruct (map_pages_ok (user_entry p w x) st lvl root v n false T Hroot Hl Hv Hve) as (ret & k & st' & lvl2 & -> & Hg & Hk & Hret & Hleaf).
  exists ret, st', lvl2. split; [done|]. split; [done|]. split; [destruct Hret as [|[? _]]; auto|]. split.
  - intros -> a Ha. assert (k = n) as -> by (destruct Hret as [?|[_ ?]]; [lia|done]).
    rewrite (frame_translate_leaf st' lvl2 root a); [|apply (gr_tree _ _ _ _ Hg)|by apply (gr_sub _ _ _ _ Hg)|by rewrite (gr_lvl _ _ _ _ Hg)].
    rewrite Hleaf by (unfold canonical; auto; lia). unfold mapped. rewrite Z.eqb_refl. cbn [andb]. unfold PAGESIZE in *.
    assert (0 <= pn a - pn v < Z.of_nat n) as Hj by (unfold pn, PAGESIZE; zlia).
    destruct (Z.leb_spec 0 (pn a - pn v)); [|lia]. destruct (Z.ltb_spec (pn a - pn v) (Z.of_nat n)); [|lia]. simpl.
    set (q := u64 (p + (pn a - pn v) * 4096)). assert (q = p + (pn a - pn v) * 4096) as Hq by (unfold q; apply wrap_small; unfold in_range; lia).
    assert (pn q = pn p + (pn a - pn v)) as Hpq by (rewrite Hq; unfold pn, PAGESIZE; zlia).
    assert (frame q = pn q) as Hfq.
    { unfold frame, pn, PAGESIZE. rewrite Z.shiftr_div_pow2 by lia. apply wrap_small. unfold in_range. split; [apply Z.div_pos; lia|apply Z.div_lt_upper_bound; lia]. }
    replace (u64 (p + (0 + (pn a - pn v)) * PAGESIZE)) with q by (unfold q, PAGESIZE; do 2 f_equal; lia).
    rewrite Hfq. destruct (Z.eqb_spec (pn q) 0) as [E|_].
    { exfalso. unfold pn, PAGESIZE in *. zlia. }
    simpl. do 2 f_equal. rewrite <- Hfq at 1. fold (frame q). rewrite frame_shift by lia. rewrite page_offset by lia. rewrite Hpq. unfold pn, PAGESIZE. zlia.
  - intros r a Hr Hl3 Hca Hout. rewrite Hleaf by done. unfold mapped. destruct (Z.eqb_spec r root) as [->|]; cbn [andb]; [|done].
    destruct (Z.leb_spec 0 (pn a - pn v)); [|done]. destruct (Z.ltb_spec (pn a - pn v) (Z.of_nat k)); [|done]. exfalso. apply Hout. split; [done|].
    unfold pn, PAGESIZE, canonical in *. zlia.
Qed.

(** C10: Mapping user pages, at aligned addresses of the canonical range, in tables that form
    a forest and whose allocator hands out only fresh tables, or none ([fresh_supply], part of
    [tree]): the call returns; if it reports success, every address
    of the range translates to the physical address at the same distance from the
    start; in any case no other address of this or another address space changes
    its entry, and the tables still form a forest. *)
Theorem map_user_pages_exact st lvl root v p n w x :
  tree st lvl -> root ∈ tables st -> lvl root = 3%nat -> 0 < v -> 0 < p -> n <> 0%nat ->
  v mod PAGESIZE = 0 -> p mod PAGESIZE = 0 -> v + Z.of_nat n * PAGESIZE <= 2 ^ 48 -> p + Z.of_nat n * PAGESIZE <= 2 ^ 48 ->
  exists ret st' lvl2, map_user_pages st v p n root w x = Done (ret, st') /\ grows st lvl st' lvl2 /\ (ret = 0 \/ ret = v) /\
    (ret = v -> forall a, v <= a < v + Z.of_nat n * PAGESIZE -> frame_translate st' a root = Done (p + (a - v))) /\
    (forall r a, r ∈ tables st -> lvl r = 3%nat -> canonical a -> ~ (r = root /\ v <= a < v + Z.of_nat n * PAGESIZE) ->
       leaf st' r a = leaf st r a).
Proof. apply map_user_pages_ok. Qed.

(** Unmapping clears the entries of exactly the pages of the range that are not
    global, in the given address space only; every translation there becomes 0. *)
Theorem unmap_pages_exact st lvl root v n :
  tree st lvl -> root ∈ tables st -> lvl root = 3%nat -> 0 < v -> n <> 0%nat -> v mod PAGESIZE = 0 -> v + Z.of_nat n * PAGESIZE <= 2 ^ 48 ->
  exists st', unmap_pages st v n root = Done st' /\ tree st' lvl /\
    (forall a, v <= a < v + Z.of_nat n * PAGESIZE -> global (leaf st root a) = false -> frame_translate st' a root = Done 0) /\
    (forall r a, r ∈ tables st -> lvl r = 3%nat -> canonical a ->
       ~ (r = root /\ v <= a < v + Z.of_nat n * PAGESIZE) \/ global (leaf st r a) = true -> leaf st' r a = leaf st r a).
Proof.
  intros T Hroot Hl Hv Hn Hvm Hve. unfold unmap_pages. destruct (Z.eqb_spec v 0); [lia|]. destruct (Nat.eqb_spec n 0); [done|]. cbn [negb andb].
  destruct (unmap_loop_ok n st lvl root v 0 T Hroot Hl ltac:(lia) Hve ltac:(by left)) as (st' & -> & T' & Htab & Hleaf).
  exists st'. split; [done|]. split; [done|]. split.
  - intros a Ha Hg. rewrite (frame_translate_leaf st' lvl root a T') by (rewrite ?Htab; done).
    rewrite Hleaf by (unfold canonical, PAGESIZE in *; auto; lia). unfold unmapped. rewrite Z.eqb_refl, Hg. cbn [andb].
    assert (0 <= pn a - pn v < Z.of_nat n) as Hj by (unfold pn, PAGESIZE in *; zlia).
    destruct (Z.leb_spec 0 (pn a - pn v)); [|lia]. destruct (Z.ltb_spec (pn a - pn v) (Z.of_nat n)); [|lia]. done.
  - intros r a Hr Hl3 Hca Hout. rewrite Hleaf by done. unfold unmapped. destruct (Z.eqb_spec r root) as [->|]; cbn [andb]; [|done].
    destruct (global (leaf st root a)) eqn:Hg; cbn [negb]; [by rewrite andb_false_r|]. destruct Hout as [Hout|]; [|done].
    destruct (Z.leb_spec 0 (pn a - pn v)); [|done]. destruct (Z.ltb_spec (pn a - pn v) (Z.of_nat n)); [|done]. exfalso. apply Hout. split; [done|].
    unfold pn, PAGESIZE, canonical in *. zlia.
Qed.

End Props.

End PagingProps.
