(* ===== verification/PtAlloc.v ===== *)
(** The allocation of page tables and of DMA blocks: [allocate_pt],
    [allocate_dma], [map_dma] and [deallocate_dma] of kernel/mm/kernel_mm.cpp.

    [allocate_pt] takes its memory from the kernel frame's free list of blocks of
    one page, or claims a region for eight tables.  All memory is identity mapped
    for the kernel when it starts, so the branch that maps a claimed region is not
    taken; a tag constructed outside managed memory is undefined, as in KFrame.v.
    A new table is cleared byte by byte, tags in its way included. *)
From S2P Require Import Prelude Region KFrame Paging.
Import Region KFrame Paging.

Module PtAlloc.

Definition pt_size : Z := 8 * page_table_length.
Definition pt_total_sz : Z := up_to_nearest (pt_size + bt_offset) page_size.
Definition pt_rsz : Z := region_size_for (pt_total_sz * 8).
Definition pt_exp : Z := calculate_block_index (pt_size + bt_offset).

(** ** Clearing memory that may hold tags *)
(** The value of [w] bytes at [a] after the bytes from [lo] to [hi] were cleared. *)
Fixpoint clear_bytes (lo hi a : Z) (w : nat) (v : Z) : Z :=
  match w with
  | O => 0
  | S w' =>
      (if (lo <=? a) && (a <? hi) then 0 else u8 v) + Z.shiftl (clear_bytes lo hi (a + 1) w' (Z.shiftr v 8)) 8
  end.
Definition zero_tag (lo hi p : Z) (t : block_tag) : block_tag :=
  MkTag (clear_bytes lo hi p 8 (magic t)) (clear_bytes lo hi (p + 8) 8 (block_size t))
    (clear_bytes lo hi (p + 16) 8 (held_size t)) (clear_bytes lo hi (p + 24) 8 (left_split t))
    (clear_bytes lo hi (p + 32) 8 (right_split t)) (clear_bytes lo hi (p + 40) 8 (previous t))
    (clear_bytes lo hi (p + 48) 8 (next t)) (signed 32 (clear_bytes lo hi (p + 56) 4 (u32 (index t))))
    (clear_bytes lo hi (p + 60) 4 (align_bytes t)).
Definition zero_memory (k : kframe) (lo n : Z) : kframe :=
  with_tags k (map_imap (fun p t =>
    Some (if (p <? lo + n) && (lo <? p + sizeof_block_tag) then zero_tag lo (lo + n) p t else t)) (tags k)).

(** ** [allocate_pt] *)
Fixpoint pt_fit (fuel : nat) (k : kframe) (p : Z) : outcome (Z * kframe) :=
  if p =? 0 then Done (0, k)
  else match fuel with
  | O => NoFuel
  | S f =>
      k1 ← upd_tag k p (fun q => set_align_bytes q (add_align_size p page_size));
      t ← get_tag k1 p;
      if pt_size <=? available_size t then
        k2 ← remove_block k1 p;
        k3 ← (if (left_split t =? 0) && (right_split t =? 0) then bump_complete k2 pt_exp (-1) else Done k2);
        k4 ← upd_tag k3 p (fun q => set_held_size q pt_size);
        Done (p, k4)
      else
        k2 ← upd_tag k1 p (fun q => set_align_bytes q 0);
        pt_fit f k2 (next t)
  end.
(** The tag of a newly claimed region; 0 when none can be claimed. *)
Definition pt_claim (k : kframe) : outcome (Z * kframe) :=
  '(allocated, m) ← find_and_claim (mgr k) pt_rsz;
  let k1 := with_mgr k m in
  if allocated =? 0 then Done (0, k1)
  else
    k2 ← place_tag k1 allocated (new_tag_unlinked pt_rsz pt_size (-1) 0);
    k3 ← upd_tag k2 allocated (fun q => set_align_bytes q (add_align_size allocated page_size));
    Done (allocated, with_mgr k3 (with_watermark (mgr k3) (Z.max allocated (watermark (mgr k3))))).
(** The tag of the block and the table. *)
Definition allocate_pt (k : kframe) : outcome ((Z * Z) * kframe) :=
  h ← head_get k pt_exp;
  '(tag0, k1) ← pt_fit (S (size (tags k))) k h;
  '(tag, k2) ← (if tag0 =? 0 then pt_claim k1 else Done (tag0, k1));
  if tag =? 0 then Done ((0, 0), k2)
  else
    t ← get_tag k2 tag;
    let result := actual_start tag t in
    let k3 := zero_memory k2 result page_size in
    t3 ← get_tag k3 tag;
    k4 ← (if min_block_size + bt_offset <=? available_size t3 then
            '(that, k') ← split k3 tag; insert_block k' that (-1)
          else Done k3);
    if result =? 0 then Done ((0, 0), k4)
    else
      t4 ← get_tag k4 tag;
      Done ((tag, result), with_remaining k4 (u64 (remaining_memory k4 - block_size t4))).

(** The kernel frame as the allocator of page tables; the tags of the tables
    allocated while a user frame is active are recorded in it. *)
Record pt_pool := MkPool { heap : kframe; frame_active : bool; page_table_blocks : list Z }.
#[export] Instance pool_alloc : PtAllocator pt_pool := fun a =>
  '((tag, t), k) ← allocate_pt (heap a);
  Done (t, MkPool k (frame_active a) (if frame_active a && negb (t =? 0) then page_table_blocks a ++ [tag] else page_table_blocks a)).

(** ** DMA blocks *)
Section Dma.
Context (root : Z).
Abbreviation space := (ptmem pt_pool).
Definition set_pool (st : space) (k : kframe) : space :=
  MkPt (tables st) (entries st) (MkPool k (frame_active (pool st)) (page_table_blocks (pool st))).
Definition map_prefetchable (st : space) (a : Z) (pages : nat) (prefetchable : bool) : outcome (Z * space) :=
  if prefetchable then map_mmio_pages st a pages root else map_uncached_mmio_pages st a pages root.
Definition dma_pages (sz : Z) : Z := div_round_up (region_size_for sz) page_size.
Definition allocate_dma (st : space) (sz : Z) (prefetchable : bool) : outcome (Z * space) :=
  let k := heap (pool st) in
  '(phys, m) ← find_and_claim (mgr k) sz;
  let st1 := set_pool st (with_mgr k m) in
  if phys =? 0 then Done (0, st1)
  else
    '(result, st2) ← map_prefetchable st1 phys (Z.to_nat (dma_pages sz)) prefetchable;
    let k2 := heap (pool st2) in
    Done (result, set_pool st2 (with_remaining (with_mgr k2 (with_watermark (mgr k2) (Z.max phys (watermark (mgr k2)))))
                                  (u64 (remaining_memory k2 - dma_pages sz * page_size)))).
Definition map_dma (st : space) (addr sz : Z) (prefetchable : bool) : outcome (Z * space) :=
  let npage := div_round_up sz page_size in
  '(result, st1) ← map_prefetchable st addr (Z.to_nat npage) prefetchable;
  if result =? 0 then Done (result, st1)
  else
    let k := heap (pool st1) in
    m ← mark_used (mgr k) addr npage;
    Done (result, set_pool st1 (with_mgr k m)).
Definition deallocate_dma (st : space) (addr sz : Z) : outcome space :=
  if addr =? 0 then Done st
  else
    '(phys, st1) ← map_kernel_pages st addr (Z.to_nat (dma_pages sz)) true root;
    let k := heap (pool st1) in
    m ← release_region (mgr k) sz phys;
    Done (set_pool st1 (with_remaining (with_mgr k (with_watermark m (Z.min phys (watermark m))))
                          (u64 (remaining_memory k + dma_pages sz * page_size)))).
End Dma.
End PtAlloc.
