(* ===== verification/PtAllocProps.v ===== *)
(** What [allocate_pt] does to the kernel heap: that it hands out fresh tables as long as the
    heap has no free block of the class it searches, and two ways in which a page table or
    the region claimed for it overlaps other live memory. *)
From S2P Require Import Prelude Region KFrame KFrameInv KFrameAlloc Paging PagingProps PtAlloc.
Import Region KFrame KFrameInv KFrameAlloc PtAlloc.

Module PtAllocProps.

(** ** Fresh tables *)
(** The class of the block that is left of a claimed region. *)
Definition rest_class : Z := calculate_block_index 57344.
(** A heap without a free block in the class that [allocate_pt] searches, whose tables [T]
    lie in pages in use. *)
Record pt_ready (k : kframe) (T : gset Z) : Prop := {
  pr_wf : wf (mgr k);
  pr_top : num_status_bytes (mgr k) * gigabyte <= 2 ^ 48;
  pr_zero : page_used (mgr k) 0 = true;
  pr_len : length (available_blocks k) = 24%nat;
  pr_none : available_blocks k !! Z.to_nat pt_exp = Some 0;
  pr_rest h : available_blocks k !! Z.to_nat rest_class = Some h -> h = 0 \/ is_Some (tags k !! h);
  pr_used t : t ∈ T -> 0 <= t /\ page_used (mgr k) (t / page_size) = true }.

Lemma pt_claim_cases k T : pt_ready k T ->
  (exists m, pt_claim k = Done (0, with_mgr k m) /\ pt_ready (with_mgr k m) T) \/
  (exists a m, pt_claim k = Done (a, with_mgr (with_tags k (<[a := MkTag block_magic 65536 4096 0 0 0 0 (-1) 4032]> (tags k))) m)
     /\ 0 < a /\ a mod page_size = 0 /\ a + 65536 <= num_status_bytes (mgr k) * gigabyte /\ wf m /\ num_status_bytes m = num_status_bytes (mgr k)
     /\ (forall q, a / page_size <= q < a / page_size + 16 -> page_used (mgr k) q = false)
     /\ (forall q, 0 <= q -> page_used m q = page_used (mgr k) q || in_pages (a / page_size) 16 q)).
Proof.
  intros [Hwf Htop Hz Hl Hn Hr Hu]. pose proof (wf_num _ Hwf) as Hnum. unfold pt_claim. change pt_rsz with 65536.
  destruct (find_and_claim_cases (mgr k) 65536 Hwf ltac:(lia)) as (w & Hw & Hwf0 & [[E _]|(p & m & E & _ & Hcl)]).
  - left. exists (with_watermark (mgr k) w). rewrite E. split; [done|]. by constructor.
  - destruct Hcl as [Hwf' Hcfg Hfree Hused Hfit]. change (block_pages 65536) with 16 in *.
    cbn [with_watermark num_status_bytes] in Hfit.
    assert (0 < p) as Hp. { destruct (Z.eq_dec p 0) as [->|]; [|lia]. specialize (Hfree 0 ltac:(lia)). unfold page_used in *. cbn in Hfree. congruence. }
    right. exists (p * page_size). unfold gigabyte, page_size in *. rewrite E. cbn [mbind outcome_bind].
    destruct (Z.eqb_spec (p * 0x1000) 0); [lia|].
    assert (num_status_bytes m = num_status_bytes (mgr k)) as Em by (destruct Hcfg as (? & ? & ?); cbn in *; congruence).
    unfold place_tag. cbn [with_mgr mgr]. rewrite Em. unfold sizeof_block_tag, gigabyte.
    rewrite (proj2 (Z.ltb_lt 0 (p * 0x1000))), (proj2 (Z.leb_le (p * 0x1000 + 64) (num_status_bytes (mgr k) * 0x40000000))) by lia. cbn [andb mbind outcome_bind].
    unfold upd_tag, get_tag. cbn [tags with_tags with_mgr]. rewrite lookup_insert_eq. cbn [or_undef mbind outcome_bind].
    rewrite insert_insert_eq.
    assert (add_align_size (p * 0x1000) 0x1000 = 4032) as Ea.
    { unfold add_align_size. change (1 <? 0x1000) with true. cbv iota. unfold bt_offset, sizeof_block_tag, page_size.
      rewrite !(wrap_small 64 (p * 0x1000 + 64)) by (split; lia). unfold up_to_nearest, div_round_up.
      rewrite (proj2 (Z.eqb_neq ((p * 0x1000 + 64) mod 0x1000) 0)) by zlia. replace ((p * 0x1000 + 64) / 0x1000) with p by zlia.
      rewrite (wrap_small 64) by (split; lia). rewrite wrap_small by (split; lia). lia. }
    rewrite Ea. unfold new_tag_unlinked, set_align_bytes. cbn [magic KFrame.block_size held_size left_split right_split previous next index align_bytes mgr with_mgr with_tags].
    change (u32 4032) with 4032. change pt_size with 4096.
    replace (p * 4096 / 4096) with p by zlia.
    eexists. split; [reflexivity|]. split_and!; try lia; try zlia.
    + cbn. apply with_watermark_wf; [done|]. pose proof (wf_mark _ Hwf'). cbn. lia.
    + cbn. done.
    + intros q Hq. exact (Hfree q Hq).
    + intros q Hq. exact (Hused q Hq).
Qed.

Lemma zero_memory_before k lo n p : p + sizeof_block_tag <= lo -> tags (zero_memory k lo n) !! p = tags k !! p.
Proof.
  intros H. unfold zero_memory. cbn [tags with_tags]. rewrite map_lookup_imap. destruct (tags k !! p) as [t|]; [|done]. simpl.
  rewrite (proj2 (Z.ltb_ge lo (p + sizeof_block_tag)) H), andb_false_r. done.
Qed.
Lemma zero_memory_dom k lo n p : is_Some (tags k !! p) -> is_Some (tags (zero_memory k lo n) !! p).
Proof. intros [t Ht]. unfold zero_memory. cbn [tags with_tags]. rewrite map_lookup_imap, Ht. simpl. by eexists. Qed.
Lemma get_at k p t : tags k !! p = Some t -> get_tag k p = Done t.
Proof. apply get_tag_Done. Qed.

(** The tag of a region claimed for page tables, and that of what is left of it. *)
Definition region_tag : block_tag := MkTag block_magic 65536 4096 0 0 0 0 (-1) 4032.
Definition rest_tag (a : Z) : block_tag := new_tag 57344 0 (-1) a 0 0 0 0.
Lemma split_region k a : tags k !! a = Some region_tag ->
  0 < a -> a + 65536 <= num_status_bytes (mgr k) * gigabyte -> num_status_bytes (mgr k) * gigabyte <= 2 ^ 48 ->
  exists t, split k a = Done (a + 8192, with_tags k (<[a := t]> (<[a + 8192 := rest_tag a]> (tags k)))).
Proof.
  intros Ha H0 Htop H48. unfold split. rewrite (get_at k a _ Ha). cbn [mbind outcome_bind].
  assert (u64 (actual_start a region_tag + held_size region_tag) = a + 8192) as ->.
  { unfold actual_start. cbn [region_tag align_bytes held_size]. change (sizeof_block_tag + 4032) with 4096.
    rewrite (wrap_small 64 (a + 4096)) by (split; lia). rewrite wrap_small by (split; lia). lia. }
  change (available_size region_tag) with 57344. change (right_split region_tag) with 0. fold (rest_tag a).
  assert (place_tag k (a + 8192) (rest_tag a) = Done (with_tags k (<[a + 8192 := rest_tag a]> (tags k)))) as ->.
  { unfold place_tag, sizeof_block_tag, gigabyte in *.
    by rewrite (proj2 (Z.ltb_lt 0 (a + 8192))), (proj2 (Z.leb_le (a + 8192 + 64) (num_status_bytes (mgr k) * 0x40000000))) by lia. }
  cbn [mbind outcome_bind negb Z.eqb]. rewrite (upd_tag_Done _ a _ region_tag) by (cbn [tags with_tags]; by rewrite lookup_insert_ne by lia).
  cbn [mbind outcome_bind tags with_tags]. rewrite (get_at _ (a + 8192) (rest_tag a)) by (cbn [tags with_tags]; by rewrite lookup_insert_ne, lookup_insert_eq by lia).
  cbn [mbind outcome_bind]. erewrite upd_tag_Done by (cbn [tags with_tags]; apply lookup_insert_eq). cbn [mbind outcome_bind tags with_tags]. rewrite insert_insert_eq.
  eexists. reflexivity.
Qed.
(** A block that is on no list becomes the first of its class. *)
Lemma insert_rest k b h n : tags k !! b = Some n -> KFrame.block_size n = 57344 -> previous n = 0 -> next n = 0 ->
  length (available_blocks k) = 24%nat -> available_blocks k !! Z.to_nat rest_class = Some h -> (h = 0 \/ is_Some (tags k !! h)) ->
  exists k', insert_block k b (-1) = Done k' /\ mgr k' = mgr k /\ available_blocks k' = <[Z.to_nat rest_class := b]> (available_blocks k)
    /\ forall p, is_Some (tags k !! p) -> is_Some (tags k' !! p).
Proof.
  intros Hb Hs Hp Hn Hl Hh Hd. unfold insert_block. rewrite (get_at k b n Hb). cbn [mbind outcome_bind]. change (-1 <? 0) with true. cbv iota. rewrite Hs.
  fold rest_class. rewrite (upd_tag_Done k b _ n Hb). cbn [mbind outcome_bind]. rewrite Hp, Hn. cbn [negb orb Z.eqb].
  set (k1 := with_tags k _).
  assert (forall k, available_blocks k !! Z.to_nat rest_class = Some h -> head_get k rest_class = Done h) as Hget.
  { intros k0 H. unfold head_get. change (rest_class =? -1) with false. cbv iota. unfold array_get. change (0 <=? rest_class) with true. cbv iota. by rewrite H. }
  rewrite (Hget k1 Hh). cbn [mbind outcome_bind].
  assert (exists k2, (if negb (h =? 0) && negb (b =? h) then k' ← upd_tag k1 h (fun q => set_previous q b); upd_tag k' b (fun q => set_next q h) else Done k1) = Done k2
    /\ mgr k2 = mgr k /\ available_blocks k2 = available_blocks k /\ forall p, is_Some (tags k !! p) -> is_Some (tags k2 !! p)) as (k2 & -> & E1 & E2 & E3).
  { assert (forall p, is_Some (tags k !! p) -> is_Some (tags k1 !! p)) as Hk1 by (intros p Hs'; cbn [tags k1 with_tags]; apply lookup_insert_is_Some'; by right).
    destruct (Z.eqb_spec h 0); [by exists k1|]. destruct (Z.eqb_spec b h); [by exists k1|]. cbn [negb andb].
    destruct Hd as [?|Hh1]; [done|]. destruct (Hk1 h Hh1) as [th Hth]. rewrite (upd_tag_Done k1 h _ th Hth). cbn [mbind outcome_bind].
    erewrite (upd_tag_Done _ b) by (cbn [tags with_tags]; rewrite lookup_insert_ne by done; cbn [tags k1 with_tags]; apply lookup_insert_eq).
    eexists. split; [reflexivity|]. split_and!; [done|done|]. intros p Hs'. cbn [tags with_tags]. do 2 (apply lookup_insert_is_Some'; right). by apply Hk1. }
  cbn [mbind outcome_bind]. unfold head_set. change (rest_class =? -1) with false. cbv iota. unfold array_set, array_get. change (0 <=? rest_class) with true. cbv iota.
  rewrite E2, Hh. cbn [or_undef mbind outcome_bind]. eexists. split; [reflexivity|]. cbn [mgr available_blocks tags with_available]. done.
Qed.

Lemma allocate_pt_step k T : pt_ready k T ->
  (exists k', allocate_pt k = Done ((0, 0), k') /\ pt_ready k' T) \/
  (exists tag t k', allocate_pt k = Done ((tag, t), k') /\ t ∉ T /\ t mod Paging.PAGESIZE = 0 /\ 0 < t < 2 ^ 48 /\ pt_ready k' ({[t]} ∪ T)).
Proof.
  intros R. pose proof R as [Hwf Htop Hz Hl Hn Hr Hu]. unfold allocate_pt.
  assert (head_get k pt_exp = Done 0) as ->.
  { unfold head_get. change (pt_exp =? -1) with false. cbv iota. unfold array_get. change (0 <=? pt_exp) with true. cbv iota. by rewrite Hn. }
  cbn [mbind outcome_bind pt_fit Z.eqb].
  destruct (pt_claim_cases k T R) as [(m & -> & R')|(a & m & -> & Ha & Ham & Hat & Hm & Hnum & Hfree & Hused)].
  { left. cbn [mbind outcome_bind Z.eqb]. by eexists. }
  right. cbn [mbind outcome_bind]. rewrite (proj2 (Z.eqb_neq a 0)) by lia.
  fold region_tag. set (k2 := with_mgr (with_tags k (<[a := region_tag]> (tags k))) m).
  assert (tags k2 !! a = Some region_tag) as Hk2 by apply lookup_insert_eq.
  rewrite (get_at k2 a _ Hk2). cbn [mbind outcome_bind].
  assert (actual_start a region_tag = a + 4096) as ->.
  { unfold actual_start. cbn [region_tag align_bytes]. change (sizeof_block_tag + 4032) with 4096. apply wrap_small. split; lia. }
  set (k3 := zero_memory k2 (a + 4096) page_size).
  assert (tags k3 !! a = Some region_tag) as Hk3 by (unfold k3; rewrite zero_memory_before; [done|unfold sizeof_block_tag; lia]).
  rewrite (get_at k3 a _ Hk3). cbn [mbind outcome_bind]. change (min_block_size + bt_offset <=? available_size region_tag) with true. cbv iota.
  destruct (split_region k3 a Hk3 Ha) as (t4 & ->); [cbn [k3 zero_memory mgr with_tags k2 with_mgr]; rewrite Hnum; done..|].
  cbn [mbind outcome_bind]. set (k4 := with_tags k3 _).
  destruct (lookup_lt_is_Some_2 (available_blocks k) (Z.to_nat rest_class)) as [h Hh]; [rewrite Hl; vm_compute; lia|].
  destruct (insert_rest k4 (a + 8192) h (rest_tag a)) as (k5 & -> & M5 & A5 & D5); [|done|done|done|exact Hl|exact Hh| |].
  { cbn [k4 tags with_tags]. by rewrite lookup_insert_ne, lookup_insert_eq by lia. }
  { destruct (Hr h Hh) as [->|Hs]; [by left|]. right. cbn [k4 tags with_tags]. do 2 (apply lookup_insert_is_Some'; right). apply zero_memory_dom.
    cbn [k2 tags with_tags with_mgr]. apply lookup_insert_is_Some'. by right. }
  cbn [mbind outcome_bind]. rewrite (proj2 (Z.eqb_neq (a + 4096) 0)) by lia.
  destruct (D5 a) as [t5 Ht5]; [cbn [k4 tags with_tags]; rewrite lookup_insert_eq; by eexists|].
  rewrite (get_at k5 a t5 Ht5). cbn [mbind outcome_bind]. eexists _, _, _. split; [reflexivity|].
  assert ((a + 4096) / page_size = a / page_size + 1) as Ediv by (unfold page_size in *; zlia).
  split_and!; try lia.
  - intros Hin. destruct (Hu _ Hin) as [_ Hu1]. rewrite Ediv, Hfree in Hu1 by lia. done.
  - unfold Paging.PAGESIZE, page_size in *. zlia.
  - change (mgr k4) with m in M5. change (available_blocks k4) with (available_blocks k) in A5.
    assert (0 <= a / page_size) as Hq by (apply Z.div_pos; unfold page_size; lia).
    constructor; cbn [mgr available_blocks tags with_remaining]; rewrite ?M5, ?A5.
    + done.
    + by rewrite Hnum.
    + rewrite Hused, Hz by lia. done.
    + by rewrite length_insert.
    + rewrite list_lookup_insert_ne by (vm_compute; lia). done.
    + rewrite list_lookup_insert_eq by (rewrite Hl; vm_compute; lia). intros h' [= <-]. right. apply D5. cbn [k4 tags with_tags].
      apply lookup_insert_is_Some'. right. rewrite lookup_insert_eq. by eexists.
    + intros t [->%elem_of_singleton|Ht]%elem_of_union.
      * split; [lia|]. rewrite Ediv, Hused by lia. destruct (in_pages_spec (a / page_size) 16 (a / page_size + 1)); [by rewrite orb_true_r|lia].
      * destruct (Hu t Ht) as [Ht0 Htu]. split; [done|]. rewrite Hused by (apply Z.div_pos; unfold page_size; lia). by rewrite Htu.
Qed.
(** The kernel heap hands out fresh tables as long as it has no free block of the class. *)
Theorem kernel_heap_supplies k T active l : pt_ready k T -> Paging.fresh_supply (MkPool k active l) T.
Proof.
  intros R m. revert k T l R. induction m as [|m IH]; intros k T l R; [done|].
  cbn [Paging.supplies].
  destruct (allocate_pt_step k T R) as [(k' & E & R')|(tag & t & k' & E & H1 & H2 & H3 & R')];
    (eexists _, _; split; [unfold Paging.alloc_pt, pool_alloc; cbn [heap]; rewrite E; reflexivity|]).
  - left. split; [done|]. by apply IH.
  - right. split_and!; [done|done|lia|lia|]. by apply IH.
Qed.

(** The bytes a live tag holds. *)
Definition payload (k : kframe) (q lo n : Z) : Prop :=
  exists t, tags k !! q = Some t /\ lo = actual_start q t /\ n = held_size t.

(** ** The end of the region *)
(** [pt_claim] puts the tag at the start of the claimed region and counts the whole
    region as its block. *)
Lemma pt_claim_block k a k' :
  pt_claim k = Done (a, k') -> a <> 0 ->
  exists m t, find_and_claim (mgr k) pt_rsz = Done (a, m) /\ tags k' !! a = Some t /\ KFrame.block_size t = pt_rsz.
Proof.
  unfold pt_claim. destruct (find_and_claim (mgr k) pt_rsz) as [[b m]| |]; [|done..]. cbn [mbind outcome_bind].
  destruct (Z.eqb_spec b 0) as [->|Hb]; [intros [= <- <-]; done|].
  unfold place_tag. destruct (_ && _); [|done]. cbn [mbind outcome_bind]. unfold upd_tag, get_tag. cbn. rewrite lookup_insert_eq. cbn.
  intros [= <- <-] _. exists m. eexists. split; [done|]. cbn. by rewrite lookup_insert_eq.
Qed.
(** the region claimed for page tables overlaps the block behind it.  Its tag is
    placed at the start of the region and its block reaches to the end of it, but a
    kernel block allocated from the region behind starts 64 bytes earlier, inside
    that block. *)
Theorem pt_region_overlaps_next k a k' m sz m' q m'' :
  pt_claim k = Done (a, k') -> 0 < a -> a + pt_rsz < 2 ^ 64 ->
  find_and_claim m sz = Done (a + pt_rsz, m') -> allocate_kernel_block m sz = Done (q, m'') ->
  exists t, tags k' !! a = Some t /\ a <= q /\ q + sizeof_block_tag = a + KFrame.block_size t.
Proof.
  intros H Ha Htop Hm Hq. destruct (pt_claim_block k a k' H ltac:(lia)) as (m0 & t & _ & Ht & Hs). exists t. rewrite Hs. split; [done|].
  unfold allocate_kernel_block in Hq. rewrite Hm in Hq. cbn in Hq. injection Hq as <- _.
  change pt_rsz with 65536 in *. unfold sizeof_block_tag. rewrite wrap_small; [lia|]. unfold in_range. lia.
Qed.

(** A machine with one free region. *)
Definition last_region : kframe := MkFrame (replicate 24 0) (replicate 24 0) ∅ (demo 511) region_size.
Definition claimed : kframe := match pt_claim last_region with Done (_, k) => k | _ => last_region end.
Definition behind : kmm := match find_and_claim (mgr claimed) 100064 with Done (_, m) => m | _ => mgr claimed end.
Definition behind_raised : kmm := match allocate_kernel_block (mgr claimed) 100064 with Done (_, m) => m | _ => mgr claimed end.
Lemma pt_region_overlaps_next_witness :
  exists t, tags claimed !! 1071710208 = Some t /\
    1071710208 <= 1071775680 /\ 1071775680 + sizeof_block_tag = 1071710208 + KFrame.block_size t.
Proof.
  apply (pt_region_overlaps_next last_region 1071710208 claimed (mgr claimed) 100064 behind 1071775680 behind_raised);
    vm_compute; reflexivity.
Defined.
(** From there two allocations return overlapping blocks: the bytes of the second
    contain the tag of the first. *)
Lemma live_blocks_overlap :
  exists t k1 p k2 r k3, allocate_pt last_region = Done (t, k1) /\ allocate k1 100000 0 = Done (p, k2) /\
    allocate k2 57280 0 = Done (r, k3) /\ payload k3 (p - 64) p 100000 /\ r <= p - 64 /\ p <= r + 57280.
Proof.
  eexists _, _, _, _, _, _. split_and!; [vm_compute; reflexivity..| |vm_compute; congruence|vm_compute; congruence].
  eexists. split; [vm_compute; reflexivity|]. split; reflexivity.
Qed.

(** ** A block that is too small *)
(** The heap after three allocations, the release of the second and an allocation
    that takes part of it, leaving a free block of 4100 bytes. *)
Definition fragmented : outcome (Z * kframe) :=
  '(_, k1) ← allocate boot_frame 37317 0;
  '(b, k2) ← allocate k1 24000 0;
  '(c, k3) ← allocate k2 4000 0;
  k4 ← deallocate (fun _ => 0) (fun x => x) 10 k3 b 0;
  '(_, k5) ← allocate k4 19900 0;
  Done (c, k5).
(** Space that alignment takes beyond the end of a block is counted as available. *)
Lemma available_size_wraps t b :
  KFrame.block_size t = b -> held_size t = 0 -> 64 <= b -> b - 64 < align_bytes t < 2 ^ 32 ->
  available_size t = 2 ^ 64 + (b - 64 - align_bytes t).
Proof.
  intros Hb Hh H64 Ha. unfold available_size, allocated_size. cbn. rewrite Hb, Hh. change sizeof_block_tag with 64.
  unfold wrap. Z.div_mod_to_equations. lia.
Qed.
(** [allocate_pt] hands out, and clears, a page that is in use.  A free block of
    4100 bytes, in whose place the alignment alone takes 4095, passes the test for a
    page, since the size that remains wraps around; the table that is returned
    covers the whole block of a live allocation of 4000 bytes. *)
Theorem page_table_overlaps_live_block :
  exists c k tag t k', fragmented = Done (c, k) /\ allocate_pt k = Done ((tag, t), k') /\
    payload k (c - 64) c 4000 /\ t < c /\ c + 4000 < t + page_size /\
    exists free, tags k !! tag = Some free /\ is_free free = true /\ tag + KFrame.block_size free < t.
Proof.
  eexists _, _, _, _, _. split_and!; [vm_compute; reflexivity..| | | |].
  - eexists. split; [vm_compute; reflexivity|]. split; reflexivity.
  - vm_compute. reflexivity.
  - vm_compute. reflexivity.
  - eexists. split; [vm_compute; reflexivity|]. split; vm_compute; reflexivity.
Qed.

(** ** An address space whose tables come from the kernel heap *)
Lemma boot_ready : pt_ready boot_frame {[4096]}.
Proof.
  constructor.
  - by apply demo_wf, Nat.leb_le.
  - vm_compute. congruence.
  - vm_compute. reflexivity.
  - reflexivity.
  - vm_compute. reflexivity.
  - intros h H. vm_compute in H. injection H as <-. by left.
  - intros t ->%elem_of_singleton. split; [lia|vm_compute; reflexivity].
Qed.
Definition kernel_space : Paging.ptmem pt_pool := Paging.MkPt {[4096]} ∅ (MkPool boot_frame false []).
Definition kernel_levels (t : Z) : nat := if t =? 4096 then 3%nat else 0%nat.
Lemma kernel_tree : PagingProps.tree kernel_space kernel_levels.
Proof.
  assert (forall t i, Paging.ent kernel_space t i = Paging.zero_entry) as He by (intros; unfold Paging.ent; cbn [Paging.entries kernel_space]; by rewrite lookup_empty).
  constructor; cbn [Paging.tables Paging.pool kernel_space].
  - apply kernel_heap_supplies, boot_ready.
  - intros t ->%elem_of_singleton. done.
  - intros t i _ _. by rewrite He.
  - intros t i t' i' _ _ _ _. by rewrite He.
  - intros t i r _ _. by rewrite He.
  - intros. apply lookup_empty.
  - intros t ->%elem_of_singleton. vm_compute. lia.
Qed.
Lemma map_user_pages_exact_witness :
  exists ret st' lvl2, Paging.map_user_pages kernel_space 0x7FFFFFE00000 0x300000 700 4096 true false = Done (ret, st') /\
    PagingProps.grows kernel_space kernel_levels st' lvl2 /\ (ret = 0 \/ ret = 0x7FFFFFE00000) /\
    (ret = 0x7FFFFFE00000 -> forall a, 0x7FFFFFE00000 <= a < 0x7FFFFFE00000 + Z.of_nat 700 * Paging.PAGESIZE ->
       Paging.frame_translate st' a 4096 = Done (0x300000 + (a - 0x7FFFFFE00000))) /\
    (forall r a, r ∈ Paging.tables kernel_space -> kernel_levels r = 3%nat -> PagingProps.canonical a ->
       ~ (r = 4096 /\ 0x7FFFFFE00000 <= a < 0x7FFFFFE00000 + Z.of_nat 700 * Paging.PAGESIZE) -> PagingProps.leaf st' r a = PagingProps.leaf kernel_space r a).
Proof.
  apply (PagingProps.map_user_pages_exact kernel_space kernel_levels 4096 0x7FFFFFE00000 0x300000 700 true false);
    [apply kernel_tree|by apply elem_of_singleton|reflexivity|lia|lia|lia|reflexivity|reflexivity|vm_compute; congruence|vm_compute; congruence].
Defined.
Lemma unmap_pages_exact_witness :
  exists st', Paging.unmap_pages kernel_space 0x400000 3 4096 = Done st' /\ PagingProps.tree st' kernel_levels /\
    (forall a, 0x400000 <= a < 0x400000 + Z.of_nat 3 * Paging.PAGESIZE -> Paging.global (PagingProps.leaf kernel_space 4096 a) = false -> Paging.frame_translate st' a 4096 = Done 0) /\
    (forall r a, r ∈ Paging.tables kernel_space -> kernel_levels r = 3%nat -> PagingProps.canonical a ->
       ~ (r = 4096 /\ 0x400000 <= a < 0x400000 + Z.of_nat 3 * Paging.PAGESIZE) \/ Paging.global (PagingProps.leaf kernel_space r a) = true ->
       PagingProps.leaf st' r a = PagingProps.leaf kernel_space r a).
Proof.
  apply (PagingProps.unmap_pages_exact kernel_space kernel_levels 4096 0x400000 3);
    [apply kernel_tree|by apply elem_of_singleton|reflexivity|lia|lia|reflexivity|vm_compute; congruence].
Defined.
(** A mapping that crosses a table boundary, evaluated. *)
Example map_across_tables :
  match Paging.map_user_pages kernel_space 0x7FFFFFE00000 0x300000 700 4096 true false with
  | Done (ret, st) => (ret, Paging.frame_translate st (0x7FFFFFE00000 + 600 * 4096 + 5) 4096)
  | _ => (0, Undef)
  end = (0x7FFFFFE00000, Done (0x300000 + 600 * 4096 + 5)).
Proof. vm_compute. reflexivity. Qed.
End PtAllocProps.
