(* ===== verification/UFrame.v ===== *)
(** Stage 3 of the kernel's memory management: the address spaces of user processes
    ([uframe_tag] and the user block functions of [kernel_memory_mgr],
    kernel/mm/kernel_mm.cpp and common/include/kernel/kernel_mm.hpp) and the frame
    manager (kernel/mm/frame_manager.cpp).

    A frame is named by the address of its top page table, the key of the manager's
    set.  The page tables are those of Paging.v; their allocator and the kernel heap
    share one pool, given by an interface of which the kernel frame of PtAlloc.v is
    the instance.  The manager's two unordered maps are finite maps: with their 128
    buckets they behave as such up to 127 entries (HashProps.v).  A frame's spinlock
    is a flag; taking it twice never returns.  The contents of user memory are not
    modelled. *)
From S2P Require Import Prelude Region KFrame Paging PtAlloc.
Import Paging.

Module UFrame.

Abbreviation page_size := PAGESIZE.
(** ** Addresses *)
Definition page_aligned (a : Z) : Z := u64 (a - a mod page_size).
Definition next_page_aligned (a : Z) : Z := if a mod page_size =? 0 then a else page_aligned (u64 (a + page_size)).
Definition trunc (a align : Z) : Z := if 1 <? align then u64 (a - a mod align) else a.
Definition aligned_size (start requested : Z) : Z :=
  u64 (next_page_aligned (u64 (start + requested)) - page_aligned start).
Definition sysres_base : Z := 0xFFFF800000000000.
Definition ENOMEM : Z := 12.

(** ** Frames *)
Record block_descriptor := MkBlock {
  physical_start : Z;
  virtual_start : Z;
  size : Z;
  align : Z;
  write : bool;
  execute : bool }.
(** [operator==] *)
Definition same_block (a b : block_descriptor) : bool :=
  (physical_start a =? physical_start b) && (virtual_start a =? virtual_start b) && (size a =? size b).
Record uframe_tag := MkUframe {
  base : Z;
  extent : Z;
  mapped_max : Z;
  sysres_wm : Z;
  sysres_extent : Z;
  page_table_blocks : list Z;
  usr_blocks : list block_descriptor;
  (** keys of the manager's global blocks *)
  shared_blocks : list Z;
  locked : bool }.
Definition new_uframe (st_base st_extent : Z) : uframe_tag :=
  MkUframe st_base st_extent st_extent sysres_base sysres_base [] [] [] false.
Definition set_extent (f : uframe_tag) (e : Z) : uframe_tag :=
  MkUframe (base f) e (mapped_max f) (sysres_wm f) (sysres_extent f) (page_table_blocks f) (usr_blocks f) (shared_blocks f) (locked f).
Definition set_mapped_max (f : uframe_tag) (m : Z) : uframe_tag :=
  MkUframe (base f) (extent f) m (sysres_wm f) (sysres_extent f) (page_table_blocks f) (usr_blocks f) (shared_blocks f) (locked f).
Definition set_sysres (f : uframe_tag) (wm ext : Z) : uframe_tag :=
  MkUframe (base f) (extent f) (mapped_max f) wm ext (page_table_blocks f) (usr_blocks f) (shared_blocks f) (locked f).
Definition set_pt_blocks (f : uframe_tag) (l : list Z) : uframe_tag :=
  MkUframe (base f) (extent f) (mapped_max f) (sysres_wm f) (sysres_extent f) l (usr_blocks f) (shared_blocks f) (locked f).
Definition set_usr_blocks (f : uframe_tag) (l : list block_descriptor) : uframe_tag :=
  MkUframe (base f) (extent f) (mapped_max f) (sysres_wm f) (sysres_extent f) (page_table_blocks f) l (shared_blocks f) (locked f).
Definition set_shared_blocks (f : uframe_tag) (l : list Z) : uframe_tag :=
  MkUframe (base f) (extent f) (mapped_max f) (sysres_wm f) (sysres_extent f) (page_table_blocks f) (usr_blocks f) l (locked f).
Definition set_locked (f : uframe_tag) (b : bool) : uframe_tag :=
  MkUframe (base f) (extent f) (mapped_max f) (sysres_wm f) (sysres_extent f) (page_table_blocks f) (usr_blocks f) (shared_blocks f) b.

(** ** The kernel heap as user frames see it *)
Class UserHeap (A : Type) : Type := {
  heap_allocate : A -> Z -> Z -> outcome (Z * A);
  heap_deallocate : A -> Z -> Z -> outcome A;
  (** [block_free] *)
  heap_release : A -> Z -> outcome A;
  (** a frame with these page table blocks becomes active; none is active *)
  heap_enter : list Z -> A -> A;
  heap_exit : A -> list Z * A }.

(** The kernel frame; [peek] and [translate] as in KFrame.v, and a number of steps
    for the walk back to a tag. *)
Definition kernel_heap (peek translate : Z -> Z) (fuel : nat) : UserHeap PtAlloc.pt_pool := {|
  heap_allocate a sz al :=
    '(r, k) ← KFrame.KFrame.allocate (PtAlloc.heap a) sz al;
    Done (r, PtAlloc.MkPool k (PtAlloc.frame_active a) (PtAlloc.page_table_blocks a));
  heap_deallocate a p al :=
    k ← KFrame.KFrame.deallocate peek translate fuel (PtAlloc.heap a) p al;
    Done (PtAlloc.MkPool k (PtAlloc.frame_active a) (PtAlloc.page_table_blocks a));
  heap_release a tag :=
    k ← KFrame.KFrame.release_block translate (PtAlloc.heap a) tag;
    Done (PtAlloc.MkPool k (PtAlloc.frame_active a) (PtAlloc.page_table_blocks a));
  heap_enter l a := PtAlloc.MkPool (PtAlloc.heap a) true l;
  heap_exit a := (PtAlloc.page_table_blocks a, PtAlloc.MkPool (PtAlloc.heap a) false []) |}.

Section Frames.
Context {A : Type} {alloc : PtAllocator A} {uh : UserHeap A}.
(** The current root table, and what [copy_kernel_mappings] copies. *)
Context (root kernel_start : Z) (kernel_pages : nat) (is_sigtramp : Z -> bool).

Record shared_block := MkShared { block : block_descriptor; num_refs : Z }.
Record manager := MkManager {
  pm : ptmem A;
  active : option Z;
  frames : gmap Z uframe_tag;
  global_shared : gmap Z shared_block;
  local_shared : gmap Z Z }.
Implicit Types (s : manager) (f : Z).
Definition with_pm s (p : ptmem A) : manager := MkManager p (active s) (frames s) (global_shared s) (local_shared s).
Definition with_active s (o : option Z) : manager := MkManager (pm s) o (frames s) (global_shared s) (local_shared s).
Definition with_frames s (m : gmap Z uframe_tag) : manager := MkManager (pm s) (active s) m (global_shared s) (local_shared s).
Definition with_global s (m : gmap Z shared_block) : manager := MkManager (pm s) (active s) (frames s) m (local_shared s).
Definition with_local s (m : gmap Z Z) : manager := MkManager (pm s) (active s) (frames s) (global_shared s) m.
Definition with_pool s (a : A) : manager := with_pm s (MkPt (tables (pm s)) (entries (pm s)) a).

Definition get_frame s f : outcome uframe_tag := or_undef (frames s !! f).
Definition put_frame s f (u : uframe_tag) : manager := with_frames s (<[f := u]> (frames s)).
Definition upd_frame s f (g : uframe_tag -> uframe_tag) : outcome manager := u ← get_frame s f; Done (put_frame s f (g u)).
Definition lock s f : outcome manager :=
  u ← get_frame s f; if locked u then NoFuel else Done (put_frame s f (set_locked u true)).
Definition unlock s f : outcome manager := upd_frame s f (fun u => set_locked u false).

(** ** [kernel_memory_mgr]: the active frame and user blocks *)
Definition enter_frame s f : outcome manager :=
  u ← get_frame s f; Done (with_active (with_pool s (heap_enter (page_table_blocks u) (pool (pm s)))) (Some f)).
Definition exit_frame s : outcome manager :=
  match active s with
  | None => Done s
  | Some f =>
      let '(l, a) := heap_exit (pool (pm s)) in
      s1 ← upd_frame s f (fun u => set_pt_blocks u l);
      Done (with_active (with_pool s1 a) None)
  end.
Definition pml4_or_root s : Z := match active s with Some f => f | None => root end.
Definition pages_of (sz : Z) : nat := Z.to_nat (div_round_up sz page_size).
Definition allocate_user_block s (sz start al : Z) (w x : bool) : outcome (Z * manager) :=
  let rsz := aligned_size start sz in
  '(result, a) ← heap_allocate (pool (pm s)) rsz al;
  let s1 := with_pool s a in
  let start' := if start =? 0 then result else start in
  if result =? 0 then Done (0, s1)
  else
    '(m, p) ← map_user_pages (pm s1) (trunc start' (Z.max al page_size)) result (pages_of rsz) (pml4_or_root s) w x;
    let s2 := with_pm s1 p in
    if m =? 0 then a' ← heap_deallocate (pool (pm s2)) result al; Done (0, with_pool s2 a')
    else Done (result, s2).
Definition deallocate_user_block s (b sz al : Z) (should_unmap : bool) : outcome manager :=
  phys ← match active s with Some f => frame_translate (pm s) b f | None => Done b end;
  if phys =? 0 then Done s
  else
    a ← heap_deallocate (pool (pm s)) phys al;
    let s1 := with_pool s a in
    match active s with
    | Some f => if should_unmap then p ← unmap_pages (pm s1) b (pages_of sz) f; Done (with_pm s1 p) else Done s1
    | None => Done s1
    end.
Definition map_to_current_frame s (b : block_descriptor) : outcome manager :=
  '(_, p) ← map_user_pages (pm s) (virtual_start b) (physical_start b) (pages_of (size b)) (pml4_or_root s) (write b) (execute b);
  Done (with_pm s p).
Fixpoint map_all_to_current_frame s (bs : list block_descriptor) : outcome manager :=
  match bs with [] => Done s | b :: bs' => s1 ← map_to_current_frame s b; map_all_to_current_frame s1 bs' end.

(** ** [frame_manager]: releasing *)
(** A block is released through a reference: to an element of a frame's vector, or
    to an entry of the map of global blocks. *)
Inductive block_ref := Own (b : block_descriptor) | Global (v : Z).
Definition read_ref s (r : block_ref) : outcome block_descriptor :=
  match r with Own b => Done b | Global v => sb ← or_undef (global_shared s !! v); Done (block sb) end.
Definition finish_release s (r : block_ref) : outcome manager :=
  b ← read_ref s r;
  deallocate_user_block s (virtual_start b) (size b) (align b) (negb (virtual_start b =? physical_start b)).
Definition release_block s (r : block_ref) : outcome manager :=
  b ← read_ref s r;
  match local_shared s !! physical_start b with
  | Some n =>
      if 0 <? n - 1 then Done (with_local s (<[physical_start b := n - 1]> (local_shared s)))
      else finish_release (with_local s (delete (physical_start b) (local_shared s))) r
  | None =>
      match global_shared s !! virtual_start b with
      | Some sb =>
          let n := u64 (num_refs sb - 1) in
          if 0 <? n then Done (with_global s (<[virtual_start b := MkShared (block sb) n]> (global_shared s)))
          else finish_release (with_global s (delete (virtual_start b) (global_shared s))) r
      | None => finish_release s r
      end
  end.
Fixpoint release_all s (rs : list block_ref) : outcome manager :=
  match rs with [] => Done s | r :: rs' => s1 ← release_block s r; release_all s1 rs' end.
Definition drop_local_block s f (b : block_descriptor) : outcome manager :=
  s1 ← enter_frame s f; s2 ← release_block s1 (Own b); exit_frame s2.
Fixpoint free_tags s (tags : list Z) : outcome manager :=
  match tags with [] => Done s | t :: ts => a ← heap_release (pool (pm s)) t; free_tags (with_pool s a) ts end.
(** [None]: [std::out_of_range] is thrown. *)
Definition destroy_frame s f : outcome (option manager) :=
  match frames s !! f with
  | None => Done None
  | Some u =>
      s1 ← enter_frame s f;
      s2 ← release_all s1 (Own <$> usr_blocks u);
      s3 ← release_all s2 (Global <$> shared_blocks u);
      s4 ← exit_frame s3;
      u4 ← get_frame s4 f;
      s5 ← free_tags s4 (page_table_blocks u4);
      Done (Some (with_frames s5 (delete f (frames s5))))
  end.

(** ** [frame_manager]: shared blocks *)
Definition get_global_shared s f (sz start al : Z) (x : bool) : outcome (option Z * manager) :=
  r ← match global_shared s !! start with
      | None =>
          s1 ← enter_frame s f;
          '(allocated, s2) ← allocate_user_block s1 sz start al false x;
          s3 ← exit_frame s2;
          if allocated =? 0 then Done (None, s3)
          else Done (Some start, with_global s3 (<[start := MkShared (MkBlock allocated start sz al false x) 1]> (global_shared s3)))
      | Some sb =>
          s1 ← enter_frame s f;
          s2 ← map_to_current_frame s1 (block sb);
          s3 ← exit_frame s2;
          Done (Some start, with_global s3 (<[start := MkShared (block sb) (u64 (num_refs sb + 1))]> (global_shared s3)))
      end;
  match r with
  | (None, s') => Done (None, s')
  | (Some v, s') => s'' ← upd_frame s' f (fun u => set_shared_blocks u (shared_blocks u ++ [v])); Done (Some v, s'')
  end.
Definition count_references s (v : Z) : Z := match global_shared s !! v with Some sb => signed 32 (num_refs sb) | None => 0 end.

(** ** [uframe_tag] *)
(** The new block, a descriptor or the key of a global one. *)
Definition add_block s f (sz start al : Z) (w x allow_global : bool) : outcome (option block_ref * manager) :=
  if allow_global && negb w then
    '(o, s1) ← get_global_shared s f sz start al x; Done (option_map Global o, s1)
  else
    s1 ← lock s f;
    s2 ← enter_frame s1 f;
    '(allocated, s3) ← allocate_user_block s2 sz start al w x;
    s4 ← exit_frame s3;
    let b := MkBlock allocated start sz al w x in
    s5 ← (if allocated =? 0 then Done s4 else upd_frame s4 f (fun u => set_usr_blocks u (usr_blocks u ++ [b])));
    s6 ← unlock s5 f;
    Done ((if allocated =? 0 then None else Some (Own b)), s6).
Definition accept_block s f (b : block_descriptor) : outcome manager :=
  s1 ← lock s f;
  s2 ← upd_frame s1 f (fun u => set_usr_blocks u (usr_blocks u ++ [b]));
  s3 ← enter_frame s2 f;
  s4 ← map_to_current_frame s3 b;
  s5 ← exit_frame s4;
  unlock s5 f.
(** The first block equal to [b] is taken out. *)
Fixpoint take_block (b : block_descriptor) (l : list block_descriptor) : option (block_descriptor * list block_descriptor) :=
  match l with
  | [] => None
  | c :: l' => if same_block c b then Some (c, l') else '(d, l'') ← take_block b l'; Some (d, c :: l'')
  end.
Definition transfer_block s f that (which : block_descriptor) : outcome manager :=
  s1 ← lock s f;
  u ← get_frame s1 f;
  s2 ← match take_block which (usr_blocks u) with
       | Some (b, _) =>
           s' ← accept_block s1 that b;
           upd_frame s' f (fun u => set_usr_blocks u (match take_block which (usr_blocks u) with Some (_, l) => l | None => usr_blocks u end))
       | None => Done s1
       end;
  unlock s2 f.
Definition translate s f (a : Z) : outcome (Z * manager) :=
  s1 ← enter_frame s f; r ← frame_translate (pm s1) a f; s2 ← exit_frame s1; Done (r, s2).
(** The last block of a vector that a negative change of the extent would start
    from is the position before the first element, which does not exist. *)
Definition shift_extent s f (amount : Z) : outcome (bool * manager) :=
  if amount =? 0 then Done (true, s)
  else if amount <? 0 then
    s1 ← lock s f;
    u ← get_frame s1 f;
    if negb (u64 (- amount) <? u64 (extent u - base u)) then Done (false, s1) else Undef
  else
    u ← get_frame s f;
    let added := aligned_size (extent u) amount in
    '(o, s1) ← add_block s f added (extent u) page_size true false false;
    match o with
    | None => Done (false, s1)
    | Some r =>
        b ← read_ref s1 r;
        s2 ← upd_frame s1 f (fun u => set_extent u (u64 (virtual_start b + size b)));
        Done (true, s2)
    end.
Definition mmap_add s f (addr0 len : Z) (w x : bool) : outcome (Z * manager) :=
  u ← get_frame s f;
  let addr1 := page_aligned addr0 in
  let addr := if addr1 =? 0 then extent u else addr1 in
  '(o, s1) ← add_block s f len addr page_size w x false;
  match o with
  | None => Done (u64 (- ENOMEM), s1)
  | Some _ =>
      let top := u64 (addr + aligned_size addr len) in
      s2 ← upd_frame s1 f (fun u => set_extent (set_mapped_max u (Z.max (mapped_max u) top)) (Z.max (extent u) top));
      Done (addr, s2)
  end.
(** A block that [mmap_remove] drops. *)
Definition covers (a : Z) (b : block_descriptor) : bool := (virtual_start b <? a) && (a <? u64 (virtual_start b + size b)).
(** The loop over the vector: [kept] are the blocks kept so far. *)
Fixpoint remove_loop s f (a : Z) (kept todo : list block_descriptor) : outcome manager :=
  match todo with
  | [] => Done s
  | b :: todo' =>
      if covers a b then
        s1 ← drop_local_block s f b;
        s2 ← upd_frame s1 f (fun u => set_usr_blocks u (kept ++ todo'));
        remove_loop s2 f a kept todo'
      else remove_loop s f a (kept ++ [b]) todo'
  end.
Definition mmap_remove s f (a len : Z) : outcome (bool * manager) :=
  u ← get_frame s f;
  if mapped_max u <? a then Done (false, s)
  else s1 ← remove_loop s f a [] (usr_blocks u); Done (true, s1).
Definition sysres_add s f (n : Z) : outcome (Z * manager) :=
  u ← get_frame s f;
  r ← (if sysres_extent u <? next_page_aligned (u64 (sysres_wm u + n)) then
         let target := sysres_extent u in
         let sz := up_to_nearest n page_size in
         s1 ← enter_frame s f;
         '(allocated, s2) ← allocate_user_block s1 sz target page_size false false;
         s3 ← exit_frame s2;
         if allocated =? 0 then Done (None, s3)
         else
           s4 ← upd_frame s3 f (fun u => set_sysres (set_usr_blocks u (usr_blocks u ++ [MkBlock allocated target sz page_size false false]))
                                          (sysres_wm u) (u64 (sysres_extent u + aligned_size target n)));
           Done (Some tt, s4)
       else Done (Some tt, s));
  match r with
  | (None, s') => Done (0, s')
  | (Some _, s') =>
      u' ← get_frame s' f;
      s'' ← upd_frame s' f (fun u => set_sysres u (next_page_aligned (u64 (sysres_wm u + n))) (sysres_extent u));
      Done (sysres_wm u', s'')
  end.

(** ** System calls (kernel/syscalls/mm_syscalls.cpp), for the frame of the calling
    process; the file contents a mapping is filled with are not modelled. *)
Definition EINVAL : Z := 22.
Definition mmap_min_addr : Z := 0x500000.
Definition syscall_sbrk s f (incr : Z) : outcome (Z * manager) :=
  u ← get_frame s f;
  '(ok, s1) ← shift_extent s f incr;
  Done ((if ok : bool then extent u else u64 (- ENOMEM)), s1).
(** The address a mapping goes to; [None]: the request is invalid. *)
Definition mmap_address (u : uframe_tag) (addr flags : Z) : option Z :=
  let m := Z.max mmap_min_addr (mapped_max u) in
  let min := if m =? page_aligned m then m else page_aligned (u64 (m + page_size)) in
  if negb (addr =? 0) && (Z.land flags 0x10 =? 0) then Some (page_aligned (Z.max min addr))
  else if negb (addr =? 0) && ((addr <? min) || negb (addr =? page_aligned addr)) then None
  else Some addr.
Definition syscall_mmap s f (addr len prot flags offset : Z) : outcome (Z * manager) :=
  u ← get_frame s f;
  if (len =? 0) || (len <? u64 offset) || negb (u64 offset mod page_size =? 0) then Done (u64 (- EINVAL), s)
  else if prot =? 0 then Done (0, s)
  else match mmap_address u addr flags with
       | None => Done (u64 (- EINVAL), s)
       | Some a => mmap_add s f a len (negb (Z.land prot 2 =? 0)) (negb (Z.land prot 1 =? 0))
       end.
(** 0, or a negative error number. *)
Definition syscall_munmap s f (addr len : Z) : outcome (Z * manager) :=
  '(ok, s1) ← mmap_remove s f addr len;
  Done ((if ok : bool then 0 else - EINVAL), s1).

(** ** [frame_manager]: new frames; [None] when an exception is thrown *)
Definition create_frame s (st_base st_extent : Z) : outcome (option Z * manager) :=
  '(pt, a) ← alloc_pt (pool (pm s));
  if pt =? 0 then Done (None, with_pool s a)
  else
    '(r, p) ← copy_kernel_mappings (add_table (pm s) pt a) kernel_start kernel_pages is_sigtramp root pt;
    let s1 := with_pm s p in
    if r =? 0 then Done (None, s1)
    else Done (Some pt, match frames s1 !! pt with Some _ => s1 | None => put_frame s1 pt (new_uframe st_base st_extent) end).
Fixpoint fork_blocks s new (bs : list block_descriptor) : outcome (bool * manager) :=
  match bs with
  | [] => Done (true, s)
  | b :: bs' =>
      if negb (write b) then
        s1 ← accept_block s new b;
        let n := match local_shared s1 !! physical_start b with Some n => n + 1 | None => 2 end in
        fork_blocks (with_local s1 (<[physical_start b := n]> (local_shared s1))) new bs'
      else
        '(o, s1) ← add_block s new (size b) (virtual_start b) (align b) (write b) (execute b) false;
        match o with
        | None => Done (false, s1)
        | Some _ => '(_, s2) ← translate s1 new (virtual_start b); fork_blocks s2 new bs'
        end
  end.
Fixpoint fork_shared s new (vs : list Z) : outcome manager :=
  match vs with
  | [] => Done s
  | v :: vs' =>
      b ← read_ref s (Global v);
      s1 ← enter_frame s new;
      s2 ← map_to_current_frame s1 b;
      s3 ← exit_frame s2;
      s4 ← upd_frame s3 new (fun u => set_shared_blocks u (shared_blocks u ++ [v]));
      sb ← or_undef (global_shared s4 !! virtual_start b);
      fork_shared (with_global s4 (<[virtual_start b := MkShared (block sb) (u64 (num_refs sb + 1))]> (global_shared s4))) new vs'
  end.
Definition fork_frame s old : outcome (option Z * manager) :=
  u ← get_frame s old;
  '(o, s1) ← create_frame s (base u) (extent u);
  match o with
  | None => Done (None, s1)
  | Some new =>
      '(ok, s2) ← fork_blocks s1 new (usr_blocks u);
      if negb ok then Done (None, s2)
      else
        s3 ← fork_shared s2 new (shared_blocks u);
        s4 ← upd_frame s3 new (fun v => set_mapped_max v (mapped_max u));
        Done (Some new, s4)
  end.
End Frames.
End UFrame.
