(* ===== verification/UFrameProps.v ===== *)
(** What the address space operations of user processes do: mapping a block,
    removing one, moving the extent, releasing shared blocks. *)
From S2P Require Import Prelude Region KFrame KFrameAlloc Paging PagingProps PtAlloc PtAllocProps UFrame.
Import KFrameAlloc Paging PagingProps PtAlloc PtAllocProps UFrame.

Module UFrameProps.

(** ** Sizes *)
Lemma page_aligned_id a : 0 <= a < 2 ^ 64 -> a mod PAGESIZE = 0 -> page_aligned a = a.
Proof. intros Ha Hm. unfold page_aligned. rewrite Hm, Z.sub_0_r. by apply wrap_small. Qed.
(** The size reserved for a request at a page boundary: whole pages. *)
Definition pages_for (len : Z) : Z := div_round_up len PAGESIZE.
Lemma pages_for_spec len : 0 <= len -> len <= pages_for len * PAGESIZE < len + PAGESIZE.
Proof. unfold pages_for, div_round_up, PAGESIZE. intros. destruct (Z.eqb_spec (len mod 0x1000) 0); zlia. Qed.
Lemma aligned_size_pages start len :
  0 <= start -> start mod PAGESIZE = 0 -> 0 <= len -> start + len + PAGESIZE < 2 ^ 64 -> aligned_size start len = pages_for len * PAGESIZE.
Proof.
  intros Hs Hm Hl Hb. unfold aligned_size. rewrite page_aligned_id by (unfold PAGESIZE in *; lia). unfold PAGESIZE in *.
  rewrite (wrap_small 64 (start + len)) by (split; lia). unfold next_page_aligned, pages_for, div_round_up, PAGESIZE.
  assert ((start + len) mod 0x1000 = len mod 0x1000) as -> by zlia. destruct (Z.eqb_spec (len mod 0x1000) 0) as [E|E].
  - pose proof (Z_div_mod_eq_full len 0x1000). rewrite wrap_small by (split; lia). lia.
  - unfold page_aligned, PAGESIZE. rewrite (wrap_small 64 (start + len + 0x1000)) by (split; lia).
    assert ((start + len + 0x1000) mod 0x1000 = len mod 0x1000) as -> by zlia.
    pose proof (Z_div_mod_eq_full len 0x1000). pose proof (Z.mod_pos_bound len 0x1000 ltac:(lia)).
    rewrite (wrap_small 64 (start + len + 0x1000 - _)) by (split; lia). rewrite wrap_small by (split; lia). lia.
Qed.
Lemma pages_of_whole n : 0 <= n -> pages_of (n * PAGESIZE) = Z.to_nat n.
Proof. intros. unfold pages_of, div_round_up, PAGESIZE. by rewrite Z.mod_mul, Z.eqb_refl, Z.div_mul by lia. Qed.

(** ** What is asked of the heap *)
(** Entering and leaving a frame does not change which tables come next. *)
Class UserHeapLaws (A : Type) {alloc : PtAllocator A} {uh : UserHeap A} : Prop := {
  heap_enter_law a T l : fresh_supply a T -> fresh_supply (heap_enter l a) T;
  heap_exit_law a T : fresh_supply a T -> fresh_supply (heap_exit a).2 T }.
(** The heap answers a request for [sz] bytes at a page boundary, with such a block or with
    none, and hands out fresh tables afterwards. *)
Definition heap_answers {A : Type} {alloc : PtAllocator A} {uh : UserHeap A} (a : A) (T : gset Z) (sz : Z) : Prop :=
  exists r a', heap_allocate a sz PAGESIZE = Done (r, a') /\ fresh_supply a' T /\ (r = 0 \/ (0 < r /\ r + sz <= 2 ^ 48 /\ r mod PAGESIZE = 0)).

Section Props.
Context {A : Type} {alloc : PtAllocator A} {uh : UserHeap A} {uhl : UserHeapLaws A}.
Context (root : Z).
Implicit Types (s : manager (A := A)) (f : Z).

(** The page tables when only the pool changes. *)
Lemma tree_pool (p : ptmem A) lvl a : tree p lvl -> fresh_supply a (tables p) -> tree (MkPt (tables p) (entries p) a) lvl.
Proof. intros [H1 H2 H3 H4 H5 H6 H7] Ha. by split. Qed.
Lemma get_frame_eq s f u : frames s !! f = Some u -> get_frame s f = Done u.
Proof. unfold get_frame. by intros ->. Qed.
Lemma upd_frame_eq s f u g : frames s !! f = Some u -> upd_frame s f g = Done (put_frame s f (g u)).
Proof. intros H. unfold upd_frame. by rewrite (get_frame_eq _ _ _ H). Qed.

(** ** Allocating a user block *)
(** Translations of the address space [f] from [v] on, for [n] pages, lead to [r];
    all others are as before. *)
Definition maps_block (p' : ptmem A) (f v n r : Z) : Prop :=
  forall a, v <= a < v + n * PAGESIZE -> frame_translate p' a f = Done (r + (a - v)).
Definition keeps_others (p p' : ptmem A) (lvl : Z -> nat) (f v n : Z) : Prop :=
  forall q a, q ∈ tables p -> lvl q = 3%nat -> canonical a -> ~ (q = f /\ v <= a < v + n * PAGESIZE) -> leaf p' q a = leaf p q a.

(** There were not enough tables for the block, and giving it back does not end well. *)
Definition release_stuck (p : ptmem A) (f start len : Z) (w x : bool) : Prop :=
  exists r a p', heap_allocate (pool p) (pages_for len * PAGESIZE) PAGESIZE = Done (r, a) /\ 0 < r /\
    map_user_pages (MkPt (tables p) (entries p) a) start r (Z.to_nat (pages_for len)) f w x = Done (0, p') /\
    forall a', heap_deallocate (pool p') r PAGESIZE <> Done a'.
Lemma allocate_user_block_ok s lvl f start len w x :
  tree (pm s) lvl -> f ∈ tables (pm s) -> lvl f = 3%nat -> active s = Some f ->
  0 < start -> start mod PAGESIZE = 0 -> 0 < len < 2 ^ 39 -> start + len + PAGESIZE <= 2 ^ 47 ->
  heap_answers (pool (pm s)) (tables (pm s)) (pages_for len * PAGESIZE) ->
  (exists r p', allocate_user_block root s len start PAGESIZE w x = Done (r, with_pm s p') /\ keeps_others (pm s) p' lvl f start (pages_for len) /\
     (r = 0 \/ (0 < r /\ r mod PAGESIZE = 0 /\ maps_block p' f start (pages_for len) r /\ exists lvl', grows (pm s) lvl p' lvl'))) \/
  ((forall y, allocate_user_block root s len start PAGESIZE w x <> Done y) /\ release_stuck (pm s) f start len w x).
Proof.
  intros T Hf Hl Hact Hs Hm Hlen Hb (r & a & Er & Ha & Hr). pose proof (pages_for_spec len ltac:(lia)) as Hp.
  assert (Hsz : aligned_size start len = pages_for len * PAGESIZE) by (apply aligned_size_pages; unfold PAGESIZE in *; lia).
  unfold allocate_user_block. rewrite Hsz, (proj2 (Z.eqb_neq start 0)) by lia. unfold pml4_or_root. rewrite Hact, Er. cbn [mbind outcome_bind].
  pose proof (tree_pool _ _ _ T Ha) as T1. set (p1 := MkPt (tables (pm s)) (entries (pm s)) a) in *.
  assert (G1 : grows (pm s) lvl p1 lvl) by by split.
  assert (Hleaf1 : forall q v, leaf p1 q v = leaf (pm s) q v) by (intros; by apply leaf_from_entries).
  destruct (Z.eqb_spec r 0) as [->|Hr0].
  { left. exists 0, p1. split; [done|]. split; [|by left]. intros q v _ _ _ _. apply Hleaf1. }
  destruct Hr as [?|(Hrp & Hrb & Hra)]; [done|].
  assert (trunc start (Z.max PAGESIZE PAGESIZE) = start) as ->.
  { unfold trunc. rewrite Z.max_id. cbn [Z.ltb]. change (1 <? PAGESIZE) with true. rewrite Hm, Z.sub_0_r. apply wrap_small. split; unfold PAGESIZE in *; lia. }
  rewrite pages_of_whole by (unfold PAGESIZE in *; lia).
  destruct (map_user_pages_ok p1 lvl f start r (Z.to_nat (pages_for len)) w x) as (ret & p2 & lvl2 & E & G2 & Hret & Hmap & Hkeep);
    try done; try (rewrite ?Z2Nat.id; unfold PAGESIZE in *; lia).
  change (pm (with_pool s a)) with p1. rewrite E. cbn [mbind outcome_bind].
  rewrite Z2Nat.id in Hmap, Hkeep by (unfold PAGESIZE in *; lia).
  assert (K : keeps_others (pm s) p2 lvl f start (pages_for len)).
  { intros q v Hq Hq3 Hv Hout. rewrite Hkeep by done. apply Hleaf1. }
  destruct (Z.eqb_spec ret 0) as [->|Hn0].
  - change (pool (pm (with_pm (with_pool s a) p2))) with (pool p2).
    destruct (heap_deallocate (pool p2) r PAGESIZE) as [a3| |] eqn:Ed; cbn [mbind outcome_bind].
    2,3: right; split; [done|]; exists r, a, p2; split_and!; [done|done|exact E|by rewrite Ed].
    left. exists 0, (MkPt (tables p2) (entries p2) a3). split; [done|]. split; [|by left].
    intros q v Hq Hq3 Hv Hout. rewrite <- (K q v Hq Hq3 Hv Hout). by apply leaf_from_entries.
  - destruct Hret as [?| ->]; [done|]. left. exists r, p2. split; [done|]. split; [done|]. right. split_and!; [done|done|exact (Hmap eq_refl)|].
    exists lvl2. by eapply grows_trans.
Qed.

(** ** Mapping a block *)
(** The frame after a block was added to it, or not. *)
Definition with_block (u : uframe_tag) (o : option block_descriptor) (l : list Z) : uframe_tag :=
  set_pt_blocks (set_usr_blocks u (usr_blocks u ++ match o with Some b => [b] | None => [] end)) l.
(** The page tables while the frame [u] is active. *)
Definition entered s (u : uframe_tag) : ptmem A := MkPt (tables (pm s)) (entries (pm s)) (heap_enter (page_table_blocks u) (pool (pm s))).
Lemma add_block_ok s lvl f u start len w x :
  tree (pm s) lvl -> f ∈ tables (pm s) -> lvl f = 3%nat -> frames s !! f = Some u -> locked u = false ->
  0 < start -> start mod PAGESIZE = 0 -> 0 < len < 2 ^ 39 -> start + len + PAGESIZE <= 2 ^ 47 ->
  heap_answers (pool (entered s u)) (tables (pm s)) (pages_for len * PAGESIZE) ->
  (exists o s' l, add_block root s f len start PAGESIZE w x false = Done (option_map Own o, s') /\
     active s' = None /\ frames s' = <[f := with_block u o l]> (frames s) /\ keeps_others (pm s) (pm s') lvl f start (pages_for len) /\
     (o = None \/ exists r lvl', o = Some (MkBlock r start len PAGESIZE w x) /\ 0 < r /\ r mod PAGESIZE = 0 /\
        maps_block (pm s') f start (pages_for len) r /\ grows (pm s) lvl (pm s') lvl')) \/
  ((forall y, add_block root s f len start PAGESIZE w x false <> Done y) /\ release_stuck (entered s u) f start len w x).
Proof using uhl.
  intros T Hf Hl Hu Hlk Hs Hm Hlen Hb Hans. unfold add_block. cbn [andb]. unfold lock. rewrite (get_frame_eq _ _ _ Hu). cbn [mbind outcome_bind]. rewrite Hlk.
  set (u1 := set_locked u true). set (s1 := put_frame s f u1). cbn [mbind outcome_bind].
  assert (Hu1 : frames s1 !! f = Some u1) by apply lookup_insert_eq.
  unfold enter_frame. rewrite (get_frame_eq _ _ _ Hu1). cbn [mbind outcome_bind].
  set (s2 := with_active _ (Some f)). change (pm s2) with (entered s u) in *.
  assert (T2 : tree (pm s2) lvl) by (apply tree_pool; [done|apply heap_enter_law, (t_pool _ _ T)]).
  destruct (allocate_user_block_ok s2 lvl f start len w x T2 Hf Hl eq_refl Hs Hm Hlen Hb Hans) as [(r & p3 & -> & K3 & Hr)|[Hno Hst]].
  2: { right. split; [|exact Hst]. intros y. destruct (allocate_user_block root s2 len start PAGESIZE w x) as [[r s3]| |] eqn:E; [|done|done]. by destruct (Hno (r, s3)). }
  left. cbn [mbind outcome_bind]. unfold exit_frame. cbn [with_pm active s2 with_active]. change (pool (pm (with_pm s2 p3))) with (pool p3).
  destruct (heap_exit (pool p3)) as [l a4] eqn:Eex. rewrite (upd_frame_eq (with_pm s2 p3) f u1 _ Hu1). cbn [mbind outcome_bind].
  set (s4 := with_active _ None).
  assert (Hu4 : frames s4 !! f = Some (set_pt_blocks u1 l)) by apply lookup_insert_eq.
  set (o := if r =? 0 then None else Some (MkBlock r start len PAGESIZE w x)).
  assert (Hlast : exists s5, (if r =? 0 then Done s4 else upd_frame s4 f (fun v => set_usr_blocks v (usr_blocks v ++ [MkBlock r start len PAGESIZE w x]))) = Done s5 /\
    pm s5 = pm s4 /\ active s5 = None /\ frames s5 = <[f := set_locked (with_block u o l) true]> (frames s)).
  { unfold o. destruct (r =? 0).
    - exists s4. split_and!; [done..|]. cbn. rewrite !insert_insert_eq. unfold with_block. cbn. by rewrite app_nil_r.
    - rewrite (upd_frame_eq _ _ _ _ Hu4). eexists. split_and!; [done..|]. cbn. rewrite !insert_insert_eq. done. }
  destruct Hlast as (s5 & -> & Hpm5 & Hact5 & Hfr5). cbn [mbind outcome_bind]. unfold unlock.
  erewrite upd_frame_eq; [|rewrite Hfr5; apply lookup_insert_eq]. cbn [mbind outcome_bind].
  exists o, (put_frame s5 f (set_locked (set_locked (with_block u o l) true) false)), l. cbn. rewrite Hpm5, Hact5, Hfr5. cbn.
  assert (Hent : forall q v, leaf (MkPt (tables p3) (entries p3) a4) q v = leaf p3 q v) by (intros; by apply leaf_from_entries).
  split_and!.
  - f_equal. f_equal. unfold o. by destruct (r =? 0).
  - done.
  - rewrite insert_insert_eq. f_equal. unfold with_block, set_locked, set_pt_blocks, set_usr_blocks. cbn. by rewrite Hlk.
  - intros q v Hq Hq3 Hv Hout. rewrite Hent. exact (K3 q v Hq Hq3 Hv Hout).
  - unfold o. destruct Hr as [->|(Hr0 & Hrm & Hmap & lvl3 & G3)]; [by left|]. right. exists r, lvl3. rewrite (proj2 (Z.eqb_neq r 0)) by lia.
    split_and!; [done..| |].
    + intros v Hv. rewrite <- (Hmap v Hv). 
      assert (Tt : tree (MkPt (tables p3) (entries p3) a4) lvl3) by (pose proof (heap_exit_law (pool p3) (tables p3) (t_pool _ _ (gr_tree _ _ _ _ G3))) as Ha4; rewrite Eex in Ha4; apply tree_pool; [apply G3|done]).
      assert (Hf3 : f ∈ tables p3) by by apply (gr_sub _ _ _ _ G3).
      assert (Hl3 : lvl3 f = 3%nat) by by rewrite (gr_lvl _ _ _ _ G3).
      rewrite (frame_translate_leaf _ _ _ v Tt Hf3 Hl3), (frame_translate_leaf _ _ _ v (gr_tree _ _ _ _ G3) Hf3 Hl3). by rewrite Hent.
    + pose proof (heap_exit_law (pool p3) (tables p3) (t_pool _ _ (gr_tree _ _ _ _ G3))) as Ha4. rewrite Eex in Ha4.
      destruct G3 as [G3 G4 G5]. split; [by apply tree_pool|done|done].
Qed.

(** C11: mapping memory for a process.  For an address that is rounded down to a page
    boundary, or the frame's extent when that gives zero, when the heap answers the request
    (with a block or with none) and hands out fresh page tables afterwards, [mmap_add] has
    one of three ends.  It succeeds: it returns the address, every address of the pages
    reserved translates to the same place in one block of memory, the block is recorded in
    the frame, whose extent and highest mapping cover it, and the page tables stay a forest.
    Or it returns -ENOMEM and the frame keeps its blocks.  Or the page tables ran out and
    giving the block back to the heap does not end well.  In the first two cases no other page
    of this or any other address space changes. *)
Theorem mmap_add_maps s lvl f u addr0 addr len w x :
  tree (pm s) lvl -> f ∈ tables (pm s) -> lvl f = 3%nat -> frames s !! f = Some u -> locked u = false ->
  addr = (if page_aligned addr0 =? 0 then extent u else page_aligned addr0) ->
  0 < addr -> addr mod PAGESIZE = 0 -> 0 < len < 2 ^ 39 -> addr + len + PAGESIZE <= 2 ^ 47 ->
  heap_answers (pool (entered s u)) (tables (pm s)) (pages_for len * PAGESIZE) ->
  (exists ret s' u', mmap_add root s f addr0 len w x = Done (ret, s') /\
    keeps_others (pm s) (pm s') lvl f addr (pages_for len) /\ frames s' = <[f := u']> (frames s) /\ locked u' = false /\
    ((ret = 2 ^ 64 - ENOMEM /\ usr_blocks u' = usr_blocks u /\ extent u' = extent u) \/
     (ret = addr /\ exists r lvl', 0 < r /\ r mod PAGESIZE = 0 /\ usr_blocks u' = usr_blocks u ++ [MkBlock r addr len PAGESIZE w x] /\
        maps_block (pm s') f addr (pages_for len) r /\ grows (pm s) lvl (pm s') lvl' /\
        extent u' = Z.max (extent u) (addr + pages_for len * PAGESIZE) /\
        mapped_max u' = Z.max (mapped_max u) (addr + pages_for len * PAGESIZE)))) \/
  ((forall y, mmap_add root s f addr0 len w x <> Done y) /\ release_stuck (entered s u) f addr len w x).
Proof using uhl.
  intros T Hf Hl Hu Hlk Haddr Ha Hm Hlen Hb Hans. pose proof (pages_for_spec len ltac:(lia)) as Hp.
  unfold mmap_add. rewrite (get_frame_eq _ _ _ Hu). cbn [mbind outcome_bind]. rewrite <- Haddr.
  destruct (add_block_ok s lvl f u addr len w x T Hf Hl Hu Hlk Ha Hm Hlen Hb Hans) as [(o & s1 & l & -> & Hact1 & Hfr & K & Ho)|[Hno Hst]].
  2: { right. split; [|exact Hst]. intros y. change page_size with PAGESIZE. destruct (add_block root s f len addr PAGESIZE w x false) as [q| |] eqn:E; [|done|done]. by destruct (Hno q). }
  left. cbn [mbind outcome_bind]. destruct Ho as [->|(r & lvl1 & -> & Hr & Hrm & Hmap & G)]; cbn [option_map].
  - exists (u64 (- ENOMEM)), s1, (with_block u None l). split_and!; [done|done|done|done|]. left. split_and!; [done| |done].
    cbn. by rewrite app_nil_r.
  - erewrite upd_frame_eq; [|rewrite Hfr; apply lookup_insert_eq]. cbn [mbind outcome_bind].
    rewrite aligned_size_pages by (unfold PAGESIZE in *; lia). rewrite (wrap_small 64 (addr + _)) by (split; unfold PAGESIZE in *; lia).
    eexists _, _, _. split; [done|]. cbn [put_frame with_frames pm frames]. rewrite Hfr, insert_insert_eq.
    split_and!; [done|done|done|]. right. split; [done|]. exists r, lvl1. done.
Qed.

(** ** Removing a block *)
Lemma remove_loop_none s f a kept todo : Forall (fun b => covers a b = false) todo -> remove_loop s f a kept todo = Done s.
Proof.
  intros H. revert kept. induction H as [|b todo Hb _ IH]; intros kept; [done|]. cbn [remove_loop]. by rewrite Hb.
Qed.
(** unmapping what was mapped removes nothing.  When the blocks of a frame occupy
    disjoint ranges of addresses and one of them starts at [a], [mmap_remove] at [a]
    reports success and changes neither the blocks nor a single translation. *)
Theorem munmap_keeps_block s f u b a len :
  frames s !! f = Some u -> b ∈ usr_blocks u -> virtual_start b = a -> a <= mapped_max u ->
  (forall c, c ∈ usr_blocks u -> 0 <= virtual_start c /\ 0 < size c /\ virtual_start c + size c < 2 ^ 64) ->
  (forall c, c ∈ usr_blocks u -> virtual_start c <> a -> virtual_start c + size c <= a \/ a + size b <= virtual_start c) ->
  mmap_remove s f a len = Done (true, s).
Proof.
  intros Hu Hb Ha Hmax Hr Hd. unfold mmap_remove. rewrite (get_frame_eq _ _ _ Hu). cbn [mbind outcome_bind].
  destruct (Z.ltb_spec (mapped_max u) a); [lia|]. rewrite remove_loop_none; [done|]. apply Forall_forall. intros c Hc.
  destruct (Hr c Hc) as (H0 & Hs & Ht). destruct (Hr b Hb) as (_ & Hsb & _). unfold covers. rewrite wrap_small by (split; lia).
  destruct (Z.eqb_spec (virtual_start c) a) as [E|E]; [by rewrite E, Z.ltb_irrefl|].
  destruct (Hd c Hc E); destruct (Z.ltb_spec (virtual_start c) a); try done; destruct (Z.ltb_spec a (virtual_start c + size c)); try done; lia.
Qed.

(** ** Shrinking *)
(** a process cannot give memory back.  Lowering the extent of a frame is
    undefined when enough memory could be given back (the loop starts at the position
    before the first block); otherwise it fails and leaves the frame locked, and then
    no operation that adds a block to the frame ever returns. *)
Theorem shrinking_fails s f u amount :
  frames s !! f = Some u -> locked u = false -> amount < 0 ->
  shift_extent root s f amount = Undef \/
  exists s', shift_extent root s f amount = Done (false, s') /\
    (forall sz start al w x, add_block root s' f sz start al w x false = NoFuel) /\
    (forall b, accept_block root s' f b = NoFuel) /\
    (forall addr len w x, mmap_add root s' f addr len w x = NoFuel) /\
    (forall n, 0 < n -> shift_extent root s' f n = NoFuel).
Proof.
  intros Hu Hlk Ha. set (s' := put_frame s f (set_locked u true)).
  assert (Hu' : frames s' !! f = Some (set_locked u true)) by apply lookup_insert_eq.
  assert (Hlock : lock s' f = NoFuel). { unfold lock. by rewrite (get_frame_eq _ _ _ Hu'). }
  assert (Hadd : forall sz start al w x, add_block root s' f sz start al w x false = NoFuel).
  { intros. unfold add_block. cbn [andb]. by rewrite Hlock. }
  assert (E : shift_extent root s f amount = if negb (u64 (- amount) <? u64 (extent u - base u)) then Done (false, s') else Undef).
  { unfold shift_extent. rewrite (proj2 (Z.eqb_neq amount 0)), (proj2 (Z.ltb_lt amount 0)) by lia. unfold lock. rewrite (get_frame_eq _ _ _ Hu).
    cbn [mbind outcome_bind]. rewrite Hlk. cbn [mbind outcome_bind]. fold s'. by rewrite (get_frame_eq _ _ _ Hu'). }
  rewrite E. destruct (u64 (- amount) <? _); cbn [negb]; [by left|]. right. exists s'. split_and!; [done|done|..].
  - intros b. unfold accept_block. by rewrite Hlock.
  - intros. unfold mmap_add. rewrite (get_frame_eq _ _ _ Hu'). cbn [mbind outcome_bind]. by rewrite Hadd.
  - intros n Hn. unfold shift_extent. rewrite (proj2 (Z.eqb_neq n 0)), (proj2 (Z.ltb_ge n 0)) by lia. rewrite (get_frame_eq _ _ _ Hu').
    cbn [mbind outcome_bind]. by rewrite Hadd.
Qed.

(** ** Shared blocks *)
(** A read-only block that several processes share after a fork is released by the
    last of them only. *)
Lemma release_shared_text s b n :
  local_shared s !! physical_start b = Some n -> 1 < n ->
  release_block s (Own b) = Done (with_local s (<[physical_start b := n - 1]> (local_shared s))).
Proof. intros H Hn. unfold release_block. cbn. rewrite H. by rewrite (proj2 (Z.ltb_lt 0 (n - 1))) by lia. Qed.
(** The last reference to a global block: its descriptor is read after the entry that
    holds it was destroyed. *)
Lemma last_global_release_undefined s v sb :
  global_shared s !! v = Some sb -> virtual_start (block sb) = v -> num_refs sb = 1 -> local_shared s !! physical_start (block sb) = None ->
  release_block s (Global v) = Undef.
Proof.
  intros H Hv Hn Hl. unfold release_block. cbn. rewrite H. cbn. rewrite Hl, Hv, H, Hn. cbn. by rewrite lookup_delete_eq.
Qed.
(** A private block that starts at the address of a global block is not freed: the
    reference count of the global block is lowered in its place. *)
Lemma private_block_mistaken s b sb :
  local_shared s !! physical_start b = None -> global_shared s !! virtual_start b = Some sb -> 1 < num_refs sb < 2 ^ 64 ->
  release_block s (Own b) = Done (with_global s (<[virtual_start b := MkShared (block sb) (num_refs sb - 1)]> (global_shared s))).
Proof.
  intros Hl Hg Hn. unfold release_block. cbn. rewrite Hl, Hg. rewrite wrap_small by (split; lia). by rewrite (proj2 (Z.ltb_lt 0 _)) by lia.
Qed.
End Props.

(** ** A machine whose memory comes from the kernel heap *)
Module KernelHeap.
Definition kernel_peek (_ : Z) : Z := 0.
Definition kernel_translate (a : Z) : Z := a.
#[local] Instance kheap : UserHeap pt_pool := kernel_heap kernel_peek kernel_translate 10.
(** Which tables come next is a matter of the heap, not of the frame that asks. *)
Lemma supplies_heap m k b l b' l' T : supplies m (MkPool k b l) T -> supplies m (MkPool k b' l') T.
Proof.
  revert k b l b' l' T. induction m as [|m IH]; intros k b l b' l' T; [done|]. cbn [supplies]. unfold alloc_pt, pool_alloc. cbn [heap].
  destruct (allocate_pt k) as [[[tag t] k']| |]; [|by intros (? & ? & ? & _)..].
  intros (t0 & a0 & [= <- <-] & H). eexists _, _. split; [reflexivity|].
  destruct H as [[-> H]|(H1 & H2 & [H3 H4] & H)]; [left|right]; split_and!; try done; (eapply IH; exact H).
Qed.
#[local] Instance kheap_laws : UserHeapLaws pt_pool.
Proof. split; intros [k b l] **; intros m; cbn; eapply supplies_heap; eauto. Qed.

(** One process, with one block. *)
Definition text : block_descriptor := MkBlock 0x300000 0x400000 0x2000 PAGESIZE false true.
Definition proc : uframe_tag := set_mapped_max (set_usr_blocks (new_uframe 0x400000 0x402000) [text]) 0x402000.
Definition machine : manager := MkManager kernel_space None {[4096 := proc]} ∅ ∅.
(** The kernel heap answers a request for three pages. *)
Definition heap_after : KFrame.kframe := match KFrame.allocate boot_frame 0x3000 PAGESIZE with Done (_, k) => k | _ => boot_frame end.
Lemma heap_after_ready : pt_ready heap_after {[4096]}.
Proof.
  constructor.
  - constructor; [vm_compute; reflexivity|vm_compute; split; congruence| |vm_compute; split; congruence|vm_compute; split; congruence].
    apply (Forall_impl (fun b => Is_true ((0 <=? b) && (b <? 256)))); [|intros b Hb%Is_true_true; unfold is_u8; lia]. apply forallb_True, Is_true_true. vm_compute. reflexivity.
  - vm_compute. congruence.
  - vm_compute. reflexivity.
  - vm_compute. reflexivity.
  - vm_compute. reflexivity.
  - intros h H. vm_compute in H. injection H as <-. by left.
  - intros t ->%elem_of_singleton. split; [lia|vm_compute; reflexivity].
Qed.
Lemma boot_heap_answers : heap_answers (pool (entered machine proc)) {[4096]} 0x3000.
Proof.
  eexists 0x408000, _. split; [vm_compute; reflexivity|]. split; [|right; split_and!; [lia|lia|reflexivity]].
  change (fresh_supply (MkPool heap_after true []) {[4096]}). apply kernel_heap_supplies, heap_after_ready.
Qed.

Lemma mmap_add_maps_witness :
  (exists ret s' u', mmap_add 4096 machine 4096 0x500010 0x2800 true false = Done (ret, s') /\
    keeps_others kernel_space (pm s') kernel_levels 4096 0x500000 (pages_for 0x2800) /\ frames s' = <[4096 := u']> {[4096 := proc]} /\ locked u' = false /\
    ((ret = 2 ^ 64 - ENOMEM /\ usr_blocks u' = [text] /\ extent u' = 0x402000) \/
     (ret = 0x500000 /\ exists r lvl', 0 < r /\ r mod PAGESIZE = 0 /\ usr_blocks u' = [text; MkBlock r 0x500000 0x2800 PAGESIZE true false] /\
        maps_block (pm s') 4096 0x500000 (pages_for 0x2800) r /\ grows kernel_space kernel_levels (pm s') lvl' /\
        extent u' = Z.max 0x402000 (0x500000 + pages_for 0x2800 * PAGESIZE) /\
        mapped_max u' = Z.max 0x402000 (0x500000 + pages_for 0x2800 * PAGESIZE)))) \/
  ((forall y, mmap_add 4096 machine 4096 0x500010 0x2800 true false <> Done y) /\ release_stuck (entered machine proc) 4096 0x500000 0x2800 true false).
Proof.
  apply (mmap_add_maps 4096 machine kernel_levels 4096 proc 0x500010 0x500000 0x2800 true false);
    [apply kernel_tree|by apply elem_of_singleton|reflexivity|reflexivity|reflexivity|reflexivity|lia|reflexivity|lia|vm_compute; congruence|apply boot_heap_answers].
Defined.
(** The same request, evaluated: it succeeds. *)
Example mmap_add_evaluated :
  match mmap_add 4096 machine 4096 0x500010 0x2800 true false with
  | Done (ret, s) => (ret, frame_translate (pm s) 0x501234 4096, bool_decide (frame_translate (pm s) 0x503000 4096 = Done 0))
  | _ => (0, Undef, false)
  end = (0x500000, Done 0x409234, true).
Proof. vm_compute. reflexivity. Qed.
Lemma munmap_keeps_block_witness : mmap_remove machine 4096 0x400000 0x2000 = Done (true, machine).
Proof.
  apply (munmap_keeps_block machine 4096 proc text 0x400000 0x2000);
    [reflexivity|by left|reflexivity|vm_compute; congruence|..]; intros c [->|[]%elem_of_nil]%elem_of_cons; [vm_compute; repeat split; congruence|done].
Defined.
Lemma shrinking_fails_witness :
  shift_extent 4096 machine 4096 (-4096) = Undef \/
  exists s', shift_extent 4096 machine 4096 (-4096) = Done (false, s') /\
    (forall sz start al w x, add_block 4096 s' 4096 sz start al w x false = NoFuel) /\
    (forall b, accept_block 4096 s' 4096 b = NoFuel) /\
    (forall addr len w x, mmap_add 4096 s' 4096 addr len w x = NoFuel) /\
    (forall n, 0 < n -> shift_extent 4096 s' 4096 n = NoFuel).
Proof. apply (shrinking_fails 4096 machine 4096 proc (-4096)); [reflexivity|reflexivity|lia]. Defined.
End KernelHeap.
End UFrameProps.
