(* ===== verification/DynQueue.v ===== *)
(** The resettable queue of the scheduler: [std::__impl::__dynamic_queue]
    (common/include/c++/bits/dynamic_queue.hpp) and the public class
    [std::ext::resettable_queue] over it (bits/stl_queue.hpp).

    The four pointers of the source become offsets from [__begin]: the storage is a
    list of cells whose length is the capacity, [nx] is [__next] (one past the last
    element extracted) and [en] is [__end] (one past the last element inserted).  A
    null buffer is the empty storage.  A cell is [None] when the memory behind it
    holds no value: the allocator clears what it allocates, but growing a buffer in
    place does not clear the added part. *)
From S2P Require Import Prelude.

Record dynq (A : Type) := DQ {
  cells : list (option A);
  nx : Z;
  en : Z;
  op_cnt : Z;
  op_thresh : Z;
  size_thresh : Z;
  trim_enabled : bool }.
Arguments DQ {A}.
Arguments cells {A}.
Arguments nx {A}.
Arguments en {A}.
Arguments op_cnt {A}.
Arguments op_thresh {A}.
Arguments size_thresh {A}.
Arguments trim_enabled {A}.

#[export] Instance dynq_eq_dec A `{EqDecision A} : EqDecision (dynq A).
Proof. solve_decision. Defined.

Section queue.
Context {A : Type} `{EqDecision A} (zero : A).
Implicit Types (q : dynq A) (x : A).

Definition qcapacity q : Z := Z.of_nat (length (cells q)).
Definition qsize q : Z := u64 (en q).
Definition qrem q : Z := u64 (en q - nx q).
Definition cap_rem q : Z := u64 (qcapacity q - en q).
Definition q_out_of_range q (pos : Z) : bool := (pos <? 0) || (qcapacity q <=? pos).

Definition set_nx q n : dynq A := DQ (cells q) n (en q) (op_cnt q) (op_thresh q) (size_thresh q) (trim_enabled q).
Definition set_en q n : dynq A := DQ (cells q) (nx q) n (op_cnt q) (op_thresh q) (size_thresh q) (trim_enabled q).
Definition set_op_cnt q n : dynq A := DQ (cells q) (nx q) (en q) n (op_thresh q) (size_thresh q) (trim_enabled q).
Definition set_ptrs q c n e : dynq A := DQ c n e (op_cnt q) (op_thresh q) (size_thresh q) (trim_enabled q).
Definition set_trim_stale q b : dynq A := DQ (cells q) (nx q) (en q) (op_cnt q) (op_thresh q) (size_thresh q) b.

(** The default-constructed queue. *)
Definition dq_empty : dynq A := DQ [] 0 0 0 3 16 false.

(** [std::allocator::allocate]: cleared cells; a count whose wrapped value has no
    address range behind it is never satisfied. *)
Definition allocate (n : Z) : outcome (list (option A)) :=
  if n <? 2 ^ 48 then Done (replicate (Z.to_nat n) (Some zero)) else Undef.

Definition qget q (i : Z) : outcome A :=
  c ← array_get (cells q) i; or_undef c.

(** Copying [n] cells out of the storage, and writing cells into it. *)
Definition slice q (from n : Z) : outcome (list (option A)) :=
  if (0 <=? from) && (0 <=? n) && (from + n <=? qcapacity q)
  then Done (take (Z.to_nat n) (drop (Z.to_nat from) (cells q))) else Undef.
Definition write_cells (l : list (option A)) (off : Z) (v : list (option A)) : outcome (list (option A)) :=
  if (0 <=? off) && (off + Z.of_nat (length v) <=? Z.of_nat (length l))
  then Done (take (Z.to_nat off) l ++ v ++ drop (Z.to_nat off + length v) l) else Undef.

(** [__qdestroy]: the storage is released and the operation count cleared. *)
Definition qdestroy q : dynq A :=
  if qcapacity q =? 0 then q else set_op_cnt (set_ptrs q [] 0 0) 0.

Definition qsetn q (where_ : Z) : dynq A :=
  if negb (q_out_of_range q where_) && (where_ <=? en q) then set_nx q where_ else q.
Definition qrst q : dynq A := qsetn q 0.

Definition pop_next q : option Z * dynq A :=
  if nx q <? en q then (Some (nx q), set_nx q (nx q + 1)) else (None, q).
Definition unpop q : option Z * dynq A :=
  if 0 <? nx q then (Some (nx q - 1), set_op_cnt (set_nx q (nx q - 1)) 0) else (None, q).

Definition erase_before_next q : outcome (Z * dynq A) :=
  let result := u64 (nx q) in
  fresh ← allocate (qcapacity q);
  live ← slice q (nx q) (qrem q);
  c ← write_cells fresh 0 live;
  Done (result, set_ptrs (qdestroy q) c 0 (qrem q)).

Definition is_stale q : bool := (op_thresh q <? op_cnt q) && (size_thresh q <? nx q).
Definition trim_stale q : outcome (Z * dynq A) :=
  if is_stale q then erase_before_next q else Done (0, q).
Definition on_modify_queue q : outcome (dynq A) :=
  if trim_enabled q then '(_, q1) ← trim_stale q; Done q1 else Done q.

(** [__q_grow_buffer]: a null buffer is allocated (cleared); another one is
    reallocated, keeping its contents. *)
Definition q_grow_buffer q (added : Z) : outcome (dynq A) :=
  if added =? 0 then Done q else
  let target_cap := u64 (qcapacity q + added) in
  c ← (if qcapacity q =? 0 then allocate target_cap
       else if target_cap <? 2 ^ 48
            then Done (take (Z.to_nat target_cap) (cells q)
                       ++ replicate (Z.to_nat (target_cap - qcapacity q)) None) else Undef);
  Done (set_ptrs q c (nx q) (qsize q)).

(** The growth test the push operations share. *)
Definition needs_growth q (count : Z) : bool := qcapacity q <=? en q + count.
Definition growth q (count : Z) : Z := u64 (count - cap_rem q).
Definition grow_for q (count : Z) : outcome (dynq A) :=
  if needs_growth q count then q_grow_buffer q (growth q count) else Done q.

Definition append_cells q (v : list (option A)) : outcome (dynq A) :=
  c ← write_cells (cells q) (en q) v;
  let q1 := set_ptrs q c (nx q) (en q + Z.of_nat (length v)) in
  on_modify_queue (set_op_cnt q1 (wrap 32 (op_cnt q1 + 1))).

(** [__push_elements(T const&, size_type)], and the overloads taking a range
    [start, end) that has been read as [v]. *)
Definition push_value q x (count : Z) : outcome (dynq A) :=
  q1 ← grow_for q count; append_cells q1 (replicate (Z.to_nat count) (Some x)).
Definition push_range q (v : list (option A)) : outcome (dynq A) :=
  if (length v =? 0)%nat then Done q
  else q1 ← grow_for q (Z.of_nat (length v)); append_cells q1 v.

(** [__pop_elements(pointer, pointer)] into room for [room] elements. *)
Definition pop_elements q (room : Z) : outcome (list (option A) * dynq A) :=
  if room <=? 0 then Done ([], q) else
  let count := Z.min (qrem q) room in
  out ← slice q (nx q) count;
  q1 ← on_modify_queue (set_op_cnt (set_nx q (nx q + count)) 0);
  Done (out, q1).

Definition erase_one q (where_ : Z) : outcome (Z * dynq A) :=
  if q_out_of_range q where_ then Done (0, q) else
  let s := qsize q in
  if s =? 1 then Done (1, set_ptrs (qdestroy q) [] 0 0) else
  let pos := where_ in
  if s <=? pos then Done (0, q) else
  let nxpos := if where_ <? nx q then u64 (nx q - 1) else u64 (nx q) in
  let rpos := pos + 1 in
  let r := u64 (s - rpos) in
  fresh ← allocate (u64 (qcapacity q - 1));
  a ← slice q 0 pos;
  b ← slice q rpos r;
  c1 ← write_cells fresh 0 a;
  c2 ← write_cells c1 pos b;
  Done (1, set_ptrs (qdestroy q) c2 nxpos (s - 1)).

Definition erase_elements q (start n0 : Z) : outcome (Z * dynq A) :=
  if q_out_of_range q start then Done (0, q) else
  let n := if en q <? start + n0 then u64 (en q - start) else n0 in
  let pos := start in
  let rpos := u64 (pos + n) in
  if (start =? 0) && (qsize q <=? rpos) then Done (qsize q, set_ptrs (qdestroy q) [] 0 0) else
  let nxpos := if start <? nx q then u64 (nx q) - Z.min (u64 (nx q)) n else u64 (nx q) in
  let r := u64 (qsize q - rpos) in
  let s := u64 (qsize q - n) in
  fresh ← allocate (u64 (qcapacity q - n));
  a ← slice q 0 pos;
  b ← slice q rpos r;
  c1 ← write_cells fresh 0 a;
  c2 ← write_cells c1 pos b;
  Done (n, set_ptrs (qdestroy q) c2 nxpos s).

(** [__insert]; [__bumpc] advances [__end] and [__bumpn] advances [__next]. *)
Definition insert_q q (where_ : Z) x (how_many : Z) : outcome (option Z * dynq A) :=
  if q_out_of_range q where_ then Done (None, q) else
  if how_many =? 0 then Done (None, q) else
  fresh ← allocate (u64 (qcapacity q + how_many));
  let tmp_end := if where_ <? nx q then nx q + how_many else nx q in
  let tmp_next := if where_ <? en q then qsize q + how_many else where_ in
  let preface := where_ in
  a ← slice q 0 preface;
  c1 ← write_cells fresh 0 a;
  c2 ← write_cells c1 preface (replicate (Z.to_nat how_many) (Some x));
  b ← slice q preface (u64 (en q - where_));
  c3 ← write_cells c2 (preface + how_many) b;
  Done (Some (preface + how_many - 1), set_ptrs (qdestroy q) c3 tmp_next tmp_end).

Definition qclear q : outcome (dynq A) :=
  let cap := qcapacity q in
  c ← allocate cap;
  on_modify_queue (set_ptrs (qdestroy q) c 0 0).

(** ** The public class *)
Definition reserve q (ncap : Z) : outcome (dynq A) :=
  if qcapacity q <? ncap then q_grow_buffer q (ncap - qcapacity q) else Done q.
Definition size_q q : Z := qrem q.
Definition empty_q q : bool := qsize q =? 0.
Definition at_end q : bool := qrem q =? 0.
Definition restart q : dynq A := qrst q.
Definition next q : outcome A := qget q (nx q).
Definition back q : outcome A := qget q (en q - 1).
Definition push q x : outcome (dynq A) := push_value q x 1.

(** [pop] throws when nothing is left: [None]. *)
Definition pop q : outcome (option A * dynq A) :=
  match pop_next q with
  | (Some i, q1) => x ← qget q i; Done (Some x, q1)
  | (None, q1) => Done (None, q1)
  end.
Definition erase q (where_ : Z) : outcome (Z * dynq A) := erase_one q where_.
Definition insert_at q (where_ : Z) x : outcome (Z * dynq A) :=
  '(r, q1) ← insert_q q where_ x 1;
  Done (match r with Some i => i | None => en q1 end, q1).

(** [find_like]: the walk stops only at [end()], so a position past it runs to the
    end of the storage and beyond. *)
Fixpoint find_from (fuel : nat) q (p : A -> bool) (i : Z) : outcome Z :=
  if i =? en q then Done (en q) else
  match fuel with
  | O => NoFuel
  | S fuel => x ← qget q i; if p x then Done i else find_from fuel q p (i + 1)
  end.
Definition find_by q (p : A -> bool) (include_stale : bool) : outcome Z :=
  find_from (S (length (cells q))) q p (if include_stale then 0 else nx q).
Definition find q x (include_stale : bool) : outcome Z :=
  find_by q (fun y => bool_decide (y = x)) include_stale.

(** [transfer] of [how_many] elements at the current position to another queue. *)
Definition transfer q (to_whom : dynq A) (how_many : Z) : outcome (Z * dynq A * dynq A) :=
  to1 ← (if how_many =? 0 then Done to_whom
         else g ← grow_for to_whom how_many; v ← slice q (nx q) how_many; append_cells g v);
  '(n, q1) ← erase_elements q (nx q) how_many;
  Done (n, q1, to1).
(** [transfer] from a queue to itself: the range starts in the very storage that
    growing would replace. *)
Definition transfer_self q (how_many : Z) : outcome (Z * dynq A) :=
  q1 ← (if how_many =? 0 then Done q
        else if needs_growth q how_many && negb (growth q how_many =? 0) then Undef
        else v ← slice q (nx q) how_many; append_cells q v);
  erase_elements q1 (nx q1) how_many.
End queue.

(** ** Abstract view

    A queue stands for the list of the elements it holds, extracted ones included,
    and the position of the next one. *)
Section refinement.
Context {A : Type} `{EqDecision A} (zero : A).
Implicit Types (q : dynq A) (x : A) (l : list A) (k : nat).

Definition cap_bound : Z := 2 ^ 47.
Definition rep q l k : Prop :=
  nx q = Z.of_nat k /\ en q = Z.of_nat (length l) /\ (k <= length l)%nat /\
  (exists junk, cells q = (Some <$> l) ++ junk) /\ qcapacity q < cap_bound.

Lemma u64_small z : 0 <= z < 2 ^ 64 -> u64 z = z.
Proof. intros. by apply wrap_small. Qed.

Ltac unrep H :=
  let j := fresh "junk" in
  destruct H as (Hnx & Hen & Hk & [j Hcells] & Hcap);
  unfold qcapacity, cap_bound in Hcap;
  let Hlen := fresh "Hlen" in
  pose proof (f_equal (@length _) Hcells) as Hlen;
  rewrite length_app, length_fmap in Hlen.

Lemma rep_qsize q l k : rep q l k -> qsize q = Z.of_nat (length l).
Proof. intros H. unrep H. unfold qsize. rewrite Hen, u64_small; lia. Qed.
Lemma rep_qrem q l k : rep q l k -> qrem q = Z.of_nat (length l - k).
Proof. intros H. unrep H. unfold qrem. rewrite Hen, Hnx, u64_small; lia. Qed.
Lemma rep_qget q l k i x : rep q l k -> l !! i = Some x -> qget q (Z.of_nat i) = Done x.
Proof.
  intros H Hi. unrep H. unfold qget, array_get.
  destruct (Z.leb_spec 0 (Z.of_nat i)); [|lia]. rewrite Nat2Z.id, Hcells, lookup_app_l
    by (rewrite length_fmap; by apply lookup_lt_Some in Hi).
  by rewrite list_lookup_fmap, Hi.
Qed.
Lemma rep_set_op_cnt q l k n : rep (set_op_cnt q n) l k <-> rep q l k.
Proof. done. Qed.
Lemma rep_set_nx q l k k' : rep q l k -> (k' <= length l)%nat -> rep (set_nx q (Z.of_nat k')) l k'.
Proof. intros H ?. unrep H. split_and!; simpl; eauto. Qed.

Lemma rep_set_ptrs q l k (c junk : list (option A)) n e :
  c = (Some <$> l) ++ junk -> n = Z.of_nat k -> e = Z.of_nat (length l) -> (k <= length l)%nat ->
  Z.of_nat (length c) < cap_bound -> rep (set_ptrs q c n e) l k.
Proof. intros. split_and!; simpl; eauto. Qed.

Lemma slice_full q l k i n :
  rep q l k -> (i + n <= length l)%nat ->
  slice q (Z.of_nat i) (Z.of_nat n) = Done (Some <$> take n (drop i l)).
Proof.
  intros H Hin. unrep H. unfold slice, qcapacity.
  destruct (Z.leb_spec 0 (Z.of_nat i)); [|lia]. destruct (Z.leb_spec 0 (Z.of_nat n)); [|lia].
  destruct (Z.leb_spec (Z.of_nat i + Z.of_nat n) (Z.of_nat (length (cells q)))); [|lia]. cbn [andb].
  rewrite !Nat2Z.id, Hcells. rewrite fmap_take, fmap_drop.
  rewrite drop_app_le by (rewrite length_fmap; lia).
  by rewrite take_app_le by (rewrite length_drop, length_fmap; lia).
Qed.

Lemma write_cells_Done (c v : list (option A)) n :
  (n + length v <= length c)%nat ->
  write_cells c (Z.of_nat n) v = Done (take n c ++ v ++ drop (n + length v) c).
Proof.
  intros. unfold write_cells. rewrite Nat2Z.id.
  destruct (Z.leb_spec 0 (Z.of_nat n)); [|lia].
  by destruct (Z.leb_spec (Z.of_nat n + Z.of_nat (length v)) (Z.of_nat (length c))); [|lia].
Qed.
Lemma allocate_Done n : Z.of_nat n < 2 ^ 48 -> allocate zero (Z.of_nat n) = Done (replicate n (Some zero)).
Proof. intros. unfold allocate. rewrite Nat2Z.id. by destruct (Z.ltb_spec (Z.of_nat n) (2 ^ 48)); [|lia]. Qed.

Lemma erase_before_next_rep q l k :
  rep q l k -> exists q', erase_before_next zero q = Done (Z.of_nat k, q') /\ rep q' (drop k l) 0 /\
    cells q' = (Some <$> drop k l) ++ replicate (length (cells q) - (length l - k)) (Some zero) /\
    trim_enabled q' = trim_enabled q.
Proof.
  intros H. pose proof H as H0. unrep H. unfold erase_before_next.
  rewrite (rep_qrem _ _ _ H0), Hnx. unfold qcapacity. rewrite allocate_Done by lia.
  cbn [mbind outcome_bind]. rewrite (slice_full _ _ _ _ _ H0) by lia. cbn [mbind outcome_bind].
  rewrite (write_cells_Done _ _ 0%nat) by (rewrite length_replicate, length_fmap, length_take, length_drop; lia).
  cbn [mbind outcome_bind]. rewrite (u64_small (Z.of_nat k)) by lia. eexists; split; [done|].
  assert (take (length l - k) (drop k l) = drop k l) as -> by (apply take_ge; rewrite length_drop; lia).
  assert (drop (0 + length (Some <$> drop k l)) (replicate (length (cells q)) (Some zero))
          = replicate (length (cells q) - (length l - k)) (Some zero)) as ->.
  { rewrite drop_replicate, length_fmap, length_drop. f_equal. }
  assert (Htr : trim_enabled (qdestroy q) = trim_enabled q) by (unfold qdestroy; by case_match).
  split_and!; [|done|done]. eapply rep_set_ptrs; [done|lia|by rewrite length_drop|lia|].
  unfold cap_bound. rewrite !length_app, length_take, length_fmap, length_drop, !length_replicate. lia.
Qed.

(** What appending does to the abstract view: the trimming a queue may be
    configured to do drops the elements already extracted. *)
Definition appended q l k (v : list A) (q' : dynq A) : Prop :=
  (rep q' (l ++ v) k \/ (trim_enabled q = true /\ rep q' (drop k l ++ v) 0)) /\
  trim_enabled q' = trim_enabled q /\ qcapacity q' = qcapacity q.

Lemma append_cells_rep q l k v :
  rep q l k -> Z.of_nat (length l) + Z.of_nat (length v) <= qcapacity q ->
  exists q', append_cells zero q (Some <$> v) = Done q' /\ appended q l k v q'.
Proof.
  intros H Hroom. pose proof H as H0. unrep H. unfold qcapacity in Hroom. unfold append_cells.
  rewrite Hen, write_cells_Done by (rewrite length_fmap; lia). cbn [mbind outcome_bind].
  set (q1 := set_op_cnt _ _).
  assert (Hcap1 : qcapacity q1 = qcapacity q).
  { unfold qcapacity, q1. cbn [cells set_op_cnt set_ptrs].
    rewrite !length_app, length_take, length_drop, length_fmap. lia. }
  assert (H1 : rep q1 (l ++ v) k).
  { apply rep_set_op_cnt. eapply rep_set_ptrs; [|done| |rewrite length_app; lia|].
    - rewrite Hcells, take_app_le, take_ge by (rewrite length_fmap; lia).
      rewrite fmap_app, <- app_assoc. done.
    - rewrite length_app, length_fmap; lia.
    - unfold qcapacity, q1 in Hcap1. cbn [cells set_op_cnt set_ptrs] in Hcap1. rewrite Hcap1. exact Hcap. }
  unfold on_modify_queue, trim_stale. change (trim_enabled q1) with (trim_enabled q).
  destruct (trim_enabled q) eqn:Htr; [|exists q1; split; [done|]; split_and!; auto].
  destruct (is_stale q1); cbn [mbind outcome_bind]; [|exists q1; split; [done|]; split_and!; auto].
  destruct (erase_before_next_rep _ _ _ H1) as (q' & -> & Hq' & Hc' & Htr').
  exists q'. split; [done|]. split_and!; [right|by rewrite Htr'|].
  - rewrite drop_app_le in Hq' by lia. done.
  - rewrite <- Hcap1. unfold qcapacity. rewrite Hc', length_app, length_fmap, length_replicate, length_drop, length_app.
    unfold qcapacity, q1 in Hcap1. cbn [cells set_op_cnt set_ptrs] in Hcap1. unfold q1. cbn [cells set_op_cnt set_ptrs]. lia.
Qed.

Lemma grow_for_rep q l k n :
  rep q l k -> 0 < n -> qcapacity q + n < cap_bound ->
  exists q', grow_for zero q n = Done q' /\ rep q' l k /\ Z.of_nat (length l) + n <= qcapacity q' /\
    qcapacity q <= qcapacity q' <= qcapacity q + n /\ trim_enabled q' = trim_enabled q.
Proof.
  intros H Hn Hb. pose proof H as H0. unrep H. unfold cap_bound, qcapacity in Hb.
  unfold grow_for, needs_growth. rewrite Hen.
  destruct (Z.leb_spec (qcapacity q) (Z.of_nat (length l) + n)) as [Hg|Hg].
  2: { exists q. unfold qcapacity in *. split_and!; try done; lia. }
  unfold growth, cap_rem. rewrite Hen. unfold qcapacity in *.
  rewrite (u64_small (_ - Z.of_nat (length l))), u64_small by lia. unfold q_grow_buffer.
  set (added := n - (Z.of_nat (length (cells q)) - Z.of_nat (length l))).
  destruct (Z.eqb_spec added 0) as [Ha|Ha].
  { exists q. unfold added, qcapacity in *. split_and!; try done; lia. }
  rewrite (rep_qsize _ _ _ H0), Hnx. unfold qcapacity. rewrite (u64_small (_ + added)) by (unfold added in *; lia).
  assert (exists junk', (if Z.of_nat (length (cells q)) =? 0 then allocate zero (Z.of_nat (length (cells q)) + added)
      else if Z.of_nat (length (cells q)) + added <? 2 ^ 48
       then Done (take (Z.to_nat (Z.of_nat (length (cells q)) + added)) (cells q) ++
             replicate (Z.to_nat (Z.of_nat (length (cells q)) + added - Z.of_nat (length (cells q)))) None)
       else Undef) = Done ((Some <$> l) ++ junk')
      /\ Z.of_nat (length l + length junk') = Z.of_nat (length (cells q)) + added) as (junk' & -> & Hj).
  { destruct (Z.eqb_spec (Z.of_nat (length (cells q))) 0) as [He|He].
    - assert (l = []) as -> by (apply length_zero_iff_nil; lia).
      exists (replicate (Z.to_nat (Z.of_nat (length (cells q)) + added)) (Some zero)). unfold allocate.
      destruct (Z.ltb_spec (Z.of_nat (length (cells q)) + added) (2 ^ 48)); [|unfold added in *; lia].
      rewrite length_replicate. cbn [length] in *. split; [done|]. unfold added in *; lia.
    - destruct (Z.ltb_spec (Z.of_nat (length (cells q)) + added) (2 ^ 48)); [|unfold added in *; lia].
      rewrite take_ge by (unfold added in *; lia). eexists; split.
      { rewrite Hcells, <- app_assoc. done. } rewrite length_app, length_replicate. unfold added in *; lia. }
  cbn [mbind outcome_bind]. eexists; split; [done|].
  unfold qcapacity. cbn [set_ptrs cells trim_enabled]. rewrite length_app, length_fmap.
  split_and!; try done; try (unfold added in *; lia).
  eapply rep_set_ptrs; [done..|]. unfold cap_bound. rewrite length_app, length_fmap. unfold added in *; lia.
Qed.

Lemma push_rep q l k x :
  rep q l k -> qcapacity q + 1 < cap_bound ->
  exists q', push zero q x = Done q' /\
    (rep q' (l ++ [x]) k \/ (trim_enabled q = true /\ rep q' (drop k l ++ [x]) 0)) /\
    trim_enabled q' = trim_enabled q /\ qcapacity q' <= qcapacity q + 1.
Proof.
  intros H Hb. unfold push, push_value.
  destruct (grow_for_rep _ _ _ 1 H ltac:(lia) Hb) as (q1 & -> & H1 & Hr & Hc & Ht). cbn [mbind outcome_bind].
  destruct (append_cells_rep q1 l k [x] H1) as (q' & Hq' & Ha & Ht' & Hc'); [cbn [length]; lia|].
  change (replicate (Z.to_nat 1) (Some x)) with (Some <$> [x]). exists q'. split; [done|].
  rewrite Ht in *. split_and!; [done..|lia].
Qed.

Lemma pop_rep q l k x :
  rep q l k -> l !! k = Some x ->
  pop q = Done (Some x, set_nx q (Z.of_nat (S k))) /\ rep (set_nx q (Z.of_nat (S k))) l (S k).
Proof.
  intros H Hx. pose proof (lookup_lt_Some _ _ _ Hx) as Hlt. pose proof H as H0. unrep H.
  split; [|apply rep_set_nx with k; [done|lia]]. unfold pop, pop_next. rewrite Hen, Hnx.
  destruct (Z.ltb_spec (Z.of_nat k) (Z.of_nat (length l))); [|lia].
  rewrite (rep_qget _ _ _ _ _ H0 Hx). cbn [mbind outcome_bind].
  by replace (Z.of_nat k + 1) with (Z.of_nat (S k)) by lia.
Qed.
Lemma pop_end_rep q l k : rep q l k -> length l = k -> pop q = Done (None, q).
Proof.
  intros H Hx. unrep H. unfold pop, pop_next. rewrite Hen, Hnx.
  by destruct (Z.ltb_spec (Z.of_nat k) (Z.of_nat (length l))); [lia|].
Qed.
Lemma unpop_rep q l k :
  rep q l (S k) -> unpop q = (Some (Z.of_nat k), set_op_cnt (set_nx q (Z.of_nat k)) 0) /\
                   rep (set_op_cnt (set_nx q (Z.of_nat k)) 0) l k.
Proof.
  intros H. pose proof H as H0. unrep H. split; [|apply rep_set_op_cnt, rep_set_nx with (S k); [done|lia]].
  unfold unpop. rewrite Hnx. destruct (Z.ltb_spec 0 (Z.of_nat (S k))); [|lia].
  by replace (Z.of_nat (S k) - 1) with (Z.of_nat k) by lia.
Qed.
Lemma restart_rep q l k :
  rep q l k -> l <> [] -> restart q = set_nx q 0 /\ rep (set_nx q 0) l 0.
Proof.
  intros H Hl. pose proof H as H0. unrep H. split; [|apply rep_set_nx with (k' := 0%nat) in H0; [done|lia]].
  destruct l; [done|]. cbn [length] in *.
  unfold restart, qrst, qsetn, q_out_of_range, qcapacity. rewrite Hen.
  destruct (Z.ltb_spec 0 0); [lia|]. cbn [orb].
  destruct (Z.leb_spec (Z.of_nat (length (cells q))) 0); [lia|]. cbn [negb andb].
  by destruct (Z.leb_spec 0 (Z.of_nat (S (length l)))); [|lia].
Qed.
Lemma at_end_rep q l k : rep q l k -> at_end q = (k =? length l)%nat.
Proof.
  intros H. unfold at_end. rewrite (rep_qrem _ _ _ H). destruct H as (?&?&?&_).
  destruct (Z.eqb_spec (Z.of_nat (length l - k)) 0), (Nat.eqb_spec k (length l)); lia || done.
Qed.
Lemma empty_rep q l k : rep q l k -> empty_q q = (length l =? 0)%nat.
Proof.
  intros H. unfold empty_q. rewrite (rep_qsize _ _ _ H).
  destruct (Z.eqb_spec (Z.of_nat (length l)) 0), (Nat.eqb_spec (length l) 0); lia || done.
Qed.

Lemma delete_take_drop l i : delete i l = take i l ++ drop (S i) l.
Proof. revert i. induction l; intros [|i]; simpl; f_equal; auto. Qed.

(** Copying the elements before [i] and those after [j] into a fresh buffer. *)
Lemma splice_out q l k i j cap :
  rep q l k -> (i <= j <= length l)%nat -> (i + (length l - j) <= cap)%nat -> Z.of_nat cap < cap_bound ->
  (fresh ← allocate zero (Z.of_nat cap);
   a ← slice q 0 (Z.of_nat i);
   b ← slice q (Z.of_nat j) (Z.of_nat (length l - j));
   c1 ← write_cells fresh 0 a;
   write_cells c1 (Z.of_nat i) b)
  = Done ((Some <$> (take i l ++ drop j l)) ++ replicate (cap - (i + (length l - j))) (Some zero)).
Proof.
  intros H Hij Hc Hb. unfold cap_bound in Hb. rewrite allocate_Done by lia. cbn [mbind outcome_bind].
  change 0 with (Z.of_nat 0). rewrite (slice_full _ _ _ _ _ H) by lia. cbn [mbind outcome_bind].
  rewrite (slice_full _ _ _ _ _ H) by lia. cbn [mbind outcome_bind].
  rewrite drop_0, (take_ge (drop j l)) by (rewrite length_drop; lia).
  assert (length (Some <$> take i l) = i) as Hli by (rewrite length_fmap, length_take; lia).
  rewrite write_cells_Done by (rewrite Hli, length_replicate; lia).
  cbn [mbind outcome_bind]. rewrite Hli.
  rewrite write_cells_Done
    by (rewrite !length_app, length_take, Hli, length_fmap, !length_drop, length_replicate; lia).
  f_equal. rewrite take_0, app_nil_l, (take_app_length' _ _ i) by done.
  rewrite fmap_app, <- app_assoc. do 2 f_equal.
  rewrite length_fmap, length_drop, drop_app_ge, Hli by lia.
  rewrite drop_drop, drop_replicate. f_equal. lia.
Qed.

Lemma erase_rep q l k i :
  rep q l k -> (i < length l)%nat ->
  exists q', erase zero q (Z.of_nat i) = Done (1, q') /\
    rep q' (delete i l) (if (i <? k)%nat then k - 1 else k) /\
    trim_enabled q' = trim_enabled q /\ qcapacity q' <= qcapacity q.
Proof.
  intros H Hi. pose proof H as H0. unrep H.
  assert (Htr : trim_enabled (qdestroy q) = trim_enabled q) by (unfold qdestroy; by case_match).
  unfold erase, erase_one, q_out_of_range, qcapacity.
  destruct (Z.ltb_spec (Z.of_nat i) 0); [lia|].
  destruct (Z.leb_spec (Z.of_nat (length (cells q))) (Z.of_nat i)); [lia|]. cbn [orb].
  rewrite (rep_qsize _ _ _ H0), Hnx.
  destruct (Z.eqb_spec (Z.of_nat (length l)) 1) as [Hs1|Hs1].
  { eexists; split; [done|]. split_and!; [|done|cbn; lia].
    assert (delete i l = []) as -> by (apply length_zero_iff_nil; rewrite length_delete by (apply lookup_lt_is_Some; lia); lia).
    eapply rep_set_ptrs with (junk := []); try done; [destruct (Nat.ltb_spec i k)..]; cbn [length]; lia. }
  destruct (Z.leb_spec (Z.of_nat (length l)) (Z.of_nat i)); [lia|].
  replace (Z.of_nat i + 1) with (Z.of_nat (S i)) by lia.
  rewrite (u64_small (Z.of_nat (length l) - _)), (u64_small (Z.of_nat (length (cells q)) - 1)), !(u64_small (Z.of_nat k)) by lia.
  replace (Z.of_nat (length l) - Z.of_nat (S i)) with (Z.of_nat (length l - S i)) by lia.
  replace (Z.of_nat (length (cells q)) - 1) with (Z.of_nat (length (cells q) - 1)) by lia.
  pose proof (splice_out q l k i (S i) (length (cells q) - 1) H0 ltac:(lia) ltac:(lia) ltac:(unfold cap_bound; lia)) as Hs.
  set (n' := if Z.of_nat i <? Z.of_nat k then u64 (Z.of_nat k - 1) else Z.of_nat k).
  destruct (allocate zero _) as [f| |]; cbn [mbind outcome_bind] in Hs |- *; try done.
  destruct (slice q 0 _) as [a| |]; cbn [mbind outcome_bind] in Hs |- *; try done.
  destruct (slice q _ _) as [b| |]; cbn [mbind outcome_bind] in Hs |- *; try done.
  destruct (write_cells f 0 a) as [c| |]; cbn [mbind outcome_bind] in Hs |- *; try done.
  rewrite Hs. cbn [mbind outcome_bind]. eexists; split; [done|].
  cbn [trim_enabled set_ptrs cells qcapacity]. split_and!; [|done|].
  - rewrite delete_take_drop. eapply rep_set_ptrs; [done|..].
    + unfold n'. destruct (Z.ltb_spec (Z.of_nat i) (Z.of_nat k)), (Nat.ltb_spec i k); rewrite ?u64_small by lia; lia.
    + rewrite length_app, length_take, length_drop. lia.
    + rewrite length_app, length_take, length_drop. destruct (Nat.ltb_spec i k); lia.
    + unfold cap_bound. rewrite length_app, length_fmap, length_app, length_take, length_drop, length_replicate. lia.
  - unfold qcapacity. cbn [cells set_ptrs].
    rewrite length_app, length_fmap, length_app, length_take, length_drop, length_replicate. lia.
Qed.

Definition afind (p : A -> bool) (start : nat) l : nat :=
  match list_find (fun y => p y = true) (drop start l) with
  | Some (i, _) => start + i
  | None => length l
  end.

Lemma find_from_rep q l k p i fuel :
  rep q l k -> (i <= length l)%nat -> (length l - i <= fuel)%nat ->
  find_from fuel q p (Z.of_nat i) = Done (Z.of_nat (afind p i l)).
Proof.
  intros H. pose proof H as H0. unrep H. revert i. induction fuel as [|fuel IH]; intros i Hi Hf.
  - assert (i = length l) as -> by lia. cbn [find_from]. rewrite Hen, Z.eqb_refl.
    unfold afind. by rewrite drop_all.
  - cbn [find_from]. rewrite Hen. destruct (Z.eqb_spec (Z.of_nat i) (Z.of_nat (length l))) as [E|E].
    { apply Nat2Z.inj in E as ->. unfold afind. by rewrite drop_all. }
    destruct (lookup_lt_is_Some_2 l i ltac:(lia)) as [x Hx].
    rewrite (rep_qget _ _ _ _ _ H0 Hx). cbn [mbind outcome_bind]. unfold afind.
    rewrite (drop_S _ _ _ Hx). cbn [list_find]. case_decide as Hd.
    + rewrite Hd. by rewrite Nat.add_0_r.
    + destruct (p x); [done|]. replace (Z.of_nat i + 1) with (Z.of_nat (S i)) by lia.
      rewrite IH by lia. unfold afind. destruct (list_find _ (drop (S i) l)) as [[j y]|]; simpl; do 2 f_equal; lia.
Qed.

Lemma find_by_rep q l k p stale :
  rep q l k -> find_by q p stale = Done (Z.of_nat (afind p (if stale then 0 else k) l)).
Proof.
  intros H. unfold find_by. pose proof H as H0. unrep H. rewrite Hnx.
  replace (if stale then 0 else Z.of_nat k) with (Z.of_nat (if stale then 0 else k)%nat) by by destruct stale.
  apply find_from_rep with k; [done|destruct stale; lia|lia].
Qed.

Lemma erase_cursor_rep q l k :
  rep q l k -> (k < length l)%nat ->
  exists q', erase_elements zero q (nx q) 1 = Done (1, q') /\ rep q' (delete k l) k /\
    trim_enabled q' = trim_enabled q /\ qcapacity q' <= qcapacity q.
Proof.
  intros H Hk'. pose proof H as H0. unrep H.
  assert (Htr : trim_enabled (qdestroy q) = trim_enabled q) by (unfold qdestroy; by case_match).
  unfold erase_elements, q_out_of_range, qcapacity. rewrite Hnx, Hen, (rep_qsize _ _ _ H0).
  destruct (Z.ltb_spec (Z.of_nat k) 0); [lia|].
  destruct (Z.leb_spec (Z.of_nat (length (cells q))) (Z.of_nat k)); [lia|]. cbn [orb].
  destruct (Z.ltb_spec (Z.of_nat (length l)) (Z.of_nat k + 1)); [lia|].
  replace (u64 (Z.of_nat k + 1)) with (Z.of_nat (S k)) by (rewrite u64_small; lia).
  destruct (Z.eqb_spec (Z.of_nat k) 0) as [E0|E0], (Z.leb_spec (Z.of_nat (length l)) (Z.of_nat (S k))) as [E1|E1];
    cbn [andb].
  { eexists; split; [f_equal; f_equal; lia|]. split_and!; [|done|cbn; lia].
    assert (delete k l = []) as -> by (apply length_zero_iff_nil; rewrite length_delete by (apply lookup_lt_is_Some; lia); lia).
    eapply rep_set_ptrs with (junk := []); try done; cbn [length]; lia. }
  all: rewrite (u64_small (Z.of_nat (length l) - Z.of_nat (S k))), (u64_small (Z.of_nat (length (cells q)) - 1)),
    (u64_small (Z.of_nat (length l) - 1)), !(u64_small (Z.of_nat k)) by lia;
  replace (Z.of_nat (length l) - Z.of_nat (S k)) with (Z.of_nat (length l - S k)) by lia;
  replace (Z.of_nat (length (cells q)) - 1) with (Z.of_nat (length (cells q) - 1)) by lia;
  destruct (Z.ltb_spec (Z.of_nat k) (Z.of_nat k)); [lia|];
  pose proof (splice_out q l k k (S k) (length (cells q) - 1) H0 ltac:(lia) ltac:(lia) ltac:(unfold cap_bound; lia)) as Hs;
  destruct (allocate zero _) as [f| |]; cbn [mbind outcome_bind] in Hs |- *; try done;
  destruct (slice q 0 _) as [a| |]; cbn [mbind outcome_bind] in Hs |- *; try done;
  destruct (slice q _ _) as [b| |]; cbn [mbind outcome_bind] in Hs |- *; try done;
  destruct (write_cells f 0 a) as [c| |]; cbn [mbind outcome_bind] in Hs |- *; try done;
  rewrite Hs; cbn [mbind outcome_bind]; eexists; (split; [done|]);
  unfold qcapacity; cbn [trim_enabled set_ptrs cells qcapacity];
  (split_and!; [rewrite delete_take_drop; eapply rep_set_ptrs; [done|done|..]|done|]);
  unfold cap_bound; rewrite ?length_app, ?length_fmap, ?length_app, ?length_take, ?length_drop, ?length_replicate; lia.
Qed.

Lemma transfer_rep q l k x t m j :
  rep q l k -> l !! k = Some x -> rep t m j -> qcapacity t + 1 < cap_bound -> trim_enabled t = false ->
  exists q' t', transfer zero q t 1 = Done (1, q', t') /\ rep q' (delete k l) k /\ rep t' (m ++ [x]) j /\
    trim_enabled q' = trim_enabled q /\ trim_enabled t' = false /\ qcapacity q' <= qcapacity q /\
    qcapacity t' <= qcapacity t + 1.
Proof.
  intros H Hx Ht Hb Htt. pose proof (lookup_lt_Some _ _ _ Hx) as Hlt. unfold transfer. cbn [Z.eqb].
  destruct (grow_for_rep _ _ _ 1 Ht ltac:(lia) Hb) as (g & -> & Hg & Hr & Hc & Hgt). cbn [mbind outcome_bind].
  replace (slice q (nx q) 1) with (Done (Some <$> [x])).
  2: { pose proof H as (-> & _). change 1 with (Z.of_nat 1). rewrite (slice_full _ _ _ _ _ H) by lia.
       by rewrite (drop_S _ _ _ Hx). }
  cbn [mbind outcome_bind].
  destruct (append_cells_rep g m j [x] Hg) as (t' & -> & [[Hr'|[? _]] [Ht' Hc']]); [cbn [length]; lia| |congruence].
  cbn [mbind outcome_bind]. destruct (erase_cursor_rep q l k H Hlt) as (q' & -> & Hq' & Htr & Hcq).
  cbn [mbind outcome_bind]. exists q', t'. split_and!; try done; congruence || lia.
Qed.

(** A queue transfers its next element to its own end exactly when its storage has
    room left; otherwise the element is read through a pointer that growing the
    storage has invalidated. *)
Lemma transfer_self_rep q l k x :
  rep q l k -> l !! k = Some x -> trim_enabled q = false ->
  (Z.of_nat (length l) < qcapacity q ->
   exists q', transfer_self zero q 1 = Done (1, q') /\ rep q' (delete k l ++ [x]) k /\
     trim_enabled q' = false /\ qcapacity q' <= qcapacity q) /\
  (qcapacity q = Z.of_nat (length l) -> transfer_self zero q 1 = Undef).
Proof.
  intros H Hx Ht. pose proof (lookup_lt_Some _ _ _ Hx) as Hlt. pose proof H as H0. unrep H.
  unfold transfer_self, needs_growth, growth, cap_rem. cbn [Z.eqb]. rewrite Hen. unfold qcapacity. split; intros Hc.
  - rewrite (u64_small (_ - Z.of_nat (length l))) by lia.
    assert ((Z.of_nat (length (cells q)) <=? Z.of_nat (length l) + 1) &&
      negb (u64 (1 - (Z.of_nat (length (cells q)) - Z.of_nat (length l))) =? 0) = false) as ->.
    { destruct (Z.leb_spec (Z.of_nat (length (cells q))) (Z.of_nat (length l) + 1)) as [E|E]; cbn [andb]; [|done].
      by replace (1 - (Z.of_nat (length (cells q)) - Z.of_nat (length l))) with 0 by lia. }
    replace (slice q (nx q) 1) with (Done (Some <$> [x])).
    2: { rewrite Hnx. change 1 with (Z.of_nat 1). rewrite (slice_full _ _ _ _ _ H0) by lia.
         by rewrite (drop_S _ _ _ Hx). }
    cbn [mbind outcome_bind].
    destruct (append_cells_rep q l k [x] H0) as (q1 & -> & [[Hr|[? _]] [Ht1 Hc1]]);
      [cbn [length]; unfold qcapacity; lia| |congruence]. cbn [mbind outcome_bind].
    destruct (erase_cursor_rep q1 _ k Hr) as (q' & Hq & Hq' & Htr & Hcq); [rewrite length_app; lia|].
    exists q'. rewrite (delete_take_drop (l ++ [x])), take_app_le, drop_app_le, app_assoc, <- delete_take_drop in Hq' by lia.
    split_and!; try done; [congruence|]. unfold qcapacity in *; lia.
  - rewrite Hc, Z.sub_diag. cbn [Z.eqb]. destruct (Z.leb_spec (Z.of_nat (length l)) (Z.of_nat (length l) + 1)); [done|lia].
Qed.

Lemma insert_rep q l k i x :
  rep q l k -> (i < length l)%nat -> qcapacity q + 1 < cap_bound ->
  exists q', insert_at zero q (Z.of_nat i) x = Done (Z.of_nat i, q') /\
    cells q' = (Some <$> (take i l ++ x :: drop i l)) ++ replicate (length (cells q) - length l) (Some zero) /\
    nx q' = Z.of_nat (S (length l)) /\ en q' = Z.of_nat (if (i <? k)%nat then S k else k) /\
    trim_enabled q' = trim_enabled q.
Proof.
  intros H Hi Hb. pose proof H as H0. unrep H. unfold cap_bound, qcapacity in Hb.
  assert (Htr : trim_enabled (qdestroy q) = trim_enabled q) by (unfold qdestroy; by case_match).
  unfold insert_at, insert_q, q_out_of_range, qcapacity. rewrite Hnx, Hen, (rep_qsize _ _ _ H0).
  destruct (Z.ltb_spec (Z.of_nat i) 0); [lia|].
  destruct (Z.leb_spec (Z.of_nat (length (cells q))) (Z.of_nat i)); [lia|]. cbn [orb Z.eqb].
  destruct (Z.ltb_spec (Z.of_nat i) (Z.of_nat (length l))); [|lia].
  replace (u64 (Z.of_nat (length (cells q)) + 1)) with (Z.of_nat (S (length (cells q)))) by (rewrite u64_small; lia).
  rewrite allocate_Done by lia. cbn [mbind outcome_bind]. change 0 with (Z.of_nat 0).
  rewrite (slice_full _ _ _ _ _ H0) by lia. cbn [mbind outcome_bind]. rewrite drop_0.
  assert (length (Some <$> take i l) = i) as Hli by (rewrite length_fmap, length_take; lia).
  rewrite write_cells_Done by (rewrite Hli, length_replicate; lia). cbn [mbind outcome_bind].
  rewrite take_0, app_nil_l, Hli, Nat.add_0_l, drop_replicate. change (Z.to_nat 1) with 1%nat. cbn [replicate].
  rewrite write_cells_Done by (rewrite length_app, Hli, length_replicate; cbn [length]; lia).
  cbn [mbind outcome_bind]. rewrite u64_small by lia.
  replace (Z.of_nat (length l) - Z.of_nat i) with (Z.of_nat (length l - i)) by lia.
  rewrite (slice_full _ _ _ _ _ H0), (take_ge (drop i l)) by (rewrite ?length_drop; lia).
  cbn [mbind outcome_bind length]. rewrite (take_app_length' _ _ i), drop_app_ge, Hli, drop_replicate by lia.
  replace (Z.of_nat i + 1) with (Z.of_nat (S i)) by lia.
  rewrite write_cells_Done
    by (rewrite !length_app, Hli, length_fmap, length_drop, length_replicate; cbn [length]; lia).
  cbn [mbind outcome_bind]. rewrite (app_assoc (Some <$> take i l)), (take_app_length' _ _ (S i))
    by (rewrite length_app, Hli; cbn; lia).
  eexists. split_and!; [f_equal; f_equal; lia|..|done]; cbn [cells set_ptrs nx en].
  - rewrite fmap_app, fmap_cons, (drop_app_ge _ _ (S i + _)) by (rewrite length_app, Hli; cbn; lia).
    rewrite drop_replicate, <- !app_assoc. cbn [app]. do 3 f_equal. f_equal.
    rewrite length_app, length_fmap, length_drop, Hli. cbn [length]. lia.
  - lia.
  - destruct (Z.ltb_spec (Z.of_nat i) (Z.of_nat k)), (Nat.ltb_spec i k); lia.
Qed.

(** ** The abstract machine: a list of elements and a cursor into it *)
Inductive qop := OPush (x : A) | OPop | OUnpop | ORestart | OErase (i : nat) | OFind (x : A) (stale : bool) | OMove.
Inductive qres := RUnit | RElem (r : option A) | RPos (i : option Z) | RCount (n : Z) | RAt (i : Z).

Definition aop (op : qop) (l : list A) (k : nat) : qres * list A * nat :=
  match op with
  | OPush x => (RUnit, l ++ [x], k)
  | OPop => match l !! k with Some x => (RElem (Some x), l, S k) | None => (RElem None, l, k) end
  | OUnpop => match k with S k' => (RPos (Some (Z.of_nat k')), l, k') | O => (RPos None, l, k) end
  | ORestart => (RUnit, l, match l with [] => k | _ => O end)
  | OErase i => if (i <? length l)%nat then (RCount 1, delete i l, if (i <? k)%nat then k - 1 else k)%nat
                else (RCount 0, l, k)
  | OFind x stale => (RAt (Z.of_nat (afind (fun y => bool_decide (y = x)) (if stale then 0 else k) l)), l, k)
  | OMove => match l !! k with Some x => (RCount 1, delete k l ++ [x], k) | None => (RCount 0, l, k) end
  end.

(** The same operations on the concrete queue.  [OMove] exercises [transfer]
    behind the guard of [task_pl_queue::transfer_next]: the next element is
    transferred to an empty queue and pushed back from there. *)
Definition cop (op : qop) q : outcome (qres * dynq A) :=
  match op with
  | OPush x => q1 ← push zero q x; Done (RUnit, q1)
  | OPop => '(r, q1) ← pop q; Done (RElem r, q1)
  | OUnpop => let '(r, q1) := unpop q in Done (RPos r, q1)
  | ORestart => Done (RUnit, restart q)
  | OErase i => if (i <? Z.to_nat (en q))%nat then '(n, q1) ← erase zero q (Z.of_nat i); Done (RCount n, q1)
                else Done (RCount 0, q)
  | OFind x stale => i ← find q x stale; Done (RAt i, q)
  | OMove =>
      if empty_q q || at_end q then Done (RCount 0, q) else
      '(n, q1, t) ← transfer zero q (dq_empty (A := A)) 1;
      x ← qget t 0; q2 ← push zero q1 x; Done (RCount n, q2)
  end.

Fixpoint arun (ops : list qop) (l : list A) (k : nat) : list qres * list A * nat :=
  match ops with
  | [] => ([], l, k)
  | op :: ops => let '(r, l1, k1) := aop op l k in let '(rs, l2, k2) := arun ops l1 k1 in (r :: rs, l2, k2)
  end.
Fixpoint crun (ops : list qop) q : outcome (list qres * dynq A) :=
  match ops with
  | [] => Done ([], q)
  | op :: ops => '(r, q1) ← cop op q; '(rs, q2) ← crun ops q1; Done (r :: rs, q2)
  end.

Lemma rep_empty : rep (dq_empty (A := A)) [] 0.
Proof. split_and!; try done. by exists []. Qed.

Lemma cop_refines op q l k r l' k' :
  rep q l k -> trim_enabled q = false -> qcapacity q + 1 < cap_bound -> aop op l k = (r, l', k') ->
  exists q', cop op q = Done (r, q') /\ rep q' l' k' /\ trim_enabled q' = false /\ qcapacity q' <= qcapacity q + 1.
Proof.
  intros H Ht Hb Ha. destruct op as [x| | | |i|x stale|]; cbn [aop cop] in *.
  - destruct (push_rep q l k x H Hb) as (q' & -> & [Hr|[? _]] & Htr & Hc); [|congruence].
    cbn [mbind outcome_bind]. simplify_eq. exists q'. split_and!; try done; congruence.
  - destruct (l !! k) as [x|] eqn:Hx; simplify_eq.
    + destruct (pop_rep _ _ _ _ H Hx) as [-> Hr]. eexists; split_and!; try done. unfold qcapacity; cbn; lia.
    + apply lookup_ge_None in Hx. rewrite (pop_end_rep _ _ _ H) by (destruct H as (_&_&?&_); lia).
      eexists; split_and!; try done; lia.
  - destruct k as [|k]; simplify_eq.
    + unfold unpop. destruct H as (Hn & H). rewrite Hn. eexists; split_and!; try done; lia.
    + destruct (unpop_rep _ _ _ H) as [-> Hr]. eexists; split_and!; try done. unfold qcapacity; cbn; lia.
  - destruct l as [|y l]; simplify_eq.
    + exists (restart q). destruct H as (Hn & He & Hk & Hr). cbn [length] in *.
      unfold restart, qrst, qsetn. destruct (negb _ && _); split_and!; try done; simpl; try lia.
      * assert (k' = 0)%nat as -> by lia. by split_and!; try apply Hr.
      * unfold qcapacity; cbn; lia.
    + destruct (restart_rep _ _ _ H) as [-> Hr]; [done|]. eexists; split_and!; try done. unfold qcapacity; cbn; lia.
  - pose proof H as (_ & -> & _). rewrite Nat2Z.id. destruct (Nat.ltb_spec i (length l)); simplify_eq.
    + destruct (erase_rep q l k i H) as (q' & -> & Hr & Htr & Hc); [done|]. cbn [mbind outcome_bind].
      eexists; split_and!; try done; congruence || lia.
    + eexists; split_and!; try done; lia.
  - unfold find. rewrite (find_by_rep _ _ _ _ _ H). cbn [mbind outcome_bind]. simplify_eq.
    eexists; split_and!; try done; lia.
  - rewrite (empty_rep _ _ _ H), (at_end_rep _ _ _ H). destruct (l !! k) as [x|] eqn:Hx; injection Ha as <- <- <-.
    + pose proof (lookup_lt_Some _ _ _ Hx).
      destruct (Nat.eqb_spec (length l) 0), (Nat.eqb_spec k (length l)); try lia. cbn [orb].
      destruct (transfer_rep q l k x dq_empty [] 0 H Hx rep_empty) as (q1 & t & -> & Hq1 & Htm & Ht1 & _ & Hc1 & _); [done|done|].
      cbn [mbind outcome_bind]. change 0 with (Z.of_nat 0). rewrite (rep_qget _ _ _ 0 x Htm) by done. cbn [mbind outcome_bind].
      destruct (push_rep q1 _ k x Hq1) as (q2 & -> & [Hr|[? _]] & Htr & Hc); [lia| |congruence].
      cbn [mbind outcome_bind]. eexists; split_and!; try done; congruence || lia.
    + apply lookup_ge_None in Hx. destruct H as (? & ? & ? & ?).
      assert ((length l =? 0)%nat || (k =? length l)%nat = true) as ->.
      { apply orb_true_iff; right. apply Nat.eqb_eq. lia. }
      eexists; split_and!; try done; lia.
Qed.

(** C15: the resettable queue refines a list with a cursor.  Started from a queue
    that holds [l] with [k] elements extracted, and trimming off, any sequence of
    pushes, pops, un-pops, restarts, erasures of one element at a position checked to be in
    the queue, searches and moves of the current element to the back runs without
    undefined behaviour, returns exactly what the abstract machine returns, and
    ends in a queue that holds what the machine holds; extracted elements stay in
    the queue, an erasure before the cursor moves the cursor back by one, and the
    storage never outgrows its initial capacity by more than one cell per step. *)
Theorem queue_refines_cursor_list ops q l k :
  rep q l k -> trim_enabled q = false -> qcapacity q + Z.of_nat (length ops) < cap_bound ->
  exists q', crun ops q = Done (fst (fst (arun ops l k)), q') /\
    rep q' (snd (fst (arun ops l k))) (snd (arun ops l k)) /\
    qcapacity q' <= qcapacity q + Z.of_nat (length ops).
Proof.
  revert q l k. induction ops as [|op ops IH]; intros q l k H Ht Hb; cbn [crun arun length] in *.
  { exists q. split_and!; [done..|lia]. }
  destruct (aop op l k) as [[r l1] k1] eqn:Ha.
  destruct (cop_refines op q l k r l1 k1 H Ht ltac:(lia) Ha) as (q1 & -> & H1 & Ht1 & Hc1).
  cbn [mbind outcome_bind]. destruct (IH q1 l1 k1 H1 Ht1 ltac:(lia)) as (q' & -> & H2 & Hc2).
  cbn [mbind outcome_bind]. destruct (arun ops l1 k1) as [[rs l2] k2]. exists q'. split_and!; [done..|lia].
Qed.

(** [__insert] exchanges the two ends of the queue.  Inserting before an element
    of a well-formed queue puts the new element at the right place in the storage,
    but sets [__next] past the last element and [__end] to the cursor: nothing is
    left to extract in order, the queue counts as empty when no element had been
    extracted, and otherwise claims a wrapped number of remaining elements. *)
Theorem insert_exchanges_ends q l k i x :
  rep q l k -> (k <= i < length l)%nat -> qcapacity q + 1 < cap_bound ->
  exists q' junk, insert_at zero q (Z.of_nat i) x = Done (Z.of_nat i, q') /\
    cells q' = (Some <$> (take i l ++ x :: drop i l)) ++ junk /\
    nx q' = Z.of_nat (S (length l)) /\ en q' = Z.of_nat k /\
    empty_q q' = (k =? 0)%nat /\ size_q q' = 2 ^ 64 - Z.of_nat (S (length l) - k) /\
    pop q' = Done (None, q').
Proof.
  intros H Hi Hb. destruct (insert_rep q l k i x H ltac:(lia) Hb) as (q' & -> & Hc & Hn & He & _).
  destruct (Nat.ltb_spec i k); [lia|]. pose proof H as (_ & _ & Hkl & [j Hcl] & Hcap). unfold cap_bound, qcapacity in *.
  apply (f_equal (@length _)) in Hcl. rewrite length_app, length_fmap in Hcl.
  eexists q', _. split_and!; try done.
  - unfold empty_q, qsize. rewrite He, u64_small by lia.
    destruct (Z.eqb_spec (Z.of_nat k) 0), (Nat.eqb_spec k 0); lia || done.
  - unfold size_q, qrem. rewrite He, Hn. unfold wrap. symmetry. apply (Z.mod_unique _ _ (-1)); lia.
  - unfold pop, pop_next. rewrite Hn, He. by destruct (Z.ltb_spec (Z.of_nat (S (length l))) (Z.of_nat k)); [lia|].
Qed.
End refinement.

(** A queue of three numbers, one of them extracted. *)
Definition dq_example : dynq Z := DQ [Some 7; Some 8; Some 9; Some 0] 1 3 0 3 16 false.
Lemma dq_example_rep : rep dq_example [7; 8; 9] 1.
Proof. split_and!; try done; [simpl; lia|]. by exists [Some 0]. Qed.

Lemma queue_refines_cursor_list_witness :
  exists q', crun 0 [OPop; OPush 4; OErase 0; OFind 4 false; OMove; ORestart; OPop] dq_example
             = Done ([RElem (Some 8); RUnit; RCount 1; RAt 2; RCount 1; RUnit; RElem (Some 8)], q').
Proof.
  destruct (queue_refines_cursor_list 0 [OPop; OPush 4; OErase 0; OFind 4 false; OMove; ORestart; OPop]
              dq_example [7; 8; 9] 1 dq_example_rep) as (q' & Hq & _); [done|done|].
  exists q'. rewrite Hq. vm_compute. reflexivity.
Defined.

Lemma insert_exchanges_ends_witness :
  exists q' junk, insert_at 0 dq_example 2 5 = Done (2, q') /\
    cells q' = (Some <$> [7; 8; 5; 9]) ++ junk /\ nx q' = 4 /\ en q' = 1 /\
    empty_q q' = false /\ size_q q' = 2 ^ 64 - 3 /\ pop q' = Done (None, q').
Proof. exact (insert_exchanges_ends 0 dq_example [7; 8; 9] 1 2 5 dq_example_rep ltac:(simpl; lia) ltac:(reflexivity)). Defined.
