(* ===== verification/Sched.v ===== *)
(** The task scheduler (kernel/sched/scheduler.cpp, kernel/sched/task_queue.cpp,
    kernel/sched/kthread_ptr.cpp, [update_thread_state] of kernel/sched/thread.cpp,
    and their headers task.h, task_queue.hpp, scheduler.hpp).

    The task and thread blocks live in a store that maps their addresses to their
    fields, since the queues, the running task and the handles ([kthread_ptr]) all
    point into it; dereferencing an address with no block behind it is undefined.
    Register and floating point images are opaque values. *)
From S2P Require Import Prelude DynQueue.

Notation PVLOW := 0.
Notation PVNORM := 1.
Notation PVHIGH := 2.
Notation PVEXTRA := 3.
Notation PVSYS := 4.

(** ** Data *)
Record kthread_ptr := KT { task_ptr : Z; thread_ptr : Z }.
Definition knull : kthread_ptr := KT 0 0.
#[export] Instance kthread_ptr_eq_dec : EqDecision kthread_ptr.
Proof. solve_decision. Defined.
Definition kbool (t : kthread_ptr) : bool := negb (task_ptr t =? 0).

Record task_t := Task {
  t_quantum_val : Z;
  t_quantum_rem : Z;
  t_block : bool;
  t_can_interrupt : bool;
  t_prio_base : Z;
  t_skips : Z;
  t_vfork_dirty : bool;
  t_pid : Z;
  t_wait_ticks_delta : Z;
  t_regs : Z;
  t_fxsv : Z;
  t_run_split : Z;
  t_run_time : Z;
  t_thread_ptr : Z;
  t_next : Z;
  (** the thread address as the frame of a user task translates it *)
  t_user_frame : option Z }.

Record thread_t := Thread {
  th_self : Z;
  th_park : bool;
  th_non_timed_park : bool;
  th_wait_time_delta : Z;
  th_regs : Z;
  th_fxsv : Z }.
#[export] Instance task_t_eq_dec : EqDecision task_t.
Proof. solve_decision. Defined.
#[export] Instance thread_t_eq_dec : EqDecision thread_t.
Proof. solve_decision. Defined.

(** [std::vector]: its elements and its capacity. *)
Record vec := Vec { v_elems : list kthread_ptr; v_cap : Z }.
Definition vec_push_back (v : vec) (k : kthread_ptr) : vec :=
  let n := Z.of_nat (length (v_elems v)) in
  Vec (v_elems v ++ [k]) (if n <? v_cap v then v_cap v else Z.max (2 * v_cap v) (v_cap v + 1)).
(** [__erase_range] refuses a range whose end is not below the capacity. *)
Definition vec_erase (v : vec) (i : nat) : vec :=
  if v_cap v <=? Z.of_nat (S i) then v else Vec (delete i (v_elems v)) (v_cap v).
#[export] Instance vec_eq_dec : EqDecision vec.
Proof. solve_decision. Defined.

(** A deferred action: an identifier for its functor, whether it has one, and the
    ticks left before it runs. *)
Record daction := DAction { d_fn : Z; d_valid : bool; d_delay : Z }.
#[export] Instance daction_eq_dec : EqDecision daction.
Proof. solve_decision. Defined.

Record sched := Sched {
  tasks : gmap Z task_t;
  threads : gmap Z thread_t;
  queues : list (dynq kthread_ptr);
  sleepers : dynq kthread_ptr;
  non_timed_sleepers : vec;
  total_tasks : Z;
  task_lock_flag : bool;
  task_change_flag : bool;
  gs_task : Z;
  fs_thread : Z;
  alt_gs_task : Z;
  timestamp : Z;
  deferred : list daction }.

Definition set_tasks (s : sched) m := Sched m (threads s) (queues s) (sleepers s) (non_timed_sleepers s)
  (total_tasks s) (task_lock_flag s) (task_change_flag s) (gs_task s) (fs_thread s) (alt_gs_task s) (timestamp s) (deferred s).
Definition set_threads (s : sched) m := Sched (tasks s) m (queues s) (sleepers s) (non_timed_sleepers s)
  (total_tasks s) (task_lock_flag s) (task_change_flag s) (gs_task s) (fs_thread s) (alt_gs_task s) (timestamp s) (deferred s).
Definition set_queues (s : sched) qs := Sched (tasks s) (threads s) qs (sleepers s) (non_timed_sleepers s)
  (total_tasks s) (task_lock_flag s) (task_change_flag s) (gs_task s) (fs_thread s) (alt_gs_task s) (timestamp s) (deferred s).
Definition set_sleepers (s : sched) q := Sched (tasks s) (threads s) (queues s) q (non_timed_sleepers s)
  (total_tasks s) (task_lock_flag s) (task_change_flag s) (gs_task s) (fs_thread s) (alt_gs_task s) (timestamp s) (deferred s).
Definition set_non_timed (s : sched) l := Sched (tasks s) (threads s) (queues s) (sleepers s) l
  (total_tasks s) (task_lock_flag s) (task_change_flag s) (gs_task s) (fs_thread s) (alt_gs_task s) (timestamp s) (deferred s).
Definition set_total (s : sched) n := Sched (tasks s) (threads s) (queues s) (sleepers s) (non_timed_sleepers s)
  n (task_lock_flag s) (task_change_flag s) (gs_task s) (fs_thread s) (alt_gs_task s) (timestamp s) (deferred s).
Definition set_change_flag (s : sched) b := Sched (tasks s) (threads s) (queues s) (sleepers s) (non_timed_sleepers s)
  (total_tasks s) (task_lock_flag s) b (gs_task s) (fs_thread s) (alt_gs_task s) (timestamp s) (deferred s).
Definition set_gs (s : sched) p := Sched (tasks s) (threads s) (queues s) (sleepers s) (non_timed_sleepers s)
  (total_tasks s) (task_lock_flag s) (task_change_flag s) p (fs_thread s) (alt_gs_task s) (timestamp s) (deferred s).
Definition set_fs (s : sched) p := Sched (tasks s) (threads s) (queues s) (sleepers s) (non_timed_sleepers s)
  (total_tasks s) (task_lock_flag s) (task_change_flag s) (gs_task s) p (alt_gs_task s) (timestamp s) (deferred s).

Definition set_alt_gs (s : sched) p := Sched (tasks s) (threads s) (queues s) (sleepers s) (non_timed_sleepers s)
  (total_tasks s) (task_lock_flag s) (task_change_flag s) (gs_task s) (fs_thread s) p (timestamp s) (deferred s).
Definition set_deferred (s : sched) l := Sched (tasks s) (threads s) (queues s) (sleepers s) (non_timed_sleepers s)
  (total_tasks s) (task_lock_flag s) (task_change_flag s) (gs_task s) (fs_thread s) (alt_gs_task s) (timestamp s) l.

Definition get_task (s : sched) (p : Z) : outcome task_t := or_undef (tasks s !! p).
Definition get_thread (s : sched) (p : Z) : outcome thread_t := or_undef (threads s !! p).
Definition upd_task (s : sched) (p : Z) (f : task_t -> task_t) : outcome sched :=
  t ← get_task s p; Done (set_tasks s (<[p := f t]> (tasks s))).
Definition upd_thread (s : sched) (p : Z) (f : thread_t -> thread_t) : outcome sched :=
  t ← get_thread s p; Done (set_threads s (<[p := f t]> (threads s))).

Definition task_quantum_rem q (t : task_t) := Task (t_quantum_val t) q (t_block t) (t_can_interrupt t) (t_prio_base t)
  (t_skips t) (t_vfork_dirty t) (t_pid t) (t_wait_ticks_delta t) (t_regs t) (t_fxsv t) (t_run_split t) (t_run_time t)
  (t_thread_ptr t) (t_next t) (t_user_frame t).
Definition task_blocking b c (t : task_t) := Task (t_quantum_val t) (t_quantum_rem t) b c (t_prio_base t)
  (t_skips t) (t_vfork_dirty t) (t_pid t) (t_wait_ticks_delta t) (t_regs t) (t_fxsv t) (t_run_split t) (t_run_time t)
  (t_thread_ptr t) (t_next t) (t_user_frame t).
Definition task_skips n (t : task_t) := Task (t_quantum_val t) (t_quantum_rem t) (t_block t) (t_can_interrupt t) (t_prio_base t)
  n (t_vfork_dirty t) (t_pid t) (t_wait_ticks_delta t) (t_regs t) (t_fxsv t) (t_run_split t) (t_run_time t)
  (t_thread_ptr t) (t_next t) (t_user_frame t).
Definition task_wait_delta n (t : task_t) := Task (t_quantum_val t) (t_quantum_rem t) (t_block t) (t_can_interrupt t) (t_prio_base t)
  (t_skips t) (t_vfork_dirty t) (t_pid t) n (t_regs t) (t_fxsv t) (t_run_split t) (t_run_time t)
  (t_thread_ptr t) (t_next t) (t_user_frame t).
Definition task_context r f th (t : task_t) := Task (t_quantum_val t) (t_quantum_rem t) (t_block t) (t_can_interrupt t) (t_prio_base t)
  (t_skips t) (t_vfork_dirty t) (t_pid t) (t_wait_ticks_delta t) r f (t_run_split t) (t_run_time t)
  th (t_next t) (t_user_frame t).
Definition task_times sp rt (t : task_t) := Task (t_quantum_val t) (t_quantum_rem t) (t_block t) (t_can_interrupt t) (t_prio_base t)
  (t_skips t) (t_vfork_dirty t) (t_pid t) (t_wait_ticks_delta t) (t_regs t) (t_fxsv t) sp rt
  (t_thread_ptr t) (t_next t) (t_user_frame t).
Definition task_next n (t : task_t) := Task (t_quantum_val t) (t_quantum_rem t) (t_block t) (t_can_interrupt t) (t_prio_base t)
  (t_skips t) (t_vfork_dirty t) (t_pid t) (t_wait_ticks_delta t) (t_regs t) (t_fxsv t) (t_run_split t) (t_run_time t)
  (t_thread_ptr t) n (t_user_frame t).
Definition thread_parking b c (t : thread_t) := Thread (th_self t) b c (th_wait_time_delta t) (th_regs t) (th_fxsv t).
Definition thread_wait_delta n (t : thread_t) := Thread (th_self t) (th_park t) (th_non_timed_park t) n (th_regs t) (th_fxsv t).
Definition thread_context r f (t : thread_t) := Thread (th_self t) (th_park t) (th_non_timed_park t) (th_wait_time_delta t) r f.

(** ** kthread_ptr.cpp *)
Definition has_thread (k : kthread_ptr) : bool := negb (thread_ptr k =? 0).

Definition is_interruptible (s : sched) (k : kthread_ptr) : outcome bool :=
  parked ← (if has_thread k then th ← get_thread s (thread_ptr k); Done (th_park th) else Done false);
  if parked : bool then th ← get_thread s (thread_ptr k); Done (th_non_timed_park th)
  else t ← get_task s (task_ptr k); Done (if t_block t then t_can_interrupt t else false).

Definition is_blocking (s : sched) (k : kthread_ptr) : outcome bool :=
  if has_thread k then th ← get_thread s (thread_ptr k); Done (th_park th)
  else t ← get_task s (task_ptr k); Done (t_block t).

Definition get_wait_delta (s : sched) (k : kthread_ptr) : outcome Z :=
  if has_thread k then th ← get_thread s (thread_ptr k); Done (th_wait_time_delta th)
  else t ← get_task s (task_ptr k); Done (t_wait_ticks_delta t).

Definition add_wait_ticks (s : sched) (k : kthread_ptr) (ticks : Z) : outcome sched :=
  if has_thread k then upd_thread s (thread_ptr k) (fun th => thread_wait_delta (u64 (th_wait_time_delta th + ticks)) th)
  else upd_task s (task_ptr k) (fun t => task_wait_delta (u64 (t_wait_ticks_delta t + ticks)) t).

Definition wait_tick (s : sched) (k : kthread_ptr) : outcome sched :=
  if has_thread k then upd_thread s (thread_ptr k) (fun th => thread_wait_delta (u64 (th_wait_time_delta th - 1)) th)
  else upd_task s (task_ptr k) (fun t => task_wait_delta (u64 (t_wait_ticks_delta t - 1)) t).

Definition activate (s : sched) (k : kthread_ptr) : outcome sched :=
  t ← get_task s (task_ptr k);
  if t_vfork_dirty t then Done s
  else th ← get_thread s (thread_ptr k);
       upd_task s (task_ptr k) (task_context (th_regs th) (th_fxsv th) (th_self th)).

Definition set_blocking (s : sched) (k : kthread_ptr) (can_interrupt : bool) : outcome sched :=
  if has_thread k then upd_thread s (thread_ptr k) (thread_parking true can_interrupt)
  else upd_task s (task_ptr k) (task_blocking true can_interrupt).

Definition clear_blocking (s : sched) (k : kthread_ptr) : outcome sched :=
  s1 ← upd_task s (task_ptr k) (fun t => task_wait_delta 0 (task_blocking false false t));
  if has_thread k then upd_thread s1 (thread_ptr k) (fun th => thread_wait_delta 0 (thread_parking false false th))
  else Done s1.

Definition set_wait_delta (s : sched) (k : kthread_ptr) (ticks : Z) : outcome sched :=
  if has_thread k
  then upd_thread s (thread_ptr k) (fun th => thread_wait_delta ticks (thread_parking (th_park th) false th))
  else upd_task s (task_ptr k) (task_wait_delta ticks).

Definition put_thread_base (s : sched) (k : kthread_ptr) : outcome sched :=
  th ← get_thread s (thread_ptr k); Done (set_fs s (th_self th)).

(** thread.cpp *)
Definition update_thread_state (s : sched) (thread task : Z) : outcome sched :=
  t ← get_task s task;
  if t_vfork_dirty t then Done s else upd_thread s thread (thread_context (t_regs t) (t_fxsv t)).

(** [kthread_of(task_t* )]: for a user task the thread pointer is translated through the task's frame. *)
Definition kthread_of (s : sched) (task_base : Z) : outcome kthread_ptr :=
  t ← get_task s task_base;
  Done (match t_user_frame t with
        | Some translated => KT task_base translated
        | None => KT task_base (t_thread_ptr t)
        end).

(** ** task_queue.cpp *)
Notation kqueue := (dynq kthread_ptr).
Definition skips_threshold : Z := 5.

(** [prio_level_task_queues::operator[]]: the priority is taken as an unsigned byte
    and indexes an array of five queues. *)
Definition idx_by_prio (pv : Z) : Z := u8 pv.
Definition get_queue (s : sched) (pv : Z) : outcome kqueue := array_get (queues s) (idx_by_prio pv).
Definition put_queue (s : sched) (pv : Z) (q : kqueue) : outcome sched :=
  qs ← array_set (queues s) (idx_by_prio pv) q; Done (set_queues s qs).

Definition on_skipped (s : sched) (pv : Z) : outcome sched :=
  q ← get_queue s pv;
  if empty_q q || at_end q then Done s else
  k ← next q; upd_task s (task_ptr k) (fun t => task_skips (wrap 7 (t_skips t + 1)) t).

Definition skip_flag (s : sched) (pv : Z) : outcome bool :=
  q ← get_queue s pv;
  if empty_q q || at_end q then Done false else
  k ← next q; t ← get_task s (task_ptr k); Done (skips_threshold <? t_skips t).

Definition transfer_next (s : sched) (pv to_whom : Z) : outcome (bool * sched) :=
  q ← get_queue s pv;
  if empty_q q || at_end q then Done (false, s) else
  t ← get_queue s to_whom;
  if idx_by_prio pv =? idx_by_prio to_whom then
    '(n, q1) ← transfer_self knull q 1; s1 ← put_queue s pv q1; Done (negb (n =? 0), s1)
  else
    '(n, q1, t1) ← transfer knull q t 1;
    s1 ← put_queue s to_whom t1; s2 ← put_queue s1 pv q1; Done (negb (n =? 0), s2).

Definition next_remaining_wait_ticks (s : sched) : outcome Z :=
  if empty_q (sleepers s) || at_end (sleepers s) then Done 0 else
  k ← next (sleepers s); get_wait_delta s k.

(** The loop of [cumulative_remaining_ticks] from position [i]. *)
Fixpoint cumulative_from (fuel : nat) (s : sched) (i acc : Z) : outcome Z :=
  if i =? en (sleepers s) then Done acc else
  match fuel with
  | O => NoFuel
  | S fuel => k ← qget (sleepers s) i; d ← get_wait_delta s k; cumulative_from fuel s (i + 1) (u64 (acc + d))
  end.
Definition cumulative_remaining_ticks (s : sched) : outcome Z :=
  cumulative_from (S (length (cells (sleepers s)))) s (nx (sleepers s)) 0.

(** [task_wait_queue::interrupt_wait] at position [where_] of the sleepers. *)
Definition sleepers_interrupt_wait (s : sched) (where_ : Z) : outcome (bool * sched) :=
  if negb (where_ <? en (sleepers s)) then Done (false, s) else
  k ← qget (sleepers s) where_;
  ok ← is_interruptible s k;
  if negb ok then Done (false, s) else
  s1 ← (if where_ + 1 <? en (sleepers s)
        then subs ← qget (sleepers s) (where_ + 1); d ← get_wait_delta s k; add_wait_ticks s subs d
        else Done s);
  s2 ← clear_blocking s1 k;
  '(n, q) ← erase knull (sleepers s2) where_;
  Done (negb (n =? 0), set_sleepers s2 q).

Definition tick_wait (s : sched) : outcome sched :=
  if empty_q (sleepers s) || at_end (sleepers s) then Done s else
  k ← next (sleepers s); wait_tick s k.

(** ** scheduler.cpp *)

(** [scheduler_times] *)
Record scheduler_times := Times { counts_per_irq : Z; counts_per_tick : Z; counter : Z }.
Fixpoint magnitude_from (fuel : nat) (i num : Z) : outcome Z :=
  if num <? 10 then Done i else
  match fuel with O => NoFuel | S fuel => magnitude_from fuel (u32 (i * 10)) (num / 10) end.
Definition magnitude (num : Z) : outcome Z := magnitude_from 10 1 num.
(** [freq15] and [freq16] are what the processor reports. *)
Definition times_init (st : scheduler_times) (freq15 freq16 : Z) : outcome scheduler_times :=
  let f := if freq15 =? 0 then freq16 else freq15 in
  m ← magnitude f; Done (Times m f (counter st)).
(** The remainder by zero is undefined. *)
Definition times_tick (st : scheduler_times) : outcome (bool * scheduler_times) :=
  let c := u32 (counter st + counts_per_irq st) in
  let result := counts_per_tick st <=? c in
  if counts_per_tick st =? 0 then Undef
  else Done (result, Times (counts_per_irq st) (counts_per_tick st) (c mod counts_per_tick st)).

Definition register_task (s : sched) (k : kthread_ptr) : outcome sched :=
  t ← get_task s (task_ptr k);
  q ← get_queue s (t_prio_base t);
  q1 ← push knull q k;
  s1 ← put_queue s (t_prio_base t) q1;
  Done (set_total s1 (u64 (total_tasks s1 + 1))).
Definition add_worker_task := register_task.

Definition set_untimed_wait (s : sched) (k : kthread_ptr) : outcome (bool * sched) :=
  let s1 := set_non_timed s (vec_push_back (non_timed_sleepers s) k) in
  s2 ← set_blocking s1 k true; Done (true, s2).

Definition interrupt_wait (s : sched) (waiting : kthread_ptr) : outcome (bool * sched) :=
  i ← find (sleepers s) waiting false;
  if negb (i =? en (sleepers s)) then sleepers_interrupt_wait s i else
  match list_find (fun k => k = waiting) (v_elems (non_timed_sleepers s)) with
  | Some (j, k) =>
      s1 ← clear_blocking s k;
      Done (true, set_non_timed s1 (vec_erase (non_timed_sleepers s1) j))
  | None => Done (false, s)
  end.

(** [interrupt_wait(task_t* )]: the first loop goes on with an iterator into the
    storage that a successful erasure has released; the second one goes on with the
    position after the erased element (erasing the only element reallocates). *)
Fixpoint interrupt_sleepers (fuel : nat) (s : sched) (task i : Z) (result : bool) : outcome (bool * sched) :=
  if i =? en (sleepers s) then Done (result, s) else
  match fuel with
  | O => NoFuel
  | S fuel =>
      k ← qget (sleepers s) i;
      if negb (task_ptr k =? task) then interrupt_sleepers fuel s task (i + 1) result else
      '(erased, s1) ← sleepers_interrupt_wait s i;
      if erased : bool then Undef else interrupt_sleepers fuel s1 task (i + 1) true
  end.
Fixpoint interrupt_untimed (fuel : nat) (s : sched) (task : Z) (i : nat) (result : bool) : outcome (bool * sched) :=
  let l := v_elems (non_timed_sleepers s) in
  if (i =? length l)%nat then Done (result, s) else
  match fuel with
  | O => NoFuel
  | S fuel =>
      k ← or_undef (l !! i);
      if negb (task_ptr k =? task) then interrupt_untimed fuel s task (S i) result else
      s1 ← clear_blocking s k;
      if (length l =? 1)%nat then Undef else
      interrupt_untimed fuel (set_non_timed s1 (vec_erase (non_timed_sleepers s1) i)) task (S i) true
  end.
Definition interrupt_wait_task (s : sched) (task : Z) : outcome (bool * sched) :=
  '(r, s1) ← interrupt_sleepers (S (length (cells (sleepers s)))) s task 0 false;
  interrupt_untimed (S (length (v_elems (non_timed_sleepers s1)))) s1 task 0 r.

(** The loop of [__set_wait_time]: the position whose cumulative wait passes
    [time], with the ticks accumulated before it. *)
Fixpoint wait_position (fuel : nat) (s : sched) (time i cumulative : Z) : outcome (option (Z * Z)) :=
  if i =? en (sleepers s) then Done None else
  match fuel with
  | O => NoFuel
  | S fuel =>
      k ← qget (sleepers s) i;
      cwait ← get_wait_delta s k;
      if time <? u64 (cwait + cumulative) then Done (Some (i, cumulative))
      else wait_position fuel s time (i + 1) (u64 (cumulative + cwait))
  end.
Definition set_wait_time (s : sched) (task : kthread_ptr) (time : Z) (can_interrupt : bool) : outcome (bool * sched) :=
  s1 ← set_blocking s task can_interrupt;
  total ← cumulative_remaining_ticks s1;
  pos ← (if time <? total
         then wait_position (S (length (cells (sleepers s1)))) s1 time (nx (sleepers s1)) 0 else Done None);
  match pos with
  | Some (i, cumulative) =>
      s2 ← set_wait_delta s1 task (u64 (time - cumulative));
      '(res, q) ← insert_at knull (sleepers s2) i task;
      Done (negb (res =? en q), set_sleepers s2 q)
  | None =>
      s2 ← set_wait_delta s1 task (u64 (time - total));
      q ← push knull (sleepers s2) task;
      Done (true, set_sleepers s2 q)
  end.

Definition do_task_change (s : sched) (cur nxt : kthread_ptr) : outcome sched :=
  if bool_decide (cur = nxt) then Done s else
  s1 ← upd_task s (task_ptr nxt) (fun t => task_quantum_rem (t_quantum_val t) t);
  s2 ← upd_task s1 (task_ptr cur) (task_next (task_ptr nxt));
  s3 ← (if has_thread cur then update_thread_state s2 (thread_ptr cur) (task_ptr cur) else Done s2);
  s4 ← (if has_thread nxt then activate s3 nxt else Done s3);
  let s5 := set_change_flag s4 true in
  let ts := timestamp s5 in
  s6 ← upd_task s5 (task_ptr nxt) (fun t => task_times ts (t_run_time t) t);
  upd_task s6 (task_ptr cur) (fun t => task_times (t_run_split t) (u64 (t_run_time t + u64 (ts - t_run_split t))) t).

(** Priorities from [pv] up to [PVSYS], and from [pv] down to [PVLOW]. *)
Definition prios_up (pv : Z) : list Z := seqZ pv (5 - pv).
Definition prios_down (pv : Z) : list Z := rev (seqZ 0 (pv + 1)).

Fixpoint unregister_loop (s : sched) (task : Z) (pvs : list Z) (result : Z) : outcome (Z * sched) :=
  match pvs with
  | [] => Done (result, s)
  | pv :: pvs =>
      q ← get_queue s pv;
      i ← find_by q (fun k => task_ptr k =? task) true;
      if i =? en q then unregister_loop s task pvs result else
      '(n, q1) ← erase knull q i;
      s1 ← put_queue s pv q1;
      unregister_loop s1 task pvs (if n =? 0 then result else result + 1)
  end.
Definition unregister_task (s : sched) (task : Z) : outcome (bool * sched) :=
  t ← get_task s task;
  '(result, s1) ← unregister_loop s task (prios_up (t_prio_base t)) 0;
  let s2 := if negb (total_tasks s1 =? 0) && (result <=? total_tasks s1)
            then set_total s1 (total_tasks s1 - result) else s1 in
  Done (negb (result =? 0), s2).

Fixpoint unregister_kthread_loop (s : sched) (k : kthread_ptr) (pvs : list Z) : outcome (bool * sched) :=
  match pvs with
  | [] => Done (false, s)
  | pv :: pvs =>
      q ← get_queue s pv;
      i ← find q k true;
      if i =? en q then unregister_kthread_loop s k pvs else
      '(n, q1) ← erase knull q i;
      s1 ← put_queue s pv q1;
      Done (negb (n =? 0), s1)
  end.
Definition unregister_kthread (s : sched) (k : kthread_ptr) : outcome (bool * sched) :=
  t ← get_task s (task_ptr k);
  '(result, s1) ← unregister_kthread_loop s k (prios_up (t_prio_base t));
  Done (result, if negb (total_tasks s1 =? 0) && result then set_total s1 (total_tasks s1 - 1) else s1).

(** [select_next].  The inner loop extracts the next task of the level, starting
    over at the end, until one is not blocking or the position the search began at
    is reached again. *)
Fixpoint pop_runnable (fuel : nat) (s : sched) (pv i : Z) : outcome (kthread_ptr * sched) :=
  match fuel with
  | O => NoFuel
  | S fuel =>
      q ← get_queue s pv;
      let q1 := if at_end q then restart q else q in
      '(r, q2) ← pop q1;
      result ← or_undef r;
      s1 ← put_queue s pv q2;
      b ← is_blocking s1 result;
      if b && negb (i =? nx q2) then pop_runnable fuel s1 pv i else Done (result, s1)
  end.

(** The loop over the levels below the one accessed; every call in it is made on
    the accessed level's own queue. *)
Fixpoint skip_loop (s : sched) (pv : Z) (qvs : list Z) : outcome sched :=
  match qvs with
  | [] => Done s
  | qv :: qvs =>
      s1 ← on_skipped s pv;
      f ← skip_flag s1 pv;
      if negb f then skip_loop s1 pv qvs else
      let rv := qv + 1 in
      '(_, s2) ← transfer_next s1 pv rv;
      q ← get_queue s2 rv;
      b ← back q;
      s3 ← upd_task s2 (task_ptr b) (task_skips 0);
      skip_loop s3 pv qvs
  end.

Fixpoint select_loop (fuel : nat) (s : sched) (pvs : list Z) : outcome (kthread_ptr * sched) :=
  match pvs with
  | [] => Done (knull, s)
  | pv :: pvs =>
      queue ← get_queue s pv;
      if empty_q queue then select_loop fuel s pvs else
      '(result, s1) ← pop_runnable fuel s pv (nx queue);
      b ← is_blocking s1 result;
      if b : bool then select_loop fuel s1 pvs else
      s2 ← upd_task s1 (task_ptr result) (task_skips 0);
      t ← get_task s2 (task_ptr result);
      s3 ← (if negb (t_prio_base t =? pv) && negb (pv =? PVSYS) then
              q ← get_queue s2 pv;
              s' ← put_queue s2 pv (snd (unpop q));
              '(_, s'') ← transfer_next s' pv (pv - 1);
              Done s''
            else Done s2);
      s4 ← skip_loop s3 pv (prios_down (pv - 1));
      Done (result, s4)
  end.
Definition select_next (fuel : nat) (s : sched) : outcome (kthread_ptr * sched) :=
  if total_tasks s =? 0 then Done (knull, s) else select_loop fuel s (prios_down PVSYS).

Definition set_wait_untimed (s : sched) (k : kthread_ptr) : outcome (bool * sched) :=
  b ← is_blocking s k; if b : bool then Done (false, s) else set_untimed_wait s k.

(** [compute_ticks] is quadruple precision floating point arithmetic. *)
Definition set_wait_timed (compute_ticks : Z -> Z) (s : sched) (k : kthread_ptr) (time : Z) (can_interrupt : bool)
  : outcome (bool * sched) :=
  b ← is_blocking s k;
  if b : bool then Done (false, s) else set_wait_time s k (u64 (compute_ticks time)) can_interrupt.

Fixpoint set_main_thread_loop (s : sched) (task thread : Z) (pvs : list Z) : outcome sched :=
  match pvs with
  | [] => Done s
  | pv :: pvs =>
      q ← get_queue s pv;
      i ← find q (KT task 0) false;
      s1 ← (if i =? en q then Done s
            else put_queue s pv (set_ptrs q (<[Z.to_nat i := Some (KT task thread)]> (cells q)) (nx q) (en q)));
      set_main_thread_loop s1 task thread pvs
  end.
Definition set_main_thread (s : sched) (task thread : Z) : outcome sched :=
  t ← get_task s task; set_main_thread_loop s task thread (prios_up (t_prio_base t)).

(** The wake-up loop of [on_tick]: [front] is the cell the reference
    [front_sleeper] is bound to, which the loop assigns. *)
Fixpoint wake_loop (fuel : nat) (s : sched) (front : Z) : outcome sched :=
  match fuel with
  | O => NoFuel
  | S fuel =>
      k ← qget (sleepers s) front;
      if negb (kbool k) then Done s else
      d ← get_wait_delta s k;
      if negb (d =? 0) then Done s else
      '(r, q) ← pop (sleepers s);
      wakee ← or_undef r;
      s1 ← clear_blocking (set_sleepers s q) wakee;
      nk ← next (sleepers s1);
      c ← array_set (cells (sleepers s1)) front (Some nk);
      wake_loop fuel (set_sleepers s1 (set_ptrs (sleepers s1) c (nx (sleepers s1)) (en (sleepers s1)))) front
  end.
Definition wake_sleepers (s : sched) : outcome sched :=
  if at_end (sleepers s) then Done s
  else wake_loop (S (length (cells (sleepers s)))) s (nx (sleepers s)).

(** The rest of [on_tick], after the deferred actions. *)
Definition preempt (fuel : nat) (s : sched) : outcome sched :=
  cur ← kthread_of s (gs_task s);
  s1 ← upd_task s (task_ptr cur)
         (fun t => if t_quantum_rem t =? 0 then t else task_quantum_rem (t_quantum_rem t - 1) t);
  t ← get_task s1 (task_ptr cur);
  b ← (if t_quantum_rem t =? 0 then Done true else is_blocking s1 cur);
  if negb b then Done s1 else
  '(nxt, s2) ← select_next fuel s1;
  if kbool nxt then do_task_change s2 cur nxt
  else upd_task s2 (task_ptr cur) (fun t => task_quantum_rem (t_quantum_val t) t).
Definition on_tick_tasks (fuel : nat) (s : sched) : outcome sched :=
  if total_tasks s =? 0 then Done s else
  if task_lock_flag s then Done s else
  s1 ← tick_wait s;
  s2 ← wake_sleepers s1;
  preempt fuel s2.

(** ** Deferred actions (deferred_action.hpp, deferred_action_queue.cpp)

    The actions are held in a circular queue, here the list of its contents; what a
    functor does is a parameter. *)
Section deferred.
Context (run_action : Z -> sched -> outcome sched).

(** [deferred_action::operator()] *)
Definition daction_call (a : daction) (s : sched) : outcome (daction * sched) :=
  if d_delay a =? 0 then Done (a, s) else
  let a1 := DAction (d_fn a) (d_valid a) (d_delay a - 1) in
  if negb (d_valid a1) then Done (a1, s) else
  if d_delay a1 =? 0 then s1 ← run_action (d_fn a) s; Done (a1, s1) else Done (a1, s).
Definition is_done (a : daction) : bool := d_delay a =? 0.

(** [deferred_action_queue::tick]: the actions still queued after the loop, and
    the state the functors leave. *)
Fixpoint deferred_loop (l : list daction) (pass : bool) (s : sched) : outcome (list daction * sched) :=
  match l with
  | [] => Done ([], s)
  | a :: l =>
      '(a1, s1) ← daction_call a s;
      if negb pass && is_done a1 then deferred_loop l false s1
      else '(kept, s2) ← deferred_loop l true s1; Done (a1 :: kept, s2)
  end.
Definition deferred_tick (s : sched) : outcome sched :=
  '(kept, s1) ← deferred_loop (deferred s) false (set_deferred s []);
  Done (set_deferred s1 (kept ++ deferred s1)).
(** [deferred_action_queue::add] with a delay already converted to ticks. *)
Definition deferred_add (s : sched) (ticks fn : Z) (valid : bool) : sched :=
  set_deferred s (deferred s ++ [DAction fn valid (Z.max ticks 1)]).

Definition on_tick (fuel : nat) (s : sched) : outcome sched :=
  s1 ← deferred_tick s; on_tick_tasks fuel s1.
(** The timer interrupt handler that [init] installs. *)
Definition timer_irq (fuel : nat) (running : bool) (st : scheduler_times) (s : sched)
  : outcome (scheduler_times * sched) :=
  if negb running then Done (st, s) else
  '(tick, st1) ← times_tick st;
  if tick : bool then s1 ← on_tick fuel s; Done (st1, s1) else Done (st1, s).
End deferred.

(** [write_task_base] sets the segment base that is not active. *)
Definition write_task_base (s : sched) (nxt : Z) : sched := set_alt_gs s nxt.

(** [yield] is called from system calls, where the active task is the [next] of the
    block the segment base points to. *)
Definition yield (fuel : nat) (s : sched) : outcome (kthread_ptr * sched) :=
  g ← get_task s (gs_task s);
  let cptr := t_next g in
  cur ← kthread_of s cptr;
  s1 ← upd_task s (task_ptr cur) (task_quantum_rem 0);
  s2 ← (if has_thread cur then update_thread_state s1 (thread_ptr cur) cptr else Done s1);
  '(nxt, s3) ← select_next fuel s2;
  '(nxt, s6) ←
    (if negb (kbool nxt) then Done (cur, s3) else
     let s4 := if task_ptr nxt =? cptr then s3 else write_task_base s3 (task_ptr nxt) in
     s5 ← (if has_thread nxt then activate s4 nxt else Done s4);
     s6 ← (if thread_ptr cur =? thread_ptr nxt then Done s5 else put_thread_base s5 nxt);
     Done (nxt, s6));
  s7 ← upd_task s6 (task_ptr nxt) (fun t => task_quantum_rem (t_quantum_val t) t);
  Done (nxt, s7).

Definition fallthrough_yield (fuel : nat) (s : sched) : outcome (kthread_ptr * sched) :=
  if total_tasks s =? 0 then Done (knull, s) else
  '(nxt, s1) ← select_next fuel s;
  s2 ← (if kbool nxt then upd_task s1 (task_ptr nxt) (fun t => task_quantum_rem (t_quantum_val t) t) else Done s1);
  s3 ← (if kbool nxt && has_thread nxt then activate s2 nxt else Done s2);
  Done (nxt, s3).

(** [kproc] is the address of the kernel's own task block. *)
Definition remove_worker_task (fuel : nat) (kproc : Z) (s : sched) (w : kthread_ptr) : outcome sched :=
  let cptr := gs_task s in
  cur ← kthread_of s cptr;
  s1 ← (if cptr =? task_ptr w then
          '(nxt, s1) ← fallthrough_yield fuel s;
          if kbool nxt && negb (task_ptr nxt =? cptr) then do_task_change s1 cur nxt else Done s1
        else Done s);
  '(_, s2) ← unregister_task s1 (task_ptr w);
  Done (if total_tasks s2 =? 0 then set_gs s2 kproc else s2).

Definition active_pid (s : sched) : outcome Z :=
  t ← get_task s (gs_task s);
  t1 ← (if negb (t_next t =? 0) && task_lock_flag s then get_task s (t_next t) else Done t);
  Done (t_pid t1).

(** [init]: the storage the queues start with. *)
Definition init_queues (s : sched) : outcome sched :=
  sl ← reserve knull (sleepers s) 16;
  qs ← foldr (fun q acc => acc' ← acc; q1 ← reserve knull q 16; Done (q1 :: acc')) (Done []) (queues s);
  Done (set_change_flag (set_total (set_queues (set_sleepers
         (set_non_timed s (Vec (v_elems (non_timed_sleepers s)) (Z.max 16 (v_cap (non_timed_sleepers s))))) sl) qs) 0) false).
