(* ===== verification/SchedProps.v ===== *)
(** Properties of the scheduler: which task [select_next] picks and when it
    returns, what the skip accounting does to a task that stays blocked, the delta
    list of the sleeping tasks, and the rate of the timer. *)
From S2P Require Import Prelude DynQueue Sched.

(** ** Access to the store and to the queues *)
Definition sq (s : sched) (pv : Z) (q : kqueue) : sched := set_queues s (<[Z.to_nat pv := q]> (queues s)).
Definition five (s : sched) : Prop := length (queues s) = 5%nat.
Definition level (s : sched) (pv : Z) (q : kqueue) : Prop := queues s !! Z.to_nat pv = Some q.

Lemma idx_by_prio_small pv : 0 <= pv < 5 -> idx_by_prio pv = pv.
Proof. intros. apply wrap_small. split; lia. Qed.
Lemma get_queue_level s pv q : 0 <= pv < 5 -> level s pv q -> get_queue s pv = Done q.
Proof.
  intros Hp Hl. unfold get_queue, array_get. rewrite idx_by_prio_small by done.
  destruct (Z.leb_spec 0 pv); [|lia]. by rewrite Hl.
Qed.
Lemma put_queue_level s pv q q' : 0 <= pv < 5 -> level s pv q -> put_queue s pv q' = Done (sq s pv q').
Proof.
  intros Hp Hl. unfold put_queue, array_set, array_get. rewrite idx_by_prio_small by done.
  destruct (Z.leb_spec 0 pv); [|lia]. by rewrite Hl.
Qed.
Lemma level_sq s pv q q' : level s pv q -> level (sq s pv q') pv q'.
Proof. intros Hl. apply list_lookup_insert_eq. by apply lookup_lt_Some in Hl. Qed.
Lemma sq_sq s pv q q' : sq (sq s pv q) pv q' = sq s pv q'.
Proof. unfold sq, set_queues. simpl. by rewrite list_insert_insert_eq. Qed.

Lemma length_sq s pv q : length (queues (sq s pv q)) = length (queues s).
Proof. apply length_insert. Qed.

(** A handle whose blocks exist. *)
Definition known (s : sched) (k : kthread_ptr) : Prop :=
  is_Some (tasks s !! task_ptr k) /\ (has_thread k = true -> is_Some (threads s !! thread_ptr k)).
Definition blocking (s : sched) (k : kthread_ptr) : bool :=
  match is_blocking s k with Done b => b | _ => false end.

Lemma is_blocking_known s k : known s k -> is_blocking s k = Done (blocking s k).
Proof.
  intros [[t Ht] Hth]. unfold blocking, is_blocking, get_thread, get_task.
  destruct (has_thread k); [destruct (Hth eq_refl) as [th ->]|rewrite Ht]; done.
Qed.
Lemma blocking_same s s' k : tasks s' = tasks s -> threads s' = threads s -> blocking s' k = blocking s k.
Proof. intros H1 H2. unfold blocking, is_blocking, get_thread, get_task. by rewrite H1, H2. Qed.
Lemma known_same s s' k : tasks s' = tasks s -> threads s' = threads s -> known s k -> known s' k.
Proof. unfold known. by intros -> ->. Qed.

(** ** The search of one level *)
Section scan.
Context (blk : kthread_ptr -> bool).
Implicit Types (l : list kthread_ptr) (c i : nat).

Fixpoint scan (fuel : nat) l i c : option nat :=
  match fuel with
  | O => None
  | S fuel =>
      let c0 := if (c =? length l)%nat then 0%nat else c in
      match l !! c0 with
      | Some x => if blk x && negb (i =? S c0)%nat then scan fuel l i (S c0) else Some c0
      | None => None
      end
  end.

(** The task a level offers: the first one that is not blocking, in the cyclic
    order that starts at the cursor. *)
Definition runnable (k : kthread_ptr) : Prop := blk k = false.
Definition pick l c : option nat :=
  match list_find runnable (drop c l) with
  | Some (j, _) => Some (c + j)%nat
  | None => match list_find runnable (take c l) with Some (j, _) => Some j | None => None end
  end.

Lemma scan_wrap fuel l i : l <> [] -> scan fuel l i (length l) = scan fuel l i 0.
Proof.
  intros Hl. destruct fuel; [done|]. cbn [scan]. rewrite Nat.eqb_refl.
  by destruct (Nat.eqb_spec 0 (length l)).
Qed.

Lemma scan_skip m : forall fuel l i c,
  (c + m <= length l)%nat -> (forall j x, c <= j < c + m -> l !! j = Some x -> blk x = true)%nat ->
  (i <= c \/ c + m < i)%nat -> scan (m + fuel) l i c = scan fuel l i (c + m).
Proof.
  induction m as [|m IH]; intros fuel l i c Hc Hb Hi; [by rewrite Nat.add_0_r|].
  cbn [scan Nat.add]. destruct (Nat.eqb_spec c (length l)); [lia|].
  destruct (lookup_lt_is_Some_2 l c ltac:(lia)) as [x Hx]. rewrite Hx, (Hb c x) by (done || lia).
  destruct (Nat.eqb_spec i (S c)); [lia|]. cbn [andb negb].
  rewrite IH; [f_equal; lia|lia| |lia]. intros j y Hj. apply Hb. lia.
Qed.

Lemma scan_stop fuel l i c x :
  (c < length l)%nat -> l !! c = Some x -> blk x = false \/ i = S c -> scan (S fuel) l i c = Some c.
Proof.
  intros Hc Hx Hs. cbn [scan]. destruct (Nat.eqb_spec c (length l)); [lia|]. rewrite Hx.
  destruct Hs as [->| ->]; [done|]. rewrite Nat.eqb_refl, andb_false_r. done.
Qed.

Lemma find_none_blk l : list_find runnable l = None -> forall j x, l !! j = Some x -> blk x = true.
Proof.
  intros Hf j x Hx. apply list_find_None in Hf. rewrite Forall_lookup in Hf.
  specialize (Hf _ _ Hx). unfold runnable in Hf. by destruct (blk x).
Qed.

Lemma scan_pick l c fuel :
  l <> [] -> (c <= length l)%nat -> (length l <= fuel)%nat -> (c = 0%nat -> is_Some (pick l c)) ->
  scan fuel l c c = Some (match pick l c with Some j => j | None => c - 1 end)%nat.
Proof.
  intros Hl Hc Hf H0. unfold pick in *. destruct (list_find runnable (drop c l)) as [[j x]|] eqn:Hd.
  { apply list_find_Some in Hd as (Hx & Hr & Hb). rewrite lookup_drop in Hx. pose proof (lookup_lt_Some _ _ _ Hx).
    replace fuel with (j + S (fuel - j - 1))%nat by lia. rewrite scan_skip; [|lia| |lia].
    - apply scan_stop with x; auto.
    - intros i y Hi Hy. specialize (Hb (i - c)%nat y). rewrite lookup_drop in Hb.
      replace (c + (i - c))%nat with i in Hb by lia. specialize (Hb Hy ltac:(lia)). unfold runnable in Hb. by destruct (blk y). }
  assert (Hdb : forall j x, (c <= j)%nat -> l !! j = Some x -> blk x = true).
  { intros j x Hj Hx. apply (find_none_blk _ Hd (j - c)). rewrite lookup_drop. by replace (c + (j - c))%nat with j by lia. }
  assert (Hgo : scan fuel l c c = scan (fuel - (length l - c)) l c 0).
  { replace fuel with ((length l - c) + (fuel - (length l - c)))%nat at 1 by lia.
    rewrite scan_skip; [|lia| |lia].
    - replace (c + (length l - c))%nat with (length l) by lia. by apply scan_wrap.
    - intros j x Hj. apply Hdb. lia. }
  destruct (list_find runnable (take c l)) as [[j x]|] eqn:Ht.
  - apply list_find_Some in Ht as (Hx & Hr & Hb). apply lookup_take_Some in Hx as [Hx Hj].
    rewrite Hgo. replace (fuel - (length l - c))%nat with (j + S (fuel - (length l - c) - j - 1))%nat by lia.
    rewrite scan_skip; [|lia| |lia].
    + apply scan_stop with x; [lia|done|auto].
    + intros i y Hi Hy. specialize (Hb i y). rewrite lookup_take_lt in Hb by lia. specialize (Hb Hy ltac:(lia)).
      unfold runnable in Hb. by destruct (blk y).
  - destruct c as [|c]; [destruct (H0 eq_refl); discriminate|]. rewrite Hgo.
    replace (fuel - (length l - S c))%nat with (c + S (fuel - (length l - S c) - c - 1))%nat by lia.
    rewrite scan_skip; [|lia| |lia].
    + destruct (lookup_lt_is_Some_2 l c ltac:(lia)) as [x Hx]. rewrite Nat.add_0_l.
      replace (S c - 1)%nat with c by lia. apply scan_stop with x; [lia|done|auto].
    + intros i y Hi Hy. apply (find_none_blk _ Ht i). by rewrite lookup_take_lt by lia.
Qed.

(** With the cursor at the start and every task blocking, the search never stops. *)
Lemma scan_hangs l fuel c :
  (c <= length l)%nat -> Forall (fun k => blk k = true) l -> scan fuel l 0 c = None.
Proof.
  intros Hc Hb. revert c Hc. induction fuel as [|fuel IH]; intros c Hc; [done|]. cbn [scan].
  destruct (l !! _) as [x|] eqn:Hx; [|done]. rewrite Forall_lookup in Hb. rewrite (Hb _ _ Hx). cbn [Nat.eqb negb andb].
  apply IH. apply lookup_lt_Some in Hx. lia.
Qed.
End scan.

Lemma pop_runnable_scan fuel : forall s pv i q l c,
  0 <= pv < 5 -> level s pv q -> rep q l c -> l <> [] -> Forall (known s) l ->
  pop_runnable fuel s pv (Z.of_nat i) =
    match scan (blocking s) fuel l i c with
    | Some c0 => match l !! c0 with
                 | Some k => Done (k, sq s pv (set_nx q (Z.of_nat (S c0))))
                 | None => NoFuel end
    | None => NoFuel
    end.
Proof.
  induction fuel as [|fuel IH]; intros s pv i q l c Hp Hlv Hr Hl Hk; [done|]. cbn [pop_runnable scan].
  rewrite (get_queue_level _ _ _ Hp Hlv). cbn [mbind outcome_bind].
  assert (Hne : length l <> 0%nat) by (destruct l; done).
  set (c0 := if (c =? length l)%nat then 0%nat else c). pose proof Hr as (_ & _ & Hcl & _).
  assert (Hc0 : (c0 < length l)%nat) by (unfold c0; destruct (Nat.eqb_spec c (length l)); lia).
  assert (Hq1 : exists q1, (if at_end q then restart q else q) = q1 /\ rep q1 l c0 /\
                 forall z, set_nx q1 z = set_nx q z).
  { rewrite (at_end_rep _ _ _ Hr). unfold c0. destruct (Nat.eqb_spec c (length l)).
    - destruct (restart_rep q l c Hr Hl) as [-> H1]. by eexists.
    - by exists q. }
  destruct Hq1 as (q1 & -> & Hr1 & Hset). destruct (lookup_lt_is_Some_2 l c0 Hc0) as [x Hx]. rewrite Hx.
  destruct (pop_rep _ _ _ _ Hr1 Hx) as [-> Hr2]. cbn [mbind outcome_bind or_undef]. rewrite !Hset in *.
  rewrite (put_queue_level _ _ _ _ Hp Hlv). cbn [mbind outcome_bind].
  set (s1 := sq s pv _). assert (Hkx : known s x) by (rewrite Forall_lookup in Hk; eauto).
  rewrite (is_blocking_known s1 x) by (by apply (known_same s)). cbn [mbind outcome_bind].
  rewrite (blocking_same s s1) by done. cbn [nx set_nx].
  replace (Z.of_nat i =? Z.of_nat (S c0)) with (i =? S c0)%nat
    by (destruct (Nat.eqb_spec i (S c0)), (Z.eqb_spec (Z.of_nat i) (Z.of_nat (S c0))); lia || done).
  destruct (blocking s x && negb (i =? S c0)%nat) eqn:Hb; [|by rewrite Hx].
  rewrite (IH s1 pv i (set_nx q (Z.of_nat (S c0))) l (S c0)); [|done|by eapply level_sq|done|done|by apply (Forall_impl _ _ _ Hk); intros; eapply known_same].
  assert (scan (blocking s1) fuel l i (S c0) = scan (blocking s) fuel l i (S c0)) as -> by done.
  destruct (scan _ _ _ _ _) as [c1|]; [|done]. destruct (l !! c1); [|done]. unfold s1. by rewrite sq_sq.
Qed.

(** ** The skip accounting *)
Definition task_has (s : sched) (k : kthread_ptr) (P : task_t -> Prop) : Prop :=
  exists t, tasks s !! task_ptr k = Some t /\ P t.

Lemma upd_task_Done s p f t :
  tasks s !! p = Some t -> upd_task s p f = Done (set_tasks s (<[p := f t]> (tasks s))).
Proof. intros Ht. unfold upd_task, get_task. by rewrite Ht. Qed.

(** As long as the next task of the level stays at or below the threshold, the loop
    only counts its skips. *)
Lemma skip_loop_counts pv q l c qvs : forall s,
  0 <= pv < 5 -> level s pv q -> rep q l c ->
  (forall k, l !! c = Some k -> task_has s k (fun t => 0 <= t_skips t /\ t_skips t + Z.of_nat (length qvs) <= skips_threshold)) ->
  exists s', skip_loop s pv qvs = Done s' /\ queues s' = queues s /\ threads s' = threads s.
Proof.
  induction qvs as [|qv qvs IH]; intros s Hp Hl Hr Hs; cbn [skip_loop]; [by exists s|].
  unfold on_skipped, skip_flag. rewrite (get_queue_level _ _ _ Hp Hl). cbn [mbind outcome_bind].
  rewrite (empty_rep _ _ _ Hr), (at_end_rep _ _ _ Hr).
  destruct (l !! c) as [k|] eqn:Hk.
  - pose proof (lookup_lt_Some _ _ _ Hk). destruct (Nat.eqb_spec (length l) 0), (Nat.eqb_spec c (length l)); try lia.
    cbn [orb]. destruct (Hs _ eq_refl) as (t & Ht & Hsk & Hb). cbn [length] in Hb. unfold skips_threshold in Hb.
    assert (next q = Done k) as Hn by (unfold next; pose proof Hr as (-> & _); by apply (rep_qget _ _ _ _ _ Hr)).
    rewrite Hn. cbn [mbind outcome_bind]. rewrite (upd_task_Done _ _ _ _ Ht). cbn [mbind outcome_bind].
    set (s1 := set_tasks _ _). rewrite (get_queue_level s1 _ _ Hp Hl). cbn [mbind outcome_bind].
    rewrite (empty_rep _ _ _ Hr), (at_end_rep _ _ _ Hr).
    destruct (Nat.eqb_spec (length l) 0), (Nat.eqb_spec c (length l)); try lia. cbn [orb]. rewrite Hn.
    cbn [mbind outcome_bind]. unfold get_task at 1. cbn [tasks set_tasks s1]. rewrite lookup_insert_eq.
    cbn [or_undef mbind outcome_bind t_skips task_skips].
    assert (wrap 7 (t_skips t + 1) = t_skips t + 1) as Hw by (apply wrap_small; split; lia). rewrite Hw.
    unfold skips_threshold. destruct (Z.ltb_spec 5 (t_skips t + 1)); [lia|]. cbn [negb].
    destruct (IH s1 Hp Hl Hr) as (s' & -> & Hq' & Hth'); [|by exists s'].
    intros k' Hk'. injection Hk' as <-. exists (task_skips (t_skips t + 1) t). unfold s1. cbn [tasks set_tasks].
    rewrite Hw, lookup_insert_eq. cbn [t_skips task_skips]. unfold skips_threshold. split; [done|lia].
  - apply lookup_ge_None in Hk. pose proof Hr as (_ & _ & Hc & _).
    assert (Hor : (length l =? 0)%nat || (c =? length l)%nat = true) by (apply orb_true_iff; right; apply Nat.eqb_eq; lia).
    rewrite Hor. cbn [mbind outcome_bind]. rewrite (get_queue_level _ _ _ Hp Hl). cbn [mbind outcome_bind].
    rewrite (empty_rep _ _ _ Hr), (at_end_rep _ _ _ Hr), Hor. cbn [mbind outcome_bind negb].
    apply IH; try done.
Qed.

(** ** Selection *)
Section selection.
Context (fuel : nat) (lv : Z -> list kthread_ptr * nat).

(** What the search needs of level [pv] when it holds [lv pv]: the blocks exist,
    every task is queued at its base priority, the task behind the one offered has
    not been skipped so often that this selection takes it over the threshold, and
    the cursor is not at the start of a level whose tasks are all blocking. *)
Definition level_ok (s : sched) (pv : Z) : Prop :=
  exists q, level s pv q /\ rep q (lv pv).1 (lv pv).2 /\ (length (lv pv).1 <= fuel)%nat /\
    Forall (known s) (lv pv).1 /\
    Forall (fun k => task_has s k (fun t => t_prio_base t = pv)) (lv pv).1 /\
    (forall j k, pick (blocking s) (lv pv).1 (lv pv).2 = Some j -> (lv pv).1 !! S j = Some k ->
       task_has s k (fun t => 0 <= t_skips t /\ t_skips t + pv <= skips_threshold)) /\
    ((lv pv).1 <> [] -> (lv pv).2 = 0%nat -> is_Some (pick (blocking s) (lv pv).1 (lv pv).2)).
Definition all_blocking (s : sched) (pv : Z) : Prop := Forall (fun k => blocking s k = true) (lv pv).1.

Lemma pick_none s l c : pick (blocking s) l c = None -> Forall (fun k => blocking s k = true) l.
Proof.
  unfold pick. destruct (list_find _ (drop c l)) as [[j x]|] eqn:Hd; [done|].
  destruct (list_find _ (take c l)) as [[j x]|] eqn:Ht; [done|]. intros _.
  rewrite <- (take_drop c l). apply Forall_app; split; apply Forall_lookup; intros i x Hx.
  - by apply (find_none_blk _ _ Ht i).
  - by apply (find_none_blk _ _ Hd i).
Qed.
Lemma pick_lookup blk l c j : pick blk l c = Some j -> exists k, l !! j = Some k /\ blk k = false.
Proof.
  unfold pick. destruct (list_find _ (drop c l)) as [[i x]|] eqn:Hd.
  - intros [= <-]. apply list_find_Some in Hd as (Hx & Hr & _). rewrite lookup_drop in Hx. eauto.
  - destruct (list_find _ (take c l)) as [[i x]|] eqn:Ht; [|done]. intros [= <-].
    apply list_find_Some in Ht as (Hx & Hr & _). apply lookup_take_Some in Hx as [Hx _]. eauto.
Qed.

Lemma level_ok_sq s pv pv' q' : 0 <= pv -> 0 <= pv' -> pv' <> pv -> level_ok s pv -> level_ok (sq s pv' q') pv.
Proof.
  intros ??? (q & Hl & Hr & H). exists q. split; [|done]. unfold level, sq. simpl.
  rewrite list_lookup_insert_ne by lia. done.
Qed.

Lemma select_empty_level fuel' s pv pvs :
  0 <= pv < 5 -> (exists q c, level s pv q /\ rep q [] c) ->
  select_loop fuel' s (pv :: pvs) = select_loop fuel' s pvs.
Proof.
  intros Hp (q & c & Hl & Hr). cbn [select_loop]. rewrite (get_queue_level s pv q) by done.
  cbn [mbind outcome_bind]. by rewrite (empty_rep _ _ _ Hr).
Qed.

(** One level of the selection. *)
Lemma select_level s pv pvs :
  0 <= pv < 5 -> level_ok s pv ->
  (all_blocking s pv /\ exists s1, select_loop fuel s (pv :: pvs) = select_loop fuel s1 pvs /\
     (s1 = s \/ exists q', s1 = sq s pv q')) \/
  (exists k j s' q', pick (blocking s) (lv pv).1 (lv pv).2 = Some j /\ (lv pv).1 !! j = Some k /\
     select_loop fuel s (pv :: pvs) = Done (k, s') /\ level s' pv q' /\ rep q' (lv pv).1 (S j)).
Proof.
  intros Hp (q & Hl & Hr & Hf & Hk & Ht & Hskip & Hc). cbn [select_loop]. rewrite (get_queue_level _ _ _ Hp Hl).
  cbn [mbind outcome_bind]. rewrite (empty_rep _ _ _ Hr). unfold all_blocking.
  destruct (lv pv) as [l c]; simpl in *. destruct (Nat.eqb_spec (length l) 0) as [E|E].
  { left. apply length_zero_iff_nil in E as ->. split; [constructor|]. exists s. auto. }
  assert (Hne : l <> []) by (by intros ->). pose proof Hr as (Hnx & _ & Hcl & _).
  rewrite Hnx, (pop_runnable_scan _ _ _ _ _ _ _ Hp Hl Hr Hne Hk), (scan_pick _ l c fuel) by auto.
  destruct (pick (blocking s) l c) as [j|] eqn:Hpk.
  - right. destruct (pick_lookup _ _ _ _ Hpk) as (k & Hj & Hb). rewrite Hj. cbn [mbind outcome_bind].
    set (s1 := sq s pv _). pose proof (proj1 (Forall_lookup _ _) Hk _ _ Hj) as Hkk.
    rewrite (is_blocking_known s1) by (by apply (known_same s)). cbn [mbind outcome_bind].
    rewrite (blocking_same s s1), Hb by done. cbn [mbind outcome_bind].
    pose proof (proj1 (Forall_lookup _ _) Ht _ _ Hj) as (t & Htk & Hbase).
    rewrite (upd_task_Done s1 _ _ t) by done. cbn [mbind outcome_bind]. set (s2 := set_tasks s1 _).
    unfold get_task at 1. cbn [tasks set_tasks s2]. rewrite lookup_insert_eq. cbn [or_undef mbind outcome_bind t_prio_base task_skips].
    rewrite Hbase, Z.eqb_refl. cbn [negb andb mbind outcome_bind].
    assert (Hr2 : rep (set_nx q (Z.of_nat (S j))) l (S j)).
    { apply rep_set_nx with c; [done|]. apply lookup_lt_Some in Hj. lia. }
    destruct (skip_loop_counts pv (set_nx q (Z.of_nat (S j))) l (S j) (prios_down (pv - 1)) s2) as (s' & -> & Hq' & _); auto.
    + by eapply level_sq.
    + intros k' Hk'. destruct (Hskip j k' eq_refl Hk') as (t' & Ht' & Hsk'). unfold skips_threshold in Hsk'.
      assert (Hlen : Z.of_nat (length (prios_down (pv - 1))) = pv).
      { unfold prios_down. rewrite length_rev, length_seqZ. lia. }
      unfold task_has, s2. cbn [tasks set_tasks]. destruct (decide (task_ptr k' = task_ptr k)) as [->|Hd].
      * rewrite lookup_insert_eq. eexists; split; [done|]. cbn [t_skips task_skips]. unfold skips_threshold. lia.
      * rewrite lookup_insert_ne by done. exists t'. split; [done|]. unfold skips_threshold. lia.
    + cbn [mbind outcome_bind]. do 4 eexists. split_and!; try done.
      unfold level. rewrite Hq'. change (queues s2) with (queues s1). by eapply level_sq.
  - left. split; [by eapply pick_none|].
    destruct (lookup_lt_is_Some_2 l (c - 1) ltac:(lia)) as [k Hj]. rewrite Hj. cbn [mbind outcome_bind].
    set (s1 := sq s pv _). pose proof (proj1 (Forall_lookup _ _) Hk _ _ Hj) as Hkk.
    rewrite (is_blocking_known s1) by (by apply (known_same s)). cbn [mbind outcome_bind].
    rewrite (blocking_same s s1) by done.
    pose proof (proj1 (Forall_lookup _ _) (pick_none _ _ _ Hpk) _ _ Hj) as Hb. simpl in Hb. rewrite Hb.
    exists s1. split; [done|]. right. by eexists.
Qed.

Lemma select_loop_spec pvs : forall s,
  Forall (fun pv => 0 <= pv < 5) pvs -> NoDup pvs -> Forall (level_ok s) pvs ->
  exists k s', select_loop fuel s pvs = Done (k, s') /\
    ((k = knull /\ Forall (all_blocking s) pvs) \/
     exists pre pv post j q', pvs = pre ++ pv :: post /\ Forall (all_blocking s) pre /\
       pick (blocking s) (lv pv).1 (lv pv).2 = Some j /\ (lv pv).1 !! j = Some k /\
       level s' pv q' /\ rep q' (lv pv).1 (S j)).
Proof.
  induction pvs as [|pv pvs IH]; intros s Hp Hnd Hok; [by exists knull, s; auto|].
  apply Forall_cons in Hp as [Hpv Hp], Hok as [Hpok Hok]. apply NoDup_cons in Hnd as [Hni Hnd].
  destruct (select_level s pv pvs Hpv Hpok) as [(Hab & s1 & -> & Hs1)|(k & j & s' & q' & Hpk & Hj & -> & Hl & Hr)].
  - assert (Hok1 : Forall (level_ok s1) pvs).
    { destruct Hs1 as [->|[q' ->]]; [done|]. apply Forall_forall. intros x Hx. rewrite Forall_forall in Hok, Hp.
      apply level_ok_sq; [by apply Hp|lia|by intros ->|by apply Hok]. }
    assert (Hsame : forall x, all_blocking s1 x <-> all_blocking s x).
    { destruct Hs1 as [->|[q' ->]]; done. }
    assert (Hpick : forall l c, pick (blocking s1) l c = pick (blocking s) l c) by (destruct Hs1 as [->|[q' ->]]; done).
    destruct (IH s1 Hp Hnd Hok1) as (k & s' & -> & Hcase). exists k, s'. split; [done|].
    destruct Hcase as [[-> Hall]|(pre & pv' & post & j & q' & -> & Hpre & Hpk & Hj & Hl & Hr)].
    + left. split; [done|]. constructor; [done|]. apply (Forall_impl _ _ _ Hall). apply Hsame.
    + right. exists (pv :: pre), pv', post, j, q'. rewrite Hpick in Hpk. split_and!; try done.
      constructor; [done|]. apply (Forall_impl _ _ _ Hpre). apply Hsame.
  - exists k, s'. split; [done|]. right. exists [], pv, pvs, j, q'. by split_and!.
Qed.

(** C6: [select_next] returns, and it returns the task that the level structure
    prescribes.  When every level is in order (its tasks queued at their base
    priority, the task behind the one offered not about to pass the skip threshold,
    and no level whose tasks are all blocking has its cursor at the start), a search
    with fuel for the longest level ends; it returns the null handle only when every queued task is
    blocking, and otherwise a task that is not blocking, from the highest level
    that has one, the first such task in the cyclic order from that level's cursor,
    with the cursor left just behind it. *)
Theorem select_next_highest s :
  total_tasks s <> 0 -> (forall pv, 0 <= pv < 5 -> level_ok s pv) ->
  exists k s', select_next fuel s = Done (k, s') /\
    ((k = knull /\ forall pv, 0 <= pv < 5 -> all_blocking s pv) \/
     exists pv j q', 0 <= pv < 5 /\ (forall pv', pv < pv' < 5 -> all_blocking s pv') /\
       pick (blocking s) (lv pv).1 (lv pv).2 = Some j /\ (lv pv).1 !! j = Some k /\ blocking s k = false /\
       level s' pv q' /\ rep q' (lv pv).1 (S j)).
Proof.
  intros Ht Hok. unfold select_next. destruct (Z.eqb_spec (total_tasks s) 0); [done|].
  change (prios_down PVSYS) with [4; 3; 2; 1; 0].
  destruct (select_loop_spec [4; 3; 2; 1; 0] s) as (k & s' & -> & Hc).
  - repeat constructor; lia.
  - apply (bool_decide_unpack _). by vm_compute.
  - repeat constructor; apply Hok; lia.
  - exists k, s'. split; [done|].
    assert (Hin : forall pv, 0 <= pv < 5 -> pv ∈ [4; 3; 2; 1; 0]).
    { intros pv Hpv. assert (pv = 0 \/ pv = 1 \/ pv = 2 \/ pv = 3 \/ pv = 4) as Hcs by lia. set_solver. }
    destruct Hc as [[-> Hall]|(pre & pv & post & j & q' & Heq & Hpre & Hpk & Hj & Hl & Hr)].
    + left. split; [done|]. intros pv Hpv. rewrite Forall_forall in Hall. by apply Hall, Hin.
    + right. destruct (pick_lookup _ _ _ _ Hpk) as (k' & Hk' & Hb). rewrite Hj in Hk'. injection Hk' as <-.
      exists pv, j, q'. rewrite Forall_forall in Hpre.
      assert (Hdown : pv = 4 - Z.of_nat (length pre) /\ (length pre < 5)%nat /\
                      forall pv', pv < pv' < 5 -> pv' ∈ pre).
      { do 5 (destruct pre as [|? pre]; [simpl in Heq; simplify_eq; split_and!; simpl; try lia;
          intros pv' Hpv'; assert (pv' = 1 \/ pv' = 2 \/ pv' = 3 \/ pv' = 4) as Hcs by lia; rewrite !elem_of_cons; lia|]).
        exfalso. apply (f_equal (@length _)) in Heq. rewrite length_app in Heq. simpl in Heq. lia. }
      destruct Hdown as (-> & Hlen & Hup). split_and!; try done; try lia.
      intros pv' Hpv'. by apply Hpre, Hup.
Qed.

(** [select_next] does not return when the search begins at the start of a level
    whose tasks are all blocking: the loop compares the cursor after each
    extraction with where it began, and a cursor that has just extracted a task is
    never at the start again. *)
Theorem select_next_hangs s pv :
  0 <= pv < 5 -> total_tasks s <> 0 -> (forall pv', pv < pv' < 5 -> (lv pv').1 = []) ->
  (forall pv', pv <= pv' < 5 -> exists q, level s pv' q /\ rep q (lv pv').1 (lv pv').2) ->
  (lv pv).1 <> [] -> (lv pv).2 = 0%nat -> Forall (known s) (lv pv).1 -> all_blocking s pv ->
  forall fuel', select_next fuel' s = NoFuel.
Proof.
  intros Hp Ht Hup Hrep Hne Hc Hk Hb fuel'. unfold select_next. destruct (Z.eqb_spec (total_tasks s) 0); [done|].
  assert (Hskip : forall pv' pvs, pv < pv' < 5 -> select_loop fuel' s (pv' :: pvs) = select_loop fuel' s pvs).
  { intros pv' pvs Hpv'. apply select_empty_level; [lia|]. destruct (Hrep pv') as (q & Hl & Hr); [lia|].
    rewrite (Hup pv') in Hr by lia. eauto. }
  assert (Hhere : forall pvs, select_loop fuel' s (pv :: pvs) = NoFuel).
  { intros pvs. cbn [select_loop]. destruct (Hrep pv) as (q & Hl & Hr); [lia|].
    rewrite (get_queue_level s pv q) by done. cbn [mbind outcome_bind]. rewrite (empty_rep _ _ _ Hr).
    destruct (Nat.eqb_spec (length (lv pv).1) 0) as [E|E]; [by apply length_zero_iff_nil in E|].
    pose proof Hr as (-> & _). rewrite Hc in *.
    rewrite (pop_runnable_scan fuel' s pv 0%nat q _ _ Hp Hl Hr Hne Hk), scan_hangs; [done|lia|done]. }
  change (prios_down PVSYS) with [4; 3; 2; 1; 0].
  assert (pv = 0 \/ pv = 1 \/ pv = 2 \/ pv = 3 \/ pv = 4) as [->|[->|[->|[->| ->]]]] by lia;
    rewrite ?Hskip by lia; apply Hhere.
Qed.
End selection.

(** A task that has sunk below its base priority leaves the array of levels.
    When the task [select_next] finds at the lowest level has another base
    priority, the function unpops it and transfers it to the level below, whose
    index is taken as an unsigned byte: the access is outside the array. *)
Theorem lowest_level_demotion_undefined fuel s q l c j k t :
  five s -> total_tasks s <> 0 -> (forall pv, 0 < pv < 5 -> exists q c, level s pv q /\ rep q [] c) ->
  level s PVLOW q -> rep q l c -> l <> [] -> Forall (known s) l -> (length l <= fuel)%nat ->
  pick (blocking s) l c = Some j -> l !! j = Some k ->
  tasks s !! task_ptr k = Some t -> t_prio_base t <> PVLOW ->
  select_next fuel s = Undef.
Proof.
  intros H5 Ht Hup Hl Hr Hne Hk Hf Hpk Hj Htk Hb. unfold select_next.
  destruct (Z.eqb_spec (total_tasks s) 0); [done|]. change (prios_down PVSYS) with [4; 3; 2; 1; 0].
  rewrite !select_empty_level by (apply Hup || lia; lia). cbn [select_loop].
  rewrite (get_queue_level s 0 q) by (done || lia). cbn [mbind outcome_bind]. rewrite (empty_rep _ _ _ Hr).
  destruct (Nat.eqb_spec (length l) 0) as [E|E]; [by apply length_zero_iff_nil in E|].
  pose proof Hr as (Hnx & _ & Hcl & _).
  rewrite Hnx, (pop_runnable_scan _ s 0 _ q l c ltac:(lia) Hl Hr Hne Hk), scan_pick, Hpk, Hj by (rewrite ?Hpk; done).
  cbn [mbind outcome_bind]. set (s1 := sq s 0 _).
  rewrite (is_blocking_known s1) by (apply (known_same s); try done; rewrite Forall_lookup in Hk; eauto).
  cbn [mbind outcome_bind]. destruct (pick_lookup _ _ _ _ Hpk) as (k' & Hk' & Hbk). rewrite Hj in Hk'. injection Hk' as <-.
  rewrite (blocking_same s s1), Hbk by done. rewrite (upd_task_Done s1 _ _ t) by done. cbn [mbind outcome_bind].
  set (s2 := set_tasks s1 _). unfold get_task at 1. cbn [tasks set_tasks s2].
  rewrite lookup_insert_eq. cbn [or_undef mbind outcome_bind t_prio_base task_skips].
  destruct (Z.eqb_spec (t_prio_base t) 0); [done|]. cbn [negb andb Z.eqb].
  pose proof (lookup_lt_Some _ _ _ Hj) as Hjl.
  assert (Hl2 : level s2 0 (set_nx q (Z.of_nat (S j)))) by (by eapply level_sq).
  rewrite (get_queue_level s2 0 _ ltac:(lia) Hl2). cbn [mbind outcome_bind].
  assert (Hr2 : rep (set_nx q (Z.of_nat (S j))) l (S j)) by (apply rep_set_nx with c; [done|lia]).
  destruct (unpop_rep _ _ _ Hr2) as [-> Hr3]. cbn [snd]. rewrite (put_queue_level s2 0 _ _ ltac:(lia) Hl2).
  cbn [mbind outcome_bind]. set (s3 := sq s2 0 _). unfold transfer_next.
  rewrite (get_queue_level s3 0 _ ltac:(lia) (level_sq _ _ _ _ Hl2)). cbn [mbind outcome_bind].
  rewrite (empty_rep _ _ _ Hr3), (at_end_rep _ _ _ Hr3).
  destruct (Nat.eqb_spec (length l) 0), (Nat.eqb_spec j (length l)); try lia. cbn [orb].
  assert (get_queue s3 (0 - 1) = Undef) as ->; [|done].
  assert (queues s3 !! 255%nat = None) as Hn.
  { apply lookup_ge_None. unfold s3. rewrite length_sq. change (queues s2) with (queues s1). unfold s1. rewrite length_sq, H5. lia. }
  change (or_undef (queues s3 !! 255%nat) = Undef). by rewrite Hn.
Qed.

(** ** The timer *)

(** [n] timer interrupts while no tick is handled otherwise. *)
Fixpoint times_run (n : nat) (st : scheduler_times) : outcome (Z * scheduler_times) :=
  match n with
  | O => Done (0, st)
  | S n => '(b, st1) ← times_tick st; '(m, st2) ← times_run n st1; Done ((if b : bool then 1 else 0) + m, st2)
  end.

(** The scheduler's tick rate is exact.  With a counter below the tick length
    and no more counts per interrupt than per tick, [n] interrupts fire exactly
    [(counter + n * counts_per_irq) / counts_per_tick] ticks, never lose a count,
    and leave the counter below the tick length. *)
Theorem timer_rate n st :
  0 < counts_per_irq st <= counts_per_tick st -> 2 * counts_per_tick st < 2 ^ 32 ->
  0 <= counter st < counts_per_tick st ->
  exists st', times_run n st = Done ((counter st + Z.of_nat n * counts_per_irq st) / counts_per_tick st, st') /\
    counter st' = (counter st + Z.of_nat n * counts_per_irq st) mod counts_per_tick st /\
    counts_per_irq st' = counts_per_irq st /\ counts_per_tick st' = counts_per_tick st.
Proof.
  intros Hi Ht. revert st Hi Ht. induction n as [|n IH]; intros st Hi Ht Hc; cbn [times_run].
  { exists st. rewrite Z.mul_0_l, Z.add_0_r, Z.div_small, Z.mod_small by lia. done. }
  unfold times_tick. set (i := counts_per_irq st) in *. set (p := counts_per_tick st) in *. set (c := counter st) in *.
  rewrite (wrap_small 32 (c + i)) by (split; lia). destruct (Z.eqb_spec p 0); [lia|]. cbn [mbind outcome_bind].
  destruct (IH (Times i p ((c + i) mod p))) as (st' & -> & Hc' & Hi' & Hp'); simpl; try done; [by apply Z.mod_pos_bound; lia|].
  cbn [mbind outcome_bind counter counts_per_irq counts_per_tick] in *. exists st'. split; [|split; [|done]].
  - do 2 f_equal. replace (c + Z.of_nat (S n) * i) with ((c + i) + Z.of_nat n * i) by lia.
    rewrite (Z.div_mod (c + i) p) at 3 by lia. rewrite <- Z.add_assoc, (Z.mul_comm p), Z.div_add_l by lia.
    f_equal. destruct (Z.leb_spec p (c + i)).
    + destruct (Z.eq_dec ((c + i) / p) 1) as [->|Hne]; [done|]. exfalso. apply Hne.
      symmetry. apply Z.div_unique with (c + i - p); lia.
    + by rewrite Z.div_small by lia.
  - rewrite Hc'. rewrite Z.add_mod_idemp_l by lia. f_equal. lia.
Qed.
