(* ===== verification/SleepProps.v ===== *)
(** The delta list of the sleeping tasks: what a tick wakes, what entering a timed
    wait does, and which waits can be interrupted. *)
From S2P Require Import Prelude DynQueue Sched SchedProps.

(** ** Wait counters *)
Definition delta (s : sched) (k : kthread_ptr) : Z :=
  match get_wait_delta s k with Done d => d | _ => 0 end.
(** Handles that share neither a wait counter nor a blocking flag. *)
Definition independent (x y : kthread_ptr) : Prop :=
  if has_thread x && has_thread y then thread_ptr x <> thread_ptr y else task_ptr x <> task_ptr y.
Definition same_wait (s s' : sched) (y : kthread_ptr) : Prop :=
  delta s' y = delta s y /\ blocking s' y = blocking s y /\ (known s y -> known s' y).

Lemma get_wait_delta_known s k : known s k -> get_wait_delta s k = Done (delta s k).
Proof.
  intros [[t Ht] Hth]. unfold delta, get_wait_delta, get_thread, get_task.
  destruct (has_thread k); [destruct (Hth eq_refl) as [th ->]|rewrite Ht]; done.
Qed.
Lemma same_wait_stores s s' y : tasks s' = tasks s -> threads s' = threads s -> same_wait s s' y.
Proof.
  intros H1 H2. split_and!; [|by apply blocking_same|by apply known_same].
  unfold delta, get_wait_delta, get_thread, get_task. by rewrite H1, H2.
Qed.
Lemma same_wait_trans s1 s2 s3 y : same_wait s1 s2 y -> same_wait s2 s3 y -> same_wait s1 s3 y.
Proof. intros (H1 & H2 & H3) (H4 & H5 & H6). split_and!; [congruence..|auto]. Qed.

(** The operations on a handle, as updates of the store. *)
Definition on_wait (ft : task_t -> task_t) (fth : thread_t -> thread_t) (s : sched) (x : kthread_ptr) : sched :=
  if has_thread x
  then match threads s !! thread_ptr x with Some th => set_threads s (<[thread_ptr x := fth th]> (threads s)) | None => s end
  else match tasks s !! task_ptr x with Some t => set_tasks s (<[task_ptr x := ft t]> (tasks s)) | None => s end.

Lemma upd_on_wait s x ft fth :
  known s x ->
  (if has_thread x then upd_thread s (thread_ptr x) fth else upd_task s (task_ptr x) ft) = Done (on_wait ft fth s x).
Proof.
  intros [[t Ht] Hth]. unfold on_wait, upd_thread, upd_task, get_thread, get_task.
  destruct (has_thread x); [destruct (Hth eq_refl) as [th ->]|rewrite Ht]; done.
Qed.

Lemma lookup_insert_known {A} (m : gmap Z A) (i j : Z) (x y : A) :
  m !! i = Some y -> is_Some (m !! j) -> is_Some (<[i := x]> m !! j).
Proof. intros Hi Hj. destruct (decide (i = j)) as [->|Hne]; [by rewrite lookup_insert_eq|by rewrite lookup_insert_ne]. Qed.

Lemma on_wait_known ft fth s x y : known s y -> known (on_wait ft fth s x) y.
Proof.
  intros [Ht Hth]. unfold on_wait. destruct (has_thread x).
  - destruct (threads s !! thread_ptr x) eqn:E; [|done]. split; [done|]. intros Hy. cbn. eapply lookup_insert_known; eauto.
  - destruct (tasks s !! task_ptr x) eqn:E; [|done]. split; [|done]. cbn. eapply lookup_insert_known; eauto.
Qed.

Lemma on_wait_other ft fth s x y : independent x y -> same_wait s (on_wait ft fth s x) y.
Proof.
  intros Hi. split_and!; [| |apply on_wait_known].
  all: unfold on_wait, delta, blocking, get_wait_delta, is_blocking, get_thread, get_task, independent in *;
    destruct (has_thread x) eqn:Hx, (has_thread y) eqn:Hy; cbn [andb] in Hi;
    try destruct (threads s !! thread_ptr x) eqn:E; try destruct (tasks s !! task_ptr x) eqn:E'; cbn;
    rewrite ?lookup_insert_ne by done; done.
Qed.

Lemma on_wait_self ft fth s x :
  known s x ->
  (forall t th, tasks s !! task_ptr x = Some t -> (has_thread x = true -> threads s !! thread_ptr x = Some th) ->
   delta (on_wait ft fth s x) x = (if has_thread x then th_wait_time_delta (fth th) else t_wait_ticks_delta (ft t)) /\
   blocking (on_wait ft fth s x) x = (if has_thread x then th_park (fth th) else t_block (ft t))).
Proof.
  intros Hk t th Ht Hth. unfold on_wait, delta, blocking, get_wait_delta, is_blocking, get_thread, get_task.
  destruct (has_thread x) eqn:E.
  - rewrite (Hth eq_refl). cbn. by rewrite lookup_insert_eq.
  - rewrite Ht. cbn. by rewrite lookup_insert_eq.
Qed.

(** [wait_tick] and [clear_blocking] *)
Definition ticked (s : sched) (x : kthread_ptr) : sched :=
  on_wait (fun t => task_wait_delta (u64 (t_wait_ticks_delta t - 1)) t)
          (fun th => thread_wait_delta (u64 (th_wait_time_delta th - 1)) th) s x.
Lemma wait_tick_Done s x : known s x -> wait_tick s x = Done (ticked s x).
Proof. apply upd_on_wait. Qed.
Lemma ticked_self s x :
  known s x -> delta (ticked s x) x = u64 (delta s x - 1) /\ blocking (ticked s x) x = blocking s x.
Proof.
  intros Hk. pose proof Hk as [[t Ht] Hth].
  assert (exists th, has_thread x = true -> threads s !! thread_ptr x = Some th) as [th Hth'].
  { destruct (has_thread x); [destruct (Hth eq_refl); eauto|by exists (Thread 0 false false 0 0 0)]. }
  destruct (on_wait_self (fun t => task_wait_delta (u64 (t_wait_ticks_delta t - 1)) t)
    (fun th => thread_wait_delta (u64 (th_wait_time_delta th - 1)) th) s x Hk t th Ht Hth') as [Hd Hb].
  fold (ticked s x) in Hd, Hb. rewrite Hd, Hb. unfold delta, blocking, get_wait_delta, is_blocking, get_thread, get_task.
  destruct (has_thread x); [rewrite (Hth' eq_refl)|rewrite Ht]; done.
Qed.

Definition cleared (s : sched) (x : kthread_ptr) : sched :=
  match tasks s !! task_ptr x with
  | Some t =>
      let s1 := set_tasks s (<[task_ptr x := task_wait_delta 0 (task_blocking false false t)]> (tasks s)) in
      if has_thread x then
        match threads s1 !! thread_ptr x with
        | Some th => set_threads s1 (<[thread_ptr x := thread_wait_delta 0 (thread_parking false false th)]> (threads s1))
        | None => s1 end
      else s1
  | None => s
  end.
Lemma clear_blocking_Done s x : known s x -> clear_blocking s x = Done (cleared s x).
Proof.
  intros [[t Ht] Hth]. unfold clear_blocking, cleared. rewrite (upd_task_Done _ _ _ _ Ht), Ht. cbn [mbind outcome_bind].
  destruct (has_thread x); [|done]. destruct (Hth eq_refl) as [th Hth']. unfold upd_thread, get_thread.
  cbn [threads set_tasks]. by rewrite Hth'.
Qed.
Lemma cleared_other s x y : independent x y -> same_wait s (cleared s x) y.
Proof.
  intros Hi. unfold cleared. destruct (tasks s !! task_ptr x) as [t|] eqn:E; [|by apply same_wait_stores].
  unfold independent in Hi. destruct (has_thread x) eqn:Hx; cbn [andb] in Hi.
  - destruct (threads (set_tasks s _) !! thread_ptr x) as [th|] eqn:E'; cbn in E';
    (split_and!;
     [unfold delta, get_wait_delta, get_thread, get_task; destruct (has_thread y); cbn; by rewrite ?lookup_insert_ne
     |unfold blocking, is_blocking, get_thread, get_task; destruct (has_thread y); cbn; by rewrite ?lookup_insert_ne|]);
    (intros [Ht Hth]; split; cbn; [eapply lookup_insert_known; eauto|];
     intros Hy; first [eapply lookup_insert_known; eauto|auto]).
  - split_and!.
    + unfold delta, get_wait_delta, get_thread, get_task. destruct (has_thread y); cbn; by rewrite ?lookup_insert_ne.
    + unfold blocking, is_blocking, get_thread, get_task. destruct (has_thread y); cbn; by rewrite ?lookup_insert_ne.
    + intros [Ht Hth]; split; cbn; [eapply lookup_insert_known; eauto|done].
Qed.
Lemma cleared_runs s x : known s x -> blocking (cleared s x) x = false.
Proof.
  intros [[t Ht] Hth]. unfold cleared, blocking, is_blocking, get_thread, get_task. rewrite Ht.
  destruct (has_thread x) eqn:E.
  - destruct (Hth eq_refl) as [th Hth']. cbn [threads set_tasks]. rewrite Hth'. cbn. by rewrite lookup_insert_eq.
  - cbn. by rewrite lookup_insert_eq.
Qed.
Lemma cleared_keeps_running s x y : blocking s y = false -> blocking (cleared s x) y = false.
Proof.
  unfold cleared, blocking, is_blocking, get_thread, get_task. destruct (tasks s !! task_ptr x) as [t|] eqn:E; [|done].
  destruct (has_thread x), (has_thread y); cbn.
  - destruct (threads s !! thread_ptr x) eqn:E'; [|done]. cbn.
    destruct (decide (thread_ptr x = thread_ptr y)) as [<-|Hn]; [by rewrite lookup_insert_eq|by rewrite lookup_insert_ne].
  - destruct (threads s !! thread_ptr x) eqn:E'; cbn;
    (destruct (decide (task_ptr x = task_ptr y)) as [<-|Hn]; [by rewrite lookup_insert_eq|by rewrite lookup_insert_ne]).
  - done.
  - destruct (decide (task_ptr x = task_ptr y)) as [<-|Hn]; [by rewrite lookup_insert_eq|by rewrite lookup_insert_ne].
Qed.
Lemma cleared_queues s x : sleepers (cleared s x) = sleepers s /\ queues (cleared s x) = queues s.
Proof. unfold cleared. repeat case_match; done. Qed.

(** ** The wake-up loop *)
Fixpoint zeros (d : kthread_ptr -> Z) (l : list kthread_ptr) : nat :=
  match l with [] => 0 | x :: l => if d x =? 0 then S (zeros d l) else 0 end.
Fixpoint pairwise (l : list kthread_ptr) : Prop :=
  match l with [] => True | x :: l => Forall (independent x) l /\ pairwise l end.
(** The cell behind the last element is within the storage and clear. *)
Definition spare (q : kqueue) (n : nat) : Prop := cells q !! n = Some (Some knull).

Lemma pairwise_drop n l : pairwise l -> pairwise (drop n l).
Proof. revert n. induction l as [|x l IH]; intros [|n]; simpl; [done..|]. intros [_ H]; auto. Qed.

Lemma zeros_ext d d' l : Forall (fun x => d x = d' x) l -> zeros d l = zeros d' l.
Proof. induction 1 as [|x l Hx Hl IH]; simpl; [done|]. by rewrite Hx, IH. Qed.

Lemma qget_cell (q : kqueue) n x : cells q !! n = Some (Some x) -> qget q (Z.of_nat n) = Done x.
Proof.
  intros H. unfold qget, array_get. destruct (Z.leb_spec 0 (Z.of_nat n)); [|lia]. by rewrite Nat2Z.id, H.
Qed.

(** Overwriting a cell before the cursor leaves the elements still queued. *)
Lemma rep_overwrite (q : kqueue) l c front x :
  rep q l c -> (front < c)%nat ->
  rep (set_ptrs q (<[front := Some x]> (cells q)) (nx q) (en q)) (<[front := x]> l) c.
Proof.
  intros (Hn & He & Hc & [junk Hj] & Hcap) Hf. split_and!; cbn [nx en cells set_ptrs]; try done.
  - by rewrite length_insert.
  - by rewrite length_insert.
  - exists junk. rewrite Hj, insert_app_l by (rewrite length_fmap; lia). by rewrite list_fmap_insert.
  - unfold qcapacity in *. cbn [cells set_ptrs]. by rewrite length_insert.
Qed.

Lemma wake_loop_spec live : forall fuel s l c front,
  drop c l = live -> rep (sleepers s) l c -> (front <= c)%nat -> spare (sleepers s) (length l) ->
  cells (sleepers s) !! front = Some (Some (default knull (head live))) ->
  Forall (known s) live -> Forall (fun x => kbool x = true) live -> pairwise live -> (length live < fuel)%nat ->
  exists s' l', wake_loop fuel s (Z.of_nat front) = Done s' /\
    rep (sleepers s') l' (c + zeros (delta s) live) /\
    drop (c + zeros (delta s) live) l' = drop (zeros (delta s) live) live /\
    length l' = length l /\ spare (sleepers s') (length l) /\
    Forall (fun x => blocking s' x = false) (take (zeros (delta s) live) live) /\
    Forall (same_wait s s') (drop (zeros (delta s) live) live) /\
    (forall y, blocking s y = false -> blocking s' y = false).
Proof.
  induction live as [|x live IH]; intros fuel s l c front Hd Hr Hfr Hsp Hcell Hk Hnn Hpw Hfuel;
    (destruct fuel as [|fuel]; [simpl in Hfuel; lia|]); cbn [wake_loop].
  - rewrite (qget_cell _ _ _ Hcell). cbn [mbind outcome_bind default from_option head zeros].
    exists s, l. rewrite Nat.add_0_r. by split_and!.
  - rewrite (qget_cell _ _ _ Hcell). cbn [mbind outcome_bind]. cbn [default from_option head]. unfold id.
    apply Forall_cons in Hk as [Hkx Hk], Hnn as [Hnx Hnn]. destruct Hpw as [Hix Hpw].
    rewrite Hnx. cbn [negb]. rewrite (get_wait_delta_known _ _ Hkx). cbn [mbind outcome_bind zeros].
    destruct (Z.eqb_spec (delta s x) 0) as [E|E]; cbn [negb].
    2: { exists s, l. rewrite Nat.add_0_r. split_and!; try done.
         apply Forall_forall. intros y _. by apply same_wait_stores. }
    assert (Hlc : l !! c = Some x) by (rewrite <- (Nat.add_0_r c), <- lookup_drop, Hd; done).
    pose proof (lookup_lt_Some _ _ _ Hlc) as Hlt.
    destruct (pop_rep _ _ _ _ Hr Hlc) as [-> Hr1]. cbn [mbind outcome_bind or_undef].
    set (q1 := set_nx (sleepers s) (Z.of_nat (S c))) in *.
    rewrite clear_blocking_Done by done. cbn [mbind outcome_bind].
    set (s1 := cleared (set_sleepers s q1) x). destruct (cleared_queues (set_sleepers s q1) x) as [Hq1 _].
    change (cleared (set_sleepers s q1) x) with s1 in Hq1. cbn [sleepers set_sleepers] in Hq1. rewrite Hq1.
    assert (Hd1 : drop (S c) l = live).
    { by rewrite <- Nat.add_1_r, <- drop_drop, Hd. }
    assert (Hnext : next q1 = Done (default knull (head live))).
    { unfold next. cbn [nx set_nx q1]. apply (qget_cell q1). cbn [cells set_nx q1].
      destruct live as [|y live]; cbn [head default from_option].
      - apply (f_equal (@length _)) in Hd1. rewrite length_drop in Hd1. simpl in Hd1.
        replace (S c) with (length l) by lia. done.
      - assert (Hy : l !! S c = Some y) by (rewrite <- (Nat.add_0_r (S c)), <- lookup_drop, Hd1; done).
        destruct Hr as (_ & _ & _ & [junk ->] & _).
        rewrite lookup_app_l, list_lookup_fmap, Hy by (rewrite length_fmap; by apply lookup_lt_Some in Hy). done. }
    rewrite Hnext. cbn [mbind outcome_bind]. set (y := default knull (head live)) in *.
    assert (Hfl : (front < length (cells q1))%nat) by (by apply lookup_lt_Some in Hcell).
    assert (Hset : array_set (cells q1) (Z.of_nat front) (Some y) = Done (<[front := Some y]> (cells q1))).
    { unfold array_set, array_get. destruct (Z.leb_spec 0 (Z.of_nat front)); [|lia]. rewrite Nat2Z.id.
      destruct (lookup_lt_is_Some_2 _ _ Hfl) as [z ->]. done. }
    rewrite Hset. cbn [mbind outcome_bind].
    set (q2 := set_ptrs q1 _ _ _). set (s2 := set_sleepers s1 q2).
    assert (Hw2 : forall z, independent x z -> same_wait s s2 z).
    { intros z Hz. apply same_wait_trans with (set_sleepers s q1); [by apply same_wait_stores|].
      apply same_wait_trans with s1; [by apply cleared_other|by apply same_wait_stores]. }
    assert (Hsame : Forall (same_wait s s2) live) by (apply (Forall_impl _ _ _ Hix); auto).
    destruct (IH fuel s2 (<[front := y]> l) (S c) front) as (s' & l' & Hrun & Hr' & Hd' & Hlen' & Hsp' & Hwk & Hrest & Hmono).
    + rewrite drop_insert_lt by lia. done.
    + apply (rep_overwrite q1 l (S c) front y Hr1). lia.
    + lia.
    + rewrite length_insert. unfold spare, s2, q2. cbn [sleepers set_sleepers cells set_ptrs].
      rewrite list_lookup_insert_ne by lia. done.
    + unfold s2, q2. cbn [sleepers set_sleepers cells set_ptrs]. by rewrite list_lookup_insert_eq.
    + rewrite Forall_forall in Hsame, Hk |- *. intros z Hz. by apply (Hsame z Hz), Hk.
    + done.
    + done.
    + simpl in Hfuel. lia.
    + assert (Hz : zeros (delta s2) live = zeros (delta s) live).
      { apply zeros_ext. apply (Forall_impl _ _ _ Hsame). by intros z (Hz & _). }
      rewrite Hz, ?length_insert in *. rewrite <- Nat.add_succ_comm. exists s', l'.
      cbn [take drop]. split_and!; try done.
      * constructor; [|done]. apply Hmono. rewrite (blocking_same s1 s2) by done. by apply cleared_runs.
      * apply Forall_forall. intros z Hzi. rewrite Forall_forall in Hrest. specialize (Hrest z Hzi).
        apply same_wait_trans with s2; [|done]. apply Hw2. rewrite Forall_forall in Hix. apply Hix.
        by eapply subseteq_drop.
      * intros z Hzb. apply Hmono. rewrite (blocking_same s1 s2) by done. by apply cleared_keeps_running.
Qed.

(** ** Wake-up times *)

(** The ticks left for the sleeper at position [i] of the list: the sum of the
    counters up to its own. *)
Definition sum_deltas (d : kthread_ptr -> Z) (l : list kthread_ptr) : Z := foldr (fun x acc => d x + acc) 0 l.
Definition due (s : sched) (live : list kthread_ptr) (i : nat) : Z := sum_deltas (delta s) (take (S i) live).

Lemma sum_deltas_app d l1 l2 : sum_deltas d (l1 ++ l2) = sum_deltas d l1 + sum_deltas d l2.
Proof. induction l1 as [|x l IH]; simpl; lia. Qed.
Lemma sum_deltas_nonneg d l : Forall (fun x => 0 <= d x) l -> 0 <= sum_deltas d l.
Proof. induction 1; simpl; lia. Qed.
Lemma sum_deltas_ext d d' l : Forall (fun x => d x = d' x) l -> sum_deltas d l = sum_deltas d' l.
Proof. induction 1; simpl; lia. Qed.
Lemma zeros_sum d l : Forall (fun x => 0 <= d x) l ->
  sum_deltas d (take (zeros d l) l) = 0 /\
  forall i, (i < length l)%nat -> (i < zeros d l)%nat <-> sum_deltas d (take (S i) l) = 0.
Proof.
  induction 1 as [|x l Hx Hl IH]; simpl; [split; [done|intros; lia]|]. destruct IH as [IH1 IH2].
  destruct (Z.eqb_spec (d x) 0) as [E|E]; simpl.
  - split; [lia|]. intros [|i] Hi; simpl; [split; lia|]. specialize (IH2 i ltac:(lia)). rewrite E.
    destruct IH2. split; intros; [|apply Nat.lt_succ_r, Nat.le_succ_l]; intuition lia.
  - split; [done|]. intros i Hi. split; [lia|]. intros Hs.
    pose proof (sum_deltas_nonneg d (take i l) (Forall_take _ _ _ Hl)). lia.
Qed.

(** One tick of the sleepers: what [on_tick] does before it looks at the running task. *)
Definition sleepers_tick (s : sched) : outcome sched := s1 ← tick_wait s; wake_sleepers s1.

(** The time left to each sleeper once the first of them lost a tick. *)
Lemma due_ticked s s1 x live i :
  delta s1 x = delta s x - 1 -> Forall (same_wait s s1) live ->
  due s (x :: live) i = 1 + sum_deltas (delta s1) (take (S i) (x :: live)).
Proof.
  intros Hdx Hs1. unfold due. cbn [take sum_deltas foldr]. fold (sum_deltas (delta s) (take i live)).
  fold (sum_deltas (delta s1) (take i live)). rewrite Hdx, (sum_deltas_ext (delta s1) (delta s)); [lia|].
  apply Forall_take, (Forall_impl _ _ _ Hs1). by intros y (? & _).
Qed.
(** The time left to a sleeper behind those that were woken. *)
Lemma due_after s1 s' l m i :
  Forall (same_wait s1 s') (drop m l) -> sum_deltas (delta s1) (take m l) = 0 -> (m <= i)%nat ->
  due s' (drop m l) (i - m) = sum_deltas (delta s1) (take (S i) l).
Proof.
  intros Hrest Hz0 Him. unfold due. rewrite (sum_deltas_ext (delta s') (delta s1)).
  2: { apply Forall_take, (Forall_impl _ _ _ Hrest). by intros z (? & _). }
  replace (S i) with (m + S (i - m))%nat by lia. rewrite <- (take_take_drop l m), sum_deltas_app, Hz0. lia.
Qed.

(** C12: a tick wakes exactly the sleepers whose time has come.  For sleepers that
    share no counters, the first of them with at least one tick left, and a clear
    cell behind the last one, one tick runs without undefined behaviour; the
    sleepers whose remaining time was one tick are no longer blocking, in the order
    of the list, and every other sleeper keeps its place and its state and has one
    tick less to wait. *)
Theorem tick_wakes_due s l k x live :
  rep (sleepers s) l k -> drop k l = x :: live -> spare (sleepers s) (length l) ->
  Forall (known s) (x :: live) -> Forall (fun y => kbool y = true) (x :: live) -> pairwise (x :: live) ->
  Forall (fun y => 0 <= delta s y < 2 ^ 64) (x :: live) -> 0 < delta s x ->
  exists s' l' m, sleepers_tick s = Done s' /\ rep (sleepers s') l' (k + m) /\
    drop (k + m) l' = drop m (x :: live) /\
    forall i y, (x :: live) !! i = Some y ->
      ((i < m)%nat <-> due s (x :: live) i = 1) /\
      ((i < m)%nat -> blocking s' y = false) /\
      ((m <= i)%nat -> blocking s' y = blocking s y /\
                       due s' (drop m (x :: live)) (i - m) = due s (x :: live) i - 1).
Proof.
  intros Hr Hd Hsp Hk Hnn Hpw Hrange Hx. unfold sleepers_tick, tick_wait.
  assert (Hlk : l !! k = Some x) by (rewrite <- (Nat.add_0_r k), <- lookup_drop, Hd; done).
  pose proof (lookup_lt_Some _ _ _ Hlk) as Hlt.
  rewrite (empty_rep _ _ _ Hr), (at_end_rep _ _ _ Hr).
  destruct (Nat.eqb_spec (length l) 0), (Nat.eqb_spec k (length l)); try lia. cbn [orb].
  assert (next (sleepers s) = Done x) as -> by (unfold next; pose proof Hr as (-> & _); by apply (rep_qget _ _ _ _ _ Hr)).
  cbn [mbind outcome_bind]. pose proof Hk as [Hkx Hkl]%Forall_cons. rewrite wait_tick_Done by done. cbn [mbind outcome_bind].
  set (s1 := ticked s x).
  assert (Hsl : sleepers s1 = sleepers s) by (unfold s1, ticked, on_wait; repeat case_match; done).
  destruct (ticked_self s x Hkx) as [Hdx Hbx]. fold s1 in Hdx, Hbx.
  pose proof Hrange as [Hrx Hrl]%Forall_cons. rewrite wrap_small in Hdx by (split; lia).
  destruct Hpw as [Hix Hpw].
  assert (Hs1 : Forall (same_wait s s1) live) by (apply (Forall_impl _ _ _ Hix); intros y Hy; by apply on_wait_other).
  unfold wake_sleepers. rewrite Hsl, (at_end_rep _ _ _ Hr). destruct (Nat.eqb_spec k (length l)); [lia|].
  pose proof Hr as (-> & _). 
  destruct (wake_loop_spec (x :: live) (S (length (cells (sleepers s)))) s1 l k k)
    as (s' & l' & Hrun & Hr' & Hd' & _ & _ & Hwk & Hrest & _).
  - done.
  - by rewrite Hsl.
  - lia.
  - by rewrite Hsl.
  - rewrite Hsl. cbn [head default from_option]. destruct Hr as (_ & _ & _ & [junk ->] & _).
    by rewrite lookup_app_l, list_lookup_fmap, Hlk by (rewrite length_fmap; lia).
  - apply (Forall_impl _ _ _ Hk). intros y Hy. by apply on_wait_known.
  - done.
  - done.
  - rewrite <- Hd, length_drop. pose proof (lookup_lt_Some _ _ _ Hsp). lia.
  - set (m := zeros (delta s1) (x :: live)) in *. exists s', l', m. split_and!; try done.
    assert (Hnn1 : Forall (fun y => 0 <= delta s1 y) (x :: live)).
    { constructor; [lia|]. rewrite Forall_forall in Hs1, Hrl |- *. intros y Hy. destruct (Hs1 y Hy) as (-> & _).
      specialize (Hrl y Hy). lia. }
    assert (Hdue : forall i, due s (x :: live) i = 1 + sum_deltas (delta s1) (take (S i) (x :: live))) by (intros i; by apply due_ticked).
    destruct (zeros_sum _ _ Hnn1) as [Hz0 Hzi]. fold m in Hz0, Hzi.
    intros i y Hy. pose proof (lookup_lt_Some _ _ _ Hy) as Hi. rewrite Hdue. split_and!.
    + rewrite (Hzi i Hi). lia.
    + intros Him. rewrite Forall_lookup in Hwk. apply (Hwk i). by rewrite lookup_take_lt.
    + intros Him. rewrite Forall_lookup in Hrest.
      assert (Hyr : drop m (x :: live) !! (i - m)%nat = Some y) by (rewrite lookup_drop; by replace (m + (i - m))%nat with i by lia).
      destruct (Hrest _ _ Hyr) as (_ & Hb & _). split.
      * rewrite Hb. destruct i as [|i]; [injection Hy as <-; done|]. rewrite Forall_lookup in Hs1.
        by destruct (Hs1 i y Hy) as (_ & ? & _).
      * rewrite (due_after s1 s' (x :: live) m i); [lia|apply Forall_lookup; exact Hrest|done|done].
Qed.

(** ** Entering a timed wait *)
Lemma cumulative_from_sum live : forall fuel s l c acc,
  (exists k, rep (sleepers s) l k) -> drop c l = live -> (c <= length l)%nat -> (length live <= fuel)%nat ->
  Forall (known s) live -> Forall (fun x => 0 <= delta s x) live ->
  0 <= acc -> acc + sum_deltas (delta s) live < 2 ^ 64 ->
  cumulative_from fuel s (Z.of_nat c) acc = Done (acc + sum_deltas (delta s) live).
Proof.
  induction live as [|x live IH]; intros fuel s l c acc [k Hr] Hd Hc Hf Hk Hnn Ha Hb.
  - assert (length l = c) as <-.
    { apply (f_equal (@length _)) in Hd. rewrite length_drop in Hd. simpl in Hd. lia. }
    destruct fuel; cbn [cumulative_from]; pose proof Hr as (_ & -> & _); rewrite Z.eqb_refl; f_equal; simpl; lia.
  - destruct fuel as [|fuel]; [simpl in Hf; lia|]. cbn [cumulative_from].
    assert (Hlc : l !! c = Some x) by (rewrite <- (Nat.add_0_r c), <- lookup_drop, Hd; done).
    pose proof (lookup_lt_Some _ _ _ Hlc). pose proof Hr as (_ & -> & _).
    destruct (Z.eqb_spec (Z.of_nat c) (Z.of_nat (length l))); [lia|].
    rewrite (rep_qget _ _ _ _ _ Hr Hlc). apply Forall_cons in Hk as [Hkx Hk], Hnn as [Hnx Hnn].
    cbn [mbind outcome_bind]. rewrite (get_wait_delta_known _ _ Hkx). cbn [mbind outcome_bind].
    cbn [sum_deltas foldr] in Hb |- *. fold (sum_deltas (delta s) live) in Hb |- *.
    pose proof (sum_deltas_nonneg _ _ Hnn). rewrite (wrap_small 64) by (split; lia).
    replace (Z.of_nat c + 1) with (Z.of_nat (S c)) by lia.
    rewrite (IH fuel s l (S c) (acc + delta s x)); [f_equal; lia|by eexists| |lia|simpl in Hf; lia|done|done|lia|lia].
    by rewrite <- Nat.add_1_r, <- drop_drop, Hd.
Qed.

Lemma cumulative_sum s l k :
  rep (sleepers s) l k -> Forall (known s) (drop k l) -> Forall (fun x => 0 <= delta s x) (drop k l) ->
  sum_deltas (delta s) (drop k l) < 2 ^ 64 ->
  cumulative_remaining_ticks s = Done (sum_deltas (delta s) (drop k l)).
Proof.
  intros Hr Hk Hnn Hb. unfold cumulative_remaining_ticks. pose proof Hr as (-> & _ & Hkl & [junk Hc] & _).
  apply (f_equal (@length _)) in Hc. rewrite length_app, length_fmap in Hc.
  rewrite (cumulative_from_sum (drop k l) _ s l); try done; [by eexists|rewrite length_drop; lia].
Qed.

(** When the wait ends before the last sleeper's, the search finds a position. *)
Lemma wait_position_found live : forall fuel s l c time cum,
  (exists k, rep (sleepers s) l k) -> drop c l = live -> (c <= length l)%nat -> (length live <= fuel)%nat ->
  Forall (known s) live -> Forall (fun x => 0 <= delta s x) live ->
  0 <= cum <= time -> time < cum + sum_deltas (delta s) live < 2 ^ 64 ->
  exists i cum', wait_position fuel s time (Z.of_nat c) cum = Done (Some (Z.of_nat i, cum')) /\
    (c <= i < length l)%nat.
Proof.
  induction live as [|x live IH]; intros fuel s l c time cum [k Hr] Hd Hc Hf Hk Hnn Ha Hb; [simpl in Hb; lia|].
  destruct fuel as [|fuel]; [simpl in Hf; lia|]. cbn [wait_position].
  assert (Hlc : l !! c = Some x) by (rewrite <- (Nat.add_0_r c), <- lookup_drop, Hd; done).
  pose proof (lookup_lt_Some _ _ _ Hlc). pose proof Hr as (_ & -> & _).
  destruct (Z.eqb_spec (Z.of_nat c) (Z.of_nat (length l))); [lia|].
  rewrite (rep_qget _ _ _ _ _ Hr Hlc). apply Forall_cons in Hk as [Hkx Hk], Hnn as [Hnx Hnn].
  cbn [mbind outcome_bind]. rewrite (get_wait_delta_known _ _ Hkx). cbn [mbind outcome_bind].
  cbn [sum_deltas foldr] in Hb. fold (sum_deltas (delta s) live) in Hb.
  pose proof (sum_deltas_nonneg _ _ Hnn). rewrite !(wrap_small 64) by (split; lia).
  destruct (Z.ltb_spec time (delta s x + cum)); [exists c, cum; split; [done|lia]|].
  replace (Z.of_nat c + 1) with (Z.of_nat (S c)) by lia.
  destruct (IH fuel s l (S c) time (cum + delta s x)) as (i & cum' & -> & Hi);
    [by eexists| |lia|simpl in Hf; lia|done|done|lia|lia|exists i, cum'; split; [done|lia]].
  by rewrite <- Nat.add_1_r, <- drop_drop, Hd.
Qed.

Section entry.
Context (s : sched) (l : list kthread_ptr) (k : nat) (task : kthread_ptr) (time : Z) (can_interrupt : bool).
Context (Hrep : rep (sleepers s) l k) (Hcap : qcapacity (sleepers s) + 1 < cap_bound).
Context (Htask : known s task) (Hk : Forall (known s) (drop k l)) (Hind : Forall (independent task) (drop k l)).
Context (Hnn : Forall (fun x => 0 <= delta s x) (drop k l)).
Context (Htime : 0 <= time < 2 ^ 64) (Hsum : sum_deltas (delta s) (drop k l) < 2 ^ 64).

(** The state after [set_blocking]. *)
Definition blocked : sched := on_wait (task_blocking true can_interrupt) (thread_parking true can_interrupt) s task.
(** ... and after [set_wait_delta]. *)
Definition delayed (d : Z) : sched :=
  on_wait (task_wait_delta d) (fun th => thread_wait_delta d (thread_parking (th_park th) false th)) blocked task.

Lemma on_wait_sleepers ft fth s' x : sleepers (on_wait ft fth s' x) = sleepers s'.
Proof. unfold on_wait. repeat case_match; done. Qed.
Lemma blocked_sleepers : sleepers blocked = sleepers s.
Proof. apply on_wait_sleepers. Qed.
Lemma blocked_same : Forall (same_wait s blocked) (drop k l).
Proof using Hind. apply (Forall_impl _ _ _ Hind). intros y Hy. by apply on_wait_other. Qed.
Lemma blocked_known : known blocked task /\ Forall (known blocked) (drop k l).
Proof using Htask Hk. split; [by apply on_wait_known|]. apply (Forall_impl _ _ _ Hk). intros. by apply on_wait_known. Qed.
Lemma blocked_nonneg : Forall (fun x => 0 <= delta blocked x) (drop k l).
Proof using Hind Hnn.
  pose proof blocked_same as Hs. rewrite Forall_forall in Hs, Hnn |- *. intros x Hx. by destruct (Hs x Hx) as (-> & _); auto.
Qed.
Lemma blocked_sum : sum_deltas (delta blocked) (drop k l) = sum_deltas (delta s) (drop k l).
Proof using Hind. apply sum_deltas_ext, (Forall_impl _ _ _ blocked_same). by intros x (? & _). Qed.

Lemma set_blocking_Done : set_blocking s task can_interrupt = Done blocked.
Proof using Htask. by apply upd_on_wait. Qed.
Lemma set_wait_delta_Done d : set_wait_delta blocked task d = Done (delayed d).
Proof using Htask Hk. apply upd_on_wait, blocked_known; done. Qed.
Lemma total_Done : cumulative_remaining_ticks blocked = Done (sum_deltas (delta s) (drop k l)).
Proof using Hrep Htask Hk Hind Hnn Hsum.
  rewrite <- blocked_sum. apply cumulative_sum; [by rewrite blocked_sleepers|apply blocked_known; done|apply blocked_nonneg|].
  by rewrite blocked_sum.
Qed.

Lemma delayed_same d : Forall (same_wait s (delayed d)) (drop k l).
Proof using Hind.
  pose proof blocked_same as Hs. rewrite Forall_forall in Hs, Hind |- *. intros y Hy.
  apply same_wait_trans with blocked; [by apply Hs|]. apply on_wait_other. by apply Hind.
Qed.
Lemma delayed_self d :
  delta (delayed d) task = d /\ blocking (delayed d) task = true /\
  (has_thread task = true -> is_interruptible (delayed d) task = Done false).
Proof using Htask.
  destruct Htask as [[t Ht] Hth]. unfold delayed, blocked, on_wait, delta, blocking, get_wait_delta, is_blocking,
    is_interruptible, get_thread, get_task. destruct (has_thread task).
  - destruct (Hth eq_refl) as [th Hth']. rewrite Hth'. cbn. rewrite !lookup_insert_eq. cbn. by rewrite !lookup_insert_eq.
  - rewrite Ht. cbn. rewrite !lookup_insert_eq. cbn. by rewrite !lookup_insert_eq.
Qed.

(** entering a timed wait that ends last is exact.  When the requested time is
    not below the remaining time of every sleeper, the task becomes blocking and
    is queued last with exactly [time] ticks to wait, and no other sleeper's
    remaining time changes.  For a thread the wait cannot be interrupted, whatever
    was asked for: setting the counter clears the flag set just before. *)
Theorem timed_wait_last :
  sum_deltas (delta s) (drop k l) <= time ->
  exists s' l' k', set_wait_time s task time can_interrupt = Done (true, s') /\
    rep (sleepers s') l' k' /\ drop k' l' = drop k l ++ [task] /\ blocking s' task = true /\
    due s' (drop k l ++ [task]) (length (drop k l)) = time /\
    (forall i, (i < length (drop k l))%nat -> due s' (drop k l ++ [task]) i = due s (drop k l) i) /\
    (has_thread task = true -> is_interruptible s' task = Done false).
Proof using Hrep Hcap Htask Hk Hind Hnn Htime Hsum.
  intros Hle. unfold set_wait_time. rewrite set_blocking_Done. cbn [mbind outcome_bind]. rewrite total_Done.
  cbn [mbind outcome_bind]. set (total := sum_deltas (delta s) (drop k l)) in *.
  destruct (Z.ltb_spec time total); [lia|]. cbn [mbind outcome_bind]. rewrite set_wait_delta_Done. cbn [mbind outcome_bind].
  pose proof (sum_deltas_nonneg _ _ Hnn). rewrite (wrap_small 64) by (split; lia).
  set (s2 := delayed (time - total)).
  assert (Hs2 : sleepers s2 = sleepers s) by (unfold s2, delayed; by rewrite on_wait_sleepers, blocked_sleepers).
  rewrite Hs2. destruct (push_rep knull _ _ _ task Hrep Hcap) as (q & -> & Hq & _). cbn [mbind outcome_bind].
  destruct (delayed_self (time - total)) as (Hd & Hb & Hint). fold s2 in Hd, Hb, Hint.
  pose proof (delayed_same (time - total)) as Hsame. fold s2 in Hsame.
  exists (set_sleepers s2 q).
  assert (exists l' k', rep q l' k' /\ drop k' l' = drop k l ++ [task]) as (l' & k' & Hr' & Hd').
  { pose proof Hrep as (_ & _ & Hkl & _). destruct Hq as [Hq|[_ Hq]]; do 2 eexists; (split; [exact Hq|]); [by rewrite drop_app_le|done]. }
  exists l', k'. split_and!; try done.
  - unfold due. rewrite take_ge by (rewrite length_app; simpl; lia). rewrite sum_deltas_app. cbn [sum_deltas foldr].
    change (delta (set_sleepers s2 q) task) with (delta s2 task). rewrite Hd.
    fold (sum_deltas (delta (set_sleepers s2 q)) (drop k l)).
    rewrite (sum_deltas_ext (delta (set_sleepers s2 q)) (delta s)); [lia|].
    apply (Forall_impl _ _ _ Hsame). by intros y (? & _).
  - intros i Hi. unfold due. rewrite take_app_le by lia. apply sum_deltas_ext, Forall_take.
    apply (Forall_impl _ _ _ Hsame). by intros y (? & _).
Qed.

(** entering a timed wait that ends earlier stops every wake-up.  When no
    sleeper has been woken yet and the requested time is below the remaining time
    of the last one, the task is inserted among the others, and from then on a
    tick neither decrements a counter nor wakes anybody: it leaves the whole state
    as it was. *)
Theorem timed_wait_earlier :
  k = 0%nat -> time < sum_deltas (delta s) (drop k l) -> Z.of_nat (length l) < qcapacity (sleepers s) ->
  exists b s', set_wait_time s task time can_interrupt = Done (b, s') /\
    blocking s' task = true /\ sleepers_tick s' = Done s'.
Proof using Hrep Hcap Htask Hk Hind Hnn Htime Hsum.
  intros Hk0 Hlt Hroom. unfold set_wait_time. rewrite set_blocking_Done. cbn [mbind outcome_bind]. rewrite total_Done.
  cbn [mbind outcome_bind]. set (total := sum_deltas (delta s) (drop k l)) in *.
  destruct (Z.ltb_spec time total); [|lia]. rewrite blocked_sleepers. pose proof Hrep as (Hnx & _ & Hkl & [junk Hc] & _).
  pose proof (f_equal (@length _) Hc) as Hcl. rewrite length_app, length_fmap in Hcl.
  destruct (wait_position_found (drop k l) (S (length (cells (sleepers s)))) blocked l k time 0) as (i & cum & Hpos & Hi);
    [by exists k; rewrite blocked_sleepers|done|done|rewrite length_drop; lia|apply blocked_known; done|apply blocked_nonneg|lia
    |rewrite blocked_sum; lia|].
  rewrite Hnx, Hpos. cbn [mbind outcome_bind]. rewrite set_wait_delta_Done. cbn [mbind outcome_bind].
  set (s2 := delayed _). assert (Hs2 : sleepers s2 = sleepers s) by (unfold s2, delayed; by rewrite on_wait_sleepers, blocked_sleepers).
  rewrite Hs2. destruct (insert_rep knull _ _ _ i task Hrep ltac:(lia) Hcap) as (q' & -> & Hcq & Hnq & Heq & _).
  cbn [mbind outcome_bind]. do 2 eexists. split; [done|]. rewrite Hk0 in *.
  destruct (Nat.ltb_spec i 0); [lia|]. destruct (delayed_self (u64 (time - cum))) as (_ & Hb & _). split; [exact Hb|].
  set (s3 := set_sleepers s2 q'). unfold sleepers_tick, tick_wait. change (sleepers s3) with q'.
  assert (empty_q q' = true) as -> by (unfold empty_q, qsize; by rewrite Heq). cbn [orb mbind outcome_bind].
  unfold wake_sleepers. change (sleepers s3) with q'.
  assert (at_end q' = false) as ->.
  { unfold at_end, qrem. rewrite Heq, Hnq. apply Z.eqb_neq. unfold wrap, qcapacity, cap_bound in *.
    rewrite <- (Z.mod_unique (Z.of_nat 0 - Z.of_nat (S (length l))) (2 ^ 64) (-1) (2 ^ 64 - Z.of_nat (S (length l)))); lia. }
  rewrite Hnq. cbn [wake_loop]. change (sleepers s3) with q'.
  rewrite (qget_cell q' (S (length l)) knull); [done|]. rewrite Hcq, lookup_app_r by (rewrite length_fmap, length_app; simpl; rewrite length_take, length_drop; lia).
  apply lookup_replicate. split; [done|]. rewrite length_fmap, length_app. simpl. rewrite length_take, length_drop. unfold qcapacity in Hroom. lia.
Qed.
End entry.
