(* ===== verification/SchedWitness.v ===== *)
(** Concrete schedules on which the scheduler theorems apply. *)
From S2P Require Import Prelude DynQueue Sched SchedProps SleepProps.

Definition rep_b {A} `{EqDecision A} (q : dynq A) (l : list A) (k : nat) : bool :=
  (nx q =? Z.of_nat k) && (en q =? Z.of_nat (length l)) && (k <=? length l)%nat &&
  bool_decide (take (length l) (cells q) = Some <$> l) && (qcapacity q <? cap_bound).
Lemma rep_check {A} `{EqDecision A} (q : dynq A) l k : rep_b q l k = true -> rep q l k.
Proof.
  unfold rep_b. rewrite !andb_true_iff, bool_decide_eq_true. intros [[[[H1 H2] H3] H4] H5].
  apply Z.eqb_eq in H1, H2. apply Nat.leb_le in H3. apply Z.ltb_lt in H5. split_and!; try done.
  exists (drop (length l) (cells q)). by rewrite <- H4, take_drop.
Qed.
#[export] Instance known_dec s k : Decision (known s k).
Proof. unfold known. apply _. Defined.
#[export] Instance independent_dec x y : Decision (independent x y).
Proof. unfold independent. case_match; apply _. Defined.

(** Three system tasks, registered after initialisation. *)
Definition new_task (pid prio : Z) : task_t := Task 10 10 false false prio 0 false pid 0 0 0 0 0 0 0 None.
Definition boot_state : sched :=
  Sched (list_to_map [(4096, new_task 1 PVSYS); (8192, new_task 2 PVSYS); (12288, new_task 3 PVSYS)]) ∅
        (replicate 5 dq_empty) (set_trim_stale dq_empty true) (Vec [] 0) 0 false false 4096 0 0 0 [].
Definition ta := KT 4096 0.
Definition tb := KT 8192 0.
Definition tc := KT 12288 0.
Definition started : outcome sched :=
  s ← init_queues boot_state; s ← register_task s ta; s ← register_task s tb; register_task s tc.
Definition choose (s : sched) : outcome sched := '(_, s1) ← select_next 8 s; Done s1.
Definition sleep_untimed (k : kthread_ptr) (s : sched) : outcome sched := '(_, s1) ← set_wait_untimed s k; Done s1.
Definition sleep_timed (k : kthread_ptr) (t : Z) (s : sched) : outcome sched :=
  '(_, s1) ← set_wait_timed (fun x => x) s k t true; Done s1.
Definition wake (k : kthread_ptr) (s : sched) : outcome sched := '(_, s1) ← interrupt_wait s k; Done s1.
Definition get_state (o : outcome sched) : sched := match o with Done s => s | _ => boot_state end.

(** After the first selection, with the second task blocked. *)
Definition one_blocked : sched := get_state (s ← started; s ← choose s; sleep_untimed tb s).
Definition one_blocked_lv (pv : Z) : list kthread_ptr * nat := if pv =? PVSYS then ([ta; tb; tc], 1%nat) else ([], 0%nat).

Lemma empty_level_ok fuel lv s pv q :
  level s pv q -> rep q [] 0 -> lv pv = ([], 0%nat) -> level_ok fuel lv s pv.
Proof. intros Hl Hr E. exists q. rewrite E. simpl. split_and!; try done; lia || constructor. Qed.

Lemma select_next_highest_witness :
  exists s' q', select_next 8 one_blocked = Done (tc, s') /\ level s' PVSYS q' /\ rep q' [ta; tb; tc] 3.
Proof.
  destruct (select_next_highest 8 one_blocked_lv one_blocked) as (k & s' & Hsel & Hc).
  - by vm_compute.
  - intros pv Hpv. assert (pv = 4 \/ pv < 4) as [->|Hlt] by lia.
    + eexists. split_and!; [by vm_compute|by apply rep_check; vm_compute|apply Nat.leb_le; by vm_compute| | | |].
      * apply (bool_decide_unpack _). by vm_compute.
      * change (one_blocked_lv 4).1 with [ta; tb; tc]. rewrite !Forall_cons.
        split_and!; [..|by apply Forall_nil]; (eexists; split; [by vm_compute|]; by vm_compute).
      * intros j k Hj Hk. vm_compute in Hj. injection Hj as <-. vm_compute in Hk. discriminate Hk.
      * intros _ H. vm_compute in H. discriminate H.
    + assert (pv = 0 \/ pv = 1 \/ pv = 2 \/ pv = 3) as [->|[->|[->| ->]]] by lia;
        (eapply empty_level_ok; [by vm_compute|by apply rep_check; vm_compute|done]).
  - destruct Hc as [[-> Hall]|(pv & j & q' & Hpv & Hup & Hpk & Hj & Hb & Hl & Hr)].
    + exfalso. specialize (Hall PVSYS ltac:(lia)). apply (Forall_lookup_1 _ _ 2 tc) in Hall; [|by vm_compute].
      vm_compute in Hall. discriminate Hall.
    + assert (pv = 4) as ->.
      { clear - Hj. unfold one_blocked_lv in Hj. destruct (Z.eqb_spec pv PVSYS) as [E|E]; [exact E|].
        exfalso. cbn [fst] in Hj. rewrite lookup_nil in Hj. discriminate Hj. }
      assert (Some j = Some 2%nat) as [= ->] by (etransitivity; [symmetry; exact Hpk|by vm_compute]).
      assert (Some k = Some tc) as [= ->] by (etransitivity; [symmetry; exact Hj|by vm_compute]). exists s', q'. split_and!; assumption.
Defined.

(** All three tasks of the level blocked before any of them ran. *)
Definition all_blocked : sched := get_state (s ← started; s ← sleep_untimed ta s; s ← sleep_untimed tb s; sleep_untimed tc s).
Definition all_blocked_lv (pv : Z) : list kthread_ptr * nat := if pv =? PVSYS then ([ta; tb; tc], 0%nat) else ([], 0%nat).

Lemma select_next_hangs_witness : select_next 1000 all_blocked = NoFuel.
Proof.
  apply (select_next_hangs all_blocked_lv all_blocked PVSYS); [lia|by vm_compute|lia| |done|done| |].
  - intros pv Hpv. assert (pv = 4) as -> by lia. eexists. split; [by vm_compute|by apply rep_check; vm_compute].
  - apply (bool_decide_unpack _). by vm_compute.
  - apply (bool_decide_unpack _). by vm_compute.
Defined.

(** The second task stays blocked while the first and third run twice, and is woken
    when they block: it has left the system level, and three selections later it is
    at the lowest one. *)
Definition drifted : sched :=
  get_state (s ← started; s ← choose s; s ← sleep_untimed tb s; s ← choose s; s ← choose s;
             s ← wake tb s; s ← sleep_untimed ta s; s ← sleep_untimed tc s;
             s ← choose s; s ← choose s; s ← choose s; s ← wake ta s; s ← wake tc s;
             '(_, s) ← unregister_task s (task_ptr ta); '(_, s) ← unregister_task s (task_ptr tc); Done s).

Lemma lowest_level_demotion_undefined_witness : select_next 8 drifted = Undef.
Proof.
  eapply (lowest_level_demotion_undefined 8 drifted _ [tb] 0 0 tb);
    [by vm_compute|by vm_compute| |by vm_compute|by apply rep_check; vm_compute|done
    |apply (bool_decide_unpack _); by vm_compute|simpl; lia|by vm_compute|by vm_compute|by vm_compute|by vm_compute].
  intros pv Hpv. assert (pv = 1 \/ pv = 2 \/ pv = 3 \/ pv = 4) as [->|[->|[->| ->]]] by lia;
    (eexists _, 0%nat; split; [by vm_compute|by apply rep_check; vm_compute]).
Defined.

Lemma timer_rate_witness :
  exists st', times_run 7 (Times 10 24 3) = Done (3, st') /\ counter st' = 1.
Proof. destruct (timer_rate 7 (Times 10 24 3)) as (st' & H1 & H2 & _); simpl; [lia..|]. exists st'. by split. Defined.

(** Two sleepers with the same wake-up time, and a third one later. *)
Definition sleeping : sched :=
  get_state (s ← started; s ← sleep_timed ta 1 s; s ← sleep_timed tb 1 s; sleep_timed tc 4 s).

Lemma tick_wakes_due_witness :
  exists s' l', sleepers_tick sleeping = Done s' /\ rep (sleepers s') l' 2 /\ drop 2 l' = [tc] /\
    blocking s' ta = false /\ blocking s' tb = false /\ blocking s' tc = true /\ due s' [tc] 0 = 3.
Proof.
  destruct (tick_wakes_due sleeping [ta; tb; tc] 0 ta [tb; tc]) as (s' & l' & m & Ht & Hr & Hd & Hi).
  - by apply rep_check; vm_compute.
  - done.
  - by vm_compute.
  - apply (bool_decide_unpack _). by vm_compute.
  - by repeat constructor.
  - apply (bool_decide_unpack _). by vm_compute.
  - apply (bool_decide_unpack _). by vm_compute.
  - by vm_compute.
  - destruct (Hi 1%nat tb eq_refl) as ((_ & H1) & Hb1 & _). destruct (Hi 2%nat tc eq_refl) as ((H2 & _) & _ & Hb2).
    destruct (Hi 0%nat ta eq_refl) as (_ & Hb0 & _).
    assert (m = 2%nat) as ->.
    { specialize (H1 ltac:(by vm_compute)). destruct (decide (2 < m)%nat) as [Hlt|]; [|lia].
      specialize (H2 Hlt). by vm_compute in H2. }
    destruct Hb2 as [Hb2 Hdue]; [lia|]. exists s', l'.
    split; [exact Ht|]. split; [exact Hr|]. split; [exact Hd|].
    split; [apply Hb0; lia|]. split; [apply Hb1; lia|]. split.
    + etransitivity; [exact Hb2|]. by vm_compute.
    + etransitivity; [exact Hdue|]. by vm_compute.
Defined.

(** The first task waits five ticks; the second asks for seven, or for two. *)
Definition first_asleep : sched := get_state (s ← started; sleep_timed ta 5 s).

Lemma timed_wait_last_witness :
  exists s' l' k', set_wait_time first_asleep tb 7 true = Done (true, s') /\
    rep (sleepers s') l' k' /\ drop k' l' = [ta; tb] /\ due s' [ta; tb] 1 = 7.
Proof.
  destruct (timed_wait_last first_asleep [ta] 0 tb 7 true) as (s' & l' & k' & H1 & H2 & H3 & _ & H4 & _).
  - by apply rep_check; vm_compute.
  - by vm_compute.
  - apply (bool_decide_unpack _). by vm_compute.
  - apply (bool_decide_unpack _). by vm_compute.
  - apply (bool_decide_unpack _). by vm_compute.
  - apply (bool_decide_unpack _). by vm_compute.
  - lia.
  - by vm_compute.
  - apply Z.leb_le. by vm_compute.
  - exists s', l', k'. split_and!; assumption.
Defined.

Lemma timed_wait_earlier_witness :
  exists b s', set_wait_time first_asleep tb 2 true = Done (b, s') /\ blocking s' tb = true /\ sleepers_tick s' = Done s'.
Proof.
  apply (timed_wait_earlier first_asleep [ta] 0 tb 2 true).
  - by apply rep_check; vm_compute.
  - by vm_compute.
  - apply (bool_decide_unpack _). by vm_compute.
  - apply (bool_decide_unpack _). by vm_compute.
  - apply (bool_decide_unpack _). by vm_compute.
  - apply (bool_decide_unpack _). by vm_compute.
  - lia.
  - by vm_compute.
  - done.
  - by vm_compute.
  - by vm_compute.
Defined.
