(* ===== verification/Net.v ===== *)
(** Packets and the protocol layers below the transports: big-endian fields
    (kernel_defs.h), the IPv4 header and its checksum (net/protocol/ipv4.hpp and
    ipv4.cpp), UDP (net/protocol/udp.cpp) and the dispatch of received frames
    (net_abstract.cpp).

    A packet is the list of its bytes, from the Ethernet header on: every header
    structure of the source inherits the one below it, so [this] is the start of
    the frame in all of them, and the fields sit at fixed offsets. *)
From S2P Require Import Prelude.

Abbreviation frame := (list Z).
Abbreviation ETH_LEN := 14%nat.
Abbreviation IP_LEN := 34%nat.
Abbreviation UDP_LEN := 42%nat.
Abbreviation TCP_LEN := 54%nat.
Abbreviation o_ethertype := 12%nat.
Abbreviation o_ihl := 14%nat.
Abbreviation o_total_length := 16%nat.
Abbreviation o_ttl := 22%nat.
Abbreviation o_protocol := 23%nat.
Abbreviation o_hdr_csum := 24%nat.
Abbreviation o_src_addr := 26%nat.
Abbreviation o_dst_addr := 30%nat.
Abbreviation o_src_port := 34%nat.
Abbreviation o_dst_port := 36%nat.
Abbreviation o_udp_length := 38%nat.
Abbreviation o_udp_csum := 40%nat.

Notation ENOMEM := 12.
Notation EPIPE := 32.
Notation EPROTO := 71.
Notation EPROTOTYPE := 107.
Notation EPROTONOSUPPORT := 123.
Notation ENOTCONN := 128.
Notation TCP := 6.
Notation UDP := 17.

(** ** Big-endian fields ([__s_be16], [__s_be32]) *)
Definition get8 (f : frame) (i : nat) : Z := default 0 (f !! i).
Definition get16 (f : frame) (i : nat) : Z := get8 f i * 256 + get8 f (i + 1).
Definition get32 (f : frame) (i : nat) : Z := get16 f i * 65536 + get16 f (i + 2).
Definition set8 (f : frame) (i : nat) (v : Z) : frame := <[i := u8 v]> f.
Definition set16 (f : frame) (i : nat) (v : Z) : frame := set8 (set8 f i (v / 256)) (i + 1) v.
Definition set32 (f : frame) (i : nat) (v : Z) : frame := set16 (set16 f i (v / 65536)) (i + 2) v.

(** ** Checksums *)

(** The sum of [n] 16-bit words from offset [off]; memory behind the frame is [mem]. *)
Definition byte_at (mem : nat -> Z) (f : frame) (i : nat) : Z :=
  match f !! i with Some b => b | None => mem (i - length f)%nat end.
Definition word_at (mem : nat -> Z) (f : frame) (i : nat) : Z := byte_at mem f i * 256 + byte_at mem f (i + 1).
Fixpoint sum_words (mem : nat -> Z) (f : frame) (off n : nat) : Z :=
  match n with O => 0 | S n => word_at mem f off + sum_words mem f (off + 2) n end.

(** [dword(x).hi + dword(x).lo], done twice. *)
Definition fold1 (x : Z) : Z := x / 65536 + x mod 65536.
Definition fold2 (x : Z) : Z := fold1 (fold1 x).
Definition csum_of (sum : Z) : Z := 65535 - u16 (fold2 (u32 sum)).
Definition csum_ok (sum : Z) : bool := 65535 - u16 (fold2 (u32 sum)) =? 0.
Definition no_mem : nat -> Z := fun _ => 0.

(** The IPv4 header: the ten words from the version byte on. *)
Definition compute_ipv4_csum (f : frame) : frame :=
  let f0 := set16 f o_hdr_csum 0 in set16 f0 o_hdr_csum (csum_of (sum_words no_mem f0 o_ihl 10)).
Definition verify_ipv4_csum (f : frame) : bool := csum_ok (sum_words no_mem f o_ihl 10).

(** The pseudo-header that UDP and TCP add. *)
Definition pseudo_sum (f : frame) (len : Z) : Z :=
  get16 f o_src_addr + get16 f (o_src_addr + 2) + get16 f o_dst_addr + get16 f (o_dst_addr + 2) + get8 f o_protocol + len.

(** UDP; for an odd length the last byte is taken relative to the start of the frame. *)
Definition udp_sum (mem : nat -> Z) (f : frame) : Z :=
  let len := get16 f o_udp_length in
  pseudo_sum f len
  + (if negb (len mod 2 =? 0) then byte_at mem f (Z.to_nat (len - 1)) else 0)
  + sum_words mem f o_src_port (Z.to_nat (len / 2)).
Definition compute_udp_csum (mem : nat -> Z) (f : frame) : frame :=
  let f0 := set16 f o_udp_csum 0 in set16 f0 o_udp_csum (csum_of (udp_sum mem f0)).
Definition verify_udp_csum (mem : nat -> Z) (f : frame) : bool := csum_ok (udp_sum mem f).

(** ** The protocol layers *)
Record ipv4_config := IPConfig {
  primary_gateway : Z; leased_addr : Z; time_to_live_default : Z; time_to_live_tcp_default : Z }.

(** [protocol_ipv4::transmit] up to the call of the layer below. *)
Definition ipv4_prepare (cfg : ipv4_config) (f : frame) : frame :=
  let f1 := set8 f o_ttl (if get16 f o_ethertype =? TCP then time_to_live_tcp_default cfg else time_to_live_default cfg) in
  let f2 := set16 f1 o_total_length (Z.of_nat (length f) - Z.of_nat ETH_LEN) in
  compute_ipv4_csum f2.

Section layers.
(** What the layer below does with a frame, and the handlers registered with each layer. *)
Context (lower_transmit : frame -> Z) (cfg : ipv4_config) (mem : nat -> Z).

Definition ipv4_transmit (f : frame) : Z * frame := let f1 := ipv4_prepare cfg f in (lower_transmit f1, f1).
Definition ipv4_receive (transports : Z -> option (frame -> Z)) (f : frame) : outcome Z :=
  if (length f <? IP_LEN)%nat then Undef else
  if negb (get8 f o_ihl mod 16 =? 5) then Done (- EPROTOTYPE) else
  if negb (verify_ipv4_csum f) then Done (- EPROTO) else
  match transports (get8 f o_protocol) with Some h => Done (h f) | None => Done (- EPROTONOSUPPORT) end.
Definition udp_transmit (f : frame) : Z * frame :=
  let f1 := set16 f o_udp_length (Z.of_nat (length f) - Z.of_nat IP_LEN) in
  ipv4_transmit (compute_udp_csum mem f1).
Definition udp_receive (ports : Z -> option (frame -> Z)) (f : frame) : outcome Z :=
  if (length f <? UDP_LEN)%nat then Undef else
  if negb (verify_udp_csum mem f) then Done (- EPROTO) else
  match ports (get16 f o_dst_port) with Some h => Done (h f) | None => Done (- EPIPE) end.
Definition ethernet_receive (handlers : Z -> option (frame -> Z)) (f : frame) : outcome Z :=
  if (length f <? ETH_LEN)%nat then Undef else
  match handlers (get16 f o_ethertype) with Some h => Done (h f) | None => Done (- EPROTONOSUPPORT) end.
End layers.

(** ** Field lemmas *)
Definition bytes (f : frame) : Prop := Forall (fun b => 0 <= b < 256) f.

Lemma length_set8 f i v : length (set8 f i v) = length f.
Proof. apply length_insert. Qed.
Lemma length_set16 f i v : length (set16 f i v) = length f.
Proof. unfold set16. by rewrite !length_set8. Qed.
Lemma length_set32 f i v : length (set32 f i v) = length f.
Proof. unfold set32. by rewrite !length_set16. Qed.
Lemma set8_bytes f i v : bytes f -> bytes (set8 f i v).
Proof. intros H. apply Forall_insert; [done|]. by apply wrap_range. Qed.
Lemma set16_bytes f i v : bytes f -> bytes (set16 f i v).
Proof. intros. by do 2 apply set8_bytes. Qed.
Lemma set32_bytes f i v : bytes f -> bytes (set32 f i v).
Proof. intros. by do 2 apply set16_bytes. Qed.
Lemma get8_range f i : bytes f -> 0 <= get8 f i < 256.
Proof.
  intros H. unfold get8. destruct (f !! i) as [b|] eqn:E; simpl; [|lia].
  unfold bytes in H. rewrite Forall_lookup in H. by eapply H.
Qed.
Lemma get8_set8_ne f i j v : i <> j -> get8 (set8 f i v) j = get8 f j.
Proof. intros. unfold get8, set8. by rewrite list_lookup_insert_ne. Qed.
Lemma get8_set8_eq f i v : (i < length f)%nat -> get8 (set8 f i v) i = u8 v.
Proof. intros. unfold get8, set8. by rewrite list_lookup_insert_eq. Qed.
Lemma get8_set16_ne f i j v : (j < i \/ i + 1 < j)%nat -> get8 (set16 f i v) j = get8 f j.
Proof. intros. unfold set16. rewrite !get8_set8_ne by lia. done. Qed.
Lemma get16_set16_eq f i v : (i + 1 < length f)%nat -> 0 <= v < 65536 -> get16 (set16 f i v) i = v.
Proof.
  intros Hl Hv. unfold get16, set16. rewrite get8_set8_ne, !get8_set8_eq by (rewrite ?length_set8; lia).
  unfold wrap. change (2 ^ 8) with 256. rewrite (Z.mod_small (v / 256)) by (split; [apply Z.div_pos|apply Z.div_lt_upper_bound]; lia).
  rewrite Z.mul_comm, <- Z.div_mod; lia.
Qed.
Lemma get16_set16_ne f i j v : (j + 1 < i \/ i + 1 < j)%nat -> get16 (set16 f i v) j = get16 f j.
Proof. intros. unfold get16. rewrite !get8_set16_ne by lia. done. Qed.

(** ** Checksum lemmas *)
Lemma fold1_spec x : 0 <= x -> 0 <= fold1 x /\ (exists k, x = fold1 x + k * 65535) /\ (0 < x -> 0 < fold1 x).
Proof.
  intros Hx. unfold fold1. pose proof (Z.div_mod x 65536 ltac:(lia)). pose proof (Z.mod_pos_bound x 65536 ltac:(lia)).
  pose proof (Z.div_pos x 65536 Hx ltac:(lia)). split_and!; [lia| |].
  - exists (x / 65536). lia.
  - intros. destruct (Z.eq_dec (x / 65536) 0); lia.
Qed.
Lemma fold1_bound x b : 0 <= x <= b -> fold1 x <= b / 65536 + 65535.
Proof.
  intros. unfold fold1. pose proof (Z.mod_pos_bound x 65536 ltac:(lia)).
  pose proof (Z.div_le_mono x b 65536 ltac:(lia) ltac:(lia)). lia.
Qed.
Lemma fold2_spec x : 0 <= x < 2 ^ 32 ->
  0 <= fold2 x <= 65535 /\ (exists k, x = fold2 x + k * 65535) /\ (0 < x -> 0 < fold2 x).
Proof.
  intros Hx. unfold fold2. destruct (fold1_spec x ltac:(lia)) as (H1 & [k Hk] & H2).
  destruct (fold1_spec (fold1 x) H1) as (H3 & [k' Hk'] & H4).
  pose proof (fold1_bound x (2 ^ 32 - 1) ltac:(lia)) as Hb. change ((2 ^ 32 - 1) / 65536 + 65535) with 131070 in Hb.
  split_and!; [done| |exists (k' + k); lia|auto].
  unfold fold1 at 1. set (y := fold1 x) in *. pose proof (Z.div_mod y 65536 ltac:(lia)).
  pose proof (Z.mod_pos_bound y 65536 ltac:(lia)). assert (y / 65536 < 2) by (apply Z.div_lt_upper_bound; lia).
  destruct (Z.eq_dec (y / 65536) 1); lia.
Qed.

(** A sum with the checksum of the rest added folds to all ones. *)
Lemma csum_roundtrip s : 0 <= s < 2 ^ 32 - 65536 -> csum_ok (s + csum_of s) = true.
Proof.
  intros Hs. unfold csum_ok, csum_of. rewrite (wrap_small 32 s) by (split; lia).
  destruct (fold2_spec s ltac:(lia)) as (Hb & [k Hk] & Hp). rewrite (wrap_small 16 (fold2 s)) by (split; lia).
  set (c := 65535 - fold2 s). rewrite (wrap_small 32 (s + c)) by (split; unfold c; lia).
  destruct (fold2_spec (s + c) ltac:(unfold c; lia)) as (Hb' & [k' Hk'] & Hp'). rewrite wrap_small by (split; lia).
  apply Z.eqb_eq. assert (Hsc : s + c = (k + 1) * 65535) by (unfold c; lia).
  assert (0 < s + c). { unfold c. destruct (Z.eq_dec s 0) as [->|]; [vm_compute; done|]. lia. }
  specialize (Hp' ltac:(lia)). rewrite Hsc in Hk'. assert (fold2 (s + c) = 65535 * (k + 1 - k')) as E by (rewrite Hsc; lia). nia.
Qed.
Lemma csum_of_range s : 0 <= csum_of s < 65536.
Proof. unfold csum_of. pose proof (wrap_range 16 (fold2 (u32 s)) ltac:(lia)) as [H1 H2]. change (2 ^ 16) with 65536 in H2. lia. Qed.

Lemma byte_at_in mem f i : (i < length f)%nat -> byte_at mem f i = get8 f i.
Proof. intros Hi. unfold byte_at, get8. destruct (lookup_lt_is_Some_2 f i Hi) as [b ->]. done. Qed.
Lemma word_at_in mem f i : (i + 1 < length f)%nat -> word_at mem f i = get16 f i.
Proof. intros Hi. unfold word_at, get16. by rewrite !byte_at_in by lia. Qed.

Lemma sum_words_set_other mem f i v n : forall off,
  (off + 2 * n <= i \/ i + 2 <= off)%nat -> (off + 2 * n <= length f)%nat ->
  sum_words mem (set16 f i v) off n = sum_words mem f off n.
Proof.
  induction n as [|n IH]; intros off Ho Hl; [done|]. cbn [sum_words].
  rewrite !word_at_in, get16_set16_ne, IH by (rewrite ?length_set16; lia). done.
Qed.
Lemma sum_words_set8_other mem f i v n : forall off,
  (off + 2 * n <= i \/ i < off)%nat -> (off + 2 * n <= length f)%nat ->
  sum_words mem (set8 f i v) off n = sum_words mem f off n.
Proof.
  induction n as [|n IH]; intros off Ho Hl; [done|]. cbn [sum_words].
  rewrite !word_at_in, IH by (rewrite ?length_set8; lia). unfold get16. by rewrite !get8_set8_ne by lia.
Qed.
Lemma sum_words_set mem f k v n : forall off,
  (k < n)%nat -> (off + 2 * n <= length f)%nat -> 0 <= v < 65536 ->
  sum_words mem (set16 f (off + 2 * k) v) off n = sum_words mem f off n - get16 f (off + 2 * k) + v.
Proof.
  revert k. induction n as [|n IH]; intros k off Hk Hl Hv; [lia|]. cbn [sum_words].
  rewrite !word_at_in by (rewrite ?length_set16; lia). destruct k as [|k].
  - rewrite Nat.mul_0_r, Nat.add_0_r, get16_set16_eq, sum_words_set_other by lia. lia.
  - rewrite get16_set16_ne by lia. replace (off + 2 * S k)%nat with ((off + 2) + 2 * k)%nat by lia.
    rewrite IH by lia. lia.
Qed.
Lemma sum_words_range mem f n : bytes f -> (forall i, 0 <= mem i < 256) -> forall off,
  0 <= sum_words mem f off n <= Z.of_nat n * 65535.
Proof.
  intros Hf Hm. induction n as [|n IH]; intros off; cbn [sum_words]; [lia|]. specialize (IH (off + 2)%nat).
  assert (forall i, 0 <= byte_at mem f i < 256).
  { intros i. unfold byte_at. destruct (f !! i) eqn:E; [|auto]. unfold bytes in Hf. rewrite Forall_lookup in Hf. by eapply Hf. }
  unfold word_at. pose proof (H off). pose proof (H (off + 1)%nat). lia.
Qed.

Lemma verify_computed_ipv4 f : bytes f -> (IP_LEN <= length f)%nat -> verify_ipv4_csum (compute_ipv4_csum f) = true.
Proof.
  intros Hb Hl. unfold verify_ipv4_csum, compute_ipv4_csum. set (f0 := set16 f o_hdr_csum 0).
  assert (H0 : bytes f0 /\ length f0 = length f) by (split; [by apply set16_bytes|apply length_set16]). destruct H0 as [Hb0 Hl0].
  change o_hdr_csum with (14 + 2 * 5)%nat. rewrite sum_words_set by (try apply csum_of_range; lia).
  assert (get16 f0 (14 + 2 * 5) = 0) as -> by (apply get16_set16_eq; lia).
  rewrite Z.sub_0_r. apply csum_roundtrip. pose proof (sum_words_range no_mem f0 10 Hb0 (fun _ => conj (Z.le_refl 0) eq_refl) 14). lia.
Qed.

Lemma get16_range f i : bytes f -> 0 <= get16 f i < 65536.
Proof. intros Hb. unfold get16. pose proof (get8_range f i Hb). pose proof (get8_range f (i + 1) Hb). lia. Qed.
Lemma pseudo_sum_range f len : bytes f -> 0 <= len < 65536 -> 0 <= pseudo_sum f len < 6 * 65536.
Proof.
  intros Hb Hl. unfold pseudo_sum. pose proof (get8_range f o_protocol Hb).
  pose proof (get16_range f o_src_addr Hb). pose proof (get16_range f (o_src_addr + 2) Hb).
  pose proof (get16_range f o_dst_addr Hb). pose proof (get16_range f (o_dst_addr + 2) Hb). lia.
Qed.

Lemma verify_computed_udp mem f :
  bytes f -> (UDP_LEN <= length f)%nat -> get16 f o_udp_length mod 2 = 0 ->
  8 <= get16 f o_udp_length -> 34 + get16 f o_udp_length <= Z.of_nat (length f) ->
  verify_udp_csum mem (compute_udp_csum mem f) = true.
Proof.
  intros Hb Hl Hev Hmin Hfit. unfold verify_udp_csum, compute_udp_csum. set (f0 := set16 f o_udp_csum 0).
  assert (Hb0 : bytes f0) by (by apply set16_bytes). assert (Hl0 : length f0 = length f) by apply length_set16.
  assert (Hlen0 : get16 f0 o_udp_length = get16 f o_udp_length) by (apply get16_set16_ne; lia).
  set (len := get16 f o_udp_length) in *. pose proof (get16_range f o_udp_length Hb) as Hr. fold len in Hr.
  assert (Hc : 0 <= csum_of (udp_sum mem f0) < 65536) by apply csum_of_range. set (c := csum_of (udp_sum mem f0)) in *.
  assert (Hn : (2 * Z.to_nat (len / 2) = Z.to_nat len)%nat).
  { pose proof (Z.div_mod len 2 ltac:(lia)). lia. }
  assert (Hsum : udp_sum mem (set16 f0 o_udp_csum c) = udp_sum mem f0 + c).
  { unfold udp_sum, pseudo_sum. rewrite !get16_set16_ne, get8_set16_ne, Hlen0 by lia.
    rewrite Hev, Z.eqb_refl. cbn [negb]. change o_udp_csum with (34 + 2 * 3)%nat. rewrite sum_words_set by lia.
    assert (get16 f0 (34 + 2 * 3) = 0) as -> by (apply get16_set16_eq; lia). lia. }
  rewrite Hsum. apply csum_roundtrip. unfold udp_sum. rewrite Hlen0, Hev. cbn [Z.eqb negb].
  pose proof (pseudo_sum_range f0 len Hb0 ltac:(lia)).
  assert (Hw : sum_words mem f0 o_src_port (Z.to_nat (len / 2)) = sum_words no_mem f0 o_src_port (Z.to_nat (len / 2))).
  { assert (Hgen : forall n off, (off + 2 * n <= length f0)%nat -> sum_words mem f0 off n = sum_words no_mem f0 off n).
    { induction n as [|n IH]; intros off Ho; [done|]. cbn [sum_words]. rewrite !word_at_in, IH by lia. done. }
    apply Hgen. lia. }
  rewrite Hw. pose proof (sum_words_range no_mem f0 (Z.to_nat (len / 2)) Hb0 (fun _ => conj (Z.le_refl 0) eq_refl) o_src_port).
  assert (Z.of_nat (Z.to_nat (len / 2)) <= 32768). { pose proof (Z.div_mod len 2 ltac:(lia)). lia. } lia.
Qed.

(** ** The reference checksum

    RFC 1071: words are added in ones' complement, a carry out of the top going
    back in at the bottom, and the checksum is the complement of the sum. *)
Definition onec_add (a b : Z) : Z := let s := a + b in if s <? 65536 then s else s - 65535.
Definition header_words (f : frame) : list Z := (fun i => get16 f (o_ihl + 2 * i)) <$> seq 0 10.
Definition rfc1071 (ws : list Z) : Z := 65535 - fold_left onec_add ws 0.

(** Ones' complement addition: the representative of the sum in [0, 65535] that is zero only for zero. *)
Definition same_sum (x y : Z) : Prop := (exists k, x = y + k * 65535) /\ 0 <= y <= 65535 /\ (0 < x <-> 0 < y) /\ 0 <= x.
Lemma same_sum_add x y w : same_sum x y -> 0 <= w < 65536 -> same_sum (x + w) (onec_add y w).
Proof.
  intros ([k Hk] & Hy & Hp & Hx) Hw. unfold onec_add. destruct (Z.ltb_spec (y + w) 65536).
  - split_and!; [exists k; lia|lia..].
  - split_and!; [exists (k + 1); lia|lia..].
Qed.
Lemma same_sum_fold ws : forall x y, same_sum x y -> Forall (fun w => 0 <= w < 65536) ws ->
  same_sum (x + fold_right Z.add 0 ws) (fold_left onec_add ws y).
Proof.
  induction ws as [|w ws IH]; intros x y Hs Hw; cbn [fold_left fold_right]; [by rewrite Z.add_0_r|].
  apply Forall_cons in Hw as [Hw Hws]. rewrite Z.add_assoc. apply IH; [|done]. by apply same_sum_add.
Qed.
(** The two representatives of a sum agree. *)
Lemma same_sum_unique x y y' : same_sum x y -> same_sum x y' -> y = y'.
Proof.
  intros ([k Hk] & Hy & Hp & Hx) ([k' Hk'] & Hy' & Hp' & _).
  nia.
Qed.
Lemma fold2_same_sum x : 0 <= x < 2 ^ 32 -> same_sum x (fold2 x).
Proof. intros Hx. destruct (fold2_spec x Hx) as (H1 & H2 & H3). split_and!; [done|lia..| |lia].
  split; [done|]. intros. destruct (Z.eq_dec x 0) as [->|]; [done|lia].
Qed.
Lemma sum_words_header mem f n : forall off, (off + 2 * n <= length f)%nat ->
  sum_words mem f off n = fold_right Z.add 0 ((fun i => get16 f (off + 2 * i)) <$> seq 0 n).
Proof.
  induction n as [|n IH]; intros off Hl; [done|]. cbn [sum_words seq fmap list_fmap fold_right].
  rewrite word_at_in, IH by lia. f_equal; [f_equal; lia|]. f_equal. rewrite <- (fmap_S_seq 0 n), <- list_fmap_compose.
  apply list_fmap_ext. intros i x _. cbn. f_equal. lia.
Qed.

(** C8: the IPv4 header checksum is the RFC 1071 checksum.  The field that
    [compute_ipv4_csum] fills in (a 32-bit sum folded twice) is the ones' complement
    of the ones' complement sum of the ten header words with the field itself taken
    as zero, and no other byte of the packet changes. *)
Theorem ipv4_checksum_is_rfc1071 f :
  bytes f -> (IP_LEN <= length f)%nat ->
  get16 (compute_ipv4_csum f) o_hdr_csum = rfc1071 (header_words (set16 f o_hdr_csum 0)) /\
  forall j, (j < o_hdr_csum \/ o_hdr_csum + 1 < j)%nat -> get8 (compute_ipv4_csum f) j = get8 f j.
Proof.
  intros Hb Hl. unfold compute_ipv4_csum. set (f0 := set16 f o_hdr_csum 0).
  assert (Hb0 : bytes f0) by (by apply set16_bytes). assert (Hl0 : length f0 = length f) by apply length_set16.
  split; [|intros j Hj; unfold f0; by rewrite !get8_set16_ne by lia].
  rewrite get16_set16_eq by (try apply csum_of_range; lia).
  pose proof (sum_words_range no_mem f0 10 Hb0 (fun _ => conj (Z.le_refl 0) eq_refl) o_ihl) as Hr.
  unfold csum_of, rfc1071. rewrite (wrap_small 32) by (split; lia). set (x := sum_words no_mem f0 o_ihl 10) in *.
  destruct (fold2_spec x ltac:(lia)) as (Hf & _). rewrite wrap_small by (split; lia). f_equal.
  apply (same_sum_unique x); [apply fold2_same_sum; lia|].
  assert (x = 0 + fold_right Z.add 0 (header_words f0)) as -> by (unfold x, header_words; rewrite sum_words_header by lia; done).
  apply same_sum_fold; [split_and!; [by exists 0|lia..]|]. apply Forall_fmap, Forall_true. intros i. by apply get16_range.
Qed.

(** ** A datagram through the transmit path *)

(** The UDP sum does not depend on the fields that the IPv4 layer fills in, save
    for the byte an odd length picks out of the frame. *)
Definition odd_byte (mem : nat -> Z) (f : frame) : Z :=
  let len := get16 f o_udp_length in
  if negb (len mod 2 =? 0) then byte_at mem f (Z.to_nat (len - 1)) else 0.
Definition udp_fixed (mem : nat -> Z) (f : frame) : Z :=
  let len := get16 f o_udp_length in pseudo_sum f len + sum_words mem f o_src_port (Z.to_nat (len / 2)).
Lemma udp_sum_split mem f : udp_sum mem f = udp_fixed mem f + odd_byte mem f.
Proof. unfold udp_sum, udp_fixed, odd_byte. lia. Qed.

Lemma verify_udp_even mem f : get16 f o_udp_length mod 2 = 0 -> verify_udp_csum mem f = csum_ok (udp_fixed mem f).
Proof. intros He. unfold verify_udp_csum. rewrite udp_sum_split. unfold odd_byte. rewrite He, Z.eqb_refl. cbn [negb]. by rewrite Z.add_0_r. Qed.

Lemma pseudo_sum_ext f f' len :
  (forall j, (23 <= j)%nat -> (j < 24 \/ 26 <= j)%nat -> get8 f' j = get8 f j) -> pseudo_sum f' len = pseudo_sum f len.
Proof. intros Hg. unfold pseudo_sum, get16. by rewrite !Hg by lia. Qed.
Lemma sum_words_ext mem f f' n : forall off,
  (off + 2 * n <= length f)%nat -> length f' = length f ->
  (forall j, (off <= j)%nat -> get8 f' j = get8 f j) -> sum_words mem f' off n = sum_words mem f off n.
Proof.
  induction n as [|n IH]; intros off Hl Hl' Hg; [done|]. cbn [sum_words]. rewrite !word_at_in, IH by (lia || (intros; apply Hg; lia)).
  unfold get16. by rewrite !Hg by lia.
Qed.
Lemma udp_fixed_ext mem f f' :
  length f' = length f -> (34 + Z.to_nat (get16 f o_udp_length) <= length f)%nat ->
  (forall j, (23 <= j)%nat -> (j < 24 \/ 26 <= j)%nat -> get8 f' j = get8 f j) ->
  udp_fixed mem f' = udp_fixed mem f.
Proof.
  intros Hl Hfit Hg. unfold udp_fixed. assert (get16 f' o_udp_length = get16 f o_udp_length) as -> by (unfold get16; rewrite !Hg by lia; done).
  rewrite (pseudo_sum_ext f f') by done. f_equal.
  assert (2 * Z.to_nat (get16 f o_udp_length / 2) <= Z.to_nat (get16 f o_udp_length))%nat.
  { destruct (Z.le_gt_cases 0 (get16 f o_udp_length)).
    - pose proof (Z.div_mod (get16 f o_udp_length) 2 ltac:(lia)). pose proof (Z.mod_pos_bound (get16 f o_udp_length) 2 ltac:(lia)).
      pose proof (Z.div_pos (get16 f o_udp_length) 2 ltac:(lia) ltac:(lia)). lia.
    - assert (get16 f o_udp_length / 2 < 0) by (apply Z.div_lt_upper_bound; lia). lia. }
  apply sum_words_ext; [lia|done|]. intros j Hj. apply Hg; lia.
Qed.

Lemma ipv4_prepare_length cfg f : length (ipv4_prepare cfg f) = length f.
Proof. unfold ipv4_prepare, compute_ipv4_csum. by rewrite !length_set16, length_set8. Qed.
Lemma ipv4_prepare_bytes cfg f : bytes f -> bytes (ipv4_prepare cfg f).
Proof. intros. unfold ipv4_prepare, compute_ipv4_csum. by do 3 apply set16_bytes; apply set8_bytes. Qed.
Lemma ipv4_prepare_keeps cfg f j :
  (j < 16 \/ j = 23 \/ 26 <= j)%nat -> get8 (ipv4_prepare cfg f) j = get8 f j.
Proof. intros Hj. unfold ipv4_prepare, compute_ipv4_csum. rewrite !get8_set16_ne, get8_set8_ne by lia. done. Qed.
Lemma ipv4_prepare_verifies cfg f : bytes f -> (IP_LEN <= length f)%nat -> verify_ipv4_csum (ipv4_prepare cfg f) = true.
Proof.
  intros. apply verify_computed_ipv4; [apply set16_bytes, set8_bytes; done|by rewrite length_set16, length_set8].
Qed.

Section datagram.
Context (lower : frame -> Z) (cfg : ipv4_config) (mem : nat -> Z) (f : frame).
Context (Hbytes : bytes f) (Hlen : 42 <= Z.of_nat (length f) < 65536).
Context (Hihl : get8 f o_ihl mod 16 = 5) (Hproto : get8 f o_protocol = UDP).
Context (transports ports : Z -> option (frame -> Z)) (th ph : frame -> Z).
Context (Hth : transports UDP = Some th) (Hph : ports (get16 f o_dst_port) = Some ph).

Definition filled : frame := set16 f o_udp_length (Z.of_nat (length f) - Z.of_nat IP_LEN).
Definition summed : frame := compute_udp_csum mem filled.
Definition sent : frame := snd (udp_transmit lower cfg mem f).

Lemma filled_facts : bytes filled /\ length filled = length f /\ get16 filled o_udp_length = Z.of_nat (length f) - 34.
Proof using Hbytes Hlen. unfold filled. split_and!; [by apply set16_bytes|apply length_set16|apply get16_set16_eq; lia]. Qed.
Lemma summed_facts :
  bytes summed /\ length summed = length f /\
  (forall j, (j < 38 \/ 42 <= j)%nat -> get8 summed j = get8 f j) /\ get16 summed o_udp_length = Z.of_nat (length f) - 34.
Proof using Hbytes Hlen.
  destruct filled_facts as (H1 & H2 & H3). unfold summed, compute_udp_csum. split_and!.
  - by do 2 apply set16_bytes.
  - by rewrite !length_set16.
  - intros j Hj. unfold filled. by rewrite !get8_set16_ne by lia.
  - by rewrite !get16_set16_ne by lia.
Qed.
Lemma sent_facts :
  bytes sent /\ length sent = length f /\ verify_ipv4_csum sent = true /\
  (forall j, (j < 16 \/ j = 23 \/ 26 <= j)%nat -> get8 sent j = get8 summed j).
Proof using Hbytes Hlen.
  destruct summed_facts as (H1 & H2 & _). change sent with (ipv4_prepare cfg summed). split_and!.
  - by apply ipv4_prepare_bytes.
  - by rewrite ipv4_prepare_length.
  - apply ipv4_prepare_verifies; [done|lia].
  - apply ipv4_prepare_keeps.
Qed.

Lemma sent_udp_length : get16 sent o_udp_length = Z.of_nat (length f) - 34.
Proof using Hbytes Hlen.
  destruct summed_facts as (_ & _ & _ & <-). destruct sent_facts as (_ & _ & _ & Hk). unfold get16. by rewrite !Hk by lia.
Qed.
Lemma sent_fixed : udp_fixed mem sent = udp_fixed mem summed.
Proof using Hbytes Hlen.
  destruct summed_facts as (_ & H2 & _ & H4). destruct sent_facts as (_ & H5 & _ & Hk).
  apply udp_fixed_ext; [lia|rewrite H4; lia|]. intros j H6 H7. apply Hk. lia.
Qed.
Lemma sent_dispatch :
  ipv4_receive transports sent = Done (th sent) /\
  udp_receive mem ports sent = (if verify_udp_csum mem sent then Done (ph sent) else Done (- EPROTO)).
Proof using Hbytes Hlen Hihl Hproto Hth Hph.
  destruct sent_facts as (H1 & H2 & H3 & Hk). destruct summed_facts as (_ & _ & Hs & _). unfold ipv4_receive, udp_receive.
  destruct (Nat.ltb_spec (length sent) 34); [lia|]. destruct (Nat.ltb_spec (length sent) 42); [lia|].
  rewrite (Hk o_ihl), (Hs o_ihl), Hihl, (Hk o_protocol), (Hs o_protocol), Hproto, H3, Hth by lia.
  rewrite Z.eqb_refl. cbn [negb]. split; [done|].
  assert (get16 sent o_dst_port = get16 f o_dst_port) as -> by (unfold get16; rewrite !Hk, !Hs by lia; done).
  rewrite Hph. by destruct (verify_udp_csum mem sent).
Qed.

(** C23: a datagram of even length survives its own transmit path.  The frame that
    [protocol_udp::transmit] and [protocol_ipv4::transmit] hand to the device is
    accepted by the IPv4 layer, dispatched to the UDP handler, and accepted and
    dispatched by UDP to the handler of the destination port. *)
Theorem udp_even_roundtrip :
  Z.of_nat (length f) mod 2 = 0 ->
  ipv4_receive transports sent = Done (th sent) /\ udp_receive mem ports sent = Done (ph sent).
Proof using Hbytes Hlen Hihl Hproto Hth Hph.
  intros Hev. destruct sent_dispatch as [Hip ->]. split; [done|].
  assert (Hodd : (Z.of_nat (length f) - 34) mod 2 = 0).
  { rewrite Zminus_mod, Hev. done. }
  destruct filled_facts as (H1 & H2 & H3).
  assert (Hv : verify_udp_csum mem summed = true).
  { apply verify_computed_udp; rewrite ?H2, ?H3; try done; lia. }
  destruct summed_facts as (_ & _ & _ & H4).
  assert (verify_udp_csum mem sent = true) as ->; [|reflexivity].
  rewrite verify_udp_even by (rewrite sent_udp_length; exact Hodd). rewrite sent_fixed.
  rewrite verify_udp_even in Hv by (rewrite H4; exact Hodd). exact Hv.
Qed.

(** A datagram of 23 bytes is rejected by its own receive path.  For an odd
    length the checksum includes the byte at that offset from the start of the
    frame, which for this length is the time-to-live field: the IPv4 layer sets it
    after UDP has summed it as zero. *)
Theorem udp_length_23_rejected :
  length f = 57%nat -> get8 f o_ttl = 0 -> get16 f o_ethertype = 2048 -> 0 < time_to_live_default cfg < 256 ->
  udp_receive mem ports sent = Done (- EPROTO).
Proof using Hbytes Hlen Hihl Hproto Hth Hph.
  intros Hl Httl Het Hdef. destruct sent_dispatch as [_ ->].
  destruct filled_facts as (H1 & H2 & H3). destruct summed_facts as (Hbs & H4 & H5 & H6). destruct sent_facts as (Hbb & H7 & _ & H8).
  pose proof sent_udp_length as H9. pose proof sent_fixed as Hfx. rewrite Hl in H2, H3, H4, H6, H7, H9.
  change (Z.of_nat 57 - 34) with 23 in H3, H6, H9.
  assert (Hs22 : get8 sent 22 = time_to_live_default cfg).
  { change sent with (ipv4_prepare cfg summed). unfold ipv4_prepare, compute_ipv4_csum.
    rewrite !get8_set16_ne, get8_set8_eq by lia.
    assert (get16 summed o_ethertype = 2048) as -> by (unfold get16; rewrite !H5 by lia; exact Het).
    cbn [Z.eqb]. apply wrap_small. split; lia. }
  set (f0 := set16 filled o_udp_csum 0).
  assert (Hf0 : bytes f0 /\ length f0 = 57%nat /\ get16 f0 o_udp_length = 23 /\ get8 f0 22 = 0).
  { split_and!; [by apply set16_bytes|by unfold f0; rewrite length_set16|unfold f0; by rewrite get16_set16_ne by lia|].
    unfold f0, filled. rewrite !get8_set16_ne by lia. done. }
  destruct Hf0 as (Hb0 & Hl0 & Hu0 & Ht0). set (c := csum_of (udp_sum mem f0)).
  assert (Hsum0 : udp_sum mem f0 = udp_fixed mem f0).
  { rewrite udp_sum_split. unfold odd_byte. rewrite Hu0. cbn [Z.eqb negb Z.modulo Z.div_eucl Z.pos_div_eucl].
    change (Z.to_nat (23 - 1)) with 22%nat. rewrite byte_at_in, Ht0 by lia. simpl. lia. }
  assert (Hfix : udp_fixed mem summed = udp_fixed mem f0 + c).
  { change summed with (set16 f0 o_udp_csum c). unfold udp_fixed. rewrite get16_set16_ne, Hu0 by lia.
    assert (pseudo_sum (set16 f0 o_udp_csum c) 23 = pseudo_sum f0 23) as ->
      by (unfold pseudo_sum; rewrite !get16_set16_ne, get8_set16_ne by lia; done).
    change (Z.to_nat (23 / 2)) with 11%nat. change o_udp_csum with (34 + 2 * 3)%nat.
    rewrite sum_words_set by (try apply csum_of_range; lia).
    assert (get16 f0 (34 + 2 * 3) = 0) as -> by (apply get16_set16_eq; lia). lia. }
  assert (Hsent : udp_sum mem sent = udp_fixed mem f0 + c + time_to_live_default cfg).
  { rewrite udp_sum_split, Hfx, Hfix. unfold odd_byte. rewrite H9. change (negb (23 mod 2 =? 0)) with true. cbv iota.
    change (Z.to_nat (23 - 1)) with 22%nat. rewrite byte_at_in, Hs22 by lia. done. }
  assert (Hrange : 0 <= udp_fixed mem f0 < 2 ^ 24).
  { unfold udp_fixed. rewrite Hu0. pose proof (pseudo_sum_range f0 23 Hb0 ltac:(lia)).
    change (Z.to_nat (23 / 2)) with 11%nat.
    assert (sum_words mem f0 34 11 = sum_words no_mem f0 34 11) as -> by (cbn [sum_words]; rewrite !word_at_in by lia; done).
    pose proof (sum_words_range no_mem f0 11 Hb0 (fun _ => conj (Z.le_refl 0) eq_refl) 34). lia. }
  assert (verify_udp_csum mem sent = false) as ->; [|done]. unfold verify_udp_csum. rewrite Hsent.
  unfold c. rewrite Hsum0. set (s := udp_fixed mem f0) in *. set (d := time_to_live_default cfg) in *. clearbody s d.
  unfold csum_ok, csum_of. rewrite (wrap_small 32 s) by (split; lia).
  destruct (fold2_spec s ltac:(lia)) as (Hq & [k Hk] & _). rewrite (wrap_small 16 (fold2 s)) by (split; lia).
  rewrite (wrap_small 32) by (split; lia). set (x := s + (65535 - fold2 s) + d).
  destruct (fold2_spec x ltac:(unfold x; lia)) as (Hq' & [k' Hk'] & _). rewrite (wrap_small 16 (fold2 x)) by (split; lia).
  apply Z.eqb_neq. intros E. assert (fold2 x = 65535) as E' by lia. rewrite E' in Hk'.
  assert (x = (k + 1) * 65535 + d) by (unfold x; lia). assert (d = (k' - k) * 65535) by lia. nia.
Qed.
End datagram.

(** A frame with the IPv4 header length, UDP as protocol, port 53, and room for the given datagram. *)
Definition udp_frame (n : nat) : frame :=
  set16 (set8 (set8 (set16 (replicate (34 + n) 0) o_ethertype 2048) o_ihl 69) o_protocol UDP) o_dst_port 53.
Definition dns_ports (p : Z) : option (frame -> Z) := if p =? 53 then Some (fun _ => 0) else None.
Definition udp_transport (p : Z) : option (frame -> Z) := if p =? UDP then Some (fun _ => 0) else None.
Definition cfg0 : ipv4_config := IPConfig 0 0 64 64.
Lemma udp_frame_bytes n : bytes (udp_frame n).
Proof. unfold udp_frame. apply set16_bytes, set8_bytes, set8_bytes, set16_bytes, Forall_replicate. lia. Qed.

Lemma udp_even_roundtrip_witness :
  ipv4_receive udp_transport (sent (fun _ => 0) cfg0 no_mem (udp_frame 24)) = Done 0 /\
  udp_receive no_mem dns_ports (sent (fun _ => 0) cfg0 no_mem (udp_frame 24)) = Done 0.
Proof.
  apply (udp_even_roundtrip (fun _ => 0) cfg0 no_mem (udp_frame 24) (udp_frame_bytes 24)) with (th := fun _ => 0) (ph := fun _ => 0);
    try reflexivity. vm_compute; split; [discriminate|reflexivity].
Defined.
Lemma udp_length_23_rejected_witness :
  udp_receive no_mem dns_ports (sent (fun _ => 0) cfg0 no_mem (udp_frame 23)) = Done (- EPROTO).
Proof.
  apply (udp_length_23_rejected (fun _ => 0) cfg0 no_mem (udp_frame 23) (udp_frame_bytes 23))
    with (transports := udp_transport) (th := fun _ => 0) (ph := fun _ => 0); try reflexivity.
  - vm_compute; split; [discriminate|reflexivity].
  - split; vm_compute; reflexivity.
Defined.
Lemma ipv4_checksum_is_rfc1071_witness : get16 (compute_ipv4_csum (udp_frame 24)) o_hdr_csum = 47854.
Proof.
  rewrite (proj1 (ipv4_checksum_is_rfc1071 (udp_frame 24) (udp_frame_bytes 24) ltac:(apply Nat.leb_le; reflexivity))).
  vm_compute. reflexivity.
Defined.
