(* ===== verification/Tcp.v ===== *)
(** TCP (kernel/net/protocol/tcp.cpp, net/protocol/tcp.hpp): segments, the session
    buffer, the retransmission timer and the port handler with its connection state
    machine.

    A segment is a frame (Net.v).  The handler runs in a state and exception monad
    over the record of its members; what lies outside it (address resolution, the
    generator of initial sequence numbers, the clock, the device and the memory
    behind a packet's buffer) is an environment. *)
From S2P Require Import Prelude Net.

(** ** Segments ([tcp_header]) *)
Abbreviation o_seq := 38%nat.
Abbreviation o_ack := 42%nat.
Abbreviation o_offset := 46%nat.
Abbreviation o_flags := 47%nat.
Abbreviation o_window := 48%nat.
Abbreviation o_tcp_csum := 50%nat.

(** The bit-fields of [tcp_fields_word] are allocated from the low bit up. *)
Definition data_offset (f : frame) : Z := get8 f o_offset mod 16.
Definition set_data_offset (f : frame) (v : Z) : frame := set8 f o_offset (get8 f o_offset / 16 * 16 + v mod 16).
Definition flag (bit : Z) (f : frame) : bool := Z.testbit (get8 f o_flags) bit.
Definition set_flag (bit : Z) (f : frame) : frame := set8 f o_flags (Z.lor (get8 f o_flags) (2 ^ bit)).
Abbreviation ack_flag := (flag 3).
Abbreviation push_flag := (flag 4).
Abbreviation reset_flag := (flag 5).
Abbreviation syn_flag := (flag 6).
Abbreviation finish_flag := (flag 7).
Abbreviation set_ack := (set_flag 3).
Abbreviation set_push := (set_flag 4).
Abbreviation set_syn := (set_flag 6).
Abbreviation set_finish := (set_flag 7).

Definition seqno (f : frame) : Z := get32 f o_seq.
Definition ackno (f : frame) : Z := get32 f o_ack.
Definition payload_start (f : frame) : Z := 34 + data_offset f * 4.
Definition payload_end (f : frame) : Z := get16 f o_total_length.
Definition has_data (f : frame) : bool := negb (payload_end f =? payload_start f).
Definition segment_len (f : frame) : Z := Z.max 1 (get16 f o_total_length - (data_offset f * 4 + 34)).
Definition src_chk (f : frame) (addr port : Z) : bool := (addr =? get32 f o_src_addr) && (port =? get16 f o_src_port).
Definition seq_chk (f : frame) (seq : Z) : bool := seq =? seqno f.
Definition ack_chk (f : frame) (ack : Z) : bool := ack =? ackno f.
Definition is_simple_ack (f : frame) : bool :=
  ack_flag f && negb (finish_flag f || push_flag f || syn_flag f) && negb (has_data f).

(** The checksum: pseudo-header, words, and for an odd length the byte before
    [payload_end]. *)
Definition tcp_length (f : frame) : Z := u64 (get16 f o_total_length - (get8 f o_ihl mod 16) * 4).
Definition tcp_sum (mem : nat -> Z) (f : frame) : Z :=
  pseudo_sum f (tcp_length f)
  + (if negb (tcp_length f mod 2 =? 0) then byte_at mem f (Z.to_nat (payload_end f - 1)) else 0)
  + sum_words mem f o_src_port (Z.to_nat (tcp_length f / 2)).
Definition compute_tcp_checksum (mem : nat -> Z) (f : frame) : outcome frame :=
  if tcp_length f <? 65536 then Done (set16 f o_tcp_csum (csum_of (tcp_sum mem f))) else Undef.
Definition verify_tcp_checksum (mem : nat -> Z) (f : frame) : outcome bool :=
  if tcp_length f <? 65536 then Done (csum_ok (tcp_sum mem f)) else Undef.

(** ** The session buffer *)
(** The transmit position: null, an offset in the region for output, or what the memory
    held before the buffer was made. *)
Inductive tx_pointer := TxNull | TxAt (p : Z) | TxWild.
Record session := Session {
  in_bytes : list Z; in_pos : Z;
  out_bytes : list Z; out_pos : Z;
  tx_pos : tx_pointer }.
(** The constructor leaves the transmit position as the memory was. *)
Definition session0 (null : bool) : session := Session [] 0 [] 0 (if null then TxNull else TxWild).

Definition xsputn (d : session) (s : list Z) : session :=
  let n := Z.of_nat (length s) in
  let cap := Z.of_nat (length (out_bytes d)) in
  let grown := if cap <? out_pos d + n
               then out_bytes d ++ replicate (Z.to_nat (Z.max (2 * cap) (out_pos d + n) - cap)) 0 else out_bytes d in
  Session (in_bytes d) (in_pos d)
    (take (Z.to_nat (out_pos d)) grown ++ s ++ drop (Z.to_nat (out_pos d) + length s) grown) (out_pos d + n) (tx_pos d).
Definition xsgetn (d : session) (n : Z) : list Z * session :=
  let n1 := Z.min n (Z.of_nat (length (in_bytes d)) - in_pos d) in
  (take (Z.to_nat n1) (drop (Z.to_nat (in_pos d)) (in_bytes d)),
   Session (in_bytes d) (in_pos d + n1) (out_bytes d) (out_pos d) (tx_pos d)).
Definition rx_push (mem : nat -> Z) (d : session) (f : frame) : outcome session :=
  let n := payload_end f - payload_start f in
  if n <? 0 then Undef else
  Done (Session (in_bytes d ++ (byte_at mem f <$> seq (Z.to_nat (payload_start f)) (Z.to_nat n)))
          (in_pos d) (out_bytes d) (out_pos d) (tx_pos d)).
Definition tx_count (d : session) : outcome Z :=
  match tx_pos d with TxNull => Done 0 | TxAt p => Done (out_pos d - p) | TxWild => Undef end.
Definition tx_pop (d : session) (n : Z) : outcome (list Z * session) :=
  c ← tx_count d;
  let n1 := Z.min n c in
  if n1 =? 0 then Done ([], d) else
  match tx_pos d with
  | TxAt p => Done (take (Z.to_nat n1) (drop (Z.to_nat p) (out_bytes d)),
                    Session (in_bytes d) (in_pos d) (out_bytes d) (out_pos d) (TxAt (p + n1)))
  | _ => Undef
  end.
(** [reset] releases both regions and leaves the transmit position. *)
Definition reset_session (d : session) : session := Session [] 0 [] 0 (tx_pos d).

(** ** The retransmission timer *)
Record timer := Timer { rto : Z; srtt : Z; rttvar : Z; started : bool }.
Definition abs_diff (a b : Z) : Z := if b <? a then a - b else b - a.
Definition timer_update (t : timer) (r : Z) : timer :=
  let '(v, s) :=
    if negb (srtt t =? 0)
    then (u64 (u64 (rttvar t * 3) / 4 + abs_diff (srtt t) r / 4), u64 (u64 (srtt t * 7) / 8 + r / 8))
    else (r / 2, r) in
  Timer (u64 (s + Z.max 1 (u64 (v * 4)))) s v (started t).

(** ** The port handler *)
Inductive tcp_state :=
| LISTEN | SYN_SENT | SYN_RECEIVED | ESTABLISHED | FIN_WAIT_1 | FIN_WAIT_2
| CLOSE_WAIT | CLOSING | LAST_ACK | TIME_WAIT | CLOSED.
#[export] Instance tcp_state_eq_dec : EqDecision tcp_state.
Proof. solve_decision. Defined.
Inductive tcp_type := PASSIVE | ACTIVE.
#[export] Instance tcp_type_eq_dec : EqDecision tcp_type.
Proof. solve_decision. Defined.

Record conn := Conn {
  remote_host : Z; remote_port : Z;
  local_type : tcp_type; remote_type : tcp_type;
  initial_send : Z; last_send : Z; current_send : Z; next_send : Z;
  initial_recv : Z; current_recv : Z; next_recv : Z; commit_recv : Z;
  peer_window : Z }.
Definition conn0 (host port : Z) (lt rt : tcp_type) : conn := Conn host port lt rt 0 0 0 0 0 0 0 0 0.

Record port := Port {
  state : tcp_state;
  info : conn;
  sendq : gmap Z frame;
  recvq : gmap Z frame;
  tmr : timer;
  data : session;
  (** closings scheduled with [scheduler::defer_sec] *)
  close_pending : nat }.

(** Members that no constructor sets. *)
Record uninit := Uninit { raw_info : conn; raw_srtt : Z; raw_rttvar : Z; raw_tx_null : bool }.

Record env := Env {
  env_cfg : ipv4_config;
  env_local_port : Z;
  env_mac : list Z;
  (** the hardware address for a host, or [None] when resolution throws *)
  env_resolve : Z -> option (list Z);
  env_isn : Z -> Z -> Z -> Z -> Z;
  env_split : Z;
  env_second : Z;
  env_transmit : frame -> Z;
  env_mem : nat -> Z }.

(** State, exceptions ([None]) and undefined behaviour. *)
Definition M (A : Type) : Type := port -> outcome (option A * port).
#[export] Instance M_ret : MRet M := fun A a s => Done (Some a, s).
#[export] Instance M_bind : MBind M := fun A B f m s =>
  match m s with
  | Done (Some a, s1) => f a s1
  | Done (None, s1) => Done (None, s1)
  | Undef => Undef
  | NoFuel => NoFuel
  end.
Definition get {A} (f : port -> A) : M A := fun s => Done (Some (f s), s).
Definition modify (f : port -> port) : M () := fun s => Done (Some (), f s).
Definition throw {A} : M A := fun s => Done (None, s).
Definition lift {A} (o : outcome A) : M A := fun s => a ← o; Done (Some a, s).

Definition with_state st (s : port) : port := Port st (info s) (sendq s) (recvq s) (tmr s) (data s) (close_pending s).
Definition with_info c (s : port) : port := Port (state s) c (sendq s) (recvq s) (tmr s) (data s) (close_pending s).
Definition with_sendq q (s : port) : port := Port (state s) (info s) q (recvq s) (tmr s) (data s) (close_pending s).
Definition with_recvq q (s : port) : port := Port (state s) (info s) (sendq s) q (tmr s) (data s) (close_pending s).
Definition with_timer t (s : port) : port := Port (state s) (info s) (sendq s) (recvq s) t (data s) (close_pending s).
Definition with_data d (s : port) : port := Port (state s) (info s) (sendq s) (recvq s) (tmr s) d (close_pending s).

Definition set_window w (c : conn) : conn := Conn (remote_host c) (remote_port c) (local_type c) (remote_type c)
  (initial_send c) (last_send c) (current_send c) (next_send c) (initial_recv c) (current_recv c) (next_recv c) (commit_recv c) w.
Definition set_remote_type t (c : conn) : conn := Conn (remote_host c) (remote_port c) (local_type c) t
  (initial_send c) (last_send c) (current_send c) (next_send c) (initial_recv c) (current_recv c) (next_recv c) (commit_recv c) (peer_window c).
Definition set_send cur nxt (c : conn) : conn := Conn (remote_host c) (remote_port c) (local_type c) (remote_type c)
  (initial_send c) (last_send c) cur nxt (initial_recv c) (current_recv c) (next_recv c) (commit_recv c) (peer_window c).
Definition set_last_send l (c : conn) : conn := Conn (remote_host c) (remote_port c) (local_type c) (remote_type c)
  (initial_send c) l (current_send c) (next_send c) (initial_recv c) (current_recv c) (next_recv c) (commit_recv c) (peer_window c).
Definition set_recv ini cur nxt (c : conn) : conn := Conn (remote_host c) (remote_port c) (local_type c) (remote_type c)
  (initial_send c) (last_send c) (current_send c) (next_send c) ini cur nxt (commit_recv c) (peer_window c).
Definition set_commit k (c : conn) : conn := Conn (remote_host c) (remote_port c) (local_type c) (remote_type c)
  (initial_send c) (last_send c) (current_send c) (next_send c) (initial_recv c) (current_recv c) (next_recv c) k (peer_window c).
Definition mod_info (f : conn -> conn) : M () := modify (fun s => with_info (f (info s)) s).
Definition set_state (st : tcp_state) : M () := modify (with_state st).

Definition peer_chk (c : conn) (f : frame) : bool :=
  src_chk f (remote_host c) (remote_port c) && (ack_chk f (next_send c) || ack_chk f (last_send c)) && seq_chk f (next_recv c).

Section handler.
Context (e : env).

(** The timer's constructor sets the timeout only. *)
Definition new_timer (srtt0 rttvar0 : Z) : timer := Timer (env_second e) srtt0 rttvar0 false.
Definition reset_timer (t : timer) : timer := new_timer (srtt t) (rttvar t).
(** The constructor: all but the state, the queues and the timeout is what the memory held. *)
Definition new_port (u : uninit) : port :=
  Port CLOSED (raw_info u) ∅ ∅ (new_timer (raw_srtt u) (raw_rttvar u)) (session0 (raw_tx_null u)) 0.

Definition close : M () :=
  modify (fun s => Port CLOSED (conn0 0 0 PASSIVE PASSIVE) ∅ ∅ (reset_timer (tmr s)) (reset_session (data s)) (close_pending s)).

Definition open (peer port : Z) (lt rt : tcp_type) : M () :=
  let isn := u32 (env_isn e (leased_addr (env_cfg e)) (env_local_port e) peer port) in
  modify (with_info (Conn peer port lt rt isn 0 isn isn 0 0 0 0 0)).

Definition rx_add_packet (p : frame) : M Z :=
  let k := seqno p in
  modify (fun s => with_recvq (match recvq s !! k with Some _ => recvq s | None => <[k := p]> (recvq s) end) s) ≫= fun _ => mret k.

(** The blank packet: cleared memory, the Ethernet and IPv4 headers, the protocol. *)
Definition blank_packet (size : Z) (mac : list Z) : frame :=
  let f0 := take 6 mac ++ take 6 (env_mac e) ++ replicate (Z.to_nat size - length (take 6 mac ++ take 6 (env_mac e))) 0 in
  set8 (set8 (set16 f0 o_ethertype 2048) o_ihl 69) o_protocol TCP.

(** The hardware address of the peer or of the gateway. *)
Definition remote_mac : M (list Z) :=
  c ← get info;
  match env_resolve e (remote_host c) with
  | Some m => mret m
  | None => match env_resolve e (primary_gateway (env_cfg e)) with Some m => mret m | None => throw end
  end.

(** [send_packets.emplace]: an entry already there is kept. *)
Definition emplace_send (k : Z) (f : frame) : M () :=
  modify (fun s => with_sendq (match sendq s !! k with Some _ => sendq s | None => <[k := f]> (sendq s) end) s).
Definition upd_send (k : Z) (g : frame -> frame) : M () :=
  modify (fun s => with_sendq (alter g k (sendq s)) s).
Definition get_send (k : Z) : M frame := fun s => f ← or_undef (sendq s !! k); Done (Some f, s).

Definition padded_option_size (option_size : Z) : Z := if option_size =? 0 then 0 else up_to_nearest (option_size + 1) 4.
Definition fill_options (option_size : Z) (f : frame) : frame :=
  let padded := padded_option_size option_size in
  if padded =? 0 then f else
  let f1 := set8 f (54 + Z.to_nat (padded - 1)) 0 in
  fold_left (fun g i => set8 g i 1) (seq (54 + Z.to_nat option_size) (Z.to_nat (padded - option_size - 1))) f1.

Definition fill_header (c : conn) (k window padded : Z) (f : frame) : frame :=
  let f1 := set16 f o_total_length (Z.of_nat (length f)) in
  let f2 := set32 f1 o_seq k in
  let f3 := set32 f2 o_ack (next_recv c) in
  let f4 := set16 f3 o_window window in
  let f5 := set_data_offset f4 ((20 + padded) / 4) in
  let f6 := set32 f5 o_src_addr (leased_addr (env_cfg e)) in
  let f7 := set16 f6 o_src_port (env_local_port e) in
  let f8 := set32 f7 o_dst_addr (remote_host c) in
  set16 f8 o_dst_port (remote_port c).

(** Returns the key of the packet in the send queue. *)
Definition create_packet (payload_size option_size window_size : Z) : M Z :=
  let padded := padded_option_size option_size in
  mac ← remote_mac;
  c ← get info;
  let k := next_send c in
  _ ← emplace_send k (blank_packet (54 + padded + payload_size) mac);
  _ ← upd_send k (fill_options option_size);
  _ ← upd_send k (fill_header c k window_size padded);
  f ← get_send k;
  _ ← mod_info (set_send k (u32 (k + segment_len f)));
  mret k.

Definition checksum_send (k : Z) : M () :=
  f ← get_send k;
  f1 ← lift (compute_tcp_checksum (env_mem e) f);
  upd_send k (fun _ => f1).

(** [transmit] of the IPv4 layer works on the queued packet itself. *)
Definition transmit_send (k : Z) : M Z :=
  f ← get_send k;
  let '(r, f1) := ipv4_transmit (env_transmit e) (env_cfg e) f in
  _ ← upd_send k (fun _ => f1);
  mret r.

Definition tx_send_next : M Z :=
  c ← get info;
  q ← get sendq;
  match q !! current_send c with
  | None => mret (- ENOTCONN)
  | Some _ =>
      _ ← modify (fun s => with_timer (Timer (rto (tmr s)) (srtt (tmr s)) (rttvar (tmr s)) true) s);
      _ ← mod_info (set_last_send (current_send c));
      transmit_send (current_send c)
  end.

(** A packet with no payload and the given flags, sent. *)
Definition send_flags (g : frame -> frame) : M Z :=
  k ← create_packet 0 0 16384;
  _ ← upd_send k g;
  _ ← checksum_send k;
  tx_send_next.

Definition tx_ack : M Z := send_flags set_ack.
Definition tx_begin_close : M Z :=
  err ← send_flags (fun f => set_finish (set_ack f));
  if negb (err =? 0) then mret err else _ ← set_state FIN_WAIT_1; mret 0.
Definition tx_simultaneous_close : M Z :=
  err ← tx_ack;
  if negb (err =? 0) then mret err else _ ← set_state CLOSING; mret 0.
Definition set_await_close : M Z :=
  _ ← set_state TIME_WAIT;
  _ ← modify (fun s => Port (state s) (info s) (sendq s) (recvq s) (tmr s) (data s) (S (close_pending s)));
  mret 0.

Definition tx_reset (use_seq : Z) : M Z :=
  mac ← remote_mac;
  c ← get info;
  let k := next_send c in
  _ ← emplace_send k (blank_packet 54 mac);
  _ ← upd_send k (fun f =>
        let f1 := set16 f o_total_length (Z.of_nat (length f)) in
        let f2 := set32 f1 o_seq use_seq in
        let f3 := set16 f2 o_window 16384 in
        let f4 := set_data_offset f3 5 in
        let f5 := set32 f4 o_src_addr (leased_addr (env_cfg e)) in
        let f6 := set16 f5 o_src_port (env_local_port e) in
        let f7 := set32 f6 o_dst_addr (remote_host c) in
        set16 f7 o_dst_port (remote_port c));
  transmit_send k.

Definition tx_send_data : M Z :=
  d ← get data;
  count ← lift (tx_count d);
  if count =? 0 then mret 0 else
  c ← get info;
  let to_send := Z.min count (peer_window c) in
  k ← create_packet to_send 0 16384;
  d1 ← get data;
  '(bs, d2) ← lift (tx_pop d1 to_send);
  _ ← modify (with_data d2);
  _ ← upd_send k (fun f => take (Z.to_nat (payload_start f)) f ++ bs ++ drop (Z.to_nat (payload_start f) + length bs) f);
  _ ← upd_send k (fun f => set_push (set_ack f));
  _ ← checksum_send k;
  tx_send_next.

Definition no_fuel {A} : M A := fun _ => NoFuel.
Definition undefined {A} : M A := fun _ => Undef.
Definition commit_one (c : conn) (f : frame) : M () :=
  d ← get data;
  d1 ← (if has_data f then lift (rx_push (env_mem e) d f) else mret d);
  _ ← modify (with_data d1);
  mod_info (set_commit (u32 (commit_recv c + segment_len f))).
Definition commit_body (rest : option (M ())) : M () :=
  c ← get info;
  q ← get recvq;
  match q !! commit_recv c with
  | None => mret ()
  | Some f => match rest with None => no_fuel | Some m => _ ← commit_one c f; m end
  end.
Fixpoint commit_loop (fuel : nat) : M () :=
  commit_body (match fuel with O => None | S fuel => Some (commit_loop fuel) end).
Definition rx_commit : M () :=
  c ← get info;
  q ← get recvq;
  if commit_recv c =? 0 then mret () else commit_loop (S (size q)).

Definition rx_initial (p : frame) : M Z :=
  _ ← mod_info (set_window (get16 p o_window));
  _ ← (if has_data p then
         k ← rx_add_packet p;
         q ← get recvq;
         f ← lift (or_undef (q !! k));
         mod_info (fun c => set_commit k (set_recv k k (u32 (k + segment_len f)) c))
       else mod_info (set_recv (seqno p) (seqno p) (u32 (seqno p + 1))));
  err ← send_flags (fun f => set_syn (set_ack f));
  if negb (err =? 0) then mret err else _ ← set_state SYN_RECEIVED; mret 0.

Definition rx_establish (p : frame) : M Z :=
  c ← get info;
  if negb (ack_chk p (next_send c)) then tx_reset (ackno p) else
  let is_first := initial_recv c =? 0 in
  _ ← (if is_first
       then mod_info (fun c => set_window (get16 p o_window) (set_recv (seqno p) (seqno p) (seqno p) c)) else mret ());
  c1 ← get info;
  if negb (is_first || seq_chk p (if ack_flag p then current_recv c1 else next_recv c1)) then mret 0 else
  _ ← mod_info (fun c => set_recv (initial_recv c) (next_recv c) (u32 (next_recv c + segment_len p)) c);
  _ ← (if has_data p then _ ← rx_add_packet p; mret () else mret ());
  _ ← rx_commit;
  err ← send_flags (fun f => set_syn (set_ack f));
  if negb (err =? 0) then mret err else _ ← set_state ESTABLISHED; mret 0.

Definition rx_reset : M () :=
  modify (fun s => Port LISTEN (conn0 (remote_host (info s)) (remote_port (info s)) (local_type (info s)) (remote_type (info s)))
                        ∅ ∅ (reset_timer (tmr s)) (reset_session (data s)) (close_pending s)).

(** Throws when no queued packet has that sequence. *)
Definition compute_following_sequence (from : Z) : M Z :=
  q ← get sendq;
  match q !! from with Some f => mret (u32 (from + u32 (segment_len f))) | None => throw end.

Definition rx_accept_payload (p : frame) : M Z :=
  if negb (is_simple_ack p) then
    _ ← (if has_data p then
           k ← rx_add_packet p;
           c ← get info;
           _ ← (if commit_recv c =? 0 then mod_info (set_commit k) else mret ());
           q ← get recvq;
           f ← lift (or_undef (q !! k));
           if push_flag f then rx_commit else mret ()
         else mret ());
    tx_ack
  else
    c ← get info;
    n ← compute_following_sequence (last_send c);
    _ ← mod_info (set_last_send n);
    d ← get data;
    n ← lift (tx_count d);
    if negb (n =? 0) then tx_send_data else mret 0.

Definition rx_begin_close (p : frame) : M Z := _ ← set_state CLOSE_WAIT; rx_accept_payload p.

Definition rx_process (p : frame) : M Z :=
  if (length p <? TCP_LEN)%nat then undefined else
  st ← get state;
  if bool_decide (st = CLOSED) then mret (- ENOTCONN) else
  c0 ← get info;
  _ ← (if peer_chk c0 p then
         _ ← modify (fun s => if started (tmr s) then with_timer (timer_update (tmr s) (env_split e)) s else s);
         mod_info (set_window (get16 p o_window))
       else mret ());
  c ← get info;
  match st with
  | LISTEN =>
      if syn_flag p && negb (ack_flag p) then
        if finish_flag p || reset_flag p then mret (- EPROTO) else
        _ ← open (get32 p o_src_addr) (get16 p o_src_port) PASSIVE ACTIVE;
        rx_initial p
      else mret 0
  | SYN_SENT =>
      if finish_flag p || reset_flag p then mret (- EPROTO) else
      if src_chk p (remote_host c) (remote_port c) && syn_flag p then
        _ ← mod_info (set_remote_type PASSIVE);
        if ack_flag p then rx_establish p else rx_initial p
      else mret 0
  | SYN_RECEIVED =>
      if finish_flag p then mret (- EPROTO) else
      if seq_chk p (next_recv c) then
        if reset_flag p then _ ← rx_reset; mret 0
        else if ack_flag p && syn_flag p then rx_establish p else mret (- EPROTO)
      else mret 0
  | _ =>
      if negb (peer_chk c p) then mret 0 else
      match st with
      | ESTABLISHED => if finish_flag p then rx_begin_close p else rx_accept_payload p
      | FIN_WAIT_1 => if finish_flag p then tx_simultaneous_close else _ ← set_state FIN_WAIT_2; rx_accept_payload p
      | FIN_WAIT_2 => if finish_flag p then set_await_close else rx_accept_payload p
      | CLOSING => set_await_close
      | LAST_ACK => _ ← close; mret 0
      | _ => mret 0
      end
  end.
End handler.
