(* ===== verification/TcpProps.v ===== *)
(** Properties of the TCP port handler: the transitions of its connection state,
    the states it can reach, and what it receives once established. *)
From S2P Require Import Prelude Net Tcp.

(** ** What a computation does to the handler

    [stable R m]: however [m] ends (with a value or an exception), the state it
    leaves is related by [R] to the one it started in. *)
Definition stable {A} (R : port -> port -> Prop) (m : M A) : Prop :=
  forall s r s', m s = Done (r, s') -> R s s'.

Section stable.
Context (R : port -> port -> Prop) `{!PreOrder R}.

Lemma stable_ret {A} (a : A) : stable R (mret a).
Proof. intros s r s' [= _ <-]. reflexivity. Qed.
Lemma stable_get {A} (f : port -> A) : stable R (get f).
Proof. intros s r s' [= _ <-]. reflexivity. Qed.
Lemma stable_throw {A} : stable R (throw (A := A)).
Proof. intros s r s' [= _ <-]. reflexivity. Qed.
Lemma stable_no_fuel {A} : stable R (no_fuel (A := A)).
Proof. intros s r s' [=]. Qed.
Lemma stable_undefined {A} : stable R (undefined (A := A)).
Proof. intros s r s' [=]. Qed.
Lemma stable_lift {A} (o : outcome A) : stable R (lift o).
Proof. intros s r s'. unfold lift. destruct o; intros [=]; subst. reflexivity. Qed.
Lemma stable_modify f : (forall s, R s (f s)) -> stable R (modify f).
Proof. intros Hf s r s' [= _ <-]. apply Hf. Qed.
Lemma stable_get_send k : stable R (get_send k).
Proof. intros s r s'. unfold get_send. destruct (sendq s !! k); intros [=]; subst. reflexivity. Qed.
Lemma stable_bind {A B} (m : M A) (f : A -> M B) : stable R m -> (forall a, stable R (f a)) -> stable R (m ≫= f).
Proof.
  intros Hm Hf s r s'. cbn. unfold mbind, M_bind. destruct (m s) as [[[a|] s1]| |] eqn:E; intros Heq; [|simplify_eq; eauto|done..].
  transitivity s1; [by eapply Hm|by eapply Hf].
Qed.
End stable.

Lemma stable_impl {A} (R R' : port -> port -> Prop) (m : M A) : (forall s s', R s s' -> R' s s') -> stable R m -> stable R' m.
Proof. intros H Hm s r s' E. eauto. Qed.

Create HintDb stable discriminated.
#[export] Hint Extern 1 (stable _ (mret _)) => apply stable_ret; typeclasses eauto : stable.
#[export] Hint Extern 1 (stable _ (get _)) => apply stable_get; typeclasses eauto : stable.
#[export] Hint Extern 1 (stable _ throw) => apply stable_throw; typeclasses eauto : stable.
#[export] Hint Extern 1 (stable _ no_fuel) => apply stable_no_fuel : stable.
#[export] Hint Extern 1 (stable _ undefined) => apply stable_undefined : stable.
#[export] Hint Extern 1 (stable _ (lift _)) => apply stable_lift; typeclasses eauto : stable.
#[export] Hint Extern 1 (stable _ (get_send _)) => apply stable_get_send; typeclasses eauto : stable.

(** Walks through a computation, leaving the goals about its state changes. *)
Ltac stable_step :=
  first
  [ match goal with |- forall _, _ => intros end
  | solve [auto 2 with stable nocore]
  | match goal with |- stable _ (_ ≫= _) => apply stable_bind; [typeclasses eauto| |] end
  | match goal with |- stable _ (modify _) => apply stable_modify end
  | match goal with |- stable _ (match ?x with _ => _ end) => destruct x end
  | match goal with |- stable _ (let '(_, _) := ?x in _) => destruct x end
  ].
Ltac stable := repeat stable_step.

(** Sending leaves the connection state, what has been received and what is
    expected next. *)
Definition sends (s s' : port) : Prop :=
  state s' = state s /\ recvq s' = recvq s /\ next_recv (info s') = next_recv (info s) /\
  current_recv (info s') = current_recv (info s) /\ initial_recv (info s') = initial_recv (info s) /\
  commit_recv (info s') = commit_recv (info s).
#[export] Instance sends_preorder : PreOrder sends.
Proof. split; [by intros s; repeat split|]. intros a b c (?&?&?&?&?&?) (?&?&?&?&?&?). split_and!; congruence. Qed.

Section sending.
Context (e : env).

Lemma remote_mac_sends : stable sends (remote_mac e).
Proof. unfold remote_mac. stable. Qed.
#[local] Hint Resolve remote_mac_sends : stable.
Lemma create_packet_sends n o w : stable sends (create_packet e n o w).
Proof.
  unfold create_packet, emplace_send, upd_send, mod_info. stable; try apply remote_mac_sends; by split_and!.
Qed.
#[local] Hint Resolve create_packet_sends : stable.
Lemma transmit_send_sends k : stable sends (transmit_send e k).
Proof. unfold transmit_send, upd_send. stable; by split_and!. Qed.
#[local] Hint Resolve transmit_send_sends : stable.
Lemma tx_send_next_sends : stable sends (tx_send_next e).
Proof. unfold tx_send_next, mod_info. stable; try apply transmit_send_sends; by split_and!. Qed.
#[local] Hint Resolve tx_send_next_sends : stable.
Lemma checksum_send_sends k : stable sends (checksum_send e k).
Proof. unfold checksum_send, upd_send. stable; by split_and!. Qed.
#[local] Hint Resolve checksum_send_sends : stable.
Lemma send_flags_sends g : stable sends (send_flags e g).
Proof.
  unfold send_flags, upd_send. stable; try apply create_packet_sends; try apply checksum_send_sends;
    try apply tx_send_next_sends; by split_and!.
Qed.
#[local] Hint Resolve send_flags_sends : stable.
Lemma tx_reset_sends k : stable sends (tx_reset e k).
Proof.
  unfold tx_reset, emplace_send, upd_send. stable; try apply remote_mac_sends; try apply transmit_send_sends; by split_and!.
Qed.
#[local] Hint Resolve tx_reset_sends : stable.
Lemma tx_send_data_sends : stable sends (tx_send_data e).
Proof.
  unfold tx_send_data, upd_send. stable; try apply create_packet_sends; try apply checksum_send_sends; try apply tx_send_next_sends.
  all: by split_and!.
Qed.
#[local] Hint Resolve tx_send_data_sends : stable.
End sending.
#[export] Hint Resolve remote_mac_sends create_packet_sends transmit_send_sends tx_send_next_sends checksum_send_sends
  send_flags_sends tx_reset_sends tx_send_data_sends : stable.

(** ** Transitions *)

(** The connection state stays, or becomes [t]. *)
Definition to (t : tcp_state) (s s' : port) : Prop := state s' = state s \/ state s' = t.
#[export] Instance to_preorder t : PreOrder (to t).
Proof. split; [by left|]. intros a b c [H1|H1] [H2|H2]; unfold to; [left; congruence|by right|right; congruence|by right]. Qed.
Lemma sends_to t s s' : sends s s' -> to t s s'.
Proof. intros [H _]. by left. Qed.

(** What accepting the segment [p] may change of what has been received. *)
Definition accepts (p : frame) (s s' : port) : Prop :=
  state s' = state s /\ next_recv (info s') = next_recv (info s) /\
  (recvq s' = recvq s \/ (recvq s !! seqno p = None /\ recvq s' = <[seqno p := p]> (recvq s))).
#[export] Instance accepts_preorder p : PreOrder (accepts p).
Proof.
  split; [by intros s; split_and!; auto|]. intros a b c (H1 & H2 & H3) (H4 & H5 & H6). split_and!; [congruence..|].
  destruct H3 as [H3|[Hn H3]], H6 as [H6|[Hn' H6]]; rewrite H3 in *; [left; congruence|right; by split|right; by split|].
  by rewrite lookup_insert_eq in Hn'.
Qed.
Lemma sends_accepts p s s' : sends s s' -> accepts p s s'.
Proof. intros (H1 & H2 & H3 & _). split_and!; auto. Qed.
Lemma accepts_to p t s s' : accepts p s s' -> to t s s'.
Proof. intros [H _]. by left. Qed.

Section receiving.
Context (e : env).

Lemma rx_add_packet_accepts p : stable (accepts p) (rx_add_packet p).
Proof.
  unfold rx_add_packet. stable. split_and!; [done..|]. cbn.
  destruct (recvq s !! seqno p) eqn:E; [by left|by right].
Qed.
#[local] Hint Resolve rx_add_packet_accepts : stable.
Lemma commit_loop_accepts p fuel : stable (accepts p) (commit_loop e fuel).
Proof.
  induction fuel as [|fuel IH]; cbn [commit_loop]; unfold commit_body, commit_one, mod_info; stable;
    split_and!; by auto.
Qed.
#[local] Hint Resolve commit_loop_accepts : stable.
Lemma rx_commit_accepts p : stable (accepts p) (rx_commit e).
Proof. unfold rx_commit. stable. Qed.
#[local] Hint Resolve rx_commit_accepts : stable.
Lemma send_flags_accepts p g : stable (accepts p) (send_flags e g).
Proof. eapply stable_impl; [apply sends_accepts|apply send_flags_sends]. Qed.
#[local] Hint Resolve send_flags_accepts : stable.
Lemma rx_accept_payload_accepts p : stable (accepts p) (rx_accept_payload e p).
Proof.
  unfold rx_accept_payload, mod_info, compute_following_sequence. stable; try first [apply rx_add_packet_accepts|apply rx_commit_accepts|apply send_flags_accepts
          |eapply stable_impl; [apply sends_accepts|apply tx_send_data_sends]|split_and!; by auto].
Qed.
#[local] Hint Resolve rx_accept_payload_accepts : stable.

Lemma send_flags_to t g : stable (to t) (send_flags e g).
Proof. eapply stable_impl; [apply sends_to|apply send_flags_sends]. Qed.
#[local] Hint Resolve send_flags_to : stable.
Lemma rx_add_packet_to t p : stable (to t) (rx_add_packet p).
Proof. eapply stable_impl; [apply accepts_to|apply rx_add_packet_accepts]. Qed.
#[local] Hint Resolve rx_add_packet_to : stable.
Lemma rx_accept_payload_to t p : stable (to t) (rx_accept_payload e p).
Proof. eapply stable_impl; [apply accepts_to|apply rx_accept_payload_accepts]. Qed.
#[local] Hint Resolve rx_accept_payload_to : stable.
Lemma rx_commit_to t : stable (to t) (rx_commit e).
Proof. eapply stable_impl; [apply (accepts_to [])|apply rx_commit_accepts]. Qed.
#[local] Hint Resolve rx_commit_to : stable.

Lemma rx_initial_to p : stable (to SYN_RECEIVED) (rx_initial e p).
Proof.
  unfold rx_initial, mod_info, set_state. stable; try first [apply rx_add_packet_to|apply send_flags_to|by right|by left].
Qed.
#[local] Hint Resolve rx_initial_to : stable.
Lemma rx_establish_to p : stable (to ESTABLISHED) (rx_establish e p).
Proof.
  unfold rx_establish, mod_info, set_state. stable; try first [apply rx_add_packet_to|apply send_flags_to|apply rx_commit_to
          |eapply stable_impl; [apply sends_to|apply tx_reset_sends]|by right|by left].
Qed.
#[local] Hint Resolve rx_establish_to : stable.
Lemma rx_begin_close_to p : stable (to CLOSE_WAIT) (rx_begin_close e p).
Proof. unfold rx_begin_close, set_state. stable; try first [apply rx_accept_payload_to|by right]. Qed.
#[local] Hint Resolve rx_begin_close_to : stable.
Lemma tx_simultaneous_close_to : stable (to CLOSING) (tx_simultaneous_close e).
Proof. unfold tx_simultaneous_close, set_state. stable; try first [apply send_flags_to|by right]. Qed.
#[local] Hint Resolve tx_simultaneous_close_to : stable.
Lemma tx_begin_close_to : stable (to FIN_WAIT_1) (tx_begin_close e).
Proof. unfold tx_begin_close, set_state. stable; try first [apply send_flags_to|by right]. Qed.
#[local] Hint Resolve tx_begin_close_to : stable.
Lemma set_await_close_to : stable (to TIME_WAIT) set_await_close.
Proof. unfold set_await_close, set_state. stable; [by right|by left]. Qed.
#[local] Hint Resolve set_await_close_to : stable.
End receiving.
#[export] Hint Resolve rx_add_packet_accepts commit_loop_accepts rx_commit_accepts send_flags_accepts rx_accept_payload_accepts
  send_flags_to rx_add_packet_to rx_accept_payload_to rx_commit_to rx_initial_to rx_establish_to rx_begin_close_to
  tx_simultaneous_close_to tx_begin_close_to set_await_close_to : stable.

(** The transitions a received segment can cause. *)
Inductive rx_trans : tcp_state -> tcp_state -> Prop :=
| RT_stay st : rx_trans st st
| RT_listen : rx_trans LISTEN SYN_RECEIVED
| RT_sent_received : rx_trans SYN_SENT SYN_RECEIVED
| RT_sent_established : rx_trans SYN_SENT ESTABLISHED
| RT_received_reset : rx_trans SYN_RECEIVED LISTEN
| RT_received_established : rx_trans SYN_RECEIVED ESTABLISHED
| RT_established_fin : rx_trans ESTABLISHED CLOSE_WAIT
| RT_wait1_fin : rx_trans FIN_WAIT_1 CLOSING
| RT_wait1_ack : rx_trans FIN_WAIT_1 FIN_WAIT_2
| RT_wait2_fin : rx_trans FIN_WAIT_2 TIME_WAIT
| RT_closing : rx_trans CLOSING TIME_WAIT
| RT_last_ack : rx_trans LAST_ACK CLOSED.

(** The part of [rx_process] before the dispatch on the state. *)
Definition note_peer (e : env) (p : frame) (s : port) : port :=
  if peer_chk (info s) p then
    let s1 := if started (tmr s) then with_timer (timer_update (tmr s) (env_split e)) s else s in
    with_info (set_window (get16 p o_window) (info s1)) s1
  else s.

Definition dispatch (e : env) (p : frame) (st : tcp_state) (c : conn) : M Z :=
  match st with
  | LISTEN =>
      if syn_flag p && negb (ack_flag p) then
        if finish_flag p || reset_flag p then mret (- EPROTO) else
        _ ← open e (get32 p o_src_addr) (get16 p o_src_port) PASSIVE ACTIVE;
        rx_initial e p
      else mret 0
  | SYN_SENT =>
      if finish_flag p || reset_flag p then mret (- EPROTO) else
      if src_chk p (remote_host c) (remote_port c) && syn_flag p then
        _ ← mod_info (set_remote_type PASSIVE);
        if ack_flag p then rx_establish e p else rx_initial e p
      else mret 0
  | SYN_RECEIVED =>
      if finish_flag p then mret (- EPROTO) else
      if seq_chk p (next_recv c) then
        if reset_flag p then _ ← rx_reset e; mret 0
        else if ack_flag p && syn_flag p then rx_establish e p else mret (- EPROTO)
      else mret 0
  | _ =>
      if negb (peer_chk c p) then mret 0 else
      match st with
      | ESTABLISHED => if finish_flag p then rx_begin_close e p else rx_accept_payload e p
      | FIN_WAIT_1 => if finish_flag p then tx_simultaneous_close e else _ ← set_state FIN_WAIT_2; rx_accept_payload e p
      | FIN_WAIT_2 => if finish_flag p then set_await_close else rx_accept_payload e p
      | CLOSING => set_await_close
      | LAST_ACK => _ ← close e; mret 0
      | _ => mret 0
      end
  end.

Lemma rx_process_eq e p s :
  (TCP_LEN <= length p)%nat ->
  rx_process e p s = if bool_decide (state s = CLOSED) then Done (Some (- ENOTCONN), s)
                     else dispatch e p (state s) (info (note_peer e p s)) (note_peer e p s).
Proof.
  intros Hl. unfold rx_process. destruct (Nat.ltb_spec (length p) TCP_LEN); [lia|].
  unfold mbind at 1, M_bind at 1. cbn [get]. destruct (bool_decide (state s = CLOSED)); [done|].
  unfold note_peer. unfold mbind at 1, M_bind at 1. cbn [get]. destruct (peer_chk (info s) p); reflexivity.
Qed.
Lemma note_peer_sends e p s : sends s (note_peer e p s).
Proof. unfold note_peer. destruct (peer_chk (info s) p), (started (tmr s)); by split_and!. Qed.

Lemma dispatch_trans e p st c s r s' :
  state s = st -> dispatch e p st c s = Done (r, s') -> rx_trans st (state s').
Proof.
  intros Hst Hd.
  assert (Hto : forall t, stable (to t) (dispatch e p st c) -> rx_trans st t -> rx_trans st (state s')).
  { intros t Hs Ht. destruct (Hs _ _ _ Hd) as [->| ->]; [rewrite Hst; constructor|done]. }
  destruct st; cbn [dispatch] in *.
  - apply (Hto SYN_RECEIVED); [|constructor]. unfold open. stable; try first [apply rx_initial_to|by left].
  - revert Hd. destruct (_ || _); [intros [= _ <-]; rewrite Hst; constructor|].
    destruct (_ && _); [|intros [= _ <-]; rewrite Hst; constructor]. destruct (ack_flag p); intros Hd.
    + assert (Hs : stable (to ESTABLISHED) (_ ← mod_info (set_remote_type PASSIVE); rx_establish e p)).
      { unfold mod_info. stable; try first [apply rx_establish_to|by left]. }
      destruct (Hs _ _ _ Hd) as [->| ->]; [rewrite Hst|]; constructor.
    + assert (Hs : stable (to SYN_RECEIVED) (_ ← mod_info (set_remote_type PASSIVE); rx_initial e p)).
      { unfold mod_info. stable; try first [apply rx_initial_to|by left]. }
      destruct (Hs _ _ _ Hd) as [->| ->]; [rewrite Hst|]; constructor.
  - revert Hd. destruct (finish_flag p); [intros [= _ <-]; rewrite Hst; constructor|].
    destruct (seq_chk _ _); [|intros [= _ <-]; rewrite Hst; constructor].
    destruct (reset_flag p); [intros [= _ <-]; constructor|].
    destruct (_ && _); [|intros [= _ <-]; rewrite Hst; constructor]. intros Hd.
    destruct (rx_establish_to e p _ _ _ Hd) as [->| ->]; [rewrite Hst|]; constructor.
  - apply (Hto CLOSE_WAIT); [|constructor]. stable; try first [apply rx_begin_close_to|apply rx_accept_payload_to].
  - revert Hd. destruct (negb _); [intros [= _ <-]; rewrite Hst; constructor|]. destruct (finish_flag p); intros Hd.
    + destruct (tx_simultaneous_close_to e _ _ _ Hd) as [->| ->]; [rewrite Hst|]; constructor.
    + assert (Hs : stable (to FIN_WAIT_2) (_ ← set_state FIN_WAIT_2; rx_accept_payload e p)).
      { unfold set_state. stable; try first [apply rx_accept_payload_to|by right]. }
      destruct (Hs _ _ _ Hd) as [->| ->]; [rewrite Hst|]; constructor.
  - apply (Hto TIME_WAIT); [|constructor]. stable; try first [apply set_await_close_to|apply rx_accept_payload_to].
  - apply (Hto CLOSE_WAIT); [|constructor]. stable.
  - apply (Hto TIME_WAIT); [|constructor]. stable.
  - apply (Hto CLOSED); [|constructor]. unfold close. stable. by right.
  - apply (Hto TIME_WAIT); [|constructor]. stable.
  - apply (Hto CLOSED); [|constructor]. stable.
Qed.

(** C9: the connection state machine.  Whatever segment arrives, and however the
    environment behaves, [rx_process] moves the connection along one of the eleven listed
    transitions or leaves its state; a closed handler refuses the segment and
    changes nothing. *)
Theorem rx_process_transitions e p s r s' :
  (TCP_LEN <= length p)%nat -> rx_process e p s = Done (r, s') ->
  rx_trans (state s) (state s') /\ (state s = CLOSED -> r = Some (- ENOTCONN) /\ s' = s).
Proof.
  intros Hl. rewrite rx_process_eq by done. case_bool_decide as Hc; intros Hd.
  - simplify_eq. split; [constructor|done].
  - split; [|done]. destruct (note_peer_sends e p s) as [Hs _]. eapply dispatch_trans; [|exact Hd]. done.
Qed.

(** ** Reachable states *)

(** What the rest of the system can make a handler do, in any environment: hand it
    a segment of bytes that satisfies [ok], open it while it is closed or listening,
    close it (also from a deferred action), begin to close, write to or read from
    the session buffer, send what is buffered. *)
Inductive handler_step (ok : frame -> Prop) : port -> port -> Prop :=
| HS_receive e p s r s' : (TCP_LEN <= length p)%nat -> bytes p -> ok p -> rx_process e p s = Done (r, s') -> handler_step ok s s'
| HS_open e host port lt rt s r s' :
    state s = CLOSED \/ state s = LISTEN -> open e host port lt rt s = Done (r, s') -> handler_step ok s s'
| HS_close e s r s' : close e s = Done (r, s') -> handler_step ok s s'
| HS_begin_close e s r s' : tx_begin_close e s = Done (r, s') -> handler_step ok s s'
| HS_send_data e s r s' : tx_send_data e s = Done (r, s') -> handler_step ok s s'
| HS_write bs s : handler_step ok s (with_data (xsputn (data s) bs) s)
| HS_read n s : handler_step ok s (with_data (xsgetn (data s) n).2 s).

Definition never_established (st : tcp_state) : Prop :=
  match st with SYN_SENT | ESTABLISHED | CLOSE_WAIT | LAST_ACK => False | _ => True end.

(** A half-open connection knows where the peer's numbering started and expects a
    number other than the current one. *)
Definition stalled (s : port) : Prop :=
  never_established (state s) /\ map_Forall (fun _ f => bytes f) (recvq s) /\
  (state s = SYN_RECEIVED -> initial_recv (info s) <> 0 /\ current_recv (info s) <> next_recv (info s)).

Lemma bind_inv {A B} (m : M A) (f : A -> M B) s r s' :
  (m ≫= f) s = Done (r, s') ->
  (exists a s1, m s = Done (Some a, s1) /\ f a s1 = Done (r, s')) \/ (r = None /\ m s = Done (None, s')).
Proof.
  unfold mbind, M_bind. destruct (m s) as [[[a|] s1]| |] eqn:E; intros H; [left; eauto|right|done..]. by simplify_eq.
Qed.

Lemma sends_stalled s s' : sends s s' -> stalled s -> stalled s'.
Proof. intros (H1 & H2 & H3 & H4 & H5 & _) (H6 & H7 & H8). unfold stalled. rewrite H1, H2, H3, H4, H5. done. Qed.

Lemma segment_len_range f : bytes f -> 1 <= segment_len f < 65536.
Proof.
  intros Hb. unfold segment_len. pose proof (get16_range f o_total_length Hb).
  assert (0 <= data_offset f) by (apply Z.mod_pos_bound; lia). lia.
Qed.
Lemma seqno_range f : bytes f -> 0 <= seqno f < 2 ^ 32.
Proof. intros Hb. unfold seqno, get32. pose proof (get16_range f o_seq Hb). pose proof (get16_range f (o_seq + 2) Hb). lia. Qed.
Lemma u32_add_ne k n : 0 <= k < 2 ^ 32 -> 1 <= n < 65536 -> u32 (k + n) <> k.
Proof.
  intros Hk Hn. unfold wrap. destruct (Z.lt_ge_cases (k + n) (2 ^ 32)).
  - rewrite Z.mod_small by lia. lia.
  - rewrite <- (Z.mod_unique (k + n) (2 ^ 32) 1 (k + n - 2 ^ 32)); lia.
Qed.

(** The peer's numbering as [rx_initial] records it. *)
Definition numbered (p : frame) (s s' : port) : Prop :=
  state s' = state s /\ map_Forall (fun _ f => bytes f) (recvq s') /\
  initial_recv (info s') = seqno p /\ current_recv (info s') = seqno p /\ next_recv (info s') <> seqno p.
Lemma sends_numbered p s s1 s' : numbered p s s1 -> sends s1 s' -> numbered p s s'.
Proof. intros (H1&H2&H3&H4&H5) (H6&H7&H8&H9&H10&_). unfold numbered. rewrite H6, H7, H8, H9, H10. done. Qed.

Lemma record_numbering p s r s' :
  bytes p -> map_Forall (fun _ f => bytes f) (recvq s) ->
  (if has_data p then
     k ← rx_add_packet p; q ← get recvq; f ← lift (or_undef (q !! k));
     mod_info (fun c => set_commit k (set_recv k k (u32 (k + segment_len f)) c))
   else mod_info (set_recv (seqno p) (seqno p) (u32 (seqno p + 1)))) s = Done (r, s') ->
  r = Some () /\ numbered p s s'.
Proof.
  intros Hp Hq. pose proof (seqno_range p Hp) as Hr. destruct (has_data p).
  - unfold rx_add_packet, mbind, M_bind, modify, get, mod_info, lift, mret, M_ret. cbn [with_recvq recvq].
    destruct (recvq s !! seqno p) as [f|] eqn:E.
    + cbn [recvq]. rewrite E. cbn [or_undef mbind outcome_bind modify]. intros [= <- <-]. split; [done|].
      split_and!; cbn; try done. apply u32_add_ne; [done|]. apply segment_len_range. by apply (Hq _ _ E).
    + cbn [recvq]. rewrite lookup_insert_eq. cbn [or_undef mbind outcome_bind modify]. intros [= <- <-]. split; [done|].
      split_and!; cbn; try done; [by apply map_Forall_insert_2|]. apply u32_add_ne; [done|]. by apply segment_len_range.
  - intros [= <- <-]. split; [done|]. split_and!; cbn; try done. apply u32_add_ne; lia.
Qed.

Lemma rx_initial_stalled e p s r s' :
  bytes p -> seqno p <> 0 -> state s = LISTEN -> map_Forall (fun _ f => bytes f) (recvq s) ->
  rx_initial e p s = Done (r, s') -> stalled s'.
Proof.
  intros Hp Hz Hst Hq. unfold rx_initial. intros H.
  apply bind_inv in H as [(a & s1 & H1 & H)|[_ H]]; [|done]. injection H1 as _ <-.
  apply bind_inv in H as [(a1 & s2 & H2 & H)|[-> H]].
  2: { apply record_numbering in H as [? _]; [done..|]. exact Hq. }
  apply record_numbering in H2 as [_ Hn]; [|done|exact Hq].
  assert (Hfin : forall s3, sends s2 s3 -> numbered p s s3).
  { intros s3 Hs. eapply sends_numbered; [|exact Hs]. destruct Hn as (Hn1 & Hn2). by split. }
  apply bind_inv in H as [(err & s3 & H3 & H)|[_ H]].
  - apply send_flags_sends, Hfin in H3 as (Hs3 & Hq3 & Hi3 & Hc3 & Hn3).
    destruct (negb _); [injection H as _ <-|].
    + split_and!; [by rewrite Hs3, Hst|done|]. rewrite Hs3, Hst. done.
    + injection H as _ <-. split_and!; cbn; try done. intros _. split; congruence.
  - apply send_flags_sends, Hfin in H as (Hs3 & Hq3 & _). split_and!; [by rewrite Hs3, Hst|done|]. rewrite Hs3, Hst. done.
Qed.

Lemma rx_establish_stalled e p s r s' :
  stalled s -> state s = SYN_RECEIVED -> seq_chk p (next_recv (info s)) = true -> ack_flag p = true ->
  rx_establish e p s = Done (r, s') -> stalled s'.
Proof.
  intros Hs Hst Hseq Hack. unfold rx_establish. intros H.
  apply bind_inv in H as [(c & s1 & H1 & H)|[_ H]]; [|done]. injection H1 as <- <-.
  destruct (negb _).
  { apply tx_reset_sends in H. by eapply sends_stalled. }
  destruct Hs as (Hs1 & Hs2 & Hs3). destruct (Hs3 Hst) as [Hi Hc].
  assert ((initial_recv (info s) =? 0) = false) as Hf by (by apply Z.eqb_neq). rewrite Hf in H.
  apply bind_inv in H as [(u & s1 & H1 & H)|[_ H]]; [|done]. injection H1 as _ <-.
  apply bind_inv in H as [(c1 & s1 & H1 & H)|[_ H]]; [|done]. injection H1 as <- <-.
  rewrite Hack in H. unfold seq_chk in *. apply Z.eqb_eq in Hseq.
  assert ((current_recv (info s) =? seqno p) = false) as Hcs by (apply Z.eqb_neq; congruence). rewrite Hcs in H.
  cbn [orb negb] in H. injection H as _ <-. done.
Qed.

Lemma dispatch_stalled e p s r s' :
  bytes p -> seqno p <> 0 -> stalled s -> dispatch e p (state s) (info s) s = Done (r, s') -> stalled s'.
Proof.
  intros Hp Hz Hs. pose proof Hs as (Hne & Hq & _). destruct (state s) eqn:Hst; cbn [never_established] in Hne; try done; cbn [dispatch].
  - destruct (_ && _); [|by intros [= _ <-]]. destruct (_ || _); [by intros [= _ <-]|]. intros H.
    apply bind_inv in H as [(u & s1 & H1 & H)|[_ H]]; [|done]. injection H1 as _ <-.
    by eapply rx_initial_stalled; [..|exact H].
  - destruct (finish_flag p); [by intros [= _ <-]|]. destruct (seq_chk _ _) eqn:Hseq; [|by intros [= _ <-]].
    destruct (reset_flag p).
    { intros [= _ <-]. split_and!; cbn; try done; apply map_Forall_empty. }
    destruct (ack_flag p) eqn:Hack; [|by intros [= _ <-]]. destruct (syn_flag p); [|by intros [= _ <-]].
    intros H. by eapply rx_establish_stalled; [..|exact H].
  - destruct (negb _); [by intros [= _ <-]|]. destruct (finish_flag p); intros H.
    + assert (Hsf := H). unfold tx_simultaneous_close in H. apply bind_inv in H as [(err & s1 & H1 & H)|[_ H]].
      * apply send_flags_sends in H1. pose proof (sends_stalled _ _ H1 Hs) as (H2 & H3 & H4).
        destruct (negb _); injection H as _ <-; [done|]. split_and!; cbn; done.
      * apply send_flags_sends in H. by eapply sends_stalled.
    + apply bind_inv in H as [(u & s1 & H1 & H)|[_ H]]; [|done]. injection H1 as _ <-.
      apply rx_accept_payload_accepts in H as (H1 & H2 & H3). cbn in H1, H2, H3. split_and!.
      * by rewrite H1.
      * destruct H3 as [->|[_ ->]]; [done|]. by apply map_Forall_insert_2.
      * rewrite H1. done.
  - destruct (negb _); [by intros [= _ <-]|]. destruct (finish_flag p); intros H.
    + injection H as _ <-. split_and!; cbn; done.
    + apply rx_accept_payload_accepts in H as (H1 & H2 & H3). split_and!.
      * by rewrite H1, Hst.
      * destruct H3 as [->|[_ ->]]; [done|]. by apply map_Forall_insert_2.
      * rewrite H1, Hst. done.
  - destruct (negb _); [by intros [= _ <-]|]. intros [= _ <-]. split_and!; cbn; done.
  - destruct (negb _); by intros [= _ <-].
  - destruct (negb _); by intros [= _ <-].
Qed.

Lemma handler_step_stalled s s' : handler_step (fun p => seqno p <> 0) s s' -> stalled s -> stalled s'.
Proof.
  intros Hstep Hs. destruct Hstep as [e p s r s' Hl Hb Hok Hr|e h p lt rt s r s' Hst H|e s r s' H|e s r s' H|e s r s' H|bs s|n s]; try done.
  - rewrite rx_process_eq in Hr by done. case_bool_decide as Hc; [by simplify_eq|].
    pose proof (note_peer_sends e p s) as Hn. pose proof (sends_stalled _ _ Hn Hs) as Hs1.
    destruct Hn as [Hn _]. rewrite <- Hn in Hr. by eapply dispatch_stalled; [..|exact Hr].
  - injection H as _ <-. destruct Hs as (H1 & H2 & _). split_and!; cbn; try done. intros E. destruct Hst; congruence.
  - injection H as _ <-. split_and!; cbn; try done; apply map_Forall_empty.
  - unfold tx_begin_close in H. apply bind_inv in H as [(err & s1 & H1 & H)|[_ H]].
    + apply send_flags_sends in H1. pose proof (sends_stalled _ _ H1 Hs) as (H2 & H3 & H4).
      destruct (negb _); injection H as _ <-; [done|]. split_and!; cbn; done.
    + apply send_flags_sends in H. by eapply sends_stalled.
  - apply tx_send_data_sends in H. by eapply sends_stalled.
Qed.

(** C38: no connection is ever established.  Neither from the state the constructor
    leaves nor from a listening handler does any sequence of operations reach
    ESTABLISHED (or SYN_SENT, CLOSE_WAIT, LAST_ACK), unless a peer numbers a segment
    zero: nothing enters SYN_SENT, and a half-open connection is completed only by
    a segment whose number equals both the current and the next expected one. *)
Theorem no_connection_reachable e u s0 s :
  s0 = new_port e u \/ s0 = with_state LISTEN (new_port e u) ->
  rtc (handler_step (fun p => seqno p <> 0)) s0 s -> never_established (state s).
Proof.
  intros H0 Hr. assert (Hi : stalled s0) by (by destruct H0 as [->| ->]; split_and!; try apply map_Forall_empty).
  cut (stalled s); [by intros [? _]|]. clear H0. revert Hi.
  induction Hr as [|a b c Hab Hbc IH]; [done|]. intros Ha. apply IH. by eapply handler_step_stalled.
Qed.

(** ** Reception on an established connection *)

(** A sequence of segments, each processed to the end (values and exceptions are
    the caller's business). *)
Inductive receives : list frame -> port -> port -> Prop :=
| R_nil s : receives [] s s
| R_cons e p ps s r s1 s' :
    (TCP_LEN <= length p)%nat -> rx_process e p s = Done (r, s1) -> receives ps s1 s' -> receives (p :: ps) s s'.

Definition one_segment (s s' : port) : Prop :=
  (state s' = ESTABLISHED \/ state s' = CLOSE_WAIT) /\ next_recv (info s') = next_recv (info s) /\
  forall k, k <> next_recv (info s) -> recvq s' !! k = recvq s !! k.

Lemma peer_chk_seq c p : peer_chk c p = true -> seqno p = next_recv c.
Proof. unfold peer_chk, seq_chk. rewrite !andb_true_iff, Z.eqb_eq. intuition congruence. Qed.

Lemma accepts_one p s s1 s' :
  accepts p s1 s' -> recvq s1 = recvq s -> next_recv (info s1) = next_recv (info s) ->
  seqno p = next_recv (info s) -> state s1 = ESTABLISHED \/ state s1 = CLOSE_WAIT -> one_segment s s'.
Proof.
  intros (H1 & H2 & H3) Hq Hn Hk Hst. split_and!; [by rewrite H1|congruence|].
  intros k Hne. destruct H3 as [->|[_ ->]]; [by rewrite Hq|]. rewrite lookup_insert_ne by congruence. by rewrite Hq.
Qed.

Lemma receive_one e p s r s' :
  (TCP_LEN <= length p)%nat -> state s = ESTABLISHED \/ state s = CLOSE_WAIT ->
  rx_process e p s = Done (r, s') -> one_segment s s'.
Proof.
  intros Hl Hst. rewrite rx_process_eq by done. rewrite bool_decide_eq_false_2 by (intuition congruence).
  pose proof (note_peer_sends e p s) as Hsends. set (s1 := note_peer e p s) in *.
  destruct Hsends as (H1 & H2 & H3 & _).
  assert (Hstay : one_segment s s1) by (split_and!; [by rewrite H1|done|by rewrite H2]).
  destruct Hst as [Hst|Hst]; rewrite Hst; cbn [dispatch]; destruct (peer_chk (info s1) p) eqn:Hp; cbn [negb];
    try (intros [= _ <-]; done).
  apply peer_chk_seq in Hp. rewrite H3 in Hp. destruct (finish_flag p); intros Hd.
  - unfold rx_begin_close, set_state in Hd. unfold mbind, M_bind in Hd. cbn [modify] in Hd.
    apply rx_accept_payload_accepts in Hd. eapply accepts_one; [exact Hd|done..|by right].
  - apply rx_accept_payload_accepts in Hd. eapply accepts_one; [exact Hd|done..|]. left. congruence.
Qed.

(** An established connection receives one segment.  Accepting data never moves
    the sequence number expected next, so however many segments arrive, only what
    is stored under that one number can change, the acknowledgements keep asking
    for it, and a segment with any other sequence number is dropped without a
    trace. *)
Theorem established_receives_one_segment ps s s' :
  state s = ESTABLISHED -> receives ps s s' ->
  one_segment s s' /\
  forall e p, (TCP_LEN <= length p)%nat -> seqno p <> next_recv (info s) -> rx_process e p s' = Done (Some 0, s').
Proof.
  intros Hst Hrec.
  assert (Hone : one_segment s s').
  { assert (Hst' : state s = ESTABLISHED \/ state s = CLOSE_WAIT) by (by left). clear Hst.
    induction Hrec as [s|e p ps s r s1 s' Hl Hp Hps IH]; [done|].
    pose proof (receive_one _ _ _ _ _ Hl Hst' Hp) as (Hs1 & Hn1 & Hq1).
    destruct (IH Hs1) as (Hs2 & Hn2 & Hq2). split_and!; [done|congruence|].
    intros k Hk. rewrite Hq2 by congruence. by apply Hq1. }
  split; [done|]. destruct Hone as (Hs' & Hn & _). intros e p Hl Hne.
  assert (Hpc : peer_chk (info s') p = false).
  { destruct (peer_chk (info s') p) eqn:E; [|done]. apply peer_chk_seq in E. congruence. }
  rewrite rx_process_eq by done. rewrite bool_decide_eq_false_2 by (intuition congruence).
  assert (Hnp : note_peer e p s' = s') by (unfold note_peer; by rewrite Hpc).
  rewrite Hnp. destruct Hs' as [-> | ->]; cbn [dispatch]; rewrite Hpc; done.
Qed.

(** ** The checksum of a packet under construction *)
Lemma sum_words_split mem f n m : forall off, sum_words mem f off (n + m) = sum_words mem f off n + sum_words mem f (off + 2 * n) m.
Proof.
  induction n as [|n IH]; intros off; [by rewrite Nat.mul_0_r, Nat.add_0_r|]. cbn [sum_words Nat.add].
  rewrite IH. replace (off + 2 + 2 * n)%nat with (off + 2 * S n)%nat by lia. lia.
Qed.
Lemma sum_words_beyond mem f n : forall off, (length f <= off)%nat ->
  sum_words mem f off n = sum_words mem [] (off - length f) n.
Proof.
  induction n as [|n IH]; intros off Ho; [done|]. cbn [sum_words]. rewrite IH by lia.
  replace (off + 2 - length f)%nat with (off - length f + 2)%nat by lia. f_equal.
  unfold word_at, byte_at. rewrite !lookup_ge_None_2 by lia. rewrite !lookup_nil. cbn [length].
  rewrite !Nat.sub_0_r. replace (off + 1 - length f)%nat with (off - length f + 1)%nat by lia. done.
Qed.
Lemma sum_words_within mem mem' f n : forall off, (off + 2 * n <= length f)%nat -> sum_words mem f off n = sum_words mem' f off n.
Proof. induction n as [|n IH]; intros off Ho; [done|]. cbn [sum_words]. by rewrite !word_at_in, (IH (off + 2)%nat) by lia. Qed.

(** The checksum of a packet under construction covers memory behind it.
    [create_packet] stores the size of the whole frame, Ethernet header included,
    as the IPv4 length, and the checksum starts at the TCP header: for a frame of
    even size it adds the seven words that follow the packet's buffer. *)
Theorem tcp_checksum_overreads mem f n :
  length f = (2 * n)%nat -> (27 <= n)%nat -> Z.of_nat (length f) < 65536 ->
  get16 f o_total_length = Z.of_nat (length f) -> get8 f o_ihl mod 16 = 5 ->
  tcp_sum mem f = pseudo_sum f (Z.of_nat (length f) - 20) + sum_words no_mem f o_src_port (n - 17) + sum_words mem [] 0 7.
Proof.
  intros Hl Hn Hb Ht Hi. unfold tcp_sum, tcp_length. rewrite Ht, Hi, wrap_small by (split; lia).
  replace (Z.of_nat (length f) - 5 * 4) with (Z.of_nat (length f) - 20) by lia.
  assert (((Z.of_nat (length f) - 20) mod 2 =? 0) = true) as ->.
  { apply Z.eqb_eq. rewrite Hl. replace (Z.of_nat (2 * n) - 20) with ((Z.of_nat n - 10) * 2) by lia. apply Z_mod_mult. }
  cbn [negb]. replace (Z.to_nat ((Z.of_nat (length f) - 20) / 2)) with ((n - 17) + 7)%nat.
  2: { rewrite Hl. replace (Z.of_nat (2 * n) - 20) with ((Z.of_nat n - 10) * 2) by lia. rewrite Z.div_mul by lia. lia. }
  rewrite sum_words_split, (sum_words_within mem no_mem) by lia.
  rewrite (sum_words_beyond mem f 7) by lia. replace (34 + 2 * (n - 17) - length f)%nat with 0%nat by lia. lia.
Qed.

(** ** A concrete peer *)
Definition env0 : env :=
  Env (IPConfig 1 2 64 64) 80 (replicate 6 2) (fun _ => Some (replicate 6 3)) (fun _ _ _ _ => 1000) 7 1000000 (fun _ => 0) no_mem.
(** A segment from host 9, port 99, without options or payload. *)
Definition segment (seq ack : Z) (g : frame -> frame) : frame :=
  g (set_data_offset (set32 (set32 (set16 (set32 (set16 (replicate 54 0) o_total_length 54) o_src_addr 9) o_src_port 99)
       o_seq seq) o_ack ack) 5).
(** Memory that was zero. *)
Definition blank : uninit := Uninit (conn0 0 0 PASSIVE PASSIVE) 0 0 true.
Definition listening : port := with_state LISTEN (new_port env0 blank).
Definition run (m : outcome (option Z * port)) : port := match m with Done (_, s) => s | _ => new_port env0 blank end.
Definition half_open : port := run (rx_process env0 (segment 5000 0 set_syn) listening).
Definition calling : port :=
  with_state SYN_SENT (match open env0 9 99 ACTIVE PASSIVE (new_port env0 blank) with Done (_, s) => s | _ => new_port env0 blank end).
Definition connected : port := run (rx_process env0 (segment 5000 1000 (fun f => set_syn (set_ack f))) calling).

Lemma rx_process_transitions_witness :
  state half_open = SYN_RECEIVED /\ rx_trans LISTEN (state half_open).
Proof.
  split; [vm_compute; reflexivity|].
  refine (proj1 (rx_process_transitions env0 (segment 5000 0 set_syn) listening (Some 0) half_open _ _)).
  - apply Nat.leb_le. vm_compute. reflexivity.
  - vm_compute. reflexivity.
Defined.

(** A listening handler and a SYN from the peer. *)
Lemma no_connection_reachable_witness : state half_open = SYN_RECEIVED /\ never_established (state half_open).
Proof.
  split; [vm_compute; reflexivity|]. apply (no_connection_reachable env0 blank listening); [right; reflexivity|].
  apply rtc_once. apply (HS_receive _ env0 (segment 5000 0 set_syn) _ (Some 0)).
  - apply Nat.leb_le. vm_compute. reflexivity.
  - apply (bool_decide_unpack _). vm_compute. reflexivity.
  - intros H. vm_compute in H. discriminate H.
  - vm_compute. reflexivity.
Defined.

(** A fresh segment and one that follows it, after the handshake. *)
Definition data_segment (s : port) (off : Z) : frame :=
  set16 (segment (next_recv (info s) + off) (next_send (info s)) set_ack ++ [65; 66]) o_total_length 56.
Definition after_data : port := run (rx_process env0 (data_segment connected 0) connected).
Lemma established_receives_one_segment_witness :
  state connected = ESTABLISHED /\ size (recvq connected) = 0%nat /\ size (recvq after_data) = 1%nat /\
  rx_process env0 (data_segment connected 2) after_data = Done (Some 0, after_data).
Proof.
  split; [vm_compute; reflexivity|]. split; [vm_compute; reflexivity|]. split; [vm_compute; reflexivity|].
  refine (proj2 (established_receives_one_segment [data_segment connected 0] connected after_data _ _) env0 (data_segment connected 2) _ _).
  - vm_compute. reflexivity.
  - apply (R_cons env0 _ [] connected (Some 0) after_data); [apply Nat.leb_le; vm_compute; reflexivity|vm_compute; reflexivity|constructor].
  - apply Nat.leb_le. vm_compute. reflexivity.
  - intros H. vm_compute in H. discriminate H.
Defined.

(** The packet that [create_packet] queues for an acknowledgement. *)
Definition fresh_packet : frame :=
  match create_packet env0 0 0 16384 connected with
  | Done (Some k, s) => default [] (sendq s !! k)
  | _ => []
  end.
Lemma tcp_checksum_overreads_witness :
  tcp_sum (fun _ => 1) fresh_packet = tcp_sum no_mem fresh_packet + 7 * 257.
Proof.
  rewrite !(tcp_checksum_overreads _ fresh_packet 27).
  - vm_compute. reflexivity.
  - vm_compute. reflexivity.
  - apply Nat.leb_le. reflexivity.
  - vm_compute. reflexivity.
  - vm_compute. reflexivity.
  - vm_compute. reflexivity.
  - vm_compute. reflexivity.
  - apply Nat.leb_le. reflexivity.
  - vm_compute. reflexivity.
  - vm_compute. reflexivity.
  - vm_compute. reflexivity.
Defined.
