(* ===== verification/TcpWf.v ===== *)
(** The types of the TCP port handler's members: which values the sequence
    numbers, the queued packets and the session buffer can hold, and that every
    operation of the handler keeps them there. *)
From S2P Require Import Prelude Net Tcp TcpProps.

(** ** Well-formed values *)
Definition seq32 (x : Z) : Prop := 0 <= x < 2 ^ 32.
Definition conn_wf (c : conn) : Prop :=
  (seq32 (initial_send c) /\ seq32 (last_send c) /\ seq32 (current_send c) /\ seq32 (next_send c)) /\
  (seq32 (initial_recv c) /\ seq32 (current_recv c) /\ seq32 (next_recv c) /\ seq32 (commit_recv c)) /\
  0 <= peer_window c < 2 ^ 64.
(** A queued packet: bytes, with the whole TCP header. *)
Definition packet_wf (f : frame) : Prop := bytes f /\ (TCP_LEN <= length f)%nat.
Definition queue_wf (q : gmap Z frame) : Prop := map_Forall (fun k f => seq32 k /\ packet_wf f) q.
(** The positions lie inside their regions; the transmit position has never been set to a
    place in the buffer. *)
Definition session_wf (d : session) : Prop :=
  (bytes (in_bytes d) /\ 0 <= in_pos d <= Z.of_nat (length (in_bytes d))) /\
  (bytes (out_bytes d) /\ 0 <= out_pos d <= Z.of_nat (length (out_bytes d))) /\ (tx_pos d = TxNull \/ tx_pos d = TxWild).
Definition handler_wf (s : port) : Prop :=
  conn_wf (info s) /\ queue_wf (sendq s) /\ queue_wf (recvq s) /\ session_wf (data s).

(** Hardware addresses and memory hold bytes. *)
Definition env_wf (e : env) : Prop :=
  bytes (env_mac e) /\ (forall h m, env_resolve e h = Some m -> bytes m) /\ (forall i, 0 <= env_mem e i < 256).

(** ** Operations that keep the handler well-formed

    [keeps m Q]: from a well-formed handler, [m] leaves a well-formed one however
    it ends, and a value it returns satisfies [Q]. *)
Definition keeps {A} (m : M A) (Q : A -> Prop) : Prop :=
  forall s r s', handler_wf s -> m s = Done (r, s') -> handler_wf s' /\ forall a, r = Some a -> Q a.
Abbreviation any := (fun _ => True).

Lemma keeps_ret {A} (a : A) (Q : A -> Prop) : Q a -> keeps (mret a) Q.
Proof. intros Ha s r s' Hs [= <- <-]. split; [done|]. by intros ? [= <-]. Qed.
Lemma keeps_get {A} (f : port -> A) (Q : A -> Prop) : (forall s, handler_wf s -> Q (f s)) -> keeps (get f) Q.
Proof. intros Hf s r s' Hs [= <- <-]. split; [done|]. intros ? [= <-]. by apply Hf. Qed.
Lemma keeps_modify f : (forall s, handler_wf s -> handler_wf (f s)) -> keeps (modify f) any.
Proof. intros Hf s r s' Hs [= <- <-]. split; [by apply Hf|done]. Qed.
Lemma keeps_throw {A} (Q : A -> Prop) : keeps throw Q.
Proof. intros s r s' Hs [= <- <-]. split; [done|]. by intros ? [=]. Qed.
Lemma keeps_lift {A} (o : outcome A) (Q : A -> Prop) : (forall a, o = Done a -> Q a) -> keeps (lift o) Q.
Proof. intros Ho s r s' Hs. unfold lift. destruct o; intros [=]; subst. split; [done|]. intros ? [= <-]. by apply Ho. Qed.
Lemma keeps_none {A} (m : M A) (Q : A -> Prop) : (forall s r s', m s <> Done (r, s')) -> keeps m Q.
Proof. intros Hm s r s' _ H. by apply Hm in H. Qed.
Lemma keeps_bind {A B} (m : M A) (f : A -> M B) (P : A -> Prop) (Q : B -> Prop) :
  keeps m P -> (forall a, P a -> keeps (f a) Q) -> keeps (m ≫= f) Q.
Proof.
  intros Hm Hf s r s' Hs H. apply bind_inv in H as [(a & s1 & H1 & H)|[-> H]].
  - destruct (Hm _ _ _ Hs H1) as [Hs1 Ha]. by eapply (Hf a); [apply Ha|..].
  - destruct (Hm _ _ _ Hs H). split; [done|]. by intros ? [=].
Qed.
Lemma keeps_weaken {A} (m : M A) (P Q : A -> Prop) : keeps m P -> (forall a, P a -> Q a) -> keeps m Q.
Proof. intros Hm HQ s r s' Hs H. destruct (Hm _ _ _ Hs H). split; eauto. Qed.

(** ** Packets *)
Lemma seq32_wrap x : seq32 (u32 x).
Proof. by apply wrap_range. Qed.
Lemma seq32_0 : seq32 0.
Proof. done. Qed.
Lemma seqno_seq32 f : bytes f -> seq32 (seqno f).
Proof. apply seqno_range. Qed.
Create HintDb wf discriminated.
#[export] Hint Resolve seq32_wrap seq32_0 seqno_seq32 get16_range : wf.

(** A change to a packet that keeps its bytes bytes and does not shorten it. *)
Definition edits (g : frame -> frame) : Prop := forall f, packet_wf f -> packet_wf (g f).
Lemma edits_set8 i v f : packet_wf f -> packet_wf (set8 f i v).
Proof. intros [H1 H2]. split; [by apply set8_bytes|by rewrite length_set8]. Qed.
Lemma edits_set16 i v f : packet_wf f -> packet_wf (set16 f i v).
Proof. intros [H1 H2]. split; [by apply set16_bytes|by rewrite length_set16]. Qed.
Lemma edits_set32 i v f : packet_wf f -> packet_wf (set32 f i v).
Proof. intros [H1 H2]. split; [by apply set32_bytes|by rewrite length_set32]. Qed.
Lemma edits_flag b f : packet_wf f -> packet_wf (set_flag b f).
Proof. apply edits_set8. Qed.
Lemma edits_offset v f : packet_wf f -> packet_wf (set_data_offset f v).
Proof. apply edits_set8. Qed.
#[export] Hint Resolve edits_set8 edits_set16 edits_set32 edits_flag edits_offset : wf.
Lemma edits_fold (l : list nat) : forall f, packet_wf f -> packet_wf (fold_left (fun g i => set8 g i 1) l f).
Proof. induction l as [|i l IH]; intros f Hf; cbn [fold_left]; [done|]. apply IH. by apply edits_set8. Qed.
Lemma edits_options o : edits (fill_options o).
Proof. intros f Hf. unfold fill_options. destruct (_ =? 0); [done|]. apply edits_fold. auto with wf. Qed.
Lemma edits_header e c k w p : edits (fill_header e c k w p).
Proof. intros f Hf. unfold fill_header. auto 12 with wf. Qed.
Lemma edits_ipv4 cfg : edits (ipv4_prepare cfg).
Proof. intros f [H1 H2]. split; [by apply ipv4_prepare_bytes|by rewrite ipv4_prepare_length]. Qed.
Lemma edits_payload bs n : bytes bs -> edits (fun f => take n f ++ bs ++ drop (n + length bs) f).
Proof.
  intros Hb f [H1 H2]. split.
  - apply Forall_app; split; [by apply Forall_take|]. apply Forall_app; split; [done|by apply Forall_drop].
  - rewrite !length_app, length_take, length_drop. lia.
Qed.
Lemma blank_packet_wf e size mac : env_wf e -> bytes mac -> 54 <= size -> packet_wf (blank_packet e size mac).
Proof.
  intros (Hm & _) Hmac Hs. unfold blank_packet. do 2 apply edits_set8. apply edits_set16. split.
  - apply Forall_app; split; [by apply Forall_take|]. apply Forall_app; split; [by apply Forall_take|]. apply Forall_replicate. lia.
  - rewrite !length_app, length_replicate, !length_take. lia.
Qed.
Lemma byte_at_range mem f i : bytes f -> (forall j, 0 <= mem j < 256) -> 0 <= byte_at mem f i < 256.
Proof. intros Hf Hm. unfold byte_at. destruct (f !! i) eqn:E; [|auto]. unfold bytes in Hf. rewrite Forall_lookup in Hf. eauto. Qed.

(** ** The handler's parts *)
Lemma keeps_info f : (forall c, conn_wf c -> conn_wf (f c)) -> keeps (mod_info f) any.
Proof. intros Hf. apply keeps_modify. intros s (H1 & H2). split; [by apply Hf|done]. Qed.
Lemma keeps_state st : keeps (set_state st) any.
Proof. by apply keeps_modify. Qed.
Lemma keeps_upd_send k g : edits g -> keeps (upd_send k g) any.
Proof.
  intros Hg. apply keeps_modify. intros s (H1 & H2 & H3). split_and!; [done| |by destruct H3..]. cbn.
  intros i f Hi. apply lookup_alter_Some in Hi as [(-> & f0 & Hf & ->)|[Hne Hi]]; [|by apply H2].
  destruct (H2 _ _ Hf). split; [done|]. by apply Hg.
Qed.
Lemma keeps_emplace k f : seq32 k -> packet_wf f -> keeps (emplace_send k f) any.
Proof.
  intros Hk Hf. apply keeps_modify. intros s (H1 & H2 & H3). split_and!; [done| |by destruct H3..]. cbn.
  destruct (sendq s !! k); [done|]. by apply map_Forall_insert_2.
Qed.
Lemma keeps_get_send k : keeps (get_send k) packet_wf.
Proof.
  intros s r s' Hs. unfold get_send. destruct (sendq s !! k) eqn:E; intros [=]; subst. split; [done|].
  intros ? [= <-]. destruct Hs as (_ & Hq & _). by destruct (Hq _ _ E).
Qed.
Lemma keeps_get_info : keeps (get info) conn_wf.
Proof. apply keeps_get. by intros s [H _]. Qed.
Lemma keeps_get_recvq : keeps (get recvq) queue_wf.
Proof. apply keeps_get. by intros s (_ & _ & H & _). Qed.
Lemma keeps_get_data : keeps (get data) session_wf.
Proof. apply keeps_get. by intros s (_ & _ & _ & H). Qed.
Lemma keeps_get_any {A} (f : port -> A) : keeps (get f) any.
Proof. by apply keeps_get. Qed.
Lemma keeps_data d : session_wf d -> keeps (modify (with_data d)) any.
Proof. intros Hd. apply keeps_modify. by intros s (H1 & H2 & H3 & _). Qed.

(** Walks through a computation with the rules above. *)
Ltac keeps_step :=
  first
  [ match goal with |- forall _, _ => intros end
  | match goal with |- keeps (mret _) _ => first [exact (keeps_ret _ any I)|apply keeps_ret; try done] end
  | match goal with |- keeps throw _ => apply keeps_throw end
  | match goal with |- keeps no_fuel _ => by apply keeps_none end
  | match goal with |- keeps undefined _ => by apply keeps_none end
  | match goal with |- keeps (get info) _ => apply keeps_get_info end
  | match goal with |- keeps (get recvq) _ => apply keeps_get_recvq end
  | match goal with |- keeps (get data) _ => apply keeps_get_data end
  | match goal with |- keeps (get _) _ => apply keeps_get_any end
  | match goal with |- keeps (get_send _) _ => apply keeps_get_send end
  | match goal with |- keeps (set_state _) _ => apply keeps_state end
  | match goal with |- keeps (mod_info _) _ => apply keeps_info end
  | match goal with |- keeps (upd_send _ _) _ => apply keeps_upd_send end
  | match goal with |- keeps (emplace_send _ _) _ => apply keeps_emplace end
  | solve [auto 2 with keeps nocore]
  | match goal with |- keeps (_ ≫= _) _ => eapply keeps_bind end
  | match goal with |- keeps (match ?x with _ => _ end) _ => destruct x eqn:? end
  | match goal with |- keeps (let '(_, _) := ?x in _) _ => destruct x eqn:? end ].
Ltac keeps := repeat keeps_step.
(** The sequence numbers of a changed connection record. *)
Ltac conn_wf := unfold conn_wf in *; destruct_and?; split_and?; cbn [initial_send last_send current_send next_send initial_recv
  current_recv next_recv commit_recv peer_window set_send set_recv set_last_send set_commit set_window set_remote_type]; auto with wf; try lia.
Create HintDb keeps discriminated.

Section operations.
Context (e : env) (He : env_wf e).

Lemma remote_mac_keeps : keeps (remote_mac e) bytes.
Proof using He. destruct He as (_ & Hr & _). unfold remote_mac. keeps; eauto. Qed.
#[local] Hint Resolve remote_mac_keeps : keeps.
Lemma padded_nonneg o : 0 <= o -> 0 <= padded_option_size o.
Proof.
  intros. unfold padded_option_size. destruct (o =? 0); [lia|]. pose proof (up_to_nearest_spec (o + 1) 4 ltac:(lia)). lia.
Qed.
Lemma create_packet_keeps n o w : 0 <= n -> 0 <= o -> keeps (create_packet e n o w) seq32.
Proof using He.
  intros Hn Ho. pose proof (padded_nonneg o Ho). unfold create_packet. keeps.
  - by conn_wf.
  - apply blank_packet_wf; [done..|lia].
  - apply edits_options.
  - apply edits_header.
  - conn_wf.
  - by conn_wf.
Qed.
Lemma checksum_send_keeps k : keeps (checksum_send e k) any.
Proof.
  unfold checksum_send. eapply keeps_bind; [apply keeps_get_send|]. intros f Hf.
  eapply (keeps_bind _ _ packet_wf).
  - apply keeps_lift. unfold compute_tcp_checksum. intros g. destruct (_ <? _); intros [=]; subst. auto with wf.
  - intros g Hg. apply keeps_upd_send. by intros ? _.
Qed.
Lemma transmit_send_keeps k : keeps (transmit_send e k) any.
Proof.
  unfold transmit_send, ipv4_transmit. eapply keeps_bind; [apply keeps_get_send|]. intros f Hf. keeps. intros ? _. by apply edits_ipv4.
Qed.
#[local] Hint Resolve checksum_send_keeps transmit_send_keeps : keeps.
Lemma tx_send_next_keeps : keeps (tx_send_next e) any.
Proof. unfold tx_send_next. keeps. - by apply keeps_modify. - conn_wf. Qed.
#[local] Hint Resolve tx_send_next_keeps : keeps.
Lemma send_flags_keeps g : edits g -> keeps (send_flags e g) any.
Proof using He. intros Hg. unfold send_flags. eapply keeps_bind; [by apply create_packet_keeps|]. keeps. Qed.
Lemma tx_ack_keeps : keeps (tx_ack e) any.
Proof using He. apply send_flags_keeps. intros f Hf. auto with wf. Qed.
#[local] Hint Resolve tx_ack_keeps : keeps.
Lemma tx_begin_close_keeps : keeps (tx_begin_close e) any.
Proof using He. unfold tx_begin_close. eapply keeps_bind; [apply send_flags_keeps; intros f Hf; auto with wf|]. keeps. Qed.
Lemma tx_simultaneous_close_keeps : keeps (tx_simultaneous_close e) any.
Proof using He. unfold tx_simultaneous_close. keeps. Qed.
Lemma set_await_close_keeps : keeps set_await_close any.
Proof. unfold set_await_close. keeps. by apply keeps_modify. Qed.
Lemma tx_reset_keeps k : keeps (tx_reset e k) any.
Proof using He.
  unfold tx_reset. keeps; [by conn_wf|by apply blank_packet_wf|]. intros f Hf. auto 12 with wf.
Qed.
#[local] Hint Resolve tx_simultaneous_close_keeps set_await_close_keeps tx_reset_keeps : keeps.
(** Nothing has ever been marked for transmission. *)
Lemma tx_send_data_idle s : handler_wf s -> tx_send_data e s = Done (Some 0, s) \/ tx_send_data e s = Undef.
Proof. intros (_ & _ & _ & _ & _ & Ht). unfold tx_send_data, mbind, M_bind, get, lift, tx_count. destruct Ht as [-> | ->]; auto. Qed.
Lemma tx_send_data_keeps : keeps (tx_send_data e) any.
Proof. intros s r s' Hs. destruct (tx_send_data_idle s Hs) as [-> | ->]; [by intros [= <- <-]|done]. Qed.
#[local] Hint Resolve tx_send_data_keeps : keeps.

(** ** Receiving *)
Lemma rx_add_packet_keeps p : packet_wf p -> keeps (rx_add_packet p) seq32.
Proof.
  intros Hp. unfold rx_add_packet. assert (seq32 (seqno p)) by (destruct Hp; auto with wf). eapply keeps_bind; [|by keeps].
  apply keeps_modify. intros s (H1 & H2 & H3 & H4). split_and!; [done..| |done].
  cbn. destruct (recvq s !! seqno p); [done|]. by apply map_Forall_insert_2.
Qed.
Lemma rx_push_wf d f d' : packet_wf f -> session_wf d -> rx_push (env_mem e) d f = Done d' -> session_wf d'.
Proof using He.
  destruct He as (_ & _ & Hm). intros [Hf _] ((H1 & H2) & H3 & H4). unfold rx_push. destruct (_ <? 0); intros [=]; subst.
  destruct_and?. split_and!; try done; cbn.
  - apply Forall_app; split; [done|]. apply Forall_fmap, Forall_true. intros i. by apply byte_at_range.
  - rewrite length_app. lia.
Qed.
Lemma commit_one_keeps c f : conn_wf c -> packet_wf f -> keeps (commit_one e c f) any.
Proof using He.
  intros Hc Hf. unfold commit_one. eapply keeps_bind; [apply keeps_get_data|]. intros d Hd.
  eapply (keeps_bind _ _ session_wf).
  - destruct (has_data f); [|by keeps]. apply keeps_lift. intros d'. by apply rx_push_wf.
  - intros d1 Hd1. eapply keeps_bind; [by apply keeps_data|]. keeps. conn_wf.
Qed.
Lemma commit_loop_keeps fuel : keeps (commit_loop e fuel) any.
Proof using He.
  induction fuel as [|fuel IH]; cbn [commit_loop]; unfold commit_body; keeps; try by apply keeps_none.
  match goal with Hq : queue_wf ?q, E : ?q !! _ = Some _ |- _ => destruct (Hq _ _ E) end. by apply commit_one_keeps.
Qed.
#[local] Hint Resolve commit_loop_keeps : keeps.
Lemma rx_commit_keeps : keeps (rx_commit e) any.
Proof using He. unfold rx_commit. keeps. Qed.
#[local] Hint Resolve rx_commit_keeps : keeps.
Lemma rx_record_keeps p : packet_wf p ->
  keeps (if has_data p then
           k ← rx_add_packet p; q ← get recvq; f ← lift (or_undef (q !! k));
           mod_info (fun c => set_commit k (set_recv k k (u32 (k + segment_len f)) c))
         else mod_info (set_recv (seqno p) (seqno p) (u32 (seqno p + 1)))) any.
Proof.
  intros Hp. pose proof (seqno_seq32 p (proj1 Hp)). destruct (has_data p); [|keeps; conn_wf].
  eapply keeps_bind; [by apply rx_add_packet_keeps|]. intros k Hk. keeps; [by apply (keeps_lift _ any)|conn_wf].
Qed.
Lemma rx_initial_keeps p : packet_wf p -> keeps (rx_initial e p) any.
Proof using He.
  intros Hp. pose proof (get16_range p o_window (proj1 Hp)). unfold rx_initial.
  eapply keeps_bind; [apply keeps_info; intros; conn_wf|]. intros _ _.
  eapply keeps_bind; [by apply rx_record_keeps|]. intros _ _.
  eapply keeps_bind; [apply send_flags_keeps; intros f Hf; auto with wf|]. keeps.
Qed.
Lemma rx_establish_keeps p : packet_wf p -> keeps (rx_establish e p) any.
Proof using He.
  intros Hp. pose proof (get16_range p o_window (proj1 Hp)). pose proof (seqno_seq32 p (proj1 Hp)). unfold rx_establish. keeps.
  - conn_wf.
  - conn_wf.
  - eapply keeps_weaken; [by apply rx_add_packet_keeps|done].
  - apply send_flags_keeps. intros f Hf. auto with wf.
Qed.
Lemma following_keeps k : keeps (compute_following_sequence k) seq32.
Proof. unfold compute_following_sequence. keeps. auto with wf. Qed.
#[local] Hint Resolve following_keeps : keeps.
Lemma rx_accept_payload_keeps p : packet_wf p -> keeps (rx_accept_payload e p) any.
Proof using He.
  intros Hp. unfold rx_accept_payload. keeps.
  - by apply rx_add_packet_keeps.
  - conn_wf.
  - by apply (keeps_lift _ any).
  - conn_wf.
  - by apply (keeps_lift _ any).
Qed.
Lemma cleared_wf st c t n d :
  conn_wf c -> session_wf d -> handler_wf (Port st c ∅ ∅ t (reset_session d) n).
Proof.
  intros Hc (_ & _ & Hd). split_and!; [done|apply map_Forall_empty..|].
  split_and!; cbn; try done; apply Forall_nil_2.
Qed.
Lemma rx_reset_keeps : keeps (rx_reset e) any.
Proof. apply keeps_modify. intros s (_ & _ & _ & H). by apply cleared_wf. Qed.
Lemma close_keeps : keeps (close e) any.
Proof. apply keeps_modify. intros s (_ & _ & _ & H). by apply cleared_wf. Qed.
Lemma open_keeps h p lt rt : keeps (open e h p lt rt) any.
Proof. apply keeps_modify. intros s (_ & H). split; [|done]. cbn [with_info info]; unfold conn_wf; cbn [initial_send last_send current_send next_send initial_recv current_recv next_recv commit_recv peer_window]; split_and!; auto with wf; lia. Qed.
#[local] Hint Resolve rx_reset_keeps close_keeps open_keeps rx_initial_keeps rx_establish_keeps rx_accept_payload_keeps : keeps.
Lemma rx_process_keeps p : bytes p -> keeps (rx_process e p) any.
Proof using He.
  intros Hb. pose proof (get16_range p o_window Hb). unfold rx_process. destruct (Nat.ltb_spec (length p) TCP_LEN); [by apply keeps_none|].
  assert (packet_wf p) by done. unfold rx_begin_close. keeps; try conn_wf.
  apply keeps_modify. intros s Hs. by destruct (started (tmr s)).
Qed.
End operations.

(** ** Histories *)

(** The operations of the handler in a typed environment: segments of bytes, bytes
    written, a non-negative count read. *)
Inductive typed_step (e : env) : port -> port -> Prop :=
| TS_receive p s r s' : bytes p -> rx_process e p s = Done (r, s') -> typed_step e s s'
| TS_open host port lt rt s r s' : open e host port lt rt s = Done (r, s') -> typed_step e s s'
| TS_listen s : typed_step e s (with_state LISTEN s)
| TS_call s : typed_step e s (with_state SYN_SENT s)
| TS_close s r s' : close e s = Done (r, s') -> typed_step e s s'
| TS_begin_close s r s' : tx_begin_close e s = Done (r, s') -> typed_step e s s'
| TS_send_data s r s' : tx_send_data e s = Done (r, s') -> typed_step e s s'
| TS_write bs s : bytes bs -> typed_step e s (with_data (xsputn (data s) bs) s)
| TS_read n s : 0 <= n -> typed_step e s (with_data (xsgetn (data s) n).2 s).

Lemma xsputn_wf d bs : bytes bs -> session_wf d -> session_wf (xsputn d bs).
Proof.
  intros Hb ((H1 & H2) & (H3 & H4) & H5). unfold xsputn.
  match goal with |- context [if ?b then ?x else ?y] => set (g := if b then x else y) end.
  assert (Hg : bytes g /\ out_pos d + Z.of_nat (length bs) <= Z.of_nat (length g)).
  { unfold g. destruct (Z.ltb_spec (Z.of_nat (length (out_bytes d))) (out_pos d + Z.of_nat (length bs))); [|by split].
    split; [apply Forall_app; split; [done|apply Forall_replicate; lia]|]. rewrite length_app, length_replicate. lia. }
  destruct Hg as [Hg Hl]. split_and!; cbn; try done; try lia.
  - apply Forall_app; split; [by apply Forall_take|]. apply Forall_app; split; [done|by apply Forall_drop].
  - rewrite !length_app, length_take, length_drop. lia.
Qed.
Lemma xsgetn_wf d n : 0 <= n -> session_wf d -> session_wf (xsgetn d n).2.
Proof. intros Hn ((H1 & H2) & (H3 & H4) & H5). split_and!; cbn; try done; lia. Qed.

Lemma typed_step_wf e s s' : env_wf e -> typed_step e s s' -> handler_wf s -> handler_wf s'.
Proof.
  intros He Hstep Hs. pose proof Hs as (H1 & H2 & H3 & H4).
  destruct Hstep as [p s r s' Hb H|h p lt rt s r s' H| | |s r s' H|s r s' H|s r s' H|bs s Hb|n s Hn]; try done.
  - exact (proj1 (rx_process_keeps e He p Hb _ _ _ Hs H)).
  - exact (proj1 (open_keeps e h p lt rt _ _ _ Hs H)).
  - exact (proj1 (close_keeps e _ _ _ Hs H)).
  - exact (proj1 (tx_begin_close_keeps e He _ _ _ Hs H)).
  - exact (proj1 (tx_send_data_keeps e _ _ _ Hs H)).
  - split_and!; try done. by apply xsputn_wf.
  - split_and!; try done. by apply xsgetn_wf.
Qed.

(** The memory of a handler holds values of the members' types. *)
Definition uninit_wf (u : uninit) : Prop := conn_wf (raw_info u).

(** A call to host 9, its answer, and two bytes written. *)
Lemma env0_wf : env_wf env0.
Proof.
  split_and!; [|intros h m [= <-]|].
  - by apply (bool_decide_unpack _).
  - by apply (bool_decide_unpack _).
  - intros i. by split.
Qed.
Definition wrote : port := with_data (xsputn (data connected) [65; 66]) connected.
