(* ===== verification/RbTree.v ===== *)
(** The red-black tree under [std::map] and [std::set]: the balancing routines
    (lib/libk/tree_impl.cpp) and the operations of [__rb_tree]
    (include/c++/bits/stl_tree.hpp).

    The nodes live in a store of addresses.  The trunk is a node of its own: its
    parent is the root, its left and right are the first and the last node, and
    both are the trunk itself in an empty tree.  A node that an operation is about
    to link has been allocated by the caller at an address given as argument. *)
From S2P Require Import Prelude.

(** ** Nodes *)
Inductive node_color := RED | BLACK.
#[export] Instance node_color_eq_dec : EqDecision node_color.
Proof. solve_decision. Defined.
Inductive node_direction := LEFT | RIGHT.
#[export] Instance node_direction_eq_dec : EqDecision node_direction.
Proof. solve_decision. Defined.
(** [operator~] and [__opposite] *)
Definition opposite (d : node_direction) : node_direction := match d with LEFT => RIGHT | RIGHT => LEFT end.

(** The trunk holds no value. *)
Record node (V : Type) := Node { my_color : node_color; my_parent : Z; my_left : Z; my_right : Z; my_data : option V }.
Arguments Node {V}. Arguments my_color {V}. Arguments my_parent {V}. Arguments my_left {V}. Arguments my_right {V}. Arguments my_data {V}.
#[export] Instance node_eq_dec V `{EqDecision V} : EqDecision (node V).
Proof. solve_decision. Defined.

Section tree.
Context {V : Type}.
Abbreviation heap := (gmap Z (node V)).

Definition next_of (n : node V) (d : node_direction) : Z := match d with RIGHT => my_right n | LEFT => my_left n end.
Definition set_next (d : node_direction) (p : Z) (n : node V) : node V :=
  match d with
  | RIGHT => Node (my_color n) (my_parent n) (my_left n) p (my_data n)
  | LEFT => Node (my_color n) (my_parent n) p (my_right n) (my_data n)
  end.
Definition set_parent (p : Z) (n : node V) : node V := Node (my_color n) p (my_left n) (my_right n) (my_data n).
Definition set_color (c : node_color) (n : node V) : node V := Node c (my_parent n) (my_left n) (my_right n) (my_data n).

Definition deref (h : heap) (p : Z) : outcome (node V) := or_undef (h !! p).
Definition upd (h : heap) (p : Z) (f : node V -> node V) : outcome heap := n ← deref h p; Done (<[p := f n]> h).
Definition next (h : heap) (p : Z) (d : node_direction) : outcome Z := n ← deref h p; Done (next_of n d).
Definition parent (h : heap) (p : Z) : outcome Z := n ← deref h p; Done (my_parent n).

(** ** tree_impl.cpp *)
Fixpoint min_from (fuel : nat) (h : heap) (x : Z) : outcome Z :=
  match fuel with
  | O => NoFuel
  | S fuel => l ← next h x LEFT; if l =? 0 then Done x else min_from fuel h l
  end.
Fixpoint max_from (fuel : nat) (h : heap) (x : Z) : outcome Z :=
  match fuel with
  | O => NoFuel
  | S fuel => r ← next h x RIGHT; if r =? 0 then Done x else max_from fuel h r
  end.
Definition node_fuel (h : heap) : nat := S (size h).
Definition node_min (h : heap) (x : Z) : outcome Z := min_from (node_fuel h) h x.
Definition node_max (h : heap) (x : Z) : outcome Z := max_from (node_fuel h) h x.

Definition is_black (h : heap) (n : Z) : outcome bool :=
  if n =? 0 then Done true else m ← deref h n; Done (bool_decide (my_color m = BLACK)).
Definition double_black (h : heap) (w : Z) (d : node_direction) : outcome bool := n ← next h w d; is_black h n.

Section trunk.
Context (trunk : Z).

Definition rotate (h : heap) (x : Z) (d : node_direction) : outcome heap :=
  let od := opposite d in
  y ← next h x od;
  b ← next h y d;
  h1 ← upd h x (set_next od b);
  n ← next h1 y d;
  h2 ← (if n =? 0 then Done h1 else upd h1 n (set_parent x));
  px ← parent h2 x;
  h3 ← upd h2 y (set_parent px);
  root ← parent h3 trunk;
  h4 ← (if x =? root then upd h3 trunk (set_parent y)
        else
          q ← parent h3 x;
          c ← next h3 q d;
          if x =? c then upd h3 q (set_next d y) else upd h3 q (set_next od y));
  h5 ← upd h4 y (set_next d x);
  upd h5 x (set_parent y).

Definition insertion_rebalance (h : heap) (x : Z) : outcome (Z * heap) :=
  p ← parent h x;
  w ← parent h p;
  wl ← next h w LEFT;
  y ← next h w (if p =? wl then RIGHT else LEFT);
  z ← next h p (if p =? wl then RIGHT else LEFT);
  yb ← is_black h y;
  if negb yb then
    h1 ← upd h p (set_color BLACK);
    h2 ← upd h1 y (set_color BLACK);
    h3 ← upd h2 w (set_color RED);
    Done (w, h3)
  else
    let d := if p =? wl then RIGHT else LEFT in
    '(x1, h1) ← (if x =? z then h' ← rotate h p (opposite d); Done (p, h') else Done (x, h));
    p1 ← parent h1 x1;
    h2 ← upd h1 p1 (set_color BLACK);
    h3 ← upd h2 w (set_color RED);
    h4 ← rotate h3 w d;
    Done (x1, h4).

Fixpoint rebalance_loop (fuel : nat) (h : heap) (x : Z) : outcome heap :=
  match fuel with
  | O => NoFuel
  | S fuel =>
      root ← parent h trunk;
      if x =? root then Done h else
      p ← parent h x;
      n ← deref h p;
      if bool_decide (my_color n = RED) then '(x1, h1) ← insertion_rebalance h x; rebalance_loop fuel h1 x1 else Done h
  end.

Definition insert_and_rebalance (d : node_direction) (h : heap) (x p : Z) : outcome heap :=
  h1 ← upd h x (fun n => Node RED p 0 0 (my_data n));
  h2 ← (if p =? trunk then upd h1 p (fun n => Node (my_color n) x x x (my_data n))
        else
          h' ← upd h1 p (set_next d x);
          e ← next h' trunk d;
          if p =? e then upd h' trunk (set_next d x) else Done h');
  h3 ← rebalance_loop (node_fuel h2) h2 x;
  root ← parent h3 trunk;
  upd h3 root (set_color BLACK).

(** Returns the flag, [x], [x_parent] and the store. *)
Definition fix_double_black (h : heap) (x x_parent : Z) (d : node_direction) : outcome (bool * Z * Z * heap) :=
  let od := opposite d in
  w ← next h x_parent d;
  n ← deref h w;
  '(w1, h1) ← (if bool_decide (my_color n = RED) then
                 h1 ← upd h w (set_color BLACK);
                 h2 ← upd h1 x_parent (set_color RED);
                 h3 ← rotate h2 x od;
                 w' ← next h3 x_parent d;
                 Done (w', h3)
               else Done (w, h));
  bl ← double_black h1 w1 LEFT;
  br ← (if bl : bool then double_black h1 w1 RIGHT else Done false);
  if bl && br then
    h2 ← upd h1 w1 (set_color RED);
    q ← parent h2 x_parent;
    Done (false, x_parent, q, h2)
  else
    bd ← double_black h1 w1 d;
    '(w2, h2) ← (if bd : bool then
                   o ← next h1 w1 od;
                   h' ← upd h1 o (set_color BLACK);
                   h'' ← upd h' w1 (set_color RED);
                   h''' ← rotate h'' w1 d;
                   w' ← next h''' x_parent d;
                   Done (w', h''')
                 else Done (w1, h1));
    xp ← deref h2 x_parent;
    h3 ← upd h2 w2 (set_color (my_color xp));
    h4 ← upd h3 x_parent (set_color BLACK);
    f ← next h4 w2 d;
    if f =? 0 then Done (false, x, x_parent, h4) else
    h5 ← upd h4 f (set_color BLACK);
    h6 ← rotate h5 x_parent od;
    Done (true, x, x_parent, h6).

Fixpoint erase_loop (fuel : nat) (h : heap) (x x_parent : Z) : outcome heap :=
  match fuel with
  | O => NoFuel
  | S fuel =>
      root ← parent h trunk;
      if x =? root then Done h else
      b ← is_black h x;
      if negb b then Done h else
      l ← next h x_parent LEFT;
      '(stop, x1, xp1, h1) ← fix_double_black h x x_parent (if x =? l then RIGHT else LEFT);
      if stop : bool then Done h1 else
      h2 ← (if x1 =? 0 then Done h1 else upd h1 x1 (set_color BLACK));
      erase_loop fuel h2 x1 xp1
  end.

(** [y] is initialised with [z] and never assigned before the test [y != z], so
    the second branch of the source's conditional is the one taken.  Nothing bounds
    the loop; [fuel] does. *)
Definition rebalance_for_erase (fuel : nat) (h : heap) (z : Z) : outcome (Z * heap) :=
  l ← next h z LEFT;
  r ← next h z RIGHT;
  x ← (if l =? 0 then Done r else if r =? 0 then Done l else m ← node_min h r; next h m RIGHT);
  x_parent ← parent h z;
  root ← parent h trunk;
  h1 ← (if root =? z then upd h trunk (set_parent x)
        else
          pl ← next h x_parent LEFT;
          if z =? pl then upd h x_parent (set_next LEFT x) else upd h x_parent (set_next RIGHT x));
  leftmost ← next h1 trunk LEFT;
  h2 ← (if z =? leftmost then
          r1 ← next h1 z RIGHT;
          lm ← (if r1 =? 0 then parent h1 z else node_min h1 x);
          upd h1 trunk (set_next LEFT lm)
        else Done h1);
  rightmost ← next h2 trunk RIGHT;
  h3 ← (if z =? rightmost then
          l1 ← next h2 z LEFT;
          rm ← (if l1 =? 0 then node_max h2 z else parent h2 z);
          upd h2 trunk (set_next RIGHT rm)
        else Done h2);
  zn ← deref h3 z;
  h4 ← (if bool_decide (my_color zn = RED) then Done h3 else erase_loop fuel h3 x x_parent);
  root1 ← parent h4 trunk;
  h5 ← upd h4 root1 (set_color BLACK);
  Done (z, h5).

(** ** stl_tree.hpp: moving between nodes *)
Fixpoint climb (fuel : nat) (h : heap) (x y : Z) (d : node_direction) : outcome (Z * Z) :=
  match fuel with
  | O => NoFuel
  | S fuel => c ← next h y d; if x =? c then y1 ← parent h y; climb fuel h y y1 d else Done (x, y)
  end.
Definition increment_node (h : heap) (x : Z) : outcome Z :=
  r ← next h x RIGHT;
  if negb (r =? 0) then node_min h r else
  y ← parent h x;
  '(x1, y1) ← climb (S (node_fuel h)) h x y RIGHT;
  r1 ← next h x1 RIGHT;
  Done (if negb (r1 =? y1) then y1 else x1).
Definition decrement_node (h : heap) (x : Z) : outcome Z :=
  n ← deref h x;
  top ← (if bool_decide (my_color n = RED) then q ← parent h (my_parent n); Done (q =? x) else Done false);
  if top : bool then Done (my_right n) else
  if negb (my_left n =? 0) then node_max h (my_left n) else
  '(_, y1) ← climb (S (node_fuel h)) h x (my_parent n) LEFT;
  Done y1.

(** ** stl_tree.hpp: [__rb_tree] *)
Record rb_tree := Tree { nodes : heap; count : Z }.
Definition with_nodes (t : rb_tree) (h : heap) : rb_tree := Tree h (count t).

Context (lt : V -> V -> bool).
Definition value (h : heap) (p : Z) : outcome V := n ← deref h p; or_undef (my_data n).
Definition compare_r (h : heap) (p : Z) (u : V) : outcome bool := v ← value h p; Done (lt v u).
Definition compare_l (h : heap) (u : V) (p : Z) : outcome bool := v ← value h p; Done (lt u v).

(** The constructor and [__reset]. *)
Definition trunk_node : node V := Node RED 0 trunk trunk None.
Definition empty_tree : rb_tree := Tree {[ trunk := trunk_node ]} 0.
Definition construct_node (t : rb_tree) (l : Z) (u : V) : rb_tree := with_nodes t (<[l := Node RED 0 0 0 (Some u)]> (nodes t)).
Definition destroy_node (t : rb_tree) (n : Z) : rb_tree := if n =? 0 then t else with_nodes t (delete n (nodes t)).

Definition insert_node (t : rb_tree) (x p l : Z) : outcome (Z * rb_tree) :=
  left ← (if negb (x =? 0) || (p =? trunk) then Done true else u ← value (nodes t) l; compare_l (nodes t) u p);
  h ← insert_and_rebalance (if left : bool then LEFT else RIGHT) (nodes t) l p;
  Done (l, Tree h (u64 (count t + 1))).

Definition erase_node (fuel : nat) (t : rb_tree) (n : Z) : outcome (Z * rb_tree) :=
  '(y, h) ← rebalance_for_erase fuel (nodes t) n;
  result ← increment_node h y;
  let t1 := destroy_node (with_nodes t h) y in
  Done (result, Tree (nodes t1) (u64 (count t1 - 1))).

Fixpoint lower_from (fuel : nat) (h : heap) (x y : Z) (u : V) : outcome Z :=
  if x =? 0 then Done y else
  match fuel with
  | O => NoFuel
  | S fuel =>
      b ← compare_r h x u;
      if negb b then l ← next h x LEFT; lower_from fuel h l x u else r ← next h x RIGHT; lower_from fuel h r y u
  end.
Definition lower_bound (t : rb_tree) (x y : Z) (u : V) : outcome Z := lower_from (node_fuel (nodes t)) (nodes t) x y u.
Fixpoint upper_from (fuel : nat) (h : heap) (x y : Z) (u : V) : outcome Z :=
  if x =? 0 then Done y else
  match fuel with
  | O => NoFuel
  | S fuel =>
      b ← compare_l h u x;
      if b : bool then l ← next h x LEFT; upper_from fuel h l x u else r ← next h x RIGHT; upper_from fuel h r y u
  end.
Definition upper_bound (t : rb_tree) (x y : Z) (u : V) : outcome Z := upper_from (node_fuel (nodes t)) (nodes t) x y u.

Definition find_node (t : rb_tree) (u : V) : outcome Z :=
  root ← parent (nodes t) trunk;
  result ← lower_bound t root trunk u;
  if result =? trunk then Done result else
  b ← compare_l (nodes t) u result;
  Done (if b : bool then trunk else result).
Definition contains (t : rb_tree) (u : V) : outcome bool := p ← find_node t u; Done (negb (p =? trunk)).

(** The descent of [__pos_for_unique]: the last node visited and the last comparison. *)
Fixpoint descend (fuel : nat) (h : heap) (x y : Z) (comp : bool) (u : V) : outcome (Z * bool) :=
  if x =? 0 then Done (y, comp) else
  match fuel with
  | O => NoFuel
  | S fuel =>
      b ← compare_l h u x;
      n ← next h x (if b : bool then LEFT else RIGHT);
      descend fuel h n x b u
  end.
(** [(x, y)]: the child position (always null here) and the parent, or the equal node and null. *)
Definition pos_for_unique (t : rb_tree) (u : V) : outcome (Z * Z) :=
  let h := nodes t in
  root ← parent h trunk;
  '(y, comp) ← descend (node_fuel h) h root trunk true u;
  begin ← next h trunk LEFT;
  if comp && (y =? begin) then Done (0, y) else
  j ← (if comp : bool then decrement_node h y else Done y);
  b ← compare_r h j u;
  Done (if b : bool then (0, y) else (j, 0)).

Fixpoint descend_equal (fuel : nat) (h : heap) (x y : Z) (u : V) : outcome Z :=
  if x =? 0 then Done y else
  match fuel with
  | O => NoFuel
  | S fuel => b ← compare_r h x u; n ← next h x (if negb b then LEFT else RIGHT); descend_equal fuel h n x u
  end.
Definition pos_for_equal (t : rb_tree) (u : V) : outcome (Z * Z) :=
  root ← parent (nodes t) trunk;
  y ← descend_equal (node_fuel (nodes t)) (nodes t) root trunk u;
  Done (0, y).

Definition insert_unique_hint_pos (t : rb_tree) (hint : Z) (u : V) : outcome (Z * Z) :=
  let h := nodes t in
  tn ← deref h trunk;
  if (hint =? 0) || (hint =? trunk) then
    b ← (if 0 <? count t then compare_r h (my_right tn) u else Done false);
    if b : bool then Done (0, my_right tn) else pos_for_unique t u
  else
    less ← compare_l h u hint;
    if less : bool then
      before ← decrement_node h hint;
      if hint =? my_left tn then Done (my_left tn, my_left tn) else
      b ← compare_r h before u;
      if b : bool then r ← next h before RIGHT; Done (if r =? 0 then (0, before) else (hint, hint)) else pos_for_unique t u
    else
      greater ← compare_r h hint u;
      if greater : bool then
        after ← increment_node h hint;
        if hint =? my_right tn then Done (0, my_right tn) else
        b ← compare_l h u after;
        if b : bool then r ← next h hint RIGHT; Done (if r =? 0 then (0, hint) else (after, after)) else pos_for_unique t u
      else Done (hint, 0).

(** Insertions, with the address [l] of the node the allocator returns. *)
Definition place (t : rb_tree) (pos : Z * Z) (l : Z) (u : V) : outcome (Z * bool * rb_tree) :=
  if negb (pos.2 =? 0) then '(n, t1) ← insert_node (construct_node t l u) pos.1 pos.2 l; Done (n, true, t1)
  else Done (pos.1, false, t).
Definition insert_unique (t : rb_tree) (l : Z) (u : V) : outcome (Z * bool * rb_tree) :=
  pos ← insert_unique_hint_pos t 0 u; place t pos l u.
Definition hint_insert_unique (t : rb_tree) (hint l : Z) (u : V) : outcome (Z * rb_tree) :=
  pos ← insert_unique_hint_pos t hint u; '(n, _, t1) ← place t pos l u; Done (n, t1).
(** The emplacing forms construct the node first and destroy it when it is not linked. *)
Definition place_node (t : rb_tree) (pos : Z * Z) (l : Z) : outcome (Z * bool * rb_tree) :=
  if negb (pos.2 =? 0) then '(n, t1) ← insert_node t pos.1 pos.2 l; Done (n, true, t1)
  else Done (pos.1, false, destroy_node t l).
Definition emplace_unique (t : rb_tree) (l : Z) (u : V) : outcome (Z * bool * rb_tree) :=
  let t1 := construct_node t l u in
  pos ← pos_for_unique t1 u; place_node t1 pos l.
Definition hint_emplace_unique (t : rb_tree) (hint l : Z) (u : V) : outcome (Z * bool * rb_tree) :=
  let t1 := construct_node t l u in
  pos ← insert_unique_hint_pos t1 hint u; place_node t1 pos l.
Definition insert_equal (t : rb_tree) (l : Z) (u : V) : outcome (Z * rb_tree) :=
  pos ← pos_for_equal t u; insert_node (construct_node t l u) pos.1 pos.2 l.
Definition insert_lower (t : rb_tree) (p l : Z) (u : V) : outcome (Z * rb_tree) :=
  left ← (if p =? trunk then Done true else compare_l (nodes t) u p);
  let t1 := construct_node t l u in
  h ← insert_and_rebalance (if left : bool then LEFT else RIGHT) (nodes t1) l p;
  Done (l, Tree h (u64 (count t1 + 1))).
Definition insert_lower_equal (t : rb_tree) (l : Z) (u : V) : outcome (Z * rb_tree) :=
  root ← parent (nodes t) trunk;
  y ← descend_equal (node_fuel (nodes t)) (nodes t) root trunk u;
  insert_lower t y l u.

(** [__recursive_destroy]: the right subtree by recursion, then on to the left child. *)
Fixpoint recursive_destroy (fuel : nat) (t : rb_tree) (n : Z) : outcome rb_tree :=
  if n =? 0 then Done t else
  match fuel with
  | O => NoFuel
  | S fuel =>
      r ← next (nodes t) n RIGHT;
      t1 ← recursive_destroy fuel t r;
      m ← next (nodes t1) n LEFT;
      recursive_destroy fuel (destroy_node t1 n) m
  end.
Definition clear (t : rb_tree) : outcome rb_tree :=
  root ← parent (nodes t) trunk;
  t1 ← recursive_destroy (node_fuel (nodes t)) t root;
  h ← upd (nodes t1) trunk (fun _ => trunk_node);
  Done (Tree h 0).
End trunk.

(** ** Two trunks: copying and moving the tree's head *)
Definition on_assign (h : heap) (trunk : Z) : outcome heap :=
  r ← parent h trunk; if r =? 0 then Done h else upd h r (set_parent trunk).
Definition trunk_assign (h : heap) (this that : Z) : outcome heap :=
  n ← deref h that; on_assign (<[this := n]> h) this.
Definition trunk_move (h : heap) (this that : Z) : outcome heap :=
  h1 ← trunk_assign h this that; upd h1 that (fun _ => trunk_node that).
(** [__move_assign] of one tree to another in the same store: the trees' counts are returned last. *)
Definition move_assign (h : heap) (this that this_count that_count : Z) : outcome (heap * Z * Z) :=
  t ← clear this (Tree h this_count);
  h1 ← trunk_move (nodes t) this that;
  Done (h1, count t, that_count).
End tree.
