(* ===== verification/RbShape.v ===== *)
(** The shape of a red-black tree in the store: abstract trees, their contexts (the
    path from a node to the trunk), what it means that a store holds a tree, and
    rotation. *)
From S2P Require Import Prelude RbTree.

(** ** Abstract trees *)
Section shape.
Context {V : Type}.
Abbreviation heap := (gmap Z (node V)).

Inductive tree :=
| E
| T (c : node_color) (l : tree) (p : Z) (v : V) (r : tree).
(** The side [d] of the parent [p] on which the focus hangs, and the sibling. *)
Inductive frame := F (d : node_direction) (c : node_color) (p : Z) (v : V) (s : tree).
Definition ctx := list frame.

Definition root (t : tree) : Z := match t with E => 0 | T _ _ p _ _ => p end.
(** The nodes in order, with their values. *)
Fixpoint elems (t : tree) : list (Z * V) :=
  match t with E => [] | T _ l p v r => elems l ++ (p, v) :: elems r end.
Definition addrs (t : tree) : list Z := fst <$> elems t.
(** A node with [a] on side [d] and [b] on the other. *)
Definition Td (d : node_direction) (c : node_color) (a : tree) (p : Z) (v : V) (b : tree) : tree :=
  match d with LEFT => T c a p v b | RIGHT => T c b p v a end.
Definition nd (d : node_direction) (c : node_color) (par near far : Z) (v : V) : node V :=
  match d with LEFT => Node c par near far (Some v) | RIGHT => Node c par far near (Some v) end.
Fixpoint plug (t : tree) (k : ctx) : tree :=
  match k with [] => t | F d c p v s :: k => plug (Td d c t p v s) k end.
(** What lies before and after the focus. *)
Fixpoint before (k : ctx) : list (Z * V) :=
  match k with
  | [] => []
  | F LEFT c p v s :: k => before k
  | F RIGHT c p v s :: k => before k ++ elems s ++ [(p, v)]
  end.
Fixpoint after (k : ctx) : list (Z * V) :=
  match k with
  | [] => []
  | F LEFT c p v s :: k => (p, v) :: elems s ++ after k
  | F RIGHT c p v s :: k => after k
  end.

Lemma elems_plug t k : elems (plug t k) = before k ++ elems t ++ after k.
Proof.
  revert t. induction k as [|[[] c p v s] k IH]; intros t; cbn [plug before after Td]; [by rewrite app_nil_r|..];
    rewrite IH; cbn [elems]; by rewrite <- ?app_assoc; cbn; rewrite <- ?app_assoc.
Qed.

(** ** What the store holds *)
Fixpoint repr (h : heap) (par : Z) (t : tree) : Prop :=
  match t with
  | E => True
  | T c l p v r => h !! p = Some (Node c par (root l) (root r) (Some v)) /\ repr h p l /\ repr h p r
  end.

Context (trunk : Z).
Definition top (k : ctx) : Z := match k with [] => trunk | F _ _ p _ _ :: _ => p end.
(** The nodes above a focus at address [f]; [lm] and [rm] are the trunk's first and last node. *)
Fixpoint repr_ctx (h : heap) (f lm rm : Z) (k : ctx) : Prop :=
  match k with
  | [] => h !! trunk = Some (Node RED f lm rm None)
  | F d c p v s :: k => h !! p = Some (nd d c (top k) f (root s) v) /\ repr h p s /\ repr_ctx h p lm rm k
  end.
Fixpoint ctx_addrs (k : ctx) : list Z :=
  match k with [] => [] | F d c p v s :: k => p :: addrs s ++ ctx_addrs k end.
Record holds (h : heap) (t : tree) (k : ctx) (lm rm : Z) : Prop := {
  holds_tree : repr h (top k) t;
  holds_ctx : repr_ctx h (root t) lm rm k;
  holds_nodup : NoDup (trunk :: addrs t ++ ctx_addrs k);
  holds_nonzero : 0 ∉ trunk :: addrs t ++ ctx_addrs k }.

(** ** Lemmas on the shape *)
Lemma addrs_T c l p v r : addrs (T c l p v r) = addrs l ++ p :: addrs r.
Proof. unfold addrs. cbn. by rewrite fmap_app. Qed.
Lemma addrs_Td d c a p v b : addrs (Td d c a p v b) ≡ₚ p :: addrs a ++ addrs b.
Proof. destruct d; cbn [Td]; rewrite addrs_T; solve_Permutation. Qed.
Lemma elem_of_Td x d c a p v b : x ∈ addrs (Td d c a p v b) <-> x = p \/ x ∈ addrs a \/ x ∈ addrs b.
Proof. rewrite addrs_Td, elem_of_cons, elem_of_app. done. Qed.
Lemma elem_of_T x c a p v b : x ∈ addrs (T c a p v b) <-> x = p \/ x ∈ addrs a \/ x ∈ addrs b.
Proof. apply (elem_of_Td x LEFT). Qed.
Lemma root_Td d c a p v b : root (Td d c a p v b) = p.
Proof. by destruct d. Qed.
Lemma root_in t : t <> E -> root t ∈ addrs t.
Proof. destruct t; [done|]. intros _. rewrite addrs_T. set_solver. Qed.
Lemma root_zero t : 0 ∉ addrs t -> root t = 0 -> t = E.
Proof. destruct t; [done|]. rewrite addrs_T. cbn. intros H ->. set_solver. Qed.
Lemma root_or t : root t = 0 \/ root t ∈ addrs t.
Proof. destruct t; [by left|]. right. by apply root_in. Qed.
Lemma repr_Td h par d c a p v b :
  repr h par (Td d c a p v b) <-> h !! p = Some (nd d c par (root a) (root b) v) /\ repr h p a /\ repr h p b.
Proof. destruct d; cbn; tauto. Qed.

Lemma repr_frame h h' par t : (forall a, a ∈ addrs t -> h' !! a = h !! a) -> repr h par t -> repr h' par t.
Proof.
  revert par. induction t as [|c l IHl p v r IHr]; intros par Ha; cbn [repr]; [done|]. rewrite addrs_T in Ha.
  intros (H1 & H2 & H3). split_and!; [rewrite Ha by set_solver; done|apply IHl|apply IHr]; try done; intros; apply Ha; set_solver.
Qed.
Lemma repr_ctx_frame h h' f lm rm k :
  (forall a, a = trunk \/ a ∈ ctx_addrs k -> h' !! a = h !! a) -> repr_ctx h f lm rm k -> repr_ctx h' f lm rm k.
Proof.
  revert f. induction k as [|[d c p v s] k IH]; intros f Ha; cbn [repr_ctx ctx_addrs] in *; [rewrite Ha; auto|].
  intros (H1 & H2 & H3). split_and!; [rewrite Ha by set_solver; done|eapply repr_frame; [|done]; intros; apply Ha; set_solver|].
  apply IH; [|done]. intros a Hin. apply Ha. set_solver.
Qed.

(** Moving the focus. *)
Lemma holds_up h t d c p v s k lm rm : holds h t (F d c p v s :: k) lm rm <-> holds h (Td d c t p v s) k lm rm.
Proof.
  assert (Hp : trunk :: addrs t ++ ctx_addrs (F d c p v s :: k) ≡ₚ trunk :: addrs (Td d c t p v s) ++ ctx_addrs k).
  { rewrite addrs_Td. cbn. solve_Permutation. }
  split; intros [H1 H2 H3 H4].
  - cbn [repr_ctx top] in *. destruct H2 as (H5 & H6 & H7). split; rewrite <- ?Hp; try done.
    + by apply repr_Td.
    + by rewrite root_Td.
  - apply repr_Td in H1 as (H5 & H6 & H7). rewrite root_Td in H2. split; rewrite ?Hp; try done.
Qed.
Lemma holds_plug h t k lm rm : holds h t k lm rm <-> holds h (plug t k) [] lm rm.
Proof. revert t. induction k as [|[d c p v s] k IH]; intros t; cbn [plug]; [done|]. by rewrite holds_up, IH. Qed.

(** The trunk and the root, seen from any focus. *)
Fixpoint base (f : Z) (k : ctx) : Z := match k with [] => f | F _ _ p _ _ :: k => base p k end.
Lemma repr_ctx_trunk h f lm rm k : repr_ctx h f lm rm k -> h !! trunk = Some (Node RED (base f k) lm rm None).
Proof. revert f. induction k as [|[d c p v s] k IH]; intros f; cbn; [done|]. intros (_ & _ & H). by apply IH. Qed.
Lemma base_cons f fr k : base f (fr :: k) ∈ ctx_addrs (fr :: k).
Proof.
  destruct fr as [d c p v s]. cbn [base ctx_addrs]. revert d c p v s. induction k as [|[d' c' p' v' s'] k IH]; intros d c p v s; cbn [base].
  - set_solver.
  - specialize (IH d' c' p' v' s'). cbn [ctx_addrs]. set_solver.
Qed.
Lemma base_eq f k : f ∉ ctx_addrs k -> f = base f k -> k = [].
Proof. destruct k as [|fr k]; [done|]. intros Hn Heq. pose proof (base_cons f fr k). congruence. Qed.

(** Replacing the focus changes one link above it. *)
Definition set_focus (k : ctx) (f : Z) (n : node V) : node V :=
  match k with [] => set_parent f n | F d _ _ _ _ :: _ => set_next d f n end.
Lemma repr_ctx_refocus h f f' lm rm k :
  repr_ctx h f lm rm k -> NoDup (trunk :: ctx_addrs k) ->
  exists n, h !! top k = Some n /\
    forall h', h' !! top k = Some (set_focus k f' n) ->
      (forall a, a ∈ trunk :: ctx_addrs k -> a <> top k -> h' !! a = h !! a) -> repr_ctx h' f' lm rm k.
Proof.
  destruct k as [|[d c p v s] k]; cbn [repr_ctx top set_focus ctx_addrs].
  - intros Ht _. eexists. split; [done|]. by intros h' ->.
  - intros (H1 & H2 & H3) Hnd. rewrite !NoDup_cons, NoDup_app in Hnd. destruct Hnd as (Hn1 & Hn2 & Hn3 & Hn4 & Hn5).
    eexists. split; [done|]. intros h' Hp Ha. split_and!; [rewrite Hp; by destruct d|..].
    + eapply repr_frame; [|done]. intros a Hin. apply Ha; set_solver.
    + eapply repr_ctx_frame; [|done]. intros a Hin. apply Ha; set_solver.
Qed.

(** ** Rotation *)

(** A node of known content, read and written. *)
Lemma deref_eq (h : heap) p n : h !! p = Some n -> deref h p = Done n.
Proof. unfold deref. by intros ->. Qed.
Lemma next_eq (h : heap) p n d : h !! p = Some n -> next h p d = Done (next_of n d).
Proof. unfold next. intros H. by rewrite (deref_eq h p n H). Qed.
Lemma parent_eq (h : heap) p n : h !! p = Some n -> parent h p = Done (my_parent n).
Proof. unfold parent. intros H. by rewrite (deref_eq h p n H). Qed.
Lemma upd_eq (h : heap) p n f : h !! p = Some n -> upd h p f = Done (<[p := f n]> h).
Proof. unfold upd. intros H. by rewrite (deref_eq h p n H). Qed.

Lemma next_nd d c par a b v : next_of (nd d c par a b v) d = a.
Proof. by destruct d. Qed.
Lemma next_nd_opp d c par a b v : next_of (nd d c par a b v) (opposite d) = b.
Proof. by destruct d. Qed.
Lemma parent_nd d c par a b v : my_parent (nd d c par a b v) = par.
Proof. by destruct d. Qed.
Lemma color_nd d c par a b v : my_color (nd d c par a b v) = c.
Proof. by destruct d. Qed.
Lemma set_next_nd d c par a b v a' : set_next d a' (nd d c par a b v) = nd d c par a' b v.
Proof. by destruct d. Qed.
Lemma set_next_nd_opp d c par a b v b' : set_next (opposite d) b' (nd d c par a b v) = nd d c par a b' v.
Proof. by destruct d. Qed.
Lemma set_parent_nd d c par a b v par' : set_parent par' (nd d c par a b v) = nd d c par' a b v.
Proof. by destruct d. Qed.
Lemma set_color_nd d c par a b v c' : set_color c' (nd d c par a b v) = nd d c' par a b v.
Proof. by destruct d. Qed.
Lemma opposite_opposite d : opposite (opposite d) = d.
Proof. by destruct d. Qed.
Lemma nd_opposite d c par a b v : nd (opposite d) c par a b v = nd d c par b a v.
Proof. by destruct d. Qed.
Lemma Td_opposite d c a p v b : Td (opposite d) c a p v b = Td d c b p v a.
Proof. by destruct d. Qed.
End shape.

Create Rewrite HintDb rbnode.
#[export] Hint Rewrite @next_nd @next_nd_opp @parent_nd @color_nd @set_next_nd @set_next_nd_opp @set_parent_nd @set_color_nd
  opposite_opposite : rbnode.
