(* ===== verification/RbInsert.v ===== *)
(** Insertion into the red-black tree: rotation and rebalancing on the store refine
    rotation and rebalancing of abstract trees, which keep the order of the elements
    and restore the balance. *)
From S2P Require Import Prelude RbTree RbShape.

(** Lookups through a stack of updates. *)
Ltac lk := repeat first [rewrite lookup_insert_eq|rewrite lookup_insert_ne by congruence]; try eassumption; try reflexivity.
Ltac run := repeat first
  [ erewrite next_eq by lk | erewrite parent_eq by lk | erewrite upd_eq by lk | erewrite deref_eq by lk ];
  cbn [mbind outcome_bind].

Section insertion.
Context {V : Type} (trunk : Z).
Abbreviation heap := (gmap Z (node V)).
Abbreviation holds := (holds (V := V) trunk).

Lemma Permutation_NoDup_impl {A} (l l' : list A) : l ≡ₚ l' -> NoDup l -> NoDup l'.
Proof. by intros ->. Qed.
(** The inequalities between addresses that a rotation relies on. *)
Lemma rotation_addrs d d' cx (A : tree (V := V)) x vx cy B y vy C (k : ctx (V := V)) :
  NoDup (trunk :: addrs (Td d cx A x vx (Td d' cy B y vy C)) ++ ctx_addrs k) ->
  x <> y /\ x <> trunk /\ y <> trunk /\ x ∉ ctx_addrs k /\ y ∉ ctx_addrs k /\
  (x ∉ addrs A /\ x ∉ addrs B /\ x ∉ addrs C) /\ (y ∉ addrs A /\ y ∉ addrs B /\ y ∉ addrs C) /\
  (trunk ∉ addrs A /\ trunk ∉ addrs B /\ trunk ∉ addrs C) /\ NoDup (trunk :: ctx_addrs k) /\
  (forall a, a ∈ ctx_addrs k -> a ∉ addrs A /\ a ∉ addrs B /\ a ∉ addrs C) /\
  (forall a, a ∈ addrs B -> a ∉ addrs A /\ a ∉ addrs C) /\ NoDup (addrs B).
Proof.
  intros Hnd. assert (Hp : NoDup (trunk :: x :: y :: (addrs B ++ addrs A ++ addrs C) ++ ctx_addrs k)).
  { rewrite !addrs_Td in Hnd. revert Hnd. apply Permutation_NoDup_impl. solve_Permutation. }
  clear Hnd. rewrite !NoDup_cons, !not_elem_of_cons, !not_elem_of_app, NoDup_app in Hp.
  destruct Hp as ((H1 & H2 & (H3 & H4 & H5) & H6) & (H7 & (H8 & H9 & H10) & H11) & ((H12 & H13 & H14) & H15) & (H16 & H17 & H18)).
  rewrite NoDup_app in H16. destruct H16 as (H19 & H20 & _). split_and!; auto.
  - by apply NoDup_cons.
  - intros a Ha. assert (a ∉ addrs B ++ addrs A ++ addrs C) by (intros H; by apply (H17 a H)). rewrite !not_elem_of_app in *. tauto.
  - intros a Ha. specialize (H20 a Ha). by rewrite not_elem_of_app in H20.
Qed.

Lemma top_in k : top trunk k = trunk \/ top trunk k ∈ ctx_addrs (V := V) k.
Proof. destruct k as [|[]]; [by left|]. right. set_solver. Qed.

Lemma set_focus_cons d c p v s k (f : Z) n : set_focus (V := V) (F d c p v s :: k) f n = set_next d f n.
Proof. done. Qed.

(** The heap after a rotation, node by node. *)
Lemma rotate_heap (h : heap) d cx A x vx cy B y vy C (k : ctx (V := V)) lm rm nt :
  holds h (Td d cx A x vx (Td d cy B y vy C)) k lm rm -> h !! top trunk k = Some nt ->
  exists h', rotate trunk h x d = Done h' /\
    h' !! x = Some (nd d cx y (root A) (root B) vx) /\
    h' !! y = Some (nd d cy (top trunk k) x (root C) vy) /\
    (forall n, h !! root B = Some n -> root B <> 0 -> h' !! root B = Some (set_parent x n)) /\
    h' !! top trunk k = Some (set_focus k y nt) /\
    forall a, a <> x -> a <> y -> (root B <> 0 -> a <> root B) -> a <> top trunk k -> h' !! a = h !! a.
Proof.
  intros [H1 H2 H3 H4] Hnt. apply rotation_addrs in H3 as (Hxy & Hxt & Hyt & Hxk & Hyk & Hx & Hy & Ht & Hnd & Hk & HB & HNB).
  apply repr_Td in H1 as (Hx1 & _ & H1). apply repr_Td in H1 as (Hy1 & HrB & _). rewrite root_Td in Hx1, H2.
  pose proof (repr_ctx_trunk _ _ _ _ _ _ H2) as Htr.
  assert (Htx : top trunk k <> x /\ top trunk k <> y).
  { destruct (top_in k) as [->|Hin]; [done|]. split; intros E; rewrite E in Hin; done. }
  destruct Htx as [Htx Hty].
  assert (HBn : root B = 0 \/ (root B <> 0 /\ exists n, h !! root B = Some n /\ root B <> x /\ root B <> y /\ root B <> trunk /\ root B <> top trunk k)).
  { destruct B as [|cb lb b vb rb]; [by left|]. cbn [root]. right.
    assert (Hb : b ∈ addrs (T cb lb b vb rb)) by (apply elem_of_T; by left). split.
    { intros ->. apply H4. rewrite elem_of_cons, elem_of_app, !elem_of_Td. tauto. }
    destruct HrB as [HrB _]. eexists. split; [exact HrB|]. split_and!; [intros ->; tauto..|].
    destruct (top_in k) as [->|Hin]; [intros ->; tauto|]. intros E. destruct (Hk _ Hin) as (_ & Hn & _). apply Hn. by rewrite <- E. }
  assert (Hfocus : forall h3 : heap, h3 !! trunk = h !! trunk -> h3 !! top trunk k = Some nt ->
            (exists n, h3 !! x = Some n /\ my_parent n = top trunk k) ->
            (if x =? base x k then upd h3 trunk (set_parent y)
             else q ← parent h3 x; c ← next h3 q d; if x =? c then upd h3 q (set_next d y) else upd h3 q (set_next (opposite d) y))
            = Done (<[top trunk k := set_focus k y nt]> h3)).
  { intros h3 E1 E2 (n & E3 & E4). destruct k as [|[d' c' p v s] k].
    - cbn [base]. rewrite Z.eqb_refl. by rewrite (upd_eq _ _ _ _ E2).
    - destruct (Z.eqb_spec x (base x (F d' c' p v s :: k))) as [Hb|Hb].
      { pose proof (base_cons x (F d' c' p v s) k). by rewrite <- Hb in H. }
      run. rewrite E4. cbn [top] in *. erewrite next_eq by exact E2. cbn [mbind outcome_bind].
      cbn [repr_ctx] in H2. destruct H2 as (H2 & _). rewrite H2 in Hnt. injection Hnt as <-.
      cbn [set_focus]. destruct (decide (d = d')) as [->|Hne].
      + rewrite next_nd, Z.eqb_refl. by rewrite (upd_eq _ _ _ _ E2).
      + assert (Hd : d = opposite d') by (by destruct d, d'). rewrite Hd, next_nd_opp, opposite_opposite.
        destruct (Z.eqb_spec x (root s)) as [Hs|Hs]; [|by rewrite (upd_eq _ _ _ _ E2)].
        exfalso. apply Hxk. cbn [ctx_addrs]. rewrite elem_of_cons, elem_of_app, Hs. destruct (root_or s) as [E|E]; [|tauto].
        exfalso. apply H4. rewrite elem_of_cons, elem_of_app, elem_of_Td. rewrite <- E, <- Hs. tauto. }
  unfold rotate. do 4 (run; autorewrite with rbnode).
  assert (Hh2 : exists h2, (if root B =? 0 then Done (<[x := nd d cx (top trunk k) (root A) (root B) vx]> h)
                            else upd (<[x := nd d cx (top trunk k) (root A) (root B) vx]> h) (root B) (set_parent x)) = Done h2 /\
            h2 !! x = Some (nd d cx (top trunk k) (root A) (root B) vx) /\ h2 !! y = h !! y /\
            (forall n, h !! root B = Some n -> root B <> 0 -> h2 !! root B = Some (set_parent x n)) /\
            h2 !! trunk = h !! trunk /\ h2 !! top trunk k = h !! top trunk k /\
            forall a, a <> x -> (root B <> 0 -> a <> root B) -> h2 !! a = h !! a).
  { destruct HBn as [E|(E & n & Hn & E1 & E2 & E3 & E4)].
    - rewrite E. cbn [Z.eqb]. eexists. split; [done|]. split_and!; intros; first [done|lk].
    - rewrite (proj2 (Z.eqb_neq _ _) E). erewrite upd_eq by lk. eexists. split; [done|].
      split_and!; intros; try (match goal with H : root B <> 0 -> _ |- _ => specialize (H E) end); lk; congruence. }
  destruct Hh2 as (h2 & -> & G1 & G2 & G3 & G4 & G5 & G6). cbn [mbind outcome_bind].
  rewrite <- G2 in Hy1. rewrite <- G4 in Htr. rewrite <- G5 in Hnt. do 2 (run; autorewrite with rbnode). erewrite (parent_eq _ trunk) by lk. cbn [mbind outcome_bind].
  cbn [my_parent]. rewrite Hfocus; [|rewrite lookup_insert_ne by congruence; done|rewrite lookup_insert_ne by congruence; done|].
  2: { eexists. rewrite lookup_insert_ne by congruence. split; [exact G1|]. by autorewrite with rbnode. }
  cbn [mbind outcome_bind]. do 2 (run; autorewrite with rbnode). eexists. split; [done|].
  split_and!; [lk..| | |].
  - intros n Hn Hb. destruct HBn as [?|(_ & n' & Hn' & E1 & E2 & E3 & E4)]; [done|]. lk. by apply G3.
  - lk.
  - intros a E1 E2 E3 E4. lk. by apply G6.
Qed.

Lemma repr_set_parent (h h' : heap) par par' t :
  repr h par t -> NoDup (addrs t) ->
  (forall n, h !! root t = Some n -> t <> E -> h' !! root t = Some (set_parent par' n)) ->
  (forall a, a ∈ addrs t -> a <> root t -> h' !! a = h !! a) -> repr h' par' t.
Proof.
  destruct t as [|c l p v r]; [done|]. cbn [repr root]. intros (H1 & H2 & H3) Hnd Hr Ha.
  rewrite addrs_T, NoDup_app, NoDup_cons in Hnd. destruct Hnd as (Hn1 & Hn2 & Hn3 & Hn4).
  split_and!; [by rewrite (Hr _ H1)|..]; (eapply repr_frame; [|done]); intros a Hin; (apply Ha; [apply elem_of_T; tauto|]).
  - intros ->. apply (Hn2 p Hin). set_solver.
  - by intros ->.
Qed.

Lemma holds_nz h t k lm rm : holds h t k lm rm -> forall a, a ∈ addrs t \/ a ∈ ctx_addrs k -> a <> 0.
Proof. intros [_ _ _ H0] a Ha ->. apply H0. rewrite elem_of_cons, elem_of_app. tauto. Qed.

(** Rotation moves [y] above [x] and touches nothing else. *)
Lemma rotate_ok (h : heap) d cx A x vx cy B y vy C (k : ctx (V := V)) lm rm :
  holds h (Td d cx A x vx (Td d cy B y vy C)) k lm rm ->
  exists h', rotate trunk h x d = Done h' /\ holds h' (Td d cy (Td d cx A x vx B) y vy C) k lm rm.
Proof.
  intros Hh. pose proof Hh as [H1 H2 H3 H4]. pose proof (holds_nz _ _ _ _ _ Hh) as Hz.
  apply rotation_addrs in H3 as (Hxy & Hxt & Hyt & Hxk & Hyk & Hx & Hy & Ht & Hnd & Hk & HB & HNB).
  destruct (repr_ctx_refocus trunk h _ y lm rm k H2 Hnd) as (nt & Hnt & Hre).
  destruct (rotate_heap h d cx A x vx cy B y vy C k lm rm nt Hh Hnt) as (h' & -> & G1 & G2 & G3 & G4 & G5).
  exists h'. split; [done|]. apply repr_Td in H1 as (Hx1 & HA & H1). apply repr_Td in H1 as (Hy1 & HrB & HC).
  assert (Htop : forall a, a ∈ addrs A \/ a ∈ addrs B \/ a ∈ addrs C -> a <> top trunk k).
  { intros a Ha E. destruct (top_in k) as [E'|Hin]; [rewrite E, E' in Ha; tauto|]. rewrite <- E in Hin. destruct (Hk a Hin). tauto. }
  assert (Hframe : forall t, (t = A \/ t = C) -> forall a, a ∈ addrs t -> h' !! a = h !! a).
  { intros t Ht' a Ha. assert (a ∈ addrs A \/ a ∈ addrs C) by (by destruct Ht' as [<-|<-]; auto).
    apply G5; [intros ->; tauto..| |apply Htop; tauto]. intros Hb E. destruct (root_or B) as [?|Hin]; [done|].
    rewrite <- E in Hin. apply HB in Hin. tauto. }
  split.
  - apply repr_Td. rewrite root_Td. split_and!; [done|apply repr_Td; split_and!; [done|..]|].
    + eapply repr_frame; [|exact HA]. apply Hframe. auto.
    + eapply (repr_set_parent h); [exact HrB|done|..].
      * intros n Hn HE. apply G3; [done|]. apply Hz. left. rewrite !elem_of_Td. pose proof (root_in B HE). tauto.
      * intros a Ha Hne. apply G5; [intros ->; tauto..|done|apply Htop; tauto].
    + eapply repr_frame; [|exact HC]. apply Hframe. auto.
  - rewrite root_Td. apply Hre; [done|]. intros a Ha Hne. apply elem_of_cons in Ha.
    apply G5; [intros ->; destruct Ha as [?|?]; congruence..| |done].
    intros Hb E. destruct (root_or B) as [?|Hin]; [done|]. rewrite <- E in Hin. destruct Ha as [Ea|Ha]; [rewrite Ea in Hin; tauto|]. apply Hk in Ha. tauto.
  - eapply Permutation_NoDup_impl; [|exact (holds_nodup _ _ _ _ _ _ Hh)]. rewrite !addrs_Td. solve_Permutation.
  - intros Hin. apply H4. revert Hin. rewrite !elem_of_cons, !elem_of_app, !elem_of_Td. tauto.
Qed.

Lemma go_up h t d c p v s k lm rm : holds h t (F d c p v s :: k) lm rm -> holds h (Td d c t p v s) k lm rm.
Proof. apply holds_up. Qed.
Lemma go_down h t d c p v s k lm rm : holds h (Td d c t p v s) k lm rm -> holds h t (F d c p v s :: k) lm rm.
Proof. apply holds_up. Qed.

Lemma go_top h t k lm rm : holds h t k lm rm -> holds h (plug t k) [] lm rm.
Proof. apply holds_plug. Qed.

(** ** Recolouring *)
Definition paint (c : node_color) (t : tree (V := V)) : tree := match t with E => E | T _ l p v r => T c l p v r end.
Lemma paint_Td c d c' a p v b : paint c (Td d c' a p v b) = Td d c a p v b.
Proof. by destruct d. Qed.
Lemma elems_paint c t : elems (paint c t) = elems t.
Proof. by destruct t. Qed.
Lemma root_paint c t : root (paint c t) = root t.
Proof. by destruct t. Qed.

Lemma repr_root h par t : repr h par t -> t <> E -> exists n : node V, h !! root t = Some n /\ my_parent n = par.
Proof. destruct t; [done|]. intros (H & _) _. cbn. eauto. Qed.

Lemma paint_ok (h : heap) t k lm rm c :
  holds h t k lm rm -> t <> E ->
  exists h', upd h (root t) (set_color c) = Done h' /\ holds h' (paint c t) k lm rm.
Proof.
  intros Hh Ht. destruct t as [|c0 l p v r]; [done|]. cbn [root paint]. pose proof Hh as [H1 H2 H3 H4].
  cbn [repr] in H1. destruct H1 as (H1 & Hl & Hr). rewrite (upd_eq _ _ _ _ H1). eexists. split; [done|].
  rewrite NoDup_cons, NoDup_app, addrs_T, NoDup_app, NoDup_cons in H3.
  destruct H3 as (Hn1 & (Hn2 & Hn3 & Hn4 & Hn5) & Hn6 & Hn7).
  assert (p ∉ addrs l) by (intros Hin; apply (Hn3 p Hin), elem_of_cons; by left).
  assert (p ∉ ctx_addrs k) by (apply Hn6; rewrite elem_of_app, elem_of_cons; tauto).
  assert (p <> trunk) by (intros ->; apply Hn1; rewrite !elem_of_app, elem_of_cons; tauto).
  split.
  - cbn [repr]. rewrite lookup_insert_eq. split_and!; [done|..]; (eapply repr_frame; [|done]); intros a Ha; rewrite lookup_insert_ne; [done|congruence..|done|congruence].
  - eapply repr_ctx_frame; [|exact H2]. intros a Ha. rewrite lookup_insert_ne; [done|]. intros ->. destruct Ha; [congruence|done].
  - exact (holds_nodup _ _ _ _ _ _ Hh).
  - exact H4.
Qed.

(** Reading around a focus. *)
Lemma holds_focus (h : heap) t k lm rm : holds h t k lm rm -> t <> E -> exists n, h !! root t = Some n /\ my_parent n = top trunk k.
Proof. intros [H _ _ _]. by apply repr_root. Qed.
Lemma holds_frame h t d c p v s k lm rm :
  holds h t (F d c p v s :: k) lm rm -> h !! p = Some (nd d c (top trunk k) (root t) (root s) v).
Proof. intros [_ H _ _]. by destruct H. Qed.
Lemma holds_frame2 h t f d c p v s k lm rm :
  holds h t (f :: F d c p v s :: k) lm rm -> exists q, top trunk (f :: F d c p v s :: k) = q /\ h !! p = Some (nd d c (top trunk k) q (root s) v).
Proof. destruct f. intros [_ H _ _]. destruct H as (_ & _ & H & _). eauto. Qed.
Lemma is_black_eq (h : heap) par t : repr h par t -> (0 ∉ addrs t) ->
  is_black h (root t) = Done (match t with T RED _ _ _ _ => false | _ => true end).
Proof.
  destruct t as [|c l p v r]; [done|]. intros (H & _) H0. unfold is_black. cbn [root].
  destruct (Z.eqb_spec p 0) as [->|]; [exfalso; apply H0, elem_of_T; tauto|]. rewrite (deref_eq _ _ _ H). by destruct c.
Qed.
Definition is_red (t : tree (V := V)) : bool := match t with T RED _ _ _ _ => true | _ => false end.
Lemma sibling_ne h t d c p v s k lm rm : holds h t (F d c p v s :: k) lm rm -> t <> E -> root t <> root s.
Proof.
  intros Hh Ht Heq. pose proof (root_in t Ht) as Hin. pose proof (holds_nz _ _ _ _ _ Hh (root t) (or_introl Hin)) as Hz.
  destruct (root_or s) as [E|Hs]; [congruence|]. rewrite <- Heq in Hs. destruct Hh as [_ _ Hnd _].
  rewrite NoDup_cons, NoDup_app in Hnd. destruct Hnd as (_ & _ & Hd & _). apply (Hd _ Hin). cbn [ctx_addrs]. rewrite elem_of_cons, elem_of_app. tauto.
Qed.

(** ** One step of the rebalancing *)
Lemma holds_swap h t d c p v s k lm rm :
  holds h t (F d c p v s :: k) lm rm <-> holds h s (F (opposite d) c p v t :: k) lm rm.
Proof. by rewrite !holds_up, Td_opposite. Qed.

(** The recolourings and the rotation at the grandparent [w], for a focus on the outer side. *)
Lemma outer_case (h : heap) (y : Z) t d c q vq s w vw u (k : ctx (V := V)) lm rm :
  holds h t (F d c q vq s :: F d BLACK w vw u :: k) lm rm -> t <> E ->
  exists h',
    (p1 ← parent h (root t); h2 ← upd h p1 (set_color BLACK); h3 ← upd h2 w (set_color RED); h4 ← rotate trunk h3 w (opposite d); Done (y, h4)) = Done (y, h') /\
    holds h' t (F d BLACK q vq (Td d RED s w vw u) :: k) lm rm.
Proof.
  intros Hh Ht. destruct (holds_focus _ _ _ _ _ Hh Ht) as (n & Hn & Hp). rewrite (parent_eq _ _ _ Hn), Hp. cbn [top mbind outcome_bind].
  apply go_up in Hh. destruct (paint_ok _ _ _ _ _ BLACK Hh) as (h2 & Hu2 & Hh2); [by destruct d|]. rewrite root_Td in Hu2. rewrite Hu2.
  cbn [mbind outcome_bind]. rewrite paint_Td in Hh2. apply go_up in Hh2.
  destruct (paint_ok _ _ _ _ _ RED Hh2) as (h3 & Hu3 & Hh3); [by destruct d|]. rewrite root_Td in Hu3. rewrite Hu3.
  cbn [mbind outcome_bind]. rewrite paint_Td in Hh3. rewrite <- (Td_opposite d RED), <- (Td_opposite d BLACK) in Hh3.
  destruct (rotate_ok _ _ _ _ _ _ _ _ _ _ _ _ _ _ Hh3) as (h4 & -> & Hh4). exists h4. split; [done|].
  rewrite !Td_opposite in Hh4. by apply go_down.
Qed.

Lemma insertion_rebalance_ok (h : heap) cx a x vx b d p v s d2 w vw u (k : ctx (V := V)) lm rm :
  let t := T cx a x vx b in
  holds h t (F d RED p v s :: F d2 BLACK w vw u :: k) lm rm ->
  exists h' x', insertion_rebalance trunk h x = Done (x', h') /\
    if is_red u
    then x' = w /\ holds h' (Td d2 RED (Td d BLACK t p v s) w vw (paint BLACK u)) k lm rm
    else exists t1 q vq s', x' = root t1 /\ t1 <> E /\ holds h' t1 (F d2 BLACK q vq (Td d2 RED s' w vw u) :: k) lm rm /\
         ((t1 = t /\ q = p /\ vq = v /\ s' = s /\ d = d2) \/
          (d = opposite d2 /\ exists t3, t = Td d2 cx t3 x vx s' /\ t1 = Td d2 RED s p v t3 /\ q = x /\ vq = vx)).
Proof.
  intros t Hh. destruct (holds_focus _ _ _ _ _ Hh ltac:(done)) as (n & Hn & Hp). change (root t) with x in Hn. cbn [top] in Hp.
  pose proof (holds_frame _ _ _ _ _ _ _ _ _ _ Hh) as Hpn. cbn [top root t] in Hpn.
  destruct (holds_frame2 _ _ _ _ _ _ _ _ _ _ _ Hh) as (q & Hq & Hwn). cbn [top] in Hq. subst q.
  pose proof (sibling_ne _ _ _ _ _ _ _ _ _ _ Hh ltac:(done)) as Hxs. cbn [root t] in Hxs.
  assert (Hup : holds h (Td d RED t p v s) (F d2 BLACK w vw u :: k) lm rm) by (by apply go_up).
  pose proof (sibling_ne _ _ _ _ _ _ _ _ _ _ Hup ltac:(by destruct d)) as Hpu. rewrite root_Td in Hpu.
  assert (Hwl : (p =? next_of (nd d2 BLACK (top trunk k) p (root u) vw) LEFT) = bool_decide (d2 = LEFT)).
  { destruct d2; cbn; [apply Z.eqb_refl|by apply Z.eqb_neq]. }
  assert (Hside : (if bool_decide (d2 = LEFT) then RIGHT else LEFT) = opposite d2) by (by destruct d2).
  pose proof Hup as [Ht1 (_ & Hu & _) _ H0].
  assert (Hu0 : 0 ∉ addrs u). { intros Hin. apply H0. cbn [ctx_addrs]. rewrite elem_of_cons, !elem_of_app, elem_of_cons, elem_of_app. tauto. }
  unfold insertion_rebalance. rewrite (parent_eq _ _ _ Hn), Hp. cbn [mbind outcome_bind].
  rewrite (parent_eq _ _ _ Hpn), parent_nd. cbn [mbind outcome_bind]. rewrite (next_eq _ _ _ LEFT Hwn). cbn [mbind outcome_bind].
  rewrite Hwl, Hside, (next_eq _ _ _ _ Hwn), next_nd_opp. cbn [mbind outcome_bind]. rewrite (next_eq _ _ _ _ Hpn). cbn [mbind outcome_bind].
  rewrite (is_black_eq _ _ _ Hu Hu0). cbn [mbind outcome_bind]. destruct (is_red u) eqn:Hred.
  - destruct u as [|[] ul y vu ur]; try done. cbn [negb].
    destruct (paint_ok _ _ _ _ _ BLACK Hup) as (h1 & E1 & Hh1); [by destruct d|]. rewrite root_Td in E1. rewrite E1.
    cbn [mbind outcome_bind]. rewrite paint_Td in Hh1. apply holds_swap in Hh1.
    destruct (paint_ok _ _ _ _ _ BLACK Hh1) as (h2 & E2 & Hh2); [done|]. cbn [root] in E2. cbn [root]. rewrite E2.
    cbn [mbind outcome_bind]. apply go_up in Hh2. rewrite Td_opposite in Hh2.
    destruct (paint_ok _ _ _ _ _ RED Hh2) as (h3 & E3 & Hh3); [by destruct d2|]. rewrite root_Td in E3. rewrite E3.
    rewrite paint_Td in Hh3. eauto.
  - assert ((match u with T RED _ _ _ _ => false | _ => true end) = true) as -> by (by destruct u as [|[]]). cbn [negb].
    destruct (decide (d = d2)) as [->|Hne].
    + rewrite next_nd_opp. rewrite (proj2 (Z.eqb_neq _ _) Hxs). cbn [mbind outcome_bind].
      destruct (outer_case _ x _ _ _ _ _ _ _ _ _ _ _ _ Hh ltac:(done)) as (h' & E & Hh'). cbn [root t] in E.
      exists h', x. split; [exact E|]. exists t, p, v, s. split_and!; [done|done|exact Hh'|by left].
    + assert (d = opposite d2) as -> by (by destruct d, d2). rewrite next_nd, Z.eqb_refl, opposite_opposite.
      rewrite Td_opposite in Hup. set (t3 := match d2 with LEFT => a | RIGHT => b end). set (s' := match d2 with LEFT => b | RIGHT => a end).
      assert (Ht : t = Td d2 cx t3 x vx s') by (by destruct d2). rewrite Ht in Hup.
      destruct (rotate_ok _ _ _ _ _ _ _ _ _ _ _ _ _ _ Hup) as (h1 & E1 & Hh1). rewrite E1. cbn [mbind outcome_bind].
      apply go_down in Hh1. assert (Htd : Td d2 RED s p v t3 <> E) by (by destruct d2).
      destruct (outer_case _ p _ _ _ _ _ _ _ _ _ _ _ _ Hh1 Htd) as (h' & E & Hh'). rewrite root_Td in E.
      exists h', p. split; [exact E|]. exists (Td d2 RED s p v t3), x, vx, s'. split_and!; [by rewrite root_Td|done|exact Hh'|].
      right. split; [done|]. by exists t3.
Qed.

(** ** Balance *)

(** [rbt c n t]: [t] has a root of colour [c] (an empty tree counts as black), no red
    node has a red child, and every path down passes [n] black nodes. *)
Inductive rbt : node_color -> nat -> tree (V := V) -> Prop :=
| rbt_E : rbt BLACK 0 E
| rbt_R n l p v r : rbt BLACK n l -> rbt BLACK n r -> rbt RED n (T RED l p v r)
| rbt_B n cl cr l p v r : rbt cl n l -> rbt cr n r -> rbt BLACK (S n) (T BLACK l p v r).
(** A context that balances a focus with [n] black nodes on its paths; a red parent
    has a black parent of its own. *)
Fixpoint rbc (n : nat) (k : ctx (V := V)) : Prop :=
  match k with
  | [] => True
  | F d RED p v s :: k => rbt BLACK n s /\ (match k with F _ BLACK _ _ _ :: _ => True | _ => False end) /\ rbc n k
  | F d BLACK p v s :: k => (exists c, rbt c n s) /\ rbc (S n) k
  end.
Definition red_parent (k : ctx (V := V)) : bool := match k with F _ RED _ _ _ :: _ => true | _ => false end.

Lemma rbt_Td_R d n a p v b : rbt BLACK n a -> rbt BLACK n b -> rbt RED n (Td d RED a p v b).
Proof. destruct d; by constructor. Qed.
Lemma rbt_Td_B d n c c' a p v b : rbt c n a -> rbt c' n b -> rbt BLACK (S n) (Td d BLACK a p v b).
Proof. destruct d; econstructor; eauto. Qed.
Lemma rbt_R_inv d n c a p v b : rbt RED n (Td d c a p v b) -> c = RED /\ rbt BLACK n a /\ rbt BLACK n b.
Proof. destruct d; cbn; intros H; inversion H; subst; auto. Qed.
Lemma rbt_paint n t : rbt RED n t -> rbt BLACK (S n) (paint BLACK t).
Proof. intros H. inversion H; subst; cbn. econstructor; eauto. Qed.
Lemma rbt_is_red n c t : rbt c n t -> is_red t = bool_decide (c = RED).
Proof. by inversion 1. Qed.
Lemma rbt_plug k : forall n t c, rbt c n t -> rbc n k -> (c = RED -> red_parent k = false) -> exists c' m, rbt c' m (plug t k).
Proof.
  induction k as [|[d c0 p v s] k IH]; intros n t c Ht Hk Hr; [eauto|]. cbn [plug rbc red_parent] in *. destruct c0.
  - destruct Hk as (Hs & Hb & Hk). destruct c; [by specialize (Hr eq_refl)|].
    apply (IH n _ RED); [by apply rbt_Td_R|done|]. by destruct k as [|[? [] ? ? ?] k].
  - destruct Hk as ([c1 Hs] & Hk). apply (IH (S n) _ BLACK); [by eapply rbt_Td_B|done|done].
Qed.

Lemma elems_Td_cong d c a p v b d' c' a' p' v' b' (k : ctx (V := V)) :
  elems (Td d c a p v b) = elems (Td d' c' a' p' v' b') ->
  elems (plug (Td d c a p v b) k) = elems (plug (Td d' c' a' p' v' b') k).
Proof. intros H. by rewrite !elems_plug, H. Qed.
Lemma elems_plug_cong t t' (k : ctx (V := V)) : elems t = elems t' -> elems (plug t k) = elems (plug t' k).
Proof. intros H. by rewrite !elems_plug, H. Qed.

(** The loop ends with a tree of the same elements whose root alone may be red. *)
Lemma rebalance_loop_ok fuel : forall (h : heap) t k lm rm n,
  holds h t k lm rm -> rbt RED n t -> rbc n k -> (length k < fuel)%nat ->
  exists h' t', rebalance_loop trunk fuel h (root t) = Done h' /\ holds h' t' [] lm rm /\
    elems t' = elems (plug t k) /\ (exists c m, rbt c m t') /\ t' <> E.
Proof.
  induction fuel as [|fuel IH]; intros h t k lm rm n Hh Ht Hk Hf; [lia|]. cbn [rebalance_loop].
  assert (HtE : t <> E) by (by intros ->; inversion Ht).
  assert (Hfin : red_parent k = false -> exists t', holds h t' [] lm rm /\ elems t' = elems (plug t k) /\ (exists c m, rbt c m t') /\ t' <> E).
  { intros Hb. exists (plug t k). split_and!; [by apply go_top|done|by eapply rbt_plug|].
    intros E. pose proof (elems_plug t k) as He. rewrite E in He. destruct t; [done|]. cbn in He. by destruct (before k), (elems t1). }
  pose proof (repr_ctx_trunk _ _ _ _ _ _ (holds_ctx _ _ _ _ _ _ Hh)) as Htr. rewrite (parent_eq _ _ _ Htr). cbn [mbind outcome_bind my_parent].
  destruct (Z.eqb_spec (root t) (base (root t) k)) as [Hb|Hb].
  { assert (k = []) as ->. { eapply base_eq; [|exact Hb]. intros Hin. pose proof (holds_nodup _ _ _ _ _ _ Hh) as Hnd.
      rewrite NoDup_cons, NoDup_app in Hnd. destruct Hnd as (_ & _ & Hd & _). by apply (Hd _ (root_in t HtE)). }
    destruct (Hfin eq_refl) as (t' & ?). by exists h, t'. }
  destruct (holds_focus _ _ _ _ _ Hh HtE) as (nx & Hn & Hp). rewrite (parent_eq _ _ _ Hn), Hp. cbn [mbind outcome_bind].
  destruct k as [|[d c p v s] k]; [done|]. cbn [top]. pose proof (holds_frame _ _ _ _ _ _ _ _ _ _ Hh) as Hpn.
  rewrite (deref_eq _ _ _ Hpn). cbn [mbind outcome_bind]. rewrite color_nd. destruct c.
  2: { destruct (Hfin eq_refl) as (t' & ?). by exists h, t'. }
  rewrite bool_decide_eq_true_2 by done. destruct Hk as (Hs & Hb2 & Hk). destruct k as [|[d2 [] w vw u] k]; try done. clear Hb2.
  destruct t as [|cx a x vx b]; [done|].
  destruct (insertion_rebalance_ok _ _ _ _ _ _ _ _ _ _ _ _ _ _ _ _ _ Hh) as (h' & x' & E & Hstep). cbn [root]. rewrite E. cbn [mbind outcome_bind].
  destruct Hk as ([cu Hu] & Hk). rewrite (rbt_is_red _ _ _ Hu) in Hstep. case_bool_decide as Hcu.
  - subst cu. destruct Hstep as (-> & Hh').
    destruct (IH h' _ k lm rm (S n) Hh') as (h2 & t' & E2 & Hh2 & He & Hc & HE); [|done|cbn in Hf; lia|].
    { apply rbt_Td_R; [by eapply rbt_Td_B|by apply rbt_paint]. }
    exists h2, t'. rewrite root_Td in E2. split_and!; [done..| |done|done]. rewrite He. cbn [plug]. apply elems_plug_cong. destruct d, d2; cbn; by rewrite elems_paint.
  - destruct cu; [done|]. destruct Hstep as (t1 & q & vq & s' & -> & Ht1 & Hh' & Hcase).
    assert (Hinv : elems (Td d2 RED t1 q vq s') = elems (Td d RED (T cx a x vx b) p v s) /\ rbt RED n t1 /\ rbt BLACK n s').
    { destruct Hcase as [(-> & -> & -> & -> & ->)|(-> & t3 & Ht3 & -> & -> & ->)]; [done|]. rewrite Ht3 in Ht. rewrite Ht3.
      apply rbt_R_inv in Ht as (_ & H1 & H2). split_and!; [|by apply rbt_Td_R|done].
      destruct d2; cbn; by rewrite <- ?app_assoc; cbn; rewrite <- ?app_assoc. }
    destruct Hinv as (He & Hr1 & Hr2).
    destruct (IH h' t1 _ lm rm n Hh') as (h2 & t' & E2 & Hh2 & He2 & Hc & HE); [done|split; [|done]|cbn in *; lia|].
    { exists RED. by apply rbt_Td_R. }
    exists h2, t'. split_and!; [done..| |done|done]. rewrite He2. cbn [plug]. apply elems_plug_cong.
    destruct d2; cbn [Td elems] in *; rewrite <- He; by rewrite <- ?app_assoc; cbn; rewrite <- ?app_assoc.
Qed.

Lemma rbt_unplug k : forall t n, rbt BLACK n (plug t k) ->
  exists c m, rbt c m t /\ rbc m k /\ (c = RED -> k <> [] /\ red_parent k = false).
Proof.
  induction k as [|[d c p v s] k IH]; intros t n Hr; cbn [plug] in Hr; [by exists BLACK, n|].
  apply IH in Hr as (c' & m & Hr & Hk & Hb). assert (Hc : c' = c) by (by destruct d; inversion Hr). subst c'. destruct c.
  - apply rbt_R_inv in Hr as (_ & H1 & H2). destruct (Hb eq_refl) as [Hne Hp].
    exists BLACK, m. split_and!; [done|split_and!; [done|by destruct k as [|[? [] ? ? ?] k]|done]|done].
  - assert (exists cl cr m', m = S m' /\ rbt cl m' t /\ rbt cr m' s) as (cl & cr & m' & -> & H1 & H2).
    { destruct d; inversion Hr; subst; eauto 10. }
    exists cl, m'. split_and!; [done|split; [by exists cr|done]|done].
Qed.

(** ** Linking a node *)
Definition end_after (d side : node_direction) (p e l : Z) : Z := if bool_decide (d = side) && (p =? e) then l else e.

Lemma link_ok (h : heap) l u n0 d c p v s k lm rm :
  holds h E (F d c p v s :: k) lm rm -> h !! l = Some n0 -> my_data n0 = Some u ->
  l <> 0 -> l ∉ trunk :: ctx_addrs (F d c p v s :: k) ->
  exists h2,
    (h1 ← upd h l (fun n => Node RED p 0 0 (my_data n));
     h' ← upd h1 p (set_next d l); e ← next h' trunk d; if p =? e then upd h' trunk (set_next d l) else Done h') = Done h2 /\
    holds h2 (T RED E l u E) (F d c p v s :: k) (end_after d LEFT p lm l) (end_after d RIGHT p rm l).
Proof.
  intros Hh Hl Hu Hl0 Hln. pose proof Hh as [_ Hc Hnd H0]. pose proof (repr_ctx_trunk _ _ _ _ _ _ Hc) as Htr.
  cbn [repr_ctx] in Hc. destruct Hc as (Hp & Hs & Hk). cbn [ctx_addrs] in *.
  change (addrs (E (V := V)) ++ p :: addrs s ++ ctx_addrs k) with (p :: addrs s ++ ctx_addrs k) in Hnd, H0.
  assert (Hpt : p <> trunk). { intros ->. apply NoDup_cons in Hnd as [Hn _]. apply Hn, elem_of_cons. by left. }
  assert (Hlp : l <> p /\ l <> trunk /\ l ∉ addrs s /\ l ∉ ctx_addrs k).
  { rewrite !not_elem_of_cons, not_elem_of_app in Hln. tauto. }
  destruct Hlp as (Hlp & Hlt & Hls & Hlk). rewrite (upd_eq _ _ _ _ Hl). cbn [mbind outcome_bind].
  erewrite upd_eq by lk. cbn [mbind outcome_bind]. rewrite set_next_nd. erewrite next_eq by lk. cbn [mbind outcome_bind].
  set (hx := <[p := nd d c (top trunk k) l (root s) v]> (<[l := Node RED p 0 0 (my_data n0)]> h)).
  assert (Hfin : forall h2, (forall a, a <> trunk -> h2 !! a = hx !! a) ->
    h2 !! trunk = Some (Node RED (base p k) (end_after d LEFT p lm l) (end_after d RIGHT p rm l) None) ->
    holds h2 (T RED E l u E) (F d c p v s :: k) (end_after d LEFT p lm l) (end_after d RIGHT p rm l)).
  { intros h2 Ha Ht2. apply NoDup_cons in Hnd as [Hn1 Hn2]. apply NoDup_cons in Hn2 as [Hn2 Hn3]. rewrite not_elem_of_app in Hn2.
    assert (Hout : forall a, a <> trunk -> a <> p -> a <> l -> h2 !! a = h !! a) by (intros; rewrite Ha by done; unfold hx; lk).
    assert (Hnts : trunk ∉ addrs s) by (rewrite not_elem_of_cons, not_elem_of_app in Hn1; tauto).
    split.
    - cbn [repr top root]. split_and!; [|done|done]. rewrite Ha by done. unfold hx. lk. by rewrite Hu.
    - cbn [repr_ctx root]. split_and!.
      + rewrite Ha by done. unfold hx. lk.
      + eapply repr_frame; [|exact Hs]. intros a Hin. apply Hout; intros ->; tauto.
      + assert (Hgen : forall f k0, repr_ctx trunk h f lm rm k0 -> p ∉ ctx_addrs k0 -> l ∉ ctx_addrs k0 -> trunk ∉ ctx_addrs k0 ->
                  base f k0 = base p k -> repr_ctx trunk h2 f (end_after d LEFT p lm l) (end_after d RIGHT p rm l) k0).
        { intros f k0. revert f. induction k0 as [|[d1 c1 p1 v1 s1] k0 IH]; intros f; cbn [repr_ctx ctx_addrs base].
          - intros _ _ _ _ ->. done.
          - rewrite !not_elem_of_cons, !not_elem_of_app. intros (G1 & G2 & G3) (P1 & P2 & P3) (P4 & P5 & P6) (P7 & P8 & P9) Hb. split_and!.
            + rewrite Hout by congruence. done.
            + eapply repr_frame; [|exact G2]. intros a Hin. apply Hout; intros ->; tauto.
            + by apply IH. }
        apply Hgen; [done|tauto|done| |done]. rewrite not_elem_of_cons, not_elem_of_app in Hn1. tauto.
    - cbn [ctx_addrs]. change (addrs (T RED E l u E)) with [l]. apply NoDup_cons. split.
      + rewrite elem_of_app, list_elem_of_singleton. intros [?|?]; [congruence|done].
      + cbn [app]. apply NoDup_cons. split; [|apply NoDup_cons; split; [by rewrite not_elem_of_app|done]].
        rewrite not_elem_of_cons, not_elem_of_app. tauto.
    - cbn [ctx_addrs]. change (addrs (T RED E l u E)) with [l]. rewrite elem_of_cons in *. rewrite elem_of_app, list_elem_of_singleton. naive_solver. }
  match goal with |- context [p =? ?e] => destruct (Z.eqb_spec p e) as [He|He] end.
  - erewrite upd_eq by (unfold hx; lk). eexists. split; [done|]. apply Hfin.
    + intros a Ha. by rewrite lookup_insert_ne.
    + rewrite lookup_insert_eq. unfold end_after. destruct d; cbn in *; subst; by rewrite Z.eqb_refl.
  - eexists. split; [done|]. apply Hfin; [done|]. unfold hx. rewrite !lookup_insert_ne by congruence. rewrite Htr.
    unfold end_after. destruct d; cbn in *; by rewrite (proj2 (Z.eqb_neq _ _) He).
Qed.

(** The first and the last address of a sequence of elements, the trunk if there is none. *)
Definition head_addr (es : list (Z * V)) : Z := match es with [] => trunk | (p, _) :: _ => p end.
Definition last_addr (es : list (Z * V)) : Z := match last es with None => trunk | Some (p, _) => p end.

Lemma last_addr_app es x es' : last_addr (es ++ x :: es') = last_addr (x :: es').
Proof. unfold last_addr. by rewrite last_app_cons. Qed.
Lemma last_addr_cons x y (es : list (Z * V)) : last_addr (x :: y :: es) = last_addr (y :: es).
Proof. done. Qed.
Lemma head_insert bs p v as' l (u : V) :
  NoDup (fst <$> bs ++ (p, v) :: as') ->
  (if p =? head_addr (bs ++ (p, v) :: as') then l else head_addr (bs ++ (p, v) :: as')) = head_addr (bs ++ (l, u) :: (p, v) :: as').
Proof.
  intros Hnd. destruct bs as [|[b vb] bs]; cbn [app head_addr]; [by rewrite Z.eqb_refl|].
  destruct (Z.eqb_spec p b) as [->|]; [|done]. rewrite fmap_app, NoDup_app in Hnd. destruct Hnd as (_ & Hd & _).
  exfalso. apply (Hd b); rewrite fmap_cons; apply elem_of_cons; by left.
Qed.
Lemma last_insert bs p v as' l (u : V) :
  NoDup (fst <$> bs ++ (p, v) :: as') ->
  (if p =? last_addr (bs ++ (p, v) :: as') then l else last_addr (bs ++ (p, v) :: as')) = last_addr (bs ++ (p, v) :: (l, u) :: as').
Proof.
  intros Hnd. rewrite !last_addr_app, (last_addr_cons _ (l, u)). destruct as' as [|x as'].
  { unfold last_addr. cbn. by rewrite Z.eqb_refl. }
  rewrite !last_addr_cons. destruct (Z.eqb_spec p (last_addr (x :: as'))) as [Hp|]; [|done].
  exfalso. rewrite fmap_app, NoDup_app in Hnd. destruct Hnd as (_ & _ & Hd). cbn [fmap list_fmap] in Hd.
  apply NoDup_cons in Hd as [Hd _]. apply Hd. cbn [fst]. rewrite Hp. unfold last_addr.
  destruct (last (x :: as')) as [[q w]|] eqn:El; [|by apply last_None in El].
  apply last_Some_elem_of in El. change (fst x :: (fst <$> as')) with (fst <$> x :: as'). apply list_elem_of_fmap. by exists (q, w).
Qed.
Lemma ends_after_link d c p v s k l u :
  let k' := F d c p v s :: k in let es := before k' ++ after k' in
  NoDup (fst <$> es) ->
  end_after d LEFT p (head_addr es) l = head_addr (before k' ++ (l, u) :: after k') /\
  end_after d RIGHT p (last_addr es) l = last_addr (before k' ++ (l, u) :: after k').
Proof.
  intros k' es. unfold es, k', end_after. destruct d; cbn [before after]; intros Hnd.
  - change (bool_decide (LEFT = LEFT)) with true. change (bool_decide (LEFT = RIGHT)) with false. cbn [andb]. split; [by apply head_insert|].
    by rewrite !last_addr_app, last_addr_cons.
  - change (bool_decide (RIGHT = LEFT)) with false. change (bool_decide (RIGHT = RIGHT)) with true. cbn [andb].
    rewrite <- !app_assoc in *. rewrite !(app_assoc (before k) (elems s)) in *. cbn [app] in *. split; [|by apply last_insert].
    by destruct (before k ++ elems s) as [|[]].
Qed.

(** ** Insertion at a position *)
Lemma repr_present h par t : repr h par t -> Forall (fun a => is_Some (h !! a)) (addrs (V := V) t).
Proof.
  revert par. induction t as [|c l IHl p v r IHr]; intros par; [constructor|]. intros (H1 & H2 & H3). rewrite addrs_T.
  apply Forall_app; split; [by eapply IHl|]. constructor; [by rewrite H1|by eapply IHr].
Qed.
Lemma repr_ctx_present h f lm rm k : repr_ctx trunk h f lm rm k -> Forall (fun a => is_Some (h !! a)) (trunk :: ctx_addrs (V := V) k).
Proof.
  revert f. induction k as [|[d c p v s] k IH]; intros f; cbn [repr_ctx ctx_addrs].
  - intros H. constructor; [by eexists|constructor].
  - intros (H1 & H2 & H3). apply IH in H3. inversion H3; subst. constructor; [done|]. constructor; [by rewrite H1|].
    apply Forall_app; split; [by eapply repr_present|done].
Qed.
(** The store has at least the nodes of the tree, so its size bounds every walk. *)
Lemma holds_size h t k lm rm : holds h t k lm rm -> (S (length (addrs t ++ ctx_addrs k)) <= size h)%nat.
Proof.
  intros [H1 H2 H3 _]. apply repr_present in H1. apply repr_ctx_present in H2.
  assert (Hsub : list_to_set (trunk :: addrs t ++ ctx_addrs k) ⊆ dom h).
  { intros a Ha. apply elem_of_list_to_set in Ha. apply elem_of_dom. inversion H2; subst. rewrite elem_of_cons, elem_of_app in Ha.
    rewrite Forall_forall in *. destruct Ha as [->|[Ha|Ha]]; auto. }
  apply subseteq_size in Hsub. rewrite size_list_to_set, size_dom in Hsub by done. done.
Qed.
Lemma length_ctx_addrs k : (length k <= length (ctx_addrs (V := V) k))%nat.
Proof. induction k as [|[d c p v s] k IH]; cbn [ctx_addrs length]; [lia|]. rewrite length_app. lia. Qed.

Lemma ctx_addrs_elems k : ctx_addrs (V := V) k ≡ₚ fst <$> before k ++ after k.
Proof.
  induction k as [|[[] c p v s] k IH]; cbn [ctx_addrs before after]; [done|..]; rewrite IH; unfold addrs; rewrite !fmap_app, ?fmap_cons, ?fmap_app; cbn;
    solve_Permutation.
Qed.

Lemma insert_and_rebalance_ok (h : heap) l u n0 d k :
  let es := before k ++ after k in
  let es' := before k ++ (l, u) :: after k in
  holds h E k (head_addr es) (last_addr es) -> rbc 0 k ->
  h !! l = Some n0 -> my_data n0 = Some u -> l <> 0 -> l ∉ trunk :: ctx_addrs k ->
  match k with [] => True | F d' _ _ _ _ :: _ => d' = d end ->
  exists h' t' n, insert_and_rebalance trunk d h l (top trunk k) = Done h' /\
    holds h' t' [] (head_addr es') (last_addr es') /\ elems t' = es' /\ rbt BLACK n t'.
Proof.
  intros es es' Hh Hk Hl Hu Hl0 Hln Hd. unfold insert_and_rebalance.
  assert (Hlink : exists h2, (h1 ← upd h l (fun n => Node RED (top trunk k) 0 0 (my_data n));
      if top trunk k =? trunk then upd h1 (top trunk k) (fun n => Node (my_color n) l l l (my_data n))
      else h' ← upd h1 (top trunk k) (set_next d l); e ← next h' trunk d;
           if top trunk k =? e then upd h' trunk (set_next d l) else Done h') = Done h2 /\
      holds h2 (T RED E l u E) k (head_addr es') (last_addr es')).
  { destruct k as [|[d' c p v s] k].
    - cbn [top]. rewrite Z.eqb_refl, (upd_eq _ _ _ _ Hl). cbn [mbind outcome_bind].
      destruct Hh as [_ Ht _ H0]. cbn in Ht. apply not_elem_of_cons in Hln as [Hlt _]. erewrite upd_eq by lk. eexists. split; [done|]. split.
      + cbn. lk. by rewrite Hu.
      + cbn. lk.
      + change (addrs (T RED E l u E)) with [l]. cbn. apply NoDup_cons. split; [rewrite list_elem_of_singleton; congruence|apply NoDup_singleton].
      + change (addrs (T RED E l u E)) with [l]. cbn in *. rewrite elem_of_cons in *. rewrite list_elem_of_singleton. intros [?|?]; [tauto|congruence].
    - subst d'. cbn [top]. assert (Hpt : p <> trunk).
      { pose proof (holds_nodup _ _ _ _ _ _ Hh) as Hnd. apply NoDup_cons in Hnd as [Hn _]. intros ->. apply Hn. cbn. by left. }
      rewrite (proj2 (Z.eqb_neq _ _) Hpt). destruct (link_ok _ _ _ _ _ _ _ _ _ _ _ _ Hh Hl Hu Hl0 Hln) as (h2 & E2 & Hh2). exists h2. split; [done|].
      destruct (ends_after_link d c p v s k l u) as [G1 G2]; [|unfold es'; rewrite <- G1, <- G2; done].
      pose proof (holds_nodup _ _ _ _ _ _ Hh) as Hnd. apply NoDup_cons in Hnd as [_ Hnd]. revert Hnd. apply Permutation_NoDup_impl. apply (ctx_addrs_elems (F d c p v s :: k)). }
  destruct Hlink as (h2 & E2 & Hh2).
  destruct (upd h l _) as [h1| |] eqn:E1; [|done..]. cbn [mbind outcome_bind] in *. rewrite E2. cbn [mbind outcome_bind].
  destruct (rebalance_loop_ok (node_fuel h2) h2 _ k _ _ 0 Hh2) as (h3 & t' & E3 & Hh3 & He & (c & m & Hr) & HE); [by repeat constructor|done| |].
  { unfold node_fuel. pose proof (holds_size _ _ _ _ _ Hh2). pose proof (length_ctx_addrs k). rewrite length_app in *. lia. }
  cbn [root] in E3. rewrite E3. cbn [mbind outcome_bind].
  pose proof (holds_ctx _ _ _ _ _ _ Hh3) as Ht. cbn in Ht. rewrite (parent_eq _ _ _ Ht). cbn [mbind outcome_bind my_parent].
  destruct (paint_ok _ _ _ _ _ BLACK Hh3 HE) as (h4 & E4 & Hh4). rewrite E4.
  exists h4, (paint BLACK t'). rewrite elems_plug in He. eexists. split_and!; [done|done|by rewrite elems_paint, He|].
  instantiate (1 := match c with RED => S m | BLACK => m end). destruct c; [by apply rbt_paint|]. by inversion Hr; subst; [|econstructor; eauto].
Qed.
End insertion.
