(* ===== verification/RbOps.v ===== *)
(** Searching, walking and inserting in a red-black tree that holds a sorted
    sequence of elements. *)
From Stdlib Require Import Sorted.
From S2P Require Import Prelude RbTree RbShape RbInsert.

(** What the comparators of the containers promise: a strict weak order. *)
Class StrictWeak {V : Type} (lt : V -> V -> bool) : Prop := {
  lt_irrefl x : lt x x = false;
  lt_trans x y z : lt x y = true -> lt y z = true -> lt x z = true;
  lt_cotrans x y z : lt x y = true -> lt x z = true \/ lt z y = true }.
#[export] Instance Zltb_strict : StrictWeak Z.ltb.
Proof. split; intros; rewrite ?Z.ltb_lt, ?Z.ltb_irrefl in *; try lia; done. Qed.

Section ops.
Context {V : Type} (trunk : Z) (lt : V -> V -> bool) `{!StrictWeak lt}.
Abbreviation heap := (gmap Z (node V)).
Abbreviation holds := (holds (V := V) trunk).
Abbreviation head_addr := (head_addr (V := V) trunk).
Abbreviation last_addr := (last_addr (V := V) trunk).

Definition below (a b : Z * V) : Prop := lt a.2 b.2 = true.
Definition sorted (es : list (Z * V)) : Prop := StronglySorted below es.

(** [t] holds the tree [a]; [rep t es]: it holds a balanced tree of the elements [es]. *)
Record wf (t : rb_tree (V := V)) (a : tree (V := V)) : Prop := {
  wf_holds : holds (nodes t) a [] (head_addr (elems a)) (last_addr (elems a));
  wf_balanced : exists n, rbt BLACK n a;
  wf_sorted : sorted (elems a);
  wf_count : count t = Z.of_nat (length (elems a)) }.
Definition rep (t : rb_tree) (es : list (Z * V)) : Prop := exists a, wf t a /\ elems a = es.

(** ** Walking *)
Definition side (d : node_direction) (f : frame (V := V)) : Prop := match f with F d' _ _ _ _ => d' = d end.
Lemma split_side d (k : ctx (V := V)) :
  exists k1 k2, k = k1 ++ k2 /\ Forall (side d) k1 /\ match k2 with [] => True | f :: _ => side (opposite d) f end.
Proof.
  induction k as [|[d' c p v s] k (k1 & k2 & -> & H1 & H2)]; [by exists [], []|]. destruct (decide (d' = d)) as [->|Hne].
  - exists (F d c p v s :: k1), k2. split_and!; [done|by constructor|done].
  - exists [], (F d' c p v s :: k1 ++ k2). split_and!; [done|constructor|]. cbn. by destruct d, d'.
Qed.
Lemma plug_app t (k1 k2 : ctx (V := V)) : plug t (k1 ++ k2) = plug (plug t k1) k2.
Proof. revert t. induction k1 as [|[d c p v s] k1 IH]; intros t; cbn; [done|]. apply IH. Qed.
Lemma plug_nonempty t (k : ctx (V := V)) : t <> E -> plug t k <> E.
Proof. revert t. induction k as [|[d c p v s] k IH]; intros t Ht; cbn; [done|]. apply IH. by destruct d. Qed.
Lemma holds_app h t k1 k2 lm rm : holds h t (k1 ++ k2) lm rm -> holds h (plug t k1) k2 lm rm.
Proof. intros H. apply (proj2 (holds_plug trunk h (plug t k1) k2 lm rm)). rewrite <- plug_app. by apply (go_top trunk). Qed.

Lemma climb_frames (h : heap) d lm rm k2 fuel : forall k1 t,
  Forall (side d) k1 -> holds h t (k1 ++ k2) lm rm -> t <> E ->
  climb (length k1 + fuel) h (root t) (top trunk (k1 ++ k2)) d = climb fuel h (root (plug t k1)) (top trunk k2) d.
Proof.
  induction k1 as [|[d' c p v s] k1 IH]; intros t Hs Hh Ht; [done|]. inversion Hs as [|? ? Hd Hs']; subst. cbn in Hd. subst d'.
  cbn [length Nat.add climb top app plug]. pose proof (holds_frame trunk _ _ _ _ _ _ _ _ _ _ Hh) as Hp.
  rewrite (next_eq _ _ _ _ Hp), next_nd. cbn [mbind outcome_bind]. rewrite Z.eqb_refl, (parent_eq _ _ _ Hp), parent_nd. cbn [mbind outcome_bind].
  rewrite <- (IH (Td d c t p v s) Hs'); [by rewrite root_Td|by apply go_up|by destruct d].
Qed.
Lemma climb_stop (h : heap) d c p v s k lm rm t fuel :
  holds h t (F (opposite d) c p v s :: k) lm rm -> t <> E -> climb (S fuel) h (root t) p d = Done (root t, p).
Proof.
  intros Hh Ht. pose proof (holds_frame trunk _ _ _ _ _ _ _ _ _ _ Hh) as Hp. pose proof (sibling_ne trunk _ _ _ _ _ _ _ _ _ _ Hh Ht) as Hs.
  cbn [climb]. rewrite (next_eq _ _ _ _ Hp). rewrite nd_opposite, next_nd. cbn [mbind outcome_bind]. by rewrite (proj2 (Z.eqb_neq _ _) Hs).
Qed.

(** The ends of a subtree. *)
Lemma last_addr_tail x es : es <> [] -> last_addr (x :: es) = last_addr es.
Proof. by destruct es. Qed.
Lemma min_ok (h : heap) t : forall par fuel, repr h par t -> t <> E -> 0 ∉ addrs t -> (length (addrs t) <= fuel)%nat ->
  min_from fuel h (root t) = Done (head_addr (elems t)).
Proof.
  induction t as [|c l IHl p v r _]; intros par fuel Hr Ht H0 Hf; [done|]. destruct Hr as (H1 & H2 & _).
  rewrite addrs_T, length_app in Hf. cbn [length] in Hf. destruct fuel as [|fuel]; [lia|]. cbn [min_from root].
  rewrite (next_eq _ _ _ _ H1). cbn [mbind outcome_bind next_of my_left]. rewrite elem_of_T in H0.
  destruct l as [|cl ll pl vl rl]; [done|]. cbn [root].
  destruct (Z.eqb_spec pl 0) as [->|]; [exfalso; apply H0; right; left; apply elem_of_T; by left|].
  change pl with (root (T cl ll pl vl rl)). rewrite (IHl p); [|done|done|tauto|lia]. cbn [elems]. by destruct (elems ll) as [|[]].
Qed.
Lemma max_ok (h : heap) t : forall par fuel, repr h par t -> t <> E -> 0 ∉ addrs t -> (length (addrs t) <= fuel)%nat ->
  max_from fuel h (root t) = Done (last_addr (elems t)).
Proof.
  induction t as [|c l _ p v r IHr]; intros par fuel Hr Ht H0 Hf; [done|]. destruct Hr as (H1 & _ & H2).
  rewrite addrs_T, length_app in Hf. cbn [length] in Hf. destruct fuel as [|fuel]; [lia|]. cbn [max_from root].
  rewrite (next_eq _ _ _ _ H1). cbn [mbind outcome_bind next_of my_right]. rewrite elem_of_T in H0. cbn [elems]. rewrite last_addr_app.
  destruct r as [|cr lr pr vr rr]; [done|]. cbn [root].
  destruct (Z.eqb_spec pr 0) as [->|]; [exfalso; apply H0; right; right; apply elem_of_T; by left|].
  change pr with (root (T cr lr pr vr rr)). rewrite (IHr p); [|done|done|tauto|lia].
  rewrite last_addr_tail; [done|]. cbn. by destruct (elems lr).
Qed.

Lemma holds_nonzero_tree h t k lm rm : holds h t k lm rm -> 0 ∉ addrs t.
Proof. intros [_ _ _ H] Hin. apply H. rewrite elem_of_cons, elem_of_app. tauto. Qed.
Lemma holds_length h t k lm rm : holds h t k lm rm -> (length (addrs t) + length k < size h)%nat.
Proof. intros H. apply (holds_size trunk) in H. rewrite length_app in H. pose proof (length_ctx_addrs k). lia. Qed.
Lemma node_min_ok h t k lm rm : holds h t k lm rm -> t <> E -> node_min h (root t) = Done (head_addr (elems t)).
Proof.
  intros Hh Ht. unfold node_min. eapply min_ok; [apply (holds_tree _ _ _ _ _ _ Hh)|done|by eapply holds_nonzero_tree|].
  pose proof (holds_length _ _ _ _ _ Hh). unfold node_fuel. lia.
Qed.
Lemma node_max_ok h t k lm rm : holds h t k lm rm -> t <> E -> node_max h (root t) = Done (last_addr (elems t)).
Proof.
  intros Hh Ht. unfold node_max. eapply max_ok; [apply (holds_tree _ _ _ _ _ _ Hh)|done|by eapply holds_nonzero_tree|].
  pose proof (holds_length _ _ _ _ _ Hh). unfold node_fuel. lia.
Qed.
Lemma before_left (k1 k2 : ctx (V := V)) : Forall (side LEFT) k1 -> before (k1 ++ k2) = before k2.
Proof. induction 1 as [|[d c p v s] k1 Hd _ IH]; [done|]. cbn in Hd. subst. exact IH. Qed.
Lemma after_right (k1 k2 : ctx (V := V)) : Forall (side RIGHT) k1 -> after (k1 ++ k2) = after k2.
Proof. induction 1 as [|[d c p v s] k1 Hd _ IH]; [done|]. cbn in Hd. subst. exact IH. Qed.
Lemma root_nonzero h t k lm rm : holds h t k lm rm -> t <> E -> root t <> 0.
Proof. intros Hh Ht. apply (holds_nz trunk _ _ _ _ _ Hh). left. by apply root_in. Qed.

(** The left and the right child of a focus. *)
Lemma holds_left h c l p v r k lm rm : holds h (T c l p v r) k lm rm -> holds h l (F LEFT c p v r :: k) lm rm.
Proof. apply (go_down trunk h l LEFT). Qed.
Lemma holds_right h c l p v r k lm rm : holds h (T c l p v r) k lm rm -> holds h r (F RIGHT c p v l :: k) lm rm.
Proof. apply (go_down trunk h r RIGHT). Qed.

(** The predecessor of a node that has one. *)
Lemma decrement_ok h c l p v r k lm rm q vq :
  holds h (T c l p v r) k lm rm -> (c = RED -> k <> []) ->
  last (before k ++ elems l) = Some (q, vq) -> decrement_node h p = Done q.
Proof.
  intros Hh Hred Hq. destruct (holds_tree _ _ _ _ _ _ Hh) as (Hp & _). unfold decrement_node. rewrite (deref_eq _ _ _ Hp).
  cbn [mbind outcome_bind my_color my_parent my_left my_right].
  assert (Htop : (if bool_decide (c = RED) then q ← parent h (top trunk k); Done (q =? p) else Done false) = Done false).
  { case_bool_decide as Hc; [|done]. destruct k as [|[d1 c1 p1 v1 s1] k]; [by specialize (Hred Hc)|]. cbn [top].
    pose proof (holds_frame trunk _ _ _ _ _ _ _ _ _ _ Hh) as Hf. rewrite (parent_eq _ _ _ Hf), parent_nd. cbn [mbind outcome_bind]. f_equal.
    apply Z.eqb_neq. intros E. pose proof (holds_nodup _ _ _ _ _ _ Hh) as Hnd. rewrite NoDup_cons, NoDup_app in Hnd.
    destruct Hnd as (Hn1 & _ & Hd & _). assert (Hin : p ∈ addrs (T c l p v r)) by (apply elem_of_T; by left).
    destruct (top_in trunk k) as [Et|Ht].
    - apply Hn1. rewrite <- Et, E. apply elem_of_app. by left.
    - rewrite E in Ht. apply (Hd p Hin). cbn [ctx_addrs]. rewrite elem_of_cons, elem_of_app. tauto. }
  rewrite Htop. cbn [mbind outcome_bind]. destruct l as [|cl ll pl vl rl].
  - cbn [root]. change (negb (0 =? 0)) with false. cbv iota. cbn [elems] in Hq. rewrite app_nil_r in Hq.
    destruct (split_side LEFT k) as (k1 & k2 & -> & Hk1 & Hk2). rewrite (before_left _ _ Hk1) in Hq.
    destruct k2 as [|[d2 c2 p2 v2 s2] k2]; [done|]. cbn in Hk2. subst d2. cbn [before] in Hq. rewrite !app_assoc, last_snoc in Hq. injection Hq as -> ->.
    pose proof (holds_length _ _ _ _ _ Hh) as Hlen. rewrite length_app in Hlen. cbn [length] in Hlen.
    assert (Hfuel : exists f, S (node_fuel h) = (length k1 + S f)%nat).
    { unfold node_fuel. exists (S (size h) - length k1)%nat. lia. }
    destruct Hfuel as (f & ->). change p with (root (T c E p v r)) at 1. rewrite (climb_frames _ _ _ _ _ _ _ _ Hk1 Hh) by done.
    cbn [top]. erewrite (climb_stop h LEFT); [done|exact (holds_app _ _ _ _ _ _ Hh)|by apply plug_nonempty].
  - pose proof (holds_left _ _ _ _ _ _ _ _ _ Hh) as Hl. rewrite (proj2 (Z.eqb_neq _ _) (root_nonzero _ _ _ _ _ Hl ltac:(done))). cbn [negb].
    rewrite (node_max_ok _ _ _ _ _ Hl) by done. f_equal. unfold RbInsert.last_addr. cbn [elems] in *. rewrite app_assoc, last_app_cons in Hq. rewrite last_app_cons. by rewrite Hq.
Qed.

Lemma root_plug t (k : ctx (V := V)) : root (plug t k) = base (root t) k.
Proof. revert t. induction k as [|[d c p v s] k IH]; intros t; cbn; [done|]. by rewrite IH, root_Td. Qed.
Lemma child_ne h t k lm rm d a :
  holds h t k lm rm -> t <> E -> a ∈ trunk :: ctx_addrs k -> exists n, h !! root t = Some n /\ next_of n d <> a.
Proof.
  intros Hh Ht Ha. destruct t as [|c l p v r]; [done|]. destruct (holds_tree _ _ _ _ _ _ Hh) as (Hp & _). eexists. split; [exact Hp|].
  assert (Hno : forall s, s = l \/ s = r -> root s <> a).
  { intros s Hs <-. destruct Hh as [_ _ Hnd H0]. destruct (root_or s) as [E|Hin].
    - apply H0. rewrite E in Ha. rewrite elem_of_cons in *. rewrite elem_of_app. tauto.
    - assert (root s ∈ addrs (T c l p v r)) by (apply elem_of_T; destruct Hs as [<-|<-]; tauto).
      rewrite NoDup_cons, NoDup_app in Hnd. destruct Hnd as (Hn & _ & Hd & _). apply elem_of_cons in Ha as [Ha|Ha]; [|by apply (Hd _ H)].
      apply Hn. rewrite <- Ha. apply elem_of_app. by left. }
  destruct d; apply Hno; auto.
Qed.

(** The successor of a node, or the trunk after the last. *)
Lemma increment_ok h c l p v r k lm rm :
  holds h (T c l p v r) k lm rm -> rm = last_addr (before k ++ elems (T c l p v r) ++ after k) ->
  increment_node h p = Done (head_addr (elems r ++ after k)).
Proof.
  intros Hh Hrm. destruct (holds_tree _ _ _ _ _ _ Hh) as (Hp & _). unfold increment_node. rewrite (next_eq _ _ _ _ Hp).
  cbn [mbind outcome_bind next_of my_right]. destruct r as [|cr lr pr vr rr].
  - cbn [root]. change (negb (0 =? 0)) with false. cbv iota. cbn [elems app]. rewrite (parent_eq _ _ _ Hp). cbn [mbind outcome_bind my_parent].
    destruct (split_side RIGHT k) as (k1 & k2 & -> & Hk1 & Hk2). rewrite (after_right _ _ Hk1).
    pose proof (holds_length _ _ _ _ _ Hh) as Hlen. rewrite length_app in Hlen. cbn [length] in Hlen.
    assert (Hfuel : exists f, S (node_fuel h) = (length k1 + S (S f))%nat).
    { unfold node_fuel. rewrite addrs_T, length_app in Hlen. cbn [length] in Hlen. exists (size h - length k1)%nat. lia. }
    destruct Hfuel as (f & ->). change p with (root (T c l p v E)) at 1. rewrite (climb_frames _ _ _ _ _ _ _ _ Hk1 Hh) by done.
    pose proof (holds_app _ _ _ _ _ _ Hh) as Hup. pose proof (plug_nonempty (T c l p v E) k1 ltac:(done)) as Hne. set (t1 := plug (T c l p v E) k1) in *.
    destruct k2 as [|[d2 c2 p2 v2 s2] k2].
    + pose proof (after_right k1 [] Hk1) as Haf. cbn [after top] in *. rewrite app_nil_r in *. change (head_addr []) with trunk.
      pose proof (holds_ctx _ _ _ _ _ _ Hup) as Htr. cbn in Htr.
      assert (rm = p) as ->. { rewrite Hrm, Haf, app_nil_r. cbn [elems]. by rewrite app_assoc, last_addr_app. }
      cbn [climb]. rewrite (next_eq _ _ _ _ Htr). cbn [mbind outcome_bind next_of my_right]. unfold t1 at 1. rewrite root_plug. destruct k1 as [|fr k1].
      * cbn [base root]. rewrite Z.eqb_refl, (parent_eq _ _ _ Htr). cbn [mbind outcome_bind my_parent]. cbn [climb]. unfold t1 in *. cbn [plug root] in *.
        rewrite (next_eq _ _ _ _ Hp). cbn [mbind outcome_bind next_of my_right].
        assert (Ht0 : trunk <> 0) by (intros E; pose proof (holds_nonzero _ _ _ _ _ _ Hh) as H0; apply H0; rewrite E; apply elem_of_cons; by left).
        rewrite (proj2 (Z.eqb_neq _ _) Ht0). cbn [mbind outcome_bind]. rewrite (next_eq _ _ _ _ Htr). cbn [mbind outcome_bind next_of my_right].
        by rewrite Z.eqb_refl.
      * assert (Hb : base p (fr :: k1) <> p).
        { intros E. pose proof (base_cons p fr k1) as Hin. rewrite E in Hin. pose proof (holds_nodup _ _ _ _ _ _ Hh) as Hnd.
          rewrite NoDup_cons, NoDup_app in Hnd. destruct Hnd as (_ & _ & Hd & _). apply (Hd p); [apply elem_of_T; by left|done]. }
        cbn [root]. rewrite (proj2 (Z.eqb_neq _ _) Hb). cbn [mbind outcome_bind].
        destruct (child_ne _ _ _ _ _ RIGHT trunk Hup Hne) as (n & Hn & Hc); [apply elem_of_cons; by left|].
        rewrite (next_eq _ _ _ _ Hn). cbn [mbind outcome_bind]. by rewrite (proj2 (Z.eqb_neq _ _) Hc).
    + cbn in Hk2. subst d2. cbn [top]. rewrite (climb_stop h RIGHT _ _ _ _ _ _ _ _ _ Hup Hne). cbn [mbind outcome_bind after RbInsert.head_addr].
      destruct (child_ne _ _ _ _ _ RIGHT p2 Hup Hne) as (n & Hn & Hc); [cbn [ctx_addrs]; rewrite !elem_of_cons; tauto|].
      rewrite (next_eq _ _ _ _ Hn). cbn [mbind outcome_bind]. by rewrite (proj2 (Z.eqb_neq _ _) Hc).
  - pose proof (holds_right _ _ _ _ _ _ _ _ _ Hh) as Hl. rewrite (proj2 (Z.eqb_neq _ _) (root_nonzero _ _ _ _ _ Hl ltac:(done))). cbn [negb].
    rewrite (node_min_ok _ _ _ _ _ Hl) by done. f_equal. cbn [elems]. by destruct (elems lr) as [|[]].
Qed.

(** ** Searching *)
Lemma value_eq (h : heap) c par l r p v : h !! p = Some (Node c par l r (Some v)) -> value h p = Done v.
Proof. unfold value. intros H. by rewrite (deref_eq _ _ _ H). Qed.
Lemma compare_l_eq (h : heap) c par l r p v u : h !! p = Some (Node c par l r (Some v)) -> compare_l lt h u p = Done (lt u v).
Proof. unfold compare_l. intros H. by rewrite (value_eq _ _ _ _ _ _ _ H). Qed.
Lemma compare_r_eq (h : heap) c par l r p v u : h !! p = Some (Node c par l r (Some v)) -> compare_r lt h p u = Done (lt v u).
Proof. unfold compare_r. intros H. by rewrite (value_eq _ _ _ _ _ _ _ H). Qed.

Lemma sorted_app es es' : sorted (es ++ es') -> sorted es /\ sorted es' /\ forall a b, a ∈ es -> b ∈ es' -> below a b.
Proof.
  induction es as [|x es IH]; cbn [app]; intros H; [split_and!; [constructor|done|set_solver]|].
  inversion H as [|? ? Hs Hf]; subst. destruct (IH Hs) as (H1 & H2 & H3). rewrite Forall_forall in Hf. split_and!; [|done|].
  - constructor; [done|]. apply Forall_forall. intros y Hy. apply Hf, elem_of_app. by left.
  - intros a b Ha Hb. apply elem_of_cons in Ha as [->|Ha]; [|by apply H3]. apply Hf, elem_of_app. by right.
Qed.

(** The elements before a position are not above [u], those after it are. *)
Definition cut (u : V) (k : ctx (V := V)) : Prop :=
  Forall (fun e => lt u e.2 = false) (before k) /\ Forall (fun e => lt u e.2 = true) (after k).
Definition went_left (k : ctx (V := V)) : bool := match k with F RIGHT _ _ _ _ :: _ => false | _ => true end.

Lemma descend_ok h u lm rm : forall a k fuel,
  holds h a k lm rm -> sorted (elems a) -> cut u k -> (length (addrs a) <= fuel)%nat ->
  exists k', descend lt fuel h (root a) (top trunk k) (went_left k) u = Done (top trunk k', went_left k') /\
    holds h E k' lm rm /\ plug E k' = plug a k /\ cut u k'.
Proof.
  induction a as [|c l IHl p v r IHr]; intros k fuel Hh Hs [Hc1 Hc2] Hf.
  { exists k. split_and!; [by destruct fuel|done..]. }
  rewrite addrs_T, length_app in Hf. cbn [length] in Hf. destruct fuel as [|fuel]; [lia|].
  pose proof (root_nonzero _ _ _ _ _ Hh ltac:(done)) as Hz. cbn [root] in Hz. cbn [descend root]. rewrite (proj2 (Z.eqb_neq _ _) Hz).
  destruct (holds_tree _ _ _ _ _ _ Hh) as (Hp & _). rewrite (compare_l_eq _ _ _ _ _ _ _ _ Hp). cbn [mbind outcome_bind].
  rewrite (next_eq _ _ _ _ Hp). cbn [mbind outcome_bind]. cbn [elems] in Hs. apply sorted_app in Hs as (Hsl & Hsr & Hlr).
  inversion Hsr as [|? ? Hsr' Hvr]; subst. destruct (lt u v) eqn:Huv; cbn [next_of my_left my_right].
  - destruct (IHl (F LEFT c p v r :: k) fuel) as (k' & E1 & Hk'); [by apply holds_left|done| |lia|by exists k'].
    split; [done|]. cbn [after]. constructor; [done|]. apply Forall_app; split; [|done].
    eapply Forall_impl; [exact Hvr|]. intros e He. by eapply lt_trans.
  - destruct (IHr (F RIGHT c p v l :: k) fuel) as (k' & E1 & Hk'); [by apply holds_right|done| |lia|by exists k'].
    split; [|done]. cbn [before]. apply Forall_app; split; [done|]. apply Forall_app; split; [|by constructor].
    apply Forall_forall. intros e He. destruct (lt u e.2) eqn:Hue; [|done].
    assert (lt u v = true); [|congruence]. eapply lt_trans; [exact Hue|]. apply (Hlr e (p, v) He), elem_of_cons. by left.
Qed.

(** The first element that is not below [u]. *)
Fixpoint first_not_below (u : V) (es : list (Z * V)) : option (Z * V) :=
  match es with [] => None | e :: es => if lt e.2 u then first_not_below u es else Some e end.
Lemma first_skip u es es' : Forall (fun e => lt e.2 u = true) es -> first_not_below u (es ++ es') = first_not_below u es'.
Proof. induction 1 as [|e es He _ IH]; cbn; [done|]. by rewrite He. Qed.
Lemma first_app u es es' : first_not_below u (es ++ es') = match first_not_below u es with Some e => Some e | None => first_not_below u es' end.
Proof. induction es as [|e es IH]; cbn; [done|]. by destruct (lt e.2 u). Qed.
Definition addr_or (y : Z) (o : option (Z * V)) : Z := match o with Some e => e.1 | None => y end.

Fixpoint height (a : tree (V := V)) : nat := match a with E => 0 | T _ l _ _ r => S (max (height l) (height r)) end.
Lemma height_length a : (height a <= length (addrs a))%nat.
Proof. induction a as [|c l IHl p v r IHr]; [done|]. rewrite addrs_T, length_app. cbn. lia. Qed.

Lemma lower_ok h u lm rm : forall a k fuel y,
  holds h a k lm rm -> sorted (elems a) -> (height a <= fuel)%nat ->
  lower_from lt fuel h (root a) y u = Done (addr_or y (first_not_below u (elems a))).
Proof.
  induction a as [|c l IHl p v r IHr]; intros k fuel y Hh Hs Hf; [by destruct fuel|].
  cbn [height] in Hf. destruct fuel as [|fuel]; [lia|].
  pose proof (root_nonzero _ _ _ _ _ Hh ltac:(done)) as Hz. cbn [root] in Hz. cbn [lower_from root]. rewrite (proj2 (Z.eqb_neq _ _) Hz).
  destruct (holds_tree _ _ _ _ _ _ Hh) as (Hp & _). rewrite (compare_r_eq _ _ _ _ _ _ _ _ Hp). cbn [mbind outcome_bind].
  rewrite !(next_eq _ _ _ _ Hp). cbn [mbind outcome_bind next_of my_left my_right elems]. cbn [elems] in Hs. apply sorted_app in Hs as (Hsl & Hsr & Hlr).
  inversion Hsr as [|? ? Hsr' Hvr]; subst. destruct (lt v u) eqn:Hvu; cbn [negb].
  - rewrite (IHr _ _ _ (holds_right _ _ _ _ _ _ _ _ _ Hh)) by (done || lia). rewrite first_skip.
    + cbn. by rewrite Hvu.
    + apply Forall_forall. intros e He. eapply lt_trans; [|exact Hvu]. apply (Hlr e (p, v) He), elem_of_cons. by left.
  - rewrite (IHl _ _ _ (holds_left _ _ _ _ _ _ _ _ _ Hh)) by (done || lia). rewrite first_app.
    destruct (first_not_below u (elems l)); [done|]. cbn. by rewrite Hvu.
Qed.

(** The element equivalent to [u]. *)
Definition find_elem (u : V) (es : list (Z * V)) : option (Z * V) :=
  match first_not_below u es with Some e => if lt u e.2 then None else Some e | None => None end.
Lemma first_in u es e : first_not_below u es = Some e -> e ∈ es /\ lt e.2 u = false.
Proof.
  induction es as [|x es IH]; cbn; [done|]. destruct (lt x.2 u) eqn:E; intros H; [destruct (IH H); split; [by right|done]|].
  injection H as <-. split; [by left|done].
Qed.
(** An address and the value it holds. *)
Lemma holds_elem h a k lm rm e : holds h a k lm rm -> e ∈ elems a -> exists c par l r, h !! e.1 = Some (Node c par l r (Some e.2)).
Proof.
  revert k. induction a as [|c l IHl p v r IHr]; intros k Hh Hin; [by apply not_elem_of_nil in Hin|]. cbn [elems] in Hin.
  rewrite elem_of_app, elem_of_cons in Hin. destruct Hin as [Hin|[->|Hin]].
  - by apply (IHl _ (holds_left _ _ _ _ _ _ _ _ _ Hh)).
  - destruct (holds_tree _ _ _ _ _ _ Hh) as (Hp & _). eauto.
  - by apply (IHr _ (holds_right _ _ _ _ _ _ _ _ _ Hh)).
Qed.
Lemma elem_addr e (a : tree (V := V)) : e ∈ elems a -> e.1 ∈ addrs a.
Proof. intros H. unfold addrs. apply list_elem_of_fmap. by exists e. Qed.
Lemma wf_trunk t a : wf t a -> nodes t !! trunk = Some (Node RED (root a) (head_addr (elems a)) (last_addr (elems a)) None).
Proof. intros []. apply (holds_ctx _ _ _ _ _ _ wf_holds0). Qed.
Lemma wf_fuel t a : wf t a -> (length (addrs a) <= node_fuel (nodes t))%nat.
Proof. intros []. apply holds_length in wf_holds0. unfold node_fuel. lia. Qed.
Lemma not_trunk h a k lm rm p : holds h a k lm rm -> p ∈ addrs a -> p <> trunk.
Proof. intros [_ _ Hnd _] Hp ->. apply NoDup_cons in Hnd as [Hn _]. apply Hn, elem_of_app. by left. Qed.

Lemma find_node_ok t a u : wf t a -> find_node trunk lt t u = Done (addr_or trunk (find_elem u (elems a))).
Proof.
  intros Hwf. pose proof Hwf as [Hh _ Hs _]. unfold find_node, lower_bound. rewrite (parent_eq _ _ _ (wf_trunk _ _ Hwf)). cbn [mbind outcome_bind my_parent].
  rewrite (lower_ok _ _ _ _ _ _ _ _ Hh Hs) by (pose proof (wf_fuel _ _ Hwf); pose proof (height_length a); lia). cbn [mbind outcome_bind]. unfold find_elem.
  destruct (first_not_below u (elems a)) as [e|] eqn:Ef; cbn [addr_or]; [|by rewrite Z.eqb_refl].
  apply first_in in Ef as [Hin _]. rewrite (proj2 (Z.eqb_neq _ _) (not_trunk _ _ _ _ _ _ Hh (elem_addr _ _ Hin))).
  destruct (holds_elem _ _ _ _ _ _ Hh Hin) as (c & par & l & r & Hp). rewrite (compare_l_eq _ _ _ _ _ _ _ _ Hp). cbn [mbind outcome_bind].
  by destruct (lt u e.2).
Qed.

(** ** Positions *)
Lemma lt_weak x y z : lt x y = false -> lt y z = false -> lt x z = false.
Proof using StrictWeak0. intros H1 H2. destruct (lt x z) eqn:E; [|done]. destruct (lt_cotrans _ _ y E); congruence. Qed.

(** For a cut at [u], the equivalent element is the last one before it, if any. *)
Lemma find_cut u es es' :
  sorted (es ++ es') -> Forall (fun e => lt u e.2 = false) es -> Forall (fun e => lt u e.2 = true) es' ->
  find_elem u (es ++ es') = match last es with Some e => if lt e.2 u then None else Some e | None => None end.
Proof using StrictWeak0.
  intros Hs Hb Ha. unfold find_elem.
  assert (Hafter : match first_not_below u es' with Some e => if lt u e.2 then None else Some e | None => None end = None).
  { destruct (first_not_below u es') as [e|] eqn:E; [|done]. apply first_in in E as [Hin _]. rewrite Forall_forall in Ha. by rewrite (Ha _ Hin). }
  destruct es as [|e0 es0] using rev_ind; [done|]. clear IHes0. rewrite last_snoc. apply Forall_app in Hb as [Hb He]. inversion He as [|? ? He0 _]; subst.
  apply sorted_app in Hs as (Hs & _ & _). apply sorted_app in Hs as (_ & _ & Hlt).
  assert (Hall : Forall (fun e => lt e.2 u = true) es0).
  { apply Forall_forall. intros e Hin. specialize (Hlt e e0 Hin ltac:(by left)). unfold below in Hlt.
    destruct (lt_cotrans _ _ u Hlt) as [?|?]; [done|congruence]. }
  rewrite <- app_assoc, first_skip by done. cbn [app first_not_below]. destruct (lt e0.2 u) eqn:E; [done|]. by rewrite He0.
Qed.

(** What a search for a place returns: the equivalent node, or a hole at the cut. *)
Definition placed (h : heap) (a : tree (V := V)) (u : V) (pos : Z * Z) : Prop :=
  match find_elem u (elems a) with
  | Some e => pos = (e.1, 0)
  | None => exists k, plug E k = a /\ cut u k /\ pos = (0, top trunk k)
  end.

Lemma plug_elems_E k : elems (plug (V := V) E k) = before k ++ after k.
Proof. by rewrite elems_plug. Qed.

Lemma last_before_elem k : went_left k = false ->
  exists c p v s k', k = F RIGHT c p v s :: k' /\ last (before (V := V) k) = Some (p, v).
Proof.
  destruct k as [|[[] c p v s] k]; try done. intros _. exists c, p, v, s, k. split; [done|]. cbn. by rewrite !app_assoc, last_snoc.
Qed.

Lemma pos_for_unique_ok t a u : wf t a -> exists pos, pos_for_unique trunk lt t u = Done pos /\ placed (nodes t) a u pos.
Proof using StrictWeak0.
  intros Hwf. pose proof Hwf as [Hh [n Hb] Hs _]. pose proof (wf_trunk _ _ Hwf) as Htr. unfold pos_for_unique.
  rewrite (parent_eq _ _ _ Htr). cbn [mbind outcome_bind my_parent].
  destruct (descend_ok _ u _ _ a [] (node_fuel (nodes t)) Hh Hs) as (k & Ed & Hk & Hpl & Hcut); [by split; constructor|by apply wf_fuel|].
  cbn [top went_left] in Ed. rewrite Ed. cbn [mbind outcome_bind plug] in *. rewrite (next_eq _ _ _ _ Htr). cbn [mbind outcome_bind next_of my_left].
  pose proof Hcut as [Hc1 Hc2]. unfold placed.
  assert (Hes : elems a = before k ++ after k) by (by rewrite <- Hpl, plug_elems_E).
  pose proof (find_cut u (before k) (after k)) as Hfind. rewrite <- Hes in Hfind. specialize (Hfind Hs Hc1 Hc2).
  assert (Hhole : forall e, last (before k) = Some e -> compare_r lt (nodes t) e.1 u = Done (lt e.2 u)).
  { intros e He. apply last_Some_elem_of in He. destruct (holds_elem _ _ _ _ _ e Hh) as (c & par & l & r & Hp); [rewrite Hes; apply elem_of_app; by left|].
    by apply (compare_r_eq _ _ _ _ _ _ _ _ Hp). }
  assert (Hfin : forall e, last (before k) = Some e ->
     exists pos, (b ← compare_r lt (nodes t) e.1 u; Done (if b : bool then (0, top trunk k) else (e.1, 0))) = Done pos /\
       match find_elem u (elems a) with Some e => pos = (e.1, 0) | None => exists k0, plug E k0 = a /\ cut u k0 /\ pos = (0, top trunk k0) end).
  { intros e He. rewrite Hfind, He, (Hhole _ He). cbn [mbind outcome_bind]. destruct (lt e.2 u); eexists; (split; [done|]); [by exists k|done]. }
  destruct (went_left k) eqn:Hw; cbn [andb].
  - destruct k as [|[d c p v s] k].
    + assert (a = E) as -> by done. cbn [top elems RbInsert.head_addr]. rewrite Z.eqb_refl. eexists. split; [done|]. by exists [].
    + destruct d; [|done]. cbn [top before after] in *.
      replace (head_addr (elems a)) with (head_addr (before k ++ (p, v) :: elems s ++ after k)) by (by rewrite Hes).
      destruct (last (before k)) as [[q vq]|] eqn:Hl.
      * assert (Hhd : p <> head_addr (before k ++ (p, v) :: elems s ++ after k)).
        { pose proof (holds_nodup _ _ _ _ _ _ Hh) as Hnd. cbn [ctx_addrs] in Hnd. rewrite app_nil_r in Hnd. apply NoDup_cons in Hnd as [_ Hnd].
          unfold addrs in Hnd. rewrite Hes, fmap_app, NoDup_app in Hnd. destruct Hnd as (_ & Hd & _).
          destruct (before k) as [|[b vb] bs]; [done|]. cbn. intros <-. apply (Hd p); [by left|]. by left. }
        rewrite (proj2 (Z.eqb_neq _ _) Hhd).
        assert (Hdec : decrement_node (nodes t) p = Done q).
        { apply go_up in Hk. cbn [Td] in Hk. eapply decrement_ok; [exact Hk| |cbn [elems]; by rewrite app_nil_r].
          rewrite <- Hpl in Hb. apply (rbt_unplug (F LEFT c p v s :: k) E) in Hb as (c' & m & _ & Hkk & _). intros ->. cbn in Hkk.
          destruct Hkk as (_ & Hkk & _). by destruct k as [|[]]. }
        rewrite Hdec. cbn [mbind outcome_bind]. apply (Hfin _ eq_refl).
      * apply last_None in Hl. rewrite Hl. cbn [app RbInsert.head_addr]. rewrite Z.eqb_refl. eexists. split; [done|].
        rewrite Hfind. exists (F LEFT c p v s :: k). split_and!; [done|split; cbn; [by rewrite Hl|done]|done].
  - destruct (last_before_elem _ Hw) as (c & p & v & s & k' & -> & Hl). cbn [top mbind outcome_bind].
    change p with (p, v).1 at 1. by apply (Hfin (p, v)).
Qed.

(** The hole after the last element. *)
Lemma rightmost_hole (a : tree (V := V)) : forall k0, a <> E -> exists k, plug E k = plug a k0 /\ after k = after k0 /\ went_left k = false.
Proof.
  induction a as [|c l _ p v r IHr]; intros k0 Ha; [done|]. destruct r as [|cr lr pr vr rr].
  - by exists (F RIGHT c p v l :: k0).
  - destruct (IHr (F RIGHT c p v l :: k0) ltac:(done)) as (k & H1 & H2 & H3). by exists k.
Qed.
Lemma lt_asym x y : lt x y = true -> lt y x = false.
Proof using StrictWeak0. intros H. destruct (lt y x) eqn:E; [|done]. pose proof (lt_trans _ _ _ H E) as H'. by rewrite lt_irrefl in H'. Qed.

Lemma null_hint_pos_ok t a u : wf t a -> exists pos, insert_unique_hint_pos trunk lt t 0 u = Done pos /\ placed (nodes t) a u pos.
Proof using StrictWeak0.
  intros Hwf. pose proof Hwf as [Hh _ Hs Hc]. pose proof (wf_trunk _ _ Hwf) as Htr. unfold insert_unique_hint_pos.
  rewrite (deref_eq _ _ _ Htr). cbn [mbind outcome_bind Z.eqb orb my_right]. destruct (Z.ltb_spec 0 (count t)) as [Hpos|_].
  2: { cbn [mbind outcome_bind]. by apply pos_for_unique_ok. }
  assert (Ha : a <> E) by (intros ->; cbn in Hc; lia).
  destruct (rightmost_hole a [] Ha) as (k & Hpl & Haf & Hw). cbn [plug after] in *.
  destruct (last_before_elem _ Hw) as (c & p & v & s & k' & Hk & Hl).
  assert (Hes : elems a = before k) by (by rewrite <- Hpl, plug_elems_E, Haf, app_nil_r).
  assert (Hla : last_addr (elems a) = p) by (unfold RbInsert.last_addr; by rewrite Hes, Hl).
  destruct (holds_elem _ _ _ _ _ (p, v) Hh) as (c1 & par & l1 & r1 & Hp); [rewrite Hes; by apply last_Some_elem_of|]. cbn [fst snd] in Hp.
  rewrite Hla, (compare_r_eq _ _ _ _ _ _ _ _ Hp). cbn [mbind outcome_bind]. destruct (lt v u) eqn:Hvu; [|by apply pos_for_unique_ok].
  eexists. split; [done|]. unfold placed.
  assert (Hcut : Forall (fun e => lt u e.2 = false) (before k)).
  { destruct (exists_last (l := before k)) as (es & e & He); [intros E; by rewrite E in Hl|]. rewrite He in *. rewrite last_snoc in Hl. injection Hl as ->.
    rewrite Hes in Hs. apply sorted_app in Hs as (_ & _ & Hlt). apply Forall_app; split; [|by constructor; [apply lt_asym|]].
    apply Forall_forall. intros e Hin. apply lt_asym. eapply lt_trans; [|exact Hvu]. apply (Hlt e (p, v) Hin). by left. }
  rewrite Hes, <- (app_nil_r (before k)), find_cut; [|rewrite app_nil_r; by rewrite <- Hes|done|constructor]. rewrite Hl. cbn [snd]. rewrite Hvu.
  exists k. split_and!; [done|split; [done|by rewrite Haf]|by rewrite Hk].
Qed.

(** ** Insertion *)
Lemma holds_heap h h' a k lm rm : holds h a k lm rm -> (forall p, p ∈ trunk :: addrs a ++ ctx_addrs k -> h' !! p = h !! p) -> holds h' a k lm rm.
Proof.
  intros [H1 H2 H3 H4] Hp. split; [|..|done|done].
  - eapply repr_frame; [|exact H1]. intros p Hin. apply Hp. rewrite elem_of_cons, elem_of_app. tauto.
  - eapply repr_ctx_frame; [|exact H2]. intros p Hin. apply Hp. rewrite elem_of_cons, elem_of_app. tauto.
Qed.
Lemma holds_fresh h a k lm rm l : holds h a k lm rm -> h !! l = None -> l ∉ trunk :: addrs a ++ ctx_addrs k.
Proof.
  intros [H1 H2 _ _] Hl Hin. apply repr_present in H1. apply repr_ctx_present in H2. inversion H2 as [|? ? Ht Hk]; subst.
  rewrite Forall_forall in H1, Hk. rewrite elem_of_cons, elem_of_app in Hin.
  assert (is_Some (h !! l)) as [? ?] by (destruct Hin as [->|[?|?]]; auto). congruence.
Qed.

(** The elements with one more, in its place. *)
Fixpoint insert_elem (l : Z) (u : V) (es : list (Z * V)) : list (Z * V) :=
  match es with [] => [(l, u)] | e :: es => if lt u e.2 then (l, u) :: e :: es else e :: insert_elem l u es end.
Lemma insert_elem_cut l u es es' :
  Forall (fun e => lt u e.2 = false) es -> Forall (fun e => lt u e.2 = true) es' -> insert_elem l u (es ++ es') = es ++ (l, u) :: es'.
Proof.
  induction 1 as [|e es He _ IH]; intros Ha; cbn [insert_elem app].
  - destruct Ha as [|e es' He _]; cbn [insert_elem]; [done|]. by rewrite He.
  - by rewrite He, IH.
Qed.
Lemma sorted_cut l u es es' :
  sorted (es ++ es') -> Forall (fun e => lt e.2 u = true) es -> Forall (fun e => lt u e.2 = true) es' -> sorted (es ++ (l, u) :: es').
Proof.
  induction es as [|e es IH]; cbn [app]; intros Hs Hb Ha; [by constructor|]. inversion Hs as [|? ? Hs' Hf]; subst. inversion Hb as [|? ? Hbe Hb']; subst.
  constructor; [by apply IH|]. rewrite Forall_app in Hf. destruct Hf as [Hf1 Hf2]. apply Forall_app; split; [done|]. by constructor.
Qed.

(** The elements before a hole with no equivalent element are below. *)
Lemma cut_strict u es es' :
  sorted (es ++ es') -> Forall (fun e => lt u e.2 = false) es -> Forall (fun e => lt u e.2 = true) es' -> find_elem u (es ++ es') = None ->
  Forall (fun e => lt e.2 u = true) es.
Proof using StrictWeak0.
  intros Hs Hb Ha Hn. rewrite find_cut in Hn by done. destruct es as [|e0 es0] using rev_ind; [constructor|]. clear IHes0. rewrite last_snoc in Hn.
  destruct (lt e0.2 u) eqn:E; [|done]. apply sorted_app in Hs as (Hs & _). apply sorted_app in Hs as (_ & _ & Hlt).
  apply Forall_app; split; [|by constructor]. apply Forall_forall. intros e Hin. eapply lt_trans; [|exact E]. apply (Hlt e e0 Hin). by left.
Qed.

Lemma insert_hole t a k l u :
  wf t a -> plug E k = a -> cut u k -> find_elem u (elems a) = None -> nodes t !! l = None -> l <> 0 -> count t + 1 < 2 ^ 64 ->
  exists t' a', insert_node trunk lt (construct_node t l u) 0 (top trunk k) l = Done (l, t') /\ wf t' a' /\ elems a' = insert_elem l u (elems a).
Proof using StrictWeak0.
  intros Hwf Hpl [Hc1 Hc2] Hfind Hl Hl0 Hcnt. pose proof Hwf as [Hh [n Hb] Hs Hc].
  assert (Hes : elems a = before k ++ after k) by (by rewrite <- Hpl, plug_elems_E).
  set (h := <[l := Node RED 0 0 0 (Some u)]> (nodes t)).
  assert (Hk : holds h E k (head_addr (before k ++ after k)) (last_addr (before k ++ after k))).
  { rewrite <- Hes. apply holds_plug. rewrite Hpl. eapply holds_heap; [exact Hh|]. intros p Hp. unfold h. rewrite lookup_insert_ne; [done|].
    intros ->. by apply (holds_fresh _ _ _ _ _ _ Hh Hl). }
  assert (Hk0 : rbc 0 k).
  { rewrite <- Hpl in Hb. apply rbt_unplug in Hb as (c & m & HE & Hk0 & _). by inversion HE; subst. }
  assert (Hlk : l ∉ trunk :: ctx_addrs k).
  { pose proof (holds_fresh _ _ _ _ _ _ Hh Hl) as Hn. rewrite not_elem_of_cons, not_elem_of_app in *. destruct Hn as (Hn1 & Hn2 & _).
    split; [done|]. rewrite ctx_addrs_elems. unfold addrs in Hn2. by rewrite Hes in Hn2. }
  set (d := if went_left k then LEFT else RIGHT).
  assert (Hleft : (if negb (0 =? 0) || (top trunk k =? trunk) then Done true else u0 ← value h l; compare_l lt h u0 (top trunk k)) = Done (went_left k)).
  { change (negb (0 =? 0)) with false. cbn [orb]. destruct k as [|[d' c p v s] k]; [cbn; by rewrite Z.eqb_refl|]. cbn [top].
    assert (Hpt : p <> trunk). { pose proof (holds_nodup _ _ _ _ _ _ Hk) as Hnd. apply NoDup_cons in Hnd as [Hn _]. intros ->. apply Hn. cbn. by left. }
    rewrite (proj2 (Z.eqb_neq _ _) Hpt), (value_eq h RED 0 0 0 l u) by (unfold h; apply lookup_insert_eq). cbn [mbind outcome_bind].
    pose proof (holds_frame trunk _ _ _ _ _ _ _ _ _ _ Hk) as Hp. unfold compare_l. destruct d'; cbn [nd] in Hp; rewrite (value_eq _ _ _ _ _ _ _ Hp); cbn [mbind outcome_bind went_left before after] in *.
    - inversion Hc2 as [|? ? Hv _]; subst. cbn in Hv. by rewrite Hv.
    - rewrite !Forall_app in Hc1. destruct Hc1 as (_ & _ & Hv). inversion Hv as [|? ? Hv' _]; subst. cbn in Hv'. by rewrite Hv'. }
  destruct (insert_and_rebalance_ok trunk h l u _ d k Hk Hk0 (lookup_insert_eq _ _ _) eq_refl Hl0 Hlk) as (h' & a' & m & E1 & Hh' & He & Hr).
  { destruct k as [|[[] c p v s] k]; done. }
  unfold insert_node, construct_node, with_nodes. cbn [nodes count]. fold h. rewrite Hleft. cbn [mbind outcome_bind]. fold d. rewrite E1. cbn [mbind outcome_bind].
  eexists _, a'. split; [done|]. rewrite Hes, insert_elem_cut by done. split; [|done]. split; cbn [nodes count].
  - by rewrite He.
  - by exists m.
  - rewrite He. rewrite Hes in Hs, Hfind. apply sorted_cut; [done|by eapply cut_strict|done].
  - rewrite He, Hc, Hes, !length_app. cbn [length]. rewrite Hes, length_app in Hc. rewrite wrap_small; [lia|split; lia].
Qed.

(** ** The element equivalent to a key *)
Definition equiv (u v : V) : Prop := lt u v = false /\ lt v u = false.
Lemma find_elem_Some u es e : sorted es -> e ∈ es -> equiv u e.2 -> find_elem u es = Some e.
Proof using StrictWeak0.
  intros Hs Hin [H1 H2]. apply list_elem_of_split in Hin as (es1 & es2 & ->). apply sorted_app in Hs as (_ & Hs & Hlt).
  unfold find_elem. rewrite first_skip; [cbn; by rewrite H2, H1|].
  apply Forall_forall. intros x Hx. specialize (Hlt x e Hx ltac:(by left)). unfold below in Hlt.
  destruct (lt_cotrans _ _ u Hlt) as [?|?]; [done|congruence].
Qed.
Lemma find_elem_None u es : (forall e, e ∈ es -> ~ equiv u e.2) -> find_elem u es = None.
Proof.
  intros Hn. unfold find_elem. destruct (first_not_below u es) as [e|] eqn:Ef; [|done]. apply first_in in Ef as [Hin He].
  destruct (lt u e.2) eqn:E; [done|]. by destruct (Hn e Hin).
Qed.

(** C5: insertion into a map or set.  In a tree that holds the elements [es] in order
    and in balance, [__insert_unique] returns.  If an equivalent element is present it
    returns its node and changes nothing; otherwise it links the new node in its place
    in the order, the tree is balanced again, and the first and last node, the parent
    links and the count are those of the new sequence. *)
Theorem insert_unique_correct t es l u :
  rep t es -> nodes t !! l = None -> l <> 0 -> count t + 1 < 2 ^ 64 ->
  (forall e, e ∈ es -> equiv u e.2 -> insert_unique trunk lt t l u = Done (e.1, false, t)) /\
  ((forall e, e ∈ es -> ~ equiv u e.2) ->
   exists t', insert_unique trunk lt t l u = Done (l, true, t') /\ rep t' (insert_elem l u es)).
Proof using StrictWeak0.
  intros (a & Hwf & <-) Hl Hl0 Hcnt. pose proof Hwf as [Hh _ Hs _]. unfold insert_unique.
  destruct (null_hint_pos_ok t a u Hwf) as (pos & -> & Hpos). cbn [mbind outcome_bind]. unfold placed in Hpos. unfold place. split.
  - intros e Hin He. rewrite (find_elem_Some _ _ _ Hs Hin He) in Hpos. by subst pos.
  - intros Hn. pose proof (find_elem_None _ _ Hn) as Ef. rewrite Ef in Hpos. destruct Hpos as (k & Hpl & Hcut & ->). cbn [fst snd].
    assert (Ht0 : top trunk k <> 0).
    { rewrite <- Hpl in Hh. apply holds_plug in Hh. destruct Hh as [_ _ _ H0]. intros E. apply H0. rewrite elem_of_cons, elem_of_app, <- E.
      destruct (top_in trunk k) as [->|?]; tauto. }
    rewrite (proj2 (Z.eqb_neq _ _) Ht0). cbn [negb]. destruct (insert_hole t a k l u) as (t' & a' & E1 & Hwf' & He); try done.
    rewrite E1. cbn [mbind outcome_bind]. eexists. split; [done|]. exists a'. done.
Qed.

(** looking up in a map or set.  [__find_node] returns the node of the element
    equivalent to the key, or the end position when there is none. *)
Theorem find_node_correct t es u :
  rep t es ->
  (forall e, e ∈ es -> equiv u e.2 -> find_node trunk lt t u = Done e.1) /\
  ((forall e, e ∈ es -> ~ equiv u e.2) -> find_node trunk lt t u = Done trunk).
Proof using StrictWeak0.
  intros (a & Hwf & <-). pose proof Hwf as [_ _ Hs _]. rewrite (find_node_ok t a u Hwf). split.
  - intros e Hin He. by rewrite (find_elem_Some _ _ _ Hs Hin He).
  - intros Hn. by rewrite (find_elem_None _ _ Hn).
Qed.

(** ** Depth *)
Lemma rbt_height c n a : rbt c n a -> (height a <= 2 * n + (if decide (c = RED) then 1 else 0))%nat.
Proof. induction 1 as [|n l p v r _ IHl _ IHr|n cl cr l p v r _ IHl _ IHr]; cbn [height] in *; [lia| |]; repeat case_decide; try done; lia. Qed.
Lemma rbt_size c n a : rbt (V := V) c n a -> (2 ^ n <= S (length (elems a)))%nat.
Proof.
  induction 1 as [|n l p v r _ IHl _ IHr|n cl cr l p v r _ IHl _ IHr]; cbn [elems]; [cbn; lia| |]; rewrite length_app; cbn [length]; [lia|].
  rewrite Nat.pow_succ_r'. lia.
Qed.

(** C33: searches are logarithmic.  From the root of a tree of [n] elements, the
    descent of [__lower_bound] ends within [2 * log2 (n + 1)] steps, at the first
    element that is not below the key. *)
Theorem search_depth t es u :
  rep t es ->
  exists r, parent (nodes t) trunk = Done r /\
    lower_from lt (2 * Nat.log2 (S (length es))) (nodes t) r trunk u = Done (addr_or trunk (first_not_below u es)).
Proof using StrictWeak0.
  intros (a & Hwf & <-). pose proof Hwf as [Hh [n Hb] Hs _]. exists (root a). rewrite (parent_eq _ _ _ (wf_trunk _ _ Hwf)). split; [done|].
  eapply lower_ok; [exact Hh|done|]. pose proof (rbt_height _ _ _ Hb) as H1. pose proof (rbt_size _ _ _ Hb) as H2. case_decide; [done|].
  apply Nat.log2_le_mono in H2. rewrite Nat.log2_pow2 in H2 by lia. lia.
Qed.

(** ** Iteration *)
Lemma focus_elem (a : tree (V := V)) : forall k es1 e es2, elems a = es1 ++ e :: es2 ->
  exists c l r k', plug (T c l e.1 e.2 r) k' = plug a k /\ before k' ++ elems l = before k ++ es1 /\ elems r ++ after k' = es2 ++ after k.
Proof.
  induction a as [|c l IHl p v r IHr]; intros k es1 e es2 He; [by destruct es1|]. cbn [elems] in He.
  apply app_eq_inv in He as [(m & H1 & H2)|(m & H1 & H2)]; destruct m as [|x m]; cbn [app] in H2.
  - injection H2 as -> ->. exists c, l, r, k. rewrite app_nil_r in H1. by rewrite H1.
  - injection H2 as <- ->. destruct (IHl (F LEFT c p v r :: k) es1 e m H1) as (c1 & l1 & r1 & k1 & G1 & G2 & G3).
    exists c1, l1, r1, k1. split_and!; [done|done|]. rewrite G3. cbn. by rewrite <- app_assoc.
  - injection H2 as <- <-. exists c, l, r, k. rewrite app_nil_r in H1. by rewrite H1.
  - injection H2 as <- Hr. destruct (IHr (F RIGHT c p v l :: k) m e es2 Hr) as (c1 & l1 & r1 & k1 & G1 & G2 & G3).
    exists c1, l1, r1, k1. split_and!; [done| |done]. rewrite G2, H1. cbn. rewrite <- !app_assoc. done.
Qed.

(** iteration visits the elements in order.  The first node is that of the first
    element, incrementing an iterator gives the next element's node or the end
    position after the last, and decrementing gives back the one before. *)
Theorem iteration_in_order t es :
  rep t es ->
  next (nodes t) trunk LEFT = Done (head_addr es) /\
  (forall es1 e es2, es = es1 ++ e :: es2 -> increment_node (nodes t) e.1 = Done (head_addr es2)) /\
  (forall es1 d e es2, es = es1 ++ d :: e :: es2 -> decrement_node (nodes t) e.1 = Done d.1).
Proof using StrictWeak0.
  intros (a & Hwf & <-). pose proof Hwf as [Hh [n Hb] Hs _]. split_and!.
  - by rewrite (next_eq _ _ _ _ (wf_trunk _ _ Hwf)).
  - intros es1 e es2 He. destruct (focus_elem a [] _ _ _ He) as (c & l & r & k & G1 & G2 & G3). cbn [plug before after] in *. rewrite app_nil_r in G3.
    rewrite <- G3. rewrite <- G1 in Hh. eapply increment_ok; [apply holds_plug; exact Hh|]. by rewrite elems_plug.
  - intros es1 d e es2 He. change (es1 ++ d :: e :: es2) with (es1 ++ [d] ++ e :: es2) in He. rewrite app_assoc in He.
    destruct (focus_elem a [] _ _ _ He) as (c & l & r & k & G1 & G2 & G3). cbn [plug before after app] in *. destruct d as [q vq].
    rewrite <- G1 in Hh, Hb. eapply (decrement_ok _ c l _ _ r k); [apply holds_plug; exact Hh| |rewrite G2; by rewrite last_snoc].
    apply rbt_unplug in Hb as (c' & m & Hc & _ & Hk). intros ->. inversion Hc; subst. by apply Hk.
Qed.

Lemma empty_tree_rep : trunk <> 0 -> rep (empty_tree trunk) [].
Proof.
  intros H0. exists E. split; [|done]. split; [|by exists 0%nat; constructor|constructor|done]. split; [done|apply lookup_singleton_eq|apply NoDup_singleton|].
  cbn. rewrite list_elem_of_singleton. congruence.
Qed.
End ops.
