(* ===== verification/RbErase.v ===== *)
(** Erasure from the red-black tree: what [__rebalance_for_erase] does to a node
    with two children and to the last node. *)
From Stdlib Require Import Sorted.
From S2P Require Import Prelude RbTree RbShape RbInsert RbOps.

Section erase.
Context {V : Type} (trunk : Z) (lt : V -> V -> bool) `{!StrictWeak lt}.
Abbreviation heap := (gmap Z (node V)).
Abbreviation holds := (holds (V := V) trunk).
Abbreviation wf := (wf trunk lt).

(** ** What child links lead to *)
Lemma repr_children (h : heap) d t : forall par p n, repr h par t -> p ∈ addrs t -> h !! p = Some n -> next_of n d = 0 \/ next_of n d ∈ addrs t.
Proof.
  induction t as [|c l IHl q v r IHr]; intros par p n Hr Hp Hn; [by apply not_elem_of_nil in Hp|]. destruct Hr as (H1 & H2 & H3).
  rewrite elem_of_T in Hp. rewrite elem_of_T. destruct Hp as [->|[Hp|Hp]].
  - rewrite H1 in Hn. injection Hn as <-. destruct d; cbn [next_of my_left my_right]; [destruct (root_or l)|destruct (root_or r)]; tauto.
  - destruct (IHl _ _ _ H2 Hp Hn); tauto.
  - destruct (IHr _ _ _ H3 Hp Hn); tauto.
Qed.
Lemma ctx_children (h : heap) d lm rm k : forall f p n,
  repr_ctx trunk h f lm rm k -> NoDup (ctx_addrs k) -> p ∈ ctx_addrs k -> h !! p = Some n ->
  next_of n d = 0 \/ next_of n d ∈ ctx_addrs k \/ (p = top trunk k /\ match k with F d' _ _ _ _ :: _ => d = d' | [] => False end).
Proof.
  induction k as [|[d' c q v s] k IH]; intros f p n Hr Hnd Hp Hn; [by apply not_elem_of_nil in Hp|]. cbn [repr_ctx ctx_addrs top] in *.
  destruct Hr as (H1 & H2 & H3). apply NoDup_cons in Hnd as [Hq Hnd]. rewrite elem_of_cons, elem_of_app in Hp. rewrite !elem_of_cons, !elem_of_app.
  rewrite not_elem_of_app in Hq. destruct Hp as [->|[Hp|Hp]].
  - rewrite H1 in Hn. injection Hn as <-. destruct (decide (d = d')) as [->|Hne]; [tauto|].
    assert (d = opposite d') as -> by (by destruct d, d'). rewrite next_nd_opp. destruct (root_or s); tauto.
  - destruct (repr_children _ d _ _ _ _ H2 Hp Hn); tauto.
  - apply NoDup_app in Hnd as (_ & _ & Hnd). destruct k as [|[d2 c2 p2 v2 s2] k]; [by apply not_elem_of_nil in Hp|].
    destruct (IH _ _ _ H3 Hnd Hp Hn) as [?|[?|[-> ->]]]; [tauto|tauto|]. cbn [top] in *. cbn [repr_ctx] in H3. destruct H3 as (H3 & _).
    rewrite H3 in Hn. injection Hn as <-. rewrite next_nd. tauto.
Qed.

(** A descent stays in a set of nodes closed under the child links. *)
Lemma lower_closed (h : heap) (S : Z -> Prop) u : (forall p n d, S p -> h !! p = Some n -> next_of n d = 0 \/ S (next_of n d)) ->
  forall fuel x y r, (x = 0 \/ S x) -> lower_from lt fuel h x y u = Done r -> S r \/ r = y.
Proof.
  intros Hc. induction fuel as [|fuel IH]; intros x y r Hx; cbn [lower_from].
  { destruct (Z.eqb_spec x 0); [|done]. intros [= <-]. by right. }
  destruct (Z.eqb_spec x 0) as [->|Hx0]; [intros [= <-]; by right|]. destruct Hx as [?|Hx]; [done|].
  unfold compare_r, value, next, deref. destruct (h !! x) as [n|] eqn:Hn; cbn [or_undef mbind outcome_bind]; [|done].
  destruct (my_data n) as [v|]; cbn [or_undef mbind outcome_bind]; [|done].
  destruct (lt v u); cbn [negb]; intros H; apply IH in H; eauto.
  - destruct H as [?| ->]; auto.
Qed.
Lemma find_closed (t : rb_tree (V := V)) (S : Z -> Prop) u r p :
  parent (nodes t) trunk = Done r -> S r -> (forall p n d, S p -> nodes t !! p = Some n -> next_of n d = 0 \/ S (next_of n d)) ->
  find_node trunk lt t u = Done p -> S p \/ p = trunk.
Proof.
  intros Hr HS Hc. unfold find_node, lower_bound. rewrite Hr. cbn [mbind outcome_bind].
  destruct (lower_from _ _ _ _ _ _) as [q| |] eqn:E; cbn [mbind outcome_bind]; try done.
  apply (lower_closed _ S) in E; [|done|by right]. destruct (Z.eqb_spec q trunk); [intros [= <-]; tauto|].
  destruct (compare_l _ _ _ _) as [b| |]; cbn [mbind outcome_bind]; try done. destruct b; intros [= <-]; tauto.
Qed.

(** ** Unlinking a red node *)

(** A red node hangs below another one. *)
Lemma red_has_parent t l z v r k : wf t (plug (T RED l z v r) k) -> exists d c p vp s k', k = F d c p vp s :: k'.
Proof.
  intros [_ [n Hb] _ _]. apply rbt_unplug in Hb as (c & m & Hc & _ & Hk). inversion Hc; subst. destruct (Hk eq_refl) as [Hne _].
  destruct k as [|[d c p vp s] k]; [done|]. eauto 10.
Qed.

(** The store after a red node with the replacement [x] has been unlinked, when the
    node is neither first nor last. *)
Lemma erase_red_heap h fuel l z v d c p vp s k lm rm r x :
  let kk := F d c p vp s :: k in
  holds h (T RED l z v r) kk lm rm ->
  (if root l =? 0 then Done (root r) else if root r =? 0 then Done (root l) else m ← node_min h (root r); next h m RIGHT) = Done x ->
  z <> lm ->
  exists h1 b np, base z kk = b /\ h1 = <[p := nd d c (top trunk k) x (root s) vp]> h /\ h1 !! b = Some np /\ b ∈ ctx_addrs kk /\
    (z <> rm -> rebalance_for_erase trunk fuel h z = Done (z, <[b := set_color BLACK np]> h1)) /\
    (z = rm -> l = E -> r = E -> rebalance_for_erase trunk fuel h z = Done (z, <[b := set_color BLACK np]> (<[trunk := Node RED b lm z None]> h1))).
Proof.
  intros kk Hh Hx Hlm. destruct (holds_tree _ _ _ _ _ _ Hh) as (Hz & _ & _). cbn [top kk] in Hz.
  pose proof (holds_frame trunk _ _ _ _ _ _ _ _ _ _ Hh) as Hp. cbn [root] in Hp.
  pose proof (repr_ctx_trunk _ _ _ _ _ _ (holds_ctx _ _ _ _ _ _ Hh)) as Htr. cbn [root] in Htr.
  pose proof (base_cons z (F d c p vp s) k) as Hb. change (F d c p vp s :: k) with kk in Hb. set (b := base z kk) in *.
  pose proof (sibling_ne trunk _ _ _ _ _ _ _ _ _ _ Hh ltac:(done)) as Hzs. cbn [root] in Hzs.
  pose proof (holds_nodup _ _ _ _ _ _ Hh) as Hnd. apply NoDup_cons in Hnd as [Hnt Hnd]. rewrite not_elem_of_app in Hnt. destruct Hnt as [Hnt1 Hnt2].
  apply NoDup_app in Hnd as (_ & Hdis & Hnd).
  assert (Hzin : z ∈ addrs (T RED l z v r)) by (apply elem_of_T; by left). assert (Hpin : p ∈ ctx_addrs kk) by (by left).
  assert (Hzt : z <> trunk) by congruence. assert (Hpt : p <> trunk) by congruence. assert (Hbt : b <> trunk) by congruence.
  assert (Hpz : p <> z) by (intros ->; by apply (Hdis z)). assert (Hbz : b <> z) by (intros E; rewrite E in Hb; by apply (Hdis z)).
  assert (Hbn : exists nb, h !! b = Some nb).
  { pose proof (repr_ctx_present trunk _ _ _ _ _ (holds_ctx _ _ _ _ _ _ Hh)) as Hpres. inversion Hpres as [|? ? _ Hpres']; subst.
    rewrite Forall_forall in Hpres'. destruct (Hpres' _ Hb) as [nb ?]. eauto. }
  destruct Hbn as [nb Hbn]. set (h1 := <[p := nd d c (top trunk k) x (root s) vp]> h).
  assert (Hb1 : exists np, h1 !! b = Some np).
  { unfold h1. destruct (decide (p = b)) as [Epb|]; [rewrite <- Epb, lookup_insert_eq; eauto|rewrite lookup_insert_ne by done; eauto]. }
  destruct Hb1 as [np Hb1]. exists h1, b, np. split_and!; [done|done|done|done|..].
  all: intros Hrm; intros; unfold rebalance_for_erase; rewrite !(next_eq _ _ _ _ Hz); cbn [mbind outcome_bind next_of my_left my_right]; rewrite Hx;
    cbn [mbind outcome_bind]; rewrite (parent_eq _ _ _ Hz); cbn [mbind outcome_bind my_parent]; rewrite (parent_eq _ _ _ Htr); cbn [mbind outcome_bind my_parent];
    rewrite (proj2 (Z.eqb_neq _ _) Hbz), (next_eq _ _ _ LEFT Hp); cbn [mbind outcome_bind].
  all: assert (Hlink : (if z =? next_of (nd d c (top trunk k) z (root s) vp) LEFT then upd h p (set_next LEFT x) else upd h p (set_next RIGHT x)) = Done h1)
    by (destruct d; cbn [next_of nd my_left]; [rewrite Z.eqb_refl|rewrite (proj2 (Z.eqb_neq _ _) Hzs)]; by rewrite (upd_eq _ _ _ _ Hp)).
  all: rewrite Hlink; cbn [mbind outcome_bind]; erewrite (next_eq h1 trunk) by (unfold h1; lk); cbn [mbind outcome_bind next_of my_left];
    rewrite (proj2 (Z.eqb_neq _ _) Hlm); cbn [mbind outcome_bind]; erewrite (next_eq h1 trunk) by (unfold h1; lk); cbn [mbind outcome_bind next_of my_right].
  - rewrite (proj2 (Z.eqb_neq _ _) Hrm). cbn [mbind outcome_bind]. erewrite (deref_eq h1 z) by (unfold h1; lk). cbn [mbind outcome_bind my_color].
    rewrite bool_decide_eq_true_2 by done. cbn [mbind outcome_bind]. erewrite (parent_eq h1 trunk) by (unfold h1; lk). cbn [mbind outcome_bind my_parent].
    by rewrite (upd_eq _ _ _ _ Hb1).
  - subst l r. cbn [root] in *. rewrite <- Hrm, Z.eqb_refl. erewrite (next_eq h1 z) by (unfold h1; lk). cbn [mbind outcome_bind next_of my_left Z.eqb].
    unfold node_max, node_fuel. cbn [max_from]. erewrite (next_eq h1 z) by (unfold h1; lk). cbn [mbind outcome_bind next_of my_right Z.eqb].
    erewrite (upd_eq h1 trunk) by (unfold h1; lk). cbn [mbind outcome_bind set_next my_color my_parent my_left my_data].
    erewrite (deref_eq _ z) by (unfold h1; lk). cbn [mbind outcome_bind my_color]. rewrite bool_decide_eq_true_2 by done. cbn [mbind outcome_bind].
    erewrite (parent_eq _ trunk) by lk. cbn [mbind outcome_bind my_parent]. erewrite (upd_eq _ b); [done|]. lk.
Qed.

Lemma head_in (es : list (Z * V)) : es <> [] -> head_addr trunk es ∈ fst <$> es.
Proof. destruct es as [|[p v] es]; [done|]. intros _. by left. Qed.
Lemma last_in (es : list (Z * V)) : es <> [] -> last_addr trunk es ∈ fst <$> es.
Proof.
  intros Hne. unfold last_addr. destruct (last es) as [[p v]|] eqn:E; [|by apply last_None in E].
  apply last_Some_elem_of in E. apply list_elem_of_fmap. by exists (p, v).
Qed.
Lemma elems_nonempty (t : tree (V := V)) : t <> E -> elems t <> [].
Proof. destruct t; [done|]. intros _. cbn. by destruct (elems t1). Qed.

(** A node with elements before it is not the first, one with elements after it not the last. *)
Lemma not_first es (z : Z) (v : V) es' : NoDup (fst <$> es ++ (z, v) :: es') -> es <> [] -> z <> head_addr trunk (es ++ (z, v) :: es').
Proof.
  intros Hnd Hne Hz. rewrite fmap_app, NoDup_app in Hnd. destruct Hnd as (_ & Hd & _). pose proof (head_in es Hne) as Hin.
  apply (Hd (head_addr trunk es) Hin). destruct es as [|[p w] es]; [done|]. cbn in *. rewrite <- Hz. by left.
Qed.
Lemma not_last es (z : Z) (v : V) es' : NoDup (fst <$> es ++ (z, v) :: es') -> es' <> [] -> z <> last_addr trunk (es ++ (z, v) :: es').
Proof.
  intros Hnd Hne Hz. rewrite fmap_app, NoDup_app in Hnd. destruct Hnd as (_ & _ & Hd). cbn [fmap list_fmap] in Hd. apply NoDup_cons in Hd as [Hd _].
  apply Hd. cbn [fst]. rewrite Hz, last_addr_app, (last_addr_tail trunk) by done. by apply last_in.
Qed.
Lemma wf_nodup t a : wf t a -> NoDup (fst <$> elems a).
Proof. intros [Hh _ _ _]. destruct Hh as [_ _ Hnd _]. cbn in Hnd. rewrite app_nil_r in Hnd. by apply NoDup_cons in Hnd as [_ ?]. Qed.

(** After the replacement [x] of the focus has been linked below [p], the child links
    of the nodes above stay among them and what [x] leads to. *)
Lemma unlinked_children (h : heap) z d c p vp s k lm rm x b np a n d' :
  let kk := F d c p vp s :: k in
  let h1 := <[p := nd d c (top trunk k) x (root s) vp]> h in
  repr_ctx trunk h z lm rm kk -> NoDup (ctx_addrs kk) -> h1 !! b = Some np ->
  a ∈ ctx_addrs kk -> <[b := set_color BLACK np]> h1 !! a = Some n ->
  next_of n d' = 0 \/ next_of n d' ∈ ctx_addrs kk \/ next_of n d' = x.
Proof.
  intros kk h1 Hk Hnd Hbn Ha Hn.
  assert (Hn1 : exists n1, h1 !! a = Some n1 /\ next_of n1 d' = next_of n d').
  { destruct (decide (a = b)) as [->|]; [rewrite lookup_insert_eq in Hn; injection Hn as <-; exists np; by destruct d'|].
    rewrite lookup_insert_ne in Hn by done. eauto. }
  destruct Hn1 as (n1 & Hn1 & <-). unfold h1 in Hn1. destruct (decide (a = p)) as [->|Hap].
  - rewrite lookup_insert_eq in Hn1. injection Hn1 as <-. destruct (decide (d' = d)) as [->|Hd]; [rewrite next_nd; tauto|].
    assert (d' = opposite d) as -> by (by destruct d, d'). rewrite next_nd_opp. destruct (root_or s) as [?|?]; [by left|].
    right. left. unfold kk. cbn [ctx_addrs]. rewrite elem_of_cons, elem_of_app. tauto.
  - rewrite lookup_insert_ne in Hn1 by done.
    destruct (ctx_children _ d' _ _ _ _ _ _ Hk Hnd Ha Hn1) as [?|[?|[Hx' _]]]; [tauto..|by cbn in Hx'].
Qed.

(** The node that takes the place of one with two children. *)
Lemma replacement_below h l r kl lml rml k lm rm :
  holds h l kl lml rml -> holds h r k lm rm -> l <> E -> r <> E ->
  exists x, (if root l =? 0 then Done (root r) else if root r =? 0 then Done (root l) else m ← node_min h (root r); next h m RIGHT) = Done x
    /\ (x = 0 \/ x ∈ addrs r).
Proof.
  intros HhL HhR Hl Hr.
  rewrite (proj2 (Z.eqb_neq _ _) (root_nonzero trunk _ _ _ _ _ HhL Hl)), (proj2 (Z.eqb_neq _ _) (root_nonzero trunk _ _ _ _ _ HhR Hr)).
  rewrite (node_min_ok trunk _ _ _ _ _ HhR Hr). cbn [mbind outcome_bind].
  pose proof (head_in (elems r) (elems_nonempty r Hr)) as Hin. pose proof (repr_present _ _ _ (holds_tree _ _ _ _ _ _ HhR)) as Hpres.
  rewrite Forall_forall in Hpres. destruct (Hpres _ Hin) as [nm Hm]. rewrite (next_eq _ _ _ _ Hm). eexists. split; [done|].
  exact (repr_children _ RIGHT _ _ _ _ (holds_tree _ _ _ _ _ _ HhR) Hin Hm).
Qed.

(** erasing a node with two children loses elements.  When a red node that has
    both children is erased, the right child of its successor takes its place and
    everything else below it is cut off: no lookup finds any element of its left
    subtree afterwards, although only one element has been erased and counted. *)
Theorem erase_loses_left_subtree t l z v r k fuel :
  wf t (plug (T RED l z v r) k) -> l <> E -> r <> E -> 0 < count t ->
  exists q t', erase_node trunk fuel t z = Done (q, t') /\ count t' = u64 (count t - 1) /\
    forall e u, e ∈ elems l -> find_node trunk lt t' u <> Done e.1.
Proof.
  intros Hwf Hl Hr Hcnt. destruct (red_has_parent _ _ _ _ _ _ Hwf) as (d & c & p & vp & s & k' & ->). set (kk := F d c p vp s :: k') in *.
  pose proof Hwf as [Hh _ _ _]. pose proof (wf_nodup _ _ Hwf) as Hnd. rewrite elems_plug in Hh, Hnd. cbn [elems] in Hh, Hnd. apply holds_plug in Hh.
  rewrite <- (app_assoc (elems l)), app_assoc in Hh, Hnd. cbn [app] in Hh, Hnd.
  set (bs := before kk ++ elems l) in *. set (as' := elems r ++ after kk) in *.
  assert (Hbs : bs <> []) by (unfold bs; pose proof (elems_nonempty l Hl); by destruct (before kk)).
  assert (Has : as' <> []) by (unfold as'; pose proof (elems_nonempty r Hr); by destruct (elems r)).
  pose proof (holds_left trunk _ _ _ _ _ _ _ _ _ Hh) as HhL. pose proof (holds_right trunk _ _ _ _ _ _ _ _ _ Hh) as HhR.
  destruct (replacement_below _ _ _ _ _ _ _ _ _ HhL HhR Hl Hr) as (x & Hx & Hxin).
  destruct (erase_red_heap _ fuel _ _ _ _ _ _ _ _ _ _ _ _ _ Hh Hx (not_first _ _ _ _ Hnd Hbs)) as (h1 & b & np & Hb & Hh1 & Hbn & Hbin & Her & _).
  specialize (Her (not_last _ _ _ _ Hnd Has)). set (h2 := <[b := set_color BLACK np]> h1) in *.
  pose proof (holds_nodup _ _ _ _ _ _ Hh) as Hnd2. apply NoDup_cons in Hnd2 as [Hnt Hnd2]. apply NoDup_app in Hnd2 as (Hnt3 & Hdis & Hndk).
  assert (Hpin : p ∈ ctx_addrs kk) by (by left).
  assert (Hout : forall a, a ∉ ctx_addrs kk -> h2 !! a = nodes t !! a).
  { intros a Ha. unfold h2. rewrite Hh1, !lookup_insert_ne; [done|..]; intros ->; done. }
  assert (Hinc : exists q, increment_node h2 z = Done q).
  { destruct (holds_tree _ _ _ _ _ _ Hh) as (Hz & _ & _). unfold increment_node. assert (Hz2 : h2 !! z = nodes t !! z) by (apply Hout, Hdis, elem_of_T; by left).
    rewrite Hz in Hz2. rewrite (next_eq _ _ _ _ Hz2). cbn [mbind outcome_bind next_of my_right].
    rewrite (proj2 (Z.eqb_neq _ _) (root_nonzero trunk _ _ _ _ _ HhR Hr)). cbn [negb]. eexists. unfold node_min.
    eapply (min_ok trunk); [|done|by eapply (holds_nonzero_tree trunk)|].
    - eapply repr_frame; [|exact (holds_tree _ _ _ _ _ _ HhR)]. intros a Ha. apply Hout, Hdis, elem_of_T. tauto.
    - pose proof (holds_length trunk _ _ _ _ _ HhR). unfold node_fuel, h2. rewrite Hh1.
      rewrite !map_size_insert. repeat case_match; unfold id; lia. }
  destruct Hinc as (q & Hinc).
  exists q, (Tree (delete z h2) (u64 (count t - 1))). unfold erase_node. rewrite Her. cbn [mbind outcome_bind]. rewrite Hinc. cbn [mbind outcome_bind].
  assert (Hz0 : z <> 0) by (exact (root_nonzero trunk _ _ _ _ _ Hh ltac:(done))).
  unfold destroy_node. rewrite (proj2 (Z.eqb_neq _ _) Hz0). split_and!; [done|done|].
  intros e u He Hf. assert (Hel : e.1 ∈ addrs l) by (by apply elem_addr).
  apply (find_closed _ (fun a => a ∈ ctx_addrs kk \/ a ∈ addrs r) u b) in Hf; [| |by left|].
  - assert (Hlr : e.1 ∉ addrs r).
    { intros Hin. rewrite addrs_T, NoDup_app in Hnt3. destruct Hnt3 as (_ & Hd & _). apply (Hd _ Hel). by right. }
    assert (e.1 ∈ addrs (T RED l z v r)) as Hin by (apply elem_of_T; tauto).
    destruct Hf as [[?|?]|Ht]; [by apply (Hdis _ Hin)|done|]. apply Hnt. rewrite <- Ht. apply elem_of_app. by left.
  - cbn [nodes]. assert (Htr : h2 !! trunk = nodes t !! trunk) by (apply Hout; intros Hin; apply Hnt, elem_of_app; by right).
    pose proof (repr_ctx_trunk _ _ _ _ _ _ (holds_ctx _ _ _ _ _ _ Hh)) as Ht. rewrite Ht in Htr. cbn [root] in Htr. fold kk in Hb. rewrite Hb in Htr.
    rewrite <- (lookup_delete_ne h2 z) in Htr; [by rewrite (parent_eq _ _ _ Htr)|]. intros ->. apply Hnt, elem_of_app. left. apply elem_of_T. by left.
  - cbn [nodes]. intros a n d' Ha Hn. destruct (decide (a = z)) as [->|Haz]; [by rewrite lookup_delete_eq in Hn|]. rewrite lookup_delete_ne in Hn by done.
    destruct Ha as [Ha|Ha].
    + unfold h2 in Hn. rewrite Hh1 in Hn, Hbn.
      destruct (unlinked_children _ _ _ _ _ _ _ _ _ _ _ _ _ _ _ d' (holds_ctx _ _ _ _ _ _ Hh) Hndk Hbn Ha Hn) as [?|[?| ->]]; tauto.
    + rewrite Hout in Hn by (apply Hdis, elem_of_T; tauto). destruct (repr_children _ d' _ _ _ _ (holds_tree _ _ _ _ _ _ HhR) Ha Hn); tauto.
Qed.

(** erasing the last element leaves a dangling link.  When the last node is a red
    leaf, [__rebalance_for_erase] makes the node that is about to be destroyed the
    last one again, and [__erase_node] returns the position of the element before it
    instead of the end.  Every later insertion reads the destroyed node. *)
Theorem erase_last_dangles t z v k fuel :
  wf t (plug (T RED E z v E) k) -> after k = [] -> 1 < count t < 2 ^ 64 ->
  exists t', erase_node trunk fuel t z = Done (top trunk k, t') /\
    forall l u, insert_unique trunk lt t' l u = Undef.
Proof.
  intros Hwf Haf Hcnt. destruct (red_has_parent _ _ _ _ _ _ Hwf) as (d & c & p & vp & s & k' & ->). set (kk := F d c p vp s :: k') in *.
  pose proof Hwf as [Hh _ _ _]. pose proof (wf_nodup _ _ Hwf) as Hnd. rewrite elems_plug, Haf in Hh, Hnd. cbn [elems app] in Hh, Hnd. apply holds_plug in Hh.
  destruct d; [by unfold kk in Haf|].
  assert (Hbs : before kk <> []) by (unfold kk; cbn; by destruct (before k'), (elems s)).
  assert (Hrm : z = last_addr trunk (before kk ++ [(z, v)])) by (by rewrite last_addr_app).
  destruct (erase_red_heap _ fuel _ _ _ _ _ _ _ _ _ _ _ _ 0 Hh eq_refl (not_first _ _ _ _ Hnd Hbs)) as (h1 & b & np & Hb & Hh1 & Hbn & Hbin & _ & Her).
  specialize (Her Hrm eq_refl eq_refl). fold kk in Hbin.
  set (tn := Node RED b (head_addr trunk (before kk ++ [(z, v)])) z None) in *. set (h2 := <[b := set_color BLACK np]> (<[trunk := tn]> h1)) in *.
  pose proof (holds_nodup _ _ _ _ _ _ Hh) as Hnd2. change (addrs (T RED E z v E)) with [z] in Hnd2. cbn [app] in Hnd2.
  apply NoDup_cons in Hnd2 as [Hnt Hnd2]. apply NoDup_cons in Hnd2 as [Hzk _]. rewrite not_elem_of_cons in Hnt. destruct Hnt as [Htz Htk].
  assert (Hpin : p ∈ ctx_addrs kk) by (by left).
  assert (Hpz : p <> z /\ b <> z /\ b <> trunk /\ p <> trunk) by (split_and!; congruence). destruct Hpz as (Hpz & Hbz & Hbt & Hpt).
  destruct (holds_tree _ _ _ _ _ _ Hh) as (Hz & _ & _). cbn [top kk root] in Hz.
  assert (Hz2 : h2 !! z = Some (Node RED p 0 0 (Some v))) by (unfold h2; rewrite Hh1; lk).
  assert (Hp2 : exists np', h2 !! p = Some np' /\ my_right np' = 0).
  { unfold h2. destruct (decide (b = p)) as [->|].
    - rewrite lookup_insert_eq. eexists. split; [done|]. rewrite Hh1, lookup_insert_eq in Hbn. by injection Hbn as <-.
    - rewrite !lookup_insert_ne by congruence. rewrite Hh1, lookup_insert_eq. by eexists. }
  destruct Hp2 as (np' & Hp2 & Hpr).
  assert (Hz0 : z <> 0) by exact (root_nonzero trunk _ _ _ _ _ Hh ltac:(done)).
  assert (Hp0 : p <> 0) by (apply (holds_nz trunk _ _ _ _ _ Hh); by right).
  assert (Hinc : increment_node h2 z = Done p).
  { unfold increment_node. rewrite !(next_eq _ _ _ _ Hz2), (parent_eq _ _ _ Hz2). cbn [mbind outcome_bind next_of my_right my_parent Z.eqb negb].
    cbn [climb]. rewrite (next_eq _ _ _ _ Hp2). cbn [mbind outcome_bind next_of]. rewrite Hpr, (proj2 (Z.eqb_neq _ _) Hz0). cbn [mbind outcome_bind].
    rewrite (next_eq _ _ _ _ Hz2). cbn [mbind outcome_bind next_of my_right]. by rewrite (proj2 (Z.eqb_neq 0 p) (not_eq_sym Hp0)). }
  exists (Tree (delete z h2) (u64 (count t - 1))). unfold erase_node. rewrite Her. cbn [mbind outcome_bind]. rewrite Hinc. cbn [mbind outcome_bind].
  unfold destroy_node. rewrite (proj2 (Z.eqb_neq _ _) Hz0). split; [done|]. intros l u. unfold insert_unique, insert_unique_hint_pos. cbn [nodes count].
  assert (Ht2 : delete z h2 !! trunk = Some tn) by (rewrite lookup_delete_ne by congruence; unfold h2; lk).
  rewrite (deref_eq _ _ _ Ht2). cbn [mbind outcome_bind Z.eqb orb]. rewrite wrap_small by (split; lia). destruct (Z.ltb_spec 0 (count t - 1)); [|lia].
  unfold compare_r, value, deref. cbn [tn my_right]. by rewrite lookup_delete_eq.
Qed.
End erase.

(** ** A tree of eight numbers *)
Definition add_all (t : outcome (rb_tree (V := Z))) (lu : Z * Z) : outcome rb_tree :=
  t ← t; '(_, _, t1) ← insert_unique 1 Z.ltb t lu.1 lu.2; Done t1.
Definition tree8 : rb_tree (V := Z) :=
  match fold_left add_all [(10, 50); (20, 30); (30, 70); (40, 20); (50, 40); (60, 60); (70, 80); (80, 10)] (Done (empty_tree 1)) with
  | Done t => t
  | _ => empty_tree 1
  end.
Definition left8 : tree (V := Z) := T BLACK (T RED E 80 10 E) 40 20 E.
Definition right8 : tree (V := Z) := T BLACK E 50 40 E.
Definition shape8 : tree (V := Z) :=
  T BLACK (T RED left8 20 30 right8) 10 50 (T BLACK (T RED E 60 60 E) 30 70 (T RED E 70 80 E)).
Definition elems8 : list (Z * Z) := [(80, 10); (40, 20); (20, 30); (50, 40); (10, 50); (60, 60); (30, 70); (70, 80)].

Lemma tree8_wf : wf 1 Z.ltb tree8 shape8.
Proof.
  split.
  - split; [vm_compute; repeat (split; [reflexivity|]); tauto|vm_compute; reflexivity|apply (bool_decide_unpack _); vm_compute; reflexivity..].
  - exists 2%nat. repeat econstructor.
  - repeat constructor.
  - vm_compute. reflexivity.
Qed.
Lemma tree8_rep : rep 1 Z.ltb tree8 elems8.
Proof. exists shape8. split; [apply tree8_wf|reflexivity]. Qed.

(** Inserting 45, which is not there, and 40, which is. *)
Lemma insert_unique_correct_witness :
  insert_unique 1 Z.ltb tree8 90 40 = Done (50, false, tree8) /\
  exists t', insert_unique 1 Z.ltb tree8 90 45 = Done (90, true, t') /\
    rep 1 Z.ltb t' [(80, 10); (40, 20); (20, 30); (50, 40); (90, 45); (10, 50); (60, 60); (30, 70); (70, 80)].
Proof.
  split.
  - refine (proj1 (insert_unique_correct 1 Z.ltb tree8 elems8 90 40 tree8_rep _ _ _) (50, 40) _ _);
      [vm_compute; reflexivity|discriminate|vm_compute; reflexivity|apply (bool_decide_unpack _); vm_compute; reflexivity|by split].
  - refine (proj2 (insert_unique_correct 1 Z.ltb tree8 elems8 90 45 tree8_rep _ _ _) _); [vm_compute; reflexivity|discriminate|vm_compute; reflexivity|].
    apply Forall_forall. repeat constructor; by intros [? ?].
Defined.
Lemma find_node_correct_witness : find_node 1 Z.ltb tree8 40 = Done 50 /\ find_node 1 Z.ltb tree8 45 = Done 1.
Proof.
  split.
  - refine (proj1 (find_node_correct 1 Z.ltb tree8 elems8 40 tree8_rep) (50, 40) _ _); [apply (bool_decide_unpack _); vm_compute; reflexivity|by split].
  - refine (proj2 (find_node_correct 1 Z.ltb tree8 elems8 45 tree8_rep) _). apply Forall_forall. repeat constructor; by intros [? ?].
Defined.
Lemma search_depth_witness : exists r, parent (nodes tree8) 1 = Done r /\ lower_from Z.ltb 6 (nodes tree8) r 1 45 = Done 10.
Proof. exact (search_depth 1 Z.ltb tree8 elems8 45 tree8_rep). Defined.
Lemma iteration_in_order_witness : next (nodes tree8) 1 LEFT = Done 80 /\ increment_node (nodes tree8) 50 = Done 10.
Proof.
  split; [exact (proj1 (iteration_in_order 1 Z.ltb tree8 elems8 tree8_rep))|].
  exact (proj1 (proj2 (iteration_in_order 1 Z.ltb tree8 elems8 tree8_rep)) [(80, 10); (40, 20); (20, 30)] (50, 40) _ eq_refl).
Defined.
(** Erasing 30 loses 10 and 20. *)
Lemma erase_loses_left_subtree_witness :
  exists q t', erase_node 1 0 tree8 20 = Done (q, t') /\ count t' = 7 /\
    find_node 1 Z.ltb t' 10 <> Done 80 /\ find_node 1 Z.ltb t' 20 <> Done 40.
Proof.
  destruct (erase_loses_left_subtree 1 Z.ltb tree8 left8 20 30 right8
              [F LEFT BLACK 10 50 (T BLACK (T RED E 60 60 E) 30 70 (T RED E 70 80 E))] 0 tree8_wf) as (q & t' & H1 & H2 & H3).
  - discriminate.
  - discriminate.
  - vm_compute. reflexivity.
  - exists q, t'. split; [exact H1|]. split; [exact H2|].
    split; [apply (H3 (80, 10))|apply (H3 (40, 20))]; apply (bool_decide_unpack _); vm_compute; reflexivity.
Defined.
(** Erasing 80. *)
Lemma erase_last_dangles_witness :
  exists t', erase_node 1 0 tree8 70 = Done (30, t') /\ insert_unique 1 Z.ltb t' 90 45 = Undef.
Proof.
  destruct (erase_last_dangles 1 Z.ltb tree8 70 80
              [F RIGHT BLACK 30 70 (T RED E 60 60 E); F RIGHT BLACK 10 50 (T RED left8 20 30 right8)] 0 tree8_wf) as (t' & H1 & H2).
  - reflexivity.
  - split; vm_compute; reflexivity.
  - exists t'. split; [exact H1|apply H2].
Defined.
