(* ===== verification/Hashtable.v ===== *)
(** The hash table under [std::hash_map], [std::hash_set] and the unordered
    containers (common/include/c++/bits/hashtable.hpp, [__insert_or_assign] of
    bits/hash_map.hpp).

    All nodes of a table form one singly linked chain that starts at the table's
    [__root]; the nodes of a bucket are contiguous, and the bucket array holds for
    each bucket the node before its first one.  The nodes, the bucket arrays and
    the table objects live in a store of addresses.  A table object is named by the
    address of its [__root]; its built-in array of one bucket ([__singularity])
    follows at offset 8.  Load factors are floating point numbers, computed with
    the rounding of [float] and [double].  The hash function, the key of a value
    and the equality of keys are the table's template parameters; the allocator is
    a parameter too, and does not run out of memory. *)
From Stdlib Require Import SpecFloat.
From S2P Require Import Prelude.

Module Hashtable.

(** ** Floating point *)
Definition to_double (n : Z) : spec_float := binary_normalize 53 1024 n 0 false.
Definition to_float (f : spec_float) : spec_float :=
  match f with
  | S754_finite s m e => binary_normalize 24 128 (if s then Zneg m else Zpos m) e s
  | _ => f
  end.
Definition float_of (n : Z) : spec_float := binary_normalize 24 128 n 0 false.
Definition float_one : spec_float := float_of 1.
Definition float_div : spec_float -> spec_float -> spec_float := SFdiv 24 128.
(** [__builtin_ceilf] followed by a conversion to an unsigned integer of width
    [w], which is undefined outside the range of the type. *)
Definition ceil_to (w : Z) (f : spec_float) : outcome Z :=
  match f with
  | S754_zero _ => Done 0
  | S754_finite s m e =>
      let z := if s then Zneg m else Zpos m in
      let c := if 0 <=? e then z * 2 ^ e else - ((- z) / 2 ^ (- e)) in
      if (0 <=? c) && (c <? 2 ^ w) then Done c else Undef
  | _ => Undef
  end.

(** ** Tables and the store *)
Record hdr := Hdr {
  element_count : Z;
  bucket_count : Z;
  after_root_idx : Z;
  my_buckets : Z;
  max_load : spec_float }.
Definition set_element_count (h : hdr) (n : Z) : hdr :=
  Hdr n (bucket_count h) (after_root_idx h) (my_buckets h) (max_load h).
Definition set_after_root_idx (h : hdr) (i : Z) : hdr :=
  Hdr (element_count h) (bucket_count h) i (my_buckets h) (max_load h).
Definition set_buckets (h : hdr) (b n : Z) : hdr :=
  Hdr (element_count h) n (after_root_idx h) b (max_load h).
Definition set_max_load (h : hdr) (f : spec_float) : hdr :=
  Hdr (element_count h) (bucket_count h) (after_root_idx h) (my_buckets h) f.

(** [nexts] are the [__next] fields of the nodes and roots, [vals] the values of
    the nodes, [arrs] the bucket arrays. *)
Record store (V : Type) := Store {
  nexts : gmap Z Z;
  vals : gmap Z V;
  arrs : gmap Z (list Z);
  hdrs : gmap Z hdr }.
Arguments Store {V}.
Arguments nexts {V}.
Arguments vals {V}.
Arguments arrs {V}.
Arguments hdrs {V}.

(** The template parameters of a table. *)
Class HashParams (K V : Type) := {
  hasher : K -> Z;
  key_extract : V -> K;
  key_equal : K -> K -> bool }.
(** The allocator: where the next node or bucket array goes. *)
Class NewAddr (V : Type) := new_addr : store V -> Z.

(** [array_zero] of the first [n] elements. *)
Definition array_zero (bs : list Z) (n : Z) : outcome (list Z) :=
  if n <=? Z.of_nat (length bs) then Done (replicate (Z.to_nat n) 0 ++ drop (Z.to_nat n) bs) else Undef.
Definition singularity (self : Z) : Z := self + 8.

Section table.
Context {K V : Type} `{!HashParams K V} `{!NewAddr V}.
Implicit Types (st : store V) (h : hdr) (self n p idx : Z).

Definition with_nexts st (m : gmap Z Z) : store V := Store m (vals st) (arrs st) (hdrs st).
Definition with_vals st (m : gmap Z V) : store V := Store (nexts st) m (arrs st) (hdrs st).
Definition with_arrs st (m : gmap Z (list Z)) : store V := Store (nexts st) (vals st) m (hdrs st).
Definition with_hdrs st (m : gmap Z hdr) : store V := Store (nexts st) (vals st) (arrs st) m.

Definition next_of st p : outcome Z := or_undef (nexts st !! p).
Definition set_next st p n : outcome (store V) :=
  _ ← next_of st p; Done (with_nexts st (<[p := n]> (nexts st))).
Definition head_of st self : outcome hdr := or_undef (hdrs st !! self).
Definition set_head st self h : store V := with_hdrs st (<[self := h]> (hdrs st)).
Definition bucket_get st (arr idx : Z) : outcome Z :=
  bs ← or_undef (arrs st !! arr); array_get bs idx.
Definition bucket_set st (arr idx x : Z) : outcome (store V) :=
  bs ← or_undef (arrs st !! arr);
  bs' ← array_set bs idx x;
  Done (with_arrs st (<[arr := bs']> (arrs st))).

(** ** [__hashtable_base] *)
Definition is_singularity self h : bool := (bucket_count h <? 2) || (my_buckets h =? singularity self).
Definition load h (added : Z) : spec_float :=
  to_float (SFdiv 53 1024 (to_double (u64 (element_count h + added))) (to_double (bucket_count h))).
Definition need_rehash h (added : Z) : bool := (bucket_count h <? 2) || SFleb (max_load h) (load h added).
Definition next_bucket_ct h (added : Z) : outcome Z :=
  c ← ceil_to 32 (float_div (load h added) (max_load h));
  Done (u64 (Z.max 5 (bucket_count h) * (1 + c))).
Definition range h (i : Z) : outcome Z := if bucket_count h =? 0 then Undef else Done (i mod bucket_count h).
Definition range_max (i max : Z) : Z := if max =? 0 then 0 else i mod max.
Definition deallocate_buckets st self h : store V :=
  if is_singularity self h then st else with_arrs st (delete (my_buckets h) (arrs st)).
Definition allocate_buckets st (n : Z) : Z * store V :=
  (new_addr st, with_arrs st (<[new_addr st := replicate (Z.to_nat n) 0]> (arrs st))).

Definition insert_at st self (buckets idx n : Z) : outcome (store V) :=
  b ← bucket_get st buckets idx;
  if negb (b =? 0) then
    bn ← next_of st b;
    st1 ← set_next st n bn;
    set_next st1 b n
  else
    rn ← next_of st self;
    st1 ← set_next st n rn;
    st2 ← set_next st1 self n;
    h ← head_of st2 self;
    st3 ← (if negb (rn =? 0) then bucket_set st2 buckets (after_root_idx h) n else Done st2);
    bucket_set (set_head st3 self (set_after_root_idx h idx)) buckets idx self.
Definition remove_first_at st self (buckets idx n_next next_bucket : Z) : outcome (store V) :=
  if n_next =? 0 then bucket_set st buckets idx 0
  else if negb (idx =? next_bucket) then
    b ← bucket_get st buckets idx;
    st1 ← bucket_set st buckets next_bucket b;
    st2 ← bucket_set st1 buckets idx 0;
    h ← head_of st2 self;
    Done (if idx =? after_root_idx h then set_head st2 self (set_after_root_idx h next_bucket) else st2)
  else Done st.
(** [__reset]; the maximal load stays. *)
Definition reset st self : outcome (store V) :=
  st1 ← set_next st self 0;
  h ← head_of st1 self;
  st2 ← bucket_set st1 (singularity self) 0 0;
  Done (set_head st2 self (Hdr 0 1 0 (singularity self) (max_load h))).
Definition init_buckets st self (n : Z) : outcome (store V) :=
  h ← head_of st self;
  if n <? 2 then
    st1 ← bucket_set st (singularity self) 0 0;
    Done (set_head st1 self (set_buckets h (singularity self) (bucket_count h)))
  else
    let '(a, st1) := allocate_buckets st n in
    Done (set_head st1 self (set_buckets h a (bucket_count h))).
(** An object at [self] with the members' initializers, and [ct] buckets. *)
Definition blank st self (ct : Z) : store V :=
  Store (<[self := 0]> (nexts st)) (vals st) (<[singularity self := [0]]> (arrs st))
    (<[self := Hdr 0 ct 0 (singularity self) float_one]> (hdrs st)).
Definition construct st self (ct : Z) : outcome (store V) := init_buckets (blank st self ct) self ct.
Definition move_fields st self that : outcome (store V) :=
  rn ← next_of st that;
  st1 ← set_next st self rn;
  h ← head_of st1 self;
  h' ← head_of st1 that;
  reset (set_head st1 self (Hdr (element_count h') (bucket_count h') (after_root_idx h') (my_buckets h') (max_load h))) that.
Definition move_construct st self that : outcome (store V) := move_fields (blank st self 1) self that.

(** ** [__hashtable]: nodes *)
Definition fuel_of st : nat := S (size (nexts st)).
Definition value_of st n : outcome V := or_undef (vals st !! n).
Definition key_of st n : outcome K := v ← value_of st n; Done (key_extract v).
Definition hash_code st n : outcome Z := k ← key_of st n; Done (hasher k).
Definition index_of st self n : outcome Z :=
  h ← head_of st self; c ← hash_code st n; range h c.
Definition index_key st self (k : K) : outcome Z := h ← head_of st self; range h (hasher k).
Definition create_node st (v : V) : Z * store V :=
  (new_addr st, with_vals (with_nexts st (<[new_addr st := 0]> (nexts st))) (<[new_addr st := v]> (vals st))).
Definition destroy_node st n : outcome (store V) :=
  _ ← next_of st n;
  Done (with_vals (with_nexts st (delete n (nexts st))) (delete n (vals st))).
Definition advance_chain st p : outcome Z := if p =? 0 then Done 0 else next_of st p.
Definition begin_ st self : outcome Z := next_of st self.
Definition begin_bucket st self idx : outcome Z :=
  h ← head_of st self; b ← bucket_get st (my_buckets h) idx; advance_chain st b.
Fixpoint end_loop (fuel : nat) st self idx n : outcome Z :=
  match fuel with
  | O => NoFuel
  | S f =>
      if n =? 0 then Done 0 else
      i ← index_of st self n;
      if i =? idx then m ← advance_chain st n; end_loop f st self idx m else Done n
  end.
Definition end_bucket st self idx : outcome Z :=
  n ← begin_bucket st self idx; end_loop (fuel_of st) st self idx n.

(** ** Searching *)
Fixpoint find_loop (fuel : nat) st self (k : K) idx prev n : outcome Z :=
  match fuel with
  | O => NoFuel
  | S f =>
      if n =? 0 then Done 0 else
      i ← index_of st self n;
      if negb (idx =? i) then Done 0 else
      kn ← key_of st n;
      if key_equal k kn then Done prev
      else m ← next_of st n; find_loop f st self k idx n m
  end.
Definition find_before st self (k : K) : outcome Z :=
  idx ← index_key st self k;
  h ← head_of st self;
  prev ← bucket_get st (my_buckets h) idx;
  n ← advance_chain st prev;
  find_loop (fuel_of st) st self k idx prev n.
Definition find st self (k : K) : outcome Z := p ← find_before st self k; advance_chain st p.
Definition contains st self (k : K) : outcome bool := n ← find st self k; Done (negb (n =? 0)).
Fixpoint before_loop (fuel : nat) st self (what idx prev n : Z) : outcome Z :=
  match fuel with
  | O => NoFuel
  | S f =>
      if n =? 0 then Done 0 else
      i ← index_of st self n;
      if negb (idx =? i) then Done 0 else
      if what =? n then Done prev
      else m ← next_of st n; before_loop f st self what idx n m
  end.
Definition get_before st self idx n : outcome Z :=
  h ← head_of st self;
  prev ← bucket_get st (my_buckets h) idx;
  p ← advance_chain st prev;
  before_loop (fuel_of st) st self n idx prev p.
Definition before st self what : outcome Z :=
  idx ← index_of st self what;
  p ← get_before st self idx what;
  Done (if negb (p =? self) then p else 0).

(** ** Rehashing and inserting *)
Fixpoint rehash_loop (fuel : nat) st self (nbkts target p : Z) : outcome (store V) :=
  match fuel with
  | O => NoFuel
  | S f =>
      if p =? 0 then Done st else
      c ← hash_code st p;
      st1 ← insert_at st self nbkts (range_max c target) p;
      m ← next_of st1 p;
      rehash_loop f st1 self nbkts target m
  end.
Definition run_rehash st self (target : Z) : outcome (store V) :=
  let target := if target <? 2 then 2 else target in
  let '(nbkts, st1) := allocate_buckets st target in
  orig ← begin_ st1 self;
  h ← head_of st1 self;
  st2 ← set_next (set_head st1 self (set_after_root_idx h 0)) self 0;
  st3 ← rehash_loop (fuel_of st2) st2 self nbkts target orig;
  h' ← head_of st3 self;
  Done (set_head (deallocate_buckets st3 self h') self (set_buckets h' nbkts target)).
Definition target_count_at_least h (cnt : Z) : outcome Z :=
  c ← ceil_to 64 (float_div (float_of (element_count h)) (max_load h));
  Done (Z.max cnt c).
Definition rehash_to_size st self (target : Z) : outcome (store V) :=
  h ← head_of st self; t ← target_count_at_least h target; run_rehash st self t.
Definition reserve st self (target : Z) : outcome (store V) :=
  h ← head_of st self;
  t ← ceil_to 64 (float_div (float_of target) (max_load h));
  rehash_to_size st self t.

Definition link_node st self (hash n added : Z) : outcome (Z * store V) :=
  h ← head_of st self;
  st1 ← (if need_rehash h added then t ← next_bucket_ct h added; run_rehash st self t else Done st);
  h1 ← head_of st1 self;
  idx ← range h1 hash;
  st2 ← insert_at st1 self (my_buckets h1) idx n;
  h2 ← head_of st2 self;
  Done (n, set_head st2 self (set_element_count h2 (u64 (element_count h2 + 1)))).
Definition insert_node st self n (added : Z) : outcome ((Z * bool) * store V) :=
  k ← key_of st n;
  p ← find st self k;
  if negb (p =? 0) then
    st1 ← destroy_node st n; Done ((p, false), st1)
  else
    c ← hash_code st n;
    '(i, st1) ← link_node st self c n added;
    Done ((i, true), st1).
Definition emplace st self (v : V) : outcome ((Z * bool) * store V) :=
  let '(n, st1) := create_node st v in insert_node st1 self n 1.
(** The loop of the range insertion over the values left to read; each of them is
    announced as the first of as many. *)
Fixpoint insert_values st self (vs : list V) : outcome (store V) :=
  match vs with
  | [] => Done st
  | v :: vs' =>
      let '(n, st1) := create_node st v in
      '(_, st2) ← insert_node st1 self n (Z.of_nat (length vs));
      insert_values st2 self vs'
  end.
(** ** Erasing *)
(** The first statement of [__erase_node]: the buckets of the removed node and of
    the node [m] after it. *)
Definition fix_buckets st self h (idx prev m : Z) : outcome (store V) :=
  b ← bucket_get st (my_buckets h) idx;
  if prev =? b then
    j ← (if negb (m =? 0) then index_of st self m else Done 0);
    remove_first_at st self (my_buckets h) idx m j
  else if negb (m =? 0) then
    j ← index_of st self m;
    if negb (idx =? j) then bucket_set st (my_buckets h) j prev else Done st
  else Done st.
Definition erase_node st self (idx prev n : Z) : outcome (Z * store V) :=
  if n =? 0 then Done (0, st) else
  h ← head_of st self;
  m ← next_of st n;
  st1 ← fix_buckets st self h idx prev m;
  st2 ← set_next st1 prev m;
  st3 ← destroy_node st2 n;
  h3 ← head_of st3 self;
  Done (m, set_head st3 self (set_element_count h3 (u64 (element_count h3 - 1)))).
Definition erase_at st self what : outcome (Z * store V) :=
  idx ← index_of st self what;
  prev ← get_before st self idx what;
  n ← advance_chain st prev;
  i ← index_of st self n;
  erase_node st self i prev n.
Definition erase_key st self (k : K) : outcome (Z * store V) :=
  prev ← find_before st self k;
  n ← advance_chain st prev;
  if negb (n =? 0) then
    i ← index_of st self n;
    '(_, st1) ← erase_node st self i prev n;
    Done (1, st1)
  else Done (0, st).

(** ** Clearing, copying and moving *)
Fixpoint destroy_loop (fuel : nat) st (n s : Z) : outcome (store V) :=
  match fuel with
  | O => NoFuel
  | S f =>
      if n =? 0 then Done st else
      st1 ← destroy_node st n;
      s' ← advance_chain st1 s;
      destroy_loop f st1 s s'
  end.
Definition deallocate_nodes st self : outcome (store V) :=
  n ← begin_ st self; s ← advance_chain st n; destroy_loop (fuel_of st) st n s.
Definition clear st self : outcome (store V) :=
  st1 ← deallocate_nodes st self;
  st2 ← set_next st1 self 0;
  h ← head_of st2 self;
  bs ← or_undef (arrs st2 !! my_buckets h);
  bs' ← array_zero bs (bucket_count h);
  Done (set_head (with_arrs st2 (<[my_buckets h := bs']> (arrs st2))) self
          (set_element_count (set_after_root_idx h 0) 0)).
Definition destruct_table st self : outcome (store V) :=
  st1 ← deallocate_nodes st self; h ← head_of st1 self; Done (deallocate_buckets st1 self h).
Fixpoint chain_values (fuel : nat) st n : outcome (list V) :=
  match fuel with
  | O => NoFuel
  | S f => if n =? 0 then Done [] else v ← value_of st n; m ← next_of st n; vs ← chain_values f st m; Done (v :: vs)
  end.
Definition values st self : outcome (list V) := n ← begin_ st self; chain_values (fuel_of st) st n.
Definition copy_construct st self that : outcome (store V) :=
  h ← head_of st that;
  st1 ← construct st self (element_count h);
  vs ← values st1 that;
  insert_values st1 self vs.
Definition copy_assign st self that : outcome (store V) :=
  st1 ← clear st self;
  vs ← values st1 that;
  insert_values st1 self vs.
Definition move_assign st self that : outcome (store V) :=
  st1 ← clear st self;
  st2 ← move_fields st1 self that;
  st3 ← reset st2 that;
  init_buckets st3 that 2.
End table.

(** ** [hash_map::__insert_or_assign], for pairs of a key and a mapped value *)
Definition insert_or_assign {K M : Type} `{!HashParams K (K * M), !NewAddr (K * M)} (st : store (K * M)) (self : Z) (v : K * M) :
    outcome ((Z * bool) * store (K * M)) :=
  let '(n, st1) := create_node st v in
  k ← key_of st1 n;
  p ← find st1 self k;
  if negb (p =? 0) then
    old ← value_of st1 p;
    st2 ← destroy_node (with_vals st1 (<[p := (old.1, v.2)]> (vals st1))) n;
    Done ((p, false), st2)
  else
    c ← hash_code st1 n;
    '(i, st2) ← link_node st1 self c n 1;
    Done ((i, true), st2).
End Hashtable.
