(* ===== verification/HashShape.v ===== *)
(** The shape of a hash table in the store: the chain of its nodes, their grouping
    into buckets, and how insertion and removal of a node change both. *)
From S2P Require Import Prelude Hashtable.
Import Hashtable.

(** ** Chains *)
(** [seg nx p l e]: the nodes [l] follow [p], and the last of them points to [e]. *)
Fixpoint seg (nx : gmap Z Z) (p : Z) (l : list Z) (e : Z) : Prop :=
  match l with
  | [] => nx !! p = Some e
  | n :: l' => nx !! p = Some n /\ seg nx n l' e
  end.
Definition last_of (p : Z) (l : list Z) : Z := default p (last l).

Lemma last_of_cons p n l : last_of p (n :: l) = last_of n l.
Proof. unfold last_of. rewrite last_cons. by destruct (last l). Qed.
Lemma last_of_app p l1 l2 : last_of p (l1 ++ l2) = last_of (last_of p l1) l2.
Proof. revert p. induction l1 as [|n l1 IH]; intros p; [done|]. cbn [app]. by rewrite !last_of_cons. Qed.
Lemma last_of_in p l : last_of p l ∈ p :: l.
Proof.
  revert p. induction l as [|n l IH]; intros p; [left|]. rewrite last_of_cons. right. apply IH.
Qed.
Lemma last_of_change p q l : l <> [] -> last_of p l = last_of q l.
Proof. destruct l; [done|]. intros _. by rewrite !last_of_cons. Qed.
Lemma seg_app nx p l1 n l2 e : seg nx p (l1 ++ n :: l2) e <-> seg nx p l1 n /\ seg nx n l2 e.
Proof. revert p. induction l1 as [|m l1 IH]; intros p; cbn [app seg]; [done|]. rewrite IH. tauto. Qed.
Lemma seg_frame nx nx' p l e : (forall a, a ∈ p :: l -> nx' !! a = nx !! a) -> seg nx p l e -> seg nx' p l e.
Proof.
  revert p. induction l as [|n l IH]; intros p Hf; cbn [seg]; rewrite (Hf p) by left; [done|].
  intros [H1 H2]. split; [done|]. apply IH; [|done]. intros a Ha. apply Hf. by right.
Qed.
Lemma seg_last nx p l e : seg nx p l e -> nx !! last_of p l = Some e.
Proof. revert p. induction l as [|n l IH]; intros p; cbn [seg]; [done|]. intros [_ H]. rewrite last_of_cons. auto. Qed.
Lemma seg_dom nx p l e a : seg nx p l e -> a ∈ p :: l -> is_Some (nx !! a).
Proof.
  revert p. induction l as [|n l IH]; intros p; cbn [seg]; rewrite elem_of_cons.
  - intros H [->|Ha%not_elem_of_nil]; [by eexists|done].
  - intros [H1 H2] [->|Ha]; [by eexists|by eapply IH].
Qed.
Lemma seg_set_last nx p l e e' : NoDup (p :: l) -> seg nx p l e -> seg (<[last_of p l := e']> nx) p l e'.
Proof.
  revert p. induction l as [|n l IH]; intros p Hnd; cbn [seg]; [intros; apply lookup_insert_eq|].
  intros [H1 H2]. rewrite last_of_cons. apply NoDup_cons in Hnd as [Hp Hnd].
  split; [|by apply IH]. rewrite lookup_insert_ne; [done|]. intros Heq. apply Hp. rewrite <- Heq. apply last_of_in.
Qed.
(** The first node, or null. *)
Lemma seg_head nx p l : seg nx p l 0 -> nx !! p = Some (default 0 (head l)).
Proof. destruct l; cbn [seg]; [done|]. by intros [H _]. Qed.
Lemma seg_rest nx p l1 l2 : seg nx p (l1 ++ l2) 0 -> nx !! last_of p l1 = Some (default 0 (head l2)).
Proof.
  destruct l2 as [|n l2]; [rewrite app_nil_r; apply seg_last|]. rewrite seg_app. intros [H _]. by apply seg_last in H.
Qed.
Lemma seg_suffix nx p l1 l2 : seg nx p (l1 ++ l2) 0 -> seg nx (last_of p l1) l2 0.
Proof.
  revert p. induction l1 as [|n l1 IH]; intros p; [done|]. cbn [app seg]. intros [_ H]. rewrite last_of_cons. auto.
Qed.
(** Linking a node into a chain, and unlinking one. *)
Lemma seg_link nx p l1 l2 n :
  NoDup (p :: l1 ++ l2) -> n ∉ p :: l1 ++ l2 -> seg nx p (l1 ++ l2) 0 ->
  seg (<[last_of p l1 := n]> (<[n := default 0 (head l2)]> nx)) p (l1 ++ n :: l2) 0.
Proof.
  intros Hnd Hn H. pose proof (last_of_in p l1) as Hl.
  assert (Hnl : n <> last_of p l1).
  { intros ->. apply Hn. rewrite app_comm_cons. apply elem_of_app. by left. }
  assert (H1 : seg nx p l1 (default 0 (head l2)) ).
  { destruct l2 as [|m l2]; [by rewrite app_nil_r in H|]. by apply seg_app in H as [H _]. }
  rewrite app_comm_cons in Hnd, Hn. apply NoDup_app in Hnd as (Hnd1 & Hd & Hnd2).
  apply seg_app. split.
  - apply seg_set_last with (e := default 0 (head l2)); [done|]. eapply seg_frame; [|exact H1].
    intros a Ha. apply lookup_insert_ne. intros ->. apply Hn, elem_of_app. by left.
  - assert (H2 : forall a, a ∈ l2 -> (<[last_of p l1:=n]> (<[n:=default 0 (head l2)]> nx)) !! a = nx !! a).
    { intros a Ha. rewrite !lookup_insert_ne; [done|intros <-..]; [apply Hn, elem_of_app; by right|by eapply Hd]. }
    destruct l2 as [|m l2]; cbn [seg head default] in *; (try split); try (rewrite lookup_insert_ne by done; apply lookup_insert_eq).
    apply seg_app in H as [_ H]. eapply seg_frame; [|exact H]. done.
Qed.
Lemma seg_unlink nx p l1 n l2 :
  NoDup (p :: l1 ++ n :: l2) -> seg nx p (l1 ++ n :: l2) 0 ->
  seg (delete n (<[last_of p l1 := default 0 (head l2)]> nx)) p (l1 ++ l2) 0.
Proof.
  intros Hnd H. rewrite app_comm_cons in Hnd. apply NoDup_app in Hnd as (Hnd1 & Hd & [Hn Hnd2]%NoDup_cons).
  apply seg_app in H as [H1 H2]. set (e := default 0 (head l2)).
  assert (H1' : seg (delete n (<[last_of p l1 := e]> nx)) p l1 e).
  { eapply seg_frame; [|by eapply seg_set_last]. intros a Ha. apply lookup_delete_ne. intros ->. eapply Hd; [done|left]. }
  destruct l2 as [|m l2]; [by rewrite app_nil_r|]. apply seg_app. split; [done|].
  destruct H2 as [_ H2]. eapply seg_frame; [|exact H2].
  intros a Ha. rewrite lookup_delete_ne, lookup_insert_ne; [done| |congruence].
  intros <-. eapply (Hd (last_of p l1)); [apply last_of_in|by right].
Qed.

Lemma NoDup_dom_size (l : list Z) (m : gmap Z Z) :
  NoDup l -> (forall a, a ∈ l -> is_Some (m !! a)) -> (length l <= size m)%nat.
Proof.
  intros Hnd Hin. rewrite <- (size_list_to_set (C := gset Z)) by done. rewrite <- size_dom.
  apply subseteq_size. intros a Ha%elem_of_list_to_set. by apply elem_of_dom, Hin.
Qed.

(** ** Groups *)
Section shape.
Context {K V : Type} `{!HashParams K V}.
(** A group is a bucket's index with its nodes and their values, in chain order. *)
Abbreviation group := (Z * list (Z * V))%type.
Implicit Types (gs : list group) (g : group) (st : store V).

Definition nodes gs : list (Z * V) := concat (gs.*2).
Definition addrs gs : list Z := (nodes gs).*1.
(** The bucket of a value when there are [bc] buckets. *)
Definition slot (bc : Z) (v : V) : Z := hasher (key_extract v) mod bc.
Definition group_ok (bc : Z) (g : group) : Prop := g.2 <> [] /\ Forall (fun x => slot bc x.2 = g.1) g.2.
(** What bucket [i] holds when the groups follow the node [p]. *)
Fixpoint bkt (p : Z) gs (i : Z) : Z :=
  match gs with
  | [] => 0
  | g :: gs' => if g.1 =? i then p else bkt (last_of p (g.2.*1)) gs' i
  end.

(** The table at [self], seen through the array of [bc] buckets at [arr], holds the
    groups [gs]. *)
Record shaped st (self arr bc : Z) (h : hdr) (bs : list Z) gs : Prop := {
  sh_head : hdrs st !! self = Some h;
  sh_array : arrs st !! arr = Some bs;
  sh_count : Z.of_nat (length bs) = bc;
  sh_pos : 0 < bc;
  sh_chain : seg (nexts st) self (addrs gs) 0;
  sh_nodup : NoDup (self :: addrs gs);
  sh_nonnull : 0 ∉ self :: addrs gs;
  sh_vals : Forall (fun x => vals st !! x.1 = Some x.2) (nodes gs);
  sh_groups : Forall (group_ok bc) gs;
  sh_indices : NoDup gs.*1;
  sh_buckets : forall i, 0 <= i < bc -> bs !! Z.to_nat i = Some (bkt self gs i);
  sh_first : match gs with [] => True | g :: _ => after_root_idx h = g.1 end }.

Lemma nodes_cons g gs : nodes (g :: gs) = g.2 ++ nodes gs.
Proof. done. Qed.
Lemma nodes_app gs gs' : nodes (gs ++ gs') = nodes gs ++ nodes gs'.
Proof. unfold nodes. by rewrite fmap_app, concat_app. Qed.
Lemma addrs_cons g gs : addrs (g :: gs) = g.2.*1 ++ addrs gs.
Proof. unfold addrs. by rewrite nodes_cons, fmap_app. Qed.
Lemma addrs_app gs gs' : addrs (gs ++ gs') = addrs gs ++ addrs gs'.
Proof. unfold addrs. by rewrite nodes_app, fmap_app. Qed.
Lemma group_addrs bc g : group_ok bc g -> g.2.*1 <> [].
Proof. intros [H _]. by destruct (g.2). Qed.

Lemma bkt_app p gs gs' i : i ∉ gs.*1 -> bkt p (gs ++ gs') i = bkt (last_of p (addrs gs)) gs' i.
Proof.
  revert p. induction gs as [|g gs IH]; intros p; cbn [app bkt fmap list_fmap]; [done|].
  rewrite not_elem_of_cons. intros [H1 H2]. rewrite (proj2 (Z.eqb_neq _ _)) by congruence.
  rewrite IH by done. by rewrite addrs_cons, last_of_app.
Qed.
Lemma bkt_prefix p gs gs' i : i ∈ gs.*1 -> bkt p (gs ++ gs') i = bkt p gs i.
Proof.
  revert p. induction gs as [|g gs IH]; intros p; cbn [app bkt fmap list_fmap]; [by rewrite elem_of_nil|].
  rewrite elem_of_cons. destruct (Z.eqb_spec (g.1) i); [done|]. intros [?|H2]; [congruence|]. by apply IH.
Qed.
Lemma bkt_absent p gs i : i ∉ gs.*1 -> bkt p gs i = 0.
Proof. intros H. rewrite <- (app_nil_r gs). by rewrite bkt_app. Qed.
Lemma bkt_in p gs i : i ∈ gs.*1 -> bkt p gs i ∈ p :: addrs gs.
Proof.
  revert p. induction gs as [|g gs IH]; intros p; cbn [bkt fmap list_fmap]; [by rewrite elem_of_nil|].
  rewrite elem_of_cons, addrs_cons. destruct (Z.eqb_spec (g.1) i) as [|Hne]; [by left|]. intros [?|Hi]; [congruence|].
  specialize (IH (last_of p (g.2.*1)) Hi). rewrite app_comm_cons, elem_of_app. apply elem_of_cons in IH as [->|IH]; [|by right].
  left. apply last_of_in.
Qed.
(** Where the chain starts matters to the first group only. *)
Lemma bkt_start bc p q g gs i : group_ok bc g -> g.1 <> i -> bkt p (g :: gs) i = bkt q (g :: gs) i.
Proof.
  intros Hg Hi. cbn [bkt]. rewrite (proj2 (Z.eqb_neq _ _)) by done. by rewrite (last_of_change p q) by eauto using group_addrs.
Qed.
Lemma bkt_zero st self arr bc h bs gs i : shaped st self arr bc h bs gs -> bkt self gs i = 0 -> i ∉ gs.*1.
Proof. intros H H0 Hi. apply (bkt_in self) in Hi. rewrite H0 in Hi. by eapply sh_nonnull. Qed.
End shape.
#[export] Hint Resolve last_of_in : ooos.
