(* ===== verification/HashOps.v ===== *)
(** The operations of the hash table on a table that holds a given chain of
    groups: searching, linking and unlinking a node, clearing. *)
From S2P Require Import Prelude Hashtable HashShape.
Import Hashtable.

(** What the key equality and the hash function of a table promise. *)
Class HashLaws (K V : Type) `{!HashParams K V} : Prop := {
  key_equal_refl k : key_equal k k = true;
  key_equal_sym k k' : key_equal k k' = true -> key_equal k' k = true;
  key_equal_trans k1 k2 k3 : key_equal k1 k2 = true -> key_equal k2 k3 = true -> key_equal k1 k3 = true;
  key_equal_hash k k' : key_equal k k' = true -> hasher k = hasher k' }.
(** What the allocator promises: storage that nothing else occupies. *)
Class NewAddrLaws (V : Type) `{!NewAddr V} : Prop := {
  new_addr_nonnull (st : store V) : new_addr st <> 0;
  new_addr_nexts (st : store V) : nexts st !! new_addr st = None;
  new_addr_vals (st : store V) : vals st !! new_addr st = None;
  new_addr_arrs (st : store V) : arrs st !! new_addr st = None }.

Section ops.
Context {K V : Type} `{!HashParams K V}.
Abbreviation group := (Z * list (Z * V))%type.
Implicit Types (gs : list group) (g : group) (st : store V).

(** ** Access to the store *)
Lemma next_of_eq st p n : nexts st !! p = Some n -> next_of st p = Done n.
Proof. unfold next_of. by intros ->. Qed.
Lemma set_next_eq st p n old : nexts st !! p = Some old -> set_next st p n = Done (with_nexts st (<[p := n]> (nexts st))).
Proof. unfold set_next, next_of. by intros ->. Qed.
Lemma head_of_eq st self h : hdrs st !! self = Some h -> head_of st self = Done h.
Proof. unfold head_of. by intros ->. Qed.
Lemma value_of_eq st n v : vals st !! n = Some v -> value_of st n = Done v.
Proof. unfold value_of. by intros ->. Qed.
Lemma bucket_get_eq st arr bs i x :
  arrs st !! arr = Some bs -> 0 <= i -> bs !! Z.to_nat i = Some x -> bucket_get st arr i = Done x.
Proof. unfold bucket_get, array_get. intros -> Hi%Z.leb_le Hx. cbn. by rewrite Hi, Hx. Qed.
Lemma bucket_set_eq st arr bs i x y :
  arrs st !! arr = Some bs -> 0 <= i -> bs !! Z.to_nat i = Some x ->
  bucket_set st arr i y = Done (with_arrs st (<[arr := <[Z.to_nat i := y]> bs]> (arrs st))).
Proof. unfold bucket_set, array_set, array_get. intros -> Hi%Z.leb_le Hx. cbn. by rewrite Hi, Hx. Qed.
Lemma destroy_node_eq st n m : nexts st !! n = Some m ->
  destroy_node st n = Done (with_vals (with_nexts st (delete n (nexts st))) (delete n (vals st))).
Proof. unfold destroy_node. intros H. by rewrite (next_of_eq _ _ _ H). Qed.
Lemma index_of_eq st self h n v : hdrs st !! self = Some h -> 0 < bucket_count h -> vals st !! n = Some v ->
  index_of st self n = Done (slot (bucket_count h) v).
Proof.
  intros Hh Hb Hv. unfold index_of, hash_code, key_of. rewrite (head_of_eq _ _ _ Hh), (value_of_eq _ _ _ Hv). cbn.
  unfold range. by rewrite (proj2 (Z.eqb_neq _ _)) by lia.
Qed.
Lemma slot_range bc v : 0 < bc -> 0 <= slot (K := K) bc v < bc.
Proof. intros. apply Z.mod_pos_bound. lia. Qed.

Lemma lookup_range (bs : list Z) i bc : Z.of_nat (length bs) = bc -> 0 <= i < bc -> exists x, bs !! Z.to_nat i = Some x.
Proof. intros H Hi. apply lookup_lt_is_Some. lia. Qed.
(** The array after one update, element by element. *)
Lemma bucket_upd (bs : list Z) i j y bc : Z.of_nat (length bs) = bc -> 0 <= i < bc -> 0 <= j ->
  <[Z.to_nat i := y]> bs !! Z.to_nat j = if i =? j then Some y else bs !! Z.to_nat j.
Proof.
  intros Hl Hi Hj. destruct (Z.eqb_spec i j) as [->|Hne]; [|apply list_lookup_insert_ne; lia].
  apply list_lookup_insert_eq. lia.
Qed.

(** ** Groups of a shaped table *)
Lemma shaped_in st self arr bc h bs gs1 i ns gs2 :
  shaped st self arr bc h bs (gs1 ++ (i, ns) :: gs2) ->
  i ∉ gs1.*1 /\ i ∉ gs2.*1 /\ ns <> [] /\ Forall (fun x => slot bc x.2 = i) ns /\ 0 <= i < bc.
Proof.
  intros H. pose proof (sh_indices _ _ _ _ _ _ _ H) as Hi. rewrite fmap_app in Hi. apply NoDup_app in Hi as (_ & Hd & [Hi _]%NoDup_cons).
  pose proof (sh_groups _ _ _ _ _ _ _ H) as Hg. apply Forall_app in Hg as [_ [[Hn Hf] _]%Forall_cons]. cbn in *.
  split_and!; try done; try (intros Hin; eapply Hd; [exact Hin|left]).
  - destruct ns as [|x ns]; [done|]. apply Forall_cons in Hf as [<- _]. apply slot_range, (sh_pos _ _ _ _ _ _ _ H).
  - destruct ns as [|x ns]; [done|]. apply Forall_cons in Hf as [<- _]. apply slot_range, (sh_pos _ _ _ _ _ _ _ H).
Qed.
Lemma group_at gs i : i ∈ gs.*1 -> exists gs1 ns gs2, gs = gs1 ++ (i, ns) :: gs2.
Proof.
  intros ([j ns] & -> & Hin)%list_elem_of_fmap. apply list_elem_of_split in Hin as (gs1 & gs2 & ->). eauto.
Qed.
Lemma shaped_bucket st self arr bc h bs gs i : shaped st self arr bc h bs gs -> 0 <= i < bc ->
  bucket_get st arr i = Done (bkt self gs i).
Proof. intros H Hi. eapply bucket_get_eq; [by eapply sh_array|lia|by eapply sh_buckets]. Qed.
Lemma shaped_node st self arr bc h bs gs x : shaped st self arr bc h bs gs -> x ∈ nodes gs ->
  vals st !! x.1 = Some x.2 /\ x.1 ∈ addrs gs /\ x.1 <> 0.
Proof.
  intros H Hx. assert (Ha : x.1 ∈ addrs gs) by (apply list_elem_of_fmap; eauto).
  split_and!; [by eapply (proj1 (Forall_forall _ _)) in Hx; [|by eapply sh_vals]|done|].
  intros H0. eapply (sh_nonnull _ _ _ _ _ _ _ H). right. by rewrite <- H0.
Qed.
Lemma shaped_known st self arr bc h bs gs a : shaped st self arr bc h bs gs -> a ∈ self :: addrs gs -> is_Some (nexts st !! a).
Proof. intros H. eapply seg_dom, sh_chain, H. Qed.
Lemma shaped_fuel st self arr bc h bs gs : shaped st self arr bc h bs gs -> (length (nodes gs) < fuel_of st)%nat.
Proof.
  intros H. assert (length (self :: addrs gs) <= size (nexts st))%nat as Hl.
  { apply NoDup_dom_size; [by eapply sh_nodup|]. intros a. by eapply shaped_known. }
  cbn in Hl. unfold addrs in Hl. rewrite length_fmap in Hl. unfold fuel_of. lia.
Qed.
(** The store may change elsewhere. *)
Lemma shaped_frame st st' self arr bc h h' bs gs :
  shaped st self arr bc h bs gs -> hdrs st' !! self = Some h' -> after_root_idx h' = after_root_idx h ->
  arrs st' !! arr = arrs st !! arr ->
  (forall a, a ∈ self :: addrs gs -> nexts st' !! a = nexts st !! a) ->
  (forall a, a ∈ addrs gs -> vals st' !! a = vals st !! a) ->
  shaped st' self arr bc h' bs gs.
Proof.
  intros [H1 H2 H3 H4 H5 H6 H7 H8 H9 H10 H11 H12] Hh Ha Hb Hn Hv. split; try done.
  - by rewrite Hb.
  - by eapply seg_frame.
  - rewrite Forall_forall in H8 |- *. intros x Hx. rewrite Hv; [by apply H8|]. apply list_elem_of_fmap. eauto.
  - destruct gs; [done|congruence].
Qed.

(** ** Linking a node *)
(** A store that differs in the chain and the bucket array of one table. *)
Definition relinked st st' (self arr : Z) (h : hdr) (bs : list Z) : Prop :=
  vals st' = vals st /\ hdrs st' = <[self := h]> (hdrs st) /\ arrs st' = <[arr := bs]> (arrs st) /\
  dom (nexts st') = dom (nexts st).

Lemma dom_insert_known (m : gmap Z Z) k x : is_Some (m !! k) -> dom (<[k := x]> m) = dom m.
Proof. apply dom_insert_lookup_L. Qed.

Lemma insert_at_group st self arr bc h bs gs1 ns gs2 n v old :
  shaped st self arr bc h bs (gs1 ++ (slot bc v, ns) :: gs2) ->
  nexts st !! n = Some old -> vals st !! n = Some v -> n ∉ self :: addrs (gs1 ++ (slot bc v, ns) :: gs2) -> n <> 0 ->
  exists st', insert_at st self arr (slot bc v) n = Done st' /\
    shaped st' self arr bc h bs (gs1 ++ (slot bc v, (n, v) :: ns) :: gs2) /\ relinked st st' self arr h bs.
Proof.
  intros H Hn Hv Hnew H0. set (i := slot bc v) in *.
  destruct (shaped_in _ _ _ _ _ _ _ _ _ _ H) as (Hi1 & Hi2 & Hns & Hf & Hi).
  pose proof (shaped_bucket _ _ _ _ _ _ _ i H Hi) as Hb. rewrite bkt_app in Hb by done. cbn [bkt fst] in Hb. rewrite Z.eqb_refl in Hb.
  set (p := last_of self (addrs gs1)) in *.
  pose proof H as [H1 H2 H3 H4 H5 H6 H7 H8 H9 H10 H11 H12].
  assert (Hp : p ∈ self :: addrs (gs1 ++ (i, ns) :: gs2)).
  { rewrite addrs_app, app_comm_cons. apply elem_of_app. left. apply last_of_in. }
  assert (Hp0 : p <> 0) by (intros E; by rewrite E in Hp).
  assert (Hpn : n <> p) by (intros E; by rewrite E in Hnew).
  rewrite addrs_app in H5, H6, Hnew. pose proof (seg_rest _ _ _ _ H5) as Hpm. fold p in Hpm. set (m := default 0 (head (addrs ((i, ns) :: gs2)))) in *.
  eexists. split; [|split].
  - unfold insert_at. rewrite Hb. cbn [mbind outcome_bind]. rewrite (proj2 (Z.eqb_neq _ _) Hp0). cbn [negb].
    rewrite (next_of_eq _ _ _ Hpm). cbn [mbind outcome_bind]. rewrite (set_next_eq _ _ _ _ Hn). cbn [mbind outcome_bind].
    erewrite set_next_eq; [done|]. cbn. by rewrite lookup_insert_ne.
  - assert (Ha : addrs (gs1 ++ (i, (n, v) :: ns) :: gs2) = addrs gs1 ++ n :: addrs ((i, ns) :: gs2)) by by rewrite addrs_app, !addrs_cons.
    assert (HP : self :: addrs gs1 ++ n :: addrs ((i, ns) :: gs2) ≡ₚ n :: self :: addrs gs1 ++ addrs ((i, ns) :: gs2)) by solve_Permutation.
    split; cbn [with_nexts hdrs arrs nexts vals]; rewrite ?Ha; try done.
    + by apply seg_link.
    + rewrite HP. apply NoDup_cons. done.
    + rewrite HP. rewrite not_elem_of_cons. rewrite addrs_app in H7. split; [congruence|done].
    + rewrite nodes_app, nodes_cons in *. apply Forall_app in H8 as [? ?]. apply Forall_app. split; [done|]. by apply Forall_cons.
    + apply Forall_app in H9 as [? [? ?]%Forall_cons]. apply Forall_app. split; [done|]. apply Forall_cons. split; [|done].
      split; [done|]. cbn. by apply Forall_cons.
    + by rewrite fmap_app in *.
    + intros j Hj. rewrite (H11 j Hj). f_equal. destruct (decide (j ∈ gs1.*1)) as [Hin|Hin]; [by rewrite !bkt_prefix|].
      rewrite !bkt_app by done. cbn [bkt fst snd fmap list_fmap]. destruct (i =? j); [done|].
      rewrite last_of_cons. by rewrite (last_of_change n (last_of self (addrs gs1))) by by destruct ns.
    + destruct gs1; done.
  - unfold relinked. cbn. rewrite (insert_id (hdrs st)), (insert_id (arrs st)) by done. split_and!; try done.
    rewrite !dom_insert_known; [done|by eexists|]. rewrite lookup_insert_ne by done. by eexists.
Qed.

(** A new group goes to the front; the old first group now follows its node. *)
Lemma bkt_push self n v i gs j bc :
  Forall (group_ok bc) gs -> i ∉ gs.*1 ->
  bkt self ((i, [(n, v)]) :: gs) j =
    if i =? j then self else
    match gs with [] => 0 | g :: _ => if g.1 =? j then n else bkt self gs j end.
Proof.
  intros Hg Hi. cbn [bkt fst snd fmap list_fmap]. destruct (Z.eqb_spec i j) as [|Hij]; [done|].
  change (last_of self [n]) with n. destruct gs as [|g gs]; [done|]. apply Forall_cons in Hg as [Hg _].
  destruct (Z.eqb_spec (g.1) j) as [E|Hne]; [cbn [bkt]; by rewrite E, Z.eqb_refl|]. by eapply bkt_start.
Qed.

(** The array after the bucket of the old first group was set, if there is one. *)
Definition front_array (bs : list Z) gs (n : Z) : list Z :=
  match gs with [] => bs | g :: _ => <[Z.to_nat g.1 := n]> bs end.
Lemma first_group st self arr bc h bs g gs : shaped st self arr bc h bs (g :: gs) ->
  after_root_idx h = g.1 /\ 0 <= g.1 < bc /\ exists x, addrs (g :: gs) = x :: (tail (g.2)).*1 ++ addrs gs.
Proof.
  intros H. destruct g as [i ns]. destruct (shaped_in _ _ _ _ _ _ [] i ns gs H) as (_ & _ & Hns & _ & Hi).
  split; [apply (sh_first _ _ _ _ _ _ _ H)|]. split; [done|]. rewrite addrs_cons. destruct ns as [|x ns]; [done|]. by exists x.1.
Qed.

Lemma insert_at_new st self arr bc h bs gs n v old :
  shaped st self arr bc h bs gs -> slot bc v ∉ gs.*1 ->
  nexts st !! n = Some old -> vals st !! n = Some v -> n ∉ self :: addrs gs -> n <> 0 ->
  exists st' bs', insert_at st self arr (slot bc v) n = Done st' /\
    shaped st' self arr bc (set_after_root_idx h (slot bc v)) bs' ((slot bc v, [(n, v)]) :: gs) /\
    relinked st st' self arr (set_after_root_idx h (slot bc v)) bs'.
Proof.
  intros H Hni Hn Hv Hnew H0. set (i := slot bc v) in *.
  pose proof H as [H1 H2 H3 H4 H5 H6 H7 H8 H9 H10 H11 H12].
  assert (Hi : 0 <= i < bc) by by apply slot_range.
  pose proof (shaped_bucket _ _ _ _ _ _ _ i H Hi) as Hb. rewrite bkt_absent in Hb by done.
  pose proof (seg_head _ _ _ H5) as Hr.
  assert (Hns : n <> self) by (intros ->; apply Hnew; left).
  set (bs1 := front_array bs gs n). set (bs' := <[Z.to_nat i := self]> bs1).
  assert (Hl1 : Z.of_nat (length bs1) = bc) by (unfold bs1, front_array; destruct gs; rewrite ?length_insert; done).
  set (nx := <[self := n]> (<[n := default 0 (head (addrs gs))]> (nexts st))).
  exists (Store nx (vals st) (<[arr := bs']> (arrs st)) (<[self := set_after_root_idx h i]> (hdrs st))), bs'.
  split; [|split].
  - unfold insert_at. rewrite Hb. cbn [mbind outcome_bind negb Z.eqb].
    rewrite (next_of_eq _ _ _ Hr). cbn [mbind outcome_bind]. rewrite (set_next_eq _ _ _ _ Hn). cbn [mbind outcome_bind].
    erewrite set_next_eq; [|cbn; by rewrite lookup_insert_ne]. cbn [mbind outcome_bind].
    rewrite (head_of_eq _ self h) by done. cbn [mbind outcome_bind].
    destruct (lookup_range bs1 i bc Hl1 Hi) as [y Hy]. unfold bs', bs1, front_array in *.
    destruct gs as [|g gs].
    + change (default 0 (head (addrs []))) with 0. cbn [mbind outcome_bind negb Z.eqb]. erewrite bucket_set_eq; [|done|lia|done]. done.
    + destruct (first_group _ _ _ _ _ _ _ _ H) as (Hg & Hgr & x & Hx). unfold nx. rewrite Hx in *. unfold default, id. cbn [head from_option].
      assert (x <> 0) as Hx0%Z.eqb_neq by (intros ->; apply H7; right; left). rewrite Hx0. cbn [negb mbind outcome_bind].
      destruct (lookup_range bs (g.1) bc H3 Hgr) as [z Hz].
      erewrite bucket_set_eq; [|done|cbn; lia|cbn; by rewrite Hg]. cbn [mbind outcome_bind].
      erewrite bucket_set_eq; [|cbn; apply lookup_insert_eq|lia|cbn; rewrite Hg; exact Hy].
      cbn. rewrite Hg. by rewrite insert_insert_eq.
  - split; cbn [hdrs arrs nexts vals]; rewrite ?lookup_insert_eq; try done.
    + unfold bs'. by rewrite length_insert.
    + apply (seg_link (nexts st) self [] (addrs gs) n); done.
    + rewrite addrs_cons. cbn. assert (self :: n :: addrs gs ≡ₚ n :: self :: addrs gs) as -> by solve_Permutation. by apply NoDup_cons.
    + rewrite addrs_cons. cbn. assert (self :: n :: addrs gs ≡ₚ n :: self :: addrs gs) as -> by solve_Permutation. apply not_elem_of_cons. split; [congruence|done].
    + rewrite nodes_cons. by apply Forall_cons.
    + apply Forall_cons. split; [|done]. split; [done|]. by apply Forall_singleton.
    + cbn. by apply NoDup_cons.
    + intros j Hj. unfold bs'. rewrite (bkt_push self n v i gs j bc), (bucket_upd _ _ _ _ bc) by (try done; lia).
      destruct (i =? j); [done|]. unfold bs1, front_array. destruct gs as [|g gs]; [by rewrite H11|].
      rewrite (bucket_upd _ _ _ _ bc) by (try done; try lia; by eapply (first_group _ _ _ _ _ _ _ _ H)).
      destruct (g.1 =? j); [done|]. by apply H11.
  - unfold relinked. cbn. split_and!; try done. unfold nx. rewrite !dom_insert_known; [done|by eexists|]. rewrite lookup_insert_ne by done. eauto.
Qed.

(** Inserting a node adds it to the contents and keeps the table in shape. *)
Lemma insert_at_shaped st self arr bc h bs gs n v old :
  shaped st self arr bc h bs gs ->
  nexts st !! n = Some old -> vals st !! n = Some v -> n ∉ self :: addrs gs -> n <> 0 ->
  exists st' i bs' gs', insert_at st self arr (slot bc v) n = Done st' /\
    shaped st' self arr bc (set_after_root_idx h i) bs' gs' /\ nodes gs' ≡ₚ (n, v) :: nodes gs /\
    relinked st st' self arr (set_after_root_idx h i) bs'.
Proof.
  intros H Hn Hv Hnew H0. destruct (decide (slot bc v ∈ gs.*1)) as [(gs1 & ns & gs2 & ->)%group_at|Hni].
  - edestruct insert_at_group as (st' & E & Hs & Hr); [done..|].
    assert (h = set_after_root_idx h (after_root_idx h)) as Hh by by destruct h. rewrite Hh in Hs, Hr.
    eexists _, _, _, _. split_and!; [exact E|exact Hs| |exact Hr]. rewrite !nodes_app, !nodes_cons. cbn. solve_Permutation.
  - edestruct insert_at_new as (st' & bs' & E & Hs & Hr); [done..|].
    eexists _, _, _, _. split_and!; [exact E|exact Hs|done|exact Hr].
Qed.

(** ** Searching *)
(** The node before the first one that passes a test, null if there is none. *)
Fixpoint pred_of (P : Z * V -> bool) (p : Z) (l : list (Z * V)) : Z :=
  match l with [] => 0 | x :: l' => if P x then p else pred_of P x.1 l' end.
Definition first_of (P : Z * V -> bool) (l : list (Z * V)) : Z :=
  match List.find P l with Some x => x.1 | None => 0 end.

Lemma pred_of_skip P p l1 l2 : Forall (fun x => P x = false) l1 -> pred_of P p (l1 ++ l2) = pred_of P (last_of p l1.*1) l2.
Proof.
  intros H. revert p. induction H as [|x l1 Hx _ IH]; intros p; [done|]. cbn [app pred_of fmap list_fmap].
  by rewrite Hx, IH, last_of_cons.
Qed.
Lemma pred_of_none P p l : Forall (fun x => P x = false) l -> pred_of P p l = 0.
Proof. intros H. rewrite <- (app_nil_r l). by rewrite pred_of_skip. Qed.
Lemma pred_of_stop P p l1 l2 : Forall (fun x => P x = false) l2 -> pred_of P p (l1 ++ l2) = pred_of P p l1.
Proof.
  intros H. revert p. induction l1 as [|x l1 IH]; intros p; cbn [app pred_of]; [by apply pred_of_none|].
  destruct (P x); [done|]. apply IH.
Qed.
Lemma advance_pred_of st P p l : p <> 0 -> 0 ∉ l.*1 -> seg (nexts st) p l.*1 0 ->
  advance_chain st (pred_of P p l) = Done (first_of P l).
Proof.
  revert p. induction l as [|x l IH]; intros p Hp H0 H; [done|]. cbn in H0, H. apply not_elem_of_cons in H0 as [Hx H0].
  destruct H as [H1 H2]. unfold first_of. cbn [pred_of List.find]. destruct (P x); [|by apply IH].
  unfold advance_chain. rewrite (proj2 (Z.eqb_neq _ _) Hp). by apply next_of_eq.
Qed.

(** Both searches of the source walk a bucket with a test on the node. *)
Fixpoint search_loop (test : Z -> outcome bool) (fuel : nat) st (self idx prev n : Z) : outcome Z :=
  match fuel with
  | O => NoFuel
  | S f =>
      if n =? 0 then Done 0 else
      i ← index_of st self n;
      if negb (idx =? i) then Done 0 else
      b ← test n;
      if b : bool then Done prev else m ← next_of st n; search_loop test f st self idx n m
  end.
Lemma find_loop_search fuel st self k idx prev n :
  find_loop fuel st self k idx prev n =
    search_loop (fun n => kn ← key_of st n; Done (key_equal k kn)) fuel st self idx prev n.
Proof.
  revert prev n. induction fuel as [|f IH]; intros; cbn [find_loop search_loop]; [done|].
  destruct (n =? 0); [done|]. destruct (index_of st self n); [|done..]. cbn. destruct (idx =? a); [|done]. cbn.
  destruct (key_of st n); [|done..]. cbn. destruct (key_equal k a0); [done|]. by destruct (next_of st n); cbn.
Qed.
Lemma before_loop_search fuel st self what idx prev n :
  before_loop fuel st self what idx prev n = search_loop (fun n => Done (what =? n)) fuel st self idx prev n.
Proof.
  revert prev n. induction fuel as [|f IH]; intros; cbn [before_loop search_loop]; [done|].
  destruct (n =? 0); [done|]. destruct (index_of st self n); [|done..]. cbn. destruct (idx =? a); [|done]. cbn.
  destruct (what =? n); [done|]. by destruct (next_of st n); cbn.
Qed.

Lemma search_loop_group st self h test (P : Z * V -> bool) i rest ns prev fuel :
  hdrs st !! self = Some h -> 0 < bucket_count h ->
  (forall x, vals st !! x.1 = Some x.2 -> test x.1 = Done (P x)) ->
  Forall (fun x => vals st !! x.1 = Some x.2) (ns ++ rest) -> Forall (fun x => slot (bucket_count h) x.2 = i) ns ->
  match rest with [] => True | y :: _ => slot (bucket_count h) y.2 <> i end ->
  0 ∉ (ns ++ rest).*1 -> seg (nexts st) prev (ns ++ rest).*1 0 -> (length ns < fuel)%nat ->
  search_loop test fuel st self i prev (default 0 (head (ns ++ rest).*1)) = Done (pred_of P prev ns).
Proof.
  intros Hh Hb Ht Hv Hi Hr H0 Hseg Hf. revert prev fuel Hseg Hf.
  induction ns as [|x ns IH]; intros prev [|fuel] Hseg Hf; cbn [length] in Hf; try lia; cbn [search_loop app] in *.
  - destruct rest as [|y rest]; [done|]. cbn in *. apply Forall_cons in Hv as [Hv _]. apply not_elem_of_cons in H0 as [H0 _].
    rewrite (proj2 (Z.eqb_neq y.1 0)) by congruence. rewrite (index_of_eq _ _ _ _ _ Hh Hb Hv). cbn.
    by rewrite (proj2 (Z.eqb_neq i _)) by congruence.
  - cbn in *. apply Forall_cons in Hv as [Hv Hvs]. apply not_elem_of_cons in H0 as [H0 H0s]. apply Forall_cons in Hi as [Hx Hi].
    rewrite (proj2 (Z.eqb_neq x.1 0)) by congruence. rewrite (index_of_eq _ _ _ _ _ Hh Hb Hv). cbn. rewrite Hx, Z.eqb_refl. cbn.
    rewrite (Ht _ Hv). cbn. destruct (P x); [done|]. destruct Hseg as [_ Hseg]. rewrite (next_of_eq _ _ _ (seg_head _ _ _ Hseg)). cbn.
    apply IH; try done. lia.
Qed.

(** A table whose own fields describe its shape. *)
Definition holds st (self : Z) (h : hdr) gs : Prop := exists bs, shaped st self (my_buckets h) (bucket_count h) h bs gs.

(** Searching bucket [i] for what can only be there searches the whole chain. *)
Lemma bucket_search st self h bs gs test (P : Z * V -> bool) i :
  shaped st self (my_buckets h) (bucket_count h) h bs gs -> 0 <= i < bucket_count h ->
  (forall x, vals st !! x.1 = Some x.2 -> test x.1 = Done (P x)) ->
  (forall x, x ∈ nodes gs -> P x = true -> slot (bucket_count h) x.2 = i) ->
  exists n, advance_chain st (bkt self gs i) = Done n /\
    search_loop test (fuel_of st) st self i (bkt self gs i) n = Done (pred_of P self (nodes gs)).
Proof.
  intros H Hi Ht HP. pose proof (shaped_fuel _ _ _ _ _ _ _ H) as Hfuel. pose proof H as [H1 H2 H3 H4 H5 H6 H7 H8 H9 H10 H11 H12].
  assert (Hout : forall gs', gs' ⊆ gs -> i ∉ gs'.*1 -> Forall (fun x => P x = false) (nodes gs')).
  { intros gs' Hsub Hni. apply Forall_forall. intros x Hx. destruct (P x) eqn:E; [|done]. exfalso. apply Hni.
    apply list_elem_of_In, in_concat in Hx as (ns & Hns%list_elem_of_In & Hx%list_elem_of_In).
    apply list_elem_of_fmap in Hns as (g & -> & Hg). apply list_elem_of_fmap. exists g. split; [|done].
    assert (x ∈ nodes gs) as Hxg. { apply list_elem_of_In, in_concat. exists g.2. split; apply list_elem_of_In; [|done]. apply list_elem_of_fmap. eauto. }
    rewrite <- (HP x Hxg E). rewrite Forall_forall in H9. destruct (H9 g (Hsub _ Hg)) as [_ Hg2].
    rewrite Forall_forall in Hg2. by apply Hg2. }
  destruct (decide (i ∈ gs.*1)) as [(gs1 & ns & gs2 & ->)%group_at|Hni].
  - destruct (shaped_in _ _ _ _ _ _ _ _ _ _ H) as (Hi1 & Hi2 & Hns & Hf & _).
    rewrite bkt_app by done. cbn [bkt fst]. rewrite Z.eqb_refl. set (p := last_of self (addrs gs1)).
    rewrite addrs_app in *. pose proof (seg_suffix _ _ _ _ H5) as Hseg. fold p in Hseg. pose proof (seg_rest _ _ _ _ H5) as Hp. fold p in Hp.
    eexists. split.
    { unfold advance_chain. rewrite (proj2 (Z.eqb_neq p 0)); [by apply next_of_eq|]. intros E. apply H7. rewrite <- E, app_comm_cons.
      apply elem_of_app. left. apply last_of_in. }
    assert (Hn : nodes (gs1 ++ (i, ns) :: gs2) = nodes gs1 ++ ns ++ nodes gs2) by by rewrite nodes_app, nodes_cons.
    rewrite Hn in *. rewrite (pred_of_skip P self (nodes gs1)), (pred_of_stop P _ ns) by (apply Hout; [intros ?; rewrite elem_of_app, ?elem_of_cons; tauto|done]).
    fold (addrs gs1). fold p. unfold addrs in *. rewrite nodes_cons in *. cbn [snd] in *.
    apply (search_loop_group st self h); try done.
    + apply Forall_app in H8. tauto.
    + apply Forall_app in H9 as [_ [_ Hg2]%Forall_cons]. destruct gs2 as [|[j ms] gs2]; [done|]. rewrite nodes_cons.
      apply Forall_cons in Hg2 as [[Hm1 Hm2] _]. cbn in *. destruct ms as [|y ms]; [done|]. apply Forall_cons in Hm2 as [Hy _]. cbn.
      rewrite Hy. intros ->. apply Hi2. left.
    + intros H0. apply H7. right. apply elem_of_app. by right.
    + rewrite !length_app in Hfuel. lia.
  - rewrite bkt_absent by done. exists 0. split; [done|]. rewrite pred_of_none by by apply Hout. done.
Qed.

Definition is_key (k : K) (x : Z * V) : bool := key_equal k (key_extract x.2).
Lemma index_key_eq st self h k : hdrs st !! self = Some h -> 0 < bucket_count h ->
  index_key st self k = Done (hasher k mod bucket_count h).
Proof.
  intros Hh Hb. unfold index_key. rewrite (head_of_eq _ _ _ Hh). cbn. unfold range. by rewrite (proj2 (Z.eqb_neq _ _)) by lia.
Qed.
Lemma find_before_eq `{!HashLaws K V} st self h gs k : holds st self h gs ->
  find_before st self k = Done (pred_of (is_key k) self (nodes gs)).
Proof.
  intros [bs H]. pose proof (sh_head _ _ _ _ _ _ _ H) as Hh. pose proof (sh_pos _ _ _ _ _ _ _ H) as Hb.
  assert (Hi : 0 <= hasher k mod bucket_count h < bucket_count h) by (apply Z.mod_pos_bound; lia).
  edestruct (bucket_search _ _ _ _ _ (fun n => kn ← key_of st n; Done (key_equal k kn)) (is_key k) _ H Hi) as (n & E1 & E2).
  - intros x Hx. unfold key_of. by rewrite (value_of_eq _ _ _ Hx).
  - intros x _ Hx. unfold slot. f_equal. symmetry. by apply key_equal_hash.
  - unfold find_before. rewrite (index_key_eq _ _ _ _ Hh Hb). cbn [mbind outcome_bind]. rewrite (head_of_eq _ _ _ Hh). cbn [mbind outcome_bind].
    rewrite (shaped_bucket _ _ _ _ _ _ _ _ H Hi). cbn [mbind outcome_bind]. rewrite E1. cbn [mbind outcome_bind]. by rewrite find_loop_search.
Qed.
Lemma find_eq `{!HashLaws K V} st self h gs k : holds st self h gs -> find st self k = Done (first_of (is_key k) (nodes gs)).
Proof.
  intros H. unfold find. rewrite (find_before_eq _ _ _ _ _ H). cbn [mbind outcome_bind]. destruct H as [bs H].
  pose proof (sh_nonnull _ _ _ _ _ _ _ H) as [H0 H1]%not_elem_of_cons.
  apply advance_pred_of; [congruence|done|apply (sh_chain _ _ _ _ _ _ _ H)].
Qed.
Lemma get_before_eq st self h gs x : holds st self h gs -> x ∈ nodes gs ->
  get_before st self (slot (bucket_count h) x.2) x.1 = Done (pred_of (fun y => x.1 =? y.1) self (nodes gs)).
Proof.
  intros [bs H] Hx. pose proof (sh_head _ _ _ _ _ _ _ H) as Hh. pose proof (sh_pos _ _ _ _ _ _ _ H) as Hb.
  assert (Hi : 0 <= slot (K := K) (bucket_count h) x.2 < bucket_count h) by by apply slot_range.
  edestruct (bucket_search _ _ _ _ _ (fun n => Done (x.1 =? n)) (fun y => x.1 =? y.1) _ H Hi) as (n & E1 & E2).
  - done.
  - intros y Hy E%Z.eqb_eq. destruct (shaped_node _ _ _ _ _ _ _ _ H Hx) as [Hv _]. destruct (shaped_node _ _ _ _ _ _ _ _ H Hy) as [Hw _]. congruence.
  - unfold get_before. rewrite (head_of_eq _ _ _ Hh). cbn [mbind outcome_bind].
    rewrite (shaped_bucket _ _ _ _ _ _ _ _ H Hi). cbn [mbind outcome_bind]. rewrite E1. cbn [mbind outcome_bind]. by rewrite before_loop_search.
Qed.

(** ** Unlinking a node *)
(** The buckets that remain right when the chain becomes that of [gs]. *)
Definition fits (self bc : Z) (h : hdr) (bs : list Z) gs : Prop :=
  Z.of_nat (length bs) = bc /\ (forall j, 0 <= j < bc -> bs !! Z.to_nat j = Some (bkt self gs j)) /\
  match gs with [] => True | g :: _ => after_root_idx h = g.1 end.
Definition rebucketed st st' (self arr : Z) (h : hdr) (bs : list Z) : Prop :=
  st' = Store (nexts st) (vals st) (<[arr := bs]> (arrs st)) (<[self := h]> (hdrs st)).
Lemma rebucketed_same st self arr bc h bs gs : shaped st self arr bc h bs gs -> rebucketed st st self arr h bs.
Proof. intros H. unfold rebucketed. rewrite (insert_id (arrs st)), (insert_id (hdrs st)) by apply H. by destruct st. Qed.
Definition cons_group (i : Z) (ns : list (Z * V)) gs : list group := match ns with [] => gs | _ => (i, ns) :: gs end.
Lemma nodes_cons_group i ns gs : nodes (cons_group i ns gs) = ns ++ nodes gs.
Proof. by destruct ns. Qed.

(** Groups whose chain keeps its start: the buckets only depend on what follows. *)
Lemma fits_suffix self bc h bs gs1 gs2 gs2' p :
  p = last_of self (addrs gs1) ->
  Z.of_nat (length bs) = bc ->
  (forall j, 0 <= j < bc -> j ∈ gs1.*1 -> bs !! Z.to_nat j = Some (bkt self (gs1 ++ gs2) j)) ->
  (forall j, 0 <= j < bc -> j ∉ gs1.*1 -> bs !! Z.to_nat j = Some (bkt p gs2' j)) ->
  match gs1 ++ gs2' with [] => True | g :: _ => after_root_idx h = g.1 end ->
  fits self bc h bs (gs1 ++ gs2').
Proof.
  intros -> Hl H1 H2 Hf. split_and!; [done| |done]. intros j Hj. destruct (decide (j ∈ gs1.*1)) as [Hin|Hin].
  - rewrite (H1 j Hj Hin). by rewrite !bkt_prefix.
  - rewrite (H2 j Hj Hin). by rewrite bkt_app.
Qed.

(** The next group after a node that ends its own. *)
Lemma next_group st self h bs gs1 i ns j ms gs3 :
  shaped st self (my_buckets h) (bucket_count h) h bs (gs1 ++ (i, ns) :: (j, ms) :: gs3) ->
  exists y, head (ms.*1 ++ addrs gs3) = Some y /\ y <> 0 /\ index_of st self y = Done j /\ j <> i /\ j ∉ gs1.*1 /\ 0 <= j < bucket_count h /\ ms.*1 <> [].
Proof.
  intros H. pose proof H as H'. rewrite (cons_middle (i, ns)) in H'. rewrite app_assoc in H'.
  destruct (shaped_in _ _ _ _ _ _ _ _ _ _ H') as (Hj1 & _ & Hms & Hf & Hj). rewrite fmap_app, not_elem_of_app in Hj1. destruct Hj1 as [Hj1 Hj2%not_elem_of_cons].
  destruct ms as [|y ms]; [done|]. exists y.1. apply Forall_cons in Hf as [Hy _].
  assert (Hin : y ∈ nodes (gs1 ++ (i, ns) :: (j, y :: ms) :: gs3)).
  { rewrite nodes_app, !nodes_cons. cbn. rewrite !elem_of_app, elem_of_cons. tauto. }
  destruct (shaped_node _ _ _ _ _ _ _ _ H Hin) as (Hv & _ & H0). split_and!; try done; try tauto; try lia.
  rewrite <- Hy. apply index_of_eq; [apply H|apply (sh_pos _ _ _ _ _ _ _ H)|done].
Qed.
Lemma last_of_ne p l : NoDup (p :: l) -> l <> [] -> last_of p l <> p.
Proof.
  destruct l as [|x l]; [done|]. intros [Hp _]%NoDup_cons _ E. rewrite last_of_cons in E. apply Hp. rewrite <- E. apply last_of_in.
Qed.
Lemma set_after_root_same h : set_after_root_idx h (after_root_idx h) = h.
Proof. by destruct h. Qed.

(** A node in front of another one of its bucket. *)
Lemma fix_buckets_within st self h bs gs1 i a n v y b gs2 :
  shaped st self (my_buckets h) (bucket_count h) h bs (gs1 ++ (i, a ++ (n, v) :: y :: b) :: gs2) ->
  fix_buckets st self h i (last_of (last_of self (addrs gs1)) a.*1) y.1 = Done st /\
  fits self (bucket_count h) h bs (gs1 ++ (i, a ++ y :: b) :: gs2).
Proof.
  intros H. destruct (shaped_in _ _ _ _ _ _ _ _ _ _ H) as (Hi1 & Hi2 & Hns & Hf & Hi).
  pose proof H as [H1 H2 H3 H4 H5 H6 H7 H8 H9 H10 H11 H12].
  assert (Hy : y ∈ nodes (gs1 ++ (i, a ++ (n, v) :: y :: b) :: gs2)).
  { rewrite nodes_app, nodes_cons. cbn. rewrite !elem_of_app, !elem_of_cons. tauto. }
  destruct (shaped_node _ _ _ _ _ _ _ _ H Hy) as (Hv & _ & H0).
  assert (Hiy : index_of st self y.1 = Done i).
  { rewrite (index_of_eq _ _ h _ y.2) by done. f_equal. apply Forall_app in Hf as [_ [_ [Hs _]%Forall_cons]%Forall_cons]. done. }
  split.
  - unfold fix_buckets. rewrite (shaped_bucket _ _ _ _ _ _ _ _ H Hi). cbn [mbind outcome_bind].
    unfold remove_first_at. rewrite (proj2 (Z.eqb_neq y.1 0) H0). cbn [negb]. rewrite Hiy. cbn [mbind outcome_bind].
    rewrite Z.eqb_refl. cbn. by destruct (_ =? _).
  - eapply fits_suffix; [done|done|intros; by apply H11| |by destruct gs1].
    intros j Hj Hin. rewrite (H11 j Hj), bkt_app by done. cbn [bkt fst snd]. destruct (i =? j); [done|]. do 2 f_equal.
    rewrite !fmap_app, !last_of_app. cbn [fmap list_fmap]. by rewrite !last_of_cons.
Qed.
(** The last node of a bucket, with others of it in front. *)
Lemma fix_buckets_last st self h bs gs1 i a n v gs2 :
  a <> [] -> shaped st self (my_buckets h) (bucket_count h) h bs (gs1 ++ (i, a ++ [(n, v)]) :: gs2) ->
  exists st' bs',
    fix_buckets st self h i (last_of (last_of self (addrs gs1)) a.*1) (default 0 (head (addrs gs2))) = Done st' /\
    rebucketed st st' self (my_buckets h) h bs' /\ fits self (bucket_count h) h bs' (gs1 ++ (i, a) :: gs2).
Proof.
  intros Ha H. destruct (shaped_in _ _ _ _ _ _ _ _ _ _ H) as (Hi1 & Hi2 & Hns & Hf & Hi).
  pose proof H as [H1 H2 H3 H4 H5 H6 H7 H8 H9 H10 H11 H12]. set (p := last_of self (addrs gs1)). set (q := last_of p a.*1).
  assert (Hq : q <> p).
  { apply last_of_ne; [|by destruct a]. assert (Hs : NoDup (self :: addrs gs1 ++ a.*1)).
    { rewrite addrs_app, addrs_cons in H6. cbn [snd] in H6. rewrite fmap_app, <- !app_assoc in H6. rewrite (app_assoc (addrs gs1)), app_comm_cons in H6. by apply NoDup_app in H6 as [H6 _]. }
    rewrite app_comm_cons in Hs. apply NoDup_app in Hs as (_ & Hd & Hna). apply NoDup_cons. split; [|done]. apply Hd, last_of_in. }
  unfold fix_buckets. rewrite (shaped_bucket _ _ _ _ _ _ _ _ H Hi). cbn [mbind outcome_bind].
  rewrite bkt_app by done. cbn [bkt fst]. rewrite Z.eqb_refl. fold p. rewrite (proj2 (Z.eqb_neq _ _) Hq).
  destruct gs2 as [|[j ms] gs3].
  - exists st, bs. split_and!; [done|by eapply rebucketed_same|]. eapply fits_suffix; [done|done|intros; by apply H11| |by destruct gs1].
    intros j Hj Hin. by rewrite (H11 j Hj), bkt_app.
  - destruct (next_group _ _ _ _ _ _ _ _ _ _ H) as (y & Hy & H0 & Hiy & Hij & Hj1 & Hj & Hms). rewrite addrs_cons. cbn [snd]. rewrite Hy.
    change (default 0 (Some y)) with y. rewrite (proj2 (Z.eqb_neq _ _) H0). cbn [negb]. rewrite Hiy. cbn [mbind outcome_bind].
    rewrite (proj2 (Z.eqb_neq i j)) by congruence. cbn [negb]. erewrite bucket_set_eq; [|done|lia|by apply H11].
    eexists _, _. split_and!; [done| |].
    + unfold rebucketed. rewrite (insert_id (hdrs st)) by done. done.
    + eapply fits_suffix; [done|by rewrite length_insert| | |by destruct gs1].
      * intros j' Hj' Hin. rewrite (bucket_upd _ _ _ _ (bucket_count h)) by (try done; lia). destruct (Z.eqb_spec j j'); [congruence|]. by apply H11.
      * intros j' Hj' Hin. rewrite (bucket_upd _ _ _ _ (bucket_count h)) by (try done; lia).
        cbn [bkt fst snd]. fold p q. destruct (Z.eqb_spec j j') as [->|Hne]; [by rewrite (proj2 (Z.eqb_neq i j')) by congruence|].
        rewrite (H11 _ Hj'), bkt_app by done. cbn [bkt fst snd]. rewrite (proj2 (Z.eqb_neq j j') Hne). destruct (i =? j'); [done|].
        f_equal. f_equal. by apply last_of_change.
Qed.
(** The only node of a bucket. *)
Lemma fix_buckets_only st self h bs gs1 i n v gs2 :
  shaped st self (my_buckets h) (bucket_count h) h bs (gs1 ++ (i, [(n, v)]) :: gs2) ->
  exists st' r bs',
    fix_buckets st self h i (last_of self (addrs gs1)) (default 0 (head (addrs gs2))) = Done st' /\
    rebucketed st st' self (my_buckets h) (set_after_root_idx h r) bs' /\
    fits self (bucket_count h) (set_after_root_idx h r) bs' (gs1 ++ gs2).
Proof.
  intros H. destruct (shaped_in _ _ _ _ _ _ _ _ _ _ H) as (Hi1 & Hi2 & Hns & Hf & Hi).
  pose proof H as [H1 H2 H3 H4 H5 H6 H7 H8 H9 H10 H11 H12]. set (p := last_of self (addrs gs1)). pose proof (sh_buckets _ _ _ _ _ _ _ H i Hi) as Hbi.
  unfold fix_buckets. rewrite (shaped_bucket _ _ _ _ _ _ _ _ H Hi). cbn [mbind outcome_bind].
  rewrite bkt_app in * by done. cbn [bkt fst] in *. rewrite Z.eqb_refl in *. fold p in Hbi |- *. rewrite Z.eqb_refl.
  destruct gs2 as [|[j ms] gs3].
  - change (default 0 (head (addrs []))) with 0. cbn [Z.eqb negb mbind outcome_bind]. unfold remove_first_at. cbn [Z.eqb].
    erewrite bucket_set_eq; [|done|lia|done]. eexists _, (after_root_idx h), _. rewrite set_after_root_same. split_and!; [done| |].
    + unfold rebucketed. by rewrite (insert_id (hdrs st)).
    + eapply fits_suffix; [done|by rewrite length_insert| |..].
      * intros j Hj Hin. rewrite (bucket_upd _ _ _ _ (bucket_count h)) by (try done; lia). destruct (Z.eqb_spec i j); [congruence|]. by apply H11.
      * intros j Hj Hin. rewrite (bucket_upd _ _ _ _ (bucket_count h)) by (try done; lia). destruct (Z.eqb_spec i j) as [->|Hne]; [done|].
        rewrite (H11 _ Hj), bkt_app by done. cbn [bkt fst]. by rewrite (proj2 (Z.eqb_neq i j) Hne).
      * by destruct gs1.
  - destruct (next_group _ _ _ _ _ _ _ _ _ _ H) as (y & Hy & H0 & Hiy & Hij & Hj1 & Hj & Hms). rewrite addrs_cons. cbn [snd]. rewrite Hy.
    change (default 0 (Some y)) with y. unfold remove_first_at. rewrite (proj2 (Z.eqb_neq _ _) H0). cbn [negb]. rewrite Hiy. cbn [mbind outcome_bind].
    rewrite (proj2 (Z.eqb_neq i j)) by congruence. cbn [negb]. erewrite bucket_get_eq; [|done|lia|done]. cbn [mbind outcome_bind].
    erewrite bucket_set_eq; [|done|lia|by apply H11]. cbn [mbind outcome_bind].
    set (bs1 := <[Z.to_nat j:=p]> bs). assert (Hl1 : Z.of_nat (length bs1) = bucket_count h) by (unfold bs1; by rewrite length_insert).
    destruct (lookup_range bs1 i _ Hl1 Hi) as [z Hz]. erewrite bucket_set_eq; [|cbn; apply lookup_insert_eq|lia|done]. cbn [mbind outcome_bind].
    rewrite (head_of_eq _ self h) by done. cbn [mbind outcome_bind with_arrs arrs nexts vals hdrs]. rewrite insert_insert_eq.
    exists (Store (nexts st) (vals st) (<[my_buckets h := <[Z.to_nat i := 0]> bs1]> (arrs st))
      (<[self := set_after_root_idx h (if i =? after_root_idx h then j else after_root_idx h)]> (hdrs st))),
      (if i =? after_root_idx h then j else after_root_idx h), (<[Z.to_nat i:=0]> bs1). split_and!; [|done|].
    + destruct (i =? after_root_idx h); [done|]. by rewrite set_after_root_same, (insert_id (hdrs st)).
    + eapply fits_suffix; [done|by rewrite length_insert| |..].
      * intros j' Hj' Hin. unfold bs1. rewrite !(bucket_upd _ _ _ _ (bucket_count h)) by (try done; lia).
        destruct (Z.eqb_spec i j'); [congruence|]. destruct (Z.eqb_spec j j'); [congruence|]. by apply H11.
      * intros j' Hj' Hin. unfold bs1. rewrite !(bucket_upd _ _ _ _ (bucket_count h)) by (try done; lia). fold p. cbn [bkt fst snd].
        destruct (Z.eqb_spec i j') as [->|Hne]; [|destruct (Z.eqb_spec j j') as [->|Hne']; [done|]].
        { rewrite (proj2 (Z.eqb_neq j j') Hij). f_equal. symmetry. apply bkt_absent. cbn in Hi2. by apply not_elem_of_cons in Hi2 as [_ Hi2]. }
        rewrite (H11 _ Hj'), bkt_app by done. cbn [bkt fst snd]. rewrite (proj2 (Z.eqb_neq j j') Hne'), (proj2 (Z.eqb_neq i j') Hne).
        f_equal. f_equal. by apply last_of_change.
      * destruct gs1 as [|g gs1]; cbn [app after_root_idx set_after_root_idx] in *; [by rewrite H12, Z.eqb_refl|].
        rewrite H12. destruct (Z.eqb_spec i (g.1)) as [->|]; [|done]. exfalso. apply Hi1. left.
Qed.
Lemma fix_buckets_ok st self h bs gs1 i a n v b gs2 :
  shaped st self (my_buckets h) (bucket_count h) h bs (gs1 ++ (i, a ++ (n, v) :: b) :: gs2) ->
  exists st' r bs',
    fix_buckets st self h i (last_of (last_of self (addrs gs1)) a.*1) (default 0 (head (b.*1 ++ addrs gs2))) = Done st' /\
    rebucketed st st' self (my_buckets h) (set_after_root_idx h r) bs' /\
    fits self (bucket_count h) (set_after_root_idx h r) bs' (gs1 ++ cons_group i (a ++ b) gs2).
Proof.
  intros H. destruct b as [|y b]; [destruct a as [|x a]|].
  - apply (fix_buckets_only _ _ _ _ _ _ _ _ _ H).
  - destruct (fix_buckets_last _ _ _ _ _ _ (x :: a) _ _ _ ltac:(done) H) as (st' & bs' & E & Hr & Hf).
    exists st', (after_root_idx h), bs'. rewrite set_after_root_same, app_nil_r. done.
  - destruct (fix_buckets_within _ _ _ _ _ _ _ _ _ _ _ _ H) as [E Hf]. exists st, (after_root_idx h), bs. rewrite set_after_root_same.
    split_and!; [exact E|by eapply rebucketed_same|]. by destruct a.
Qed.

(** Erasing a node removes it from the contents and keeps the table in shape. *)
Lemma erase_node_ok st self h gs1 i a n v b gs2 :
  holds st self h (gs1 ++ (i, a ++ (n, v) :: b) :: gs2) ->
  exists st' r,
    let h' := set_element_count (set_after_root_idx h r) (u64 (element_count h - 1)) in
    erase_node st self i (last_of (last_of self (addrs gs1)) a.*1) n = Done (default 0 (head (b.*1 ++ addrs gs2)), st') /\
    holds st' self h' (gs1 ++ cons_group i (a ++ b) gs2) /\
    vals st' = delete n (vals st) /\ (forall x, x ∈ dom (nexts st') -> x ∈ dom (nexts st)).
Proof.
  intros [bs H]. destruct (fix_buckets_ok _ _ _ _ _ _ _ _ _ _ _ H) as (st1 & r & bs' & E & Hr & (Hl & Hbk & Hfst)).
  destruct (shaped_in _ _ _ _ _ _ _ _ _ _ H) as (Hi1 & Hi2 & Hns & Hf & Hi). pose proof H as [H1 H2 H3 H4 H5 H6 H7 H8 H9 H10 H11 H12].
  set (A := addrs gs1 ++ a.*1). set (B := b.*1 ++ addrs gs2). fold B in E |- *.
  assert (HA : addrs (gs1 ++ (i, a ++ (n, v) :: b) :: gs2) = A ++ n :: B).
  { unfold A, B. rewrite addrs_app, addrs_cons. cbn [snd]. by rewrite fmap_app, <- !app_assoc. }
  assert (HA' : addrs (gs1 ++ cons_group i (a ++ b) gs2) = A ++ B).
  { unfold A, B, addrs. by rewrite nodes_app, nodes_cons_group, !fmap_app, <- !app_assoc. }
  rewrite HA in *. rewrite <- last_of_app in *. fold A in E |- *.
  assert (Hsub : forall x, x ∈ self :: A ++ B -> x ∈ self :: A ++ n :: B).
  { intros x. rewrite !elem_of_cons, !elem_of_app, elem_of_cons. tauto. }
  assert (Hnd : NoDup (self :: A ++ B) /\ n ∉ self :: A ++ B).
  { assert (HP : self :: A ++ n :: B ≡ₚ n :: self :: A ++ B) by solve_Permutation. rewrite HP in H6. apply NoDup_cons in H6. tauto. }
  assert (Hn0 : n <> 0). { intros ->. apply H7. right. apply elem_of_app. right. left. }
  assert (Hm : nexts st !! n = Some (default 0 (head B))). { apply seg_app in H5 as [_ H5]. by apply seg_head. }
  assert (Hp : nexts st !! last_of self A = Some n). { by apply seg_rest in H5. }
  assert (Hpn : last_of self A <> n).
  { intros E'. apply (proj2 Hnd). rewrite <- E', app_comm_cons. apply elem_of_app. left. apply last_of_in. }
  unfold rebucketed in Hr. subst st1. eexists _, r. cbn zeta. split_and!.
  - unfold erase_node. rewrite (proj2 (Z.eqb_neq _ _) Hn0), (head_of_eq _ _ _ H1). cbn [mbind outcome_bind].
    rewrite (next_of_eq _ _ _ Hm). cbn [mbind outcome_bind]. rewrite E. cbn [mbind outcome_bind].
    erewrite set_next_eq; [|exact Hp]. cbn [mbind outcome_bind]. erewrite destroy_node_eq; [|cbn; rewrite lookup_insert_ne by done; exact Hm].
    cbn [mbind outcome_bind]. erewrite head_of_eq; [|cbn; apply lookup_insert_eq]. cbn [mbind outcome_bind]. reflexivity.
  - exists bs'. split; cbn; rewrite ?HA'; try done.
    + apply lookup_insert_eq.
    + apply lookup_insert_eq.
    + by apply seg_unlink.
    + tauto.
    + intros H0. by apply H7, Hsub.
    + apply Forall_forall. intros x Hx. rewrite Forall_forall in H8. rewrite lookup_delete_ne.
      * apply H8. rewrite nodes_app, nodes_cons_group in Hx. rewrite nodes_app, nodes_cons. cbn. rewrite !elem_of_app, !elem_of_cons in *. tauto.
      * intros Enx. apply (proj2 Hnd). right. rewrite <- HA', Enx. apply list_elem_of_fmap. eauto.
    + apply Forall_app in H9 as [Hg1 [_ Hg2]%Forall_cons]. apply Forall_app. split; [done|].
      destruct (a ++ b) eqn:Eab; [done|]. apply Forall_cons. split; [|done]. split; [done|]. cbn. rewrite <- Eab.
      apply Forall_app in Hf as [? [_ ?]%Forall_cons]. by apply Forall_app.
    + rewrite fmap_app in *. destruct (a ++ b); [|done]. cbn in H10 |- *. rewrite <- Permutation_middle in H10. by apply NoDup_cons in H10 as [_ H10].
  - done.
  - cbn. intros x. rewrite dom_delete_L, dom_insert_known by eauto. set_solver.
Qed.
End ops.
