(* ===== verification/HashProps.v ===== *)
(** What a hash table promises: as long as it need not grow, it is a dictionary.
    What growing, moving and copying do to it. *)
From Stdlib Require Import List.
From S2P Require Import Prelude Hashtable HashShape HashOps.
Import Hashtable ListNotations.

(** ** Dictionaries *)
Section dict.
Context {K V : Type} `{!HashParams K V} `{!HashLaws K V}.
Implicit Types (vs : list V) (k : K).

Definition same_key k (v : V) : bool := key_equal k (key_extract v).
Definition distinct : list V -> Prop := ForallOrdPairs (fun x y => same_key (key_extract x) y = false).
Definition dict_find k vs : option V := List.find (same_key k) vs.
Definition dict_erase k vs : list V := filter (fun v => same_key k v = false) vs.

Lemma same_key_flip x y : same_key (key_extract x) y = same_key (key_extract y) x.
Proof. apply eq_true_iff_eq. split; apply key_equal_sym. Qed.
Lemma same_key_join k x y : same_key k x = true -> same_key k y = true -> same_key (key_extract x) y = true.
Proof. intros H1 H2. eapply key_equal_trans; [by apply key_equal_sym|exact H2]. Qed.
#[export] Instance distinct_perm : Proper ((≡ₚ) ==> iff) distinct.
Proof.
  assert (H : forall l l', l ≡ₚ l' -> distinct l -> distinct l').
  { induction 1 as [|x l l' Hl IH|x y l|l1 l2 l3 _ IH1 _ IH2]; intros Hd; auto.
    - inversion Hd as [|? ? Hf Ho]; subst. constructor; [|by apply IH]. by rewrite <- Hl.
    - inversion Hd as [|? ? Hf Ho]; subst. apply Forall_cons in Hf as [Hf1 Hf2]. inversion Ho as [|? ? Hg Hq]; subst.
      constructor; [|by constructor]. apply Forall_cons. split; [by rewrite same_key_flip|done]. }
  intros l l' Hl. split; apply H; done.
Qed.
#[export] Instance dict_erase_perm k : Proper ((≡ₚ) ==> (≡ₚ)) (dict_erase k).
Proof. intros l l' H. unfold dict_erase. by rewrite H. Qed.
Lemma distinct_unique vs x y : distinct vs -> x ∈ vs -> y ∈ vs -> same_key (key_extract x) y = true -> x = y.
Proof.
  induction 1 as [|z l Hz _ IH]; [by rewrite elem_of_nil|]. rewrite !elem_of_cons, Forall_forall in *.
  intros [->|Hx] [->|Hy] Hk; [done|..|by apply IH].
  - rewrite Hz in Hk; [done|]. done.
  - rewrite same_key_flip, Hz in Hk; done.
Qed.
Lemma find_some_inv vs k x : dict_find k vs = Some x -> x ∈ vs /\ same_key k x = true.
Proof. intros [H1 H2]%find_some. split; [by apply list_elem_of_In|done]. Qed.
Lemma find_none_inv vs k : dict_find k vs = None <-> Forall (fun v => same_key k v = false) vs.
Proof.
  split.
  - intros H. apply Forall_forall. intros x Hx. apply (find_none _ _ H). by apply list_elem_of_In.
  - unfold dict_find. induction 1 as [|x l Hx _ IH]; [done|]. cbn. by rewrite Hx.
Qed.
Lemma dict_find_perm vs vs' k : distinct vs -> vs ≡ₚ vs' -> dict_find k vs = dict_find k vs'.
Proof.
  intros Hd Hp. destruct (dict_find k vs) as [x|] eqn:E; destruct (dict_find k vs') as [y|] eqn:E'; [| | |done].
  - apply find_some_inv in E as [Hx Hkx]. apply find_some_inv in E' as [Hy Hky]. f_equal.
    apply (distinct_unique vs); [done..|by rewrite Hp|]. by eapply same_key_join.
  - apply find_some_inv in E as [Hx Hkx]. apply find_none_inv in E'. rewrite Hp in Hx. rewrite Forall_forall in E'. rewrite E' in Hkx; done.
  - apply find_some_inv in E' as [Hx Hkx]. apply find_none_inv in E. rewrite <- Hp in Hx. rewrite Forall_forall in E. rewrite E in Hkx; done.
Qed.

(** Requests, their answers, and a dictionary of at most [cap] elements. *)
Inductive request := Find (k : K) | Emplace (v : V) | Erase (k : K) | Clear.
Inductive answer := Found (o : option V) | Placed (v : V) (fresh : bool) | Erased (n : Z) | Cleared.
Definition dict_step (cap : Z) vs (r : request) : option (answer * list V) :=
  match r with
  | Find k => Some (Found (dict_find k vs), vs)
  | Emplace v =>
      match dict_find (key_extract v) vs with
      | Some w => Some (Placed w false, vs)
      | None => if Z.of_nat (length vs) <? cap then Some (Placed v true, v :: vs) else None
      end
  | Erase k => Some (Erased (if dict_find k vs then 1 else 0), dict_erase k vs)
  | Clear => Some (Cleared, [])
  end.
Fixpoint dict_run (cap : Z) vs (rs : list request) : option (list answer * list V) :=
  match rs with
  | [] => Some ([], vs)
  | r :: rs' =>
      '(a, vs1) ← dict_step cap vs r;
      '(l, vs2) ← dict_run cap vs1 rs';
      Some (a :: l, vs2)
  end.

Context `{!NewAddr V}.
(** The same requests made to a table. *)
Definition table_step (st : store V) (self : Z) (r : request) : outcome (answer * store V) :=
  match r with
  | Find k =>
      n ← find st self k;
      if n =? 0 then Done (Found None, st) else v ← value_of st n; Done (Found (Some v), st)
  | Emplace v =>
      '((n, b), st1) ← emplace st self v;
      w ← value_of st1 n;
      Done (Placed w b, st1)
  | Erase k => '(c, st1) ← erase_key st self k; Done (Erased c, st1)
  | Clear => st1 ← clear st self; Done (Cleared, st1)
  end.
Fixpoint table_run (st : store V) (self : Z) (rs : list request) : outcome (list answer * store V) :=
  match rs with
  | [] => Done ([], st)
  | r :: rs' =>
      '(a, st1) ← table_step st self r;
      '(l, st2) ← table_run st1 self rs';
      Done (a :: l, st2)
  end.

(** ** Tables that represent dictionaries *)
(** The table can hold [cap] elements without growing. *)
Definition room (h : hdr) (cap : Z) : Prop :=
  cap < 2 ^ 64 /\ forall c, 0 <= c < cap -> need_rehash (set_element_count h c) 1 = false.
Definition represents (cap : Z) (st : store V) (self : Z) vs : Prop :=
  exists h gs, holds st self h gs /\ (nodes gs).*2 ≡ₚ vs /\ distinct vs /\
    element_count h = Z.of_nat (length vs) /\ Z.of_nat (length vs) <= cap /\ room h cap.

Lemma first_of_find k (l : list (Z * V)) :
  match List.find (is_key k) l with
  | Some x => x ∈ l /\ dict_find k l.*2 = Some x.2
  | None => dict_find k l.*2 = None
  end.
Proof.
  unfold dict_find. induction l as [|x l IH]; [done|]. cbn. change (same_key k x.2) with (is_key k x).
  destruct (is_key k x); [split; [left|done]|]. destruct (List.find (is_key k) l); [|done].
  destruct IH as [H1 H2]. split; [by right|done].
Qed.
(** Looking a key up in a table. *)
Lemma find_cases st self h gs vs k : holds st self h gs -> (nodes gs).*2 ≡ₚ vs -> distinct vs ->
  (exists x, find st self k = Done x.1 /\ x ∈ nodes gs /\ x.1 <> 0 /\ vals st !! x.1 = Some x.2 /\ dict_find k vs = Some x.2) \/
  (find st self k = Done 0 /\ dict_find k vs = None).
Proof.
  intros H Hp Hd. rewrite (find_eq _ _ _ _ _ H). rewrite <- (dict_find_perm (nodes gs).*2 vs k) by (rewrite ?Hp; done).
  pose proof (first_of_find k (nodes gs)) as Hf. unfold first_of.
  destruct (List.find (is_key k) (nodes gs)) as [x|]; [|by right]. destruct Hf as [Hin Hf]. left. exists x.
  destruct H as [bs H]. destruct (shaped_node _ _ _ _ _ _ _ _ H Hin) as (Hv & _ & H0). done.
Qed.
Lemma find_step cap st self vs k : represents cap st self vs ->
  table_step st self (Find k) = Done (Found (dict_find k vs), st).
Proof.
  intros (h & gs & H & Hp & Hd & _). cbn. destruct (find_cases _ _ _ _ _ k H Hp Hd) as [(x & -> & _ & H0 & Hv & ->)|[-> ->]]; cbn; [|done].
  by rewrite (proj2 (Z.eqb_neq _ _) H0), (value_of_eq _ _ _ Hv).
Qed.

(** ** Insertion *)
Context `{!NewAddrLaws V}.
Lemma create_node_fresh (st : store V) self h gs v : holds st self h gs ->
  let '(n, st1) := create_node st v in
  holds st1 self h gs /\ nexts st1 !! n = Some 0 /\ vals st1 !! n = Some v /\ n ∉ self :: addrs gs /\ n <> 0 /\
  destroy_node st1 n = Done st.
Proof.
  intros [bs H]. cbn. pose proof (new_addr_nexts st) as Hn. pose proof (new_addr_vals st) as Hv.
  assert (Hnew : new_addr st ∉ self :: addrs gs).
  { intros Hin. destruct (shaped_known _ _ _ _ _ _ _ _ H Hin) as [? ?]. congruence. }
  split_and!; try apply lookup_insert_eq; try done; try apply new_addr_nonnull.
  - exists bs. eapply shaped_frame; [exact H|apply H|done..| |]; cbn; intros a Ha; apply lookup_insert_ne; intros E; apply Hnew; rewrite E; [done|by right].
  - erewrite destroy_node_eq; [|apply lookup_insert_eq]. cbn. rewrite !delete_insert_id by done. by destruct st.
Qed.

Lemma hash_code_eq (st : store V) n v : vals st !! n = Some v -> hash_code st n = Done (hasher (key_extract v)).
Proof. intros H. unfold hash_code, key_of. by rewrite (value_of_eq _ _ _ H). Qed.
Lemma range_eq h v : 0 < bucket_count h -> range h (hasher (key_extract v)) = Done (slot (bucket_count h) v).
Proof. intros. unfold range. by rewrite (proj2 (Z.eqb_neq _ _)) by lia. Qed.

(** A node is linked without growing the table when the load allows it. *)
Lemma link_node_ok (st : store V) self h gs n v added :
  holds st self h gs -> need_rehash h added = false ->
  nexts st !! n = Some 0 -> vals st !! n = Some v -> n ∉ self :: addrs gs -> n <> 0 ->
  exists st' i gs',
    let h' := set_element_count (set_after_root_idx h i) (u64 (element_count h + 1)) in
    link_node st self (hasher (key_extract v)) n added = Done (n, st') /\
    holds st' self h' gs' /\ nodes gs' ≡ₚ (n, v) :: nodes gs /\ vals st' = vals st.
Proof.
  intros [bs H] Hr Hn Hv Hnew H0. pose proof (sh_head _ _ _ _ _ _ _ H) as Hh. pose proof (sh_pos _ _ _ _ _ _ _ H) as Hb.
  destruct (insert_at_shaped _ _ _ _ _ _ _ _ _ _ H Hn Hv Hnew H0) as (st1 & i & bs1 & gs1 & E & Hs & Hp & (Rv & Rh & _)).
  eexists _, i, gs1. cbn zeta. split_and!; [| |done|].
  - unfold link_node. rewrite (head_of_eq _ _ _ Hh). cbn [mbind outcome_bind]. rewrite Hr. cbn [mbind outcome_bind].
    rewrite (head_of_eq _ _ _ Hh). cbn [mbind outcome_bind]. rewrite range_eq by done. cbn [mbind outcome_bind]. rewrite E. cbn [mbind outcome_bind].
    rewrite (head_of_eq _ _ _ (sh_head _ _ _ _ _ _ _ Hs)). cbn [mbind outcome_bind]. reflexivity.
  - exists bs1. eapply shaped_frame; [exact Hs|cbn; apply lookup_insert_eq|done..].
  - done.
Qed.

(** Inserting a value whose key is absent. *)
Lemma emplace_absent (st : store V) self h gs vs v :
  holds st self h gs -> (nodes gs).*2 ≡ₚ vs -> distinct vs -> dict_find (key_extract v) vs = None -> need_rehash h 1 = false ->
  exists n st' i gs',
    let h' := set_element_count (set_after_root_idx h i) (u64 (element_count h + 1)) in
    emplace st self v = Done ((n, true), st') /\ vals st' !! n = Some v /\
    holds st' self h' gs' /\ nodes gs' ≡ₚ (n, v) :: nodes gs.
Proof.
  intros H Hp Hd Hk Hr. pose proof (create_node_fresh st self h gs v H) as Hc. unfold emplace.
  destruct (create_node st v) as [n st1]. destruct Hc as (H1 & Hn & Hv & Hnew & H0 & _).
  destruct (find_cases _ _ _ _ _ (key_extract v) H1 Hp Hd) as [(x & _ & _ & _ & _ & E)|[E _]]; [congruence|].
  destruct (link_node_ok st1 self h gs n v 1 H1 Hr Hn Hv Hnew H0) as (st' & i & gs' & El & Hs & Hg & Hvs).
  exists n, st', i, gs'. cbn zeta. split_and!; [|by rewrite Hvs|exact Hs|done].
  unfold insert_node, key_of. rewrite (value_of_eq _ _ _ Hv). cbn [mbind outcome_bind]. rewrite E. cbn [mbind outcome_bind negb Z.eqb].
  rewrite (hash_code_eq _ _ _ Hv). cbn [mbind outcome_bind]. rewrite El. done.
Qed.
(** Inserting a value whose key is present gives back the element that has it. *)
Lemma emplace_present (st : store V) self h gs vs v w :
  holds st self h gs -> (nodes gs).*2 ≡ₚ vs -> distinct vs -> dict_find (key_extract v) vs = Some w ->
  exists n, emplace st self v = Done ((n, false), st) /\ vals st !! n = Some w.
Proof.
  intros H Hp Hd Hk. pose proof (create_node_fresh st self h gs v H) as Hc. unfold emplace.
  destruct (create_node st v) as [n st1] eqn:En. destruct Hc as (H1 & Hn & Hv & Hnew & H0 & Hdestroy).
  destruct (find_cases _ _ _ _ _ (key_extract v) H1 Hp Hd) as [(x & E & Hin & Hx0 & Hvx & Ex)|[_ E]]; [|congruence].
  assert (w = x.2) as -> by congruence. exists x.1. split.
  - unfold insert_node, key_of. rewrite (value_of_eq _ _ _ Hv). cbn [mbind outcome_bind]. rewrite E. cbn [mbind outcome_bind].
    rewrite (proj2 (Z.eqb_neq _ _) Hx0). cbn [negb]. rewrite Hdestroy. done.
  - destruct H as [bs H]. by destruct (shaped_node _ _ _ _ _ _ _ _ H Hin) as (? & _).
Qed.

Lemma room_head h h' cap : bucket_count h' = bucket_count h -> max_load h' = max_load h -> room h cap -> room h' cap.
Proof.
  intros Hb Hm [Hc H]. split; [done|]. intros c Hc'. rewrite <- (H c Hc'). unfold need_rehash, load. cbn. by rewrite Hb, Hm.
Qed.
Lemma need_rehash_count h c : element_count h = c -> need_rehash (set_element_count h c) 1 = need_rehash h 1.
Proof. intros <-. by destruct h. Qed.

Lemma emplace_step cap st self vs v a vs' : represents cap st self vs -> dict_step cap vs (Emplace v) = Some (a, vs') ->
  exists st', table_step st self (Emplace v) = Done (a, st') /\ represents cap st' self vs'.
Proof.
  intros (h & gs & H & Hp & Hd & Hc & Hle & Hroom). cbn [dict_step table_step]. destruct (dict_find (key_extract v) vs) as [w|] eqn:Ef.
  - intros [= <- <-]. destruct (emplace_present _ _ _ _ _ _ _ H Hp Hd Ef) as (n & -> & Hv). cbn. rewrite (value_of_eq _ _ _ Hv). cbn.
    exists st. split; [done|]. exists h, gs. done.
  - destruct (Z.ltb_spec (Z.of_nat (length vs)) cap) as [Hlt|]; [|done]. intros [= <- <-].
    assert (Hr : need_rehash h 1 = false). { rewrite <- (need_rehash_count h _ Hc). apply Hroom. lia. }
    destruct (emplace_absent _ _ _ _ _ _ H Hp Hd Ef Hr) as (n & st' & i & gs' & -> & Hv & H' & Hg). cbn. rewrite (value_of_eq _ _ _ Hv). cbn.
    exists st'. split; [done|]. eexists _, gs'. split_and!; [exact H'|..].
    + by rewrite Hg, <- Hp.
    + constructor; [|done]. by apply find_none_inv.
    + cbn. rewrite Hc, wrap_small; [lia|]. destruct Hroom. unfold in_range. lia.
    + cbn. lia.
    + by eapply room_head; [..|exact Hroom].
Qed.

(** ** Erasing *)
Lemma group_split (gs : list (Z * list (Z * V))) l1 x l2 : nodes gs = l1 ++ x :: l2 ->
  exists gs1 i a b gs2, gs = gs1 ++ (i, a ++ x :: b) :: gs2 /\ l1 = nodes gs1 ++ a /\ l2 = b ++ nodes gs2.
Proof.
  revert l1. induction gs as [|[i ns] gs IH]; intros l1; [by destruct l1|]. rewrite nodes_cons. cbn [snd]. intros E.
  apply app_eq_app in E as (l & [[E1 E2]|[E1 E2]]).
  - destruct l as [|y l]; cbn in E2.
    + destruct (IH [] (eq_sym E2)) as (gs1 & j & a & b & gs2 & -> & E3 & ->). exists ((i, ns) :: gs1), j, a, b, gs2.
      split_and!; [done| |done]. rewrite nodes_cons, <- app_assoc, <- E3. cbn [snd]. by rewrite E1, !app_nil_r.
    + injection E2 as -> E2. subst. exists [], i, l1, l, gs. done.
  - destruct (IH l E2) as (gs1 & j & a & b & gs2 & -> & -> & ->). exists ((i, ns) :: gs1), j, a, b, gs2. subst. by rewrite nodes_cons, <- app_assoc.
Qed.
Lemma find_first (P : Z * V -> bool) l x : List.find P l = Some x ->
  exists l1 l2, l = l1 ++ x :: l2 /\ Forall (fun y => P y = false) l1 /\ P x = true.
Proof.
  induction l as [|y l IH]; [done|]. cbn. destruct (P y) eqn:E.
  - intros [= ->]. exists [], l. done.
  - intros (l1 & l2 & -> & Hf & Hx)%IH. exists (y :: l1), l2. split_and!; [done|by constructor|done].
Qed.
Lemma filter_all (P : V -> Prop) `{!forall v, Decision (P v)} l : Forall P l -> filter P l = l.
Proof. induction 1 as [|x l Hx _ IH]; [done|]. by rewrite filter_cons_True, IH. Qed.
Lemma dict_erase_one k l1 x l2 : distinct (l1 ++ x :: l2) -> Forall (fun v => same_key k v = false) l1 -> same_key k x = true ->
  dict_erase k (l1 ++ x :: l2) = l1 ++ l2.
Proof.
  intros Hd H1 Hx. unfold dict_erase. rewrite filter_app, filter_cons_False by congruence. rewrite !filter_all; [done| |done].
  rewrite <- Permutation_middle in Hd. inversion Hd as [|? ? Hf _]; subst. apply Forall_app in Hf as [_ Hf].
  eapply Forall_impl; [exact Hf|]. intros y Hy. cbn in Hy. destruct (same_key k y) eqn:E; [|done]. by rewrite (same_key_join k x y) in Hy.
Qed.

Lemma erase_step cap st self vs k : represents cap st self vs ->
  exists st', table_step st self (Erase k) = Done (Erased (if dict_find k vs then 1 else 0), st') /\
    represents cap st' self (dict_erase k vs).
Proof.
  intros (h & gs & H & Hp & Hd & Hc & Hle & Hroom). cbn. unfold erase_key. rewrite (find_before_eq _ _ _ _ _ H). cbn [mbind outcome_bind].
  pose proof (find_eq _ _ _ _ k H) as Hfe. unfold find in Hfe. rewrite (find_before_eq _ _ _ _ _ H) in Hfe. cbn [mbind outcome_bind] in Hfe. rewrite Hfe.
  cbn [mbind outcome_bind]. rewrite <- (dict_find_perm (nodes gs).*2 vs k) by (rewrite ?Hp; done).
  pose proof (first_of_find k (nodes gs)) as Hf. unfold first_of. destruct (List.find (is_key k) (nodes gs)) as [x|] eqn:Efind.
  - destruct Hf as [Hin ->]. apply find_first in Efind as (l1 & l2 & El & Hl1 & Hx). destruct (group_split _ _ _ _ El) as (gs1 & i & a & b & gs2 & -> & -> & ->).
    destruct H as [bs H]. destruct (shaped_node _ _ _ _ _ _ _ _ H Hin) as (Hv & _ & H0). rewrite (proj2 (Z.eqb_neq _ _) H0). cbn [negb].
    destruct (shaped_in _ _ _ _ _ _ _ _ _ _ H) as (_ & _ & _ & Hgi & _). apply Forall_app in Hgi as [_ [Hgi _]%Forall_cons].
    rewrite (index_of_eq _ _ _ _ _ (sh_head _ _ _ _ _ _ _ H) (sh_pos _ _ _ _ _ _ _ H) Hv), Hgi. cbn [mbind outcome_bind].
    rewrite El, pred_of_skip by done. cbn [pred_of]. rewrite Hx. rewrite fmap_app, last_of_app. fold (addrs gs1).
    destruct x as [n v]. cbn [fst snd] in *. edestruct erase_node_ok as (st' & r & E & Hh & _); [by exists bs|]. rewrite E. cbn.
    exists st'. split; [done|]. eexists _, _. split; [exact Hh|].
    assert (Hvs : vs ≡ₚ (nodes gs1 ++ a).*2 ++ v :: (b ++ nodes gs2).*2) by by rewrite <- Hp, El, (fmap_app snd).
    assert (Her : dict_erase k vs ≡ₚ (nodes gs1 ++ a).*2 ++ (b ++ nodes gs2).*2).
    { rewrite <- (dict_erase_one k _ v); [|by rewrite <- Hvs| |done]; [by rewrite Hvs|].
      apply Forall_fmap. done. }
    assert (Hlen : length vs = S (length (dict_erase k vs))). { rewrite Her, Hvs, !length_app. cbn. lia. }
    split_and!.
    + rewrite Her, nodes_app, nodes_cons_group, !fmap_app. by rewrite <- !app_assoc.
    + rewrite Her. rewrite Hvs, <- Permutation_middle in Hd. by inversion Hd.
    + cbn. rewrite Hc, wrap_small; [lia|]. destruct Hroom. unfold in_range. lia.
    + lia.
    + by eapply room_head; [..|exact Hroom].
  - rewrite Hf. cbn. exists st. split; [done|]. assert (dict_erase k vs = vs) as ->.
    { apply filter_all, find_none_inv. rewrite <- Hf. apply dict_find_perm; done. }
    exists h, gs. done.
Qed.

(** ** Clearing *)
Lemma destroy_loop_ok fuel (st : store V) l :
  NoDup l -> 0 ∉ l -> match l with [] => True | x :: l' => seg (nexts st) x l' 0 end -> (length l < fuel)%nat ->
  exists st', destroy_loop fuel st (default 0 (head l)) (default 0 (head (tail l))) = Done st' /\
    (forall a, nexts st' !! a = if decide (a ∈ l) then None else nexts st !! a) /\ arrs st' = arrs st /\ hdrs st' = hdrs st.
Proof.
  revert fuel st. induction l as [|x l IH]; intros [|fuel] st Hnd H0 Hs Hf; cbn [length] in Hf; try lia.
  { exists st. split_and!; [done| |done..]. intros a. by rewrite decide_False by apply not_elem_of_nil. }
  apply NoDup_cons in Hnd as [Hx Hnd]. apply not_elem_of_cons in H0 as [H0x H0].
  change (default 0 (head (x :: l))) with x. cbn [destroy_loop tail]. rewrite (proj2 (Z.eqb_neq x 0)) by congruence.
  destruct (seg_dom _ _ _ _ x Hs ltac:(left)) as [m Hm]. rewrite (destroy_node_eq _ _ _ Hm). cbn [mbind outcome_bind].
  set (st1 := with_vals (with_nexts st (delete x (nexts st))) (delete x (vals st))).
  assert (Hs1 : match l with [] => True | y :: l' => seg (nexts st1) y l' 0 end).
  { destruct l as [|y l]; [done|]. destruct Hs as [_ Hs]. eapply seg_frame; [|exact Hs]. intros a Ha. cbn. apply lookup_delete_ne. congruence. }
  assert (Ha : advance_chain st1 (default 0 (head l)) = Done (default 0 (head (tail l)))).
  { destruct l as [|y l]; [done|]. unfold advance_chain. change (default 0 (head (y :: l))) with y.
    apply not_elem_of_cons in H0 as [H0y _]. rewrite (proj2 (Z.eqb_neq y 0)) by congruence. apply next_of_eq, seg_head, Hs1. }
  rewrite Ha. cbn [mbind outcome_bind]. destruct (IH fuel st1 Hnd H0 Hs1 ltac:(lia)) as (st' & E & Hn & Har & Hh).
  exists st'. split_and!; [exact E| |done..]. intros a. rewrite Hn. cbn.
  destruct (decide (a ∈ l)) as [Hin|Hin]; [by rewrite decide_True by by right|].
  destruct (decide (a = x)) as [->|Hax]; [by rewrite decide_True by left; apply lookup_delete_eq|].
  rewrite decide_False; [by apply lookup_delete_ne|]. rewrite elem_of_cons. tauto.
Qed.
Lemma array_zero_full (bs : list Z) : array_zero bs (Z.of_nat (length bs)) = Done (replicate (length bs) 0).
Proof.
  unfold array_zero. rewrite (proj2 (Z.leb_le _ _)) by lia. rewrite Nat2Z.id, drop_all. by rewrite app_nil_r.
Qed.
Lemma shaped_empty (st : store V) self arr bc h bs :
  hdrs st !! self = Some h -> arrs st !! arr = Some bs -> bs = replicate (Z.to_nat bc) 0 -> 0 < bc ->
  nexts st !! self = Some 0 -> self <> 0 -> shaped st self arr bc h bs [].
Proof.
  intros Hh Ha -> Hb Hn H0. split; try done.
  - rewrite length_replicate. lia.
  - apply NoDup_singleton.
  - cbn. rewrite list_elem_of_singleton. congruence.
  - constructor.
  - intros i Hi. cbn. apply lookup_replicate. lia.
Qed.
Lemma clear_ok (st : store V) self h gs : holds st self h gs ->
  exists st', clear st self = Done st' /\ holds st' self (set_element_count (set_after_root_idx h 0) 0) [] /\
    forall a, a ∈ addrs gs -> nexts st' !! a = None.
Proof.
  intros [bs H]. pose proof (shaped_fuel _ _ _ _ _ _ _ H) as Hfuel. pose proof H as [H1 H2 H3 H4 H5 H6 H7 H8 H9 H10 H11 H12].
  apply NoDup_cons in H6 as [Hself Hnd]. apply not_elem_of_cons in H7 as [Hs0 H0].
  assert (Hadv : advance_chain st (default 0 (head (addrs gs))) = Done (default 0 (head (tail (addrs gs))))).
  { destruct (addrs gs) as [|x l]; [done|]. unfold advance_chain. change (default 0 (head (x :: l))) with x.
    apply not_elem_of_cons in H0 as [H0 _]. rewrite (proj2 (Z.eqb_neq x 0)) by congruence. destruct H5 as [_ H5]. by apply next_of_eq, seg_head. }
  destruct (destroy_loop_ok (fuel_of st) st (addrs gs)) as (st1 & E & Hn & Ha & Hh); [done..| |unfold addrs; by rewrite length_fmap|].
  { destruct (addrs gs); [done|]. by destruct H5. }
  assert (Hroot : nexts st1 !! self = Some (default 0 (head (addrs gs)))). { rewrite Hn, decide_False by done. by apply seg_head. }
  eexists. split_and!.
  - unfold clear, deallocate_nodes, begin_. rewrite (next_of_eq _ _ _ (seg_head _ _ _ H5)). cbn [mbind outcome_bind]. rewrite Hadv. cbn [mbind outcome_bind].
    rewrite E. cbn [mbind outcome_bind]. rewrite (set_next_eq _ _ _ _ Hroot). cbn [mbind outcome_bind].
    erewrite head_of_eq; [|cbn; rewrite Hh; exact H1]. cbn [mbind outcome_bind with_nexts arrs]. rewrite Ha, H2. cbn [or_undef mbind outcome_bind].
    rewrite <- H3, array_zero_full. cbn [mbind outcome_bind]. reflexivity.
  - eexists. apply shaped_empty; cbn; try apply lookup_insert_eq; try done. f_equal. lia.
  - intros a Hin. cbn. rewrite lookup_insert_ne by congruence. by rewrite Hn, decide_True.
Qed.
Lemma clear_step cap st self vs : represents cap st self vs ->
  exists st', table_step st self Clear = Done (Cleared, st') /\ represents cap st' self [].
Proof.
  intros (h & gs & H & Hp & Hd & Hc & Hle & Hroom). destruct (clear_ok _ _ _ _ H) as (st' & E & H' & _).
  cbn [table_step]. rewrite E. exists st'. split; [done|]. eexists _, _. split_and!; [exact H'|done|constructor|done|cbn; lia|].
  by eapply room_head; [..|exact Hroom].
Qed.

Lemma table_step_refines cap st self vs r a vs' : represents cap st self vs -> dict_step cap vs r = Some (a, vs') ->
  exists st', table_step st self r = Done (a, st') /\ represents cap st' self vs'.
Proof.
  intros H. destruct r as [k|v|k|].
  - intros [= <- <-]. exists st. split; [by eapply find_step|done].
  - by apply emplace_step.
  - intros [= <- <-]. by apply erase_step.
  - intros [= <- <-]. by eapply clear_step.
Qed.

(** C7: a table that can hold [cap] elements without growing answers every sequence
    of searches, insertions, erasures and clearings the way a dictionary of at most
    [cap] elements does, and represents that dictionary at the end. *)
Theorem table_refines_dictionary cap st self vs rs answers vs' :
  represents cap st self vs -> dict_run cap vs rs = Some (answers, vs') ->
  exists st', table_run st self rs = Done (answers, st') /\ represents cap st' self vs'.
Proof.
  revert st vs answers vs'. induction rs as [|r rs IH]; intros st vs answers vs' H; cbn [dict_run table_run].
  { intros [= <- <-]. by exists st. }
  destruct (dict_step cap vs r) as [[a vs1]|] eqn:E; [|done]. cbn. destruct (dict_run cap vs1 rs) as [[l vs2]|] eqn:E2; [|done]. cbn. intros [= <- <-].
  destruct (table_step_refines _ _ _ _ _ _ _ H E) as (st1 & -> & H1). cbn.
  destruct (IH _ _ _ _ H1 E2) as (st2 & -> & H2). by exists st2.
Qed.
End dict.
