(* ===== verification/HashGrow.v ===== *)
(** What growing, moving and copying a hash table do to its contents, and tables on
    which the theorems on hash tables apply. *)
From Stdlib Require Import List.
From S2P Require Import Prelude Hashtable HashShape HashOps HashProps.
Import Hashtable ListNotations.

Section grow.
Context {K V : Type} `{!HashParams K V} `{!HashLaws K V} `{!NewAddr V} `{!NewAddrLaws V}.
Abbreviation group := (Z * list (Z * V))%type.
Implicit Types (gs : list group) (st : store V) (vs : list V).

(** ** Rehashing *)
Lemma rehash_loop_first st self nb t h bs x fuel :
  shaped st self nb t h bs [] -> (exists old, nexts st !! x.1 = Some old) -> vals st !! x.1 = Some x.2 -> x.1 <> self -> x.1 <> 0 ->
  (2 <= fuel)%nat ->
  exists st' i bs' gs', rehash_loop fuel st self nb t x.1 = Done st' /\
    shaped st' self nb t (set_after_root_idx h i) bs' gs' /\ nodes gs' = [x] /\ relinked st st' self nb (set_after_root_idx h i) bs'.
Proof.
  intros H [old Hn] Hv Hs H0 Hf. destruct x as [n v]. cbn [fst snd] in *.
  assert (Hnew : n ∉ self :: addrs (V := V) []). { cbn. rewrite list_elem_of_singleton. done. }
  destruct (insert_at_shaped _ _ _ _ _ _ _ _ _ _ H Hn Hv Hnew H0) as (st' & i & bs' & gs' & E & Hsh & Hp & Hr).
  apply Permutation_singleton_r in Hp. exists st', i, bs', gs'. split_and!; [|done..].
  destruct fuel as [|[|fuel]]; [lia..|]. cbn [rehash_loop]. rewrite (proj2 (Z.eqb_neq n 0) H0), (hash_code_eq _ _ _ Hv). cbn [mbind outcome_bind].
  unfold range_max. rewrite (proj2 (Z.eqb_neq t 0)) by (pose proof (sh_pos _ _ _ _ _ _ _ H); lia). fold (slot t v). rewrite E. cbn [mbind outcome_bind].
  pose proof (sh_chain _ _ _ _ _ _ _ Hsh) as Hc. unfold addrs in Hc. rewrite Hp in Hc. destruct Hc as [_ Hc]. cbn in Hc.
  rewrite (next_of_eq _ _ _ Hc). done.
Qed.

(** Rehashing keeps the first node of the chain and drops the others, while the
    element count stays. *)
Lemma run_rehash_ok st self h gs target : holds st self h gs ->
  exists st' h' gs', run_rehash st self target = Done st' /\ holds st' self h' gs' /\ nodes gs' = take 1 (nodes gs) /\
    element_count h' = element_count h /\ bucket_count h' = Z.max 2 target /\ max_load h' = max_load h /\
    vals st' = vals st /\ dom (nexts st') = dom (nexts st).
Proof.
  intros [bs H]. pose proof H as [H1 H2 H3 H4 H5 H6 H7 H8 H9 H10 H11 H12].
  apply not_elem_of_cons in H7 as [Hs0 H0]. apply NoDup_cons in H6 as [Hself _]. pose proof (new_addr_arrs st) as Hfresh.
  set (t := Z.max 2 target). set (nb := new_addr st) in *. set (h1 := set_after_root_idx h 0).
  assert (Ht : (if target <? 2 then 2 else target) = t) by (unfold t; destruct (Z.ltb_spec target 2); lia).
  assert (Hnb : my_buckets h <> nb) by congruence.
  set (st2 := Store (<[self := 0]> (nexts st)) (vals st) (<[nb := replicate (Z.to_nat t) 0]> (arrs st)) (<[self := h1]> (hdrs st))).
  assert (Hs2 : shaped st2 self nb t h1 (replicate (Z.to_nat t) 0) []).
  { apply shaped_empty; cbn; try apply lookup_insert_eq; try done. unfold t. lia. }
  assert (Hloop : exists st3 i bs3 gs3, rehash_loop (fuel_of st2) st2 self nb t (default 0 (head (addrs gs))) = Done st3 /\
    shaped st3 self nb t (set_after_root_idx h1 i) bs3 gs3 /\ nodes gs3 = take 1 (nodes gs) /\ relinked st2 st3 self nb (set_after_root_idx h1 i) bs3).
  { unfold addrs in *. destruct (nodes gs) as [|x l] eqn:En.
    - exists st2, (after_root_idx h1), (replicate (Z.to_nat t) 0), []. rewrite set_after_root_same. split_and!; [done..|].
      unfold relinked. rewrite (insert_id (hdrs st2)), (insert_id (arrs st2)) by apply Hs2. done.
    - change (default 0 (head (x :: l).*1)) with x.1. apply Forall_cons in H8 as [Hv _].
      apply not_elem_of_cons in Hself as [Hxs _]. apply not_elem_of_cons in H0 as [Hx0 _].
      destruct (seg_dom _ _ _ _ x.1 H5 ltac:(right; left)) as [m Hm].
      destruct (rehash_loop_first st2 self nb t h1 _ x (fuel_of st2) Hs2) as (st3 & i & bs3 & gs3 & ? & ? & ? & ?); try done; try congruence.
      + exists m. cbn. by rewrite lookup_insert_ne.
      + unfold fuel_of. assert (size (nexts st2) <> 0%nat); [|lia]. intros E%map_size_empty_inv. cbn in E. by apply insert_non_empty in E.
      + exists st3, i, bs3, gs3. done. }
  destruct Hloop as (st3 & i & bs3 & gs3 & E & Hs3 & Hn3 & (Rv & Rh & Ra & Rd)).
  set (h3 := set_after_root_idx h1 i) in *.
  exists (set_head (deallocate_buckets st3 self h3) self (set_buckets h3 nb t)), (set_buckets h3 nb t), gs3. split_and!; try done.
  - unfold run_rehash. rewrite Ht. cbn [allocate_buckets]. unfold allocate_buckets, begin_. fold nb. erewrite next_of_eq; [|cbn; by apply seg_head].
    cbn [mbind outcome_bind]. rewrite (head_of_eq _ self h) by done. cbn [mbind outcome_bind].
    erewrite set_next_eq; [|cbn; by apply seg_head]. cbn [mbind outcome_bind].
    match goal with |- context [rehash_loop _ ?s _ _ _ _] => change s with st2 end. fold t. rewrite E. cbn [mbind outcome_bind].
    rewrite (head_of_eq _ _ _ (sh_head _ _ _ _ _ _ _ Hs3)). done.
  - exists bs3. eapply shaped_frame; [exact Hs3|cbn; apply lookup_insert_eq|done|..]; unfold deallocate_buckets; destruct (is_singularity self h3); try done.
    cbn. by rewrite lookup_delete_ne.
  - unfold deallocate_buckets. by destruct (is_singularity self h3).
  - unfold deallocate_buckets. destruct (is_singularity self h3); cbn; rewrite Rd; cbn; apply dom_insert_lookup_L; eexists; by apply seg_head.
Qed.

(** inserting a new key into a table whose load has reached the limit keeps, of
    the elements it held, only the first one in iteration order: afterwards the
    table holds that one and the new one, every other key that was present is no
    longer found, and the element count still includes the lost elements. *)
Theorem growing_insert_forgets st self h gs vs v t :
  holds st self h gs -> (nodes gs).*2 ≡ₚ vs -> distinct vs -> dict_find (key_extract v) vs = None ->
  need_rehash h 1 = true -> next_bucket_ct h 1 = Done t -> 0 <= element_count h < 2 ^ 64 - 1 ->
  exists n st' h' gs', emplace st self v = Done ((n, true), st') /\ holds st' self h' gs' /\
    (nodes gs').*2 ≡ₚ v :: take 1 (nodes gs).*2 /\ element_count h' = element_count h + 1 /\
    forall x, x ∈ drop 1 (nodes gs).*2 -> find st' self (key_extract x) = Done 0.
Proof.
  intros H Hp Hd Hk Hr Ht Hc. pose proof (create_node_fresh st self h gs v H) as Hcr. unfold emplace.
  destruct (create_node st v) as [n st1]. destruct Hcr as (H1 & Hn & Hv & Hnew & H0 & _).
  destruct (find_cases _ _ _ _ _ (key_extract v) H1 Hp Hd) as [(x & _ & _ & _ & _ & E)|[E _]]; [congruence|].
  destruct (run_rehash_ok st1 self h gs t H1) as (st2 & h2 & gs2 & Er & [bs2 H2] & Hg2 & Hc2 & Hb2 & Hm2 & Hv2 & Hd2).
  assert (Hk2 : is_Some (nexts st2 !! n)). { apply elem_of_dom. rewrite Hd2. apply elem_of_dom. eauto. }
  destruct Hk2 as [old Hold].
  assert (Hnew2 : n ∉ self :: addrs gs2).
  { unfold addrs. rewrite Hg2. intros Hin. apply Hnew. apply elem_of_cons in Hin as [->|Hin]; [left|]. right.
    unfold addrs. rewrite <- (take_drop 1 (nodes gs)), fmap_app. apply elem_of_app. by left. }
  rewrite <- Hv2 in Hv. destruct (insert_at_shaped _ _ _ _ _ _ _ _ _ _ H2 Hold Hv Hnew2 H0) as (st3 & i & bs3 & gs3 & E3 & Hs3 & Hp3 & (Rv & Rh & _)).
  pose proof (sh_head _ _ _ _ _ _ _ H2) as Hh2. pose proof (sh_pos _ _ _ _ _ _ _ H2) as Hpos.
  set (h3 := set_element_count (set_after_root_idx h2 i) (u64 (element_count h2 + 1))).
  assert (Hholds : holds (set_head st3 self h3) self h3 gs3).
  { exists bs3. eapply shaped_frame; [exact Hs3|cbn; apply lookup_insert_eq|done..]. }
  assert (Hcont : (nodes gs3).*2 ≡ₚ v :: take 1 (nodes gs).*2). { rewrite Hp3, Hg2, fmap_cons, fmap_take. done. }
  exists n, (set_head st3 self h3), h3, gs3. split_and!; [|done|done| |].
  - unfold insert_node, key_of. rewrite (value_of_eq _ n v) by by rewrite <- Hv2. cbn [mbind outcome_bind]. rewrite E. cbn [mbind outcome_bind negb Z.eqb].
    rewrite (hash_code_eq _ n v) by by rewrite <- Hv2. cbn [mbind outcome_bind]. unfold link_node.
    destruct H1 as [bs1 H1]. rewrite (head_of_eq _ _ _ (sh_head _ _ _ _ _ _ _ H1)). cbn [mbind outcome_bind]. rewrite Hr, Ht. cbn [mbind outcome_bind].
    rewrite Er. cbn [mbind outcome_bind]. rewrite (head_of_eq _ _ _ Hh2). cbn [mbind outcome_bind]. rewrite range_eq by done. cbn [mbind outcome_bind].
    rewrite E3. cbn [mbind outcome_bind]. rewrite (head_of_eq _ _ _ (sh_head _ _ _ _ _ _ _ Hs3)). done.
  - cbn. rewrite Hc2. apply wrap_small. unfold in_range. lia.
  - intros x Hx. assert (Hdall : distinct (v :: (nodes gs).*2)). { constructor; [rewrite Hp; by apply find_none_inv|by rewrite Hp]. }
    assert (Hd3 : distinct (v :: take 1 (nodes gs).*2) /\ Forall (fun y => same_key (key_extract x) y = false) (v :: take 1 (nodes gs).*2)).
    { rewrite <- (take_drop 1 (nodes gs).*2) in Hdall. apply list_elem_of_split in Hx as (l1 & l2 & El). rewrite El in Hdall.
      assert (HP : v :: take 1 (nodes gs).*2 ++ l1 ++ x :: l2 ≡ₚ (x :: v :: take 1 (nodes gs).*2) ++ (l1 ++ l2)) by solve_Permutation.
      rewrite HP in Hdall. clear -Hdall HashLaws0. revert Hdall. generalize (v :: take 1 (nodes gs).*2). intros l Hdall. inversion Hdall as [|? ? Hf Ho]; subst.
      apply Forall_app in Hf as [Hf _]. split; [|done]. clear -Ho. induction l as [|y l IH]; [constructor|]. inversion Ho as [|? ? Hg Hq]; subst.
      apply Forall_app in Hg as [Hg _]. constructor; [done|by apply IH]. }
    destruct Hd3 as [Hd3 Hf3]. destruct (find_cases _ _ _ _ _ (key_extract x) Hholds Hcont Hd3) as [(y & _ & _ & _ & _ & Ey)|[Ey _]]; [|done].
    apply find_none_inv in Hf3. congruence.
Qed.

(** ** Iterating *)
Lemma chain_values_ok st fuel l : match l with [] => True | x :: l' => seg (nexts st) x.1 l'.*1 0 end ->
  Forall (fun x => vals st !! x.1 = Some x.2) l -> 0 ∉ l.*1 -> (length l < fuel)%nat ->
  chain_values fuel st (default 0 (head l.*1)) = Done l.*2.
Proof.
  revert fuel. induction l as [|x l IH]; intros [|fuel] Hs Hv H0 Hf; cbn [length] in Hf; try lia; [done|].
  apply Forall_cons in Hv as [Hx Hv]. cbn in H0. apply not_elem_of_cons in H0 as [Hx0 H0].
  change (default 0 (head (x :: l).*1)) with x.1. cbn [chain_values]. rewrite (proj2 (Z.eqb_neq x.1 0)) by congruence.
  rewrite (value_of_eq _ _ _ Hx). cbn [mbind outcome_bind]. rewrite (next_of_eq _ _ _ (seg_head _ _ _ Hs)). cbn [mbind outcome_bind].
  rewrite IH; [done|destruct l; [done|by destruct Hs]|done|done|lia].
Qed.
Lemma values_ok st self (nx : gmap Z Z) l : nexts st = nx -> seg nx self l.*1 0 -> NoDup (self :: l.*1) -> 0 ∉ l.*1 ->
  Forall (fun x => vals st !! x.1 = Some x.2) l -> values st self = Done l.*2.
Proof.
  intros <- Hs Hnd H0 Hv. unfold values, begin_. rewrite (next_of_eq _ _ _ (seg_head _ _ _ Hs)). cbn [mbind outcome_bind].
  apply chain_values_ok; [destruct l; [done|by destruct Hs]|done|done|].
  assert (length (self :: l.*1) <= size (nexts st))%nat as Hl by (apply NoDup_dom_size; [done|intros a; by eapply seg_dom]).
  cbn in Hl. rewrite length_fmap in Hl. unfold fuel_of. lia.
Qed.

(** ** Moving *)
(** a table constructed by moving from another one with its own bucket array
    still iterates over all elements, but finds none of those in the first bucket
    of the chain: that bucket still refers to the root of the table moved from. *)
Theorem moved_table_misses_first_bucket st self that h g gs :
  holds st that h (g :: gs) -> my_buckets h <> singularity that -> my_buckets h <> singularity self ->
  self <> that -> self <> 0 -> nexts st !! self = None -> singularity self <> singularity that ->
  is_Some (arrs st !! singularity that) -> (forall bs, arrs st !! singularity that = Some bs -> bs <> []) ->
  exists st', move_construct st self that = Done st' /\
    (forall x, x ∈ g.2.*2 -> find st' self (key_extract x) = Done 0) /\
    values st' self = Done (nodes (g :: gs)).*2.
Proof.
  intros [bs H] Hb1 Hb2 Hne Hs0 Hnew Hss [sb Hsb] Hnil. pose proof H as [H1 H2 H3 H4 H5 H6 H7 H8 H9 H10 H11 H12].
  assert (Hself : self ∉ that :: addrs (g :: gs)). { intros Hin. destruct (shaped_known _ _ _ _ _ _ _ _ H Hin). congruence. }
  specialize (Hnil _ Hsb). destruct sb as [|s0 sb]; [done|].
  set (h' := Hdr (element_count h) (bucket_count h) (after_root_idx h) (my_buckets h) float_one).
  set (nx := <[that := 0]> (<[self := default 0 (head (addrs (g :: gs)))]> (nexts st))).
  set (st' := Store nx (vals st) (<[singularity that := 0 :: sb]> (<[singularity self := [0]]> (arrs st)))
    (<[that := Hdr 0 1 0 (singularity that) (max_load h)]> (<[self := h']> (hdrs st)))).
  assert (Hself' : nx !! self = Some (default 0 (head (addrs (g :: gs))))). { unfold nx. rewrite lookup_insert_ne by done. apply lookup_insert_eq. }
  assert (Hhd : hdrs st' !! self = Some h'). { cbn. rewrite lookup_insert_ne by done. apply lookup_insert_eq. }
  assert (Harr : arrs st' !! my_buckets h' = Some bs). { cbn. by rewrite !lookup_insert_ne by done. }
  exists st'. split_and!.
  - unfold move_construct, move_fields, blank. erewrite next_of_eq; [|cbn; rewrite lookup_insert_ne by done; by apply seg_head]. cbn [mbind outcome_bind].
    erewrite set_next_eq; [|cbn; apply lookup_insert_eq]. cbn [mbind outcome_bind]. erewrite (head_of_eq _ self); [|cbn; apply lookup_insert_eq]. cbn [mbind outcome_bind].
    erewrite (head_of_eq _ that); [|cbn; rewrite lookup_insert_ne by done; exact H1]. cbn [mbind outcome_bind]. unfold reset.
    erewrite set_next_eq; [|cbn; rewrite !lookup_insert_ne by done; by apply seg_head]. cbn [mbind outcome_bind].
    erewrite head_of_eq; [|cbn; rewrite !lookup_insert_ne by done; exact H1]. cbn [mbind outcome_bind].
    erewrite bucket_set_eq; [|cbn; rewrite lookup_insert_ne by done; exact Hsb|done|done]. cbn [mbind outcome_bind].
    unfold st', nx, set_head, with_hdrs. cbn. by rewrite !insert_insert_eq.
  - intros x (y & -> & Hy)%list_elem_of_fmap. destruct g as [i ns]. destruct (shaped_in _ _ _ _ _ _ [] i ns gs H) as (_ & _ & _ & Hf & Hi).
    rewrite Forall_forall in Hf. specialize (Hf y Hy). cbn [snd] in *.
    unfold find, find_before. rewrite (index_key_eq _ _ _ _ Hhd H4). cbn [mbind outcome_bind]. rewrite (head_of_eq _ _ _ Hhd). cbn [mbind outcome_bind].
    change (hasher (key_extract y.2) mod bucket_count h') with (slot (bucket_count h) y.2). rewrite Hf.
    erewrite bucket_get_eq; [|exact Harr|lia|by apply H11]. cbn [mbind outcome_bind bkt fst]. rewrite Z.eqb_refl.
    unfold advance_chain. rewrite (proj2 (Z.eqb_neq that 0)) by (intros ->; apply H7; left). erewrite next_of_eq; [|cbn; apply lookup_insert_eq]. done.
  - assert (Hh : nexts st !! that = Some (default 0 (head (addrs (g :: gs))))) by by apply seg_head.
    apply NoDup_cons in H6 as [Hthat Hnd]. apply not_elem_of_cons in Hself as [_ Hself]. apply not_elem_of_cons in H7 as [_ H7].
    apply (values_ok _ _ nx); [done| |by apply NoDup_cons|done|done]. fold (addrs (g :: gs)).
    destruct (addrs (g :: gs)) as [|y l]; [done|]. cbn [seg] in *. split; [done|]. destruct H5 as [_ H5].
    eapply seg_frame; [|exact H5]. intros a Ha. unfold nx. rewrite !lookup_insert_ne; congruence.
Qed.

(** ** Copying *)
(** A table copied from an empty one has no buckets: every later search in it
    and every insertion into it divides by zero. *)
Theorem copy_of_empty_unusable st self that h :
  hdrs st !! that = Some h -> element_count h = 0 -> nexts st !! that = Some 0 -> self <> that ->
  exists st', copy_construct st self that = Done st' /\
    (forall k, find st' self k = Undef) /\ (forall v, emplace st' self v = Undef).
Proof.
  intros Hh Hc Hn Hne. set (h0 := Hdr 0 0 0 (singularity self) float_one).
  set (st' := Store (<[self := 0]> (nexts st)) (vals st) (<[singularity self := [0]]> (arrs st)) (<[self := h0]> (hdrs st))).
  assert (Hf : forall st1 k, hdrs st1 !! self = Some h0 -> find (V := V) st1 self k = Undef).
  { intros st1 k E. unfold find, find_before, index_key. rewrite (head_of_eq _ _ _ E). done. }
  assert (Hd : hdrs st' !! self = Some h0) by (cbn; apply lookup_insert_eq).
  exists st'. split_and!.
  - unfold copy_construct. rewrite (head_of_eq _ _ _ Hh). cbn [mbind outcome_bind]. rewrite Hc. unfold construct, init_buckets, blank.
    erewrite head_of_eq; [|cbn; apply lookup_insert_eq]. cbn [mbind outcome_bind Z.ltb Z.compare].
    erewrite bucket_set_eq; [|cbn; apply lookup_insert_eq|done|done]. cbn [mbind outcome_bind].
    unfold values, begin_. erewrite next_of_eq; [|cbn; rewrite lookup_insert_ne by done; exact Hn]. cbn.
    unfold st', set_head, with_hdrs, with_arrs. cbn. by rewrite !insert_insert_eq.
  - intros k. by apply Hf.
  - intros v. unfold emplace, create_node, insert_node, key_of. erewrite value_of_eq; [|cbn; apply lookup_insert_eq]. cbn [mbind outcome_bind].
    by rewrite Hf.
Qed.
End grow.

(** ** Example tables: sets of integers hashed by their value *)
#[export] Instance Z_params : HashParams Z Z := {| hasher := u64; key_extract := fun v => v; key_equal := Z.eqb |}.
#[export] Instance Z_laws : HashLaws Z Z.
Proof.
  split; cbn; intros *; rewrite ?Z.eqb_eq; [reflexivity|congruence..].
Qed.
(** An allocator that never reuses an address. *)
Definition top_addr {A} (m : gmap Z A) : Z := foldr Z.max 0 (map_to_list m).*1.
#[export] Instance next_addr : NewAddr Z :=
  fun st => 1 + Z.max (top_addr (nexts st)) (Z.max (top_addr (vals st)) (top_addr (arrs st))).
Lemma top_addr_above {A} (m : gmap Z A) a : top_addr m < a -> m !! a = None.
Proof.
  intros H. destruct (m !! a) as [x|] eqn:E; [|done]. exfalso. apply elem_of_map_to_list in E. unfold top_addr in H.
  induction (map_to_list m) as [|y l IH]; [by apply not_elem_of_nil in E|]. cbn in H. apply elem_of_cons in E as [<-|E]; [cbn in H; lia|].
  apply IH; [lia|done].
Qed.
Lemma top_addr_nonneg {A} (m : gmap Z A) : 0 <= top_addr m.
Proof. unfold top_addr. induction (map_to_list m).*1; cbn; lia. Qed.
#[export] Instance next_addr_laws : NewAddrLaws Z.
Proof.
  split; intros st; unfold new_addr, next_addr; pose proof (top_addr_nonneg (nexts st)); pose proof (top_addr_nonneg (vals st)); pose proof (top_addr_nonneg (arrs st));
    [lia|apply top_addr_above; lia..].
Qed.

(** A shape, checked. *)
Lemma shaped_check (st : store Z) self arr bc h bs gs :
  bool_decide (0 < bc /\ Z.of_nat (length bs) = bc /\ arrs st !! arr = Some bs /\ NoDup (self :: addrs gs) /\ 0 ∉ self :: addrs gs /\
    Forall (fun x => vals st !! x.1 = Some x.2) (nodes gs) /\
    Forall (fun g : Z * list (Z * Z) => g.2 <> [] /\ Forall (fun x => slot bc x.2 = g.1) g.2) gs /\ NoDup gs.*1 /\
    Forall (fun i => bs !! Z.to_nat i = Some (bkt self gs i)) (seqZ 0 bc)) = true ->
  hdrs st !! self = Some h -> seg (nexts st) self (addrs gs) 0 ->
  match gs with [] => True | g :: _ => after_root_idx h = g.1 end -> shaped st self arr bc h bs gs.
Proof.
  intros (H1 & H2 & H3 & H4 & H5 & H6 & H7 & H8 & H9)%bool_decide_eq_true Hh Hs Hf. split; try done.
  intros i Hi. rewrite Forall_forall in H9. apply H9. apply elem_of_seqZ. lia.
Qed.

Definition no_store : store Z := Store ∅ ∅ ∅ ∅.
Definition run_on (o : outcome (store Z)) (rs : list request) : store Z :=
  match (st ← o; '(_, st1) ← table_run st 16 rs; Done st1) with Done st => st | _ => no_store end.
(** The default table, and the same with seven elements. *)
Definition fresh8 : store Z := run_on (construct no_store 16 8) [].
Definition full7 : store Z := run_on (construct no_store 16 8) (Emplace <$> [0; 1; 2; 3; 4; 5; 6]).
Definition fresh8_head : hdr := Hdr 0 8 0 25 float_one.
Definition full7_head : hdr := Hdr 7 8 6 25 float_one.
Definition full7_groups : list (Z * list (Z * Z)) :=
  [(6, [(32, 6)]); (5, [(31, 5)]); (4, [(30, 4)]); (3, [(29, 3)]); (2, [(28, 2)]); (1, [(27, 1)]); (0, [(26, 0)])].
Lemma full7_holds : holds full7 16 full7_head full7_groups.
Proof.
  exists [27; 28; 29; 30; 31; 32; 16; 0]. apply shaped_check; [vm_compute; reflexivity|reflexivity| |reflexivity].
  vm_compute. repeat split.
Qed.
Lemma fresh8_represents : represents 7 fresh8 16 [].
Proof.
  exists fresh8_head, []. split_and!; [|done|constructor|done|done|].
  - exists (replicate 8 0). apply shaped_check; [vm_compute; reflexivity|reflexivity|reflexivity|done].
  - split; [done|]. intros c Hc. assert (c = 0 \/ c = 1 \/ c = 2 \/ c = 3 \/ c = 4 \/ c = 5 \/ c = 6) as Hcs by lia.
    destruct Hcs as [->|[->|[->|[->|[->|[->| ->]]]]]]; vm_compute; reflexivity.
Qed.
Lemma full7_distinct : distinct (nodes full7_groups).*2.
Proof. repeat (constructor; [repeat (constructor; [reflexivity|]); constructor|]). constructor. Qed.

Lemma table_refines_dictionary_witness :
  exists st', table_run fresh8 16 [Emplace 3; Emplace 11; Find 11; Erase 3; Find 3; Emplace 11] =
    Done ([Placed 3 true; Placed 11 true; Found (Some 11); Erased 1; Found None; Placed 11 false], st') /\ represents 7 st' 16 [11].
Proof.
  apply (table_refines_dictionary 7 fresh8 16 []); [apply fresh8_represents|vm_compute; reflexivity].
Defined.
Lemma growing_insert_forgets_witness :
  exists n st' h' gs', emplace full7 16 7 = Done ((n, true), st') /\ holds st' 16 h' gs' /\
    (nodes gs').*2 ≡ₚ [7; 6] /\ element_count h' = 8 /\
    forall x, x ∈ [5; 4; 3; 2; 1; 0] -> find st' 16 (key_extract x) = Done 0.
Proof.
  apply (growing_insert_forgets full7 16 full7_head full7_groups (nodes full7_groups).*2 7 16);
    [apply full7_holds|reflexivity|apply full7_distinct|vm_compute; reflexivity|vm_compute; reflexivity|vm_compute; reflexivity|vm_compute; split; congruence].
Defined.
Lemma moved_table_misses_first_bucket_witness :
  exists st', move_construct full7 100 16 = Done st' /\
    (forall x, x ∈ [6] -> find st' 100 (key_extract x) = Done 0) /\ values st' 100 = Done [6; 5; 4; 3; 2; 1; 0].
Proof.
  apply (moved_table_misses_first_bucket full7 100 16 full7_head (6, [(32, 6)]) (tail full7_groups));
    [apply full7_holds|vm_compute; congruence|vm_compute; congruence|congruence|congruence|vm_compute; reflexivity|vm_compute; congruence|eexists; vm_compute; reflexivity|].
  vm_compute. intros bs [= <-]. congruence.
Defined.
Lemma copy_of_empty_unusable_witness :
  exists st', copy_construct fresh8 100 16 = Done st' /\
    (forall k, find st' 100 k = Undef) /\ (forall v, emplace st' 100 v = Undef).
Proof.
  apply (copy_of_empty_unusable fresh8 100 16 fresh8_head); [vm_compute; reflexivity|reflexivity|vm_compute; reflexivity|congruence].
Defined.
