(* ===== verification/StateExn.v ===== *)
(** Operations on a state that may throw: a function from the state to the state and an
    exception or a value.  On an exception the changes made before it stay. *)
From S2P Require Import Prelude.

Definition SE (S E A : Type) : Type := S -> outcome (S * (E + A)).
#[global] Instance SE_ret {S E} : MRet (SE S E) := fun A a s => Done (s, inr a).
#[global] Instance SE_bind {S E} : MBind (SE S E) := fun A B f m s =>
  '(s1, r) ← m s; match r with inl e => Done (s1, inl e) | inr a => f a s1 end.

Section Ops.
Context {S E : Type}.
Implicit Types (s : S).
Definition throw {A} (e : E) : SE S E A := fun s => Done (s, inl e).
Definition undef {A} : SE S E A := fun _ => Undef.
Definition no_fuel {A} : SE S E A := fun _ => NoFuel.
Definition gets {A} (f : S -> A) : SE S E A := fun s => Done (s, inr (f s)).
Definition modify (f : S -> S) : SE S E unit := fun s => Done (f s, inr tt).
(** The handlers that [h] has. *)
Definition catch {A} (m : SE S E A) (h : E -> option (SE S E A)) : SE S E A := fun s =>
  '(s1, r) ← m s;
  match r with inl e => match h e with Some k => k s1 | None => Done (s1, inl e) end | inr a => Done (s1, inr a) end.

(** ** Running an operation *)
Lemma run_bind {A B} (m : SE S E A) (f : A -> SE S E B) s s1 a : m s = Done (s1, inr a) -> (m ≫= f) s = f a s1.
Proof. intros H. unfold mbind, SE_bind, mbind, outcome_bind. by rewrite H. Qed.
Lemma run_bind_inv {A B} (m : SE S E A) (f : A -> SE S E B) s s2 b : (m ≫= f) s = Done (s2, inr b) -> exists s1 a, m s = Done (s1, inr a) /\ f a s1 = Done (s2, inr b).
Proof. unfold mbind, SE_bind, mbind, outcome_bind. destruct (m s) as [[s1 [e|a]]| |]; intros; simplify_eq. by exists s1, a. Qed.
Lemma run_exn {A B} (m : SE S E A) (f : A -> SE S E B) s s1 e : m s = Done (s1, inl e) -> (m ≫= f) s = Done (s1, inl e).
Proof. intros H. unfold mbind, SE_bind, mbind, outcome_bind. by rewrite H. Qed.
Lemma run_gets {A B} (g : S -> A) (f : A -> SE S E B) s : (gets g ≫= f) s = f (g s) s.
Proof. done. Qed.
Lemma run_modify {B} (g : S -> S) (f : unit -> SE S E B) s : (modify g ≫= f) s = f tt (g s).
Proof. done. Qed.
Lemma run_ret {A B} (a : A) (f : A -> SE S E B) s : (mret a ≫= f) s = f a s.
Proof. done. Qed.
Lemma run_assoc {A B C} (m : SE S E A) (f : A -> SE S E B) (g : B -> SE S E C) s : ((m ≫= f) ≫= g) s = (m ≫= (fun a => f a ≫= g)) s.
Proof. unfold mbind, SE_bind, mbind, outcome_bind. by destruct (m s) as [[s1 [e|a]]| |]. Qed.
Lemma run_catch {A} (m : SE S E A) h s s1 r : m s = Done (s1, r) -> catch m h s = match r with inl e => match h e with Some k => k s1 | None => Done (s1, inl e) end | inr a => Done (s1, inr a) end.
Proof. intros H. unfold catch. by rewrite H. Qed.
Lemma run_undef {A B} (m : SE S E A) (f : A -> SE S E B) s : m s = Undef -> (m ≫= f) s = Undef.
Proof. intros H. unfold mbind, SE_bind, mbind, outcome_bind. by rewrite H. Qed.
Lemma catch_undef {A} (m : SE S E A) h s : m s = Undef -> catch m h s = Undef.
Proof. intros H. unfold catch. by rewrite H. Qed.
End Ops.
