(* ===== verification/Bytes.v ===== *)
(** Buffers of bytes: little- and big-endian numbers, and access to a part of a buffer, which
    is undefined outside of it. *)
From S2P Require Import Prelude.

Module Bytes.

Fixpoint le (l : list Z) : Z := match l with [] => 0 | b :: rest => b + 256 * le rest end.
Fixpoint le_bytes (n : nat) (x : Z) : list Z := match n with O => [] | S k => x mod 256 :: le_bytes k (x / 256) end.
Definition be (l : list Z) : Z := le (rev l).
Definition be_bytes (n : nat) (x : Z) : list Z := rev (le_bytes n x).
(** Access to memory inside a buffer. *)
Definition rd (buf : list Z) (p n : Z) : outcome (list Z) :=
  if (0 <=? p) && (0 <=? n) && (p + n <=? Z.of_nat (length buf)) then Done (take (Z.to_nat n) (drop (Z.to_nat p) buf)) else Undef.
Definition wr (buf : list Z) (p : Z) (l : list Z) : outcome (list Z) :=
  if (0 <=? p) && (p + Z.of_nat (length l) <=? Z.of_nat (length buf))
  then Done (take (Z.to_nat p) buf ++ l ++ drop (Z.to_nat p + length l) buf) else Undef.

(** ** Lemmas *)
Lemma length_le_bytes n x : length (le_bytes n x) = n.
Proof. revert x. induction n as [|n IH]; intros x; simpl; [done|]. by rewrite IH. Qed.
Lemma le_le_bytes n x : 0 <= x < 256 ^ Z.of_nat n -> le (le_bytes n x) = x.
Proof.
  revert x. induction n as [|n IH]; intros x Hx; simpl; [change (256 ^ Z.of_nat 0) with 1 in Hx; lia|].
  rewrite Nat2Z.inj_succ, Z.pow_succ_r in Hx by lia. rewrite IH by zlia. pose proof (Z.div_mod x 256). lia.
Qed.

(** Reading and writing a part of a buffer. *)
Lemma rd_at pre mid post b p n :
  b = pre ++ mid ++ post -> p = Z.of_nat (length pre) -> n = Z.of_nat (length mid) -> rd b p n = Done mid.
Proof.
  intros -> -> ->. unfold rd. rewrite !length_app. case_cmp; try lia. simpl. rewrite !Nat2Z.id, drop_app_length, take_app_length. done.
Qed.
Lemma wr_at pre mid post b p l :
  b = pre ++ mid ++ post -> p = Z.of_nat (length pre) -> length l = length mid -> wr b p l = Done (pre ++ l ++ post).
Proof.
  intros -> -> Hl. unfold wr. rewrite !length_app, Hl. case_cmp; try lia. simpl. rewrite !Nat2Z.id, take_app_length.
  rewrite (app_assoc pre mid), drop_app_length' by (rewrite length_app; lia). done.
Qed.

Lemma length_be_bytes n x : length (be_bytes n x) = n.
Proof. unfold be_bytes. by rewrite length_rev, length_le_bytes. Qed.
Lemma be_be_bytes n x : 0 <= x < 256 ^ Z.of_nat n -> be (be_bytes n x) = x.
Proof. intros. unfold be, be_bytes. rewrite rev_involutive. by apply le_le_bytes. Qed.
Lemma rd_left (P x : list Z) p n : p + n <= Z.of_nat (length P) -> rd (P ++ x) p n = rd P p n.
Proof.
  intros H. unfold rd. rewrite length_app. case_cmp; try done; try lia. simpl. f_equal.
  rewrite drop_app_le, take_app_le; [done|rewrite length_drop; lia|lia].
Qed.
Lemma rd_whole (d : list Z) n : Z.of_nat (length d) = n -> rd d 0 n = Done d.
Proof. intros <-. unfold rd. case_cmp; try lia. simpl. rewrite drop_0, Nat2Z.id. by rewrite firstn_all. Qed.

(** A write inside a part of the buffer. *)
Lemma wr_part (P D R : list Z) p l :
  Z.of_nat (length P) <= p -> p + Z.of_nat (length l) <= Z.of_nat (length P + length D) ->
  exists D', wr (P ++ D ++ R) p l = Done (P ++ D' ++ R) /\ length D' = length D /\
    take (Z.to_nat (p - Z.of_nat (length P))) D' = take (Z.to_nat (p - Z.of_nat (length P))) D.
Proof.
  intros H1 H2. set (k := Z.to_nat (p - Z.of_nat (length P))).
  exists (take k D ++ l ++ drop (k + length l) D). split_and!.
  - rewrite (wr_at (P ++ take k D) (take (length l) (drop k D)) (drop (k + length l) D ++ R)).
    + by rewrite <- !app_assoc.
    + rewrite <- !app_assoc. f_equal. rewrite <- drop_drop, (app_assoc (take (length l) _)), take_drop, app_assoc. by rewrite take_drop.
    + rewrite length_app, length_take. lia.
    + rewrite length_take, length_drop. lia.
  - rewrite !length_app, length_take, length_drop. lia.
  - rewrite take_app_le by (rewrite length_take; lia). by rewrite take_take, Nat.min_id.
Qed.
Lemma take_shorter {A} (m n : nat) (x y : list A) : (m <= n)%nat -> take n x = take n y -> take m x = take m y.
Proof. intros Hmn H. apply (f_equal (take m)) in H. by rewrite !take_take, !Nat.min_l in H by lia. Qed.
End Bytes.
