(* ===== verification/Vec.v ===== *)
(** [std::vector] (common/include/c++/vector) over the tri-pointer buffer of
    common/include/c++/bits/dynamic_buffer.hpp.

    A vector is its elements and its capacity; a vector without storage has
    capacity 0.  Positions are offsets from its beginning.  Undefined are writes past
    the storage and operations that would leave elements nobody wrote.  The
    allocator does not fail. *)
From S2P Require Import Prelude.

Module Vec.

Record vec (A : Type) := MkVec { elems : list A; cap : Z }.
Arguments MkVec {A} elems cap.
Arguments elems {A} v.
Arguments cap {A} v.

Section Vector.
Context {A : Type}.
Implicit Types (v : vec A) (x : A) (l : list A).

Definition vnil : vec A := MkVec [] 0.
Definition size v : Z := Z.of_nat (length (elems v)).

(** [__grow_buffer]: at least doubles the capacity. *)
Definition grow_buffer v (added : Z) : vec A :=
  if added =? 0 then v else MkVec (elems v) (Z.max (2 * cap v) (cap v + added)).
(** [__append_element] and [__emplace_at_end] *)
Definition push_back v x : vec A :=
  let v1 := if cap v <=? size v then grow_buffer v 1 else v in MkVec (elems v1 ++ [x]) (cap v1).
Definition emplace_back v x : vec A :=
  let v1 := if size v =? cap v then grow_buffer v 1 else v in MkVec (elems v1 ++ [x]) (cap v1).
(** [__append_elements] of a range *)
Definition append_range v l : vec A :=
  let num := Z.of_nat (length l) in
  let rem := cap v - size v in
  if num =? 0 then v else
  let v1 := if (cap v =? 0) || (rem <? num) then grow_buffer v (num - rem) else v in
  MkVec (elems v1 ++ l) (cap v1).
Definition reserve v (count : Z) : vec A :=
  if cap v <? count then grow_buffer v (count - cap v) else v.
Definition clear v : vec A := MkVec [] (cap v).
Definition at_ v (i : Z) : outcome A := if i <? 0 then Undef else or_undef (elems v !! Z.to_nat i).
Definition back v : outcome A := at_ v (size v - 1).

(** [__out_of_range]: the storage is what counts, not the elements. *)
Definition out_of_range v (pos : Z) : bool := (pos <? 0) || (cap v <=? pos).
Definition splice l (pos : Z) (l' : list A) : list A := take (Z.to_nat pos) l ++ l' ++ drop (Z.to_nat pos) l.

(** [__insert_elements]: with the position of the first one, or the end position when
    the position is refused.  In place, the elements behind are moved up without a
    look at the space left; otherwise the new storage ends behind the inserted
    range, where the elements moved up have no room. *)
Definition insert_range v (pos : Z) l : outcome (vec A * Z) :=
  let n := Z.of_nat (length l) in
  if out_of_range v pos then Done (v, size v)
  else if size v <? pos then Undef
  else if pos + n <? cap v then
    if (pos <? size v) && (cap v <? size v + n) then Undef
    else Done (MkVec (splice (elems v) pos l) (cap v), pos)
  else
    if pos <? size v then Undef
    else Done (MkVec (elems v ++ l) (pos + n), pos).
Definition insert v (pos : Z) x : outcome (vec A * Z) := insert_range v pos [x].
(** [__emplace_element]: the end position of the new storage is that of an empty one. *)
Definition emplace v (pos : Z) x : outcome (vec A * Z) :=
  if pos <? 0 then Done (v, size v)
  else if cap v <=? pos then Done (emplace_back v x, size v)
  else Done (MkVec [] (if size v <? cap v then cap v else cap v + 1), pos).

Definition erase_at_end v (how_many : Z) : vec A :=
  if size v <=? how_many then clear v else MkVec (take (Z.to_nat (size v - how_many)) (elems v)) (cap v).
(** [__erase_range] *)
Definition erase_range v (s e : Z) : outcome (vec A * Z) :=
  if out_of_range v s || out_of_range v e || (e <? s) then Done (v, size v)
  else if size v <? e then Undef
  else if size v =? e then let v1 := erase_at_end v (e - s) in Done (v1, size v1)
  else Done (MkVec (take (Z.to_nat s) (elems v) ++ drop (Z.to_nat e) (elems v)) (cap v), s).
Definition erase v (pos : Z) : outcome (vec A * Z) := erase_range v pos (pos + 1).
Definition pop_back v : vec A := erase_at_end v 1.

(** ** Sequences of operations *)
Inductive op :=
| PushBack (x : A)
| EmplaceBack (x : A)
| Append (l : list A)
| Reserve (n : Z)
| PopBack
| Insert (pos : Z) (l : list A)
| Erase (s e : Z)
| Clear.
Definition run1 v (o : op) : outcome (vec A) :=
  match o with
  | PushBack x => Done (push_back v x)
  | EmplaceBack x => Done (emplace_back v x)
  | Append l => Done (append_range v l)
  | Reserve n => Done (reserve v n)
  | PopBack => Done (pop_back v)
  | Insert pos l => '(v', _) ← insert_range v pos l; Done v'
  | Erase s e => '(v', _) ← erase_range v s e; Done v'
  | Clear => Done (clear v)
  end.
Fixpoint run v (os : list op) : outcome (vec A) :=
  match os with [] => Done v | o :: rest => v' ← run1 v o; run v' rest end.

(** What the operations mean on lists. *)
Definition spec1 (l : list A) (o : op) : list A :=
  match o with
  | PushBack x | EmplaceBack x => l ++ [x]
  | Append l' => l ++ l'
  | Reserve _ => l
  | PopBack => take (length l - 1) l
  | Insert pos l' => splice l pos l'
  | Erase s e => take (Z.to_nat s) l ++ drop (Z.to_nat e) l
  | Clear => []
  end.

(** When the buffer does what the list operation means: positions inside the storage,
    room for elements moved up, and the range to erase not ending at the storage's
    end. *)
Definition fits v (o : op) : bool :=
  match o with
  | Insert pos l =>
      (0 <=? pos) && (pos <? cap v) && (pos <=? size v) &&
      ((pos =? size v) || ((pos + Z.of_nat (length l) <? cap v) && (size v + Z.of_nat (length l) <=? cap v)))
  | Erase s e => (0 <=? s) && (s <=? e) && (e <=? size v) && (e <? cap v)
  | _ => true
  end.
Fixpoint fits_all v (os : list op) : bool :=
  match os with
  | [] => true
  | o :: rest => fits v o && match run1 v o with Done v' => fits_all v' rest | _ => false end
  end.

Definition wf v : Prop := size v <= cap v.

Lemma grow_buffer_wf v n : wf v -> 0 <= n -> wf (grow_buffer v n) /\ elems (grow_buffer v n) = elems v /\ cap v + n <= cap (grow_buffer v n).
Proof. unfold wf, grow_buffer, size. intros. case_cmp; simpl; lia || split_and!; lia || done. Qed.

Lemma length_splice l pos (l' : list A) : length (splice l pos l') = (length l + length l')%nat.
Proof. unfold splice. rewrite !length_app, length_take, length_drop. lia. Qed.

Lemma splice_end l (l' : list A) : splice l (Z.of_nat (length l)) l' = l ++ l'.
Proof. unfold splice. by rewrite Nat2Z.id, firstn_all, drop_all, app_nil_r. Qed.

Lemma append_refines v l : wf v -> wf (append_range v l) /\ elems (append_range v l) = elems v ++ l.
Proof.
  intros Hw. unfold append_range. destruct (Z.eqb_spec (Z.of_nat (length l)) 0) as [E|E].
  { destruct l; [|simpl in E; lia]. by rewrite app_nil_r. }
  destruct ((cap v =? 0) || _) eqn:Eb.
  - assert (cap v - size v < Z.of_nat (length l)) as Hlt.
    { apply orb_true_iff in Eb as [Eb|Eb]; [apply Z.eqb_eq in Eb|apply Z.ltb_lt in Eb]; unfold wf, size in *; lia. }
    destruct (grow_buffer_wf v (Z.of_nat (length l) - (cap v - size v)) Hw) as (? & He & ?); [lia|].
    simpl. rewrite He. split; [|done]. unfold wf, size in *; simpl. rewrite length_app. lia.
  - apply orb_false_iff in Eb as [_ Eb]. apply Z.ltb_ge in Eb. split; [|done].
    unfold wf, size in *; simpl. rewrite length_app. lia.
Qed.

(** Appending one element, with either test for a full vector. *)
Lemma snoc_refines v x (b : bool) :
  wf v -> (b = false -> size v < cap v) ->
  let v1 := if b then grow_buffer v 1 else v in
  wf (MkVec (elems v1 ++ [x]) (cap v1)) /\ elems v1 ++ [x] = elems v ++ [x].
Proof.
  intros Hw Hb. destruct (grow_buffer_wf v 1 Hw) as (? & He & ?); [lia|].
  destruct b; simpl; rewrite ?He; (split; [|done]); unfold wf, size in *; simpl; rewrite ?He, length_app; simpl; [lia|].
  specialize (Hb eq_refl). lia.
Qed.

Lemma erase_at_end_refines v n :
  wf v -> 0 <= n -> wf (erase_at_end v n) /\ elems (erase_at_end v n) = take (Z.to_nat (size v - n)) (elems v).
Proof.
  intros Hw Hn. unfold erase_at_end, clear, wf, size in *. case_cmp; simpl.
  - split; [lia|]. by replace (Z.to_nat _) with 0%nat by lia.
  - rewrite length_take. split; [lia|done].
Qed.

Lemma insert_refines v pos l :
  wf v -> fits v (Insert pos l) = true ->
  exists v', insert_range v pos l = Done (v', pos) /\ wf v' /\ elems v' = splice (elems v) pos l.
Proof.
  intros Hw Hf. simpl in Hf. rewrite !andb_true_iff, orb_true_iff, andb_true_iff, Z.eqb_eq, !Z.leb_le, !Z.ltb_lt in Hf.
  destruct Hf as [[[Hp1 Hp2] Hp3] Hroom]. unfold insert_range, out_of_range.
  destruct (Z.ltb_spec pos 0); [lia|]. destruct (Z.leb_spec (cap v) pos); [lia|]. simpl.
  destruct (Z.ltb_spec (size v) pos); [lia|]. destruct (Z.ltb_spec (pos + Z.of_nat (length l)) (cap v)).
  - destruct ((pos <? size v) && _) eqn:Eb.
    { apply andb_true_iff in Eb as [E1 E2]. apply Z.ltb_lt in E1, E2. lia. }
    eexists; split; [done|]. split; [|done]. unfold wf, size in *; simpl. rewrite length_splice.
    apply andb_false_iff in Eb as [Eb|Eb]; apply Z.ltb_ge in Eb; lia.
  - destruct (Z.ltb_spec pos (size v)); [lia|]. replace pos with (size v) by lia.
    eexists; split; [done|]. unfold wf, size in *; simpl. rewrite length_app, splice_end. split; [lia|done].
Qed.

Lemma erase_refines v s e :
  wf v -> fits v (Erase s e) = true ->
  exists v' p, erase_range v s e = Done (v', p) /\ wf v' /\ elems v' = take (Z.to_nat s) (elems v) ++ drop (Z.to_nat e) (elems v).
Proof.
  intros Hw Hf. simpl in Hf. rewrite !andb_true_iff, !Z.leb_le, Z.ltb_lt in Hf. destruct Hf as [[[H1 H2] H3] H4].
  unfold erase_range, out_of_range.
  destruct (Z.ltb_spec s 0); [lia|]. destruct (Z.leb_spec (cap v) s); [lia|].
  destruct (Z.ltb_spec e 0); [lia|]. destruct (Z.leb_spec (cap v) e); [lia|]. destruct (Z.ltb_spec e s); [lia|]. simpl.
  destruct (Z.ltb_spec (size v) e); [lia|].
  destruct (Z.eqb_spec (size v) e) as [<-|]; simpl; (do 2 eexists; split; [done|]).
  - destruct (erase_at_end_refines v (size v - s) Hw) as [? ->]; [lia|]. split; [done|].
    unfold size. rewrite Nat2Z.id, drop_all, app_nil_r. f_equal. lia.
  - unfold wf, size in *; simpl. rewrite length_app, length_take, length_drop. split; [lia|done].
Qed.

(** One operation that fits does to the elements what it means. *)
Lemma run1_refines v o :
  wf v -> fits v o = true -> exists v', run1 v o = Done v' /\ wf v' /\ elems v' = spec1 (elems v) o.
Proof.
  intros Hw Hf. destruct o as [x|x|l|n| |pos l|s e|]; simpl.
  - eexists; split; [done|]. apply (snoc_refines v x (cap v <=? size v) Hw). rewrite Z.leb_gt. lia.
  - eexists; split; [done|]. apply (snoc_refines v x (size v =? cap v) Hw). rewrite Z.eqb_neq. unfold wf in *. lia.
  - eexists; split; [done|]. by apply append_refines.
  - eexists; split; [done|]. unfold reserve. case_cmp; [|done].
    destruct (grow_buffer_wf v (n - cap v) Hw) as (? & -> & ?); [lia|done].
  - eexists; split; [done|]. destruct (erase_at_end_refines v 1 Hw) as [? E]; [lia|]. unfold pop_back. rewrite E.
    split; [done|]. f_equal. unfold size. lia.
  - destruct (insert_refines v pos l Hw Hf) as (v' & -> & ?). eexists; split; done.
  - destruct (erase_refines v s e Hw Hf) as (v' & p & -> & ?). eexists; split; done.
  - eexists; split; [done|]. split; [|done]. unfold wf, size in *; simpl. lia.
Qed.
End Vector.
Arguments op : clear implicits.



(** Inserting at the end of a full vector does nothing. *)
Lemma insert_full_refused {A} (v : vec A) pos x : cap v <= pos -> insert v pos x = Done (v, size v).
Proof. intros. unfold insert, insert_range, out_of_range. destruct (Z.leb_spec (cap v) pos); [|lia]. by rewrite orb_true_r. Qed.
End Vec.
