(* ===== verification/Fat.v ===== *)
(** The FAT32 file system (kernel/fs/fat32/fat32.cpp, fat32_node.cpp,
    fat32_filebuf.cpp, common/include/kernel/fs/fat32.hpp).

    The allocation table is the list of its 32-bit entries; an access outside it is
    undefined.  A directory entry is a record of the fields of the packed structure;
    the long-name view of the same bytes shares [filename[0]] (its ordinal) and the
    attribute byte.  Names are lists of bytes; [char] is signed.  The sets of nodes
    are finite maps by name, which is how their elements are ordered.  The block
    device, which moves whole clusters, and the clock are parameters. *)
From S2P Require Import Prelude Vec.
Import Vec.

Module Fat.

Definition fat32_cluster_mask : Z := 0x0FFFFFFF.
Definition fat32_cluster_pres : Z := 0xF0000000.
Definition fat32_cluster_eof : Z := 0x0FFFFFF8.
Definition physical_block_size : Z := 512.
Definition dirent_size : Z := 32.

(** Exceptions the file system throws. *)
Inductive fs_error := runtime_error | logic_error.
#[export] Instance fs_error_eq_dec : EqDecision fs_error.
Proof. solve_decision. Defined.

(** ** The allocation table *)
Record fat32_allocation_table := MkTable { entries : list Z; table_dirty : bool }.
Definition mark_dirty (t : fat32_allocation_table) : fat32_allocation_table := MkTable (entries t) true.
Definition table_get (t : fat32_allocation_table) (n : Z) : outcome Z := array_get (entries t) n.
Definition table_set (t : fat32_allocation_table) (n v : Z) : outcome fat32_allocation_table :=
  l ← array_set (entries t) n v; Done (MkTable l (table_dirty t)).

(** The loop of [claim_cluster]: the first free entry from index [i] on. *)
Fixpoint first_free (l : list Z) (i : Z) : option Z :=
  match l with
  | [] => None
  | e :: rest => if Z.land e fat32_cluster_mask =? 0 then Some i else first_free rest (i + 1)
  end.
Definition claim_cluster (t : fat32_allocation_table) (last_sect : Z) : outcome (Z * fat32_allocation_table) :=
  match first_free (drop 3 (entries t)) 3 with
  | None => Done (0, t)
  | Some i =>
      t1 ← (if 2 <? last_sect then
              v ← table_get t last_sect;
              table_set t last_sect (Z.lor v (Z.land i fat32_cluster_mask))
            else Done t);
      v ← table_get t1 i;
      t2 ← table_set t1 i (Z.lor v fat32_cluster_eof);
      Done (i, mark_dirty t2)
  end.

(** The clusters a node covers, as the constructors of the nodes collect them. *)
Fixpoint cluster_chain (fuel : nat) (t : fat32_allocation_table) (cl : Z) : outcome (list Z) :=
  match fuel with
  | O => NoFuel
  | S f =>
      v ← table_get t cl;
      let next := Z.land v fat32_cluster_mask in
      if next <? fat32_cluster_eof then rest ← cluster_chain f t next; Done (cl :: rest) else Done [cl]
  end.

Fixpoint release_loop (fuel : nat) (t : fat32_allocation_table) (start : Z) : outcome fat32_allocation_table :=
  match fuel with
  | O => NoFuel
  | S f =>
      v ← table_get t start;
      let tval := Z.land v fat32_cluster_mask in
      t1 ← table_set t start (Z.land v fat32_cluster_pres);
      if tval <? fat32_cluster_eof then release_loop f t1 tval else Done t1
  end.
Definition release_clusters_from (fuel : nat) (t : fat32_allocation_table) (start : Z) : outcome fat32_allocation_table :=
  t1 ← release_loop fuel t start; Done (mark_dirty t1).

(** ** Names *)
Abbreviation str := (list Z).
Definition space : Z := 32.
Definition dot : Z := 46.

(** [set_filename]: at most eight characters before the first dot, one character
    skipped, then up to three. *)
Definition find_char (c : Z) (s : str) : option nat :=
  fst <$> list_find (fun x => x = c) s.
Definition pad_to (n : nat) (s : str) : str := take n (s ++ replicate n space).
Definition set_filename (sname : str) : str :=
  let l0 := Nat.min 8 (length sname) in
  let l := match find_char dot sname with
           | Some pos_dot => if (pos_dot <? l0)%nat then pos_dot else l0
           | None => l0
           end in
  pad_to 8 (take l sname) ++ pad_to 3 (drop (S l) sname).

(** The name [__add_parsed_entry] gives a node: the two loops over the stored
    characters, with the spaces seen and not yet written. *)
Fixpoint parse_base (cs : str) (c_spaces : nat) (name : str) : str :=
  match cs with
  | [] => name
  | c :: rest =>
      if c =? space then parse_base rest (S c_spaces) name
      else if c =? 0 then parse_base rest c_spaces name
      else parse_base rest 0 (name ++ replicate c_spaces space ++ [c])
  end.
Fixpoint parse_ext (cs : str) (c_spaces : nat) (dotted : bool) (name : str) : str :=
  match cs with
  | [] => name
  | c :: rest =>
      if c =? space then parse_ext rest (S c_spaces) dotted name
      else if c =? 0 then parse_ext rest c_spaces dotted name
      else parse_ext rest 0 true (name ++ replicate c_spaces space ++ (if dotted then [] else [dot]) ++ [c])
  end.
Definition parsed_name (filename : str) : str :=
  parse_ext (drop 8 filename) 0 false (parse_base (take 8 filename) 0 []).

(** [std::to_string] and [std::ext::to_upper]. *)
Fixpoint digits (fuel : nat) (n : Z) : str :=
  match fuel with
  | O => []
  | S f => (if n <? 10 then [] else digits f (n / 10)) ++ [48 + n mod 10]
  end.
Definition to_string (n : Z) : str := digits 20 n.
Definition toupper (c : Z) : Z := if (97 <=? c) && (c <=? 122) then c - 32 else c.
Definition without_any_of (s that : str) : str := filter (fun c => c ∉ that) s.

(** [get_short_name]: the name in upper case when it is short, else a numbered name
    that the directory does not have. *)
Definition short_candidate (trimmed : str) (have_dot : bool) (i : Z) : str :=
  let n := Z.of_nat (length trimmed) in
  let tail := 126 :: to_string i in
  let j := Z.min (u64 (6 - Z.of_nat (length tail))) n in
  take (Z.to_nat j) trimmed ++ tail ++ (if (1 <? n) && have_dot then [dot] else []) ++
  drop (length trimmed - 3) trimmed.
Fixpoint short_loop (fuel : nat) (contains : str -> bool) (trimmed : str) (have_dot : bool) (i : Z) : outcome str :=
  match fuel with
  | O => NoFuel
  | S f =>
      let result := short_candidate trimmed have_dot i in
      if contains result && (i + 1 <=? 999999) then short_loop f contains trimmed have_dot (i + 1)
      else Done result
  end.
Definition get_short_name (fuel : nat) (contains : str -> bool) (full : str) : outcome (fs_error + str) :=
  let upper := map toupper full in
  if Z.of_nat (length upper) <? 13 then Done (inr (take 12 upper))
  else
    let have_dot := bool_decide (dot ∈ upper) in
    let trimmed := without_any_of upper [dot; space] in
    result ← short_loop fuel contains trimmed have_dot 1;
    Done (if contains result then inl logic_error else inr result).

(** ** Directory entries *)
Definition fat_filetime (hs m h : Z) : Z := hs mod 32 + 32 * (m mod 64) + 2048 * (h mod 32).
Definition fat_filedate (d m y : Z) : Z := d mod 32 + 32 * (m mod 16) + 512 * (y mod 128).
Record fat32_regular_entry := MkEntry {
  filename : str;
  attributes : Z;
  winnt_reserved : Z;
  created_time_millis : Z;
  created_time : Z;
  created_date : Z;
  accessed_date : Z;
  first_cluster_hi : Z;
  modified_time : Z;
  modified_date : Z;
  first_cluster_lo : Z;
  size_bytes : Z }.
Definition le (bs : list Z) : Z := foldr (fun b acc => b + 256 * acc) 0 bs.
Definition entry_of_bytes (bs : list Z) : fat32_regular_entry :=
  let field i n := le (take n (drop i bs)) in
  MkEntry (take 11 bs) (field 11 1)%nat (field 12 1)%nat (field 13 1)%nat (field 14 2)%nat (field 16 2)%nat
    (field 18 2)%nat (field 20 2)%nat (field 22 2)%nat (field 24 2)%nat (field 26 2)%nat (field 28 4)%nat.
Fixpoint entries_of_bytes (n : nat) (bs : list Z) : list fat32_regular_entry :=
  match n with
  | O => []
  | S n' => entry_of_bytes (take 32 bs) :: entries_of_bytes n' (drop 32 bs)
  end.
Definition decode_dir (bs : list Z) : list fat32_regular_entry := entries_of_bytes (length bs / 32) bs.

(** First byte of an entry: the ordinal of a long-name entry, unsigned. *)
Definition ordinal (e : fat32_regular_entry) : Z := default 0 (head (filename e)).
Definition is_unused (e : fat32_regular_entry) : bool := (ordinal e =? 0xE8) || (ordinal e =? 0).
Definition is_longname (e : fat32_regular_entry) : bool := Z.land (attributes e) 0x0F =? 0x0F.
Definition is_last_longname (e : fat32_regular_entry) : bool := negb (Z.land (ordinal e) 0x40 =? 0).
Definition start_of (e : fat32_regular_entry) : Z := first_cluster_lo e + 65536 * first_cluster_hi e.
Definition is_subdir (e : fat32_regular_entry) : bool := negb (Z.land (attributes e) 0x10 =? 0).
(** The test of [first_unused_entry], on the signed character. *)
Definition entry_free (e : fat32_regular_entry) : bool :=
  (signed 8 (ordinal e) =? 0xE5) || (signed 8 (ordinal e) =? 0).

(** ** Nodes and the file system *)
Record fat32_file_vnode := MkFile {
  f_fd : Z;
  f_cid : Z;
  f_parent : str;
  f_dirent_index : Z;
  f_clusters : list Z;
  f_capacity : Z;
  f_is_dirty : bool;
  f_on_disk_size : Z }.
(** A directory entry in memory: the node it refers to. *)
Inductive node_ref := NFile (name : str) | NDir (name : str).
#[export] Instance node_ref_eq_dec : EqDecision node_ref.
Proof. solve_decision. Defined.
Record fat32_directory_vnode := MkDir {
  d_fd : Z;
  d_cid : Z;
  d_parent : option str;
  d_dirent_index : Z;
  my_dir_data : vec fat32_regular_entry;
  my_covered_clusters : list Z;
  has_init : bool;
  d_dirty : bool;
  directory_tnodes : gmap str node_ref }.
Record fat32 := MkFat {
  sectors_per_cluster : Z;
  sector_base : Z;
  sector_size : Z;
  the_table : fat32_allocation_table;
  file_nodes : gmap str fat32_file_vnode;
  directory_nodes : gmap str fat32_directory_vnode;
  st_cluster_ref_counts : gmap Z Z;
  next_fd : Z }.
Definition set_table (fs : fat32) (t : fat32_allocation_table) : fat32 :=
  MkFat (sectors_per_cluster fs) (sector_base fs) (sector_size fs) t (file_nodes fs) (directory_nodes fs) (st_cluster_ref_counts fs) (next_fd fs).
Definition set_files (fs : fat32) (m : gmap str fat32_file_vnode) : fat32 :=
  MkFat (sectors_per_cluster fs) (sector_base fs) (sector_size fs) (the_table fs) m (directory_nodes fs) (st_cluster_ref_counts fs) (next_fd fs).
Definition set_dirs (fs : fat32) (m : gmap str fat32_directory_vnode) : fat32 :=
  MkFat (sectors_per_cluster fs) (sector_base fs) (sector_size fs) (the_table fs) (file_nodes fs) m (st_cluster_ref_counts fs) (next_fd fs).
Definition set_refs (fs : fat32) (m : gmap Z Z) : fat32 :=
  MkFat (sectors_per_cluster fs) (sector_base fs) (sector_size fs) (the_table fs) (file_nodes fs) (directory_nodes fs) m (next_fd fs).
Definition set_next_fd (fs : fat32) (n : Z) : fat32 :=
  MkFat (sectors_per_cluster fs) (sector_base fs) (sector_size fs) (the_table fs) (file_nodes fs) (directory_nodes fs) (st_cluster_ref_counts fs) n.
Definition set_dir (fs : fat32) (name : str) (d : fat32_directory_vnode) : fat32 := set_dirs fs (<[name := d]> (directory_nodes fs)).
Definition set_dir_data (d : fat32_directory_vnode) (es : vec fat32_regular_entry) : fat32_directory_vnode :=
  MkDir (d_fd d) (d_cid d) (d_parent d) (d_dirent_index d) es (my_covered_clusters d) (has_init d) (d_dirty d) (directory_tnodes d).
Definition set_covered (d : fat32_directory_vnode) (cls : list Z) : fat32_directory_vnode :=
  MkDir (d_fd d) (d_cid d) (d_parent d) (d_dirent_index d) (my_dir_data d) cls (has_init d) (d_dirty d) (directory_tnodes d).
Definition set_init (d : fat32_directory_vnode) : fat32_directory_vnode :=
  MkDir (d_fd d) (d_cid d) (d_parent d) (d_dirent_index d) (my_dir_data d) (my_covered_clusters d) true (d_dirty d) (directory_tnodes d).
Definition set_d_dirty (d : fat32_directory_vnode) (b : bool) : fat32_directory_vnode :=
  MkDir (d_fd d) (d_cid d) (d_parent d) (d_dirent_index d) (my_dir_data d) (my_covered_clusters d) (has_init d) b (directory_tnodes d).
Definition set_tnodes (d : fat32_directory_vnode) (m : gmap str node_ref) : fat32_directory_vnode :=
  MkDir (d_fd d) (d_cid d) (d_parent d) (d_dirent_index d) (my_dir_data d) (my_covered_clusters d) (has_init d) (d_dirty d) m.
Definition set_d_index (d : fat32_directory_vnode) (i : Z) : fat32_directory_vnode :=
  MkDir (d_fd d) (d_cid d) (d_parent d) i (my_dir_data d) (my_covered_clusters d) (has_init d) (d_dirty d) (directory_tnodes d).
Definition set_f_index (n : fat32_file_vnode) (i : Z) : fat32_file_vnode :=
  MkFile (f_fd n) (f_cid n) (f_parent n) i (f_clusters n) (f_capacity n) (f_is_dirty n) (f_on_disk_size n).
Definition set_f_clusters (n : fat32_file_vnode) (cls : list Z) (cap : Z) : fat32_file_vnode :=
  MkFile (f_fd n) (f_cid n) (f_parent n) (f_dirent_index n) cls cap (f_is_dirty n) (f_on_disk_size n).
Definition set_f_size (n : fat32_file_vnode) (s : Z) : fat32_file_vnode :=
  MkFile (f_fd n) (f_cid n) (f_parent n) (f_dirent_index n) (f_clusters n) (f_capacity n) (f_is_dirty n) s.
Definition set_f_dirty (n : fat32_file_vnode) (b : bool) : fat32_file_vnode :=
  MkFile (f_fd n) (f_cid n) (f_parent n) (f_dirent_index n) (f_clusters n) (f_capacity n) b (f_on_disk_size n).

Definition block_size (fs : fat32) : Z := sector_size fs * sectors_per_cluster fs.
(** The product is computed in 32 bits. *)
Definition cluster_to_sector (fs : fat32) (cl : Z) : Z :=
  u64 (u32 (u32 (cl - 2) * sectors_per_cluster fs) + sector_base fs).
Definition get_dir (fs : fat32) (name : str) : outcome fat32_directory_vnode := or_undef (directory_nodes fs !! name).
Definition get_file (fs : fat32) (name : str) : outcome fat32_file_vnode := or_undef (file_nodes fs !! name).

(** [__expand_dir]: [reserve] adds capacity and no elements. *)
Definition expand_dir (t : fat32_allocation_table) (covered : list Z) (data : vec fat32_regular_entry) (bs : Z)
  : outcome (fs_error + (fat32_allocation_table * list Z * vec fat32_regular_entry)) :=
  back ← or_undef (last covered);
  '(i, t1) ← claim_cluster t back;
  Done (if i =? 0 then inl runtime_error
        else inr (t1, covered ++ [i], reserve data (size data + bs / dirent_size))).
(** [first_unused_entry]: the index of the entry or the exception, with the table,
    the clusters and the entries of the directory. *)
Fixpoint first_unused_entry (fuel : nat) (t : fat32_allocation_table) (covered : list Z) (data : vec fat32_regular_entry) (bs : Z)
  : outcome ((fs_error + Z) * fat32_allocation_table * list Z * vec fat32_regular_entry) :=
  match fuel with
  | O => NoFuel
  | S f =>
      match list_find (fun e => entry_free e = true) (elems data) with
      | Some (i, _) => Done (inr (Z.of_nat i), t, covered, data)
      | None =>
          r ← expand_dir t covered data bs;
          match r with
          | inl e => Done (inl e, t, covered, data)
          | inr (t1, covered1, data1) => first_unused_entry f t1 covered1 data1 bs
          end
      end
  end.

(** ** Reference counts of start clusters *)
Definition add_start_cluster_ref (fs : fat32) (cl : Z) : fat32 :=
  set_refs fs (match st_cluster_ref_counts fs !! cl with
               | Some n => <[cl := u64 (n + 1)]> (st_cluster_ref_counts fs)
               | None => <[cl := 1]> (st_cluster_ref_counts fs)
               end).
Definition rm_start_cluster_ref (fs : fat32) (cl : Z) : fat32 :=
  match st_cluster_ref_counts fs !! cl with
  | Some n => set_refs fs (<[cl := u64 (n - 1)]> (st_cluster_ref_counts fs))
  | None => fs
  end.

(** ** Creation of nodes

    The node is constructed, with the next descriptor number and the clusters of its
    chain, before the set looks for an equal name. *)
Definition disk_entry (fs : fat32) (parent : str) (idx : Z) : outcome fat32_regular_entry :=
  p ← get_dir fs parent; at_ (my_dir_data p) idx.
Definition new_file (fuel : nat) (fs : fat32) (parent : str) (cl0 idx : Z) : outcome fat32_file_vnode :=
  e ← disk_entry fs parent idx;
  cls ← cluster_chain fuel (the_table fs) (Z.land cl0 fat32_cluster_mask);
  Done (MkFile (next_fd fs) cl0 parent idx cls 0 false (size_bytes e)).
Definition new_dir (fuel : nat) (fs : fat32) (parent : option str) (cl0 idx : Z) : outcome fat32_directory_vnode :=
  _ ← (match parent with Some p => e ← disk_entry fs p idx; Done (created_date e) | None => Done 0 end);
  cls ← cluster_chain fuel (the_table fs) cl0;
  Done (MkDir (next_fd fs) cl0 parent idx vnil cls false false ∅).
(** The Boolean is whether the pointer returned is not null. *)
Definition put_file_node (fuel : nat) (fs : fat32) (name parent : str) (cl0 idx : Z) : outcome (fat32 * bool) :=
  n ← new_file fuel fs parent cl0 idx;
  let fs1 := set_next_fd fs (next_fd fs + 1) in
  match file_nodes fs !! name with
  | Some _ => Done (fs1, false)
  | None => Done (set_files fs1 (<[name := n]> (file_nodes fs1)), true)
  end.
Definition put_directory_node (fuel : nat) (fs : fat32) (name : str) (parent : option str) (cl0 idx : Z) : outcome (fat32 * bool) :=
  n ← new_dir fuel fs parent cl0 idx;
  let fs1 := set_next_fd fs (next_fd fs + 1) in
  match directory_nodes fs !! name with
  | Some _ => Done (fs1, false)
  | None => Done (set_dir fs1 name n, true)
  end.
Definition add_tnode (fs : fat32) (this name : str) (r : node_ref) : outcome fat32 :=
  d ← get_dir fs this;
  Done (set_dir fs this (set_tnodes d (match directory_tnodes d !! name with
                                       | Some _ => directory_tnodes d
                                       | None => <[name := r]> (directory_tnodes d)
                                       end))).

(** The time a new entry is stamped with: seconds, minutes, hours, day, month, year. *)
Record rtc_time := MkTime { sec : Z; min : Z; hr : Z; day : Z; month : Z; year : Z }.
Definition stamp (t : rtc_time) : Z * Z :=
  (fat_filetime (Z.shiftr (sec t) 1) (min t) (hr t), fat_filedate (day t) (month t) (u8 (year t - 1980))).
Definition new_entry (t : rtc_time) (attr cl : Z) (sfname : str) : fat32_regular_entry :=
  let '(tm, dt) := stamp t in
  MkEntry (set_filename sfname) attr 0 0 tm dt 0 (u16 (Z.shiftr cl 16)) tm dt (u16 cl) 0.

(** [mkfilenode] and [mkdirnode]: claim a cluster, find a short name and an entry
    (in this order for a file, in the other one for a directory), write the entry,
    make the node and count a reference to its start cluster.  The Boolean is
    whether the result is not null; a null node is dereferenced before. *)
Definition has_tnode (d : fat32_directory_vnode) (s : str) : bool := bool_decide (is_Some (directory_tnodes d !! s)).
Definition short_name_in (fuel : nat) (fs : fat32) (parent name : str) : outcome (fs_error + str) :=
  d ← get_dir fs parent; get_short_name fuel (has_tnode d) name.
Definition unused_entry_in (fuel : nat) (fs : fat32) (parent : str) : outcome (fat32 * (fs_error + Z)) :=
  d ← get_dir fs parent;
  '(r, tbl, covered, data) ← first_unused_entry fuel (the_table fs) (my_covered_clusters d) (my_dir_data d) (block_size fs);
  Done (set_dir (set_table fs tbl) parent (set_d_dirty (set_dir_data (set_covered d covered) data) true), r).
Definition write_entry (fs : fat32) (parent : str) (i : Z) (e : fat32_regular_entry) : outcome fat32 :=
  d ← get_dir fs parent;
  es ← array_set (elems (my_dir_data d)) i e;
  Done (set_dir fs parent (set_dir_data d (MkVec es (cap (my_dir_data d))))).
Definition finish_node (fs : fat32) (parent : str) (idx : Z) (ok : bool) : outcome (fat32 * (fs_error + bool)) :=
  if ok then e ← disk_entry fs parent idx; Done (add_start_cluster_ref fs (start_of e), inr true) else Undef.
Definition mkfilenode (fuel : nat) (fs : fat32) (t : rtc_time) (parent name : str) : outcome (fat32 * (fs_error + bool)) :=
  '(cl, tbl) ← claim_cluster (the_table fs) 0;
  if cl =? 0 then Done (fs, inr false) else
  let fs0 := set_table fs tbl in
  s ← short_name_in fuel fs0 parent name;
  match s with
  | inl e => Done (fs0, inl e)
  | inr sfname =>
      '(fs1, r) ← unused_entry_in fuel fs0 parent;
      match r with
      | inl e => Done (fs1, inl e)
      | inr idx =>
          fs2 ← write_entry fs1 parent idx (new_entry t 0 cl sfname);
          '(fs3, ok) ← put_file_node fuel fs2 name parent cl idx;
          finish_node fs3 parent idx ok
      end
  end.
Definition mkdirnode (fuel : nat) (fs : fat32) (t : rtc_time) (parent name : str) : outcome (fat32 * (fs_error + bool)) :=
  '(cl, tbl) ← claim_cluster (the_table fs) 0;
  if cl =? 0 then Done (fs, inr false) else
  '(fs1, r) ← unused_entry_in fuel (set_table fs tbl) parent;
  match r with
  | inl e => Done (fs1, inl e)
  | inr idx =>
      s ← short_name_in fuel fs1 parent name;
      match s with
      | inl e => Done (fs1, inl e)
      | inr sfname =>
          fs2 ← write_entry fs1 parent idx (new_entry t 0x10 cl sfname);
          '(fs3, ok) ← put_directory_node fuel fs2 name (Some parent) cl idx;
          finish_node fs3 parent idx ok
      end
  end.

(** ** Growing a file

    [fat32_filebuf::on_overflow] claims a cluster for each block behind the last one
    it has; the buffer is its capacity. *)
Fixpoint overflow_loop (s : nat) (bs : Z) (t : fat32_allocation_table) (cls : list Z) (k : Z)
  : outcome (fat32_allocation_table * list Z * Z) :=
  match s with
  | O => Done (t, cls, k)
  | S s' =>
      back ← or_undef (last cls);
      '(cl, t1) ← claim_cluster t back;
      if cl =? 0 then Done (t1, cls, k) else overflow_loop s' bs t1 (cls ++ [cl]) (k + bs)
  end.
Definition on_overflow (fs : fat32) (n : fat32_file_vnode) (count : Z) : outcome (fat32 * fat32_file_vnode * Z) :=
  let bs := block_size fs in
  '(t1, cls, k) ← overflow_loop (Z.to_nat (div_round_up count bs)) bs (the_table fs) (f_clusters n) 0;
  Done (set_table fs t1, set_f_clusters n cls (f_capacity n + k), k).
Definition grow_file (fs : fat32) (n : fat32_file_vnode) (added : Z) : outcome (fat32 * fat32_file_vnode * bool) :=
  let bs := block_size fs in
  if f_capacity n + added <? up_to_nearest (f_capacity n) bs then Done (fs, n, true)
  else '(fs1, n1, k) ← on_overflow fs n added; Done (fs1, n1, negb (k =? 0)).

(** [fat32_filebuf::sync]; [written] is whether the device took every cluster. *)
Definition sync (n : fat32_file_vnode) (written : bool) : fat32_file_vnode * bool :=
  if f_is_dirty n then (set_f_dirty n written, written) else (n, true).
Definition update_times (t : rtc_time) (e : fat32_regular_entry) : fat32_regular_entry :=
  let '(tm, dt) := stamp t in
  MkEntry (filename e) (attributes e) (winnt_reserved e) (created_time_millis e) (created_time e) (created_date e)
    dt (first_cluster_hi e) tm dt (first_cluster_lo e) (size_bytes e).
Definition set_size_bytes (e : fat32_regular_entry) (s : Z) : fat32_regular_entry :=
  MkEntry (filename e) (attributes e) (winnt_reserved e) (created_time_millis e) (created_time e) (created_date e)
    (accessed_date e) (first_cluster_hi e) (modified_time e) (modified_date e) (first_cluster_lo e) (u32 s).
Definition file_fsync (fs : fat32) (t : rtc_time) (n : fat32_file_vnode) (written : bool) : outcome (fat32 * fat32_file_vnode * bool) :=
  let '(n1, ok) := sync n written in
  if ok then
    e ← disk_entry fs (f_parent n1) (f_dirent_index n1);
    fs1 ← write_entry fs (f_parent n1) (f_dirent_index n1) (set_size_bytes (update_times t e) (f_on_disk_size n1));
    Done (fs1, n1, true)
  else Done (fs, n1, false).
Definition grow (fs : fat32) (t : rtc_time) (n : fat32_file_vnode) (added : Z) (written : bool) : outcome (fat32 * fat32_file_vnode * bool) :=
  '(fs1, n1, ok) ← grow_file fs n added;
  if ok : bool then file_fsync fs1 t (set_f_size n1 (u64 (f_on_disk_size n1 + added))) written
  else Done (fs1, n1, false).

(** ** Reading directories

    The device reads the sectors of a cluster: its bytes, or a failure. *)
Section Reading.
Context (read_blockdev : Z -> Z -> option (list Z)).

Definition read_clusters (fs : fat32) (cl num : Z) : option (list Z) :=
  read_blockdev (cluster_to_sector fs cl) (num * sectors_per_cluster fs).
(** [__read_disk_data]: the clusters one after another in a buffer with room for
    [bpc] bytes each; [None] when a read fails. *)
Fixpoint read_disk_data (fs : fat32) (cls : list Z) : outcome (option (list Z)) :=
  match cls with
  | [] => Done (Some [])
  | cl :: rest =>
      match read_clusters fs cl 1 with
      | None => Done None
      | Some bs =>
          if Z.of_nat (length bs) =? physical_block_size * sectors_per_cluster fs then
            r ← read_disk_data fs rest; Done (option_map (app bs) r)
          else Undef
      end
  end.
Definition skipped (e : fat32_regular_entry) : bool :=
  is_unused e || is_longname e || (signed 8 (ordinal e) =? dot) || (start_of e =? 0).

(** [__add_parsed_entry]; [parse] is [parse_dir_data] of a subdirectory. *)
Definition add_parsed_entry (fuel : nat) (parse : fat32 -> str -> outcome (fat32 * bool)) (fs : fat32) (this : str)
  (e : fat32_regular_entry) (j : Z) : outcome (fat32 * option fs_error) :=
  let name := parsed_name (filename e) in
  if is_subdir e then
    '(fs1, ok) ← put_directory_node fuel fs name (Some this) (start_of e) j;
    if negb ok then Done (fs1, Some runtime_error) else
    fs2 ← add_tnode fs1 this name (NDir name);
    '(fs3, parsed) ← parse fs2 name;
    Done (fs3, if parsed : bool then None else Some runtime_error)
  else
    '(fs1, ok) ← put_file_node fuel fs name this (start_of e) j;
    if negb ok then Done (fs1, Some runtime_error) else
    fs2 ← add_tnode fs1 this name (NFile name);
    Done (fs2, None).
Fixpoint parse_entries (fuel : nat) (parse : fat32 -> str -> outcome (fat32 * bool)) (fs : fat32) (this : str)
  (es : list fat32_regular_entry) (j : Z) : outcome (fat32 * option fs_error) :=
  match es with
  | [] => Done (fs, None)
  | e :: rest =>
      if skipped e then parse_entries fuel parse fs this rest (j + 1) else
      '(fs1, err) ← add_parsed_entry fuel parse fs this e j;
      match err with
      | Some x => Done (fs1, Some x)
      | None => parse_entries fuel parse fs1 this rest (j + 1)
      end
  end.
(** [parse_dir_data]: exceptions are caught here. *)
Fixpoint parse_dir_data (fuel : nat) (fs : fat32) (this : str) : outcome (fat32 * bool) :=
  match fuel with
  | O => NoFuel
  | S f =>
      d ← get_dir fs this;
      if has_init d then Done (fs, true) else
      bytes ← read_disk_data fs (my_covered_clusters d);
      match bytes with
      | None => Done (fs, false)
      | Some bs =>
          let data := append_range (my_dir_data d) (decode_dir bs) in
          '(fs1, err) ← parse_entries f (parse_dir_data f) (set_dir fs this (set_dir_data d data)) this (elems data) 0;
          match err with
          | Some _ => Done (fs1, false)
          | None => d1 ← get_dir fs1 this; Done (set_dir fs1 this (set_init d1), true)
          end
      end
  end.
(** [fat32::init], with the table read from the disk. *)
Definition init (fuel : nat) (fs : fat32) (root_cl : Z) : outcome (fat32 * bool) :=
  '(fs1, _) ← put_directory_node fuel fs [] None root_cl 0;
  '(fs2, _) ← parse_dir_data fuel fs1 [];
  d ← get_dir fs2 [];
  Done (fs2, has_init d).
End Reading.

(** ** Removing entries *)

(** [find_dirent], as the entry's position: that of a node with a parent. *)
Definition find_dirent (fs : fat32) (this name : str) : outcome (option Z) :=
  d ← get_dir fs this;
  match directory_tnodes d !! name with
  | None => Done None
  | Some (NFile n) => f ← get_file fs n; Done (Some (f_dirent_index f))
  | Some (NDir n) => sd ← get_dir fs n; Done (match d_parent sd with Some _ => Some (d_dirent_index sd) | None => None end)
  end.
(** [__get_longname_start]: the long-name entry the entry at [i] begins with, if the
    one before it is a long-name entry. *)
Fixpoint longname_back (es : list fat32_regular_entry) (j : nat) : option nat :=
  match es !! j with
  | None => None
  | Some e => if is_last_longname e then Some j else match j with O => Some O | S j' => longname_back es j' end
  end.
Definition get_longname_start (data : vec fat32_regular_entry) (i : Z) : outcome (option Z) :=
  e ← at_ data (i - 1);
  if negb (is_longname e) then Done None else
  j ← or_undef (longname_back (elems data) (Z.to_nat (i - 1)));
  ej ← at_ data (Z.of_nat j);
  Done (if is_longname ej && is_last_longname ej then Some (Z.of_nat j) else None).
(** The positions behind the erased entries move down. *)
Definition shift_indices (fs : fat32) (d : fat32_directory_vnode) (n erased : Z) : fat32 :=
  let move i := if n <=? i then u64 (i - erased) else i in
  let in_dir (r : node_ref) := bool_decide (r ∈ (snd <$> map_to_list (directory_tnodes d))) in
  set_dirs (set_files fs (map_imap (fun k f => Some (if in_dir (NFile k) then set_f_index f (move (f_dirent_index f)) else f)) (file_nodes fs)))
    (map_imap (fun k x => Some (if in_dir (NDir k) then set_d_index x (move (d_dirent_index x)) else x)) (directory_nodes fs)).
(** [__dir_ent_erase] and [unlink]. *)
Definition dir_ent_erase (fs : fat32) (this what : str) : outcome (fat32 * bool) :=
  at_i ← find_dirent fs this what;
  match at_i with
  | None => Done (fs, false)
  | Some i =>
      d ← get_dir fs this;
      e ← at_ (my_dir_data d) i;
      start ← get_longname_start (my_dir_data d) i;
      match start with
      | None => Done (fs, false)
      | Some j =>
          let fs1 := rm_start_cluster_ref fs (start_of e) in
          '(data, n) ← erase_range (my_dir_data d) j (i + 1);
          let d1 := set_d_dirty (set_dir_data d (reserve data (cap (my_dir_data d)))) true in
          Done (shift_indices (set_dir fs1 this d1) d1 n (i + 1 - j), true)
      end
  end.
Definition unlink (fs : fat32) (this name : str) : outcome (fat32 * bool) :=
  d ← get_dir fs this;
  match directory_tnodes d !! name with
  | None => Done (fs, false)
  | Some _ => dir_ent_erase fs this name
  end.

(** [dlfilenode] and [dldirnode] without the final [syncdirs]: the count of the start
    cluster is read at the position the search returned. *)
Definition drop_start_cluster (fuel : nat) (fs : fat32) (cid : Z) : outcome fat32 :=
  n ← or_undef (st_cluster_ref_counts fs !! cid);
  if n =? 0 then
    t ← release_clusters_from fuel (the_table fs) (u32 cid);
    Done (set_refs (set_table fs t) (delete cid (st_cluster_ref_counts fs)))
  else Done fs.
Definition dlfilenode (fuel : nat) (fs : fat32) (name : str) : outcome fat32 :=
  f ← get_file fs name;
  fs1 ← drop_start_cluster fuel fs (f_cid f);
  Done (set_files fs1 (delete name (file_nodes fs1))).
Definition dldirnode (fuel : nat) (fs : fat32) (name : str) : outcome (fat32 * option fs_error) :=
  d ← get_dir fs name;
  if negb (bool_decide (directory_tnodes d = ∅)) then Done (fs, Some logic_error) else
  fs1 ← drop_start_cluster fuel fs (d_cid d);
  Done (set_dirs fs1 (delete name (directory_nodes fs1)), None).

(** [sync_to_disk] of the table; [written] is the device's answer. *)
Definition sync_to_disk (t : fat32_allocation_table) (written : bool) : fat32_allocation_table * bool :=
  let t1 := if table_dirty t && written then MkTable (entries t) false else t in (t1, negb (table_dirty t1)).
End Fat.
