(* ===== verification/FatProps.v ===== *)
(** Properties of the FAT32 file system: allocation and release of clusters, chains of
    files and directories, short names, and the mounting of a volume. *)
From S2P Require Import Prelude Vec Fat.
Import Vec Fat.

Module FatProps.

(** ** Entries of the allocation table *)
Definition next_of (v : Z) : Z := Z.land v fat32_cluster_mask.
Definition tget (t : fat32_allocation_table) (n : Z) : option Z := if 0 <=? n then entries t !! Z.to_nat n else None.
(** A table of 32-bit entries in which every index is a cluster number. *)
Definition wf (t : fat32_allocation_table) : Prop :=
  Forall is_u32 (entries t) /\ Z.of_nat (length (entries t)) <= fat32_cluster_eof.

Lemma next_of_mod v : next_of v = v mod 2 ^ 28.
Proof. apply (Z.land_ones v 28). lia. Qed.

Lemma next_of_range v : 0 <= next_of v < 2 ^ 28.
Proof. rewrite next_of_mod. apply Z.mod_pos_bound. lia. Qed.

Lemma next_of_lor a b : next_of (Z.lor a b) = Z.lor (next_of a) (next_of b).
Proof. apply Z.land_lor_distr_l. Qed.

Lemma eof_iff v : fat32_cluster_eof <= next_of v <-> Z.shiftr (next_of v) 3 = Z.ones 25.
Proof.
  pose proof (next_of_range v). rewrite Z.shiftr_div_pow2 by lia. unfold fat32_cluster_eof.
  change (Z.ones 25) with (2 ^ 25 - 1). split; intros; zlia.
Qed.

Lemma lor_ones_l w x : 0 <= w -> in_range w x -> Z.lor (Z.ones w) x = Z.ones w.
Proof.
  intros Hw Hx. apply Z.bits_inj'; intros i Hi. rewrite Z.lor_spec, ones_testbit by done.
  destruct (Z.ltb_spec i w); [done|]. simpl. eapply in_range_testbit; eauto.
Qed.

(** Setting bits of an end-of-chain entry leaves it an end-of-chain entry. *)
Lemma eof_lor_l a b : fat32_cluster_eof <= next_of a -> fat32_cluster_eof <= next_of (Z.lor a b).
Proof.
  rewrite !eof_iff, next_of_lor, Z.shiftr_lor. intros ->. apply lor_ones_l; [lia|].
  pose proof (next_of_range b). unfold in_range. rewrite Z.shiftr_div_pow2 by lia. zlia.
Qed.
Lemma eof_lor_r a b : fat32_cluster_eof <= next_of b -> fat32_cluster_eof <= next_of (Z.lor a b).
Proof. rewrite Z.lor_comm. apply eof_lor_l. Qed.

Lemma eof_nonzero v : fat32_cluster_eof <= next_of v -> next_of v <> 0.
Proof. unfold fat32_cluster_eof. lia. Qed.

(** ** Reading and writing the table *)
Lemma tget_lookup t n v : tget t n = Some v -> table_get t n = Done v.
Proof. unfold tget, table_get, array_get. case_cmp; [|done]. by intros ->. Qed.
Lemma tget_lt t n v : tget t n = Some v -> 0 <= n < Z.of_nat (length (entries t)).
Proof. unfold tget. case_cmp; [|done]. intros E%lookup_lt_Some. lia. Qed.
Lemma tget_Some t n : 0 <= n < Z.of_nat (length (entries t)) -> exists v, tget t n = Some v.
Proof. intros. unfold tget. case_cmp; [|lia]. apply lookup_lt_is_Some. lia. Qed.

Lemma table_set_ok t n v w :
  tget t n = Some v ->
  exists t', table_set t n w = Done t' /\ length (entries t') = length (entries t) /\
    (forall m, tget t' m = if m =? n then Some w else tget t m) /\ table_dirty t' = table_dirty t.
Proof.
  intros E. pose proof (tget_lt _ _ _ E) as Hl. unfold table_set, array_set. fold (table_get t n).
  rewrite (tget_lookup _ _ _ E). simpl. eexists; split; [done|]. simpl. split; [by rewrite length_insert|].
  split; [|done]. intros m. unfold tget; simpl. destruct (Z.eqb_spec m n) as [->|Hne].
  - destruct (Z.leb_spec 0 n); [|lia]. apply list_lookup_insert_eq. lia.
  - destruct (Z.leb_spec 0 m); [|done]. apply list_lookup_insert_ne. lia.
Qed.

Lemma table_ext t t' :
  length (entries t') = length (entries t) -> (forall m, tget t' m = tget t m) -> entries t' = entries t.
Proof.
  intros Hl Hg. apply list_eq; intros i. specialize (Hg (Z.of_nat i)). unfold tget in Hg.
  destruct (Z.leb_spec 0 (Z.of_nat i)); [|lia]. by rewrite Nat2Z.id in Hg.
Qed.

(** ** Claiming a cluster *)
Definition is_free (t : fat32_allocation_table) (n : Z) : Prop := exists v, tget t n = Some v /\ next_of v = 0.

Lemma first_free_spec l i :
  match first_free l i with
  | None => Forall (fun e => next_of e <> 0) l
  | Some k => exists j e, k = i + Z.of_nat j /\ l !! j = Some e /\ next_of e = 0 /\ Forall (fun e => next_of e <> 0) (take j l)
  end.
Proof.
  revert i. induction l as [|e l IH]; intros i; simpl; [constructor|].
  fold (next_of e). destruct (Z.eqb_spec (next_of e) 0).
  - exists 0%nat, e. split_and!; [lia|done|done|constructor].
  - specialize (IH (i + 1)). destruct (first_free l (i + 1)); [|by constructor].
    destruct IH as (j & e' & -> & ? & ? & ?). exists (S j), e'. split_and!; [lia|done|done|by constructor].
Qed.

Lemma first_free_table t :
  match first_free (drop 3 (entries t)) 3 with
  | None => forall n, 3 <= n -> ~ is_free t n
  | Some k => 3 <= k /\ is_free t k /\ forall n, 3 <= n < k -> ~ is_free t n
  end.
Proof.
  pose proof (first_free_spec (drop 3 (entries t)) 3) as H.
  assert (forall n, 3 <= n -> tget t n = drop 3 (entries t) !! Z.to_nat (n - 3)) as Hd.
  { intros n Hn. unfold tget. destruct (Z.leb_spec 0 n); [|lia]. rewrite lookup_drop. f_equal. lia. }
  destruct (first_free _ _) as [k|].
  - destruct H as (j & e & -> & Hj & He & Hf). split_and!; [lia| |].
    + exists e. rewrite Hd by lia. by replace (Z.to_nat _) with j by lia.
    + intros n Hn (v & Hv & Hz). rewrite Hd in Hv by lia. rewrite Forall_lookup in Hf.
      apply (Hf (Z.to_nat (n - 3)) v); [|done]. rewrite lookup_take_lt by lia. done.
  - intros n Hn (v & Hv & Hz). rewrite Hd in Hv by lia. rewrite Forall_lookup in H. by apply (H _ _ Hv).
Qed.

(** The table after claiming cluster [i] behind cluster [last]. *)
Definition claimed (t : fat32_allocation_table) (last_sect i : Z) (t' : fat32_allocation_table) : Prop :=
  3 <= i < Z.of_nat (length (entries t)) /\ is_free t i /\ (forall n, 3 <= n < i -> ~ is_free t n) /\
  length (entries t') = length (entries t) /\ table_dirty t' = true /\
  forall m, tget t' m =
    (if m =? i then (fun v => Z.lor v fat32_cluster_eof) <$> tget t m
     else if (2 <? last_sect) && (m =? last_sect) then (fun v => Z.lor v i) <$> tget t m else tget t m).
(** A cluster to link behind: one that is not free, when there is one. *)
Definition linkable (t : fat32_allocation_table) (last_sect : Z) : Prop :=
  2 < last_sect -> exists v, tget t last_sect = Some v /\ next_of v <> 0.

Lemma claim_cluster_spec t last_sect :
  wf t -> linkable t last_sect ->
  (claim_cluster t last_sect = Done (0, t) /\ forall n, 3 <= n -> ~ is_free t n) \/
  (exists i t', claim_cluster t last_sect = Done (i, t') /\ claimed t last_sect i t').
Proof.
  intros [Hu Hlen] Hlast. unfold claim_cluster. pose proof (first_free_table t) as Hf.
  destruct (first_free _ _) as [i|]; [right|by left].
  destruct Hf as (Hi & (v & Hv & Hz) & Hmin). pose proof (tget_lt _ _ _ Hv) as Hil.
  assert (Z.land i fat32_cluster_mask = i) as Emask.
  { change (next_of i = i). rewrite next_of_mod. apply Z.mod_small. unfold fat32_cluster_eof in Hlen. lia. }
  destruct (Z.ltb_spec 2 last_sect) as [Hl|Hl].
  - destruct (Hlast Hl) as (w & Hw & Hwz). rewrite (tget_lookup _ _ _ Hw). simpl. rewrite Emask.
    destruct (table_set_ok t last_sect w (Z.lor w i) Hw) as (t1 & -> & Hl1 & Hg1 & _). simpl.
    assert (i <> last_sect) as Hne by congruence.
    assert (tget t1 i = Some v) as Hv1 by (rewrite Hg1; destruct (Z.eqb_spec i last_sect); congruence).
    rewrite (tget_lookup _ _ _ Hv1). simpl.
    destruct (table_set_ok t1 i v (Z.lor v fat32_cluster_eof) Hv1) as (t2 & -> & Hl2 & Hg2 & _). simpl.
    do 2 eexists; split; [done|]. split_and!; [lia|lia|by exists v|done|simpl; congruence|done|].
    intros m. simpl. change (tget (mark_dirty t2) m) with (tget t2 m). rewrite Hg2, Hg1.
    destruct (Z.eqb_spec m i) as [->|]; [by rewrite Hv|]. simpl. destruct (Z.ltb_spec 2 last_sect); [|lia]. simpl.
    destruct (Z.eqb_spec m last_sect) as [->|]; [by rewrite Hw|done].
  - simpl. rewrite (tget_lookup _ _ _ Hv). simpl.
    destruct (table_set_ok t i v (Z.lor v fat32_cluster_eof) Hv) as (t2 & -> & Hl2 & Hg2 & _). simpl.
    do 2 eexists; split; [done|]. split_and!; [lia|lia|by exists v|done|done|done|].
    intros m. change (tget (mark_dirty t2) m) with (tget t2 m). rewrite Hg2.
    destruct (Z.ltb_spec 2 last_sect); [lia|]. simpl. destruct (Z.eqb_spec m i) as [->|]; [by rewrite Hv|done].
Qed.

Lemma claimed_wf t l i t' : wf t -> claimed t l i t' -> wf t'.
Proof.
  intros [Hu Hl] (Hi & _ & _ & Hl' & _ & Hg). split; [|lia].
  apply Forall_lookup. intros k x Hk. specialize (Hg (Z.of_nat k)). unfold tget in Hg.
  destruct (Z.leb_spec 0 (Z.of_nat k)); [|lia]. rewrite Nat2Z.id in Hg. rewrite Hk in Hg.
  rewrite Forall_lookup in Hu. assert (is_u32 i) by (unfold in_range, fat32_cluster_eof in *; lia).
  destruct (entries t !! k) as [v|] eqn:Ev; [|by destruct (Z.of_nat k =? i), ((2 <? l) && (Z.of_nat k =? l))].
  specialize (Hu _ _ Ev).
  destruct (Z.of_nat k =? i); [|destruct ((2 <? l) && _)]; simpl in Hg; injection Hg as ->; [..|done];
    apply lor_range; try lia; [done|unfold in_range, fat32_cluster_eof; lia|done|done].
Qed.

(** The cluster claimed ends a chain of its own, and every end of a chain stays one. *)
Lemma claimed_eof t l i t' m v :
  claimed t l i t' -> tget t m = Some v -> fat32_cluster_eof <= next_of v \/ m = i ->
  exists v', tget t' m = Some v' /\ fat32_cluster_eof <= next_of v'.
Proof.
  intros (_ & _ & _ & _ & _ & Hg) Hm Hv. rewrite Hg, Hm.
  destruct (Z.eqb_spec m i) as [->|]; simpl; [eexists; split; [done|]; apply eof_lor_r; vm_compute; done|].
  destruct Hv as [Hv|]; [|done]. destruct ((2 <? l) && _); simpl; eexists; (split; [done|]); [by apply eof_lor_l|done].
Qed.

(** Entries that are neither claimed nor linked keep their values. *)
Lemma claimed_other t l i t' m : claimed t l i t' -> m <> i -> m <> l -> tget t' m = tget t m.
Proof.
  intros (_ & _ & _ & _ & _ & Hg) Hi Hl. rewrite Hg. destruct (Z.eqb_spec m i); [done|].
  destruct (Z.eqb_spec m l); [done|]. by rewrite andb_false_r.
Qed.

(** ** Chains *)
Inductive chain (t : fat32_allocation_table) : Z -> list Z -> Prop :=
| chain_last cl v : tget t cl = Some v -> fat32_cluster_eof <= next_of v -> chain t cl [cl]
| chain_cons cl v rest :
    tget t cl = Some v -> next_of v < fat32_cluster_eof -> chain t (next_of v) rest -> chain t cl (cl :: rest).

Lemma cluster_chain_ok t cl cls fuel : chain t cl cls -> (length cls <= fuel)%nat -> cluster_chain fuel t cl = Done cls.
Proof.
  intros Hc. revert fuel. induction Hc as [cl v Hv He|cl v rest Hv He Hc IH]; intros [|f] Hf; simpl in *; try lia.
  - rewrite (tget_lookup _ _ _ Hv). simpl. fold (next_of v). destruct (Z.ltb_spec (next_of v) fat32_cluster_eof); [lia|done].
  - rewrite (tget_lookup _ _ _ Hv). simpl. fold (next_of v). destruct (Z.ltb_spec (next_of v) fat32_cluster_eof); [|lia].
    rewrite IH by lia. done.
Qed.

Lemma chain_fun t cl c1 c2 : chain t cl c1 -> chain t cl c2 -> c1 = c2.
Proof.
  intros H. revert c2. induction H as [cl v Hv He|cl v rest Hv He Hc IH]; intros c2 H2; inversion H2; simplify_eq; [done|lia|lia|].
  f_equal. by apply IH.
Qed.

Lemma chain_suffix t cl cls x : chain t cl cls -> x ∈ cls -> exists suf, chain t x suf /\ (length suf <= length cls)%nat /\ (x <> cl -> length suf < length cls)%nat.
Proof.
  intros H. induction H as [cl v Hv He|cl v rest Hv He Hc IH]; intros Hx.
  - apply list_elem_of_singleton in Hx as ->. exists [cl]. split; [by econstructor|]. split; [done|by intros []].
  - apply elem_of_cons in Hx as [->|Hx].
    + exists (cl :: rest). split; [by econstructor|]. split; [done|by intros []].
    + destruct (IH Hx) as (suf & ? & ? & ?). exists suf. split; [done|]. simpl. lia.
Qed.

Lemma chain_head t cl cls : chain t cl cls -> head cls = Some cl.
Proof. by inversion 1. Qed.

Lemma chain_NoDup t cl cls : chain t cl cls -> NoDup cls.
Proof.
  induction 1 as [cl v Hv He|cl v rest Hv He Hc IH]; [apply NoDup_singleton|].
  constructor; [|done]. intros Hin. destruct (chain_suffix _ _ _ _ Hc Hin) as (suf & Hs & Hl & _).
  assert (chain t cl (cl :: rest)) as Hw by (by econstructor).
  rewrite (chain_fun _ _ _ _ Hs Hw) in Hl. simpl in Hl. lia.
Qed.

Lemma chain_used t cl cls x : chain t cl cls -> x ∈ cls -> exists v, tget t x = Some v /\ (next_of v <> 0 \/ next_of v = 0 /\ 0 ∈ cls).
Proof.
  induction 1 as [cl v Hv He|cl v rest Hv He Hc IH]; intros Hx.
  - apply list_elem_of_singleton in Hx as ->. exists v. split; [done|]. left. by apply eof_nonzero.
  - apply elem_of_cons in Hx as [->|Hx].
    + exists v. split; [done|]. destruct (Z.eq_dec (next_of v) 0) as [E|]; [|by left]. right. split; [done|].
      right. rewrite E in Hc. pose proof (chain_head _ _ _ Hc) as Hh. destruct rest; simplify_eq/=. left.
    + destruct (IH Hx) as (w & ? & [?|[? ?]]); exists w; (split; [done|]); [by left|right; split; [done|by right]].
Qed.

Lemma chain_end t cl cls : chain t cl cls -> exists l v, last cls = Some l /\ tget t l = Some v /\ fat32_cluster_eof <= next_of v.
Proof.
  induction 1 as [cl v Hv He|cl v rest Hv He Hc (l & w & Hl & ?)]; [by exists cl, v|].
  exists l, w. split; [|done]. destruct rest; [done|]. by rewrite last_cons_cons.
Qed.

Lemma chain_ext t t' cl cls : chain t cl cls -> (forall x, x ∈ cls -> tget t' x = tget t x) -> chain t' cl cls.
Proof.
  induction 1 as [cl v Hv He|cl v rest Hv He Hc IH]; intros Hx.
  - apply chain_last with v; [|done]. rewrite Hx by left. done.
  - apply chain_cons with v; [rewrite Hx by left; done|done|]. apply IH. intros; apply Hx. by right.
Qed.

(** Claiming a cluster behind the last one of a chain leaves the chain as it was. *)
Lemma chain_claimed t l i t' c cls :
  chain t c cls -> 0 ∉ cls -> claimed t l i t' -> (l ∈ cls -> last cls = Some l) -> chain t' c cls.
Proof.
  intros Hc H0 Hcl Hl.
  assert (forall x, x ∈ cls -> x <> i) as Hni.
  { intros x Hx ->. destruct (chain_used _ _ _ _ Hc Hx) as (v & Hv & [Hz|[_ ?]]); [|done].
    destruct Hcl as (_ & (w & Hw & Hwz) & _). congruence. }
  clear H0. induction Hc as [cl v Hv He|cl v rest Hv He Hc IH].
  - destruct (claimed_eof t l i t' cl v Hcl Hv) as (v' & ? & ?); [by left|]. by apply chain_last with v'.
  - apply chain_cons with v; [|done|].
    + rewrite (claimed_other t l i t'); [done|done|apply Hni; left|]. intros <-.
      destruct (chain_end _ _ _ Hc) as (e & _ & Hlast & _).
      assert (last (cl :: rest) = Some cl) as E by (apply Hl; left).
      destruct rest; [done|]. rewrite last_cons_cons, Hlast in E. simplify_eq.
      assert (chain t cl (cl :: z :: rest)) as Hw by (by econstructor).
      apply chain_NoDup, NoDup_cons in Hw as [Hw _]. apply Hw. eapply last_Some_elem_of; done.
    + apply IH; [|intros; apply Hni; by right]. intros Hin.
      assert (last (cl :: rest) = Some l) as E by (apply Hl; by right).
      destruct rest; [by inversion Hin|]. by rewrite last_cons_cons in E.
Qed.

(** ** Growing a file *)
Definition grown (t : fat32_allocation_table) (c : Z) (cls new : list Z) : Prop :=
  wf t /\ chain t c cls /\ NoDup (cls ++ new) /\
  forall x, x ∈ new -> exists v, tget t x = Some v /\ fat32_cluster_eof <= next_of v.

Lemma grown_last t c cls new l :
  grown t c cls new -> last (cls ++ new) = Some l -> linkable t l /\ (l ∈ cls -> last cls = Some l).
Proof.
  intros (_ & Hc & Hnd & Hnew) Hl. apply NoDup_app in Hnd as (_ & Hdis & _).
  destruct (chain_end _ _ _ Hc) as (e & v & He & Hv & Hve).
  destruct new as [|y new] using rev_ind.
  - rewrite app_nil_r in Hl. split; [|done]. intros _. simplify_eq. exists v. split; [done|by apply eof_nonzero].
  - rewrite app_assoc, last_snoc in Hl. simplify_eq. destruct (Hnew l) as (w & ? & ?); [set_solver|].
    split; [intros _; exists w; split; [done|by apply eof_nonzero]|]. intros Hin. exfalso. apply (Hdis l Hin). set_solver.
Qed.

Lemma grown_claim t c cls new l i t' :
  grown t c cls new -> 0 ∉ cls -> last (cls ++ new) = Some l -> claimed t l i t' -> grown t' c cls (new ++ [i]).
Proof.
  intros Hg H0 Hl Hcl. destruct (grown_last _ _ _ _ _ Hg Hl) as [_ Hll]. destruct Hg as (Hw & Hc & Hnd & Hnew).
  pose proof Hcl as (_ & (v & Hv & Hz) & _).
  split_and!; [by eapply claimed_wf|by eapply chain_claimed| |].
  - rewrite app_assoc. apply NoDup_app. split_and!; [done| |apply NoDup_singleton].
    intros x Hx ->%list_elem_of_singleton. apply elem_of_app in Hx as [Hx|Hx].
    + destruct (chain_used _ _ _ _ Hc Hx) as (w & Hw' & [?|[_ ?]]); [congruence|done].
    + destruct (Hnew _ Hx) as (w & Hw' & He%eof_nonzero). congruence.
  - intros x [Hx| ->%list_elem_of_singleton]%elem_of_app.
    + destruct (Hnew _ Hx) as (w & Hw' & He). eapply claimed_eof; eauto.
    + eapply claimed_eof; eauto.
Qed.

Lemma overflow_loop_ok s bs t c cls new k :
  grown t c cls new -> 0 ∉ cls ->
  exists t' add, overflow_loop s bs t (cls ++ new) k = Done (t', cls ++ new ++ add, k + bs * Z.of_nat (length add)) /\
    grown t' c cls (new ++ add) /\ (length add = s \/ forall n, 3 <= n -> ~ is_free t' n).
Proof.
  revert t new k. induction s as [|s IH]; intros t new k Hg H0; simpl.
  { exists t, []. rewrite !app_nil_r. split_and!; [do 2 f_equal; simpl; lia|done|by left]. }
  destruct (last (cls ++ new)) as [l|] eqn:El.
  2:{ apply last_None in El. apply app_nil in El as [-> _]. destruct Hg as (_ & Hc & _). inversion Hc. }
  simpl. destruct (grown_last _ _ _ _ _ Hg El) as [Hlk _]. pose proof Hg as (Hw & _).
  destruct (claim_cluster_spec t l Hw Hlk) as [[-> Hnone]|(i & t1 & -> & Hcl)]; simpl.
  { exists t, []. rewrite !app_nil_r. split_and!; [do 2 f_equal; simpl; lia|done|by right]. }
  pose proof Hcl as (Hi & _). destruct (Z.eqb_spec i 0); [lia|].
  destruct (IH t1 (new ++ [i]) (k + bs)) as (t' & add & E & Hg' & Hend); [by eapply grown_claim|done|].
  rewrite <- app_assoc. rewrite E. exists t', (i :: add). rewrite <- !app_assoc in *. simpl in *.
  split_and!; [do 2 f_equal; lia|done|]. destruct Hend; [left; lia|by right].
Qed.

(** Growing a file never extends its chain: the clusters claimed are taken from the volume, and
    known to the node in memory, but the table still describes the clusters the file
    had before, which are all a node made for it later will see. *)
Theorem growing_file_forgets fs n count c :
  wf (the_table fs) -> chain (the_table fs) c (f_clusters n) -> 0 ∉ f_clusters n ->
  exists fs' n' new,
    on_overflow fs n count = Done (fs', n', block_size fs * Z.of_nat (length new)) /\
    f_clusters n' = f_clusters n ++ new /\
    (Z.of_nat (length new) = Z.max 0 (div_round_up count (block_size fs)) \/ (forall m, 3 <= m -> ~ is_free (the_table fs') m)) /\
    (forall x, x ∈ new -> x ∉ f_clusters n /\ ~ is_free (the_table fs') x) /\
    forall fuel, (length (f_clusters n) <= fuel)%nat -> cluster_chain fuel (the_table fs') c = Done (f_clusters n).
Proof.
  intros Hw Hc H0. unfold on_overflow.
  assert (grown (the_table fs) c (f_clusters n) []) as Hg.
  { split_and!; [done|done|rewrite app_nil_r; by eapply chain_NoDup|]. intros x Hx. by inversion Hx. }
  destruct (overflow_loop_ok (Z.to_nat (div_round_up count (block_size fs))) (block_size fs) _ c _ [] 0 Hg H0)
    as (t' & add & E & (Hw' & Hc' & Hnd & Hnew) & Hend).
  rewrite app_nil_r in E. rewrite E. simpl. do 3 eexists. split; [done|]. simpl. split; [done|].
  split; [|split].
  - destruct Hend as [->|]; [left; lia|by right].
  - intros x Hx. apply NoDup_app in Hnd as (_ & Hdis & _). split; [intros Hin; by apply (Hdis x)|].
    intros (v & Hv & Hz). destruct (Hnew x Hx) as (w & Hw2 & He%eof_nonzero). simpl in Hv. congruence.
  - intros fuel Hf. by apply cluster_chain_ok.
Qed.

(** ** Releasing clusters *)
Lemma release_loop_ok t c cls fuel :
  chain t c cls -> (length cls <= fuel)%nat ->
  exists t', release_loop fuel t c = Done t' /\ length (entries t') = length (entries t) /\
    forall m, tget t' m = if bool_decide (m ∈ cls) then (fun v => Z.land v fat32_cluster_pres) <$> tget t m else tget t m.
Proof.
  intros Hc. revert t fuel Hc. revert c. induction cls as [|x cls IH]; intros c t fuel Hc Hf; [inversion Hc|].
  destruct fuel as [|f]; [simpl in Hf; lia|]. pose proof (chain_NoDup _ _ _ Hc) as [Hnx _]%NoDup_cons.
  assert (exists v, tget t c = Some v /\ x = c /\
    ((cls = [] /\ fat32_cluster_eof <= next_of v) \/ (next_of v < fat32_cluster_eof /\ chain t (next_of v) cls))) as (v & Hv & -> & Hcase).
  { inversion Hc; subst; eexists; eauto 10. }
  simpl. rewrite (tget_lookup _ _ _ Hv). simpl.
  destruct (table_set_ok t c v (Z.land v fat32_cluster_pres) Hv) as (t1 & -> & Hl1 & Hg1 & _). simpl. fold (next_of v).
  destruct Hcase as [[-> He]|[He Hrest]].
  - destruct (Z.ltb_spec (next_of v) fat32_cluster_eof); [lia|]. exists t1. split_and!; [done|done|].
    intros m. rewrite Hg1. destruct (Z.eqb_spec m c) as [->|].
    + rewrite bool_decide_true by set_solver. by rewrite Hv.
    + by rewrite bool_decide_false by set_solver.
  - destruct (Z.ltb_spec (next_of v) fat32_cluster_eof); [|lia].
    destruct (IH (next_of v) t1 f) as (t2 & -> & Hl2 & Hg2); [|simpl in Hf; lia|].
    { eapply chain_ext; [done|]. intros y Hy. rewrite Hg1. destruct (Z.eqb_spec y c); [by subst|done]. }
    exists t2. split_and!; [done|congruence|]. intros m. rewrite Hg2, Hg1. destruct (Z.eqb_spec m c) as [->|].
    + rewrite bool_decide_false by done. rewrite bool_decide_true by left. by rewrite Hv.
    + do 2 case_bool_decide; done || set_solver.
Qed.

Lemma pres_undoes_eof v : is_u32 v -> next_of v = 0 -> Z.land (Z.lor v fat32_cluster_eof) fat32_cluster_pres = v.
Proof.
  intros Hu Hz. rewrite Z.land_lor_distr_l. change (Z.land fat32_cluster_eof fat32_cluster_pres) with 0. rewrite Z.lor_0_r.
  transitivity (Z.land v (Z.ones 32)).
  - change (Z.ones 32) with (Z.lor fat32_cluster_mask fat32_cluster_pres). rewrite Z.land_lor_distr_r.
    fold (next_of v). by rewrite Hz.
  - rewrite Z.land_ones by lia. apply Z.mod_small. exact Hu.
Qed.

(** Releasing the cluster a new file was given restores the allocation table; it returns in one
    step. *)
Theorem release_undoes_cluster_claim t i t1 fuel :
  wf t -> claim_cluster t 0 = Done (i, t1) -> i <> 0 -> (1 <= fuel)%nat ->
  cluster_chain fuel t1 i = Done [i] /\
  exists t2, release_clusters_from fuel t1 i = Done t2 /\ entries t2 = entries t /\ table_dirty t2 = true.
Proof.
  intros Hw Hcl Hi Hf. destruct (claim_cluster_spec t 0 Hw) as [[E _]|(i' & t1' & E & Hc)]; [intros ?; lia|congruence|].
  rewrite E in Hcl. simplify_eq. pose proof Hc as (_ & (v & Hv & Hz) & _ & Hl & _ & Hg).
  assert (tget t1 i = Some (Z.lor v fat32_cluster_eof)) as Hi1 by (rewrite Hg, Z.eqb_refl, Hv; done).
  assert (chain t1 i [i]) as Hch by (eapply chain_last; [done|by apply eof_lor_r]).
  split; [by eapply cluster_chain_ok|].
  destruct (release_loop_ok t1 i [i] fuel Hch Hf) as (t2 & E2 & Hl2 & Hg2).
  unfold release_clusters_from. rewrite E2. simpl. eexists; split; [done|]. split; [|done].
  apply (table_ext t t2); [congruence|]. intros m. rewrite Hg2, Hg.
  destruct (Z.eqb_spec m i) as [->|].
  - rewrite bool_decide_true by left. rewrite Hv. simpl. f_equal. apply pres_undoes_eof; [|done].
    destruct Hw as [Hu _]. rewrite Forall_lookup in Hu. pose proof (tget_lt _ _ _ Hv).
    unfold tget in Hv. destruct (Z.leb_spec 0 i); [by eapply Hu|lia].
  - by rewrite bool_decide_false by set_solver.
Qed.

(** ** A full directory *)
Definition free_at (t : fat32_allocation_table) (n : Z) : Prop := next_of (default 1 (tget t n)) = 0.
#[export] Instance free_at_dec t n : Decision (free_at t n).
Proof. unfold free_at. apply _. Defined.
Definition free_clusters (t : fat32_allocation_table) : list Z :=
  filter (free_at t) (seqZ 3 (Z.of_nat (length (entries t)) - 3)).

Lemma free_at_iff t n : free_at t n <-> is_free t n.
Proof.
  unfold free_at, is_free. destruct (tget t n) as [v|]; simpl; [naive_solver|].
  split; [by intros ?%Z.eq_sym|]. by intros (v & ? & _).
Qed.

Lemma filter_none {A} (P : A -> Prop) `{!forall x, Decision (P x)} (l : list A) :
  (forall x, x ∈ l -> ~ P x) -> filter P l = [].
Proof. induction l as [|x l IH]; intros Hn; [done|]. rewrite filter_cons_False by (apply Hn; left). apply IH. set_solver. Qed.

Lemma filter_same {A} (P Q : A -> Prop) `{!forall x, Decision (P x)} `{!forall x, Decision (Q x)} (l : list A) :
  (forall x, x ∈ l -> P x <-> Q x) -> filter P l = filter Q l.
Proof.
  induction l as [|x l IH]; intros Hpq; [done|]. rewrite !filter_cons.
  assert (P x <-> Q x) by (apply Hpq; left). rewrite IH by (intros; apply Hpq; by right).
  destruct (decide (P x)), (decide (Q x)); naive_solver.
Qed.

(** Claiming takes the first free cluster off the list of free ones. *)
Lemma free_clusters_claimed t l i t' :
  linkable t l -> claimed t l i t' -> free_clusters t = i :: free_clusters t'.
Proof.
  intros Hlk (Hi & Hfree & Hmin & Hl & _ & Hg). unfold free_clusters. rewrite Hl.
  replace (Z.of_nat (length (entries t)) - 3) with ((i - 3) + Z.succ (Z.of_nat (length (entries t)) - i - 1)) by lia.
  rewrite seqZ_app by lia. replace (3 + (i - 3)) with i by lia. rewrite (seqZ_cons i) by lia. rewrite Z.pred_succ, !filter_app.
  rewrite (filter_none (free_at t) (seqZ 3 (i - 3))), (filter_none (free_at t') (seqZ 3 (i - 3))).
  2,3: intros x Hx%elem_of_seqZ Hf; rewrite free_at_iff in Hf; apply (Hmin x); [lia|].
  2: { destruct Hf as (v & Hv & Hz). rewrite Hg in Hv. destruct (Z.eqb_spec x i); [lia|].
       destruct ((2 <? l) && _) eqn:El; [|by exists v]. apply andb_true_iff in El as [El1%Z.ltb_lt ->%Z.eqb_eq].
       destruct (Hlk El1) as (w & Hw & Hnz). rewrite Hw in Hv. simpl in Hv. simplify_eq.
       rewrite next_of_lor in Hz. apply Z.lor_eq_0_iff in Hz as [? _]. done. }
  2: done.
  simpl. rewrite filter_cons_True by (by apply free_at_iff). rewrite filter_cons_False.
  2:{ rewrite free_at_iff. intros (v & Hv & Hz). rewrite Hg, Z.eqb_refl in Hv. destruct (tget t i); simpl in Hv; [|done].
      simplify_eq. rewrite next_of_lor in Hz. apply Z.lor_eq_0_iff in Hz as [_ ?]. done. }
  f_equal. apply filter_same. intros x Hx%elem_of_seqZ. rewrite !free_at_iff. unfold is_free. rewrite Hg.
  destruct (Z.eqb_spec x i); [lia|]. destruct ((2 <? l) && _) eqn:El; [|done].
  apply andb_true_iff in El as [El1%Z.ltb_lt ->%Z.eqb_eq]. destruct (Hlk El1) as (w & Hw & Hnz). rewrite Hw. simpl.
  split; [naive_solver|]. intros (v & ? & Hz). simplify_eq. rewrite next_of_lor in Hz. apply Z.lor_eq_0_iff in Hz as [? _]. done.
Qed.

Lemma free_clusters_none t : (forall n, 3 <= n -> ~ is_free t n) <-> free_clusters t = [].
Proof.
  unfold free_clusters. split.
  - intros Hn. apply filter_none. intros x Hx%elem_of_seqZ Hf. rewrite free_at_iff in Hf. apply (Hn x); [lia|done].
  - intros E n Hn Hf. assert (n ∈ filter (free_at t) (seqZ 3 (Z.of_nat (length (entries t)) - 3))) as Hin.
    { apply list_elem_of_filter. rewrite free_at_iff. split; [done|]. apply elem_of_seqZ.
      destruct Hf as (v & Hv & _). apply tget_lt in Hv. lia. }
    rewrite E in Hin. by inversion Hin.
Qed.

Lemma reserve_elems {A} (v : vec A) n : elems (reserve v n) = elems v.
Proof. unfold reserve, grow_buffer. case_cmp; done. Qed.

(** Looking for an unused entry in a full directory claims every free cluster of the volume,
    one after another, and then throws: the directory has the clusters and no entry
    in them, because only its capacity was raised. *)
Theorem full_directory_takes_volume fuel t covered data bs l :
  wf t -> last covered = Some l -> linkable t l ->
  Forall (fun e => entry_free e = false) (elems data) ->
  (length (free_clusters t) < fuel)%nat ->
  exists t' data', first_unused_entry fuel t covered data bs = Done (inl runtime_error, t', covered ++ free_clusters t, data') /\
    elems data' = elems data /\ free_clusters t' = [].
Proof.
  intros Hw Hl Hlk Hfull. revert t covered data l Hw Hl Hlk Hfull.
  induction fuel as [|f IH]; intros t covered data l Hw Hl Hlk Hfull Hf; [lia|]. simpl.
  assert (list_find (fun e => entry_free e = true) (elems data) = None) as ->.
  { apply list_find_None. eapply Forall_impl; [done|]. intros e ->. done. }
  unfold expand_dir. rewrite Hl. simpl.
  destruct (claim_cluster_spec t l Hw Hlk) as [[-> Hn]|(i & t1 & -> & Hcl)]; simpl.
  - apply free_clusters_none in Hn as E. exists t, data. rewrite E, app_nil_r. done.
  - pose proof Hcl as (Hi & (v & Hv & _) & _). destruct (Z.eqb_spec i 0); [lia|].
    rewrite (free_clusters_claimed t l i t1 Hlk Hcl) in *. simpl in Hf.
    destruct (IH t1 (covered ++ [i]) (reserve data (size data + bs / dirent_size)) i) as (t' & data' & E & Hd & Hnone).
    + by eapply claimed_wf.
    + apply last_snoc.
    + intros _. destruct (claimed_eof t l i t1 i v Hcl Hv) as (v' & ? & ?%eof_nonzero); [by right|]. by exists v'.
    + by rewrite reserve_elems.
    + lia.
    + rewrite E, <- app_assoc. exists t', data'. split_and!; [done|by rewrite Hd, reserve_elems|done].
Qed.

(** ** Names *)
Definition plain (c : Z) : Prop := c <> space /\ c <> 0 /\ c <> dot.

Lemma parse_base_spaces n k name : parse_base (replicate n space) k name = name.
Proof. revert k. induction n as [|n IH]; intros k; simpl; [done|]. apply IH. Qed.
Lemma parse_base_app b s name : Forall plain b -> parse_base (b ++ s) 0 name = parse_base s 0 (name ++ b).
Proof.
  intros Hb. revert name. induction Hb as [|c b (Hs & Hz & _) Hb IH]; intros name; simpl; [by rewrite app_nil_r|].
  destruct (Z.eqb_spec c space); [done|]. destruct (Z.eqb_spec c 0); [done|]. simpl. rewrite IH, <- app_assoc. done.
Qed.
Lemma parse_ext_spaces n k d name : parse_ext (replicate n space) k d name = name.
Proof. revert k. induction n as [|n IH]; intros k; simpl; [done|]. apply IH. Qed.
Lemma parse_ext_app x s d name :
  Forall plain x -> parse_ext (x ++ s) 0 d name = parse_ext s 0 (d || bool_decide (x <> [])) (name ++ (if d then [] else match x with [] => [] | _ => [dot] end) ++ x).
Proof.
  intros Hx. revert d name. induction Hx as [|c x (Hs & Hz & _) Hx IH]; intros d name; simpl.
  { by destruct d; simpl; rewrite ?app_nil_r. }
  destruct (Z.eqb_spec c space); [done|]. destruct (Z.eqb_spec c 0); [done|]. simpl.
  rewrite IH. rewrite orb_true_r. simpl. f_equal. destruct d; simpl; by rewrite <- ?app_assoc.
Qed.

Lemma pad_to_short n s : (length s <= n)%nat -> pad_to n s = s ++ replicate (n - length s) space.
Proof.
  intros Hl. unfold pad_to. rewrite take_app, take_ge by done. f_equal. by rewrite take_replicate, Nat.min_l by lia.
Qed.

(** The name of a file with base name [b] and extension [x]. *)
Definition dos_name (b x : str) : str := b ++ match x with [] => [] | _ => dot :: x end.

Lemma find_dot_base b x : Forall plain b -> find_char dot (dos_name b x) = match x with [] => None | _ => Some (length b) end.
Proof.
  intros Hb. unfold find_char, dos_name.
  assert (list_find (fun c => c = dot) b = None) as Hn.
  { apply list_find_None. eapply Forall_impl; [done|]. intros c (_ & _ & ?). done. }
  destruct x as [|c x]; [by rewrite app_nil_r, Hn|].
  rewrite list_find_app_r by done. done.
Qed.

(** C14: The eight and three characters stored for a file's name are read back as that name, for
    a name of one to eight and up to three characters without spaces, dots and zeros. *)
Theorem short_name_roundtrip b x :
  Forall plain b -> Forall plain x -> (1 <= length b <= 8)%nat -> (length x <= 3)%nat ->
  length (set_filename (dos_name b x)) = 11%nat /\ parsed_name (set_filename (dos_name b x)) = dos_name b x.
Proof.
  intros Hb Hx Hlb Hlx. unfold set_filename. rewrite find_dot_base by done.
  set (l := match _ with Some pos_dot => _ | None => _ end).
  assert (l = length b) as ->.
  { subst l. unfold dos_name. destruct x as [|c x]; [rewrite app_nil_r; lia|].
    rewrite length_app. cbn [length]. destruct (Nat.ltb_spec (length b) (Nat.min 8 (length b + S (S (length x))))); lia. }
  assert (take (length b) (dos_name b x) = b) as -> by (unfold dos_name; by rewrite take_app_length).
  assert (drop (S (length b)) (dos_name b x) = x) as ->.
  { unfold dos_name. rewrite drop_app_ge by lia. replace (S (length b) - length b)%nat with 1%nat by lia. by destruct x. }
  rewrite !pad_to_short by lia. split; [rewrite !length_app, !length_replicate; lia|].
  unfold parsed_name. rewrite take_app_length', drop_app_length' by (rewrite length_app, length_replicate; lia).
  rewrite parse_base_app, parse_base_spaces by done. simpl. rewrite parse_ext_app, parse_ext_spaces by done. simpl.
  unfold dos_name. f_equal. by destruct x.
Qed.

(** ** Mounting *)
Section Mount.
Context (read_blockdev : Z -> Z -> option (list Z)).
Abbreviation parse_dir := (parse_dir_data read_blockdev).

Lemma cluster_chain_det t cl f1 f2 c1 c2 : cluster_chain f1 t cl = Done c1 -> cluster_chain f2 t cl = Done c2 -> c1 = c2.
Proof.
  revert cl f2 c1 c2. induction f1 as [|f1 IH]; intros cl [|f2] c1 c2 H1 H2; simpl in *; try done.
  destruct (table_get t cl) as [v| |]; simpl in *; [|done..]. destruct (_ <? _); [|by simplify_eq].
  destruct (cluster_chain f1 t _) as [r1| |] eqn:E1; simpl in H1; [|done..].
  destruct (cluster_chain f2 t _) as [r2| |] eqn:E2; simpl in H2; [|done..].
  simplify_eq. f_equal. by eapply IH.
Qed.

(** What parsing keeps: the disk, the file nodes there are, and every directory with
    its mark; [but] is the directory being parsed. *)
Definition extends (but : option str) (fs fs' : fat32) : Prop :=
  the_table fs' = the_table fs /\ sectors_per_cluster fs' = sectors_per_cluster fs /\ sector_base fs' = sector_base fs /\
  (forall n, is_Some (file_nodes fs !! n) -> is_Some (file_nodes fs' !! n)) /\
  forall k d, directory_nodes fs !! k = Some d -> exists d', directory_nodes fs' !! k = Some d' /\ (but <> Some k -> has_init d' = has_init d).

Lemma vol_extends_refl b fs : extends b fs fs.
Proof. unfold extends. split_and!; eauto. Qed.
Lemma vol_extends_trans b fs1 fs2 fs3 : extends None fs1 fs2 -> extends b fs2 fs3 -> extends b fs1 fs3.
Proof.
  intros (E1 & E2 & E3 & E4 & E5) (F1 & F2 & F3 & F4 & F5). unfold extends. split_and!; try congruence; [auto|].
  intros k d Hk. destruct (E5 _ _ Hk) as (d1 & Hk1 & H1). destruct (F5 _ _ Hk1) as (d2 & Hk2 & H2).
  exists d2. split; [done|]. intros Hb. rewrite H2 by done. by apply H1.
Qed.
Lemma extends_weaken b fs fs' : extends None fs fs' -> extends b fs fs'.
Proof. intros (E1 & E2 & E3 & E4 & E5). unfold extends. split_and!; auto. intros k d Hk. destruct (E5 _ _ Hk) as (d' & ? & He). exists d'. auto. Qed.

Lemma get_dir_Some fs this d : directory_nodes fs !! this = Some d -> get_dir fs this = Done d.
Proof. unfold get_dir. by intros ->. Qed.

Lemma set_dir_extends fs this d d' :
  get_dir fs this = Done d -> has_init d' = has_init d -> extends None fs (set_dir fs this d').
Proof.
  unfold get_dir. destruct (directory_nodes fs !! this) as [d0|] eqn:E; intros Hd Hi; simpl in Hd; [|done]. simplify_eq.
  unfold extends; simpl. split_and!; auto. intros k dk Hk. destruct (decide (k = this)) as [->|].
  - rewrite lookup_insert_eq. simplify_eq. by eexists.
  - rewrite lookup_insert_ne by done. by eexists.
Qed.

Lemma add_tnode_extends fs this name r fs' : add_tnode fs this name r = Done fs' -> extends None fs fs'.
Proof.
  unfold add_tnode. destruct (get_dir fs this) as [d| |] eqn:E; simpl; intros ?; simplify_eq.
  eapply set_dir_extends; [done|]. done.
Qed.

Lemma put_file_extends fuel fs name parent cl idx fs' ok :
  put_file_node fuel fs name parent cl idx = Done (fs', ok) ->
  extends None fs fs' /\ if ok : bool then file_nodes fs !! name = None /\ is_Some (file_nodes fs' !! name) else is_Some (file_nodes fs !! name).
Proof.
  unfold put_file_node. destruct (new_file _ _ _ _ _) as [n| |]; simpl; [|done..].
  destruct (file_nodes fs !! name) eqn:E; intros; simplify_eq; simpl.
  - split; [unfold extends; simpl; split_and!; eauto|done].
  - split; [|rewrite lookup_insert_eq; eauto].
    unfold extends; simpl. split_and!; eauto. intros m Hm. destruct (decide (m = name)) as [->|]; [rewrite lookup_insert_eq; eauto|].
    by rewrite lookup_insert_ne.
Qed.

Lemma put_dir_extends fuel fs name parent cl idx fs' ok :
  put_directory_node fuel fs name parent cl idx = Done (fs', ok) ->
  extends None fs fs' /\ (ok = true -> directory_nodes fs !! name = None /\
    exists d, directory_nodes fs' !! name = Some d /\ has_init d = false /\ my_dir_data d = vnil /\
      cluster_chain fuel (the_table fs) cl = Done (my_covered_clusters d)).
Proof.
  unfold put_directory_node, new_dir. destruct (match parent with Some _ => _ | None => _ end) as [u| |]; simpl; [|done..].
  destruct (cluster_chain fuel (the_table fs) cl) as [cls| |]; simpl; [|done..].
  destruct (directory_nodes fs !! name) eqn:E; intros; simplify_eq; simpl.
  - split; [unfold extends; simpl; split_and!; eauto|done].
  - split; [|intros _; split; [done|]; eexists; rewrite lookup_insert_eq; eauto].
    unfold extends; simpl. split_and!; eauto. intros k d Hk. rewrite lookup_insert_ne by congruence. eauto.
Qed.

(** [parse] of a subdirectory only adds nodes. *)
Definition parse_extends (parse : fat32 -> str -> outcome (fat32 * bool)) : Prop :=
  forall fs k fs' b, parse fs k = Done (fs', b) -> extends (Some k) fs fs'.

Lemma add_parsed_extends fuel parse fs this e j fs' r :
  parse_extends parse -> is_Some (directory_nodes fs !! this) ->
  add_parsed_entry fuel parse fs this e j = Done (fs', r) -> extends None fs fs'.
Proof.
  intros Hp [dt Hthis]. unfold add_parsed_entry. set (name := parsed_name (filename e)). destruct (is_subdir e).
  - destruct (put_directory_node _ _ _ _ _ _) as [[fs1 ok]| |] eqn:E1; simpl; [|done..].
    apply put_dir_extends in E1 as [X1 Hok]. destruct ok; simpl; [|intros; by simplify_eq].
    destruct (Hok eq_refl) as (Hnew & _).
    destruct (add_tnode fs1 this name _) as [fs2| |] eqn:E2; simpl; [|done..]. apply add_tnode_extends in E2 as X2.
    destruct (parse fs2 name) as [[fs3 p]| |] eqn:E3; simpl; intros; simplify_eq.
    specialize (Hp _ _ _ _ E3). pose proof (vol_extends_trans _ _ _ _ X1 (vol_extends_trans _ _ _ _ X2 Hp)) as (F1 & F2 & F3 & F4 & F5).
    unfold extends. split_and!; auto. intros k d Hk. destruct (F5 _ _ Hk) as (d' & ? & Hi). exists d'. split; [done|].
    intros _. apply Hi. congruence.
  - destruct (put_file_node _ _ _ _ _ _) as [[fs1 ok]| |] eqn:E1; simpl; [|done..].
    apply put_file_extends in E1 as [X1 Hok]. destruct ok; simpl; [|intros; by simplify_eq].
    destruct (add_tnode fs1 this name _) as [fs2| |] eqn:E2; simpl; intros; simplify_eq. apply add_tnode_extends in E2.
    by eapply vol_extends_trans.
Qed.

Lemma extends_dir b fs fs' k : extends b fs fs' -> is_Some (directory_nodes fs !! k) -> is_Some (directory_nodes fs' !! k).
Proof. intros (_ & _ & _ & _ & H) [d Hd]. destruct (H _ _ Hd) as (d' & -> & _). eauto. Qed.

Lemma parse_entries_extends fuel parse fs this es j fs' r :
  parse_extends parse -> is_Some (directory_nodes fs !! this) ->
  parse_entries fuel parse fs this es j = Done (fs', r) -> extends None fs fs'.
Proof.
  intros Hp. revert fs j. induction es as [|e es IH]; intros fs j Hthis; simpl; [intros; simplify_eq; apply vol_extends_refl|].
  destruct (skipped e); [by apply IH|].
  destruct (add_parsed_entry _ _ _ _ _ _) as [[fs1 err]| |] eqn:E; simpl; [|done..].
  apply add_parsed_extends in E as X; [|done..]. destruct err; intros HX; simplify_eq; [done|].
  eapply vol_extends_trans; [done|]. eapply IH; [|done]. by eapply extends_dir.
Qed.

Lemma parse_dir_extends fuel : parse_extends (parse_dir fuel).
Proof.
  induction fuel as [|f IH]; intros fs this fs' b; simpl; [done|].
  destruct (get_dir fs this) as [d| |] eqn:Ed; simpl; [|done..].
  destruct (has_init d) eqn:Ei; [intros; simplify_eq; apply vol_extends_refl|].
  destruct (read_disk_data _ _ _) as [[bs|]| |]; simpl; [|intros; simplify_eq; apply vol_extends_refl|done..].
  set (fs0 := set_dir fs this _). assert (extends None fs fs0) as X0 by (by eapply set_dir_extends).
  assert (is_Some (directory_nodes fs0 !! this)) as Ht by (subst fs0; simpl; rewrite lookup_insert_eq; eauto).
  destruct (parse_entries _ _ _ _ _ _) as [[fs1 err]| |] eqn:Ep; simpl; [|done..].
  apply parse_entries_extends in Ep as X1; [|done..]. destruct err; simpl.
  { intros; simplify_eq. apply extends_weaken. by eapply vol_extends_trans. }
  destruct (get_dir fs1 this) as [d1| |] eqn:Ed1; simpl; intros; simplify_eq.
  eapply vol_extends_trans; [by eapply vol_extends_trans|]. unfold get_dir in Ed1.
  destruct (directory_nodes fs1 !! this) as [d2|] eqn:E2; simplify_eq/=.
  unfold extends; simpl. split_and!; auto. intros k dk Hk. destruct (decide (k = this)) as [->|].
  - rewrite lookup_insert_eq. eexists; split; [done|]. done.
  - rewrite lookup_insert_ne by done. eauto.
Qed.

Lemma read_disk_data_same fs fs' cls :
  sectors_per_cluster fs' = sectors_per_cluster fs -> sector_base fs' = sector_base fs ->
  read_disk_data read_blockdev fs' cls = read_disk_data read_blockdev fs cls.
Proof.
  intros E1 E2. induction cls as [|cl cls IH]; simpl; [done|].
  unfold read_clusters, cluster_to_sector. rewrite E1, E2. destruct (read_blockdev _ _); [|done].
  destruct (_ =? _); [|done]. by rewrite IH.
Qed.

(** The entries of the directory whose first cluster is [cl], as they are on the disk. *)
Definition dir_entries (fs : fat32) (cl : Z) (es : list fat32_regular_entry) : Prop :=
  exists fuel cls bs, cluster_chain fuel (the_table fs) cl = Done cls /\
    read_disk_data read_blockdev fs cls = Done (Some bs) /\ es = decode_dir bs.
(** A directory on the disk has a file of name [n]. *)
Definition holds_file (fs : fat32) (cl : Z) (n : str) : Prop :=
  exists es e, dir_entries fs cl es /\ e ∈ es /\ skipped e = false /\ is_subdir e = false /\ parsed_name (filename e) = n.

Lemma holds_file_extends b fs fs' cl n : extends b fs fs' -> holds_file fs cl n -> holds_file fs' cl n.
Proof.
  intros (E1 & E2 & E3 & _) (es & e & (fuel & cls & bs & Hc & Hr & ->) & He).
  exists (decode_dir bs), e. split; [|done]. exists fuel, cls, bs. rewrite E1.
  by rewrite (read_disk_data_same fs fs').
Qed.

(** Entries parsed without an exception: those before and those behind a point. *)
Lemma parse_entries_app fuel parse fs this l1 l2 j fs' :
  parse_entries fuel parse fs this (l1 ++ l2) j = Done (fs', None) ->
  exists fs1, parse_entries fuel parse fs this l1 j = Done (fs1, None) /\
    parse_entries fuel parse fs1 this l2 (j + Z.of_nat (length l1)) = Done (fs', None).
Proof.
  revert fs j. induction l1 as [|e l1 IH]; intros fs j; simpl.
  { intros H. exists fs. split; [done|]. by rewrite Z.add_0_r. }
  replace (j + Z.of_nat (S (length l1))) with (j + 1 + Z.of_nat (length l1)) by lia.
  destruct (skipped e); [by apply IH|].
  destruct (add_parsed_entry _ _ _ _ _ _) as [[fs1 [x|]]| |]; simpl; [done|by apply IH|done..].
Qed.

(** A file entry that is parsed gives its name, which nobody had, to a node. *)
Lemma parse_entries_file fuel parse fs this es j fs' e :
  parse_extends parse -> is_Some (directory_nodes fs !! this) ->
  parse_entries fuel parse fs this es j = Done (fs', None) -> e ∈ es -> skipped e = false -> is_subdir e = false ->
  file_nodes fs !! parsed_name (filename e) = None /\ is_Some (file_nodes fs' !! parsed_name (filename e)).
Proof.
  intros Hp Ht Hr [l1 [l2 ->]]%list_elem_of_split Hsk Hsub.
  apply parse_entries_app in Hr as (fs1 & H1 & H2). apply parse_entries_extends in H1 as X1; [|done..].
  simpl in H2. rewrite Hsk in H2. unfold add_parsed_entry in H2. rewrite Hsub in H2.
  destruct (put_file_node _ _ _ _ _ _) as [[fs2 ok]| |] eqn:E1; simpl in H2; [|done..].
  apply put_file_extends in E1 as [X2 Hok]. destruct ok; simpl in H2; [|done]. destruct Hok as [Hnone Hsome].
  destruct (add_tnode _ _ _ _) as [fs3| |] eqn:E2; simpl in H2; [|done..]. apply add_tnode_extends in E2 as X3.
  apply parse_entries_extends in H2 as X4; [|done|by eapply extends_dir, extends_dir, extends_dir]. split.
  - destruct (file_nodes fs !! _) eqn:Ef; [|done]. destruct X1 as (_ & _ & _ & X1 & _).
    destruct (X1 (parsed_name (filename e))) as [? Hx]; [eauto|]. congruence.
  - destruct X3 as (_ & _ & _ & X3 & _), X4 as (_ & _ & _ & X4 & _). auto.
Qed.

(** Parsing a new directory node that holds a file of name [n] takes that name. *)
Lemma parse_dir_file fuel fs this d n fs' :
  directory_nodes fs !! this = Some d -> has_init d = false -> my_dir_data d = vnil ->
  (exists fuel', cluster_chain fuel' (the_table fs) (d_cid d) = Done (my_covered_clusters d)) ->
  holds_file fs (d_cid d) n -> parse_dir fuel fs this = Done (fs', true) ->
  file_nodes fs !! n = None /\ is_Some (file_nodes fs' !! n).
Proof.
  intros Hd Hi Hv [fc Hc] (es & e & (fc' & cls & bs & Hc' & Hr & ->) & He & Hsk & Hsub & <-) Hp.
  rewrite (cluster_chain_det _ _ _ _ _ _ Hc' Hc) in Hr. destruct fuel as [|f]; [done|]. simpl in Hp.
  rewrite (get_dir_Some _ _ _ Hd) in Hp. simpl in Hp. rewrite Hi, Hr, Hv in Hp. simpl in Hp.
  set (es := decode_dir bs) in *.
  assert (elems (append_range vnil es) = es) as Ees by (destruct (append_refines (vnil (A:=fat32_regular_entry)) es); [done|done]).
  rewrite Ees in Hp. set (fs0 := set_dir fs this _) in Hp.
  assert (is_Some (directory_nodes fs0 !! this)) as Ht by (subst fs0; simpl; rewrite lookup_insert_eq; eauto).
  destruct (parse_entries _ _ _ _ _ _) as [[fs1 err]| |] eqn:Ep; simpl in Hp; [|done..]. destruct err; simpl in Hp; [done|].
  destruct (get_dir fs1 this) as [d1| |]; simpl in Hp; [|done..]. simplify_eq. simpl.
  apply (parse_entries_file _ _ _ _ _ _ _ e (parse_dir_extends f) Ht Ep He Hsk Hsub).
Qed.

(** A subdirectory entry that is parsed does the same for the files it holds. *)
Lemma parse_entries_subdir fuel f fs this l1 e l2 j fs' n :
  is_Some (directory_nodes fs !! this) ->
  parse_entries fuel (parse_dir f) fs this (l1 ++ e :: l2) j = Done (fs', None) ->
  skipped e = false -> is_subdir e = true -> holds_file fs (start_of e) n ->
  exists fs1 j1, extends None fs fs1 /\ file_nodes fs !! n = None /\ is_Some (file_nodes fs1 !! n) /\
    parse_entries fuel (parse_dir f) fs1 this l2 j1 = Done (fs', None).
Proof.
  intros Ht Hr Hsk Hsub Hh. apply parse_entries_app in Hr as (fs1 & H1 & H2).
  pose proof (parse_dir_extends f) as Hp. apply parse_entries_extends in H1 as X1; [|done..].
  simpl in H2. rewrite Hsk in H2. destruct (add_parsed_entry _ _ _ _ _ _) as [[fs2 [x|]]| |] eqn:Ea; simpl in H2; [done| |done..].
  assert (is_Some (directory_nodes fs1 !! this)) as Ht1 by (by eapply extends_dir).
  apply add_parsed_extends in Ea as X2; [|done..]. exists fs2. eexists. split; [by eapply vol_extends_trans|].
  cut (file_nodes fs1 !! n = None /\ is_Some (file_nodes fs2 !! n)).
  { intros [Hn Hs]. split_and!; [|done|done]. destruct (file_nodes fs !! n) eqn:Ef; [|done].
    destruct X1 as (_ & _ & _ & X1 & _). destruct (X1 n) as [? Hx]; [eauto|]. congruence. }
  clear H2. unfold add_parsed_entry in Ea. rewrite Hsub in Ea. set (name := parsed_name (filename e)) in *.
  destruct (put_directory_node _ _ _ _ _ _) as [[fs3 ok]| |] eqn:E3; simpl in Ea; [|done..].
  assert (file_nodes fs3 = file_nodes fs1) as Ef3.
  { unfold put_directory_node in E3. destruct (new_dir _ _ _ _ _); simpl in E3; [|done..].
    by destruct (directory_nodes fs1 !! name); simplify_eq. }
  assert (forall d, ok = true -> directory_nodes fs3 !! name = Some d -> d_cid d = start_of e) as Hcid.
  { intros d -> Hd. unfold put_directory_node, new_dir in E3. simpl in E3. destruct (disk_entry _ _ _); simpl in E3; [|done..].
    destruct (cluster_chain _ _ _); simpl in E3; [|done..]. destruct (directory_nodes fs1 !! name); simplify_eq. simpl in Hd.
    rewrite lookup_insert_eq in Hd. by simplify_eq. }
  apply put_dir_extends in E3 as [X3 Hok]. destruct ok; simpl in Ea; [|done]. destruct (Hok eq_refl) as (Hnew & d & Hd & Hdi & Hdv & Hdc).
  specialize (Hcid d eq_refl Hd). destruct (add_tnode _ _ _ _) as [fs4| |] eqn:E4; simpl in Ea; [|done..].
  apply add_tnode_extends in E4 as X4. unfold add_tnode in E4. destruct (get_dir fs3 this) as [dt| |] eqn:Edt; simpl in E4; [|done..]. simplify_eq.
  set (fs4 := set_dir fs3 this _) in *.
  destruct (parse_dir f fs4 name) as [[fs5 b]| |] eqn:E5; simpl in Ea; [|done..]. destruct b; simplify_eq.
  assert (this <> name) as Hne by (intros ->; destruct Ht1 as [? Hx]; congruence).
  rewrite <- Ef3. change (file_nodes fs3) with (file_nodes fs4). eapply (parse_dir_file f fs4 name d n fs2); [|done|done| | |done].
  - subst fs4. simpl. by rewrite lookup_insert_ne.
  - exists fuel. rewrite Hcid. destruct X3 as (X3 & _), X4 as (X4 & _). by rewrite X4, X3.
  - rewrite Hcid. eapply holds_file_extends, holds_file_extends, holds_file_extends; eauto.
Qed.

(** A volume that has files of the same name in two subdirectories of its root is never mounted:
    the nodes of all directories are kept in one set ordered by name, and a second
    node of the same name is an error. *)
Theorem same_names_fail_mount fuel fs root_cl es l1 e1 l2 e2 l3 n fs' :
  directory_nodes fs !! [] = None -> dir_entries fs root_cl es -> es = l1 ++ e1 :: l2 ++ e2 :: l3 ->
  skipped e1 = false -> is_subdir e1 = true -> holds_file fs (start_of e1) n ->
  skipped e2 = false -> is_subdir e2 = true -> holds_file fs (start_of e2) n ->
  init read_blockdev fuel fs root_cl <> Done (fs', true).
Proof.
  intros Hroot (fc & cls & bs & Hc & Hr & ->) Hes Hk1 Hs1 Hh1 Hk2 Hs2 Hh2 Hi. unfold init in Hi.
  destruct (put_directory_node _ _ _ _ _ _) as [[fs1 ok]| |] eqn:E1; simpl in Hi; [|done..].
  apply put_dir_extends in E1 as X1'. destruct X1' as [X1 Hok].
  assert (ok = true) as -> by (unfold put_directory_node in E1; simpl in E1; rewrite Hroot in E1; destruct (new_dir _ _ _ _ _); by simplify_eq/=).
  destruct (Hok eq_refl) as (_ & d & Hd & Hdi & Hdv & Hdc).
  rewrite (cluster_chain_det _ _ _ _ _ _ Hc Hdc) in Hr. rewrite <- (read_disk_data_same fs fs1) in Hr by (by destruct X1 as (? & ? & ? & _)).
  destruct fuel as [|f]; [done|]. simpl in Hi. rewrite (get_dir_Some _ _ _ Hd) in Hi. simpl in Hi. rewrite Hdi, Hr, Hdv in Hi. simpl in Hi.
  set (es := decode_dir bs) in *. set (fs2 := set_dir fs1 [] _) in *.
  assert (elems (append_range vnil es) = es) as Ees by (destruct (append_refines (vnil (A:=fat32_regular_entry)) es); [done|done]).
  rewrite Ees in Hi. assert (extends None fs1 fs2) as X2 by (eapply set_dir_extends; [by apply get_dir_Some|done]).
  assert (is_Some (directory_nodes fs2 !! [])) as Ht by (by eapply extends_dir).
  destruct (parse_entries _ _ _ _ _ _) as [[fs3 err]| |] eqn:Ep; simpl in Hi; [|done..].
  destruct err as [x|]; simpl in Hi.
  - apply parse_entries_extends in Ep as X3; [|apply parse_dir_extends|done]. destruct X3 as (_ & _ & _ & _ & X3).
    destruct (X3 [] (set_dir_data d (append_range vnil es))) as (d3 & Hd3 & Hi3); [subst fs2; simpl; by rewrite lookup_insert_eq|].
    rewrite (get_dir_Some _ _ _ Hd3) in Hi. simpl in Hi. rewrite (Hi3 ltac:(done)) in Hi. simpl in Hi. congruence.
  - rewrite Hes in Ep. apply (parse_entries_subdir _ _ _ _ _ _ _ _ _ n) in Ep as (fs4 & j1 & X4 & _ & Hin & Ep);
      [|done..|by eapply holds_file_extends, holds_file_extends].
    apply (parse_entries_subdir _ _ _ _ _ _ _ _ _ n) in Ep as (fs5 & j2 & _ & Hnone & _ & _);
      [|by eapply extends_dir|done..|by eapply holds_file_extends, holds_file_extends, holds_file_extends].
    rewrite Hnone in Hin. by destruct Hin.
Qed.
End Mount.

(** ** What cannot be removed *)

(** A file whose entry has no long-name entry before it is not unlinked, and nothing
    changes; the files this driver creates have none. *)
Lemma unlink_needs_longname fs this name d i e :
  directory_nodes fs !! this = Some d -> is_Some (directory_tnodes d !! name) -> find_dirent fs this name = Done (Some i) ->
  is_Some (elems (my_dir_data d) !! Z.to_nat i) -> 0 < i -> elems (my_dir_data d) !! Z.to_nat (i - 1) = Some e -> is_longname e = false ->
  unlink fs this name = Done (fs, false).
Proof.
  intros Hd [r Hr] Hf [ei Hei] Hi He Hl. unfold unlink. rewrite (get_dir_Some _ _ _ Hd). simpl. rewrite Hr.
  unfold dir_ent_erase. rewrite Hf. simpl. rewrite (get_dir_Some _ _ _ Hd). simpl. unfold at_.
  destruct (Z.ltb_spec i 0); [lia|]. rewrite Hei. simpl. unfold get_longname_start, at_.
  destruct (Z.ltb_spec (i - 1) 0); [lia|]. rewrite He. simpl. by rewrite Hl.
Qed.

(** Deleting a file whose start cluster was never counted is undefined; only files
    made since the volume was mounted are counted. *)
Lemma delete_uncounted_undefined fuel fs name f :
  file_nodes fs !! name = Some f -> st_cluster_ref_counts fs !! f_cid f = None -> dlfilenode fuel fs name = Undef.
Proof. intros Hf Hn. unfold dlfilenode, get_file, drop_start_cluster. rewrite Hf. simpl. by rewrite Hn. Qed.

(** ** Witnesses *)
Module Volume.
(** A table of twelve clusters of which 2 to 7 are in use and 3, 4 form a chain. *)
Definition eof := fat32_cluster_eof.
Definition table : fat32_allocation_table := MkTable [eof; eof; eof; 4; eof; eof; eof; eof; 0; 0; 0xA0000000; 0] false.
Definition dev_entry (name : str) (attr cl : Z) : list Z :=
  set_filename name ++ [attr; 0; 0; 0; 0; 0; 0; 0; 0; 0; 0; 0; 0; 0; 0; cl; 0; 0; 0; 0; 0].
Definition sector (bs : list Z) : list Z := take 512 (bs ++ replicate 512 0).
(** The root holds directories A and B, and each of them a file F. *)
Definition root_bytes : list Z := sector (dev_entry [65] 16 6 ++ dev_entry [66] 16 7).
Definition sub_bytes (cl : Z) : list Z := sector (dev_entry [70] 32 cl).
Definition device (lba n : Z) : option (list Z) :=
  if lba =? 0 then Some root_bytes else if lba =? 4 then Some (sub_bytes 3) else if lba =? 5 then Some (sub_bytes 5) else None.
Definition volume : fat32 := MkFat 1 0 512 table ∅ ∅ ∅ 3.
Definition dir_a : fat32_regular_entry := entry_of_bytes (dev_entry [65] 16 6).
Definition dir_b : fat32_regular_entry := entry_of_bytes (dev_entry [66] 16 7).
Definition file_f (cl : Z) : fat32_regular_entry := entry_of_bytes (dev_entry [70] 32 cl).
Definition file : fat32_file_vnode := MkFile 3 3 [] 0 [3; 4] 1024 false 700.
Definition full_data : vec fat32_regular_entry := MkVec [file_f 3; file_f 5] 2.

Lemma table_wf : wf table.
Proof. split; [repeat constructor; vm_compute; congruence|vm_compute; congruence]. Qed.
Lemma file_chain : chain table 3 [3; 4].
Proof. apply chain_cons with 4; [done|done|]. by apply chain_last with eof. Qed.
Lemma sub_holds cl sub : cluster_chain 5 table sub = Done [sub] ->
  read_disk_data device volume [sub] = Done (Some (sub_bytes cl)) -> head (decode_dir (sub_bytes cl)) = Some (file_f cl) ->
  skipped (file_f cl) = false -> holds_file device volume sub [70].
Proof.
  intros Hc Hr Hh Hk. exists (decode_dir (sub_bytes cl)), (file_f cl). split_and!; [|by apply head_Some_elem_of|done|done|done].
  by exists 5%nat, [sub], (sub_bytes cl).
Qed.
End Volume.
Import Volume.

Lemma growing_file_forgets_witness :
  exists fs' n' new,
    on_overflow volume file 1000 = Done (fs', n', block_size volume * Z.of_nat (length new)) /\
    f_clusters n' = f_clusters file ++ new /\
    (Z.of_nat (length new) = Z.max 0 (div_round_up 1000 (block_size volume)) \/ (forall m, 3 <= m -> ~ is_free (the_table fs') m)) /\
    (forall x, x ∈ new -> x ∉ f_clusters file /\ ~ is_free (the_table fs') x) /\
    forall fuel, (length (f_clusters file) <= fuel)%nat -> cluster_chain fuel (the_table fs') 3 = Done (f_clusters file).
Proof. apply (growing_file_forgets volume file 1000 3); [exact table_wf|exact file_chain|simpl; set_solver]. Defined.

Definition claimed_8 : fat32_allocation_table := MkTable [eof; eof; eof; 4; eof; eof; eof; eof; eof; 0; 0xA0000000; 0] true.
Lemma release_undoes_cluster_claim_witness :
  cluster_chain 1 claimed_8 8 = Done [8] /\
  exists t2, release_clusters_from 1 claimed_8 8 = Done t2 /\ entries t2 = entries table /\ table_dirty t2 = true.
Proof. apply (release_undoes_cluster_claim table 8 claimed_8 1); [exact table_wf|reflexivity|lia|lia]. Defined.

Lemma full_directory_takes_volume_witness :
  free_clusters table = [8; 9; 10; 11] /\
  exists t' data', first_unused_entry 5 table [6] full_data 512 = Done (inl runtime_error, t', [6] ++ free_clusters table, data') /\
    elems data' = elems full_data /\ free_clusters t' = [].
Proof.
  split; [reflexivity|]. apply (full_directory_takes_volume 5 table [6] full_data 512 6).
  - exact table_wf.
  - reflexivity.
  - intros _. by exists eof.
  - repeat constructor.
  - vm_compute. lia.
Defined.

Lemma short_name_roundtrip_witness :
  set_filename [75; 46; 67] = [75; 32; 32; 32; 32; 32; 32; 32; 67; 32; 32] /\
  length (set_filename (dos_name [75] [67])) = 11%nat /\ parsed_name (set_filename (dos_name [75] [67])) = dos_name [75] [67].
Proof.
  split; [reflexivity|]. apply (short_name_roundtrip [75] [67]); [repeat constructor; done|repeat constructor; done|simpl; lia|simpl; lia].
Defined.

Lemma same_names_fail_mount_witness :
  init device 20 volume 2 <> Done (volume, true).
Proof.
  apply (same_names_fail_mount device 20 volume 2 (decode_dir root_bytes) [] dir_a [] dir_b (drop 2 (decode_dir root_bytes)) [70] volume).
  - reflexivity.
  - exists 5%nat, [2], root_bytes. split_and!; reflexivity.
  - vm_compute. reflexivity.
  - reflexivity.
  - reflexivity.
  - apply (sub_holds 3 6); vm_compute; reflexivity.
  - reflexivity.
  - reflexivity.
  - apply (sub_holds 5 7); vm_compute; reflexivity.
Defined.

(** On that volume mounting fails, with A and its file parsed. *)
Example mount_fails :
  (fun r => match r with Done (fs, b) => (b, elements (dom (file_nodes fs))) | _ => (true, []) end) (init device 20 volume 2) = (false, [[70]]).
Proof. vm_compute. reflexivity. Qed.
End FatProps.
