(* ===== verification/ExtAlloc.v ===== *)
(** Allocation of inodes and blocks in the ext file system (the block groups and the
    allocation functions of kernel/fs/ext/ext.cpp, with the structures of
    common/include/kernel/fs/ext.hpp).

    A block group is the fields of its descriptor that allocation uses and its two
    usage bitmaps, over Bitmap.v.  The superblock is written to the device and a
    group's metadata through the journal: both are an interface ([ExtStore]), since
    allocation uses their answers only.  Checksums are left out. *)
From S2P Require Import Prelude Bitmap.
Import Bitmap.

Module ExtAlloc.

(** ** Data *)
Record block_group_descriptor := MkDesc {
  inode_table_start_block : Z;
  free_blocks_lo : Z;
  free_inodes : Z;
  num_directories : Z;
  free_blocks_hi : Z;
  free_inodes_hi : Z;
  num_directories_hi : Z }.
(** [chain_len] of a bitmap is its length in blocks. *)
Record ext_block_group := MkGroup {
  descr : block_group_descriptor;
  inode_usage_bmp : list Z;
  inode_bmp_chain_len : Z;
  blk_usage_bmp : list Z;
  blk_bmp_chain_len : Z }.
Record ext_superblock := MkSb {
  block_size_shift : Z;
  blocks_per_group_ : Z;
  inodes_per_group_ : Z;
  inode_size_ : Z;
  unallocated_blocks_lo : Z;
  unallocated_blocks_hi : Z;
  unallocated_inodes : Z }.

(** What allocation asks of the device and the journal: [persist_sb] writes the
    superblock; [create_txn] logs the blocks of a group; both say whether they
    succeeded. *)
Class ExtStore (W : Type) := {
  persist_sb : W -> ext_superblock -> W * bool;
  create_txn : W -> Z -> ext_block_group -> W * bool }.

Record extfs (W : Type) := MkExt {
  sb : ext_superblock;
  block_groups : list ext_block_group;
  store : W }.
Arguments MkExt {W} sb block_groups store.
Arguments sb {W} e.
Arguments block_groups {W} e.
Arguments store {W} e.

(** [dword(lo, hi)] and [qword(lo, hi)] *)
Definition dword (lo hi : Z) : Z := lo + 65536 * hi.
Definition qword (lo hi : Z) : Z := lo + 2 ^ 32 * hi.

Section Ext.
Context {W : Type} `{!ExtStore W}.
Implicit Types (fs : extfs W) (g : ext_block_group) (d : block_group_descriptor).

Definition block_size fs : Z := Z.shiftl 1024 (block_size_shift (sb fs)).
Definition inodes_per_group fs : Z := inodes_per_group_ (sb fs).
Definition blocks_per_group fs : Z := blocks_per_group_ (sb fs).
Definition inode_pos_in_group fs (inode_num : Z) : Z := u32 (inode_num - 1) mod inodes_per_group fs.
Definition group_num_for_inode fs (inode : Z) : Z := u64 (inode - 1) / inodes_per_group fs.
Definition inode_block_offset fs (inode : Z) : Z := inode_pos_in_group fs inode * inode_size_ (sb fs).
Definition inode_to_block fs (inode : Z) : outcome Z :=
  let grp := u32 (inode - 1) / inodes_per_group fs in
  let idx := u32 (inode - 1) mod inodes_per_group fs in
  g ← array_get (block_groups fs) grp;
  Done (inode_table_start_block (descr g) + idx * inode_size_ (sb fs) / block_size fs).

Definition set_group fs (i : Z) g : extfs W := MkExt (sb fs) (<[Z.to_nat i := g]> (block_groups fs)) (store fs).
Definition set_descr g d : ext_block_group :=
  MkGroup d (inode_usage_bmp g) (inode_bmp_chain_len g) (blk_usage_bmp g) (blk_bmp_chain_len g).
Definition set_inode_bmp g (bm : list Z) : ext_block_group :=
  MkGroup (descr g) bm (inode_bmp_chain_len g) (blk_usage_bmp g) (blk_bmp_chain_len g).
Definition set_blk_bmp g (bm : list Z) : ext_block_group :=
  MkGroup (descr g) (inode_usage_bmp g) (inode_bmp_chain_len g) bm (blk_bmp_chain_len g).

(** ** Counters *)
Definition has_available_inode d : bool := negb (free_inodes d =? 0) || negb (free_inodes_hi d =? 0).
Definition has_available_blocks d : bool := negb (free_blocks_lo d =? 0) || negb (free_blocks_hi d =? 0).
Definition has_available_blocks_n d (n : Z) : bool := n <=? dword (free_blocks_lo d) (free_blocks_hi d).
Definition add_dirs d (k : Z) : block_group_descriptor :=
  let ct := u32 (dword (num_directories d) (num_directories_hi d) + k) in
  MkDesc (inode_table_start_block d) (free_blocks_lo d) (free_inodes d) (u16 ct) (free_blocks_hi d) (free_inodes_hi d) (ct / 65536).
Definition increment_dir_ct d : block_group_descriptor := add_dirs d 1.
Definition decrement_dir_ct d : block_group_descriptor := add_dirs d (-1).
Definition add_inodes d (k : Z) : block_group_descriptor :=
  let ct := u32 (dword (free_inodes d) (free_inodes_hi d) + k) in
  MkDesc (inode_table_start_block d) (free_blocks_lo d) (u16 ct) (num_directories d) (free_blocks_hi d) (ct / 65536) (num_directories_hi d).
Definition add_blocks d (k : Z) : block_group_descriptor :=
  let ct := u32 (dword (free_blocks_lo d) (free_blocks_hi d) + k) in
  MkDesc (inode_table_start_block d) (u16 ct) (free_inodes d) (num_directories d) (ct / 65536) (free_inodes_hi d) (num_directories_hi d).

Definition write_sb fs (s : ext_superblock) : extfs W * bool :=
  let '(w, ok) := persist_sb (store fs) s in (MkExt s (block_groups fs) w, ok).
Definition update_free_inode_count fs (diff : Z) : extfs W * bool :=
  let s := sb fs in
  write_sb fs (MkSb (block_size_shift s) (blocks_per_group_ s) (inodes_per_group_ s) (inode_size_ s)
    (unallocated_blocks_lo s) (unallocated_blocks_hi s) (u32 (unallocated_inodes s + diff))).
Definition update_free_block_count fs (diff : Z) : extfs W * bool :=
  let s := sb fs in
  let n := u64 (qword (unallocated_blocks_lo s) (unallocated_blocks_hi s) + diff) in
  write_sb fs (MkSb (block_size_shift s) (blocks_per_group_ s) (inodes_per_group_ s) (inode_size_ s)
    (u32 n) (n / 2 ^ 32) (unallocated_inodes s)).
(** [decrement_inode_ct] and [increment_inode_ct]; [alter_available_blocks] *)
Definition alter_inode_ct fs (i : Z) g (diff : Z) : extfs W * bool :=
  update_free_inode_count (set_group fs i (set_descr g (add_inodes (descr g) diff))) diff.
Definition alter_available_blocks fs (i : Z) g (diff : Z) : extfs W * bool :=
  update_free_block_count (set_group fs i (set_descr g (add_blocks (descr g) diff))) diff.
Definition persist_group_metadata fs (i : Z) : extfs W * bool :=
  match block_groups fs !! Z.to_nat i with
  | Some g => let '(w, ok) := create_txn (store fs) i g in (MkExt (sb fs) (block_groups fs) w, ok)
  | None => (fs, false)
  end.

(** ** Inodes *)
Definition bmp_words fs (chain_len : Z) : Z := block_size fs * chain_len / 8.
Fixpoint first_group (P : block_group_descriptor -> bool) (gs : list ext_block_group) (i : Z) : option (Z * ext_block_group) :=
  match gs with
  | [] => None
  | g :: rest => if P (descr g) then Some (i, g) else first_group P rest (i + 1)
  end.
Definition claim_inode fs (dir : bool) : outcome (extfs W * Z) :=
  match first_group has_available_inode (block_groups fs) 0 with
  | None => Done (fs, 0)
  | Some (i, g) =>
      let avail := bitmap_scan_single_zero (inode_usage_bmp g) (bmp_words fs (inode_bmp_chain_len g)) in
      let result := u32 (avail + inodes_per_group fs * i + 1) in
      bm ← or_undef (bitmap_set_bit (inode_usage_bmp g) avail);
      let g1 := set_inode_bmp g bm in
      let g2 := if dir then set_descr g1 (increment_dir_ct (descr g1)) else g1 in
      let '(fs1, ok1) := alter_inode_ct fs i g2 (-1) in
      if negb ok1 then Done (fs1, 0) else
      let '(fs2, ok2) := persist_group_metadata fs1 i in
      Done (fs2, if ok2 : bool then result else 0)
  end.
Definition release_inode fs (num : Z) (dir : bool) : outcome (extfs W * bool) :=
  if num =? 0 then Done (fs, false) else
  let i := num / inodes_per_group fs in
  let bit_off := num mod inodes_per_group fs in
  g ← array_get (block_groups fs) i;
  bm ← or_undef (bitmap_clear_bit (inode_usage_bmp g) bit_off);
  let g1 := set_inode_bmp g bm in
  let g2 := if dir then set_descr g1 (decrement_dir_ct (descr g1)) else g1 in
  let '(fs1, ok1) := alter_inode_ct fs i g2 1 in
  if negb ok1 then Done (fs1, false) else Done (persist_group_metadata fs1 i).

(** ** Blocks *)
Definition run_scan (r : scan_result) : outcome Z :=
  match r with Found p => Done p | OutOfFuel => NoFuel | Undefined => Undef end.
(** The loop of [claim_blocks] up to the block number: the first group that counts
    enough free blocks and whose bitmap has a run of them. *)
Fixpoint find_run (fuel : nat) fs (gs : list ext_block_group) (i how_many : Z) : outcome (option (Z * Z * ext_block_group)) :=
  match gs with
  | [] => Done None
  | g :: rest =>
      if has_available_blocks_n (descr g) how_many then
        avail ← run_scan (bitmap_scan_chain_zeroes fuel (blk_usage_bmp g) (bmp_words fs (blk_bmp_chain_len g)) how_many);
        if avail <? 0 then find_run fuel fs rest (i + 1) how_many else Done (Some (i, avail, g))
      else find_run fuel fs rest (i + 1) how_many
  end.
(** The blocks [claim_blocks] takes for a request: the group and the number of the
    first one, and whether the counters were written. *)
Definition claim_run (fuel : nat) fs (how_many : Z) : outcome (extfs W * option (Z * Z * bool)) :=
  if how_many =? 0 then Done (fs, None) else
  found ← find_run fuel fs (block_groups fs) 0 how_many;
  match found with
  | None => Done (fs, None)
  | Some (i, avail, g) =>
      bm ← or_undef (bitmap_set_chain_bits (blk_usage_bmp g) avail how_many);
      let '(fs1, ok) := alter_available_blocks fs i (set_blk_bmp g bm) (signed 32 (- how_many)) in
      Done (fs1, Some (i, u64 (i * blocks_per_group fs + avail), ok))
  end.
(** [claim_metadata_block]: the block's number. *)
Definition claim_metadata_block fs : outcome (extfs W * option Z) :=
  match first_group has_available_blocks (block_groups fs) 0 with
  | None => Done (fs, None)
  | Some (i, g) =>
      let avail := bitmap_scan_single_zero (blk_usage_bmp g) (bmp_words fs (blk_bmp_chain_len g)) in
      bm ← or_undef (bitmap_set_chain_bits (blk_usage_bmp g) avail 1);
      let '(fs1, ok) := alter_available_blocks fs i (set_blk_bmp g bm) (-1) in
      Done (fs1, if ok : bool then Some (u64 (i * blocks_per_group fs + avail)) else None)
  end.
Definition release_blocks fs (start num : Z) : outcome (extfs W) :=
  let i := start / blocks_per_group fs in
  let off := start mod blocks_per_group fs in
  g ← array_get (block_groups fs) i;
  bm ← or_undef (bitmap_clear_chain_bits (blk_usage_bmp g) off num);
  let '(fs1, _) := alter_available_blocks fs i (set_blk_bmp g bm) (signed 32 num) in
  Done (fst (persist_group_metadata fs1 i)).
End Ext.
End ExtAlloc.
