(* ===== verification/ExtAllocProps.v ===== *)
(** Properties of the allocation of inodes and blocks in the ext file system. *)
From S2P Require Import Prelude Bitmap ExtAlloc.
Import Bitmap ExtAlloc.

Module ExtAllocProps.

(** A device and a journal that take every write. *)
Class StoreWrites (W : Type) `{!ExtStore W} : Prop := {
  persist_sb_ok w s : (persist_sb w s).2 = true;
  create_txn_ok w i g : (create_txn w i g).2 = true }.

Lemma signed_small w x : 0 < w -> - 2 ^ (w - 1) <= x < 2 ^ (w - 1) -> signed w x = x.
Proof.
  intros Hw Hx. unfold signed, wrap. assert (2 ^ w = 2 * 2 ^ (w - 1)) as -> by (rewrite <- Z.pow_succ_r by lia; f_equal; lia).
  destruct (Z.ltb_spec x 0).
  - rewrite <- (Z.mod_add x 1) by lia. rewrite Z.mod_small by lia. case_cmp; lia.
  - rewrite Z.mod_small by lia. case_cmp; lia.
Qed.

Section Props.
Context {W : Type} `{!ExtStore W, !StoreWrites W}.
Implicit Types (fs : extfs W) (g : ext_block_group) (d : block_group_descriptor).

(** ** Writing the counters *)
Lemma write_sb_ok fs s : exists w, write_sb fs s = (MkExt s (block_groups fs) w, true).
Proof.
  unfold write_sb. pose proof (persist_sb_ok (store fs) s) as H. destruct (persist_sb (store fs) s) as [w ok]; simpl in H; subst. by exists w.
Qed.

Definition count_inodes (s : ext_superblock) (diff : Z) : ext_superblock :=
  MkSb (block_size_shift s) (blocks_per_group_ s) (inodes_per_group_ s) (inode_size_ s)
    (unallocated_blocks_lo s) (unallocated_blocks_hi s) (u32 (unallocated_inodes s + diff)).
Definition count_blocks (s : ext_superblock) (diff : Z) : ext_superblock :=
  let n := u64 (qword (unallocated_blocks_lo s) (unallocated_blocks_hi s) + diff) in
  MkSb (block_size_shift s) (blocks_per_group_ s) (inodes_per_group_ s) (inode_size_ s)
    (u32 n) (n / 2 ^ 32) (unallocated_inodes s).

Lemma alter_inode_ct_ok fs i g diff :
  exists w, alter_inode_ct fs i g diff =
    (MkExt (count_inodes (sb fs) diff) (<[Z.to_nat i := set_descr g (add_inodes (descr g) diff)]> (block_groups fs)) w, true).
Proof. unfold alter_inode_ct, update_free_inode_count. apply write_sb_ok. Qed.
Lemma alter_available_blocks_ok fs i g diff :
  exists w, alter_available_blocks fs i g diff =
    (MkExt (count_blocks (sb fs) diff) (<[Z.to_nat i := set_descr g (add_blocks (descr g) diff)]> (block_groups fs)) w, true).
Proof. unfold alter_available_blocks, update_free_block_count. apply write_sb_ok. Qed.
Lemma persist_group_metadata_ok fs i :
  is_Some (block_groups fs !! Z.to_nat i) -> exists w, persist_group_metadata fs i = (MkExt (sb fs) (block_groups fs) w, true).
Proof.
  intros [g Hg]. unfold persist_group_metadata. rewrite Hg. pose proof (create_txn_ok (store fs) i g) as H.
  destruct (create_txn (store fs) i g) as [w ok]; simpl in H; subst. by exists w.
Qed.

(** ** The group that is searched *)
Lemma first_group_spec P gs i :
  match first_group P gs i with
  | None => Forall (fun g => P (descr g) = false) gs
  | Some (k, g) => exists j, k = i + Z.of_nat j /\ gs !! j = Some g /\ P (descr g) = true /\ Forall (fun g => P (descr g) = false) (take j gs)
  end.
Proof.
  revert i. induction gs as [|g gs IH]; intros i; simpl; [constructor|]. destruct (P (descr g)) eqn:E.
  - exists 0%nat. split_and!; [lia|done|done|constructor].
  - specialize (IH (i + 1)). destruct (first_group P gs (i + 1)) as [[k g']|]; [|by constructor].
    destruct IH as (j & -> & ? & ? & ?). exists (S j). split_and!; [lia|done|done|by constructor].
Qed.

Lemma first_group_here P gs j g i :
  gs !! j = Some g -> P (descr g) = true -> Forall (fun g => P (descr g) = false) (take j gs) ->
  first_group P gs i = Some (i + Z.of_nat j, g).
Proof.
  revert j i. induction gs as [|g' gs IH]; intros [|j] i Hj HP Hf; simplify_eq/=; [by rewrite HP, Z.add_0_r|].
  apply Forall_cons in Hf as [-> Hf]. rewrite (IH j (i + 1)) by done. do 2 f_equal. lia.
Qed.

(** A bitmap that covers the items of its group. *)
Definition bmp_ok (bm : list Z) (words items : Z) : Prop :=
  Bitmap.wf bm /\ 0 <= words <= Z.of_nat (length bm) /\ items <= ulsize * words.

Lemma scan_finds bm words items b :
  bmp_ok bm words items -> 0 <= b < items -> bit bm b = false -> (forall q, 0 <= q < b -> bit bm q = true) ->
  bitmap_scan_single_zero bm words = b.
Proof.
  intros (Hwf & Hw & Hi) Hb Hz Hlow. destruct (scan_single_zero_first bm words Hwf Hw) as [[_ Hall]|(Hr & Hz' & Hlow')].
  - rewrite Hall in Hz by lia. done.
  - set (r := bitmap_scan_single_zero bm words) in *. destruct (Z.lt_trichotomy r b) as [Hlt|[?|Hlt]]; [|done|].
    + rewrite Hlow in Hz' by lia. done.
    + rewrite Hlow' in Hz by lia. done.
Qed.

(** The counts of a descriptor after they have been altered. *)
Lemma dword_split x : dword (u16 x) (x / 65536) = x.
Proof. unfold dword, wrap. change (2 ^ 16) with 65536. zlia. Qed.
Lemma has_available_inode_count d :
  dword (free_inodes d) (free_inodes_hi d) <> 0 -> has_available_inode d = true.
Proof. unfold dword, has_available_inode. intros. case_cmp; simpl; done || lia. Qed.

(** ** Inodes *)

(** The inode with bit [b] in group [i]. *)
Definition inode_of fs (i b : Z) : Z := inodes_per_group fs * i + b + 1.
Definition claim_bit g (b : Z) (bm : list Z) (dir : bool) : ext_block_group :=
  let g1 := set_inode_bmp g bm in
  let g2 := if dir then set_descr g1 (increment_dir_ct (descr g1)) else g1 in
  set_descr g2 (add_inodes (descr g2) (-1)).

(** Claiming an inode, in the first group that counts one as free. *)
Lemma claim_inode_spec fs dir j g b :
  block_groups fs !! j = Some g -> has_available_inode (descr g) = true ->
  Forall (fun g => has_available_inode (descr g) = false) (take j (block_groups fs)) ->
  bmp_ok (inode_usage_bmp g) (bmp_words fs (inode_bmp_chain_len g)) (inodes_per_group fs) ->
  0 <= b < inodes_per_group fs -> bit (inode_usage_bmp g) b = false -> (forall q, 0 <= q < b -> bit (inode_usage_bmp g) q = true) ->
  is_u32 (inode_of fs (Z.of_nat j) b) ->
  exists fs' bm, claim_inode fs dir = Done (fs', inode_of fs (Z.of_nat j) b) /\
    block_groups fs' = <[j := claim_bit g b bm dir]> (block_groups fs) /\ sb fs' = count_inodes (sb fs) (-1) /\
    Bitmap.wf bm /\ length bm = length (inode_usage_bmp g) /\ forall q, 0 <= q -> bit bm q = bit (inode_usage_bmp g) q || (q =? b).
Proof.
  intros Hg Hav Hbefore Hbmp Hb Hz Hlow Hu. unfold claim_inode. rewrite (first_group_here _ _ _ _ _ Hg Hav Hbefore), Z.add_0_l. simpl.
  rewrite (scan_finds _ _ _ _ Hbmp Hb Hz Hlow). destruct Hbmp as (Hwf & Hw & Hi).
  destruct (set_bit_ok (inode_usage_bmp g) b Hwf) as (bm & -> & Hwf' & Hl & Hbit); [unfold nbits, ulsize in *; lia|]. simpl.
  set (g2 := if dir then _ else _). destruct (alter_inode_ct_ok fs (Z.of_nat j) g2 (-1)) as [w ->]. simpl.
  match goal with |- context [persist_group_metadata ?f _] => destruct (persist_group_metadata_ok f (Z.of_nat j)) as [w' ->] end.
  { simpl. rewrite Nat2Z.id, list_lookup_insert_eq; [eauto|by eapply lookup_lt_Some]. }
  replace (u32 _) with (inode_of fs (Z.of_nat j) b).
  2:{ rewrite wrap_small; unfold inode_of in *; [lia|]. replace (b + _ + 1) with (inodes_per_group fs * Z.of_nat j + b + 1) by lia. done. }
  do 2 eexists. split; [done|]. simpl. rewrite Nat2Z.id. split_and!; done.
Qed.

(** C18: An inode is claimed in the first group that counts one as free: it is the first inode of
    the group whose bit is clear, its bit is set, the counts of the group and of the
    file system go down, and no other bit or group changes. *)
Theorem claim_inode_correct fs dir j g b :
  block_groups fs !! j = Some g -> has_available_inode (descr g) = true ->
  Forall (fun g => has_available_inode (descr g) = false) (take j (block_groups fs)) ->
  bmp_ok (inode_usage_bmp g) (bmp_words fs (inode_bmp_chain_len g)) (inodes_per_group fs) ->
  0 <= b < inodes_per_group fs -> bit (inode_usage_bmp g) b = false -> (forall q, 0 <= q < b -> bit (inode_usage_bmp g) q = true) ->
  is_u32 (inode_of fs (Z.of_nat j) b) ->
  exists fs' num g', claim_inode fs dir = Done (fs', num) /\
    group_num_for_inode fs num = Z.of_nat j /\ inode_pos_in_group fs num = b /\
    block_groups fs' = <[j := g']> (block_groups fs) /\
    (forall q, 0 <= q -> bit (inode_usage_bmp g') q = bit (inode_usage_bmp g) q || (q =? b)) /\
    dword (free_inodes (descr g')) (free_inodes_hi (descr g')) = u32 (dword (free_inodes (descr g)) (free_inodes_hi (descr g)) - 1) /\
    unallocated_inodes (sb fs') = u32 (unallocated_inodes (sb fs) - 1) /\ blk_usage_bmp g' = blk_usage_bmp g.
Proof.
  intros Hg Hav Hbefore Hbmp Hb Hz Hlow Hu.
  destruct (claim_inode_spec fs dir j g b) as (fs' & bm & E & Hgs & Hsb & _ & _ & Hbit); try done.
  exists fs', (inode_of fs (Z.of_nat j) b), (claim_bit g b bm dir). rewrite E, Hgs, Hsb.
  assert (0 <= inodes_per_group fs * Z.of_nat j) by nia.
  split_and!; [done| | |done| | |done|by destruct dir].
  - unfold group_num_for_inode. rewrite wrap_small by (unfold in_range, inode_of in *; lia). unfold inode_of.
    symmetry. apply Z.div_unique with b; [lia|]. lia.
  - unfold inode_pos_in_group. rewrite wrap_small by (unfold in_range, inode_of in *; lia). unfold inode_of.
    symmetry. apply Z.mod_unique with (Z.of_nat j); [lia|]. lia.
  - intros q Hq. destruct dir; simpl; by apply Hbit.
  - destruct dir; apply dword_split.
Qed.

Definition free_inode_count g : Z := dword (free_inodes (descr g)) (free_inodes_hi (descr g)).
Definition release_bit g (bm : list Z) (dir : bool) : ext_block_group :=
  let g1 := set_inode_bmp g bm in
  let g2 := if dir then set_descr g1 (decrement_dir_ct (descr g1)) else g1 in
  set_descr g2 (add_inodes (descr g2) 1).
Lemma release_bit_count g bm dir : free_inode_count (release_bit g bm dir) = u32 (free_inode_count g + 1).
Proof. destruct dir; apply dword_split. Qed.

(** Releasing an inode clears the bit at its number modulo the size of a group. *)
Lemma release_inode_spec fs num dir g :
  let j := Z.to_nat (num / inodes_per_group fs) in let b := num mod inodes_per_group fs in
  0 < num -> 0 < inodes_per_group fs -> block_groups fs !! j = Some g ->
  Bitmap.wf (inode_usage_bmp g) -> inodes_per_group fs <= nbits (inode_usage_bmp g) ->
  exists fs' bm, release_inode fs num dir = Done (fs', true) /\
    block_groups fs' = <[j := release_bit g bm dir]> (block_groups fs) /\ sb fs' = count_inodes (sb fs) 1 /\
    Bitmap.wf bm /\ length bm = length (inode_usage_bmp g) /\ forall q, 0 <= q -> bit bm q = bit (inode_usage_bmp g) q && negb (q =? b).
Proof.
  intros j b Hn Hp Hg Hwf Hlen. unfold release_inode. destruct (Z.eqb_spec num 0); [lia|].
  pose proof (Z.mod_pos_bound num _ Hp). pose proof (Z.div_pos num _ ltac:(lia) Hp).
  assert (array_get (block_groups fs) (num / inodes_per_group fs) = Done g) as -> by by apply array_get_Done. simpl.
  change (num mod inodes_per_group fs) with b. destruct (clear_bit_ok (inode_usage_bmp g) b Hwf) as (bm & -> & Hwf' & Hl & Hbit); [subst b; lia|]. simpl.
  set (g2 := if dir then _ else _). destruct (alter_inode_ct_ok fs (num / inodes_per_group fs) g2 1) as [w ->]. simpl.
  match goal with |- context [persist_group_metadata ?f _] => destruct (persist_group_metadata_ok f (num / inodes_per_group fs)) as [w' ->] end.
  { simpl. rewrite list_lookup_insert_eq; [eauto|by eapply lookup_lt_Some]. }
  do 2 eexists. split; [done|]. simpl. split_and!; done.
Qed.

(** Releasing an inode gives away its neighbour: [release_inode] takes the number of the inode
    for the number of its bit, so the inode it is given stays marked as used, while
    the bit of the next inode is cleared; the next claim returns that inode, which is
    in use. *)
Theorem release_inode_frees_neighbour fs num dir dir' g :
  let j := Z.to_nat (num / inodes_per_group fs) in let b := num mod inodes_per_group fs in
  0 < num -> 1 <= b -> block_groups fs !! j = Some g ->
  Forall (fun g => has_available_inode (descr g) = false) (take j (block_groups fs)) ->
  bmp_ok (inode_usage_bmp g) (bmp_words fs (inode_bmp_chain_len g)) (inodes_per_group fs) -> 0 < inodes_per_group fs ->
  (forall q, 0 <= q <= b -> bit (inode_usage_bmp g) q = true) ->
  0 <= free_inode_count g < 2 ^ 32 - 1 -> is_u32 (num + 1) ->
  exists fs' fs'' g', release_inode fs num dir = Done (fs', true) /\ block_groups fs' !! j = Some g' /\
    bit (inode_usage_bmp g') (inode_pos_in_group fs num) = true /\
    bit (inode_usage_bmp g) (inode_pos_in_group fs (num + 1)) = true /\
    claim_inode fs' dir' = Done (fs'', num + 1).
Proof.
  intros j b Hn Hb Hg Hbefore (Hwf & Hw & Hi) Hp Hused Hct Hu.
  pose proof (Z.mod_pos_bound num _ Hp) as Hmod. pose proof (Z.div_pos num _ ltac:(lia) Hp) as Hdiv. pose proof (Z.div_mod num (inodes_per_group fs) ltac:(lia)) as Hdm.
  destruct (release_inode_spec fs num dir g) as (fs' & bm & E & Hgs & Hsb & Hwf' & Hl & Hbit); try done.
  { unfold nbits, ulsize in *. lia. }
  fold j in Hgs. fold b in Hbit.
  assert (block_groups fs' !! j = Some (release_bit g bm dir)) as Hg'.
  { rewrite Hgs. apply list_lookup_insert_eq. by eapply lookup_lt_Some. }
  assert (inodes_per_group fs' = inodes_per_group fs) as Hipg by (unfold inodes_per_group; by rewrite Hsb).
  assert (block_size fs' = block_size fs) as Hbs by (unfold block_size; by rewrite Hsb).
  assert ((inode_pos_in_group fs num = b - 1) /\ (inode_pos_in_group fs (num + 1) = b)) as [Hpos Hpos'].
  { unfold inode_pos_in_group. rewrite !wrap_small by (unfold in_range in *; lia). split.
    - symmetry. apply Z.mod_unique with (num / inodes_per_group fs); subst b; lia.
    - subst b. f_equal. lia. }
  assert (inode_of fs' (Z.of_nat j) b = num + 1) as Hnum by (unfold inode_of; rewrite Hipg; subst j b; lia).
  destruct (claim_inode_spec fs' dir' j (release_bit g bm dir) b) as (fs'' & ? & E' & _); try done.
  - apply has_available_inode_count. change (free_inode_count (release_bit g bm dir) <> 0).
    rewrite release_bit_count, wrap_small by (unfold in_range; lia). lia.
  - rewrite Hgs, take_insert_ge by lia. done.
  - unfold bmp_ok, bmp_words. rewrite Hipg, Hbs. replace (inode_usage_bmp (release_bit g bm dir)) with bm by by destruct dir.
    replace (inode_bmp_chain_len (release_bit g bm dir)) with (inode_bmp_chain_len g) by by destruct dir. rewrite Hl. done.
  - rewrite Hipg. subst b. lia.
  - replace (inode_usage_bmp (release_bit g bm dir)) with bm by by destruct dir. rewrite Hbit, Z.eqb_refl, andb_false_r by lia. done.
  - intros q Hq. replace (inode_usage_bmp (release_bit g bm dir)) with bm by by destruct dir.
    rewrite Hbit, Hused by lia. case_cmp; simpl; done || lia.
  - by rewrite Hnum.
  - rewrite Hnum in E'. exists fs', fs'', (release_bit g bm dir). rewrite Hpos, Hpos'. split_and!; try done.
    + replace (inode_usage_bmp (release_bit g bm dir)) with bm by by destruct dir. rewrite Hbit, Hused by lia. case_cmp; simpl; done || lia.
    + apply Hused. lia.
Qed.

(** ** Blocks *)
Definition take_blocks g (bm : list Z) (n : Z) : ext_block_group :=
  let g1 := set_blk_bmp g bm in set_descr g1 (add_blocks (descr g1) n).

(** The group a run is taken from: the first that counts enough free blocks, if its
    bitmap is found to have a run. *)
Lemma find_run_here fuel fs gs n j g i r :
  gs !! j = Some g -> has_available_blocks_n (descr g) n = true ->
  Forall (fun g => has_available_blocks_n (descr g) n = false) (take j gs) ->
  bitmap_scan_chain_zeroes fuel (blk_usage_bmp g) (bmp_words fs (blk_bmp_chain_len g)) n = Found r -> 0 <= r ->
  find_run fuel fs gs i n = Done (Some (i + Z.of_nat j, r, g)).
Proof.
  revert j i. induction gs as [|g' gs IH]; intros [|j] i Hj HP Hf Hs Hr; simplify_eq/=.
  - rewrite HP, Hs. simpl. destruct (Z.ltb_spec r 0); [lia|]. by rewrite Z.add_0_r.
  - apply Forall_cons in Hf as [-> Hf]. rewrite (IH j (i + 1)) by done. do 4 f_equal. lia.
Qed.

(** A run that the scan finds is marked in the bitmap and taken off the counts. *)
Lemma claim_run_spec fuel fs n j g r bm :
  block_groups fs !! j = Some g -> 1 <= n < 2 ^ 31 -> has_available_blocks_n (descr g) n = true ->
  Forall (fun g => has_available_blocks_n (descr g) n = false) (take j (block_groups fs)) ->
  bitmap_scan_chain_zeroes fuel (blk_usage_bmp g) (bmp_words fs (blk_bmp_chain_len g)) n = Found r -> 0 <= r ->
  bitmap_set_chain_bits (blk_usage_bmp g) r n = Some bm ->
  exists w, claim_run fuel fs n =
    Done (MkExt (count_blocks (sb fs) (- n)) (<[j := take_blocks g bm (- n)]> (block_groups fs)) w,
      Some (Z.of_nat j, u64 (Z.of_nat j * blocks_per_group fs + r), true)).
Proof.
  intros Hg Hn Hav Hbefore Hs Hr Hset. unfold claim_run. destruct (Z.eqb_spec n 0); [lia|].
  rewrite (find_run_here _ _ _ _ _ _ _ _ Hg Hav Hbefore Hs Hr), Z.add_0_l. cbn -[alter_available_blocks wrap signed bitmap_set_chain_bits]. rewrite Hset. cbn -[alter_available_blocks wrap signed].
  replace (signed 32 (- n)) with (- n) by (rewrite signed_small; lia).
  destruct (alter_available_blocks_ok fs (Z.of_nat j) (set_blk_bmp g bm) (- n)) as [w ->]. exists w. by rewrite Nat2Z.id.
Qed.

(** The scan for a run of fewer than 64 blocks stops at the first word when the top bits
    of the word are clear. *)
Lemma scan_top_bits fuel bm words n w :
  1 < n < 64 -> 1 <= words -> word_at bm 0 = Some w -> is_u64 w -> (forall q, 64 - n <= q < 64 -> Z.testbit w q = false) ->
  bitmap_scan_chain_zeroes fuel bm words n = Found 0.
Proof.
  intros Hn Hw Hat Hr Htop. unfold bitmap_scan_chain_zeroes. destruct (Z.eqb_spec n 1); [lia|].
  destruct (Z.ltb_spec ulsize n); [unfold ulsize in *; lia|]. destruct bm as [|w' bm]; [done|]. injection Hat as [= ->].
  destruct (Z.to_nat words) as [|k] eqn:Ek; [lia|]. cbn [take scan_in_words]. destruct (Z.eqb_spec n ulsize); [unfold ulsize in *; lia|]. simpl.
  destruct (Z.to_nat (ulsize - n)) as [|c] eqn:Ec; [unfold ulsize in *; lia|]. cbn [scan_shifts]. rewrite Z.shiftl_0_r.
  replace (Z.land w _) with 0; [done|]. symmetry. apply Z.bits_inj'. intros q Hq. rewrite Z.land_spec, Z.bits_0.
  destruct (Z.ltb_spec q (64 - n)) as [Hlow|Hhigh].
  - replace (Z.testbit (u64 _) q) with false; [apply andb_false_r|]. unfold wrap, bnot. rewrite Z.mod_pow2_bits_low by lia.
    rewrite Z.lxor_spec, Z.shiftr_spec, !Z.ones_spec_low by lia. done.
  - destruct (Z.ltb_spec q 64); [by rewrite Htop by lia|]. by rewrite (in_range_testbit 64 w) by (done || lia).
Qed.

(** A run of 2 to 63 blocks is taken without a look at the blocks in it: [claim_blocks] gets the
    first blocks of the group whenever the last bits of the first word of the bitmap
    are clear, also when those first blocks are in use. *)
Theorem claim_run_takes_used_blocks fuel fs n j g w :
  block_groups fs !! j = Some g -> 1 < n < 64 -> has_available_blocks_n (descr g) n = true ->
  Forall (fun g => has_available_blocks_n (descr g) n = false) (take j (block_groups fs)) ->
  Bitmap.wf (blk_usage_bmp g) -> 1 <= bmp_words fs (blk_bmp_chain_len g) -> word_at (blk_usage_bmp g) 0 = Some w ->
  (forall q, 64 - n <= q < 64 -> bit (blk_usage_bmp g) q = false) ->
  is_u64 (Z.of_nat j * blocks_per_group fs) ->
  exists fs' g', claim_run fuel fs n = Done (fs', Some (Z.of_nat j, Z.of_nat j * blocks_per_group fs, true)) /\
    block_groups fs' = <[j := g']> (block_groups fs) /\
    (forall q, 0 <= q -> bit (blk_usage_bmp g') q = bit (blk_usage_bmp g) q || (q <? n)).
Proof.
  intros Hg Hn Hav Hbefore Hwf Hwords Hw Htop Hu.
  assert (is_u64 w) as Hwr by by eapply word_at_range.
  assert (1 <= Z.of_nat (length (blk_usage_bmp g))) as Hlen by (destruct (blk_usage_bmp g); [done|simpl; lia]).
  destruct (set_chain_rec_ok (set_chain_fuel n) (blk_usage_bmp g) 0 n) as (bm & Hset & Hwf' & Hl & Hb); try done; try lia.
  { unfold nbits, ulsize. lia. }
  { right. unfold ulsize. rewrite Z.mod_0_l; lia. }
  { unfold set_chain_fuel, ulsize. simpl. zlia. }
  destruct (claim_run_spec fuel fs n j g 0 bm) as [w' E]; try done; try lia.
  { eapply scan_top_bits; try done. intros q Hq. rewrite <- (Htop q Hq). unfold bit.
    rewrite (Z.div_small q), Hw, Z.mod_small by (unfold ulsize; lia). done. }
  rewrite Z.add_0_r, (wrap_small 64) in E by done. do 2 eexists. split; [exact E|]. split; [done|].
  intros q Hq. simpl. rewrite Hb by done. f_equal. case_cmp; simpl; done || lia.
Qed.

Lemma add_blocks_undo d k :
  in_range 16 (free_blocks_lo d) -> in_range 16 (free_blocks_hi d) -> add_blocks (add_blocks d (- k)) k = d.
Proof.
  intros Hlo Hhi. destruct d as [its lo fi nd hi fih ndh]. unfold add_blocks, dword, in_range, wrap in *. simpl in *.
  change (2 ^ 16) with 65536 in *. change (2 ^ 32) with 4294967296. f_equal; zlia.
Qed.
Lemma count_blocks_undo s k :
  in_range 32 (unallocated_blocks_lo s) -> in_range 32 (unallocated_blocks_hi s) -> count_blocks (count_blocks s (- k)) k = s.
Proof.
  intros Hlo Hhi. destruct s as [a b c d lo hi i]. unfold count_blocks, qword, in_range, wrap in *. simpl in *.
  change (2 ^ 32) with 4294967296 in *. change (2 ^ 64) with 18446744073709551616. f_equal; zlia.
Qed.

(** A single block is claimed and released without loss: the block is the first free one of the
    first group that counts one, its bit is set, and releasing it gives back the
    bitmap, the counts of the group and those of the file system. *)
Theorem claim_release_block fuel fs j g b :
  block_groups fs !! j = Some g -> has_available_blocks_n (descr g) 1 = true ->
  Forall (fun g => has_available_blocks_n (descr g) 1 = false) (take j (block_groups fs)) ->
  bmp_ok (blk_usage_bmp g) (bmp_words fs (blk_bmp_chain_len g)) (blocks_per_group fs) ->
  0 <= b < blocks_per_group fs -> bit (blk_usage_bmp g) b = false -> (forall q, 0 <= q < b -> bit (blk_usage_bmp g) q = true) ->
  in_range 16 (free_blocks_lo (descr g)) -> in_range 16 (free_blocks_hi (descr g)) ->
  in_range 32 (unallocated_blocks_lo (sb fs)) -> in_range 32 (unallocated_blocks_hi (sb fs)) ->
  is_u64 (Z.of_nat j * blocks_per_group fs + b) ->
  let n := Z.of_nat j * blocks_per_group fs + b in
  exists fs1 fs2 g1, claim_run fuel fs 1 = Done (fs1, Some (Z.of_nat j, n, true)) /\ block_groups fs1 !! j = Some g1 /\
    (forall q, 0 <= q -> bit (blk_usage_bmp g1) q = bit (blk_usage_bmp g) q || (q =? b)) /\
    release_blocks fs1 n 1 = Done fs2 /\ block_groups fs2 = block_groups fs /\ sb fs2 = sb fs.
Proof.
  intros Hg Hav Hbefore Hbmp Hb Hz Hlow Hlo Hhi Hslo Hshi Hu n. pose proof (scan_finds _ _ _ _ Hbmp Hb Hz Hlow) as Hs.
  destruct Hbmp as (Hwf & Hw & Hi). assert (0 <= b < nbits (blk_usage_bmp g)) as Hbn by (unfold nbits, ulsize in *; lia).
  destruct (set_clear_roundtrip (blk_usage_bmp g) b Hwf Hbn Hz) as (bm & Hset & Hbit & Hclear).
  destruct (claim_run_spec fuel fs 1 j g b bm) as [w E]; try done; try lia.
  { unfold bitmap_scan_chain_zeroes. by rewrite Hs. }
  rewrite (wrap_small 64) in E by done. set (fs1 := MkExt _ _ w) in E.
  assert (j < length (block_groups fs))%nat as Hj by by eapply lookup_lt_Some.
  assert (block_groups fs1 !! j = Some (take_blocks g bm (-1))) as Hg1 by by apply list_lookup_insert_eq.
  enough (exists fs2, release_blocks fs1 n 1 = Done fs2 /\ block_groups fs2 = block_groups fs /\ sb fs2 = sb fs) as (fs2 & ? & ? & ?).
  { by exists fs1, fs2, (take_blocks g bm (-1)). }
  assert (n / blocks_per_group fs = Z.of_nat j) as Hd by (symmetry; apply Z.div_unique with b; subst n; lia).
  assert (n mod blocks_per_group fs = b) as Hm by (symmetry; apply Z.mod_unique with (Z.of_nat j); subst n; lia).
  unfold release_blocks. change (blocks_per_group fs1) with (blocks_per_group fs). rewrite Hd, Hm.
  rewrite (proj2 (array_get_Done _ _ (take_blocks g bm (-1)))) by (rewrite Nat2Z.id; split; [lia|done]).
  cbn -[alter_available_blocks wrap signed bitmap_clear_chain_bits persist_group_metadata]. unfold bitmap_clear_chain_bits. simpl (1 =? 1). rewrite Hclear.
  cbn -[alter_available_blocks wrap signed persist_group_metadata]. change (signed 32 1) with 1.
  match goal with |- context [alter_available_blocks ?f ?i ?g 1] => destruct (alter_available_blocks_ok f i g 1) as [w' ->] end.
  match goal with |- context [persist_group_metadata ?f ?i] => destruct (persist_group_metadata_ok f i) as [w2 ->] end.
  { simpl. rewrite Nat2Z.id, list_lookup_insert_eq; [eauto|]. by rewrite length_insert. }
  eexists. split; [done|]. cbn [block_groups sb fst fs1]. rewrite Nat2Z.id, list_insert_insert_eq. split.
  - apply list_insert_id. rewrite Hg. f_equal. unfold take_blocks, set_descr, set_blk_bmp. simpl. change (-1) with (- (1)).
    rewrite (add_blocks_undo (descr g) 1) by done. by destruct g.
  - apply (count_blocks_undo (sb fs) 1); done.
Qed.
End Props.

(** ** Witnesses: two groups of 1024-byte blocks, the first of them full *)
Module Disk.
#[export] Instance unit_store : ExtStore unit := {| persist_sb w _ := (w, true); create_txn w _ _ := (w, true) |}.
#[export] Instance unit_store_writes : StoreWrites unit.
Proof. split; done. Qed.
Definition map_of (w : Z) : list Z := w :: replicate 127 0.
Definition full_group : ext_block_group := MkGroup (MkDesc 20 0 0 0 0 0 0) (map_of (Z.ones 64)) 1 (map_of (Z.ones 64)) 1.
Definition half_group : ext_block_group := MkGroup (MkDesc 40 100 60 1 0 0 0) (map_of 7) 1 (map_of 7) 1.
Definition disk : extfs unit := MkExt (MkSb 0 8192 64 128 100 0 60) [full_group; half_group] ().

Lemma map_of_wf w : is_u64 w -> Bitmap.wf (map_of w).
Proof. intros. constructor; [done|]. apply Forall_replicate. done. Qed.
Lemma map_of_ok w items : is_u64 w -> items <= 8192 -> bmp_ok (map_of w) (bmp_words disk 1) items.
Proof. intros. split; [by apply map_of_wf|]. split; [vm_compute; split; congruence|]. change (ulsize * bmp_words disk 1) with 8192. done. Qed.
Lemma map_of_low q : 0 <= q < 3 -> bit (map_of 7) q = true.
Proof. intros Hq. assert (q = 0 \/ q = 1 \/ q = 2) as [-> | [-> | ->]] by lia; reflexivity. Qed.
End Disk.

Import Disk.
Lemma claim_inode_correct_witness :
  exists fs' num g', claim_inode disk false = Done (fs', num) /\ group_num_for_inode disk num = 1 /\ inode_pos_in_group disk num = 3 /\
    block_groups fs' = [full_group; g'] /\ (forall q, 0 <= q -> bit (inode_usage_bmp g') q = bit (map_of 7) q || (q =? 3)).
Proof.
  destruct (claim_inode_correct disk false 1 half_group 3) as (fs' & num & g' & E & ? & ? & ? & ? & _);
    [reflexivity|reflexivity|by repeat constructor|by apply map_of_ok|done|reflexivity|apply map_of_low|done|].
  by exists fs', num, g'.
Defined.

Lemma release_inode_frees_neighbour_witness :
  exists fs' fs'' g', release_inode disk 66 false = Done (fs', true) /\ block_groups fs' !! 1%nat = Some g' /\
    bit (inode_usage_bmp g') 1 = true /\ bit (inode_usage_bmp half_group) 2 = true /\ claim_inode fs' false = Done (fs'', 67).
Proof.
  apply (release_inode_frees_neighbour disk 66 false false half_group);
    [done|done|reflexivity|by repeat constructor|by apply map_of_ok|done| |done|done].
  intros q Hq. apply map_of_low. change (66 mod inodes_per_group disk) with 2 in Hq. lia.
Defined.

Lemma claim_run_takes_used_blocks_witness :
  bit (blk_usage_bmp half_group) 0 = true /\
  exists fs' g', claim_run 10 disk 4 = Done (fs', Some (1, 8192, true)) /\ block_groups fs' = [full_group; g'] /\
    (forall q, 0 <= q -> bit (blk_usage_bmp g') q = bit (map_of 7) q || (q <? 4)).
Proof.
  split; [reflexivity|].
  apply (claim_run_takes_used_blocks 10 disk 4 1 half_group 7);
    [reflexivity|done|reflexivity|by repeat constructor|by apply map_of_wf|done|reflexivity| |done].
  intros q Hq. assert (q = 60 \/ q = 61 \/ q = 62 \/ q = 63) as [-> | [-> | [-> | ->]]] by lia; reflexivity.
Defined.

Lemma claim_release_block_witness :
  exists fs1 fs2 g1, claim_run 10 disk 1 = Done (fs1, Some (1, 8195, true)) /\ block_groups fs1 !! 1%nat = Some g1 /\
    (forall q, 0 <= q -> bit (blk_usage_bmp g1) q = bit (map_of 7) q || (q =? 3)) /\
    release_blocks fs1 8195 1 = Done fs2 /\ block_groups fs2 = block_groups disk /\ sb fs2 = sb disk.
Proof.
  apply (claim_release_block 10 disk 1 half_group 3);
    [reflexivity|reflexivity|by repeat constructor|by apply map_of_ok|done|reflexivity|apply map_of_low|done..].
Defined.
End ExtAllocProps.
