(* ===== verification/ExtExtent.v ===== *)
(** The extent tree of a node of the ext file system (kernel/fs/ext/ext_extent_tree.cpp,
    with [claim_blocks] and [claim_metadata_block] of kernel/fs/ext/ext.cpp), over the
    allocation of ExtAlloc.v and the vectors of Vec.v.

    The root of the tree in the inode is 15 words of 32 bits, read as block
    pointers or as a header and four nodes, like the union of the source; a block of
    the tree is the words of its buffer.  A pointer to an element of a vector is
    its offset and the capacity of the vector when the pointer was taken: growing a
    vector moves its elements, so the pointer is valid as long as the capacity is the
    same, and its use is undefined afterwards.  The device, the journal and the
    checksum of a block are an interface. *)
From S2P Require Import Prelude Bitmap Vec ExtAlloc.
Import Vec ExtAlloc.

Module ExtExtent.

(** ** Data *)
Definition ext_extent_magic : Z := 0xF30A.
Record disk_block := MkBlk { block_number : Z; dirty : bool; chain_len : Z }.
(** A block of the tree with its buffer. *)
Record meta_block := MkMeta { mnumber : Z; mwords : list Z; mdirty : bool }.
(** [blk_offset] is unknown when it was computed from a stale pointer. *)
Record cached_extent_node := MkCen { blk_offset : option Z; depth : Z; next_level_extents : gmap Z Z }.

(** [read_words] is the contents of a block, or nothing when the read fails;
    [log_inode] is [persist_inode]; [extent_csum] is the checksum of a block of the tree. *)
Class ExtDevice (W : Type) := {
  read_words : W -> Z -> option (list Z);
  log_inode : W -> list Z -> W * bool;
  extent_csum : W -> list Z -> Z }.

(** A node with its tree; [root] is the [block_info] of its inode. *)
Record enode (W : Type) := MkNode {
  efs : extfs W;
  root : list Z;
  use_extents : bool;
  blocks_count : Z * Z;
  block_data : vec disk_block;
  cached_metadata : vec meta_block;
  tracked_extents : vec cached_extent_node;
  base_depth : Z;
  total_extent : Z;
  base_extent_level : gmap Z Z;
  has_init : bool }.
Arguments MkNode {W} efs root use_extents blocks_count block_data cached_metadata tracked_extents base_depth total_extent base_extent_level has_init.
Arguments efs {W} e.
Arguments root {W} e.
Arguments use_extents {W} e.
Arguments blocks_count {W} e.
Arguments block_data {W} e.
Arguments cached_metadata {W} e.
Arguments tracked_extents {W} e.
Arguments base_depth {W} e.
Arguments total_extent {W} e.
Arguments base_extent_level {W} e.
Arguments has_init {W} e.

(** ** Headers and nodes as words *)
Definition hdr_magic (ws : list Z) : outcome Z := w ← array_get ws 0; Done (w mod 65536).
Definition hdr_entries (ws : list Z) : outcome Z := w ← array_get ws 0; Done (w / 65536).
Definition hdr_max_entries (ws : list Z) : outcome Z := w ← array_get ws 1; Done (w mod 65536).
Definition hdr_depth (ws : list Z) : outcome Z := w ← array_get ws 1; Done (w / 65536).
Definition set_hdr_entries (ws : list Z) (e : Z) : outcome (list Z) :=
  w ← array_get ws 0; array_set ws 0 (w mod 65536 + 65536 * u16 e).
Definition set_hdr_depth (ws : list Z) (d : Z) : outcome (list Z) :=
  w ← array_get ws 1; array_set ws 1 (w mod 65536 + 65536 * u16 d).
Definition node_start (i : Z) : Z := 3 + 3 * i.
(** [ext_extent_leaf]: start in the file, length and first block. *)
Definition leaf_at (ws : list Z) (i : Z) : outcome (Z * Z * Z) :=
  w0 ← array_get ws (node_start i); w1 ← array_get ws (node_start i + 1); w2 ← array_get ws (node_start i + 2);
  Done (w0, w1 mod 65536, qword w2 (w1 / 65536)).
(** [ext_extent_index]: start in the file and block of the next level. *)
Definition index_at (ws : list Z) (i : Z) : outcome (Z * Z) :=
  w0 ← array_get ws (node_start i); w1 ← array_get ws (node_start i + 1); w2 ← array_get ws (node_start i + 2);
  Done (w0, qword w1 (w2 mod 65536)).
Definition populate_leaf (ws : list Z) (i : Z) (blk : disk_block) (fn_start : Z) : outcome (list Z) :=
  ws1 ← array_set ws (node_start i + 2) (u32 (block_number blk));
  ws2 ← array_set ws1 (node_start i + 1) (u16 (chain_len blk) + 65536 * u16 (block_number blk / 2 ^ 32));
  array_set ws2 (node_start i) (u32 fn_start).
Definition populate_index (ws : list Z) (i next fn_start : Z) : outcome (list Z) :=
  ws1 ← array_set ws (node_start i + 1) (u32 next);
  w2 ← array_get ws1 (node_start i + 2);
  ws2 ← array_set ws1 (node_start i + 2) (u16 (next / 2 ^ 32) + 65536 * (w2 / 65536));
  array_set ws2 (node_start i) (u32 fn_start).

(** [std::map::max], [insert] and [insert_or_assign] *)
Definition map_max (m : gmap Z Z) : option (Z * Z) :=
  map_fold (fun k v acc => match acc with Some (k', _) => if k' <? k then Some (k, v) else acc | None => Some (k, v) end) None m.
Definition map_insert (k v : Z) (m : gmap Z Z) : gmap Z Z := match m !! k with Some _ => m | None => <[k := v]> m end.

(** The count of blocks in the inode, [blocks_count_lo] and [blocks_count_hi], read as a [dword] of two halves. *)
Definition add_count (ct : Z * Z) (n : Z) : Z * Z :=
  let c := u32 (dword (u16 (fst ct)) (snd ct) + n) in (u16 c, c / 65536).

(** A pointer taken at capacity [c] can still be used. *)
Definition valid {A} (c : Z) (v : vec A) : outcome unit := if cap v =? c then Done () else Undef.

Section Tree.
Context {W : Type} `{!ExtStore W, !ExtDevice W}.
Implicit Types (s : enode W) (blk : disk_block).

Definition with_fs s (f : extfs W) : enode W :=
  MkNode f (root s) (use_extents s) (blocks_count s) (block_data s) (cached_metadata s) (tracked_extents s) (base_depth s) (total_extent s) (base_extent_level s) (has_init s).
Definition with_root s (r : list Z) : enode W :=
  MkNode (efs s) r (use_extents s) (blocks_count s) (block_data s) (cached_metadata s) (tracked_extents s) (base_depth s) (total_extent s) (base_extent_level s) (has_init s).
Definition with_count s (n : Z * Z) : enode W :=
  MkNode (efs s) (root s) (use_extents s) n (block_data s) (cached_metadata s) (tracked_extents s) (base_depth s) (total_extent s) (base_extent_level s) (has_init s).
Definition with_data s (v : vec disk_block) : enode W :=
  MkNode (efs s) (root s) (use_extents s) (blocks_count s) v (cached_metadata s) (tracked_extents s) (base_depth s) (total_extent s) (base_extent_level s) (has_init s).
Definition with_meta s (v : vec meta_block) : enode W :=
  MkNode (efs s) (root s) (use_extents s) (blocks_count s) (block_data s) v (tracked_extents s) (base_depth s) (total_extent s) (base_extent_level s) (has_init s).
Definition with_tracked s (v : vec cached_extent_node) : enode W :=
  MkNode (efs s) (root s) (use_extents s) (blocks_count s) (block_data s) (cached_metadata s) v (base_depth s) (total_extent s) (base_extent_level s) (has_init s).
Definition with_depth s (d : Z) : enode W :=
  MkNode (efs s) (root s) (use_extents s) (blocks_count s) (block_data s) (cached_metadata s) (tracked_extents s) d (total_extent s) (base_extent_level s) (has_init s).
Definition with_total s (n : Z) : enode W :=
  MkNode (efs s) (root s) (use_extents s) (blocks_count s) (block_data s) (cached_metadata s) (tracked_extents s) (base_depth s) n (base_extent_level s) (has_init s).
Definition with_level s (m : gmap Z Z) : enode W :=
  MkNode (efs s) (root s) (use_extents s) (blocks_count s) (block_data s) (cached_metadata s) (tracked_extents s) (base_depth s) (total_extent s) m (has_init s).
Definition with_init s : enode W :=
  MkNode (efs s) (root s) (use_extents s) (blocks_count s) (block_data s) (cached_metadata s) (tracked_extents s) (base_depth s) (total_extent s) (base_extent_level s) true.

(** [tracked_extents.emplace_back], with [cached_node_pos] of the new element. *)
Definition track s (off : option Z) (d : Z) : enode W * Z :=
  (with_tracked s (emplace_back (tracked_extents s) (MkCen off d ∅)), size (tracked_extents s)).
Definition get_cached s (pos : Z) : outcome cached_extent_node := array_get (elems (tracked_extents s)) pos.
Definition set_next_level s (pos : Z) (m : gmap Z Z) : outcome (enode W) :=
  n ← get_cached s pos;
  l ← array_set (elems (tracked_extents s)) pos (MkCen (blk_offset n) (depth n) m);
  Done (with_tracked s (MkVec l (cap (tracked_extents s)))).
(** [cached_extent_node::block] of a node above the leaves. *)
Definition block s (n : cached_extent_node) : outcome (Z * meta_block) :=
  off ← or_undef (blk_offset n);
  b ← array_get (elems (cached_metadata s)) off; Done (off, b).
Definition set_block s (off : Z) (b : meta_block) : outcome (enode W) :=
  l ← array_set (elems (cached_metadata s)) off b; Done (with_meta s (MkVec l (cap (cached_metadata s)))).
Definition persist_inode s : enode W * bool :=
  let '(w, ok) := log_inode (store (efs s)) (root s) in
  (with_fs s (MkExt (sb (efs s)) (block_groups (efs s)) w), ok).
(** [cached_metadata.emplace_back] of a block with a new buffer that is then read;
    with the offset of the block. *)
Definition load_meta s (n : Z) : enode W * Z * bool :=
  let off := size (cached_metadata s) in
  match (if n =? 0 then None else read_words (store (efs s)) n) with
  | Some ws => (with_meta s (emplace_back (cached_metadata s) (MkMeta n ws false)), off, true)
  | None => (with_meta s (emplace_back (cached_metadata s) (MkMeta n (replicate (Z.to_nat (block_size (efs s) / 4)) 0) false)), off, false)
  end.
(** [insert] of the blocks of an extent, one by one, with the offset of the first one and the
    file block behind the last one: at least one block is inserted. *)
Fixpoint insert_blocks (count : nat) (v : vec disk_block) (cur n : Z) : outcome (vec disk_block) :=
  match count with
  | O => Done v
  | S c => '(v1, _) ← insert v cur (MkBlk n false 1); insert_blocks c v1 (cur + 1) (n + 1)
  end.
Definition insert_extent s (cur n ext_sz : Z) : outcome (enode W * option Z * Z) :=
  '(v1, off) ← insert (block_data s) cur (MkBlk n false 1);
  v2 ← insert_blocks (Z.to_nat (ext_sz - 1)) v1 (cur + 1) (n + 1);
  Done (with_data s v2, (if cap v2 =? cap v1 then Some off else None), cur + Z.max 1 ext_sz).

(** ** Reading a tree *)
Section Recurse.
Context (nl_recurse : enode W -> Z -> outcome (enode W * bool)).

(** An iteration of [nl_recurse_ext4] for the node at [pos] whose pointer was taken at
    capacity [c]; [ws] is its block. *)
Definition recurse_index s (pos c d : Z) (ws : list Z) (i : Z) : outcome (enode W * bool) :=
  '(cur, blknum) ← index_at ws i;
  if blknum =? 0 then Done (s, true) else
  _ ← valid c (tracked_extents s);
  let '(s1, off, ok) := load_meta s blknum in
  if negb ok then Done (s1, false) else
  let '(s2, base) := track s1 (Some off) d in
  _ ← valid c (tracked_extents s2);
  n ← get_cached s2 pos;
  s3 ← set_next_level s2 pos (map_insert cur base (next_level_extents n));
  nl_recurse s3 base.
Definition recurse_leaf s (pos c d : Z) (ws : list Z) (i : Z) : outcome (enode W * bool) :=
  '(fstart, len, blknum) ← leaf_at ws i;
  let ext_sz := len mod 0x8000 in
  _ ← valid c (tracked_extents s);
  '(s1, off, cur) ← insert_extent s fstart blknum ext_sz;
  let '(s2, base) := track s1 off d in
  _ ← valid c (tracked_extents s2);
  n ← get_cached s2 pos;
  s3 ← set_next_level s2 pos (<[cur := base]> (next_level_extents n));
  Done (with_total s3 (u64 (total_extent s3 + ext_sz)), true).
Fixpoint recurse_nodes (count : nat) s (pos c d : Z) (ws : list Z) (i : Z) : outcome (enode W * bool) :=
  match count with
  | O => _ ← valid c (tracked_extents s); Done (persist_inode s)
  | S k =>
      '(s1, ok) ← (if d =? 0 then recurse_leaf s pos c d ws i else recurse_index s pos c d ws i);
      if ok : bool then recurse_nodes k s1 pos c d ws (i + 1) else Done (s1, false)
  end.
End Recurse.
Fixpoint nl_recurse_ext4 (fuel : nat) s (pos : Z) : outcome (enode W * bool) :=
  match fuel with
  | O => NoFuel
  | S f =>
      n ← get_cached s pos;
      if depth n =? 0 then Done (s, true) else
      '(_, b) ← block s n;
      m ← hdr_magic (mwords b);
      if negb (m =? ext_extent_magic) then Done (s, false) else
      entries ← hdr_entries (mwords b);
      d ← hdr_depth (mwords b);
      recurse_nodes (nl_recurse_ext4 f) (Z.to_nat entries) s pos (cap (tracked_extents s)) d (mwords b) 0
  end.

Definition parse_root_index (fuel : nat) s (i : Z) : outcome (enode W * bool) :=
  '(cur, blknum) ← index_at (root s) i;
  if blknum =? 0 then Done (s, true) else
  let '(s1, off, ok) := load_meta s blknum in
  if negb ok then Done (s1, false) else
  let '(s2, base) := track s1 (Some off) (base_depth s) in
  nl_recurse_ext4 fuel (with_level s2 (map_insert cur base (base_extent_level s2))) base.
Definition parse_root_leaf s (i : Z) : outcome (enode W) :=
  '(fstart, len, blknum) ← leaf_at (root s) i;
  let ext_sz := len mod 0x8000 in
  let s0 := with_data s (reserve (block_data s) (size (block_data s) + ext_sz)) in
  '(s1, off, cur) ← insert_extent s0 fstart blknum ext_sz;
  let '(s2, base) := track s1 off (base_depth s) in
  Done (with_total (with_level s2 (<[cur := base]> (base_extent_level s2))) (u64 (total_extent s2 + ext_sz))).
Fixpoint parse_root (count fuel : nat) s (i : Z) : outcome (enode W * bool) :=
  match count with
  | O => Done (with_init s, true)
  | S k =>
      '(s1, ok) ← (if base_depth s =? 0 then s1 ← parse_root_leaf s i; Done (s1, true) else parse_root_index fuel s i);
      if ok : bool then parse_root k fuel s1 (i + 1) else Done (s1, false)
  end.
Definition parse_ext4 (fuel : nat) s : outcome (enode W * bool) :=
  if has_init s then Done (s, true) else
  m ← hdr_magic (root s);
  if negb (m =? ext_extent_magic) then Done (s, false) else
  d ← hdr_depth (root s);
  entries ← hdr_entries (root s);
  parse_root (Z.to_nat (Z.min entries 4)) fuel (with_depth s d) 0.

(** The block pointers of the older format; the result of the recursion is the next file
    block, 0 at the end of the file, or nothing when a read failed. *)
Section RecurseLegacy.
Context (nl_recurse : enode W -> Z -> Z -> outcome (enode W * option Z)).
Definition legacy_child s (d cur p : Z) : outcome (enode W * option Z * bool) :=
  if d =? 1 then
    '(v, off) ← insert (block_data s) cur (MkBlk p false 1);
    if off <? size v then Done (with_data s v, Some off, true) else Undef
  else let '(s1, off, ok) := load_meta s p in Done (s1, Some off, ok).
Fixpoint legacy_pointers (count : nat) s (pos c d : Z) (ws : list Z) (i cur : Z) : outcome (enode W * option Z) :=
  match count with
  | O => Done (s, Some cur)
  | S k =>
      p ← array_get ws i;
      if p =? 0 then Done (s, Some 0) else
      _ ← valid c (tracked_extents s);
      '(s1, off, ok) ← legacy_child s d cur p;
      if negb ok then Done (s1, None) else
      let '(s2, base) := track s1 off (u16 (d - 1)) in
      _ ← valid c (tracked_extents s2);
      n ← get_cached s2 pos;
      s3 ← set_next_level s2 pos (<[cur := base]> (next_level_extents n));
      '(s4, next) ← nl_recurse s3 base cur;
      match next with
      | None => Done (s4, None)
      | Some 0 => Done (s4, Some 0)
      | Some cur' => legacy_pointers k (with_total s4 (u64 (total_extent s4 + 1))) pos c d ws (i + 1) cur'
      end
  end.
End RecurseLegacy.
Fixpoint nl_recurse_legacy (fuel : nat) s (pos start : Z) : outcome (enode W * option Z) :=
  match fuel with
  | O => NoFuel
  | S f =>
      n ← get_cached s pos;
      if depth n =? 0 then Done (s, Some (start + 1)) else
      '(_, b) ← block s n;
      legacy_pointers (nl_recurse_legacy f) (Z.to_nat (block_size (efs s) / 4)) s pos (cap (tracked_extents s)) (depth n) (mwords b) 0 start
  end.

(** The direct blocks: whether all twelve are present.  The iterator was taken at capacity
    [c]. *)
Fixpoint legacy_direct (count : nat) s (c i : Z) : outcome (enode W * bool) :=
  match count with
  | O => Done (s, true)
  | S k =>
      b ← array_get (root s) i;
      if b =? 0 then Done (s, false) else
      _ ← valid c (block_data s);
      '(v, off) ← insert (block_data s) i (MkBlk b false 1);
      let '(s1, _) := track (with_data s v) (Some off) 0 in
      legacy_direct k (with_total s1 (u64 (total_extent s1 + 1))) c (i + 1)
  end.
(** A block of pointers of the root, at depth [d]; the triply indirect block is entered into
    the tree before it is read. *)
Definition legacy_indirect (fuel : nat) s (slot d cur : Z) : outcome (enode W * option Z) :=
  n ← array_get (root s) slot;
  let '(s1, off, ok) := load_meta s n in
  if negb ok && (d <? 3) then Done (s1, None) else
  let '(s2, base) := track s1 (Some off) d in
  let s3 := with_level s2 (map_insert cur base (base_extent_level s2)) in
  if negb ok then Done (s3, None) else nl_recurse_legacy fuel s3 base cur.
Definition deepen s : enode W := with_depth s (u16 (base_depth s + 1)).
Definition parse_legacy (fuel : nat) s : outcome (enode W * bool) :=
  if has_init s then Done (s, true) else
  '(s1, more) ← legacy_direct 12 s (cap (block_data s)) 0;
  if negb more then Done (with_init s1, true) else
  ind1 ← array_get (root s1) 12;
  if ind1 =? 0 then Done (with_init s1, true) else
  '(s2, cur) ← legacy_indirect fuel (deepen s1) 12 1 12;
  match cur with
  | None => Done (s2, false)
  | Some 0 => Done (with_init s2, true)
  | Some cur2 =>
      '(s3, cur) ← legacy_indirect fuel (deepen s2) 13 2 cur2;
      match cur with
      | None => Done (s3, false)
      | Some 0 => Done (with_init s3, true)
      | Some cur3 =>
          '(s4, cur) ← legacy_indirect fuel (deepen s3) 14 3 cur3;
          match cur with None => Done (s4, false) | Some _ => Done (with_init s4, true) end
      end
  end.
Definition init_extents (fuel : nat) s : outcome (enode W * bool) :=
  if use_extents s then parse_ext4 fuel s else parse_legacy fuel s.

(** ** Growing a tree *)

(** [claim_metadata_block]: a new block of the tree, with its offset and number. *)
Definition claim_meta s : outcome (enode W * option (Z * Z)) :=
  '(f, r) ← claim_metadata_block (efs s);
  match r with
  | None => Done (with_fs s f, None)
  | Some n =>
      let s1 := with_count (with_fs s f) (add_count (blocks_count s) 1) in
      let zeros := replicate (Z.to_nat (block_size (efs s) / 4)) 0 in
      Done (with_meta s1 (emplace_back (cached_metadata s1) (MkMeta n zeros false)), Some (size (cached_metadata s1), n))
  end.

(** The end of a push: its result, or an exception that [push_extent_ext4] and
    [push_extent_legacy] catch. *)
Inductive push_result := Pushed (ok : bool) | Threw.
Definition caught (r : push_result) : bool := match r with Pushed ok => ok | Threw => false end.

(** [csum_update]: the checksum of the block, in its last word. *)
Definition csum_update s (off : Z) : outcome (enode W) :=
  b ← array_get (elems (cached_metadata s)) off;
  let last := block_size (efs s) / 4 - 1 in
  ws ← array_set (mwords b) last 0;
  ws' ← array_set ws last (u32 (extent_csum (store (efs s)) ws));
  set_block s off (MkMeta (mnumber b) ws' (mdirty b)).

Definition push_leaf s (off : Z) (b : meta_block) blk : outcome (enode W * push_result) :=
  entries ← hdr_entries (mwords b);
  mx ← hdr_max_entries (mwords b);
  if mx <=? entries then Done (s, Pushed false) else
  ws ← populate_leaf (mwords b) entries blk (total_extent s);
  s1 ← set_block (with_total s (u64 (total_extent s + chain_len blk))) off (MkMeta (mnumber b) ws true);
  s2 ← csum_update s1 off;
  Done (s2, Pushed true).
(** The lower level is full: another block for it. *)
Definition push_new_level (push : enode W -> Z -> disk_block -> outcome (enode W * push_result)) s (c c' pos : Z) (n : cached_extent_node) blk
  : outcome (enode W * push_result) :=
  _ ← valid c (tracked_extents s);
  '(off, b) ← block s n;
  entries ← hdr_entries (mwords b);
  mx ← hdr_max_entries (mwords b);
  if mx <=? entries then Done (s, Pushed false) else
  '(s1, r) ← claim_meta s;
  match r with
  | None => Done (s1, Threw)
  | Some (moff, m) =>
      let '(s2, base) := track s1 (Some moff) (u16 (depth n - 1)) in
      _ ← valid c (tracked_extents s2);
      s3 ← set_next_level s2 pos (map_insert (total_extent s2) base (next_level_extents n));
      ws ← populate_index (mwords b) entries m (total_extent s3);
      _ ← valid c' (cached_metadata s3);
      s4 ← set_block s3 off (MkMeta (mnumber b) ws true);
      s5 ← csum_update s4 off;
      push s5 base blk
  end.
Fixpoint push_extent_recurse_ext4 (fuel : nat) s (pos : Z) blk : outcome (enode W * push_result) :=
  match fuel with
  | O => NoFuel
  | S f =>
      let c := cap (tracked_extents s) in
      let c' := cap (cached_metadata s) in
      n ← get_cached s pos;
      '(off, b) ← block s n;
      m ← hdr_magic (mwords b);
      if negb (m =? ext_extent_magic) then Done (s, Threw)
      else if depth n <? 2 then push_leaf s off b blk
      else
        '(s1, r) ← (match map_max (next_level_extents n) with
                    | None => Done (s, Pushed false)
                    | Some (_, child) => push_extent_recurse_ext4 f s child blk
                    end);
        match r with
        | Pushed false => push_new_level (push_extent_recurse_ext4 f) s1 c c' pos n blk
        | _ => Done (s1, r)
        end
  end.

(** [ext4_root_overflow]: the nodes of the root move into a new block. *)
Definition array_copy_nodes (dst src : list Z) (count : Z) : outcome (list Z) :=
  if (Z.of_nat (length dst) <? 3 + 3 * count) || (Z.of_nat (length src) <? 3 + 3 * count) then Undef
  else Done (take 3 dst ++ take (Z.to_nat (3 * count)) (drop 3 src) ++ drop (Z.to_nat (3 + 3 * count)) dst).
Definition new_header (mx d : Z) : list Z := [ext_extent_magic; u16 mx + 65536 * d; 0].
Definition ext4_root_overflow s : outcome (enode W * bool) :=
  if 4 <? base_depth s then Done (s, false) else
  '(s1, r) ← claim_meta s;
  match r with
  | None => Done (s1, false)
  | Some (off, num) =>
      let d := u16 (base_depth s1 + 1) in
      rd ← hdr_depth (root s1);
      r1 ← set_hdr_depth (root s1) (rd + 1);
      rmax ← hdr_max_entries r1;
      let root_entries := Z.min 4 rmax in
      b ← array_get (elems (cached_metadata s1)) off;
      let ws := new_header ((block_size (efs s1) - 12) / 12) d ++ drop 3 (mwords b) in
      ws1 ← array_copy_nodes ws r1 root_entries;
      ws2 ← set_hdr_entries ws1 root_entries;
      let r2 := take 3 r1 ++ replicate (Z.to_nat (3 * root_entries)) 0 ++ drop (Z.to_nat (3 + 3 * root_entries)) r1 in
      r3 ← array_set r2 (node_start 0) 0;
      r4 ← array_set r3 (node_start 0 + 1) (u32 num);
      r5 ← array_set r4 (node_start 0 + 2) (u16 (num / 2 ^ 32));
      s2 ← set_block (with_depth s1 d) off (MkMeta (mnumber b) ws2 true);
      let '(s3, base) := track s2 (Some off) d in
      s4 ← set_next_level s3 base (base_extent_level s3);
      r6 ← set_hdr_entries r5 1;
      Done (with_root (with_level s4 {[0 := base]}) r6, true)
  end.

(** The offset of the block that is pushed, in [block_data]. *)
Definition push_root_leaf s blk (boff : Z) : outcome (enode W) :=
  idx ← hdr_entries (root s);
  r1 ← set_hdr_entries (root s) (idx + 1);
  r2 ← populate_leaf r1 idx blk (total_extent s);
  let '(s1, base) := track (with_root s r2) (Some boff) 0 in
  Done (with_total (with_level s1 (<[total_extent s1 := base]> (base_extent_level s1))) (u64 (total_extent s1 + chain_len blk))).
Definition push_base (fuel : nat) s blk : outcome (enode W * push_result) :=
  match map_max (base_extent_level s) with
  | None => Undef
  | Some (_, base) => push_extent_recurse_ext4 fuel s base blk
  end.
(** The level below the root is full: another node in the root, or a new level. *)
Definition push_root_index (fuel : nat) s blk : outcome (enode W * bool) :=
  entries ← hdr_entries (root s);
  mx ← hdr_max_entries (root s);
  if entries <? mx then
    '(s1, r) ← claim_meta s;
    match r with
    | None => Done (s1, false)
    | Some (off, num) =>
        r1 ← set_hdr_entries (root s1) (entries + 1);
        r2 ← populate_index r1 entries num (total_extent s1);
        d ← hdr_depth r2;
        let '(s2, base) := track (with_root s1 r2) (Some off) d in
        '(s3, r) ← push_extent_recurse_ext4 fuel (with_level s2 (<[total_extent s2 := base]> (base_extent_level s2))) base blk;
        Done (s3, caught r)
    end
  else
    '(s1, ok) ← ext4_root_overflow s;
    if negb ok then Done (s1, false) else
    '(s2, r) ← push_base fuel s1 blk; Done (s2, caught r).
Definition push_extent_ext4 (fuel : nat) s blk (boff : Z) : outcome (enode W * bool) :=
  '(s0, ok) ← (if has_init s then Done (s, true) else parse_ext4 fuel s);
  if negb ok then Done (s0, false) else
  rd ← hdr_depth (root s0);
  entries ← hdr_entries (root s0);
  mx ← hdr_max_entries (root s0);
  if (rd =? 0) && (entries <? mx) then s1 ← push_root_leaf s0 blk boff; Done (s1, true) else
  '(s1, ok) ← (if rd =? 0 then ext4_root_overflow s0 else Done (s0, true));
  if negb ok then Done (s1, false) else
  match map_max (base_extent_level s1) with
  | None => Done (s1, false)
  | Some (_, base) =>
      '(s2, r) ← push_extent_recurse_ext4 fuel s1 base blk;
      match r with
      | Pushed true => Done (s2, true)
      | Threw => Done (s2, false)
      | Pushed false => push_root_index fuel s2 blk
      end
  end.

(** [push_extent_recurse_legacy] *)
Fixpoint first_zero (ws : list Z) (i : Z) : option Z :=
  match ws with [] => None | w :: rest => if w =? 0 then Some i else first_zero rest (i + 1) end.
Definition legacy_slot s (b : meta_block) : outcome (option Z) :=
  let n := Z.to_nat (block_size (efs s) / 4) in
  if Nat.ltb (length (mwords b)) n then Undef else Done (first_zero (take n (mwords b)) 0).
Definition push_legacy_leaf s (pos off : Z) (n : cached_extent_node) (b : meta_block) blk (boff : Z) : outcome (enode W * push_result) :=
  let c := cap (tracked_extents s) in
  i ← legacy_slot s b;
  match i with
  | None => Done (s, Pushed false)
  | Some i =>
      ws ← array_set (mwords b) i (u32 (block_number blk));
      s1 ← set_block s off (MkMeta (mnumber b) ws (mdirty b));
      let '(s2, base) := track s1 (Some boff) 0 in
      _ ← valid c (tracked_extents s2);
      s3 ← set_next_level s2 pos (<[total_extent s2 := base]> (next_level_extents n));
      s4 ← set_block s3 off (MkMeta (mnumber b) ws true);
      Done (with_total s4 (u64 (total_extent s4 + 1)), Pushed true)
  end.
Definition push_legacy_level (push : enode W -> Z -> disk_block -> Z -> outcome (enode W * push_result)) s (c c' pos : Z) (n : cached_extent_node) blk (boff : Z)
  : outcome (enode W * push_result) :=
  _ ← valid c (tracked_extents s);
  '(off, b) ← block s n;
  i ← legacy_slot s b;
  match i with
  | None => Done (s, Pushed false)
  | Some i =>
      '(s1, r) ← claim_meta s;
      match r with
      | None => Done (s1, Threw)
      | Some (moff, m) =>
          let '(s2, base) := track s1 (Some moff) (u16 (depth n - 1)) in
          _ ← valid c (tracked_extents s2);
          s3 ← set_next_level s2 pos (map_insert (total_extent s2) base (next_level_extents n));
          ws ← array_set (mwords b) i (u32 m);
          _ ← valid c' (cached_metadata s3);
          s4 ← set_block s3 off (MkMeta (mnumber b) ws true);
          push s4 base blk boff
      end
  end.
Fixpoint push_extent_recurse_legacy (fuel : nat) s (pos : Z) blk (boff : Z) : outcome (enode W * push_result) :=
  match fuel with
  | O => NoFuel
  | S f =>
      let c := cap (tracked_extents s) in
      let c' := cap (cached_metadata s) in
      n ← get_cached s pos;
      '(off, b) ← block s n;
      if depth n <? 2 then push_legacy_leaf s pos off n b blk boff
      else
        '(s1, r) ← (match map_max (next_level_extents n) with
                    | None => Done (s, Pushed false)
                    | Some (_, child) => push_extent_recurse_legacy f s child blk boff
                    end);
        match r with
        | Pushed false => push_legacy_level (push_extent_recurse_legacy f) s1 c c' pos n blk boff
        | _ => Done (s1, r)
        end
  end.

(** A new block of pointers below the root, at depth [d]. *)
Definition push_legacy_root (fuel : nat) s (d : Z) blk (boff : Z) : outcome (enode W * bool) :=
  '(s1, r) ← claim_meta s;
  match r with
  | None => Done (s1, false)
  | Some (moff, _) =>
      let '(s2, base) := track s1 (Some moff) d in
      '(s3, r) ← push_extent_recurse_legacy fuel (with_level s2 (<[total_extent s2 := base]> (base_extent_level s2))) base blk boff;
      Done (s3, caught r)
  end.
Definition push_extent_legacy (fuel : nat) s blk (boff : Z) : outcome (enode W * bool) :=
  '(s0, ok) ← (if has_init s then Done (s, true) else parse_legacy fuel s);
  if negb ok then Done (s0, false) else
  match first_zero (take 12 (root s0)) 0 with
  | Some i =>
      r ← array_set (root s0) i (u32 (block_number blk));
      let '(s1, _) := track (with_root s0 r) (Some boff) 0 in
      Done (persist_inode (with_total s1 (u64 (total_extent s1 + 1))))
  | None =>
      match map_max (base_extent_level s0) with
      | None => push_legacy_root fuel s0 1 blk boff
      | Some (_, base) =>
          n ← get_cached s0 base;
          '(s1, r) ← push_extent_recurse_legacy fuel s0 base blk boff;
          match r with
          | Pushed true => Done (s1, true)
          | Threw => Done (s1, false)
          | Pushed false =>
              _ ← valid (cap (tracked_extents s0)) (tracked_extents s1);
              if depth n <? 3 then
                let nd := u16 (depth n + 1) in
                push_legacy_root fuel (if base_depth s1 <? nd then with_depth s1 nd else s1) nd blk boff
              else Done (s1, false)
          end
      end
  end.

(** ** Claiming data blocks *)

(** [claim_blocks]: the number of the first block. *)
Definition claim_blocks (fuel : nat) s (how_many : Z) : outcome (enode W * option Z) :=
  '(f, r) ← claim_run fuel (efs s) how_many;
  match r with
  | None | Some (_, _, false) => Done (with_fs s f, None)
  | Some (i, result, true) =>
      let blk := MkBlk result false how_many in
      let boff := size (block_data s) in
      let s1 := with_data (with_fs s f) (emplace_back (block_data s) blk) in
      '(s2, ok) ← (if use_extents s1 then push_extent_ext4 fuel s1 blk boff else push_extent_legacy fuel s1 blk boff);
      if negb ok then Done (s2, None) else
      let '(f', ok) := persist_group_metadata (efs s2) i in
      Done (with_count (with_fs s2 f') (add_count (blocks_count s2) how_many), if ok : bool then Some result else None)
  end.

(** ** New and opened nodes *)

(** The root in the inode of a new file, and a node before its tree is read. *)
Definition new_root : list Z := [ext_extent_magic; 4; 0] ++ replicate 12 0.
Definition unopened (f : extfs W) (r : list Z) (ext : bool) (ct : Z * Z) : enode W :=
  MkNode f r ext ct vnil vnil vnil 0 0 ∅ false.
(** Extents pushed one after the other, as [claim_blocks] does. *)
Fixpoint push_all (fuel : nat) s (l : list disk_block) : outcome (enode W * bool) :=
  match l with
  | [] => Done (s, true)
  | blk :: rest =>
      '(s1, ok) ← push_extent_ext4 fuel (with_data s (emplace_back (block_data s) blk)) blk (size (block_data s));
      if ok : bool then push_all fuel s1 rest else Done (s1, false)
  end.
End Tree.
End ExtExtent.
