(* ===== verification/ExtExtentProps.v ===== *)
(** Properties of the extent trees of the ext file system: files of up to four extents are
    read back; later extents are lost and their files are not opened again; files
    in the older format open without data. *)
From S2P Require Import Prelude Bitmap Vec ExtAlloc ExtExtent.
Import Vec ExtAlloc ExtExtent.

Module ExtExtentProps.

(** ** Words *)
Definition leaf_words (fn_start : Z) (blk : disk_block) : list Z :=
  [u32 fn_start; u16 (chain_len blk) + 65536 * u16 (block_number blk / 2 ^ 32); u32 (block_number blk)].
Fixpoint leaves (fn_start : Z) (l : list disk_block) : list Z :=
  match l with [] => [] | b :: rest => leaf_words fn_start b ++ leaves (fn_start + chain_len b) rest end.
Definition extent_ok (blk : disk_block) : Prop := 1 <= chain_len blk < 0x8000 /\ 0 <= block_number blk < 2 ^ 48.
Definition blocks_in (l : list disk_block) : Z := foldr (fun b n => chain_len b + n) 0 l.

Lemma length_leaves st l : length (leaves st l) = (3 * length l)%nat.
Proof. revert st. induction l as [|b l IH]; intros st; simpl; [done|]. rewrite IH. lia. Qed.
Lemma leaves_app st l1 l2 : leaves st (l1 ++ l2) = leaves st l1 ++ leaves (st + blocks_in l1) l2.
Proof.
  revert st. induction l1 as [|b l1 IH]; intros st; simpl; [by rewrite Z.add_0_r|].
  rewrite IH. do 4 f_equal. f_equal. lia.
Qed.
Lemma blocks_in_app l1 l2 : blocks_in (l1 ++ l2) = blocks_in l1 + blocks_in l2.
Proof. induction l1 as [|b l1 IH]; simpl; [done|]. unfold blocks_in in *. simpl. lia. Qed.
Lemma blocks_in_nonneg l : Forall extent_ok l -> 0 <= blocks_in l.
Proof. induction 1 as [|b l [? _] _ IH]; simpl; [done|]. unfold blocks_in in *. simpl. lia. Qed.

Lemma array_get_app {A} (pre post : list A) x i : i = Z.of_nat (length pre) -> array_get (pre ++ x :: post) i = Done x.
Proof. intros ->. apply array_get_Done. split; [lia|]. rewrite Nat2Z.id. by apply list_lookup_middle. Qed.
Lemma array_set_app {A} (pre post : list A) x y i : i = Z.of_nat (length pre) -> array_set (pre ++ x :: post) i y = Done (pre ++ y :: post).
Proof.
  intros Hi. unfold array_set. rewrite (array_get_app _ _ _ _ Hi). simpl. rewrite Hi, Nat2Z.id.
  by rewrite insert_app_r_alt, Nat.sub_diag by lia.
Qed.
Lemma shift1 {A} (pre post : list A) x : pre ++ x :: post = (pre ++ [x]) ++ post.
Proof. by rewrite <- app_assoc. Qed.

(** A node is written where its three words are, and read back. *)
Lemma populate_leaf_app pre a b c post i blk st :
  Z.of_nat (length pre) = node_start i -> populate_leaf (pre ++ a :: b :: c :: post) i blk st = Done (pre ++ leaf_words st blk ++ post).
Proof.
  intros Hl. unfold populate_leaf.
  rewrite (shift1 pre _ a), (shift1 (pre ++ [a]) _ b), array_set_app by (rewrite !length_app; simpl; lia). simpl.
  rewrite <- (shift1 (pre ++ [a])), array_set_app by (rewrite !length_app; simpl; lia). simpl.
  rewrite <- (shift1 pre), array_set_app by lia. done.
Qed.
Lemma leaf_at_app pre post i blk st :
  Z.of_nat (length pre) = node_start i -> extent_ok blk -> is_u32 st ->
  leaf_at (pre ++ leaf_words st blk ++ post) i = Done (st, chain_len blk, block_number blk).
Proof.
  intros Hl [Hc Hn] Hst. unfold leaf_at, leaf_words. simpl.
  rewrite (array_get_app pre _ _ (node_start i)) by lia. simpl.
  rewrite (shift1 pre), (array_get_app _ _ _ (node_start i + 1)) by (rewrite !length_app; simpl; lia). simpl.
  rewrite (shift1 (pre ++ _)), array_get_app by (rewrite !length_app; simpl; lia). simpl.
  rewrite (wrap_small 32 st) by done. rewrite (wrap_small 16 (chain_len blk)) by (unfold in_range; lia).
  rewrite (wrap_small 16 (block_number blk / 2 ^ 32)) by (unfold in_range; zlia).
  rewrite (Z.mul_comm 65536), Z.mod_add, Z.div_add, Z.mod_small, Z.div_small by lia. rewrite Z.add_0_l.
  do 2 f_equal. unfold qword, wrap. pose proof (Z.div_mod (block_number blk) (2 ^ 32)). lia.
Qed.

(** ** Filling the root *)
Definition root_of (l : list disk_block) : list Z :=
  [ext_extent_magic + 65536 * Z.of_nat (length l); 4; 0] ++ leaves 0 l ++ replicate (12 - 3 * length l) 0.

Lemma root_of_split l b : (length l < 4)%nat ->
  root_of l = ([ext_extent_magic + 65536 * Z.of_nat (length l); 4; 0] ++ leaves 0 l) ++ 0 :: 0 :: 0 :: replicate (12 - 3 * length (l ++ [b])) 0.
Proof.
  intros Hl. unfold root_of. rewrite <- app_assoc. do 2 f_equal.
  replace (12 - 3 * length l)%nat with (S (S (S (12 - 3 * length (l ++ [b])))))%nat by (rewrite length_app; simpl; lia). done.
Qed.
Lemma root_of_header l : (length l <= 4)%nat ->
  hdr_magic (root_of l) = Done ext_extent_magic /\ hdr_entries (root_of l) = Done (Z.of_nat (length l)) /\
  hdr_max_entries (root_of l) = Done 4 /\ hdr_depth (root_of l) = Done 0.
Proof.
  intros Hl. unfold hdr_magic, hdr_entries, hdr_max_entries, hdr_depth, root_of, ext_extent_magic. simpl.
  split_and!; try done; f_equal; zlia.
Qed.
Lemma push_root_words l b : (length l < 4)%nat ->
  set_hdr_entries (root_of l) (Z.of_nat (length l) + 1) =
    Done (([ext_extent_magic + 65536 * Z.of_nat (length (l ++ [b])); 4; 0] ++ leaves 0 l) ++ 0 :: 0 :: 0 :: replicate (12 - 3 * length (l ++ [b])) 0).
Proof.
  intros Hl. rewrite (root_of_split l b) by done. unfold set_hdr_entries, array_set. simpl. do 2 f_equal.
  rewrite wrap_small by (unfold in_range; lia). rewrite length_app. simpl. unfold ext_extent_magic. zlia.
Qed.

Section Tree.
Context {W : Type} `{!ExtStore W, !ExtDevice W}.
Implicit Types (s : enode W).

(** The tree in memory after the extents [l] have been pushed onto a new node. *)
Definition in_root (f : extfs W) (l : list disk_block) s : Prop :=
  efs s = f /\ root s = root_of l /\ use_extents s = true /\ has_init s = true /\ base_depth s = 0 /\
  total_extent s = blocks_in l /\ cached_metadata s = vnil.

Lemma push_in_root fuel f l s b :
  in_root f l s -> (length l < 4)%nat -> Forall extent_ok (l ++ [b]) -> blocks_in (l ++ [b]) < 2 ^ 32 ->
  exists s', push_extent_ext4 fuel (with_data s (emplace_back (block_data s) b)) b (size (block_data s)) = Done (s', true) /\ in_root f (l ++ [b]) s'.
Proof.
  intros (Hf & Hr & Hu & Hi & Hd & Ht & Hm) Hl Hok Hsum. unfold push_extent_ext4. simpl. rewrite Hi. simpl.
  destruct (root_of_header l) as (_ & He & Hmx & Hdp); [lia|]. rewrite Hr, Hdp, He, Hmx. simpl.
  destruct (Z.ltb_spec (Z.of_nat (length l)) 4); [|lia]. simpl. unfold push_root_leaf. cbn [root with_data]. rewrite Hr, He. cbn [mbind outcome_bind].
  pose proof (blocks_in_nonneg _ Hok). pose proof (blocks_in_nonneg l ltac:(by apply Forall_app in Hok as [? _])).
  rewrite (push_root_words l b) by done. cbn [mbind outcome_bind total_extent with_data]. rewrite Ht.
  rewrite populate_leaf_app by (rewrite length_app, length_leaves; unfold node_start; simpl; lia). simpl.
  eexists. split; [done|]. unfold in_root; simpl. split_and!; try done.
  - unfold root_of. rewrite leaves_app, Z.add_0_l. simpl. rewrite <- !app_assoc. done.
  - rewrite blocks_in_app in *. simpl in *. rewrite wrap_small; [lia|]. unfold in_range. lia.
Qed.

Lemma push_all_in_root fuel f l l' s :
  in_root f l s -> (length (l ++ l') <= 4)%nat -> Forall extent_ok (l ++ l') -> blocks_in (l ++ l') < 2 ^ 32 ->
  exists s', push_all fuel s l' = Done (s', true) /\ in_root f (l ++ l') s'.
Proof.
  revert l s. induction l' as [|b l' IH]; intros l s Hin Hlen Hok Hsum; [exists s; rewrite app_nil_r; done|].
  rewrite (shift1 l), length_app in Hlen. rewrite (shift1 l) in Hok. rewrite (shift1 l) in Hsum. rewrite (shift1 l).
  rewrite length_app in Hlen. simpl in Hlen.
  destruct (push_in_root fuel f l s b) as (s1 & E & Hin1); [done|lia|by apply Forall_app in Hok as [? _]| |].
  { rewrite blocks_in_app in Hsum. apply Forall_app in Hok as [_ ?%blocks_in_nonneg]. lia. }
  cbn [push_all]. rewrite E. simpl. apply IH; try done. rewrite !length_app. simpl. lia.
Qed.

(** A node as it is opened before its first extent is pushed. *)
Lemma opened_new fuel (f : extfs W) ct :
  exists s, parse_ext4 fuel (unopened f new_root true ct) = Done (s, true) /\ in_root f [] s.
Proof. eexists. split; [reflexivity|]. done. Qed.

(** ** Reading the root *)
Definition run_blocks (n : Z) (count : nat) : list disk_block := (fun k => MkBlk k false 1) <$> seqZ n (Z.of_nat count).
Definition file_blocks (l : list disk_block) : list disk_block := b ← l; run_blocks (block_number b) (Z.to_nat (chain_len b)).

Lemma run_blocks_S n c : run_blocks n (S c) = MkBlk n false 1 :: run_blocks (n + 1) c.
Proof. unfold run_blocks. rewrite seqZ_cons by lia. rewrite <- Z.add_1_r, Nat2Z.inj_succ, Z.pred_succ. done. Qed.

Lemma insert_end (v : vec disk_block) x : size v < cap v ->
  exists v', insert v (size v) x = Done (v', size v) /\ elems v' = elems v ++ [x] /\ cap v <= cap v' /\ wf v'.
Proof.
  intros Hc. unfold insert, insert_range, out_of_range. assert (0 <= size v) by (unfold size; lia).
  simpl (Z.of_nat (length [x])). rewrite Z.ltb_irrefl. destruct (Z.ltb_spec (size v) 0); [lia|]. destruct (Z.leb_spec (cap v) (size v)); [lia|]. simpl.
  change (Z.of_nat 1) with 1. destruct (Z.ltb_spec (size v + 1) (cap v)).
  - eexists. split; [done|]. unfold wf, size in *. simpl. rewrite splice_end, length_app. simpl. split; [done|]. lia.
  - eexists. split; [done|]. unfold wf, size in *. simpl. rewrite length_app. simpl. split; [done|]. lia.
Qed.

Lemma insert_blocks_end count (v : vec disk_block) n : size v + Z.of_nat count <= cap v ->
  exists v', insert_blocks count v (size v) n = Done v' /\ elems v' = elems v ++ run_blocks n count /\ wf v'.
Proof.
  revert v n. induction count as [|c IH]; intros v n Hc; simpl; [exists v; rewrite app_nil_r; unfold wf; split_and!; done || lia|].
  destruct (insert_end v (MkBlk n false 1)) as (v1 & -> & He & Hcap & _); [lia|]. simpl.
  assert (size v1 = size v + 1) as Hs by (unfold size; rewrite He, length_app; simpl; lia).
  rewrite <- Hs. destruct (IH v1 (n + 1)) as (v2 & E & He2 & Hw2); [lia|]. rewrite E.
  exists v2. split; [done|]. split; [|done]. rewrite He2, He, <- app_assoc. f_equal. by rewrite run_blocks_S.
Qed.

Lemma insert_extent_end s n len : 1 <= len -> size (block_data s) + len <= cap (block_data s) ->
  exists v off, insert_extent s (size (block_data s)) n len = Done (with_data s v, off, size (block_data s) + len) /\
    elems v = elems (block_data s) ++ run_blocks n (Z.to_nat len) /\ wf v.
Proof.
  intros Hl Hc. unfold insert_extent. destruct (insert_end (block_data s) (MkBlk n false 1)) as (v1 & -> & He & Hcap & _); [lia|]. simpl.
  assert (size v1 = size (block_data s) + 1) as Hs by (unfold size; rewrite He, length_app; simpl; lia). rewrite <- Hs.
  destruct (insert_blocks_end (Z.to_nat (len - 1)) v1 (n + 1)) as (v2 & -> & He2 & Hw2); [lia|]. simpl.
  rewrite Z.max_r by lia. do 2 eexists. split; [done|]. split; [|done]. rewrite He2, He, <- app_assoc. f_equal. replace (Z.to_nat len) with (S (Z.to_nat (len - 1))) by lia. by rewrite run_blocks_S.
Qed.

Lemma length_file_blocks l : Forall extent_ok l -> Z.of_nat (length (file_blocks l)) = blocks_in l.
Proof.
  induction 1 as [|b l [? _] _ IH]; [done|]. cbn [file_blocks mbind list_bind]. rewrite length_app. unfold run_blocks at 1.
  rewrite length_fmap, length_seqZ. unfold blocks_in in *. simpl. unfold file_blocks in IH. lia.
Qed.

Definition parsed (r : list Z) (l : list disk_block) s : Prop :=
  root s = r /\ base_depth s = 0 /\ total_extent s = blocks_in l /\ elems (block_data s) = file_blocks l /\ wf (block_data s).

Lemma parse_leaf_step l1 b l2 s :
  parsed (root_of (l1 ++ b :: l2)) l1 s -> Forall extent_ok (l1 ++ b :: l2) -> blocks_in (l1 ++ b :: l2) < 2 ^ 32 ->
  exists s', parse_root_leaf s (Z.of_nat (length l1)) = Done s' /\ parsed (root_of (l1 ++ b :: l2)) (l1 ++ [b]) s' /\ efs s' = efs s.
Proof.
  intros (Hr & Hd & Ht & He & Hwf) Hok Hsum. unfold parse_root_leaf. rewrite Hr.
  apply Forall_app in Hok as [Hok1 [Hb Hok2]%Forall_cons]. pose proof (blocks_in_nonneg _ Hok1). pose proof (blocks_in_nonneg _ Hok2).
  rewrite blocks_in_app in Hsum. simpl in Hsum. change (foldr _ 0 l2) with (blocks_in l2) in Hsum. destruct (Hb) as [Hc _].
  unfold root_of at 1. rewrite leaves_app, <- !app_assoc. cbn [leaves]. rewrite <- !app_assoc, app_assoc.
  rewrite leaf_at_app; [|rewrite length_app, length_leaves; unfold node_start; simpl; lia|done|unfold in_range; lia]. cbn [mbind outcome_bind].
  rewrite (Z.mod_small (chain_len b)), Z.add_0_l by lia.
  set (s0 := with_data s _).
  assert (elems (block_data s0) = file_blocks l1 /\ size (block_data s0) + chain_len b <= cap (block_data s0)) as [He0 Hcap].
  { unfold s0; simpl. unfold reserve, wf, size in *. case_cmp; [|split; [done|lia]]. unfold grow_buffer. case_cmp; simpl; split; try done; lia. }
  assert (size (block_data s0) = blocks_in l1) as Hs0 by (unfold size; rewrite He0; by apply length_file_blocks).
  destruct (insert_extent_end s0 (block_number b) (chain_len b)) as (v & off & E & Hv & Hwv); [lia|done|]. rewrite Hs0 in E. rewrite E. cbn [mbind outcome_bind].
  eexists. split; [done|]. split; [|done]. unfold parsed; simpl. split_and!; try done.
  - rewrite Ht, blocks_in_app, wrap_small; simpl; [lia|unfold in_range; lia].
  - rewrite Hv, He0. unfold file_blocks. rewrite bind_app. simpl. by rewrite app_nil_r.
Qed.
Lemma parse_root_leaves fuel l1 l2 s :
  parsed (root_of (l1 ++ l2)) l1 s -> Forall extent_ok (l1 ++ l2) -> blocks_in (l1 ++ l2) < 2 ^ 32 ->
  exists s', parse_root (length l2) fuel s (Z.of_nat (length l1)) = Done (s', true) /\ parsed (root_of (l1 ++ l2)) (l1 ++ l2) s' /\ has_init s' = true.
Proof.
  revert l1 s. induction l2 as [|b l2 IH]; intros l1 s Hp Hok Hsum; simpl.
  { eexists. split; [done|]. rewrite app_nil_r in *. destruct Hp as (? & ? & ? & ? & ?). done. }
  destruct (Hp) as (_ & -> & _). simpl. destruct (parse_leaf_step l1 b l2 s) as (s1 & -> & Hp1 & _); [done..|]. simpl.
  rewrite (shift1 l1) in *. replace (Z.of_nat (length l1) + 1) with (Z.of_nat (length (l1 ++ [b]))) by (rewrite length_app; simpl; lia).
  by apply IH.
Qed.

(** ** Beyond the root *)

(** The index that replaces the nodes of the root, and the block it leads to. *)
Definition index_root (m : Z) : list Z :=
  [ext_extent_magic + 65536; 4 + 65536; 0] ++ [0; u32 m; u16 (m / 2 ^ 32)] ++ replicate 9 0.
Definition block_start (mx : Z) (l : list disk_block) : list Z :=
  [ext_extent_magic + 65536 * 4; mx + 65536; 0] ++ leaves 0 l.
(** The tree after the root has overflowed with the extents [l]. *)
Definition overflowed (f : extfs W) (l : list disk_block) (m : Z) s : Prop :=
  efs s = f /\ root s = index_root m /\ use_extents s = true /\ has_init s = true /\ base_depth s = 1 /\
  exists ws p nl, elems (cached_metadata s) = [MkMeta m ws true] /\ Z.of_nat (length ws) = block_size f / 4 /\
    take 15 ws = block_start ((block_size f - 12) / 12) l /\
    base_extent_level s = {[0 := p]} /\ 0 <= p /\ elems (tracked_extents s) !! Z.to_nat p = Some (MkCen (Some 0) 1 nl).

Definition size_ok (f : extfs W) : Prop := 1024 <= block_size f <= 65536.

Lemma header_words ws mx l :
  take 15 ws = block_start mx l -> 0 <= mx < 65536 ->
  hdr_magic ws = Done ext_extent_magic /\ hdr_entries ws = Done 4 /\ hdr_max_entries ws = Done mx /\ hdr_depth ws = Done 1.
Proof.
  intros Ht Hmx. assert (ws = block_start mx l ++ drop 15 ws) as Hws by (by rewrite <- Ht, take_drop).
  unfold hdr_magic, hdr_entries, hdr_max_entries, hdr_depth. rewrite Hws. unfold block_start, ext_extent_magic. simpl.
  split_and!; try done; f_equal; zlia.
Qed.

Lemma array_set_take (ws : list Z) (i x : Z) : 15 <= i < Z.of_nat (length ws) ->
  exists ws', array_set ws i x = Done ws' /\ take 15 ws' = take 15 ws /\ length ws' = length ws.
Proof.
  intros Hi. unfold array_set. destruct (array_get_is_Done ws i) as [y ->]; [lia|]. simpl. eexists. split; [done|].
  rewrite take_insert_ge, length_insert by lia. done.
Qed.

Lemma index_root_header m :
  hdr_magic (index_root m) = Done ext_extent_magic /\ hdr_entries (index_root m) = Done 1 /\
  hdr_max_entries (index_root m) = Done 4 /\ hdr_depth (index_root m) = Done 1.
Proof. done. Qed.

(** Pushing into the block behind the root: the node is written, but not counted. *)
Lemma push_block fuel f l m s b :
  overflowed f l m s -> size_ok f ->
  exists p s', map_max (base_extent_level s) = Some (0, p) /\ push_extent_recurse_ext4 (S fuel) s p b = Done (s', Pushed true) /\ overflowed f l m s'.
Proof.
  intros (Hf & Hr & Hu & Hi & Hd & ws & p & nl & Hm & Hlen & Htake & Hlvl & Hp & Htr) [Hbs1 Hbs2]. exists p.
  rewrite Hlvl. unfold map_max at 1. rewrite map_fold_singleton.
  assert (0 <= (block_size f - 12) / 12 < 65536 /\ 4 < (block_size f - 12) / 12 /\ 18 < block_size f / 4) as (Hmx & Hmx4 & Hw) by zlia.
  destruct (header_words ws _ l Htake Hmx) as (Hmag & Hent & Hmax & _).
  simpl. unfold get_cached, block. rewrite (proj2 (array_get_Done _ p _) (conj Hp Htr)). simpl. rewrite Hm. simpl.
  rewrite Hmag. simpl. unfold push_leaf. simpl. rewrite Hent, Hmax. simpl. destruct (Z.leb_spec ((block_size f - 12) / 12) 4); [lia|].
  unfold populate_leaf. change (node_start 4) with 15. change (15 + 2) with 17. change (15 + 1) with 16.
  destruct (array_set_take ws 17 (u32 (block_number b))) as (w1 & -> & T1 & L1); [lia|]. simpl.
  destruct (array_set_take w1 16 (u16 (chain_len b) + 65536 * u16 (block_number b / 2 ^ 32))) as (w2 & -> & T2 & L2); [lia|]. simpl.
  destruct (array_set_take w2 15 (u32 (total_extent s))) as (w3 & -> & T3 & L3); [lia|]. simpl.
  unfold set_block. simpl. rewrite Hm. simpl. unfold csum_update. simpl. rewrite Hf.
  destruct (array_set_take w3 (block_size f / 4 - 1) 0) as (w4 & -> & T4 & L4); [lia|]. simpl.
  destruct (array_set_take w4 (block_size f / 4 - 1) (u32 (extent_csum (store f) w4))) as (w5 & -> & T5 & L5); [lia|]. simpl.
  eexists. split; [done|]. split; [done|]. unfold overflowed; simpl. split_and!; try done.
  exists w5, p, nl. split_and!; try done; congruence.
Qed.

Lemma overflowed_data f l m s v : overflowed f l m s -> overflowed f l m (with_data s v).
Proof. by intros. Qed.
Lemma push_overflowed fuel f l m s b :
  overflowed f l m s -> size_ok f ->
  exists s', push_extent_ext4 (S fuel) (with_data s (emplace_back (block_data s) b)) b (size (block_data s)) = Done (s', true) /\ overflowed f l m s'.
Proof.
  intros Hov Hbs. apply (overflowed_data _ _ _ _ (emplace_back (block_data s) b)) in Hov as Hov'.
  generalize dependent (with_data s (emplace_back (block_data s) b)). intros s0 Hov'.
  destruct (push_block fuel f l m _ b Hov' Hbs) as (p & s' & Hmax & E & Hov2). exists s'. split; [|done].
  destruct (Hov') as (_ & Hr & _ & Hi & _). unfold push_extent_ext4. rewrite Hi. cbn [mbind outcome_bind negb]. rewrite Hr.
  destruct (index_root_header m) as (_ & He & Hmx & Hd). rewrite Hd, He, Hmx. cbn [mbind outcome_bind negb Z.eqb andb]. by rewrite Hmax, E.
Qed.

Lemma claim_metadata_block_size (f f' : extfs W) r : claim_metadata_block f = Done (f', r) -> block_size f' = block_size f.
Proof.
  unfold claim_metadata_block. destruct (first_group _ _ _) as [[i g]|]; [|by intros [= <- _]].
  destruct (Bitmap.bitmap_set_chain_bits _ _ _) as [bm|]; [|done]. simpl. unfold alter_available_blocks, update_free_block_count, write_sb.
  destruct (persist_sb _ _) as [w ok]. intros [= <- _]. done.
Qed.

Lemma copy_root_nodes mx l rest r :
  length l = 4%nat -> (12 <= length rest)%nat -> take 3 r ++ drop 3 r = r -> drop 3 r = leaves 0 l ->
  array_copy_nodes (new_header mx 1 ++ rest) r 4 = Done (new_header mx 1 ++ leaves 0 l ++ drop 12 rest).
Proof.
  intros Hl Hrest Hr Hd. unfold array_copy_nodes. change (Z.to_nat (3 * 4)) with 12%nat. change (Z.to_nat (3 + 3 * 4)) with 15%nat.
  assert (length (drop 3 r) = 12%nat) as Hlr by (rewrite Hd, length_leaves; lia). rewrite length_drop in Hlr.
  rewrite length_app. simpl (length (new_header mx 1)).
  destruct (Z.ltb_spec (Z.of_nat (3 + length rest)) (3 + 3 * 4)); [lia|]. destruct (Z.ltb_spec (Z.of_nat (length r)) (3 + 3 * 4)); [lia|].
  cbn [orb]. rewrite Hd. rewrite (take_ge (leaves 0 l)) by (rewrite length_leaves; lia). simpl. done.
Qed.

Definition deeper_root (l : list disk_block) : list Z := [ext_extent_magic + 65536 * 4; 4 + 65536; 0] ++ leaves 0 l.
Lemma root_deepen l : length l = 4%nat -> set_hdr_depth (root_of l) (0 + 1) = Done (deeper_root l) /\ hdr_max_entries (deeper_root l) = Done 4.
Proof. intros Hl. unfold root_of, deeper_root. rewrite Hl, app_nil_r. done. Qed.
Lemma cleared_root l : length l = 4%nat ->
  take 3 (deeper_root l) ++ replicate (Z.to_nat (3 * 4)) 0 ++ drop (Z.to_nat (3 + 3 * 4)) (deeper_root l) =
  [ext_extent_magic + 65536 * 4; 4 + 65536; 0; 0; 0; 0] ++ replicate 9 0.
Proof.
  intros Hl. unfold deeper_root. rewrite (drop_ge _ (Z.to_nat (3 + 3 * 4))) by (rewrite length_app, length_leaves; simpl; lia).
  by rewrite app_nil_r.
Qed.
Lemma block_entries mx l rest : set_hdr_entries (new_header mx 1 ++ leaves 0 l ++ rest) 4 = Done (block_start (u16 mx) l ++ rest).
Proof. unfold set_hdr_entries, block_start, new_header. cbn [app]. simpl. unfold array_set. simpl. by rewrite Z.mul_1_r. Qed.

Lemma set_next_level_new s v o d x :
  exists v', set_next_level (with_tracked s (emplace_back v (MkCen o d ∅))) (size v) x = Done (with_tracked s v') /\ elems v' = elems v ++ [MkCen o d x].
Proof.
  unfold set_next_level, get_cached. cbn [tracked_extents with_tracked].
  assert (elems (emplace_back v (MkCen o d ∅)) = elems v ++ [MkCen o d ∅]) as -> by (unfold emplace_back, grow_buffer; by case_match).
  rewrite (array_get_app _ []) by done. simpl. rewrite (array_set_app _ []) by done. simpl. by eexists.
Qed.

(** The fifth extent. *)
Lemma root_overflow f f' l m s :
  in_root f l s -> length l = 4%nat -> size_ok f -> claim_metadata_block f = Done (f', Some m) ->
  exists s', ext4_root_overflow s = Done (s', true) /\ overflowed f' l m s'.
Proof.
  intros (Hf & Hr & Hu & Hi & Hd & Ht & Hm) Hl [Hbs1 Hbs2] Hclaim. pose proof (claim_metadata_block_size _ _ _ Hclaim) as Hbs.
  unfold ext4_root_overflow, claim_meta. rewrite Hd, Hf, Hclaim. cbn [mbind outcome_bind Z.ltb Z.compare]. cbn [root with_meta with_count with_fs base_depth efs cached_metadata]. rewrite Hr, Hm, Hd.
  destruct (root_of_header l) as (_ & _ & _ & ->); [lia|]. cbn [mbind outcome_bind]. destruct (root_deepen l Hl) as [-> E2]. cbn [mbind outcome_bind]. rewrite E2. cbn [mbind outcome_bind].
  change (array_get (elems (emplace_back vnil ?x)) (size vnil)) with (Done x). cbn [mbind outcome_bind mwords]. change (u16 (0 + 1)) with 1. change (4 `min` 4) with 4.
  assert (18 < block_size f / 4) as Hw by zlia.
  rewrite (copy_root_nodes _ l) by (rewrite ?length_drop, ?length_replicate; done || lia). cbn [mbind outcome_bind]. rewrite block_entries. cbn [mbind outcome_bind].
  rewrite (cleared_root l Hl).
  change (array_set ([?a; ?b; ?c; ?d; ?e; ?f] ++ ?r) (node_start 0) 0) with (Done ([a; b; c; 0; e; f] ++ r)). cbn [mbind outcome_bind].
  change (array_set ([?a; ?b; ?c; ?d; ?e; ?f] ++ ?r) (node_start 0 + 1) ?x) with (Done ([a; b; c; d; x; f] ++ r)). cbn [mbind outcome_bind].
  change (array_set ([?a; ?b; ?c; ?d; ?e; ?f] ++ ?r) (node_start 0 + 2) ?x) with (Done ([a; b; c; d; e; x] ++ r)). cbn [mbind outcome_bind].
  unfold set_block. cbn [cached_metadata with_depth with_meta with_count with_fs].
  change (array_set (elems (emplace_back vnil ?x)) (size vnil) ?y) with (Done [y]). cbn [mbind outcome_bind].
  unfold track. cbn [tracked_extents with_meta with_depth with_count with_fs base_extent_level with_tracked].
  match goal with |- context [set_next_level (with_tracked ?t (emplace_back ?v (MkCen ?o ?d ∅))) ?p ?x] => destruct (set_next_level_new t v o d x) as (v' & -> & Hv') end.
  cbn [mbind outcome_bind]. change (set_hdr_entries ([?a; ?b; ?c; ?d; ?e; ?g] ++ ?r) 1) with (Done ([ext_extent_magic + 65536; b; c; d; e; g] ++ r)). cbn [mbind outcome_bind].
  eexists. split; [done|]. unfold overflowed; simpl. split_and!; try done.
  eexists _, (size (tracked_extents s)), _. split; [done|]. rewrite Hbs, (wrap_small 16) by (unfold in_range; zlia). split_and!.
  - cbn [length]. rewrite length_app, drop_drop, length_drop, length_replicate, length_leaves, Hl. lia.
  - change (?a :: ?b :: ?c :: leaves 0 l ++ ?r) with (([a; b; c] ++ leaves 0 l) ++ r). rewrite take_app_length'; [done|]. rewrite length_app, length_leaves, Hl. done.
  - done.
  - unfold size. lia.
  - rewrite Hv'. unfold size. rewrite Nat2Z.id. by apply list_lookup_middle.
Qed.

Lemma push_fifth fuel f f' l m s b :
  in_root f l s -> length l = 4%nat -> size_ok f -> claim_metadata_block f = Done (f', Some m) ->
  exists s', push_extent_ext4 (S fuel) (with_data s (emplace_back (block_data s) b)) b (size (block_data s)) = Done (s', true) /\ overflowed f' l m s'.
Proof.
  intros Hin Hl Hbs Hclaim. assert (in_root f l (with_data s (emplace_back (block_data s) b))) as Hin' by done.
  generalize dependent (with_data s (emplace_back (block_data s) b)). intros s0 Hin'.
  destruct (root_overflow f f' l m s0) as (s1 & E1 & Hov); [done..|].
  assert (size_ok f') as Hbs' by (unfold size_ok in *; by rewrite (claim_metadata_block_size _ _ _ Hclaim)).
  destruct (push_block fuel f' l m s1 b Hov Hbs') as (p & s2 & Hmax & E2 & Hov2). exists s2. split; [|done].
  destruct Hin' as (_ & Hr & _ & Hi & _). unfold push_extent_ext4. rewrite Hi. cbn [mbind outcome_bind negb]. rewrite Hr.
  destruct (root_of_header l) as (_ & He & Hmx & Hd); [lia|]. rewrite Hd, He, Hmx, Hl. cbn [mbind outcome_bind]. simpl (_ && _). cbv iota.
  simpl (0 =? 0). cbv iota. rewrite E1. cbn [mbind outcome_bind negb]. by rewrite Hmax, E2.
Qed.

Lemma push_all_overflowed fuel f l m s rest :
  overflowed f l m s -> size_ok f -> exists s', push_all (S fuel) s rest = Done (s', true) /\ overflowed f l m s'.
Proof.
  intros Hov Hbs. revert s Hov. induction rest as [|b rest IH]; intros s Hov; [by exists s|].
  destruct (push_overflowed fuel f l m s b) as (s1 & E & Hov1); [done..|]. cbn [push_all]. rewrite E. by apply IH.
Qed.
Lemma push_all_app fuel s l1 l2 s1 : push_all fuel s l1 = Done (s1, true) -> push_all fuel s (l1 ++ l2) = push_all fuel s1 l2.
Proof.
  revert s. induction l1 as [|b l1 IH]; intros s; simpl; [by intros [= ->]|].
  destruct (push_extent_ext4 _ _ _ _) as [[s2 [|]]| |]; simpl; done || apply IH.
Qed.

(** A file of more than four extents. *)
Lemma push_all_long fuel f f' l m ct rest :
  length l = 4%nat -> rest <> [] -> Forall extent_ok l -> blocks_in l < 2 ^ 32 -> size_ok f -> claim_metadata_block f = Done (f', Some m) ->
  exists s0 s1, parse_ext4 fuel (unopened f new_root true ct) = Done (s0, true) /\ push_all (S fuel) s0 (l ++ rest) = Done (s1, true) /\ overflowed f' l m s1.
Proof.
  intros Hl Hrest Hok Hsum Hbs Hclaim. destruct (opened_new fuel f ct) as (s0 & E0 & Hin0). exists s0.
  destruct (push_all_in_root (S fuel) f [] l s0) as (s1 & E1 & Hin1); [done|simpl; lia|done..|]. destruct rest as [|b rest]; [done|].
  destruct (push_fifth fuel f f' l m s1 b) as (s2 & E2 & Hov2); [done..|].
  assert (size_ok f') as Hbs' by (unfold size_ok in *; by rewrite (claim_metadata_block_size _ _ _ Hclaim)).
  destruct (push_all_overflowed fuel f' l m s2 rest) as (s3 & E3 & Hov3); [done..|].
  exists s3. split_and!; try done. rewrite (push_all_app _ _ _ _ _ E1). cbn [push_all]. by rewrite E2.
Qed.

Lemma block_leaf ws mx l i b :
  take 15 ws = block_start mx l -> Forall extent_ok l -> blocks_in l < 2 ^ 32 -> l !! i = Some b ->
  leaf_at ws (Z.of_nat i) = Done (blocks_in (take i l), chain_len b, block_number b).
Proof.
  intros Ht Hok Hsum Hi. assert (ws = block_start mx l ++ drop 15 ws) as -> by (by rewrite <- Ht, take_drop).
  pose proof (take_drop_middle _ _ _ Hi) as Hl. pose proof (lookup_lt_Some _ _ _ Hi). unfold block_start.
  rewrite <- Hl in Hok, Hsum. apply Forall_app in Hok as [Hok1 [Hb Hok2]%Forall_cons]. pose proof (blocks_in_nonneg _ Hok1). pose proof (blocks_in_nonneg _ Hok2).
  rewrite blocks_in_app in Hsum. simpl in Hsum. change (foldr _ 0 (drop _ _)) with (blocks_in (drop (S i) l)) in Hsum. destruct (Hb) as [Hc _].
  rewrite <- Hl at 1. rewrite leaves_app. cbn [leaves]. rewrite <- !app_assoc, Z.add_0_l, app_assoc.
  apply leaf_at_app; [|done|unfold in_range; lia]. rewrite length_app, length_leaves, length_take. unfold node_start. simpl. lia.
Qed.

(** ** Opening a file whose tree has a level below the root *)
Lemma index_root_at m : 0 <= m < 2 ^ 48 -> index_at (index_root m) 0 = Done (0, m).
Proof.
  intros Hm. unfold index_at, index_root. simpl. rewrite (wrap_small 16 (m / 2 ^ 32)) by (split; [apply Z.div_pos; lia|apply Z.div_lt_upper_bound; lia]).
  rewrite Z.mod_small by (split; [apply Z.div_pos; lia|apply Z.div_lt_upper_bound; lia]).
  do 2 f_equal. unfold qword, wrap. pose proof (Z.div_mod m (2 ^ 32)). lia.
Qed.

(** The leaves of the block are taken for indices, since its header has the depth of the root. *)
Lemma block_index ws mx l : take 15 ws = block_start mx l -> l <> [] -> Forall extent_ok l -> exists st n, index_at ws 0 = Done (st, n) /\ n <> 0.
Proof.
  intros Ht Hl Hok. destruct l as [|b l]; [done|]. apply Forall_cons in Hok as [[Hc Hn] _].
  assert (ws = block_start mx (b :: l) ++ drop 15 ws) as -> by (by rewrite <- Ht, take_drop).
  unfold index_at, block_start, leaf_words. simpl. do 2 eexists. split; [done|].
  rewrite (wrap_small 16 (chain_len b)) by (unfold in_range; lia). unfold qword.
  pose proof (wrap_range 16 (block_number b / 2 ^ 32) ltac:(lia)) as [? _]. pose proof (Z.mod_pos_bound (u32 (block_number b)) 65536). lia.
Qed.

(** The first node of a block below the root: a leaf, or an index of some block. *)
Definition first_node (ws : list Z) : Prop :=
  exists e hd, hdr_entries ws = Done e /\ 1 <= e /\ hdr_depth ws = Done hd /\
  ((hd = 0 /\ exists st len n, leaf_at ws 0 = Done (st, len, n)) \/ (hd <> 0 /\ exists st n, index_at ws 0 = Done (st, n) /\ n <> 0)).

Lemma insert_empty pos (x : disk_block) : insert vnil pos x = Done (vnil, 0).
Proof. unfold insert, insert_range, out_of_range. simpl. destruct (Z.ltb_spec pos 0); [done|]. simpl. destruct (Z.leb_spec 0 pos); [done|lia]. Qed.
Lemma insert_blocks_empty count pos n : insert_blocks count vnil pos n = Done vnil.
Proof. revert pos n. induction count as [|c IH]; intros pos n; simpl; [done|]. rewrite insert_empty. simpl. apply IH. Qed.

(** The node of the block is the only one known and the vector is full: entering the next
    one moves it, and the code goes on with the old one. *)
Lemma first_step_dangles rec t d hd ws o nl :
  tracked_extents t = MkVec [MkCen o d nl] 1 -> block_data t = vnil ->
  ((hd = 0 /\ exists st len n, leaf_at ws 0 = Done (st, len, n)) \/ (hd <> 0 /\ exists st n, index_at ws 0 = Done (st, n) /\ n <> 0)) ->
  forall t', (if hd =? 0 then recurse_leaf t 0 1 hd ws 0 else recurse_index rec t 0 1 hd ws 0) <> Done (t', true).
Proof.
  intros Ht Hb [[-> (st & len & n & E)]|[Hhd (st & n & E & Hn)]] t'.
  - simpl. unfold recurse_leaf. rewrite E. cbn [mbind outcome_bind]. rewrite Ht. unfold insert_extent. rewrite Hb, insert_empty. cbn [mbind outcome_bind valid cap Z.eqb Pos.eqb].
    rewrite insert_blocks_empty. cbn [mbind outcome_bind]. unfold track. cbn [tracked_extents with_data with_tracked]. rewrite Ht. done.
  - destruct (Z.eqb_spec hd 0); [done|]. unfold recurse_index. rewrite E. cbn [mbind outcome_bind]. destruct (Z.eqb_spec n 0); [done|].
    rewrite Ht. cbn [valid cap mbind outcome_bind]. simpl (1 =? 1). cbv iota. unfold load_meta. destruct (Z.eqb_spec n 0); [done|].
    destruct (read_words _ _); [|done]. cbn [negb]. unfold track. cbn [tracked_extents with_meta with_tracked]. rewrite Ht. done.
Qed.

Lemma nl_recurse_dangles fuel t d nl off (mb : meta_block) :
  tracked_extents t = MkVec [MkCen (Some off) d nl] 1 -> block_data t = vnil -> d <> 0 ->
  array_get (elems (cached_metadata t)) off = Done mb -> first_node (mwords mb) -> forall t', nl_recurse_ext4 fuel t 0 <> Done (t', true).
Proof.
  intros Ht Hb Hd Hblk (e & hd & He & He1 & Hhd & Hfirst) t'. destruct fuel as [|fuel]; [done|]. cbn [nl_recurse_ext4].
  unfold get_cached, block. rewrite Ht. cbn [elems]. change (array_get [?x] 0) with (Done x). cbn [mbind outcome_bind depth blk_offset or_undef].
  destruct (Z.eqb_spec d 0); [done|]. rewrite Hblk. cbn [mbind outcome_bind].
  destruct (hdr_magic (mwords mb)) as [mg| |]; [|done..]. cbn [mbind outcome_bind]. destruct (negb (mg =? ext_extent_magic)); [done|].
  rewrite He, Hhd. cbn [mbind outcome_bind cap]. destruct (Z.to_nat e) as [|k] eqn:Ek; [lia|]. cbn [recurse_nodes].
  pose proof (first_step_dangles (nl_recurse_ext4 fuel) t d hd (mwords mb) (Some off) nl Ht Hb Hfirst) as Hstep.
  destruct (if hd =? 0 then _ else _) as [[t1 [|]]| |]; cbn [mbind outcome_bind]; [|done..]. by destruct (Hstep t1).
Qed.

(** A file whose extent tree has a level below the root is not opened: the first node found in the block
    that the root leads to makes the vector of cached nodes grow, and the recursion
    goes on with the node it was called on, which is gone. *)
Lemma deep_tree_never_opens fuel (f : extfs W) r ct st m ws d e s :
  hdr_magic r = Done ext_extent_magic -> hdr_depth r = Done d -> d <> 0 -> hdr_entries r = Done e -> 1 <= e ->
  index_at r 0 = Done (st, m) -> m <> 0 -> read_words (store f) m = Some ws -> first_node ws ->
  parse_ext4 fuel (unopened f r true ct) <> Done (s, true).
Proof.
  intros Hmag Hd Hd0 He He1 Hidx Hm Hread Hfirst. unfold parse_ext4. cbn [has_init unopened root]. rewrite Hmag, Hd, He.
  cbn [mbind outcome_bind]. rewrite Z.eqb_refl. cbn [negb]. destruct (Z.to_nat (e `min` 4)) as [|k] eqn:Ek; [lia|].
  cbn [parse_root base_depth with_depth]. destruct (Z.eqb_spec d 0); [done|]. unfold parse_root_index. cbn [root with_depth unopened]. rewrite Hidx.
  cbn [mbind outcome_bind]. destruct (Z.eqb_spec m 0); [done|]. unfold load_meta. destruct (Z.eqb_spec m 0); [done|].
  cbn [efs with_depth unopened]. rewrite Hread. cbn [negb]. cbv zeta. unfold track.
  match goal with |- context [nl_recurse_ext4 fuel ?t ?p] => pose proof (nl_recurse_dangles fuel t d ∅ 0 (MkMeta m ws false)) as Hrec; change p with 0 end.
  destruct (nl_recurse_ext4 fuel _ 0) as [[t [|]]| |]; cbn [mbind outcome_bind]; [|done..].
  exact (False_ind _ (Hrec eq_refl eq_refl Hd0 eq_refl Hfirst t eq_refl)).
Qed.

(** ** Properties *)

(** C19: A file of up to four extents is read back: the tree that was filled by pushing extents into a new
    inode is parsed into exactly the blocks of those extents, in order. *)
Theorem small_file_roundtrip fuel (f : extfs W) ct l :
  (length l <= 4)%nat -> Forall extent_ok l -> blocks_in l < 2 ^ 32 ->
  exists s0 s1 s2, parse_ext4 fuel (unopened f new_root true ct) = Done (s0, true) /\ push_all fuel s0 l = Done (s1, true) /\
    parse_ext4 fuel (unopened (efs s1) (root s1) true (blocks_count s1)) = Done (s2, true) /\
    elems (block_data s2) = file_blocks l /\ total_extent s2 = blocks_in l.
Proof.
  intros Hl Hok Hsum. destruct (opened_new fuel f ct) as (s0 & E0 & Hin0). exists s0.
  destruct (push_all_in_root fuel f [] l s0) as (s1 & E1 & (Hf & Hr & _)); [done|done|done|done|]. exists s1. simpl in Hr.
  destruct (root_of_header l Hl) as (Hmag & He & _ & Hd).
  destruct (parse_root_leaves fuel [] l (with_depth (unopened (efs s1) (root s1) true (blocks_count s1)) 0)) as (s2 & E2 & (_ & _ & Ht & Hb & _) & _); [|done|done|].
  { unfold parsed. simpl. rewrite Hr. split_and!; done. }
  exists s2. split_and!; try done. unfold parse_ext4. cbn [has_init unopened root]. rewrite Hr, Hmag, He, Hd.
  cbn [mbind outcome_bind]. rewrite Z.eqb_refl. cbn [negb]. rewrite Z.min_l, Nat2Z.id by lia. rewrite Hr in E2. exact E2.
Qed.

(** The fifth extent breaks a file: pushing it and any later ones succeeds, but the block that the
    root leads to counts the four extents that were moved there and no more, and
    since its header has the depth of the root, its extents are taken for blocks of
    the tree and the file is never opened again. *)
Theorem fifth_extent_breaks_file fuel f f' l m ct rest :
  length l = 4%nat -> rest <> [] -> Forall extent_ok l -> blocks_in l < 2 ^ 32 -> size_ok f ->
  claim_metadata_block f = Done (f', Some m) -> 0 < m < 2 ^ 48 ->
  exists s0 s1 ws, parse_ext4 fuel (unopened f new_root true ct) = Done (s0, true) /\ push_all (S fuel) s0 (l ++ rest) = Done (s1, true) /\
    root s1 = index_root m /\ elems (cached_metadata s1) = [MkMeta m ws true] /\ hdr_entries ws = Done 4 /\
    (forall i b, l !! i = Some b -> leaf_at ws (Z.of_nat i) = Done (blocks_in (take i l), chain_len b, block_number b)) /\
    forall f2 fuel2 s2, read_words (store f2) m = Some ws -> parse_ext4 fuel2 (unopened f2 (root s1) true (blocks_count s1)) <> Done (s2, true).
Proof.
  intros Hl Hrest Hok Hsum Hbs Hclaim Hm. destruct (push_all_long fuel f f' l m ct rest) as (s0 & s1 & E0 & E1 & Hov); [done..|].
  destruct Hov as (_ & Hr & _ & _ & _ & ws & p & nl & Hmeta & _ & Htake & _). exists s0, s1, ws.
  destruct (header_words ws _ l Htake) as (_ & He' & _ & Hd'). { rewrite (claim_metadata_block_size _ _ _ Hclaim). destruct Hbs. zlia. }
  split_and!; try done.
  - intros i b Hi. by eapply block_leaf.
  - intros f2 fuel2 s2 Hread. rewrite Hr. destruct (index_root_header m) as (Hmag & He & _ & Hd).
    destruct (block_index ws _ l Htake) as (st & n & Hidx & Hn); [by destruct l|done|].
    eapply (deep_tree_never_opens fuel2 f2); [done|done|done|done|lia|apply index_root_at; lia|lia|done|].
    exists 4, 1. split_and!; [done|lia|done|]. right. split; [done|]. by exists st, n.
Qed.

(** ** The older format *)
Lemma legacy_direct_step k s i b :
  array_get (root s) i = Done b -> b <> 0 -> block_data s = vnil ->
  legacy_direct (S k) s 0 i = legacy_direct k (let s1 := fst (track (with_data s vnil) (Some 0) 0) in with_total s1 (u64 (total_extent s1 + 1))) 0 (i + 1).
Proof. intros Hb Hbz Hd. cbn [legacy_direct]. rewrite Hb. cbn [mbind outcome_bind]. destruct (Z.eqb_spec b 0); [done|]. by rewrite Hd, insert_empty. Qed.
Lemma legacy_direct_empty k i s :
  block_data s = vnil -> 0 <= total_extent s -> total_extent s + Z.of_nat k < 2 ^ 64 ->
  (forall j, (j < k)%nat -> exists b : Z, root s !! (i + j)%nat = Some b /\ b <> 0) -> root s !! (i + k)%nat = Some 0 ->
  exists s', legacy_direct (S k) s 0 (Z.of_nat i) = Done (s', false) /\ block_data s' = vnil /\ total_extent s' = total_extent s + Z.of_nat k.
Proof.
  revert i s. induction k as [|k IH]; intros i s Hb Ht0 Ht Hnz Hz.
  - rewrite Nat.add_0_r in Hz. cbn [legacy_direct]. rewrite (proj2 (array_get_Done _ (Z.of_nat i) 0)) by (rewrite Nat2Z.id; split; [lia|done]). simpl.
    exists s. rewrite Z.add_0_r. done.
  - destruct (Hnz 0%nat) as (b & Hb0 & Hbz); [lia|]. rewrite Nat.add_0_r in Hb0.
    rewrite (legacy_direct_step _ _ _ b) by first [done | apply array_get_Done; rewrite Nat2Z.id; split; [lia|done]]. cbn [track fst]. cbv zeta.
    match goal with |- context [legacy_direct _ ?t 0 _] => destruct (IH (S i) t) as (s' & E & Hb' & Ht') end; try done.
    + cbn [total_extent with_total with_tracked with_data]. apply wrap_range. lia.
    + cbn [total_extent with_total with_tracked with_data]. rewrite wrap_small; [lia|]. unfold in_range. lia.
    + intros j Hj. cbn [root with_total with_tracked with_data]. destruct (Hnz (S j)) as (b' & ? & ?); [lia|]. exists b'. by rewrite Nat.add_succ_r in *.
    + cbn [root with_total with_tracked with_data]. by rewrite Nat.add_succ_r in *.
    + exists s'. rewrite Nat2Z.inj_succ, <- Z.add_1_r in E. rewrite E. split; [done|]. split; [done|].
      rewrite Ht'. cbn [total_extent with_total with_tracked with_data]. rewrite wrap_small; [lia|]. unfold in_range. lia.
Qed.

(** A file of up to eleven blocks in the older format is opened with its length, but
    without a data block: the vector refuses to insert into storage it does not have. *)
Lemma legacy_file_opens_empty fuel (f : extfs W) r ct (k : nat) :
  (k < 12)%nat -> (forall j, (j < k)%nat -> exists b : Z, r !! j = Some b /\ b <> 0) -> r !! k = Some 0 ->
  exists s, parse_legacy fuel (unopened f r false ct) = Done (s, true) /\ total_extent s = Z.of_nat k /\ block_data s = vnil.
Proof.
  intros Hk Hnz Hz. destruct (legacy_direct_empty k 0 (unopened f r false ct)) as (s & E & Hb & Ht); [done|done|simpl; lia|done|done|].
  exists (with_init s). split; [|done]. unfold parse_legacy. cbn [has_init unopened].
  assert (forall c s0 i t, legacy_direct c s0 0 i = Done (t, false) -> forall c', (c <= c')%nat -> legacy_direct c' s0 0 i = Done (t, false)) as Hmono.
  { clear. induction c as [|c IH]; intros s0 i t; [done|]. intros H [|c'] Hle; [lia|]. cbn [legacy_direct] in *.
    destruct (array_get (root s0) i) as [b| |]; cbn [mbind outcome_bind] in *; [|done..]. destruct (b =? 0); [done|].
    destruct (valid 0 _); cbn [mbind outcome_bind] in *; [|done..]. destruct (insert _ _ _) as [[v off]| |]; cbn [mbind outcome_bind] in *; [|done..].
    apply IH; [done|lia]. }
  change (cap (block_data _)) with 0. change (Z.of_nat 0) with 0 in E. rewrite (Hmono _ _ _ _ E 12%nat) by lia. done.
Qed.

End Tree.

(** ** Witnesses: a device of 1024-byte blocks *)
Module Device.
#[export] Instance unit_device : ExtDevice unit :=
  {| read_words _ _ := None; log_inode w _ := (w, true); extent_csum _ ws := Z.of_nat (length ws) |}.
#[export] Instance unit_store : ExtStore unit := {| persist_sb w _ := (w, true); create_txn w _ _ := (w, true) |}.
Definition group : ext_block_group := MkGroup (MkDesc 40 100 60 1 0 0 0) (7 :: replicate 127 0) 1 (7 :: replicate 127 0) 1.
Definition disk : extfs unit := MkExt (MkSb 0 8192 64 128 100 0 60) [group] ().
Definition extents : list disk_block := [MkBlk 100 false 2; MkBlk 200 false 1; MkBlk 300 false 3; MkBlk 400 false 1].
Lemma extents_ok : Forall extent_ok extents.
Proof. repeat constructor; simpl; lia. Qed.
End Device.

Import Device.
Lemma small_file_roundtrip_witness :
  exists s0 s1 s2, parse_ext4 9 (unopened disk new_root true (0, 0)) = Done (s0, true) /\ push_all 9 s0 extents = Done (s1, true) /\
    parse_ext4 9 (unopened (efs s1) (root s1) true (blocks_count s1)) = Done (s2, true) /\
    block_number <$> elems (block_data s2) = [100; 101; 200; 300; 301; 302; 400] /\ total_extent s2 = 7.
Proof.
  destruct (small_file_roundtrip 9 disk (0, 0) extents) as (s0 & s1 & s2 & ? & ? & ? & Hb & Ht);
    [simpl; lia|apply extents_ok|done|]. exists s0, s1, s2. rewrite Hb. split_and!; done.
Defined.

Lemma fifth_extent_breaks_file_witness :
  exists s0 s1 ws, parse_ext4 9 (unopened disk new_root true (0, 0)) = Done (s0, true) /\
    push_all 10 s0 (extents ++ [MkBlk 500 false 1; MkBlk 600 false 1]) = Done (s1, true) /\
    elems (cached_metadata s1) = [MkMeta 3 ws true] /\ hdr_entries ws = Done 4.
Proof.
  destruct (claim_metadata_block disk) as [[f' [m|]]| |] eqn:E; [|vm_compute in E; discriminate..].
  assert (m = 3) as -> by (vm_compute in E; by injection E).
  destruct (fifth_extent_breaks_file 9 disk f' extents 3 (0, 0) [MkBlk 500 false 1; MkBlk 600 false 1])
    as (s0 & s1 & ws & ? & ? & _ & ? & ? & _); [done|done|apply extents_ok|done|done|done|done|].
  by exists s0, s1, ws.
Defined.
End ExtExtentProps.
