(* ===== verification/ExtDir.v ===== *)
(** Directories of the ext file system (the entries of [ext_directory_vnode],
    kernel/fs/ext/ext_node.cpp).

    A directory is the bytes of its blocks with a cursor, the names known in memory
    ([directory_tnodes], a set ordered by name, here with the inode of each node), the
    place of each name's entry, and its counters.  Claiming blocks, writing, the
    checksum of a block and the nodes that exist for an inode are an interface.  Opening
    nodes ahead of their use (EAGER_LOAD) and the mark of system nodes are left out. *)
From S2P Require Import Prelude Bytes.
Import Bytes.

Module ExtDir.

(** ** Data *)
Definition name := list Z.
(** [ext_dir_entry] at a position of the buffer: its header. *)
Record dir_entry := MkDe { inode_idx : Z; entry_size : Z; name_len : Z; type_ind : Z }.
Definition dti_dir : Z := 2.

(** [directory_tnodes.emplace] *)
Definition emplace_name (t : gmap name Z) (nm : name) (inode : Z) : gmap name Z :=
  match t !! nm with Some _ => t | None => <[nm := inode]> t end.

Class DirStore (W : Type) := {
  claim_dir_block : W -> W * bool;      (* [claim_blocks] for one block *)
  dir_fsync : W -> list Z -> W * bool;  (* [fsync] of the directory *)
  node_fsync : W -> Z -> W * bool;      (* [update_inode] of another node *)
  dir_csum : W -> list Z -> Z;
  node_exists : W -> Z -> bool;         (* [dirent_to_vnode] finds a node *)
  is_ext_vnode : W -> Z -> bool }.      (* the node is an [ext_vnode], not a device *)

Record dirnode (W : Type) := MkDir {
  self : Z;
  bs : Z;
  buf : list Z;
  cur : Z;
  tnodes : gmap name Z;
  dir_index : gmap name (Z * Z);
  file_count : Z;
  subdir_count : Z;
  links : gmap Z Z;                     (* [referencing_dirents] of the inodes *)
  initialized : bool;
  dstore : W }.
Arguments MkDir {W} self bs buf cur tnodes dir_index file_count subdir_count links initialized dstore.
Arguments self {W} d.
Arguments bs {W} d.
Arguments buf {W} d.
Arguments cur {W} d.
Arguments tnodes {W} d.
Arguments dir_index {W} d.
Arguments file_count {W} d.
Arguments subdir_count {W} d.
Arguments links {W} d.
Arguments initialized {W} d.
Arguments dstore {W} d.

Section Dir.
Context {W : Type} `{!DirStore W}.
Implicit Types (d : dirnode W) (nm : name).

Definition with_buf d (b : list Z) : dirnode W :=
  MkDir (self d) (bs d) b (cur d) (tnodes d) (dir_index d) (file_count d) (subdir_count d) (links d) (initialized d) (dstore d).
Definition with_cur d (c : Z) : dirnode W :=
  MkDir (self d) (bs d) (buf d) c (tnodes d) (dir_index d) (file_count d) (subdir_count d) (links d) (initialized d) (dstore d).
Definition with_names d (t : gmap name Z) (x : gmap name (Z * Z)) : dirnode W :=
  MkDir (self d) (bs d) (buf d) (cur d) t x (file_count d) (subdir_count d) (links d) (initialized d) (dstore d).
Definition with_counts d (f s : Z) : dirnode W :=
  MkDir (self d) (bs d) (buf d) (cur d) (tnodes d) (dir_index d) f s (links d) (initialized d) (dstore d).
Definition with_links d (l : gmap Z Z) : dirnode W :=
  MkDir (self d) (bs d) (buf d) (cur d) (tnodes d) (dir_index d) (file_count d) (subdir_count d) l (initialized d) (dstore d).
Definition with_init d (b : bool) : dirnode W :=
  MkDir (self d) (bs d) (buf d) (cur d) (tnodes d) (dir_index d) (file_count d) (subdir_count d) (links d) b (dstore d).
Definition with_store d (w : W) : dirnode W :=
  MkDir (self d) (bs d) (buf d) (cur d) (tnodes d) (dir_index d) (file_count d) (subdir_count d) (links d) (initialized d) w.
Definition max_ d : Z := Z.of_nat (length (buf d)).
(** [__setc]: a position outside the buffer is ignored. *)
Definition setc d (c : Z) : dirnode W := if (0 <=? c) && (c <=? max_ d) then with_cur d c else d.
(** [referencing_dirents += k] *)
Definition add_link d (inode k : Z) : dirnode W :=
  with_links d (<[inode := u16 (default 0 (links d !! inode) + k)]> (links d)).
Definition fsync d : dirnode W * bool := let '(w, ok) := dir_fsync (dstore d) (buf d) in (with_store d w, ok).

(** ** Entries *)
Definition entry_at (b : list Z) (p : Z) : outcome dir_entry :=
  i ← rd b p 4; s ← rd b (p + 4) 2; n ← rd b (p + 6) 1; t ← rd b (p + 7) 1;
  Done (MkDe (le i) (le s) (le n) (le t)).
Definition name_at (b : list Z) (p : Z) (e : dir_entry) : outcome name := rd b (p + 8) (name_len e).
Definition set_entry_size (b : list Z) (p s : Z) : outcome (list Z) := wr b (p + 4) (le_bytes 2 s).
Definition unused_dirent_space (e : dir_entry) : Z := u64 (entry_size e - (name_len e + 8)).

(** ** Reading *)

(** [__parse_entries] of one block; an entry without inode ends it.  An exception is
    caught and the result is [false]. *)
Fixpoint parse_block (fuel : nat) d (i n : Z) : outcome (dirnode W * bool) :=
  if bs d <=? n then Done (d, true) else
  match fuel with
  | O => NoFuel
  | S f =>
      let p := bs d * i + n in
      e ← entry_at (buf d) p;
      if inode_idx e =? 0 then Done (d, true) else
      nm ← name_at (buf d) p e;
      if negb (node_exists (dstore d) (inode_idx e)) then Done (d, false) else
      parse_block f (with_names d (emplace_name (tnodes d) nm (inode_idx e)) (<[nm := (i, n)]> (dir_index d))) i (n + entry_size e)
  end.
Fixpoint parse_blocks (count fuel : nat) d (i : Z) : outcome (dirnode W * bool) :=
  match count with
  | O => Done (d, true)
  | S k => '(d1, ok) ← parse_block fuel d i 0; if ok : bool then parse_blocks k fuel d1 (i + 1) else Done (d1, false)
  end.
Definition parse_entries (fuel : nat) d : outcome (dirnode W * bool) :=
  '(d1, ok) ← parse_blocks (Z.to_nat (max_ d / bs d)) fuel d 0;
  if negb ok then Done (d1, false) else
  let '(w, ok) := node_fsync (dstore d1) (self d1) in Done (with_store d1 w, ok).
(** [on_open], with the blocks of the directory read into the buffer *)
Definition on_open (fuel : nat) d : outcome (dirnode W * bool) :=
  if initialized d then Done (d, true) else
  '(d1, ok) ← parse_entries fuel d; Done (with_init d1 ok, ok).
Definition find_l d nm : option Z := tnodes d !! nm.

(** ** Writing *)

(** [__seek_available_entry]: whether the entry at the cursor can be used as it is. *)
Fixpoint seek_available_entry (fuel : nat) d (needed_len : Z) : outcome (dirnode W * bool) :=
  if max_ d <=? cur d then Done (setc d (max_ d), false) else
  match fuel with
  | O => NoFuel
  | S f =>
      e ← entry_at (buf d) (cur d);
      if (inode_idx e =? 0) && (needed_len <=? entry_size e) then Done (d, true)
      else if needed_len <=? unused_dirent_space e then Done (d, false)
      else seek_available_entry f (setc d (cur d + entry_size e)) needed_len
  end.
(** The tail of the block of position [p], with its checksum. *)
Definition write_tail d (b : list Z) (p : Z) : outcome (list Z) :=
  let cblk := p / bs d * bs d in
  let tail cs := le_bytes 4 0 ++ le_bytes 2 12 ++ [0; 0xDE] ++ le_bytes 4 cs in
  b1 ← wr b (cblk + bs d - 12) (tail 0);
  blk ← rd b1 cblk (bs d);
  wr b1 (cblk + bs d - 12) (tail (dir_csum (dstore d) blk)).
Definition write_dir_entry d (inode type : Z) nm : outcome (dirnode W) :=
  let p := cur d in
  let len := Z.of_nat (length nm) in
  e ← entry_at (buf d) p;
  b1 ← wr (buf d) (p + 6) [u8 len; u8 type];
  b2 ← wr b1 (p + 8) nm;
  b3 ← (if len + 8 <? entry_size e then wr b2 (p + 8 + len) (replicate (Z.to_nat (entry_size e - 8 - len)) 0) else Done b2);
  b4 ← wr b3 p (le_bytes 4 inode);
  b5 ← write_tail d b4 p;
  Done (with_buf d b5).
(** [on_overflow]: a new block, divided into the entry that is needed and the rest. *)
Definition on_overflow d (n : Z) : outcome (dirnode W * bool) :=
  let '(w, ok) := claim_dir_block (dstore d) in
  if negb ok then Done (with_store d w, false) else
  let p := max_ d in
  b1 ← set_entry_size (buf d ++ replicate (Z.to_nat (bs d)) 0) p n;
  b2 ← set_entry_size b1 (p + n) (bs d - n - 12);
  Done (setc (with_buf (with_store d w) b2) p, true).
(** The entry at the cursor is divided. *)
Definition divide_entry d : outcome (dirnode W) :=
  e ← entry_at (buf d) (cur d);
  let nsz := up_to_nearest (name_len e + 8) 4 in
  b1 ← set_entry_size (buf d) (cur d) nsz;
  let d1 := setc (with_buf d b1) (cur d + nsz) in
  b2 ← set_entry_size b1 (cur d1) (u16 (entry_size e - nsz));
  Done (with_buf d1 b2).
Definition place_entry (fuel : nat) d (needed_len : Z) : outcome (dirnode W * bool) :=
  '(d1, usable) ← seek_available_entry fuel d needed_len;
  if usable : bool then Done (d1, true)
  else if cur d1 <? max_ d1 then d2 ← divide_entry d1; Done (d2, true)
  else on_overflow d1 needed_len.
Definition add_dir_entry (fuel : nat) d (inode type : Z) nm : outcome (dirnode W * bool) :=
  let len := Z.of_nat (length nm) in
  '(d1, ok) ← place_entry fuel d (up_to_nearest (len + 8) 4);
  if negb ok then Done (d1, false) else
  d2 ← write_dir_entry d1 inode type nm;
  let d3 := add_link d2 inode 1 in
  let d4 := if type =? dti_dir then with_counts d3 (file_count d3) (u64 (subdir_count d3 + 1)) else with_counts d3 (u64 (file_count d3 + 1)) (subdir_count d3) in
  Done (fsync (with_names d4 (emplace_name (tnodes d4) nm inode) (<[nm := (cur d4 / bs d4, cur d4 mod bs d4)]> (dir_index d4)))).

(** [unlink]: the entry is cleared and keeps its size; a node of the file system loses a link. *)
Definition unlink d nm : outcome (dirnode W * bool) :=
  match tnodes d !! nm, dir_index d !! nm with
  | Some inode, Some (i, n) =>
      let d0 := setc d (i * bs d + n) in
      let p := cur d0 in
      e ← entry_at (buf d) p;
      b1 ← wr (buf d) (p + 8) (replicate (Z.to_nat (name_len e)) 0);
      b2 ← wr b1 (p + 6) [0; 0];
      b3 ← wr b2 p (le_bytes 4 0);
      b4 ← write_tail d b3 p;
      let d1 := with_names (with_buf d0 b4) (tnodes d) (delete nm (dir_index d)) in
      if negb (is_ext_vnode (dstore d1) inode) then Done (fsync d1) else
      let d2 := add_link d1 inode (-1) in
      let '(w, ok) := node_fsync (dstore d2) inode in
      let d3 := with_store d2 w in
      if ok : bool then Done (fsync d3) else Done (d3, false)
  | _, _ => Done (d, false)
  end.

(** [init_dir_blank]: the first block of a new directory below [parent]. *)
Definition init_dir_blank d (parent : Z) : outcome (dirnode W * bool) :=
  let '(w, ok) := claim_dir_block (dstore d) in
  if negb ok then Done (with_store d w, false) else
  let d0 := setc (with_buf (with_store d w) (buf d ++ replicate (Z.to_nat (bs d)) 0)) 0 in
  b1 ← set_entry_size (buf d0) 0 12;
  d1 ← write_dir_entry (with_buf d0 b1) (self d) dti_dir [46];
  b2 ← set_entry_size (buf d1) 12 (bs d - 24);
  d2 ← write_dir_entry (setc (with_buf d1 b2) 12) parent dti_dir [46; 46];
  let d3 := add_link (add_link d2 parent 1) (self d) 1 in
  let d4 := with_names d3 (emplace_name (emplace_name (tnodes d3) [46] (self d)) [46; 46] parent) (dir_index d3) in
  let '(w, ok) := node_fsync (dstore d4) parent in Done (with_init (with_store d4 w) ok, ok).
End Dir.
End ExtDir.
