(* ===== verification/ExtDirProps.v ===== *)
(** Properties of the directories of the ext file system: what is read back after names are
    added and removed. *)
From S2P Require Import Prelude Bytes ExtDir.
Import Bytes ExtDir.

Module ExtDirProps.

(** The parts of a buffer and their lengths. *)
Ltac layout :=
  first [ by rewrite <- ?app_assoc
        | rewrite ?length_app, ?length_le_bytes, ?length_replicate; simpl; lia ].

(** ** Entries in a buffer *)
Record entry := MkEntry { e_inode : Z; e_size : Z; e_type : Z; e_name : name }.
Definition e_len (e : entry) : Z := Z.of_nat (length (e_name e)).
Definition enc (e : entry) : list Z :=
  le_bytes 4 (e_inode e) ++ le_bytes 2 (e_size e) ++ [e_len e; e_type e] ++ e_name e ++ replicate (Z.to_nat (e_size e - 8 - e_len e)) 0.
Definition entry_ok (e : entry) : Prop :=
  0 < e_inode e < 2 ^ 32 /\ e_len e + 8 <= e_size e < 65536 /\ e_len e < 256 /\ 0 <= e_type e < 256.
(** The same for a place without an inode. *)
Definition shape_ok (e : entry) : Prop :=
  0 <= e_inode e < 2 ^ 32 /\ e_len e + 8 <= e_size e < 65536 /\ e_len e < 256 /\ 0 <= e_type e < 256.
Lemma entry_shape e : entry_ok e -> shape_ok e.
Proof. unfold entry_ok, shape_ok. lia. Qed.
Definition encs (es : list entry) : list Z := e ← es; enc e.
Definition sizes (es : list entry) : Z := foldr (fun e n => e_size e + n) 0 es.

Lemma length_enc e : e_len e + 8 <= e_size e -> Z.of_nat (length (enc e)) = e_size e.
Proof. intros He. unfold enc. rewrite !length_app, !length_le_bytes, length_replicate. unfold e_len in *. simpl. lia. Qed.
Lemma encs_app es1 es2 : encs (es1 ++ es2) = encs es1 ++ encs es2.
Proof. apply bind_app. Qed.
Lemma encs_cons e es : encs (e :: es) = enc e ++ encs es.
Proof. done. Qed.
Lemma length_encs es : Forall entry_ok es -> Z.of_nat (length (encs es)) = sizes es.
Proof.
  induction 1 as [|e es (_ & He & _) _ IH]; [done|]. rewrite encs_cons, length_app, Nat2Z.inj_add, IH, length_enc by lia. done.
Qed.
Lemma sizes_app es1 es2 : sizes (es1 ++ es2) = sizes es1 + sizes es2.
Proof. induction es1 as [|e es1 IH]; [done|]. unfold sizes in *. simpl. lia. Qed.

Lemma shape_at pre e post b p :
  shape_ok e -> b = pre ++ enc e ++ post -> p = Z.of_nat (length pre) ->
  entry_at b p = Done (MkDe (e_inode e) (e_size e) (e_len e) (e_type e)) /\
  name_at b p (MkDe (e_inode e) (e_size e) (e_len e) (e_type e)) = Done (e_name e).
Proof.
  intros (Hi & Hs & Hl & Ht) -> ->. unfold entry_at, name_at, enc.
  set (pad := replicate _ 0).
  set (q := Z.of_nat (length pre)).
  rewrite (rd_at pre (le_bytes 4 (e_inode e)) (le_bytes 2 (e_size e) ++ [e_len e; e_type e] ++ e_name e ++ pad ++ post) _ q 4) by layout. cbn [mbind outcome_bind].
  rewrite (rd_at (pre ++ le_bytes 4 (e_inode e)) (le_bytes 2 (e_size e)) ([e_len e; e_type e] ++ e_name e ++ pad ++ post) _ (q + 4) 2) by layout. cbn [mbind outcome_bind].
  rewrite (rd_at (pre ++ le_bytes 4 (e_inode e) ++ le_bytes 2 (e_size e)) [e_len e] ([e_type e] ++ e_name e ++ pad ++ post) _ (q + 6) 1) by layout. cbn [mbind outcome_bind].
  rewrite (rd_at (pre ++ le_bytes 4 (e_inode e) ++ le_bytes 2 (e_size e) ++ [e_len e]) [e_type e] (e_name e ++ pad ++ post) _ (q + 7) 1) by layout. cbn [mbind outcome_bind].
  rewrite (rd_at (pre ++ le_bytes 4 (e_inode e) ++ le_bytes 2 (e_size e) ++ [e_len e; e_type e]) (e_name e) (pad ++ post) _ (q + 8)) by layout.
  rewrite (le_le_bytes 4), (le_le_bytes 2) by (unfold e_len in *; simpl; lia). cbn [le]. rewrite !Z.mul_0_r, !Z.add_0_r. done.
Qed.

Lemma entry_at_enc pre e post b p :
  entry_ok e -> b = pre ++ enc e ++ post -> p = Z.of_nat (length pre) ->
  entry_at b p = Done (MkDe (e_inode e) (e_size e) (e_len e) (e_type e)) /\
  name_at b p (MkDe (e_inode e) (e_size e) (e_len e) (e_type e)) = Done (e_name e).
Proof. intros H. by apply shape_at, entry_shape. Qed.

(** A place without an inode ends the reading of a block. *)
Lemma entry_at_zero pre mid post b p :
  (4 <= length mid)%nat -> take 4 mid = le_bytes 4 0 -> (8 <= length mid)%nat -> b = pre ++ mid ++ post -> p = Z.of_nat (length pre) ->
  exists e, entry_at b p = Done e /\ inode_idx e = 0.
Proof.
  intros H4 Hz H8 -> ->. unfold entry_at.
  assert (forall k n, 0 <= k -> 0 <= n -> k + n <= 8 -> exists l, rd (pre ++ mid ++ post) (Z.of_nat (length pre) + k) n = Done l) as Hrd.
  { intros k n Hk Hn Hkn. unfold rd. rewrite !length_app. case_cmp; try lia. simpl. by eexists. }
  rewrite (rd_at pre (take 4 mid) (drop 4 mid ++ post)) with (n := 4) (p := Z.of_nat (length pre)); cycle 1.
  { by rewrite (app_assoc (take 4 mid)), take_drop. } { done. } { rewrite length_take. lia. }
  cbn [mbind outcome_bind]. destruct (Hrd 4 2) as [l2 ->]; try lia. cbn [mbind outcome_bind]. destruct (Hrd 6 1) as [l3 ->]; try lia. cbn [mbind outcome_bind].
  destruct (Hrd 7 1) as [l4 ->]; try lia. cbn [mbind outcome_bind]. eexists. split; [done|]. by rewrite Hz.
Qed.

Section Dir.
Context {W : Type} `{!DirStore W}.
Implicit Types (d : dirnode W) (nm : name).

Definition pairs (es : list entry) : list (name * Z) := (fun e => (e_name e, e_inode e)) <$> es.
Definition names_of (es : list entry) : gmap name Z := list_to_map (pairs es).
Fixpoint places (es : list entry) (i n : Z) (x : gmap name (Z * Z)) : gmap name (Z * Z) :=
  match es with [] => x | e :: rest => places rest i (n + e_size e) (<[e_name e := (i, n)]> x) end.

Lemma emplace_name_union t nm inode : emplace_name t nm inode = t ∪ {[nm := inode]}.
Proof.
  unfold emplace_name. apply map_eq. intros k. destruct (t !! nm) eqn:E.
  - destruct (decide (k = nm)) as [->|]; [by rewrite (lookup_union_l' _ _ _ (mk_is_Some _ _ E))|].
    rewrite lookup_union, lookup_singleton_ne by done. by destruct (t !! k).
  - destruct (decide (k = nm)) as [->|].
    + by rewrite lookup_insert_eq, lookup_union_r, lookup_singleton_eq.
    + rewrite lookup_insert_ne, lookup_union, lookup_singleton_ne by done. by destruct (t !! k).
Qed.

(** The entries of a block up to a place without inode, or to the end of the block. *)
Lemma parse_block_entries fuel d i n pre es post :
  buf d = pre ++ encs es ++ post -> Z.of_nat (length pre) = bs d * i + n -> Forall entry_ok es -> 0 <= n -> n + sizes es < bs d ->
  Forall (fun e => node_exists (dstore d) (e_inode e) = true) es -> (length es < fuel)%nat ->
  (12 <= length post)%nat -> take 4 post = le_bytes 4 0 ->
  parse_block fuel d i n = Done (with_names d (tnodes d ∪ names_of es) (places es i n (dir_index d)), true).
Proof.
  revert fuel d n pre. induction es as [|e es IH]; intros fuel d n pre Hb Hp Hok Hn Hs Hex Hfuel Hpost Hz.
  - destruct fuel as [|f]; [simpl in Hfuel; lia|]. cbn [parse_block]. simpl in Hs. destruct (Z.leb_spec (bs d) n); [lia|].
    destruct (entry_at_zero pre post [] (buf d) (bs d * i + n)) as (e & -> & He); [lia|done|lia|by rewrite Hb, app_nil_r|done|].
    cbn [mbind outcome_bind]. rewrite He. simpl. unfold names_of; simpl. rewrite map_union_empty. by destruct d.
  - destruct fuel as [|f]; [simpl in Hfuel; lia|]. cbn [parse_block]. apply Forall_cons in Hok as [He Hok]. apply Forall_cons in Hex as [Hex1 Hex].
    destruct (He) as (Hi & Hsz & _). simpl in Hs. change (foldr _ 0 es) with (sizes es) in Hs.
    assert (0 <= sizes es) by (rewrite <- length_encs by done; lia). destruct (Z.leb_spec (bs d) n); [unfold e_len in *; lia|].
    rewrite encs_cons, <- app_assoc in Hb. destruct (entry_at_enc pre e (encs es ++ post) (buf d) (bs d * i + n) He Hb) as [-> Hname]; [done|].
    cbn [mbind outcome_bind inode_idx]. destruct (Z.eqb_spec (e_inode e) 0); [lia|]. rewrite Hname. cbn [mbind outcome_bind]. rewrite Hex1. cbn [negb entry_size].
    rewrite (IH f _ _ (pre ++ enc e)); [|cbn [buf with_names]; by rewrite Hb, <- app_assoc|rewrite length_app, Nat2Z.inj_add, length_enc by lia; simpl; lia|done|unfold e_len in *; lia|simpl; lia|done|simpl in Hfuel; lia|done|done].
    cbn [with_names tnodes dir_index self bs buf cur file_count subdir_count links initialized dstore places]. do 3 f_equal. rewrite emplace_name_union, <- map_union_assoc. f_equal.
    unfold names_of, pairs. simpl. by rewrite <- insert_union_singleton_l.
Qed.

Lemma setc_in d c : 0 <= c <= max_ d -> setc d c = with_cur d c.
Proof. intros. unfold setc. case_cmp; done || lia. Qed.

(** ** A directory of one block *)
Definition one_block d (es : list entry) (tail : list Z) : Prop :=
  buf d = encs es ++ tail /\ length tail = 12%nat /\ take 4 tail = le_bytes 4 0 /\ Forall entry_ok es /\ sizes es + 12 = bs d /\ bs d < 65536 /\
  Forall (fun e => forall w, node_exists w (e_inode e) = true) es.
(** A node that has yet to read the same blocks. *)
Definition reload d : dirnode W := with_names (with_init (with_cur d 0) false) ∅ ∅.

Lemma write_tail_block d body tail p :
  Z.of_nat (length body) + 12 = bs d -> length tail = 12%nat -> 0 <= p < bs d ->
  exists tail', write_tail d (body ++ tail) p = Done (body ++ tail') /\ length tail' = 12%nat /\ take 4 tail' = le_bytes 4 0.
Proof.
  intros Hb Ht Hp. unfold write_tail. rewrite (Z.div_small p), Z.mul_0_l, Z.add_0_l by lia. cbv zeta.
  rewrite (wr_at body tail []) by first [by rewrite app_nil_r | lia | by rewrite Ht]. rewrite app_nil_r. cbn [mbind outcome_bind].
  match goal with |- context [rd ?b 0 ?n] => assert (rd b 0 n = Done b) as -> end.
  { apply (rd_at [] _ []); [by rewrite app_nil_r|done|]. rewrite !length_app, !length_le_bytes. simpl. lia. }
  cbn [mbind outcome_bind]. eexists. split.
  - match goal with |- wr (body ++ ?m) _ _ = _ => rewrite (wr_at body m []) by first [by rewrite app_nil_r | lia | done] end. by rewrite app_nil_r.
  - by split.
Qed.

Context (writes : forall w b, (dir_fsync w b).2 = true) (node_writes : forall w i, (node_fsync w i).2 = true).

Lemma fsync_ok d : exists w, fsync d = (with_store d w, true).
Proof. unfold fsync. pose proof (writes (dstore d) (buf d)) as H. destruct (dir_fsync _ _) as [w ok]; simpl in H; subst. by exists w. Qed.

Lemma on_open_block fuel d es post :
  buf d = encs es ++ post -> Z.of_nat (length (buf d)) = bs d -> Forall entry_ok es -> sizes es < bs d ->
  Forall (fun e => forall w, node_exists w (e_inode e) = true) es -> (length es < fuel)%nat -> (12 <= length post)%nat -> take 4 post = le_bytes 4 0 ->
  exists d', on_open fuel (reload d) = Done (d', true) /\ tnodes d' = names_of es.
Proof.
  intros Hb Hl Hok Hs Hex Hfuel Hpost Hz. unfold on_open, parse_entries. cbn [initialized reload with_names with_init with_cur].
  assert (0 <= sizes es) by (rewrite <- length_encs by done; lia).
  assert (max_ (reload d) / bs (reload d) = 1) as -> by (unfold max_; simpl; rewrite Hl; apply Z.div_same; lia).
  change (Z.to_nat 1) with 1%nat. cbn [parse_blocks].
  rewrite (parse_block_entries fuel (reload d) 0 0 [] es post); try done; try (simpl; lia).
  - cbn [mbind outcome_bind negb]. match goal with |- context [node_fsync ?w ?i] => pose proof (node_writes w i) as Hw; destruct (node_fsync w i) as [w' ok]; simpl in Hw; subst ok end.
    cbn [mbind outcome_bind]. eexists. split; [done|]. simpl. by rewrite map_empty_union.
  - eapply Forall_impl; [done|]. intros e He. apply He.
Qed.

Definition cleared (e : entry) : list Z :=
  le_bytes 4 0 ++ le_bytes 2 (e_size e) ++ [0; 0] ++ replicate (length (e_name e)) 0 ++ replicate (Z.to_nat (e_size e - 8 - e_len e)) 0.

Lemma unlink_clears d es1 e es2 tail inode :
  one_block d (es1 ++ e :: es2) tail -> tnodes d !! e_name e = Some inode -> dir_index d !! e_name e = Some (0, sizes es1) ->
  exists d' tail', unlink d (e_name e) = Done (d', true) /\ buf d' = encs es1 ++ cleared e ++ encs es2 ++ tail' /\ bs d' = bs d /\
    length tail' = 12%nat /\ take 4 tail' = le_bytes 4 0.
Proof.
  intros (Hb & Hlt & Hzt & Hok & Hs & Hbs & _) Ht Hx. apply Forall_app in Hok as [Hok1 [He Hok2]%Forall_cons].
  assert (Z.of_nat (length (encs es1)) = sizes es1) as Hl1 by by apply length_encs. assert (Z.of_nat (length (encs es2)) = sizes es2) as Hl2 by by apply length_encs.
  rewrite sizes_app in Hs. simpl in Hs. change (foldr _ 0 es2) with (sizes es2) in Hs.
  unfold unlink. rewrite Ht, Hx, Z.mul_0_l, Z.add_0_l. rewrite encs_app, encs_cons, <- !app_assoc in Hb.
  rewrite setc_in by (unfold max_; rewrite Hb, length_app; lia). cbn [cur with_cur].
  destruct (entry_at_enc (encs es1) e (encs es2 ++ tail) (buf d) (sizes es1) He Hb) as [-> _]; [done|]. cbn [mbind outcome_bind name_len].
  unfold e_len at 1. rewrite Nat2Z.id. destruct (He) as (_ & Hsz & Hlen & _).
  set (pad := replicate (Z.to_nat (e_size e - 8 - e_len e)) 0).
  rewrite (wr_at (encs es1 ++ le_bytes 4 (e_inode e) ++ le_bytes 2 (e_size e) ++ [e_len e; e_type e]) (e_name e) (pad ++ encs es2 ++ tail))
    by (first [by rewrite Hb; unfold enc; rewrite <- !app_assoc | layout]). cbn [mbind outcome_bind].
  rewrite (wr_at (encs es1 ++ le_bytes 4 (e_inode e) ++ le_bytes 2 (e_size e)) [e_len e; e_type e] (replicate (length (e_name e)) 0 ++ pad ++ encs es2 ++ tail)) by layout. cbn [mbind outcome_bind].
  rewrite (wr_at (encs es1) (le_bytes 4 (e_inode e)) (le_bytes 2 (e_size e) ++ [0; 0] ++ replicate (length (e_name e)) 0 ++ pad ++ encs es2 ++ tail)) by layout. cbn [mbind outcome_bind].
  destruct (write_tail_block d (encs es1 ++ cleared e ++ encs es2) tail (sizes es1)) as (tail' & E & Hlt' & Hzt'); [|done| |].
  { unfold cleared. rewrite !length_app, !length_le_bytes, !length_replicate. unfold e_len in *. simpl. lia. }
  { unfold e_len in *. lia. }
  unfold cleared in E. fold pad in E. rewrite <- !app_assoc in E. rewrite E. cbn [mbind outcome_bind].
  destruct (negb (is_ext_vnode _ _)).
  { match goal with |- context [fsync ?x] => destruct (fsync_ok x) as [w2 ->] end. do 2 eexists. split; [done|]. simpl. unfold cleared. fold pad. rewrite <- !app_assoc. done. }
  match goal with |- context [node_fsync ?w ?i] => pose proof (node_writes w i) as Hw; destruct (node_fsync w i) as [w' ok]; simpl in Hw; subst ok end.
  match goal with |- context [fsync ?x] => destruct (fsync_ok x) as [w2 ->] end.
  do 2 eexists. split; [done|]. simpl. unfold cleared. fold pad. rewrite <- !app_assoc. done.
Qed.

(** Removing a name hides the ones behind it: the entry is cleared in place, and reading a directory
    stops at an entry without inode, so that after the directory is read again only
    the names before it in the block are left. *)
Theorem unlink_hides_followers fuel d es1 e es2 tail inode :
  one_block d (es1 ++ e :: es2) tail -> tnodes d !! e_name e = Some inode -> dir_index d !! e_name e = Some (0, sizes es1) ->
  (length (es1 ++ e :: es2) < fuel)%nat ->
  (exists d0, on_open fuel (reload d) = Done (d0, true) /\ tnodes d0 = names_of (es1 ++ e :: es2)) /\
  exists d1 d2, unlink d (e_name e) = Done (d1, true) /\ on_open fuel (reload d1) = Done (d2, true) /\ tnodes d2 = names_of es1.
Proof.
  intros Hone Ht Hx Hfuel. destruct (unlink_clears d es1 e es2 tail inode) as (d1 & tail' & E & Hb1 & Hbs1 & Hl1 & _); [done..|].
  destruct Hone as (Hb & Hlt & Hzt & Hok & Hs & Hbs & Hex). split.
  { apply (on_open_block _ _ _ tail); try done; [|lia|lia]. rewrite Hb, length_app, Nat2Z.inj_add, length_encs by done. lia. }
  exists d1. apply Forall_app in Hok as [Hok1 [He Hok2]%Forall_cons]. apply Forall_app in Hex as [Hex1 _]. destruct (He) as (_ & Hsz & _).
  rewrite sizes_app in Hs. simpl in Hs. change (foldr _ 0 es2) with (sizes es2) in Hs.
  assert (0 <= sizes es2) by (rewrite <- length_encs by done; lia).
  destruct (on_open_block fuel d1 es1 (cleared e ++ encs es2 ++ tail')) as (d2 & E2 & Hn); try done.
  - rewrite Hb1, Hbs1, !length_app, !Nat2Z.inj_add, !length_encs by done. unfold cleared.
    rewrite !length_app, !length_le_bytes, !length_replicate. unfold e_len in *. simpl. lia.
  - rewrite Hbs1. unfold e_len in *. lia.
  - rewrite length_app in Hfuel. lia.
  - rewrite !length_app. lia.
  - by exists d2.
Qed.

(** ** Adding a name *)
Lemma unused_space e : entry_ok e -> unused_dirent_space (MkDe (e_inode e) (e_size e) (e_len e) (e_type e)) = e_size e - (e_len e + 8).
Proof. intros (_ & ? & ? & _). unfold unused_dirent_space. simpl. rewrite wrap_small; [done|]. unfold in_range, e_len in *. lia. Qed.

Lemma seek_past fuel d es needed post pre :
  buf d = pre ++ encs es ++ post -> cur d = Z.of_nat (length pre) -> Forall entry_ok es -> Forall (fun e => e_size e - (e_len e + 8) < needed) es ->
  (1 <= length post)%nat ->
  seek_available_entry (length es + fuel) d needed = seek_available_entry fuel (with_cur d (cur d + sizes es)) needed.
Proof.
  revert d pre. induction es as [|e es IH]; intros d pre Hb Hc Hok Hfull Hpost; [simpl; rewrite Z.add_0_r; by destruct d|].
  apply Forall_cons in Hok as [He Hok]. apply Forall_cons in Hfull as [Hf Hfull]. cbn [length Nat.add seek_available_entry].
  destruct (He) as (Hi & Hsz & _). rewrite encs_cons, <- app_assoc in Hb.
  assert (Z.of_nat (length (enc e)) = e_size e) as Hle by (apply length_enc; lia).
  destruct (Z.leb_spec (max_ d) (cur d)); [unfold max_, e_len in *; rewrite Hb, !length_app in *; lia|].
  destruct (entry_at_enc pre e (encs es ++ post) (buf d) (cur d) He Hb Hc) as [-> _]. cbn [mbind outcome_bind inode_idx entry_size].
  destruct (Z.eqb_spec (e_inode e) 0); [lia|]. simpl. rewrite unused_space by done. destruct (Z.leb_spec needed (e_size e - (e_len e + 8))); [lia|].
  rewrite setc_in by (unfold max_, e_len in *; rewrite Hb, !length_app; lia).
  rewrite (IH _ (pre ++ enc e)); [|cbn [buf with_cur]; by rewrite Hb, <- app_assoc|cbn [cur with_cur]; rewrite length_app; lia|done..].
  f_equal. cbn [cur with_cur]. simpl. unfold with_cur. simpl. f_equal. change (foldr _ 0 es) with (sizes es). lia.
Qed.

(** A free entry of [rem] bytes. *)
Definition free_slot (rem : Z) : list Z := enc (MkEntry 0 rem 0 []).

Definition shrink (e : entry) (n : Z) : entry := MkEntry (e_inode e) n (e_type e) (e_name e).
Lemma divide_entry_ok d pre e post :
  buf d = pre ++ enc e ++ post -> cur d = Z.of_nat (length pre) -> entry_ok e ->
  let nsz := up_to_nearest (e_len e + 8) 4 in nsz + 8 <= e_size e ->
  divide_entry d = Done (with_cur (with_buf d (pre ++ enc (shrink e nsz) ++ free_slot (e_size e - nsz) ++ post)) (Z.of_nat (length pre) + nsz)).
Proof.
  intros Hb Hc He nsz Hn. unfold divide_entry. destruct (entry_at_enc pre e post (buf d) (cur d) He Hb Hc) as [-> _]. cbn [mbind outcome_bind name_len entry_size].
  fold nsz. rewrite Hc. destruct (He) as (Hi & Hsz & Hlen & Hty). assert (e_len e + 8 <= nsz /\ 0 <= e_len e) as [Hnsz Hl0].
  { unfold nsz, up_to_nearest, div_round_up, e_len. case_cmp; zlia. }
  unfold set_entry_size.
  rewrite (wr_at (pre ++ le_bytes 4 (e_inode e)) (le_bytes 2 (e_size e)) ([e_len e; e_type e] ++ e_name e ++ replicate (Z.to_nat (e_size e - 8 - e_len e)) 0 ++ post))
    by first [by rewrite Hb; unfold enc; rewrite <- !app_assoc | layout]. cbn [mbind outcome_bind].
  replace (Z.to_nat (e_size e - 8 - e_len e)) with (Z.to_nat (nsz - 8 - e_len e) + (4 + (2 + (2 + Z.to_nat (e_size e - nsz - 8 - 0)))))%nat by lia.
  rewrite setc_in by (unfold max_; cbn [buf with_buf]; rewrite !length_app, !length_le_bytes, length_replicate; cbn [length]; unfold e_len in *; lia). cbn [cur with_cur].
  rewrite !replicate_add, <- !app_assoc.
  rewrite (wr_at (pre ++ enc (shrink e nsz) ++ le_bytes 4 0) (replicate 2 0) (replicate 2 0 ++ replicate (Z.to_nat (e_size e - nsz - 8 - 0)) 0 ++ post)).
  - cbn [mbind outcome_bind]. unfold free_slot. rewrite wrap_small by (unfold in_range; lia). unfold enc at 3. rewrite <- !app_assoc. done.
  - unfold enc, shrink. cbn [e_inode e_size e_type e_name]. change (e_len (MkEntry _ _ _ (e_name e))) with (e_len e). by rewrite <- !app_assoc.
  - rewrite !length_app, !Nat2Z.inj_add, length_enc by (unfold shrink, e_len in *; simpl; lia). cbn [e_size shrink]. rewrite length_le_bytes. lia.
  - done.
Qed.

Lemma write_dir_entry_ok d pre rem post tail inode type nm :
  buf d = pre ++ free_slot rem ++ post ++ tail -> cur d = Z.of_nat (length pre) -> length tail = 12%nat -> Z.of_nat (length (pre ++ free_slot rem ++ post)) + 12 = bs d ->
  Z.of_nat (length nm) + 8 <= rem < 65536 -> Z.of_nat (length nm) < 256 -> 0 <= type < 256 ->
  exists tail', write_dir_entry d inode type nm = Done (with_buf d (pre ++ enc (MkEntry inode rem type nm) ++ post ++ tail')) /\
    length tail' = 12%nat /\ take 4 tail' = le_bytes 4 0.
Proof.
  intros Hb Hc Hlt Hbs Hrem Hlen Hty. unfold write_dir_entry. rewrite Hc. set (new := MkEntry inode rem type nm).
  set (p := Z.of_nat (length pre)). set (len := Z.of_nat (length nm)) in *.
  destruct (shape_at pre (MkEntry 0 rem 0 []) (post ++ tail) (buf d) p) as [-> _]; [unfold shape_ok, e_len; simpl; lia|done|done|].
  cbn [mbind outcome_bind entry_size e_size]. unfold free_slot, enc in Hb. cbn [e_inode e_size e_type e_name] in Hb. change (e_len (MkEntry 0 rem 0 [])) with 0 in Hb.
  rewrite app_nil_l in Hb. replace (Z.to_nat (rem - 8 - 0)) with (length nm + Z.to_nat (rem - 8 - len))%nat in Hb by lia. rewrite replicate_add in Hb.
  set (pad := replicate (Z.to_nat (rem - 8 - len)) 0) in *. rewrite <- !app_assoc in Hb.
  rewrite (wr_at (pre ++ le_bytes 4 0 ++ le_bytes 2 rem) [0; 0] (replicate (length nm) 0 ++ pad ++ post ++ tail)) by first [by rewrite Hb, <- !app_assoc | layout]. cbn [mbind outcome_bind].
  rewrite (wr_at (pre ++ le_bytes 4 0 ++ le_bytes 2 rem ++ [u8 len; u8 type]) (replicate (length nm) 0) (pad ++ post ++ tail)) by layout. cbn [mbind outcome_bind].
  set (b2 := (pre ++ le_bytes 4 0 ++ _) ++ nm ++ _).
  assert ((if len + 8 <? rem then wr b2 (p + 8 + len) pad else Done b2) = Done b2) as ->.
  { destruct (Z.ltb_spec (len + 8) rem); [|done].
    rewrite (wr_at (pre ++ le_bytes 4 0 ++ le_bytes 2 rem ++ [u8 len; u8 type] ++ nm) pad (post ++ tail)) by (unfold b2; layout). unfold b2. by rewrite <- !app_assoc. }
  cbn [mbind outcome_bind]. unfold b2.
  rewrite (wr_at pre (le_bytes 4 0) (le_bytes 2 rem ++ [u8 len; u8 type] ++ nm ++ pad ++ post ++ tail)) by layout. cbn [mbind outcome_bind].
  rewrite (wrap_small 8 len), (wrap_small 8 type) by (unfold in_range; lia).
  assert (Z.of_nat (length (free_slot rem)) = rem) as Hfs by (apply (length_enc (MkEntry 0 rem 0 [])); unfold e_len; simpl; lia).
  assert (Z.of_nat (length (enc new)) = rem) as Hnew by (apply (length_enc new); unfold e_len; simpl; lia).
  destruct (write_tail_block d (pre ++ enc new ++ post) tail p) as (tail' & E & Hl' & Hz'); [|done| |].
  { rewrite !length_app in *. lia. } { unfold p. rewrite !length_app in *. lia. }
  exists tail'. split_and!; try done. unfold enc at 1 in E. cbn [e_inode e_size e_type e_name new] in E. rewrite <- !app_assoc in E.
  change (e_len new) with len in E. fold pad in E. rewrite E. by rewrite <- ?app_assoc.
Qed.

(** What a name is after the entry of [nm] has been put among the entries of the block. *)
Lemma names_of_insert es1 e es2 n nm inode rem type k :
  nm ∉ (e_name <$> es1 ++ e :: es2) ->
  names_of (es1 ++ shrink e n :: MkEntry inode rem type nm :: es2) !! k = if decide (k = nm) then Some inode else names_of (es1 ++ e :: es2) !! k.
Proof.
  intros Hfresh. unfold names_of, pairs. rewrite !fmap_app, !fmap_cons. cbn [shrink e_name e_inode].
  rewrite fmap_app, fmap_cons in Hfresh. apply not_elem_of_app in Hfresh as [H1 [H2 H3]%not_elem_of_cons].
  induction es1 as [|e1 es1 IH]; simpl.
  - destruct (decide (k = nm)) as [->|].
    + by rewrite lookup_insert_ne, lookup_insert_eq by done.
    + destruct (decide (k = e_name e)) as [->|]; [by rewrite !lookup_insert_eq|]. by rewrite !lookup_insert_ne by done.
  - rewrite fmap_cons in H1. apply not_elem_of_cons in H1 as [H0 H1]. destruct (decide (k = e_name e1)) as [->|].
    + rewrite !lookup_insert_eq. by rewrite decide_False by done.
    + rewrite !lookup_insert_ne by done. by apply IH.
Qed.

Lemma place_divide fuel d es1 e post needed :
  let nsz := up_to_nearest (e_len e + 8) 4 in
  buf d = encs es1 ++ enc e ++ post -> cur d = 0 -> Forall entry_ok es1 -> entry_ok e ->
  Forall (fun e => e_size e - (e_len e + 8) < needed) es1 -> needed <= e_size e - (e_len e + 8) -> nsz + 8 <= e_size e -> (length es1 < fuel)%nat ->
  place_entry fuel d needed =
    Done (with_cur (with_buf d (encs es1 ++ enc (shrink e nsz) ++ free_slot (e_size e - nsz) ++ post)) (sizes es1 + nsz), true).
Proof.
  intros nsz Hb Hc Hok1 He Hfull Hfit Hn Hfuel. unfold place_entry. assert (Z.of_nat (length (encs es1)) = sizes es1) as Hl1 by by apply length_encs.
  assert (Z.of_nat (length (enc e)) = e_size e) as Hle by (apply length_enc; destruct He; lia). destruct (He) as (Hi & Hsz & _).
  replace fuel with (length es1 + S (fuel - length es1 - 1))%nat by lia.
  rewrite (seek_past _ d es1 needed (enc e ++ post) []); [|done|by rewrite Hc|done|done|rewrite length_app; unfold e_len in *; lia].
  rewrite Hc, Z.add_0_l. set (d' := with_cur d (sizes es1)). cbn [seek_available_entry].
  assert (sizes es1 < max_ d) as Hmax by (unfold max_; rewrite Hb, !length_app; unfold e_len in *; lia).
  destruct (Z.leb_spec (max_ d') (cur d')) as [Hbad|_]; [cbn in Hbad; unfold max_ in *; simpl in Hbad; lia|].
  destruct (entry_at_enc (encs es1) e post (buf d') (cur d') He) as [-> _]; [done|done|]. cbn [mbind outcome_bind inode_idx entry_size].
  destruct (Z.eqb_spec (e_inode e) 0); [lia|]. cbn [andb]. rewrite unused_space by done. destruct (Z.leb_spec needed (e_size e - (e_len e + 8))); [|lia].
  cbn [mbind outcome_bind]. destruct (Z.ltb_spec (cur d') (max_ d')) as [_|Hbad]; [|cbn in Hbad; unfold max_ in *; simpl in Hbad; lia].
  rewrite (divide_entry_ok d' (encs es1) e post) by (done || lia). cbn [mbind outcome_bind]. by rewrite Hl1.
Qed.

(** C20: A name that is added is found again.  In a directory of one block in which every entry
    has an inode, with the write position at its start, for a name that is not in it: when an
    entry has enough unused space, the first such entry is divided, and the directory that is
    read back afterwards has the new name with its inode, and every other name as before. *)
Theorem add_dir_entry_readable fuel d es1 e es2 tail inode type nm :
  let len := Z.of_nat (length nm) in let needed := up_to_nearest (len + 8) 4 in
  one_block d (es1 ++ e :: es2) tail -> cur d = 0 -> nm ∉ (e_name <$> es1 ++ e :: es2) ->
  Forall (fun e => e_size e - (e_len e + 8) < needed) es1 -> needed <= e_size e - (e_len e + 8) -> e_size e mod 4 = 0 ->
  0 < inode < 2 ^ 32 -> 0 <= type < 256 -> len < 256 -> (forall w, node_exists w inode = true) -> (length (es1 ++ e :: es2) + 1 < fuel)%nat ->
  exists d1 d2, add_dir_entry fuel d inode type nm = Done (d1, true) /\ on_open fuel (reload d1) = Done (d2, true) /\
    forall k, tnodes d2 !! k = if decide (k = nm) then Some inode else names_of (es1 ++ e :: es2) !! k.
Proof.
  intros len needed (Hb & Hlt & Hzt & Hok & Hs & Hbs & Hex) Hc Hfresh Hfull Hfit Hal Hi Hty Hlen Hnode Hfuel.
  apply Forall_app in Hok as [Hok1 [He Hok2]%Forall_cons]. apply Forall_app in Hex as [Hex1 [Hexe Hex2]%Forall_cons].
  rewrite sizes_app in Hs. simpl in Hs. change (foldr _ 0 es2) with (sizes es2) in Hs. rewrite encs_app, encs_cons, <- !app_assoc in Hb.
  assert (Z.of_nat (length (encs es2)) = sizes es2) as Hl2 by by apply length_encs. assert (Z.of_nat (length (encs es1)) = sizes es1) as Hl1 by by apply length_encs.
  destruct (He) as (Hie & Hsz & Hle & Hte). set (nsz := up_to_nearest (e_len e + 8) 4). rewrite length_app in Hfuel. cbn [length] in Hfuel.
  assert (len + 8 <= needed /\ e_len e + 8 <= nsz < e_len e + 12 /\ nsz + needed <= e_size e) as (Hn1 & Hn2 & Hn3).
  { unfold needed, nsz, up_to_nearest, div_round_up, len, e_len in *. case_cmp; case_cmp_in Hfit; zlia. }
  assert (entry_ok (shrink e nsz)) as Hsh by (unfold entry_ok, shrink, e_len in *; simpl; lia).
  assert (Z.of_nat (length (enc (shrink e nsz))) = nsz) as Hlsh by (apply (length_enc (shrink e nsz)); unfold shrink, e_len in *; simpl; lia).
  assert (Z.of_nat (length (free_slot (e_size e - nsz))) = e_size e - nsz) as Hlfs by (apply (length_enc (MkEntry 0 (e_size e - nsz) 0 [])); unfold e_len; simpl; lia).
  unfold add_dir_entry. fold len. fold needed. rewrite (place_divide fuel d es1 e (encs es2 ++ tail)) by (done || lia). fold nsz. cbn [mbind outcome_bind negb].
  destruct (write_dir_entry_ok (with_cur (with_buf d (encs es1 ++ enc (shrink e nsz) ++ free_slot (e_size e - nsz) ++ encs es2 ++ tail)) (sizes es1 + nsz))
    (encs es1 ++ enc (shrink e nsz)) (e_size e - nsz) (encs es2) tail inode type nm) as (tail' & -> & Hl' & Hz'); try done; try lia.
  { cbn [buf with_cur with_buf]. by rewrite <- !app_assoc. } { cbn [cur with_cur]. rewrite length_app. lia. } { cbn [bs with_cur with_buf]. rewrite !length_app. lia. }
  cbn [mbind outcome_bind]. set (new := MkEntry inode (e_size e - nsz) type nm).
  assert (entry_ok new) as Hnew by (unfold entry_ok, new, e_len; simpl; lia).
  match goal with |- context [fsync ?x] => destruct (fsync_ok x) as [w ->]; set (d1 := with_store x w) end. exists d1.
  assert (buf d1 = encs (es1 ++ shrink e nsz :: new :: es2) ++ tail' /\ bs d1 = bs d) as [Hb1 Hbs1].
  { subst d1. rewrite encs_app, !encs_cons, <- !app_assoc.
    destruct (type =? dti_dir); cbn [buf bs with_store with_names with_counts add_link with_links with_buf with_cur]; by rewrite <- ?app_assoc. }
  assert (Forall entry_ok (es1 ++ shrink e nsz :: new :: es2)) as Hok' by (apply Forall_app; split; [done|by rewrite !Forall_cons]).
  assert (sizes (es1 ++ shrink e nsz :: new :: es2) + 12 = bs d) as Hs' by (rewrite sizes_app; simpl; change (foldr _ 0 es2) with (sizes es2); lia).
  destruct (on_open_block fuel d1 (es1 ++ shrink e nsz :: new :: es2) tail') as (d2 & E2 & Hn); try done.
  - rewrite Hb1, Hbs1, length_app, Nat2Z.inj_add, length_encs by done. lia.
  - lia.
  - apply Forall_app; split; [done|]. by rewrite !Forall_cons.
  - rewrite length_app. simpl. lia.
  - lia.
  - exists d2. split_and!; try done. intros k. rewrite Hn. by apply names_of_insert.
Qed.

(** ** The tail *)
Lemma seek_tail_entry d es tail :
  buf d = encs es ++ tail -> Forall entry_ok es -> length tail = 12%nat -> take 6 tail = le_bytes 4 0 ++ le_bytes 2 12 ->
  exists e, entry_at (buf d) (sizes es) = Done e /\ entry_size e = 12 /\ inode_idx e = 0.
Proof.
  intros Hb Hok Hlt Ht. assert (Z.of_nat (length (encs es)) = sizes es) as Hl by by apply length_encs.
  assert (exists x y rest, tail = le_bytes 4 0 ++ le_bytes 2 12 ++ [x; y] ++ rest) as (x & y & rest & ->).
  { rewrite <- (take_drop 6 tail), Ht. destruct (drop 6 tail) as [|x [|y rest]] eqn:E; [apply (f_equal length) in E; rewrite length_drop in E; simpl in E; lia..|].
    exists x, y, rest. by rewrite <- app_assoc. }
  unfold entry_at. rewrite Hb.
  rewrite (rd_at (encs es) (le_bytes 4 0) (le_bytes 2 12 ++ [x; y] ++ rest) _ (sizes es) 4) by layout. cbn [mbind outcome_bind].
  rewrite (rd_at (encs es ++ le_bytes 4 0) (le_bytes 2 12) ([x; y] ++ rest) _ (sizes es + 4) 2) by layout. cbn [mbind outcome_bind].
  rewrite (rd_at (encs es ++ le_bytes 4 0 ++ le_bytes 2 12) [x] ([y] ++ rest) _ (sizes es + 6) 1) by layout. cbn [mbind outcome_bind].
  rewrite (rd_at (encs es ++ le_bytes 4 0 ++ le_bytes 2 12 ++ [x]) [y] rest _ (sizes es + 7) 1) by layout. cbn [mbind outcome_bind].
  by eexists.
Qed.
Lemma seek_tail fuel d es tail needed :
  buf d = encs es ++ tail -> cur d = 0 -> Forall entry_ok es -> Forall (fun e => e_size e - (e_len e + 8) < needed) es -> needed <= 12 ->
  length tail = 12%nat -> take 6 tail = le_bytes 4 0 ++ le_bytes 2 12 -> (length es < fuel)%nat ->
  seek_available_entry fuel d needed = Done (with_cur d (sizes es), true).
Proof.
  intros Hb Hc Hok Hfull Hn Hlt Ht Hfuel. replace fuel with (length es + S (fuel - length es - 1))%nat by lia.
  rewrite (seek_past _ d es needed tail []); [|done|by rewrite Hc|done|done|lia]. rewrite Hc, Z.add_0_l. cbn [seek_available_entry].
  assert (Z.of_nat (length (encs es)) = sizes es) as Hl by by apply length_encs.
  destruct (Z.leb_spec (max_ (with_cur d (sizes es))) (cur (with_cur d (sizes es)))) as [Hbad|_]; [unfold max_ in Hbad; simpl in Hbad; rewrite Hb, length_app in Hbad; lia|].
  destruct (seek_tail_entry d es tail) as (e & E & He & Hi); [done..|]. cbn [buf cur with_cur]. rewrite E. cbn [mbind outcome_bind].
  rewrite Hi, He. simpl. destruct (Z.leb_spec needed 12); [done|lia].
Qed.

Lemma wr_inside body tl k l :
  0 <= k -> k + Z.of_nat (length l) <= Z.of_nat (length tl) ->
  exists tl', wr (body ++ tl) (Z.of_nat (length body) + k) l = Done (body ++ tl') /\ length tl' = length tl.
Proof.
  intros Hk Hl. exists (take (Z.to_nat k) tl ++ l ++ drop (Z.to_nat k + length l) tl).
  rewrite (wr_at (body ++ take (Z.to_nat k) tl) (take (length l) (drop (Z.to_nat k) tl)) (drop (Z.to_nat k + length l) tl)).
  - rewrite <- app_assoc. split; [done|]. rewrite !length_app, length_take, length_drop. lia.
  - rewrite <- drop_drop, <- app_assoc. do 2 f_equal. by rewrite take_drop, take_drop.
  - rewrite length_app, length_take. lia.
  - rewrite length_take, length_drop. lia.
Qed.

(** The last twelve bytes of a block look like a free entry. *)
Definition tail_like (tail : list Z) : Prop := length tail = 12%nat /\ take 6 tail = le_bytes 4 0 ++ le_bytes 2 12.

(** A name of up to four characters that is added to a full block goes where the checksum
    of the block is and is overwritten by it: the addition succeeds and the name is
    gone when the directory is read again. *)
Lemma short_name_lost fuel d es tail inode type nm :
  one_block d es tail -> tail_like tail -> cur d = 0 -> (length nm <= 4)%nat -> nm ∉ dom (tnodes d) ->
  Forall (fun e => e_size e - (e_len e + 8) < up_to_nearest (Z.of_nat (length nm) + 8) 4) es -> (length es < fuel)%nat ->
  exists d1 d2, add_dir_entry fuel d inode type nm = Done (d1, true) /\ tnodes d1 !! nm = Some inode /\
    on_open fuel (reload d1) = Done (d2, true) /\ tnodes d2 = names_of es.
Proof.
  intros (Hb & Hlt & Hzt & Hok & Hs & Hbs & Hex) [_ Ht6] Hc Hnm Hnew Hfull Hfuel.
  assert (Z.of_nat (length (encs es)) = sizes es) as Hl by by apply length_encs.
  unfold add_dir_entry, place_entry. set (needed := up_to_nearest _ 4) in *.
  assert (needed <= 12) as Hn by (unfold needed, up_to_nearest, div_round_up; case_cmp; zlia).
  rewrite (seek_tail fuel d es tail needed) by done. cbn [mbind outcome_bind negb]. unfold write_dir_entry. cbn [cur with_cur buf].
  destruct (seek_tail_entry d es tail) as (e & -> & He & _); try done. cbn [mbind outcome_bind]. rewrite He, Hb, <- Hl.
  destruct (wr_inside (encs es) tail 6 [u8 (Z.of_nat (length nm)); u8 type]) as (t1 & -> & L1); [lia|simpl; lia|]. cbn [mbind outcome_bind].
  destruct (wr_inside (encs es) t1 8 nm) as (t2 & -> & L2); [lia|lia|]. cbn [mbind outcome_bind].
  assert (exists t3, (if Z.of_nat (length nm) + 8 <? 12 then wr (encs es ++ t2) (Z.of_nat (length (encs es)) + 8 + Z.of_nat (length nm)) (replicate (Z.to_nat (12 - 8 - Z.of_nat (length nm))) 0)
    else Done (encs es ++ t2)) = Done (encs es ++ t3) /\ length t3 = 12%nat) as (t3 & -> & L3).
  { destruct (Z.ltb_spec (Z.of_nat (length nm) + 8) 12); [|exists t2; split; [done|congruence]]. rewrite <- Z.add_assoc.
    destruct (wr_inside (encs es) t2 (8 + Z.of_nat (length nm)) (replicate (Z.to_nat (12 - 8 - Z.of_nat (length nm))) 0)) as (t3 & -> & L3); [lia|rewrite length_replicate; lia|].
    exists t3. split; [done|congruence]. }
  cbn [mbind outcome_bind]. destruct (wr_inside (encs es) t3 0 (le_bytes 4 inode)) as (t4 & E4 & L4); [lia|rewrite length_le_bytes; lia|].
  rewrite Z.add_0_r in E4. rewrite E4. cbn [mbind outcome_bind].
  destruct (write_tail_block (with_cur d (Z.of_nat (length (encs es)))) (encs es) t4 (Z.of_nat (length (encs es)))) as (t5 & -> & L5 & Z5); [cbn; lia|congruence|cbn; lia|].
  cbn [mbind outcome_bind]. match goal with |- context [fsync ?x] => destruct (fsync_ok x) as [w ->]; set (d1 := with_store x w) end. exists d1.
  assert (buf d1 = encs es ++ t5 /\ bs d1 = bs d /\ tnodes d1 !! nm = Some inode) as (Hb1 & Hbs1 & Ht1).
  { subst d1. apply not_elem_of_dom in Hnew. destruct (type =? dti_dir); cbn [buf bs tnodes with_store with_names with_counts add_link with_links with_buf with_cur];
      (split; [done|]); (split; [done|]); unfold emplace_name; rewrite Hnew; by apply lookup_insert_eq. }
  destruct (on_open_block fuel d1 es t5) as (d2 & E2 & Hn2); try done; try lia.
  - rewrite Hb1, Hbs1, length_app. lia.
  - by exists d2.
Qed.
End Dir.

(** ** Witnesses: a directory of one small block *)
Module SmallDir.
#[export] Instance unit_dir_store : DirStore unit :=
  {| claim_dir_block w := (w, true); dir_fsync w _ := (w, true); node_fsync w _ := (w, true); dir_csum _ _ := 7; node_exists _ _ := true; is_ext_vnode _ _ := true |}.
Definition dot : entry := MkEntry 2 12 2 [46].
Definition dotdot : entry := MkEntry 3 12 2 [46; 46].
Definition file_a : entry := MkEntry 11 12 1 [97].
Definition file_b : entry := MkEntry 12 28 1 [98].
Definition tail : list Z := le_bytes 4 0 ++ le_bytes 2 12 ++ [0; 0xDE] ++ le_bytes 4 7.
Definition dir : dirnode unit :=
  MkDir 2 76 (encs [dot; dotdot; file_a; file_b] ++ tail) 0 {[ [97] := 11; [98] := 12 ]} {[ [97] := (0, 24); [98] := (0, 36) ]} 2 0 ∅ true ().
Lemma dir_ok : one_block dir [dot; dotdot; file_a; file_b] tail.
Proof. unfold one_block. split_and!; try done; repeat constructor; done. Qed.
End SmallDir.

Import SmallDir.
Lemma unlink_hides_followers_witness :
  (exists d0, on_open 9 (reload dir) = Done (d0, true) /\ tnodes d0 = names_of [dot; dotdot; file_a; file_b]) /\
  exists d1 d2, unlink dir [97] = Done (d1, true) /\ on_open 9 (reload d1) = Done (d2, true) /\ tnodes d2 = names_of [dot; dotdot].
Proof.
  apply (@unlink_hides_followers unit unit_dir_store (fun _ _ => eq_refl) (fun _ _ => eq_refl) 9 dir [dot; dotdot] file_a [file_b] tail 11);
    [apply dir_ok|reflexivity|reflexivity|simpl; lia].
Defined.

Lemma add_dir_entry_readable_witness :
  exists d1 d2, add_dir_entry 9 dir 13 1 [99; 100] = Done (d1, true) /\ on_open 9 (reload d1) = Done (d2, true) /\
    tnodes d2 !! [99; 100] = Some 13 /\ tnodes d2 !! [97] = Some 11.
Proof.
  destruct (@add_dir_entry_readable unit unit_dir_store (fun _ _ => eq_refl) (fun _ _ => eq_refl) 9 dir [dot; dotdot; file_a] file_b [] tail 13 1 [99; 100])
    as (d1 & d2 & ? & ? & Hk); [apply dir_ok|done| |repeat constructor; done|done|done|done|done|done|done|simpl; lia|].
  { apply (bool_decide_unpack _). vm_compute. done. }
  exists d1, d2. split_and!; try done; rewrite Hk; vm_compute; done.
Defined.
End ExtDirProps.
