(* ===== verification/Jbd2.v ===== *)
(** The journal of the ext file system (kernel/fs/ext/jbd2.cpp), over the buffers of Bytes.v
    and the vectors of Vec.v.

    The journal is the bytes of its file with a cursor; its superblock is the first
    block of those bytes and is read where the source reads it.  A logged block is its
    number and the place of its copy in the journal.  The queue of transactions is all
    that were added and how many of them have been taken.  The device and the checksum
    are an interface; the clock too. *)
From S2P Require Import Prelude Bytes Vec.
Import Bytes Vec.

Module Jbd2.

Definition jbd2_magic : Z := 0xC03B3998.
Definition bt_descriptor : Z := 1.
Definition bt_commit : Z := 2.
Definition bt_revocation : Z := 5.
Definition f_x64_support : Z := 0x2.
Definition f_csum_v2 : Z := 0x8.
Definition f_csum_v3 : Z := 0x10.
Definition fl_escape : Z := 1.
Definition fl_same_uuid : Z := 2.
Definition fl_last_block : Z := 8.

(** [write_block] and [write_journal] ([ddwrite]) say whether they succeeded. *)
Class JournalStore (W : Type) := {
  write_block : W -> Z -> list Z -> W * bool;
  write_journal : W -> list Z -> W * bool;
  read_journal : W -> option (list Z);
  crc32c : Z -> list Z -> Z;
  sys_time : W -> Z }.

(** A block handed to the journal: its number and contents, [chain_len] blocks of them. *)
Record src_block := MkSrc { s_number : Z; s_data : list Z; s_chain : Z }.
(** A block of a node, whether it has been changed and whether it has a buffer. *)
Record node_block := MkNb { nb_src : src_block; nb_dirty : bool; nb_buffer : bool }.
(** A block of a transaction: its number and the offset of its contents. *)
Record log_block := MkLog { l_number : Z; l_off : Z }.
Record jbd2_transaction := MkTxn { data_blocks : vec log_block; txn_id : Z }.

Record journal (W : Type) := MkJ {
  bs : Z;
  buf : list Z;
  cur : Z;
  uuid_checksum : Z;
  has_init : bool;
  active : list jbd2_transaction;
  taken : nat;
  log_seq : Z;
  first_open_block : Z;
  jstore : W }.
Arguments MkJ {W} bs buf cur uuid_checksum has_init active taken log_seq first_open_block jstore.
Arguments bs {W} j.
Arguments buf {W} j.
Arguments cur {W} j.
Arguments uuid_checksum {W} j.
Arguments has_init {W} j.
Arguments active {W} j.
Arguments taken {W} j.
Arguments log_seq {W} j.
Arguments first_open_block {W} j.
Arguments jstore {W} j.

Inductive log_read_state := VALID | SKIP | NREM | ERROR.

Section Journal.
Context {W : Type} `{!JournalStore W}.
Implicit Types (j : journal W) (b : list Z).

Definition with_buf j b : journal W :=
  MkJ (bs j) b (cur j) (uuid_checksum j) (has_init j) (active j) (taken j) (log_seq j) (first_open_block j) (jstore j).
Definition with_cur j (c : Z) : journal W :=
  MkJ (bs j) (buf j) c (uuid_checksum j) (has_init j) (active j) (taken j) (log_seq j) (first_open_block j) (jstore j).
Definition with_queue j (l : list jbd2_transaction) (n : nat) : journal W :=
  MkJ (bs j) (buf j) (cur j) (uuid_checksum j) (has_init j) l n (log_seq j) (first_open_block j) (jstore j).
Definition with_seq j (s : Z) : journal W :=
  MkJ (bs j) (buf j) (cur j) (uuid_checksum j) (has_init j) (active j) (taken j) s (first_open_block j) (jstore j).
Definition with_open j (n : Z) : journal W :=
  MkJ (bs j) (buf j) (cur j) (uuid_checksum j) (has_init j) (active j) (taken j) (log_seq j) n (jstore j).
Definition with_store j (w : W) : journal W :=
  MkJ (bs j) (buf j) (cur j) (uuid_checksum j) (has_init j) (active j) (taken j) (log_seq j) (first_open_block j) w.
Definition max_ j : Z := Z.of_nat (length (buf j)).

(** ** Fields *)
Definition be32_at b (p : Z) : outcome Z := l ← rd b p 4; Done (be l).
Definition required_features b : outcome Z := be32_at b 36.
Definition start_block b : outcome Z := be32_at b 28.
Definition uuid b : outcome (list Z) := rd b 48 16.
Definition feature b (f : Z) : outcome bool := r ← required_features b; Done (negb (Z.land r f =? 0)).
Definition desc_tag_size b (same_uuid : bool) : outcome Z :=
  v3 ← feature b f_csum_v3; x64 ← feature b f_x64_support;
  Done ((if v3 : bool then 16 else if x64 : bool then 12 else 8) + (if same_uuid then 0 else 16)).
Definition tags_per_block b (block_size : Z) : outcome Z :=
  t0 ← desc_tag_size b false; t1 ← desc_tag_size b true; c ← feature b (Z.lor f_csum_v2 f_csum_v3);
  Done (1 + u64 (block_size - 12 - t0 - (if c : bool then 4 else 0)) / t1).
Definition header (type seq : Z) : list Z := be_bytes 4 jbd2_magic ++ be_bytes 4 type ++ be_bytes 4 seq.

(** ** Writing a transaction *)
Definition need_escape (d : list Z) : outcome bool := m ← be32_at d 0; Done (m =? jbd2_magic).
(** [desc_tag_create]: the buffer with the tag, and the size of the tag. *)
Definition desc_tag_create j b (num : Z) (d : list Z) (where_ seq : Z) (is_first is_last : bool) : outcome (list Z * Z) :=
  result ← desc_tag_size b true;
  esc ← need_escape d;
  let fl := Z.lor (Z.lor (if is_first then 0 else fl_same_uuid) (if is_last then fl_last_block else 0)) (if esc : bool then fl_escape else 0) in
  let csum := crc32c (crc32c (uuid_checksum j) (le_bytes 4 seq)) d in
  v3 ← feature b f_csum_v3; x64 ← feature b f_x64_support;
  b1 ← wr b where_ (if v3 : bool then be_bytes 4 num ++ be_bytes 4 fl ++ be_bytes 4 (num / 2 ^ 32) ++ be_bytes 4 csum
                           else be_bytes 4 num ++ be_bytes 2 csum ++ be_bytes 2 fl ++ be_bytes 4 (if x64 : bool then num / 2 ^ 32 else 0));
  if is_first then u ← uuid b1; b2 ← wr b1 (where_ + result) u; Done (b2, result + 16)
  else Done (b1, result).
(** The checksum of the descriptor block at [c]. *)
Definition seal_block j b (c : Z) : outcome (list Z) :=
  v ← feature b (Z.lor f_csum_v2 f_csum_v3);
  if v : bool then blk ← rd b c (bs j); wr b (c + bs j - 4) (be_bytes 4 (crc32c (uuid_checksum j) blk))
  else Done b.

(** The loop of [create_txn]: [c] is the descriptor block, [pos] the place of the next tag,
    [tar] that of the next copy, [k] the number of tags left (never set again once it
    has run out), [n] the blocks so far. *)
Fixpoint log_blocks j b (c pos tar seq k n : Z) (first : bool) (l : list (Z * list Z)) : outcome (list Z * Z * Z * Z * list log_block) :=
  match l with
  | [] => Done (b, c, tar, n, [])
  | (num, src) :: rest =>
      d ← rd src 0 (bs j);
      '(b1, sz) ← desc_tag_create j b num d pos seq first ((k =? 1) || match rest with [] => true | _ => false end);
      b2 ← wr b1 tar d;
      let lb := MkLog num tar in
      let tar1 := tar + bs j in
      if u64 (k - 1) =? 0 then
        b3 ← seal_block j b2 c;
        b4 ← wr b3 tar1 (header bt_descriptor seq);
        '(b5, c', t, n', ls) ← log_blocks j b4 tar1 (tar1 + 12) (tar1 + bs j) seq 0 (n + 2) true rest;
        Done (b5, c', t, n', lb :: ls)
      else
        '(b5, c', t, n', ls) ← log_blocks j b2 c (pos + sz) tar1 seq (u64 (k - 1)) (n + 1) false rest;
        Done (b5, c', t, n', lb :: ls)
  end.
(** The blocks of a request, one by one. *)
Fixpoint chunks (block_size : Z) (count : nat) (num : Z) (d : list Z) : list (Z * list Z) :=
  match count with
  | O => []
  | S k => (num, take (Z.to_nat block_size) d) :: chunks block_size k (num + 1) (drop (Z.to_nat block_size) d)
  end.
Definition split_block (block_size : Z) (s : src_block) : list (Z * list Z) :=
  chunks block_size (Z.to_nat (Z.max 1 (s_chain s))) (s_number s) (s_data s).
Definition commit_header (time : Z) : list Z :=
  header bt_commit 0 ++ [4; 4; 0; 0] ++ replicate 32 0 ++ be_bytes 8 (time / 1000) ++ be_bytes 4 (time mod 1000 * 1000).
Definition ddwrite j : journal W * bool := let '(w, ok) := write_journal (jstore j) (buf j) in (with_store j w, ok).
Definition pending j : Z := Z.of_nat (length (active j) - taken j).
Definition create_txn j (txn_blocks : list src_block) : outcome (journal W * bool) :=
  match txn_blocks with
  | [] => Done (j, true)
  | _ =>
      tpb ← tags_per_block (buf j) (bs j);
      st ← start_block (buf j);
      let txn_st_block := first_open_block j + st in
      let seq := u32 (pending j) in
      let c := cur j in
      b0 ← wr (buf j) c (header bt_descriptor seq);
      '(b1, c', tar, n, ls) ← log_blocks j b0 c (c + 12) (c + bs j) seq tpb 0 true (s ← txn_blocks; split_block (bs j) s);
      b2 ← seal_block j b1 c';
      b3 ← wr b2 tar (commit_header (sys_time (jstore j)));
      blk ← rd b3 tar (bs j);
      b4 ← wr b3 (tar + 16) (be_bytes 4 (crc32c (uuid_checksum j) blk));
      let j1 := with_cur (with_open (with_buf j b4) (u32 (txn_st_block + n + 2))) (tar + bs j) in
      let '(j2, ok) := ddwrite j1 in
      if negb ok then Done (j2, false) else
      Done (with_queue j2 (active j2 ++ [MkTxn (MkVec ls (Z.of_nat (length ls))) seq]) (taken j2), true)
  end.

(** [create_txn] of a node: its dirty blocks, which are then no longer dirty; a block of
    data without a buffer stays as it is. *)
Definition to_log (need_buffer : bool) (x : node_block) : bool := nb_dirty x && (negb need_buffer || nb_buffer x).
Definition cleaned (need_buffer : bool) (x : node_block) : node_block :=
  if to_log need_buffer x then MkNb (nb_src x) false (nb_buffer x) else x.
Definition create_txn_node j (block_data cached_metadata : list node_block) : outcome (journal W * bool * list node_block * list node_block) :=
  let dirty_blocks := map nb_src (List.filter (to_log true) block_data ++ List.filter (to_log false) cached_metadata) in
  '(j1, ok) ← create_txn j dirty_blocks;
  Done (j1, ok, map (cleaned true) block_data, map (cleaned false) cached_metadata).

(** ** Writing the blocks of the pending transactions *)
Fixpoint write_blocks j (l : list log_block) : outcome (journal W * bool) :=
  match l with
  | [] => Done (j, true)
  | lb :: rest =>
      if l_number lb =? 0 then write_blocks j rest else
      d ← rd (buf j) (l_off lb) (bs j);
      let '(w, ok) := write_block (jstore j) (l_number lb) d in
      if ok : bool then write_blocks (with_store j w) rest else Done (with_store j w, false)
  end.
Definition execute_and_complete j (t : jbd2_transaction) : outcome (journal W * bool) := write_blocks j (elems (data_blocks t)).
(** The bytes after the first block, set to zero by words of eight bytes. *)
Definition zeroed (block_size : Z) b : list Z :=
  let n := Z.to_nat (8 * ((Z.of_nat (length b) - block_size) / 8)) in
  take (Z.to_nat block_size) b ++ replicate n 0 ++ drop (Z.to_nat block_size + n) b.
Definition clear_log j : journal W * bool :=
  ddwrite (with_seq (with_cur (with_buf j (zeroed (bs j) (buf j))) 0) 0).
Fixpoint execute_from j (l : list jbd2_transaction) : outcome (journal W * bool) :=
  match l with
  | [] => Done (clear_log j)
  | t :: rest =>
      '(j1, ok) ← execute_and_complete (with_queue j (active j) (S (taken j))) t;
      if ok : bool then execute_from j1 rest
      else Done (with_queue j1 (active j1) 0, false)
  end.
Definition execute_pending_txns j : outcome (journal W * bool) := execute_from j (drop (taken j) (active j)).

(** ** Reading the log *)

(** [__setc]: a position outside the journal is ignored. *)
Definition setc j (c : Z) : journal W := if (0 <=? c) && (c <=? max_ j) then with_cur j c else j.
Definition bumpc j (n : Z) : journal W := setc j (cur j + n).

(** The next commit block from [pos] on. *)
Fixpoint find_commit (fuel : nat) j (pos : Z) : outcome (option Z) :=
  if max_ j <=? pos then Done None else
  match fuel with
  | O => NoFuel
  | S f =>
      m ← be32_at (buf j) pos; t ← be32_at (buf j) (pos + 4);
      if (m =? jbd2_magic) && (t =? bt_commit) then Done (Some pos) else find_commit f j (pos + bs j)
  end.
(** The checksum of a block whose field of four bytes at [off] counts as zero, after the
    sequence number of the header [h]. *)
Definition block_csum j (p off h : Z) : outcome Z :=
  seq ← rd (buf j) (h + 8) 4;
  b ← wr (buf j) (p + off) (be_bytes 4 0);
  blk ← rd b p (bs j);
  Done (crc32c (crc32c (uuid_checksum j) seq) blk).

(** [parse_revocation]: the blocks named at the cursor are taken out of the transactions. *)
Fixpoint revoked_nums b (p : Z) (count : nat) : outcome (list Z) :=
  match count with O => Done [] | S k => l ← rd b p 8; rest ← revoked_nums b (p + 8) k; Done (be l :: rest) end.
Fixpoint erase_revoked (fuel : nat) (nums : list Z) (v : vec log_block) (i : Z) : outcome (vec log_block) :=
  if size v <=? i then Done v else
  match fuel with
  | O => NoFuel
  | S f =>
      lb ← at_ v i;
      if bool_decide (l_number lb ∈ nums) then '(v', i') ← erase v i; erase_revoked f nums v' i'
      else erase_revoked f nums v (i + 1)
  end.
Fixpoint revoke_all (nums : list Z) (l : list jbd2_transaction) : outcome (list jbd2_transaction) :=
  match l with
  | [] => Done []
  | t :: rest =>
      v ← erase_revoked (S (length (elems (data_blocks t)))) nums (data_blocks t) 0;
      ts ← revoke_all nums rest; Done (MkTxn v (txn_id t) :: ts)
  end.
Definition parse_revocation j : outcome (journal W) :=
  used ← be32_at (buf j) (cur j + 12);
  if (used <? 16) || negb ((used - 16) mod 8 =? 0) then Undef else
  nums ← revoked_nums (buf j) (cur j + 16) (Z.to_nat ((used - 16) / 8));
  ts ← revoke_all nums (active j);
  Done (with_queue j ts (taken j)).

(** The tags of the descriptor block at [st]; [None] when a checksum does not match. *)
Fixpoint read_tags (fuel : nat) j (st pos : Z) (blks : vec log_block) : outcome (journal W * option (vec log_block)) :=
  if st + bs j <=? pos then Done (j, Some blks) else
  match fuel with
  | O => NoFuel
  | S f =>
      v3 ← feature (buf j) f_csum_v3; x64 ← feature (buf j) f_x64_support;
      seq ← rd (buf j) (st + 8) 4;
      lo ← be32_at (buf j) pos;
      hi ← be32_at (buf j) (pos + 8);
      flags ← (if v3 : bool then be32_at (buf j) (pos + 4) else l ← rd (buf j) (pos + 6) 2; Done (be l));
      check ← (if v3 : bool then be32_at (buf j) (pos + 12) else l ← rd (buf j) (pos + 4) 2; Done (be l));
      let j1 := bumpc j (bs j) in
      d ← rd (buf j1) (cur j1) (bs j1);
      let csum := crc32c (crc32c (uuid_checksum j) seq) d in
      if negb ((if v3 : bool then csum else u16 csum) =? check) then Done (j1, None) else
      sz ← desc_tag_size (buf j) (negb (Z.land flags fl_same_uuid =? 0));
      let blks1 := emplace_back blks (MkLog (lo + 2 ^ 32 * (if x64 : bool then hi else 0)) (cur j1)) in
      read_tags f j1 st (if Z.land flags fl_last_block =? 0 then pos + sz else st + bs j) blks1
  end.
(** The blocks of a transaction up to its commit block [ce]. *)
Fixpoint read_descriptors (fuel tfuel : nat) j (ce : Z) (blks : vec log_block) : outcome (journal W * (log_read_state * vec log_block)) :=
  match fuel with
  | O => NoFuel
  | S f =>
      let st := cur j in
      m ← be32_at (buf j) st; t ← be32_at (buf j) (st + 4);
      if negb (m =? jbd2_magic) then Done (j, (SKIP, blks)) else
      '(j1, r) ← (if t =? bt_revocation then j1 ← parse_revocation j; Done (j1, Some blks)
                  else
                    check ← be32_at (buf j) (st + bs j - 4);
                    cs ← block_csum j st (bs j - 4) st;
                    if negb (cs =? check) then Done (j, None) else read_tags tfuel j st (st + 12) blks);
      match r with
      | None => Done (setc j1 ce, (SKIP, blks))
      | Some blks1 =>
          let j2 := bumpc j1 (bs j1) in
          if cur j2 <? ce then read_descriptors f tfuel j2 ce blks1 else Done (j2, (VALID, blks1))
      end
  end.
Definition read_log_transaction (fuel : nat) j : outcome (journal W * log_read_state) :=
  c ← find_commit fuel j (cur j);
  match c with
  | None => Done (j, NREM)
  | Some ce =>
      check ← be32_at (buf j) (ce + 16);
      cs ← block_csum j ce 16 ce;
      if negb (cs =? check) then Done (setc j ce, SKIP) else
      '(j1, (st, blks)) ← read_descriptors fuel fuel j ce vnil;
      match st with
      | VALID => Done (with_queue j1 (active j1 ++ [MkTxn blks (log_seq j1)]) (taken j1), VALID)
      | _ => Done (j1, st)
      end
  end.
(** [read_next_log_entry], which nothing calls. *)
Definition read_next_log_entry (fuel : nat) j : outcome (journal W * log_read_state) :=
  m ← be32_at (buf j) (cur j); t ← be32_at (buf j) (cur j + 4); q ← be32_at (buf j) (cur j + 8);
  if (m =? 0) && (t =? 0) && (q =? 0) then Done (j, NREM) else
  if negb (m =? jbd2_magic) then Done (j, SKIP) else
  if t =? bt_revocation then j1 ← parse_revocation j; Done (j1, VALID)
  else if t =? bt_descriptor then read_log_transaction fuel j
  else Done (j, SKIP).
(** The checksum of the superblock with its own field zero. *)
Definition calculate_sb_checksum j : outcome Z :=
  b ← wr (buf j) 252 (be_bytes 4 0); sb ← rd b 0 1024; Done (crc32c 0xFFFFFFFF sb).
Fixpoint read_log (fuel : nat) j : outcome (journal W * bool) :=
  if max_ j <=? cur j then
    match active j with [] => Done (j, true) | _ => execute_pending_txns j end
  else
  match fuel with
  | O => NoFuel
  | S f =>
      '(j1, st) ← read_log_transaction (S (length (buf j))) j;
      match st with
      | NREM => Done (j1, true)
      | ERROR => Done (j1, false)
      | _ => let j2 := bumpc j1 (bs j1) in read_log f (with_seq j2 (log_seq j2 + 1))
      end
  end.
(** [on_open] of a journal of [n] bytes. *)
Definition on_open (fuel : nat) j (n : Z) : outcome (journal W * bool) :=
  if has_init j then Done (j, true) else
  match read_journal (jstore j) with
  | None => Done (j, false)
  | Some b =>
      if negb (Z.of_nat (length b) =? n) then Undef else
      let j1 := bumpc (with_buf j b) (bs j) in
      m ← be32_at b 0;
      if negb (m =? jbd2_magic) then Done (j1, false) else
      u ← uuid b;
      let j2 := MkJ (bs j1) b (cur j1) (crc32c 0xFFFFFFFF u) false (active j1) (taken j1) (log_seq j1) (first_open_block j1) (jstore j1) in
      '(j3, ok) ← read_log fuel j2;
      Done (MkJ (bs j3) (buf j3) (cur j3) (uuid_checksum j3) ok (active j3) (taken j3) (log_seq j3) (first_open_block j3) (jstore j3), ok)
  end.
End Journal.
End Jbd2.
