(* ===== verification/Jbd2Props.v ===== *)
(** Properties of the journal: what a transaction leaves in the log, what syncing writes, and
    what is read after a restart. *)
From S2P Require Import Prelude Bytes Vec Jbd2.
Import Bytes Vec Jbd2.

Module Jbd2Props.

(** ** Fields *)
Lemma length_header t s : length (header t s) = 12%nat.
Proof. unfold header. by rewrite !length_app, !length_be_bytes. Qed.
Lemma length_commit_header t : length (commit_header t) = 60%nat.
Proof. unfold commit_header. by rewrite !length_app, !length_be_bytes, length_header, length_replicate. Qed.

Lemma required_features_left P x : (64 <= length P)%nat -> required_features (P ++ x) = required_features P.
Proof. intros. unfold required_features, be32_at. by rewrite rd_left by lia. Qed.
Lemma feature_left P x f : (64 <= length P)%nat -> feature (P ++ x) f = feature P f.
Proof. intros. unfold feature. by rewrite required_features_left. Qed.
Lemma desc_tag_size_left P x s : (64 <= length P)%nat -> desc_tag_size (P ++ x) s = desc_tag_size P s.
Proof. intros. unfold desc_tag_size. by rewrite !feature_left. Qed.
Lemma tags_per_block_left P x n : (64 <= length P)%nat -> tags_per_block (P ++ x) n = tags_per_block P n.
Proof. intros. unfold tags_per_block. by rewrite !desc_tag_size_left, feature_left. Qed.
Lemma uuid_left P x : (64 <= length P)%nat -> uuid (P ++ x) = uuid P.
Proof. intros. unfold uuid. by rewrite rd_left by lia. Qed.

(** ** The superblock of the journal *)
Definition sb_ok (S : list Z) : Prop :=
  (64 <= length S)%nat /\ (exists f, required_features S = Done f /\ Z.land f f_csum_v3 <> 0) /\ (exists st, start_block S = Done st).

Section Journal.
Context {W : Type} `{!JournalStore W}.
Implicit Types (j : journal W).

Lemma v3_feature S : sb_ok S -> feature S f_csum_v3 = Done true /\ feature S (Z.lor f_csum_v2 f_csum_v3) = Done true /\ (exists x, feature S f_x64_support = Done x) /\
  desc_tag_size S true = Done 16 /\ desc_tag_size S false = Done 32.
Proof.
  intros (Hl & (f & Hf & Hv3) & _). unfold desc_tag_size, feature. rewrite Hf. simpl.
  destruct (Z.eqb_spec (Z.land f f_csum_v3) 0); [done|]. destruct (Z.eqb_spec (Z.land f (Z.lor f_csum_v2 f_csum_v3)) 0) as [E|].
  - exfalso. apply n. rewrite <- (Z.land_diag f_csum_v3) at 1. apply Z.bits_inj'. intros i Hi. rewrite Z.bits_0, !Z.land_spec.
    apply (f_equal (fun x => Z.testbit x i)) in E. rewrite Z.bits_0, Z.land_spec, Z.lor_spec in E.
    destruct (Z.testbit f i), (Z.testbit f_csum_v3 i), (Z.testbit f_csum_v2 i); done.
  - simpl. split_and!; try done. by eexists.
Qed.

(** One tag, in the descriptor block [D] behind the superblock. *)
Lemma desc_tag_ok j S D R num d o seq first last :
  sb_ok S -> (4 <= length d)%nat -> 0 <= o -> o + (if first : bool then 32 else 16) <= Z.of_nat (length D) ->
  exists D', desc_tag_create j (S ++ D ++ R) num d (Z.of_nat (length S) + o) seq first last = Done (S ++ D' ++ R, if first : bool then 32 else 16) /\
    length D' = length D /\ take (Z.to_nat o) D' = take (Z.to_nat o) D.
Proof.
  intros HS Hd Ho Hfit. pose proof HS as (Hl & _). destruct (v3_feature S HS) as (Hv3 & _ & [x Hx] & Ht & _).
  unfold desc_tag_create. rewrite desc_tag_size_left, Ht by done. cbn [mbind outcome_bind]. unfold need_escape, be32_at.
  assert (rd d 0 4 = Done (take 4 d)) as ->. { unfold rd. case_cmp; try lia. done. }
  cbn [mbind outcome_bind]. rewrite !feature_left, Hv3, Hx by done. cbn [mbind outcome_bind].
  set (tag := be_bytes 4 num ++ _). assert (length tag = 16%nat) as Htag by (unfold tag; by rewrite !length_app, !length_be_bytes).
  destruct (wr_part S D R (Z.of_nat (length S) + o) tag) as (D1 & -> & L1 & T1); [lia|destruct first; lia|]. cbn [mbind outcome_bind].
  replace (Z.of_nat (length S) + o - Z.of_nat (length S)) with o in T1 by lia. destruct first; [|by exists D1].
  assert (exists u, uuid S = Done u /\ length u = 16%nat) as (u & Hu & Lu).
  { unfold uuid, rd. case_cmp; try lia. eexists. split; [done|]. rewrite length_take, length_drop. lia. }
  rewrite uuid_left, Hu by done. cbn [mbind outcome_bind].
  destruct (wr_part S D1 R (Z.of_nat (length S) + o + 16) u) as (D2 & -> & L2 & T2); [lia|lia|]. cbn [mbind outcome_bind].
  exists D2. split; [done|]. split; [congruence|]. rewrite <- T1. apply (take_shorter _ (Z.to_nat (Z.of_nat (length S) + o + 16 - Z.of_nat (length S)))); [lia|done].
Qed.

(** ** The log after a transaction *)
Fixpoint log_of (block_size tar : Z) (l : list (Z * list Z)) : list log_block :=
  match l with [] => [] | (num, _) :: rest => MkLog num tar :: log_of block_size (tar + block_size) rest end.
Definition contents (l : list (Z * list Z)) : list Z := x ← l; snd x.
Lemma contents_concat l : contents l = concat (map snd l).
Proof. induction l as [|x l IH]; [done|]. simpl. by rewrite <- IH. Qed.
Definition sized (n : Z) (l : list (Z * list Z)) : Prop := Forall (fun x => Z.of_nat (length (snd x)) = n) l.
Lemma length_contents n l : sized n l -> Z.of_nat (length (contents l)) = n * Z.of_nat (length l).
Proof. induction 1 as [|x l Hx _ IH]; simpl; [lia|]. unfold contents in *. simpl. rewrite length_app. lia. Qed.

Lemma log_blocks_ok j S D X R l o k n first seq :
  sb_ok S -> sized (bs j) l -> 64 <= bs j -> Z.of_nat (length D) = bs j -> 0 <= o -> o + 16 + 16 * Z.of_nat (length l) + (if first : bool then 0 else -16) <= bs j ->
  Z.of_nat (length l) < k < 2 ^ 64 -> (length (contents l) <= length R)%nat ->
  exists D', log_blocks j (S ++ D ++ X ++ R) (Z.of_nat (length S)) (Z.of_nat (length S) + o) (Z.of_nat (length (S ++ D ++ X))) seq k n first l =
    Done (S ++ D' ++ X ++ contents l ++ drop (length (contents l)) R, Z.of_nat (length S), Z.of_nat (length (S ++ D ++ X)) + bs j * Z.of_nat (length l),
      n + Z.of_nat (length l), log_of (bs j) (Z.of_nat (length (S ++ D ++ X))) l) /\
    length D' = length D /\ take (Z.to_nat o) D' = take (Z.to_nat o) D.
Proof.
  intros HS Hsz Hbs. revert D X R o k n first. induction l as [|[num d] l IH]; intros D X R o k n first HD Ho Hfit Hk HR.
  { exists D. simpl. rewrite Z.mul_0_r, !Z.add_0_r. rewrite drop_0. done. }
  apply Forall_cons in Hsz as [Hd Hsz]. cbn [snd] in Hd. cbn [log_blocks length] in *.
  rewrite rd_whole by done. cbn [mbind outcome_bind].
  destruct (desc_tag_ok j S D (X ++ R) num d o seq first ((k =? 1) || match l with [] => true | _ => false end)) as (D1 & -> & L1 & T1); [done|lia|done| |].
  { destruct first; lia. }
  cbn [mbind outcome_bind]. change (contents ((num, d) :: l)) with (d ++ contents l) in *. rewrite length_app in HR.
  rewrite (wr_at (S ++ D1 ++ X) (take (length d) R) (drop (length d) R)); cycle 1.
  { rewrite <- !app_assoc. by rewrite take_drop. } { by rewrite !length_app, L1. } { rewrite length_take. lia. }
  cbn [mbind outcome_bind]. rewrite (wrap_small 64) by (unfold in_range; lia). destruct (Z.eqb_spec (k - 1) 0); [lia|].
  destruct (IH Hsz D1 (X ++ d) (drop (length d) R) (o + (if first then 32 else 16)) (k - 1) (n + 1) false) as (D2 & E & L2 & T2).
  { lia. } { destruct first; lia. } { destruct first; lia. } { lia. } { rewrite length_drop. lia. }
  replace (Z.of_nat (length S) + o + (if first then 32 else 16)) with (Z.of_nat (length S) + (o + (if first then 32 else 16))) by lia.
  replace ((S ++ D1 ++ X) ++ d ++ drop (length d) R) with (S ++ D1 ++ (X ++ d) ++ drop (length d) R) by by rewrite <- !app_assoc.
  assert (Z.of_nat (length (S ++ D1 ++ X ++ d)) = Z.of_nat (length (S ++ D ++ X)) + bs j) as HL by (rewrite !length_app, L1; lia).
  rewrite HL in E. rewrite E. cbn [mbind outcome_bind]. exists D2. split_and!.
  - rewrite drop_drop, (length_app d), <- !app_assoc. cbn [log_of]. rewrite Nat2Z.inj_succ, <- Z.add_1_r.
    do 2 f_equal. f_equal; [|lia]. f_equal. lia.
  - congruence.
  - rewrite <- T1. eapply take_shorter; [|exact T2]. destruct first; lia.
Qed.

Definition fresh_commit (time : Z) (old : list Z) : list Z := commit_header time ++ drop 60 old.
Definition commit_block (u time : Z) (old : list Z) : list Z :=
  let b := fresh_commit time old in take 16 b ++ be_bytes 4 (crc32c u b) ++ drop 20 b.
Lemma length_fresh_commit time old : (60 <= length old)%nat -> length (fresh_commit time old) = length old.
Proof. intros. unfold fresh_commit. rewrite length_app, length_commit_header, length_drop. lia. Qed.
Lemma length_commit_block u time old : (60 <= length old)%nat -> length (commit_block u time old) = length old.
Proof. intros. unfold commit_block. rewrite !length_app, length_take, length_drop, length_be_bytes, length_fresh_commit by done. lia. Qed.

(** The transaction that is entered into the queue. *)
Definition entered j (S D : list Z) (l : list (Z * list Z)) : jbd2_transaction :=
  MkTxn (MkVec (log_of (bs j) (Z.of_nat (length (S ++ D))) l) (Z.of_nat (length (log_of (bs j) (Z.of_nat (length (S ++ D))) l)))) (u32 (pending j)).

(** The journal [j] is the superblock [S], a block [D] at the cursor and the rest [R]; the blocks
    [l] of [txns] fit into one descriptor, and after their copies there is a block [old] left. *)
Record fits j (S D old R : list Z) (txns : list src_block) (l : list (Z * list Z)) : Prop := {
  fit_blocks : l = (s ← txns; split_block (bs j) s);
  fit_some : txns <> [];
  fit_sized : sized (bs j) l;
  fit_bs : 64 <= bs j < 2 ^ 32;
  fit_sb : sb_ok S;
  fit_buf : buf j = S ++ D ++ R;
  fit_cur : cur j = Z.of_nat (length S);
  fit_desc : Z.of_nat (length D) = bs j;
  fit_tags : Z.of_nat (length l) <= (bs j - 48) / 16;
  fit_commit : exists R1 R2, R = R1 ++ old ++ R2 /\ length R1 = length (contents l) /\ Z.of_nat (length old) = bs j }.

Lemma create_txn_ok j S D old R txns l :
  fits j S D old R txns l ->
  (forall w b, (write_journal w b).2 = true) ->
  exists j1 D' w, create_txn j txns = Done (j1, true) /\
    buf j1 = S ++ D' ++ contents l ++ commit_block (uuid_checksum j) (sys_time (jstore j)) old ++ drop (length (contents l) + length old) R /\
    length D' = length D /\ take 12 D' = header bt_descriptor (u32 (pending j)) /\
    jstore j1 = (write_journal (jstore j) (buf j1)).1 /\ w = jstore j1 /\ active j1 = active j ++ [entered j S D l] /\ taken j1 = taken j /\
    bs j1 = bs j /\ uuid_checksum j1 = uuid_checksum j /\ cur j1 = Z.of_nat (length (S ++ D ++ contents l ++ old)).
Proof.
  intros [Hl Hne Hsz Hbs HS Hb Hc HD Hm (R1 & R2 & -> & LR1 & Lold)] Hw. destruct (v3_feature S HS) as (Hv3 & Hv23 & _ & Ht & Hf).
  destruct (HS) as (Hlen & _ & st & Hst). unfold create_txn. destruct txns as [|s0 txns]; [done|].
  rewrite Hb. unfold tags_per_block. rewrite !desc_tag_size_left, Ht, Hf, feature_left, Hv23 by done. cbn [mbind outcome_bind].
  rewrite (wrap_small 64) by (unfold in_range; lia). unfold start_block, be32_at. rewrite rd_left by lia. change (be32_at S 28) with (start_block S).
  assert (l_rd : (l0 ← rd S 28 4; Done (be l0)) = Done st) by exact Hst. rewrite l_rd. cbn [mbind outcome_bind]. rewrite Hc.
  set (seq := u32 (pending j)).
  rewrite (wr_at S (take 12 D) (drop 12 D ++ R1 ++ old ++ R2)); cycle 1.
  { by rewrite (app_assoc (take 12 D)), take_drop. } { done. } { rewrite length_header, length_take. lia. }
  cbn [mbind outcome_bind]. set (D0 := header bt_descriptor seq ++ drop 12 D).
  assert (length D0 = length D) as LD0 by (unfold D0; rewrite length_app, length_header, length_drop; lia).
  destruct (log_blocks_ok j S D0 [] (R1 ++ old ++ R2) l 12 (1 + (bs j - 12 - 32 - 4) / 16) 0 true seq) as (D1 & E & L1 & T1).
  { done. } { done. } { lia. } { congruence. } { lia. } { zlia. } { zlia. } { rewrite length_app. lia. }
  rewrite app_nil_r, app_nil_l in E. replace (Z.of_nat (length (S ++ D0))) with (Z.of_nat (length S) + bs j) in E by (rewrite length_app, LD0; lia).
  match goal with |- context [log_blocks _ _ _ _ _ _ _ _ _ ?x] => replace x with l by exact Hl end. replace (S ++ header bt_descriptor seq ++ drop 12 D ++ R1 ++ old ++ R2) with (S ++ D0 ++ R1 ++ old ++ R2) by (unfold D0; by rewrite <- !app_assoc).
  rewrite E. cbn [mbind outcome_bind]. rewrite app_nil_l. rewrite <- LR1, drop_app_length.
  assert (Z.of_nat (length (contents l)) = bs j * Z.of_nat (length l)) as LC by by apply length_contents.
  unfold seal_block. rewrite feature_left, Hv23 by done. cbn [mbind outcome_bind].
  rewrite (rd_at S D1 (contents l ++ old ++ R2)) by first [done | lia]. cbn [mbind outcome_bind].
  destruct (wr_part S D1 (contents l ++ old ++ R2) (Z.of_nat (length S) + bs j - 4) (be_bytes 4 (crc32c (uuid_checksum j) D1))) as (D2 & -> & L2 & T2);
    [lia|rewrite length_be_bytes; lia|]. cbn [mbind outcome_bind].
  set (tar := Z.of_nat (length S) + bs j + bs j * Z.of_nat (length l)).
  assert (tar = Z.of_nat (length (S ++ D2 ++ contents l))) as Htar by (unfold tar; rewrite !length_app; lia).
  rewrite (wr_at (S ++ D2 ++ contents l) (take 60 old) (drop 60 old ++ R2)); cycle 1.
  { by rewrite <- !app_assoc, (app_assoc (take 60 old)), take_drop. } { done. } { rewrite length_commit_header, length_take. lia. }
  cbn [mbind outcome_bind]. set (time := sys_time (jstore j)). set (F := fresh_commit time old).
  assert (length F = length old) as LF by (apply length_fresh_commit; lia).
  replace ((S ++ D2 ++ contents l) ++ commit_header time ++ drop 60 old ++ R2) with ((S ++ D2 ++ contents l) ++ F ++ R2) by (unfold F, fresh_commit; by rewrite <- !app_assoc).
  rewrite (rd_at (S ++ D2 ++ contents l) F R2) by first [done | lia]. cbn [mbind outcome_bind].
  rewrite (wr_at ((S ++ D2 ++ contents l) ++ take 16 F) (take 4 (drop 16 F)) (drop 20 F ++ R2)); cycle 1.
  { rewrite <- !app_assoc. by do 3 f_equal. }
  { rewrite length_app, length_take. lia. } { rewrite length_be_bytes, length_take, length_drop. lia. }
  cbn [mbind outcome_bind]. unfold ddwrite. cbn [jstore buf with_cur with_open with_buf].
  match goal with |- context [write_journal ?w ?b] => pose proof (Hw w b) as Hok; destruct (write_journal w b) as [w' ok] eqn:Ew; simpl in Hok; subst ok end.
  cbn [negb]. eexists _, D2, w'. split; [done|]. cbn [buf jstore active taken bs uuid_checksum cur with_queue with_store with_cur with_open with_buf].
  assert (Z.of_nat (length (S ++ D)) = Z.of_nat (length S) + bs j) as HSD by (rewrite length_app; lia).
  split_and!; try done.
  - unfold commit_block. fold time. fold F. rewrite <- !app_assoc. rewrite LR1 by done. repeat f_equal.
    rewrite <- LR1, <- drop_drop, drop_app_length. by rewrite drop_app_length.
  - lia.
  - assert (take 12 D2 = take 12 D1) as -> by (eapply take_shorter; [|exact T2]; lia). change (Z.to_nat 12) with 12%nat in T1. rewrite T1.
    unfold D0. rewrite take_app_length'; [done|]. by rewrite length_header.
  - rewrite Ew. done.
  - unfold entered. by rewrite HSD.
  - unfold tar. rewrite !length_app. lia.
Qed.

(** ** Syncing *)
Definition write_all (w : W) (l : list (Z * list Z)) : W :=
  fold_left (fun w x => if fst x =? 0 then w else (write_block w (fst x) (snd x)).1) l w.

Lemma write_blocks_ok j l pre post :
  (forall w n b, (write_block w n b).2 = true) -> sized (bs j) l -> buf j = pre ++ contents l ++ post ->
  write_blocks j (log_of (bs j) (Z.of_nat (length pre)) l) = Done (with_store j (write_all (jstore j) l), true).
Proof.
  intros Hw. revert j pre. induction l as [|[num d] l IH]; intros j pre Hsz Hb; [simpl; by destruct j|].
  apply Forall_cons in Hsz as [Hd Hsz]. cbn [snd] in Hd. cbn [log_of write_blocks]. change (contents ((num, d) :: l)) with (d ++ contents l) in Hb.
  rewrite <- app_assoc in Hb. assert (Z.of_nat (length pre) + bs j = Z.of_nat (length (pre ++ d))) as Hl by (rewrite length_app; lia).
  change (l_number (MkLog num _)) with num. cbn [write_all fold_left fst snd].
  destruct (Z.eqb_spec num 0) as [->|Hnum].
  - rewrite Hl. rewrite (IH j (pre ++ d)); [done|done|]. by rewrite Hb, <- app_assoc.
  - cbn [l_off]. rewrite (rd_at pre d (contents l ++ post)) by done. cbn [mbind outcome_bind].
    pose proof (Hw (jstore j) num d) as Hok. destruct (write_block (jstore j) num d) as [w ok] eqn:Ew; simpl in Hok; subst ok.
    rewrite Hl. change (bs j) with (bs (with_store j w)). rewrite (IH (with_store j w) (pre ++ d)); [|done|cbn [buf with_store]; by rewrite Hb, <- app_assoc].
    done.
Qed.

(** C21: Syncing writes what was logged: a transaction of whole blocks is copied into the log, and executing the
    pending transactions then writes each block with the contents it had when it
    was logged, in order, and clears the log. *)
Theorem sync_writes_logged j S D old R txns l :
  fits j S D old R txns l ->
  (forall w b, (write_journal w b).2 = true) -> (forall w n b, (write_block w n b).2 = true) -> taken j = length (active j) ->
  exists j1 j2, create_txn j txns = Done (j1, true) /\ execute_pending_txns j1 = Done (j2, true) /\
    jstore j2 = (write_journal (write_all (jstore j1) l) (buf j2)).1 /\
    buf j2 = zeroed (bs j) (buf j1) /\ taken j2 = length (active j2) /\ cur j2 = 0.
Proof.
  intros F Hw Hwb Ht. pose proof F as [Hl Hne Hsz Hbs HS Hb Hc HD Hm HR].
  destruct (create_txn_ok j S D old R txns l) as (j1 & D' & w & E & Hb1 & LD' & _ & _ & _ & Ha & Ht1 & Hbs1 & _); [done..|]. exists j1.
  unfold execute_pending_txns. rewrite Ha, Ht1, Ht, drop_app_length. cbn [execute_from]. unfold execute_and_complete. cbn [entered data_blocks elems].
  set (j1' := with_queue j1 (active j1) (Datatypes.S (taken j1))).
  assert (Z.of_nat (length (S ++ D)) = Z.of_nat (length (S ++ D'))) as HSD by (rewrite !length_app; lia). rewrite HSD, <- Hbs1. change (bs j1) with (bs j1').
  rewrite (write_blocks_ok j1' l (S ++ D') (commit_block (uuid_checksum j) (sys_time (jstore j)) old ++ drop (length (contents l) + length old) R));
    [|done|by rewrite <- Hbs1 in Hsz|cbn [buf with_queue j1']; by rewrite Hb1, <- !app_assoc].
  cbn [mbind outcome_bind]. unfold clear_log, ddwrite. cbn [bs buf jstore with_store with_buf with_cur with_seq with_queue j1'].
  match goal with |- context [write_journal ?w ?b] => pose proof (Hw w b) as Hok; destruct (write_journal w b) as [w' ok] eqn:Ew; simpl in Hok; subst ok end.
  eexists. split; [done|]. split; [done|]. cbn [bs buf jstore with_store with_buf with_cur with_seq with_queue taken active cur].
  rewrite Ew. split_and!; try done; try (by rewrite Hbs1). unfold j1'. cbn [taken active with_queue]. rewrite Ht1, Ht, Ha, length_app. simpl. lia.
Qed.

(** ** The start of the journal *)
Lemma wr_start b b' p l : wr b p l = Done b' -> 12 <= p -> take 12 b' = take 12 b.
Proof.
  unfold wr. intros H Hp. case_match; [|done]. simplify_eq. rewrite take_app_le; [|rewrite length_take].
  - rewrite take_take, Nat.min_l by lia. done.
  - apply andb_prop in H0 as [_ H0%Z.leb_le]. lia.
Qed.
Lemma tag_size_nonneg b s n : desc_tag_size b s = Done n -> 0 <= n.
Proof.
  unfold desc_tag_size. destruct (feature b f_csum_v3) as [v3| |]; [|done..]. destruct (feature b f_x64_support) as [x| |]; [|done..].
  cbn [mbind outcome_bind]. intros. simplify_eq. destruct v3, x, s; lia.
Qed.
Lemma tag_start j b num d p seq fi la b' n : desc_tag_create j b num d p seq fi la = Done (b', n) -> 12 <= p -> take 12 b' = take 12 b /\ 0 <= n.
Proof.
  unfold desc_tag_create. intros H Hp.
  destruct (desc_tag_size b true) as [sz| |] eqn:Esz; [|done..]. apply tag_size_nonneg in Esz. destruct (need_escape d); [|done..].
  destruct (feature b f_csum_v3); [|done..]. destruct (feature b f_x64_support); [|done..].
  cbn [mbind outcome_bind] in H. destruct (wr b p _) as [b1| |] eqn:E1; [|done..]. cbn [mbind outcome_bind] in H. apply wr_start in E1; [|done].
  destruct fi; [|by simplify_eq]. destruct (uuid b1) as [u| |]; [|done..]. cbn [mbind outcome_bind] in H.
  destruct (wr b1 (p + sz) u) as [b2| |] eqn:E2; [|done..]. cbn [mbind outcome_bind] in H. simplify_eq.
  apply wr_start in E2; [|lia]. split; [congruence|lia].
Qed.
Lemma seal_start j b c b' : seal_block j b c = Done b' -> 12 <= c + bs j - 4 -> take 12 b' = take 12 b.
Proof.
  unfold seal_block. intros H Hc. destruct (feature b _) as [v| |]; [|done..]. cbn [mbind outcome_bind] in H. destruct v; [|by simplify_eq].
  destruct (rd b c (bs j)) as [blk| |]; [|done..]. cbn [mbind outcome_bind] in H. by apply wr_start in H.
Qed.
Lemma log_blocks_start j l : forall b c pos tar seq k n first r,
  log_blocks j b c pos tar seq k n first l = Done r -> 16 <= bs j -> 0 <= c -> 12 <= pos -> 12 <= tar -> take 12 r.1.1.1.1 = take 12 b /\ 0 <= r.1.1.1.2 /\ 12 <= r.1.1.2.
Proof.
  induction l as [|[num src] l IH]; intros b c pos tar seq k n first r H Hbs Hc Hp Ht; [by simplify_eq/=|]. cbn [log_blocks] in H.
  destruct (rd src 0 (bs j)) as [d| |]; [|done..]. cbn [mbind outcome_bind] in H.
  destruct (desc_tag_create _ _ _ _ _ _ _ _) as [[b1 sz]| |] eqn:E1; [|done..]. cbn [mbind outcome_bind] in H. apply tag_start in E1 as [T1 Hsz]; [|done].
  destruct (wr b1 tar d) as [b2| |] eqn:E2; [|done..]. cbn [mbind outcome_bind] in H. apply wr_start in E2; [|done].
  destruct (u64 (k - 1) =? 0).
  - destruct (seal_block j b2 c) as [b3| |] eqn:E3; [|done..]. cbn [mbind outcome_bind] in H. apply seal_start in E3; [|lia].
    destruct (wr b3 _ _) as [b4| |] eqn:E4; [|done..]. cbn [mbind outcome_bind] in H. apply wr_start in E4; [|lia].
    destruct (log_blocks _ _ _ _ _ _ _ _ _ _) as [[[[[b5 c'] t] n'] ls]| |] eqn:E5; [|done..]. cbn [mbind outcome_bind] in H. simplify_eq/=.
    apply IH in E5 as (T5 & ? & ?); simpl in *; [|lia..]. split; [congruence|lia].
  - destruct (log_blocks _ _ _ _ _ _ _ _ _ _) as [[[[[b5 c'] t] n'] ls]| |] eqn:E5; [|done..]. cbn [mbind outcome_bind] in H. simplify_eq/=.
    apply IH in E5 as (T5 & ? & ?); simpl in *; [|lia..]. split; [congruence|lia].
Qed.

Lemma write_blocks_frame j l r : write_blocks j l = Done r -> bs r.1 = bs j /\ buf r.1 = buf j.
Proof.
  revert j. induction l as [|lb l IH]; intros j H; cbn [write_blocks] in H; [by simplify_eq|]. destruct (l_number lb =? 0); [by apply IH|].
  destruct (rd _ _ _) as [d| |]; [|done..]. cbn [mbind outcome_bind] in H. destruct (write_block _ _ _) as [w ok]. destruct ok; [by apply IH in H|by simplify_eq].
Qed.
(** A sync that succeeds leaves the cursor at the superblock. *)
Lemma execute_from_rewinds l : forall j j', execute_from j l = Done (j', true) -> cur j' = 0 /\ bs j' = bs j.
Proof.
  induction l as [|t l IH]; intros j j' H; cbn [execute_from] in H.
  - unfold clear_log, ddwrite in H. destruct (write_journal _ _). by simplify_eq.
  - destruct (execute_and_complete _ _) as [[j1 ok]| |] eqn:E; [|done..]. cbn [mbind outcome_bind] in H.
    destruct ok; [|by simplify_eq]. apply IH in H as [? Hb]. split; [done|]. apply write_blocks_frame in E as [E _]. cbn [fst bs with_queue] in E. congruence.
Qed.

(** A transaction after a sync destroys the journal's superblock: a sync that succeeds has put the cursor at the start of the
    journal, not behind the superblock, and a transaction that is then logged
    leaves a descriptor block in its place. *)
Theorem txn_after_sync_overwrites_superblock j j1 j2 ok txns :
  execute_pending_txns j = Done (j1, true) -> txns <> [] -> 16 <= bs j -> create_txn j1 txns = Done (j2, ok) ->
  take 12 (buf j2) = header bt_descriptor (u32 (pending j1)) /\ be32_at (buf j2) 4 = Done bt_descriptor.
Proof.
  intros [Hc Hbs]%execute_from_rewinds Hne H16 H. rewrite <- Hbs in H16. clear Hbs j.
  assert (take 12 (buf j2) = header bt_descriptor (u32 (pending j1))) as Hb; cycle 1.
  { split; [done|]. rewrite <- (take_drop 12 (buf j2)), Hb. unfold be32_at. rewrite rd_left by (by rewrite length_header). done. }
  unfold create_txn in H. destruct txns as [|s0 txns]; [done|]. rewrite Hc in H.
  destruct (tags_per_block _ _) as [tpb| |]; [|done..]. destruct (start_block _) as [st| |]; [|done..]. cbn [mbind outcome_bind] in H.
  destruct (wr (buf j1) 0 _) as [b0| |] eqn:E0; [|done..]. cbn [mbind outcome_bind] in H.
  destruct (log_blocks _ _ _ _ _ _ _ _ _ _) as [[[[[b1 c'] tar] n] ls]| |] eqn:E1; [|done..]. cbn [mbind outcome_bind] in H.
  apply log_blocks_start in E1 as (T1 & Hc' & Htar); cbn [fst snd] in *; [|lia..].
  destruct (seal_block _ _ _) as [b2| |] eqn:E2; [|done..]. cbn [mbind outcome_bind] in H. apply seal_start in E2; [|lia].
  destruct (wr b2 _ _) as [b3| |] eqn:E3; [|done..]. cbn [mbind outcome_bind] in H. apply wr_start in E3; [|lia].
  destruct (rd b3 _ _) as [blk| |]; [|done..]. cbn [mbind outcome_bind] in H.
  destruct (wr b3 _ _) as [b4| |] eqn:E4; [|done..]. cbn [mbind outcome_bind] in H. apply wr_start in E4; [|lia].
  assert (buf j2 = b4) as ->. { unfold ddwrite in H. destruct (write_journal _ _) as [w []]; by simplify_eq/=. }
  rewrite E4, E3, E2, T1. unfold wr in E0. destruct ((0 <=? 0) && _) in E0; [|done]. simplify_eq. done.
Qed.

(** ** After a restart *)

(** A block that does not begin like a commit block. *)
Definition plain (b : list Z) : Prop := be (take 4 b) <> jbd2_magic \/ be (take 4 (drop 4 b)) <> bt_commit.
Definition plain_blocks (n : Z) (l : list (list Z)) : Prop := Forall (fun b => Z.of_nat (length b) = n /\ plain b) l.

Lemma be32_in (pre b post : list Z) o p : p = Z.of_nat (length pre) + Z.of_nat o -> (o + 4 <= length b)%nat -> be32_at (pre ++ b ++ post) p = Done (be (take 4 (drop o b))).
Proof.
  intros -> Ho. unfold be32_at. rewrite (rd_at (pre ++ take o b) (take 4 (drop o b)) (drop 4 (drop o b) ++ post)); [done| |rewrite length_app, length_take; lia|rewrite length_take, length_drop; lia].
  rewrite <- !app_assoc. f_equal. by rewrite (app_assoc (take 4 _)), take_drop, app_assoc, take_drop.
Qed.
Lemma find_commit_skip j blocks : forall pre post f pos,
  8 <= bs j -> plain_blocks (bs j) blocks -> buf j = pre ++ concat blocks ++ post -> pos = Z.of_nat (length pre) ->
  find_commit (length blocks + f) j pos = find_commit f j (pos + Z.of_nat (length (concat blocks))).
Proof.
  induction blocks as [|b blocks IH]; intros pre post f pos Hbs Hpl Hb ->; [simpl; by rewrite Z.add_0_r|].
  apply Forall_cons in Hpl as [[Hlen Hp] Hpl]. cbn [concat] in Hb. rewrite <- app_assoc in Hb.
  cbn [length Nat.add find_commit]. unfold max_. rewrite Hb, !length_app. case_cmp; [lia|].
  rewrite (be32_in pre b _ 0 (Z.of_nat (length pre))), (be32_in pre b _ 4 (Z.of_nat (length pre) + 4)) by lia. cbn [mbind outcome_bind]. rewrite drop_0.
  assert ((be (take 4 b) =? jbd2_magic) && (be (take 4 (drop 4 b)) =? bt_commit) = false) as ->.
  { destruct Hp as [Hp|Hp]; apply Z.eqb_neq in Hp; rewrite Hp; [done|by rewrite andb_false_r]. }
  rewrite (IH (pre ++ b) post f); [|done|done|by rewrite Hb, <- app_assoc|rewrite length_app; lia].
  f_equal. cbn [concat]. rewrite length_app. lia.
Qed.
End Journal.

(** What the reader relies on: the checksum is 32 bits wide and keeps different start
    values apart, and the journal reads back as it was written. *)
Class JournalLaws (W : Type) `{!JournalStore W} := {
  crc_range s d : 0 <= crc32c s d < 2 ^ 32;
  crc_seed s s' d : 0 <= s < 2 ^ 32 -> 0 <= s' < 2 ^ 32 -> crc32c s d = crc32c s' d -> s = s';
  journal_reads w b : read_journal (write_journal w b).1 = Some b;
  journal_writes w b : (write_journal w b).2 = true }.

Section Restart.
Context {W : Type} `{!JournalStore W, !JournalLaws W}.
Implicit Types (j : journal W).

(** The checksum in a commit block of [create_txn] does not match. *)
Lemma commit_csum_differs j pre post u time old :
  uuid_checksum j = u -> 0 <= u < 2 ^ 32 -> crc32c u [0; 0; 0; 0] <> u -> 60 <= bs j -> Z.of_nat (length old) = bs j ->
  buf j = pre ++ commit_block u time old ++ post ->
  exists cs check, be32_at (buf j) (Z.of_nat (length pre) + 16) = Done check /\
    block_csum j (Z.of_nat (length pre)) 16 (Z.of_nat (length pre)) = Done cs /\ cs <> check.
Proof.
  intros Hu Hr Hfix Hbs Hold Hb. set (F := fresh_commit time old).
  assert (length F = length old) as LF by (apply length_fresh_commit; lia).
  assert (length (commit_block u time old) = length old) as LC by (apply length_commit_block; lia).
  exists (crc32c (crc32c u [0; 0; 0; 0]) F), (crc32c u F). split_and!.
  - rewrite Hb, (be32_in _ _ _ 16) by lia. f_equal. unfold commit_block. fold F.
    rewrite drop_app_length' by (rewrite length_take; lia). rewrite take_app_length' by by rewrite length_be_bytes. apply be_be_bytes. pose proof (crc_range u F). lia.
  - unfold block_csum. rewrite Hb, Hu.
    assert (Hsplit : commit_block u time old = take 8 F ++ [0; 0; 0; 0] ++ take 4 (drop 12 F) ++ be_bytes 4 (crc32c u F) ++ drop 20 F) by done.
    rewrite (rd_at (pre ++ take 8 F) [0; 0; 0; 0] (take 4 (drop 12 F) ++ be_bytes 4 (crc32c u F) ++ drop 20 F ++ post));
      [|rewrite Hsplit, <- !app_assoc; done|rewrite length_app, length_take; lia|done]. cbn [mbind outcome_bind].
    rewrite (wr_at (pre ++ take 16 F) (be_bytes 4 (crc32c u F)) (drop 20 F ++ post));
      [|unfold commit_block; fold F; by rewrite <- !app_assoc|rewrite length_app, length_take; lia|by rewrite !length_be_bytes]. cbn [mbind outcome_bind].
    rewrite (rd_at pre F post); [done| |done|lia]. rewrite <- !app_assoc. done.
  - intros E. apply crc_seed in E; [done|apply crc_range|done].
Qed.

Lemma find_commit_none j blocks pre f : 8 <= bs j -> plain_blocks (bs j) blocks -> buf j = pre ++ concat blocks -> (length blocks <= f)%nat ->
  find_commit f j (Z.of_nat (length pre)) = Done None.
Proof.
  intros Hbs Hpl Hb Hf. replace f with (length blocks + (f - length blocks))%nat by lia.
  rewrite (find_commit_skip j blocks pre []); [|done|done|by rewrite app_nil_r|done].
  assert (max_ j = Z.of_nat (length pre) + Z.of_nat (length (concat blocks))) as <- by (unfold max_; rewrite Hb, length_app; lia).
  destruct (f - length blocks)%nat; cbn [find_commit]; by rewrite Z.leb_refl.
Qed.
Lemma blocks_fit n l : 1 <= n -> plain_blocks n l -> (length l <= length (concat l))%nat.
Proof. intros Hn. induction 1 as [|b l [Hb _] _ IH]; simpl; [lia|]. rewrite length_app. lia. Qed.

(** The first transaction of the log, with the commit block of [create_txn], is passed over. *)
Lemma read_skips j pre blocks u time old rest :
  60 <= bs j -> plain_blocks (bs j) blocks -> buf j = pre ++ concat blocks ++ commit_block u time old ++ rest -> cur j = Z.of_nat (length pre) ->
  uuid_checksum j = u -> 0 <= u < 2 ^ 32 -> crc32c u [0; 0; 0; 0] <> u -> Z.of_nat (length old) = bs j ->
  read_log_transaction (S (length (buf j))) j = Done (with_cur j (Z.of_nat (length (pre ++ concat blocks))), SKIP).
Proof.
  intros Hbs Hpl Hb Hc Hu Hr Hfix Hold. assert (length (commit_block u time old) = length old) as LC by (apply length_commit_block; lia).
  pose proof (blocks_fit (bs j) _ ltac:(lia) Hpl) as Hfit. unfold read_log_transaction.
  replace (S (length (buf j))) with (length blocks + S (length (buf j) - length blocks))%nat by (rewrite Hb, !length_app; lia).
  rewrite (find_commit_skip j blocks pre (commit_block u time old ++ rest)); [|lia|done..].
  set (ce := cur j + _). assert (ce = Z.of_nat (length (pre ++ concat blocks))) as Hce by (unfold ce; rewrite length_app; lia). clearbody ce. subst ce.
  rewrite app_assoc in Hb. set (P := pre ++ concat blocks) in *.
  assert (find_commit (S (length (buf j) - length blocks)) j (Z.of_nat (length P)) = Done (Some (Z.of_nat (length P)))) as ->.
  { cbn [find_commit]. unfold max_. rewrite Hb, !length_app. case_cmp; [lia|].
    rewrite (be32_in P (commit_block u time old) rest 0 (Z.of_nat (length P))), (be32_in P (commit_block u time old) rest 4 (Z.of_nat (length P) + 4)) by lia. done. }
  cbn [mbind outcome_bind]. destruct (commit_csum_differs j P rest u time old) as (cs & check & -> & -> & Hne); [done..|].
  cbn [mbind outcome_bind]. apply Z.eqb_neq in Hne. rewrite Hne. cbn [negb]. unfold setc, max_. rewrite Hb, !length_app. case_cmp; [done|lia..].
Qed.

Lemma read_log_skip f j j1 : cur j < max_ j -> read_log_transaction (S (length (buf j))) j = Done (j1, SKIP) ->
  read_log (S f) j = read_log f (with_seq (bumpc j1 (bs j1)) (log_seq (bumpc j1 (bs j1)) + 1)).
Proof. intros H E. cbn [read_log]. case_cmp; [lia|]. by rewrite E. Qed.
Lemma read_log_end f j : (cur j < max_ j -> read_log_transaction (S (length (buf j))) j = Done (j, NREM)) -> active j = [] -> read_log (S f) j = Done (j, true).
Proof. intros E Ha. cbn [read_log]. rewrite Ha. case_cmp; [done|]. by rewrite E. Qed.

(** The journal object of a new mount. *)
Definition mounted (block_size : Z) (w : W) : journal W := MkJ block_size [] 0 0 false [] 0 0 1 w.

Lemma reopen_skips (n u time : Z) S blocks old later w b :
  60 <= n -> Z.of_nat (length S) = n -> sb_ok S -> be32_at S 0 = Done jbd2_magic -> (exists d, uuid S = Done d /\ u = crc32c 0xFFFFFFFF d) ->
  crc32c u [0; 0; 0; 0] <> u -> Z.of_nat (length old) = n -> plain_blocks n blocks -> plain_blocks n later ->
  b = S ++ concat blocks ++ commit_block u time old ++ concat later -> read_journal w = Some b ->
  exists j3, on_open 2 (mounted n w) (Z.of_nat (length b)) = Done (j3, true) /\ active j3 = [] /\ jstore j3 = w.
Proof.
  intros Hn HS (Hlen & _) Hmag (d & Hd & Hu) Hfix Hold Hpl Hlater Hb Hw.
  assert (length (commit_block u time old) = length old) as LC by (apply length_commit_block; lia).
  unfold on_open. change (has_init (mounted n w)) with false. change (jstore (mounted n w)) with w. rewrite Hw, Z.eqb_refl. cbn [negb].
  assert (be32_at b 0 = Done jbd2_magic) as ->. { rewrite Hb. unfold be32_at. by rewrite rd_left by lia. }
  cbn [mbind outcome_bind]. rewrite Z.eqb_refl. cbn [negb]. assert (uuid b = Done d) as ->. { rewrite Hb. by rewrite uuid_left. }
  cbn [mbind outcome_bind]. rewrite <- Hu. unfold bumpc, setc, max_. cbn [cur buf bs with_buf mounted].
  assert (Z.of_nat (length b) = n + Z.of_nat (length (concat blocks)) + n + Z.of_nat (length (concat later))) as Lb by (rewrite Hb, !length_app; lia).
  rewrite Z.add_0_l. case_cmp; [|lia..]. cbn [bs buf cur active taken log_seq first_open_block jstore with_cur with_buf mounted].
  set (j2 := MkJ _ _ _ _ _ _ _ _ _ _).
  assert (0 <= u < 2 ^ 32) as Hur by (rewrite Hu; apply crc_range).
  rewrite (read_log_skip 1 j2 (with_cur j2 (Z.of_nat (length (S ++ concat blocks))))); cycle 1.
  { change (n < Z.of_nat (length b)). lia. } { by apply (read_skips j2 S blocks u time old (concat later)). }
  set (c := Z.of_nat (length ((S ++ concat blocks) ++ commit_block u time old))).
  assert (bumpc (with_cur j2 (Z.of_nat (length (S ++ concat blocks)))) n = with_cur j2 c) as Hbump.
  { unfold bumpc, setc, max_. cbn [buf cur with_cur j2]. rewrite length_app. case_cmp; [|lia..]. unfold with_cur. f_equal. unfold c. rewrite !length_app. lia. }
  change (bs (with_cur _ _)) with n. rewrite Hbump. set (j4 := with_seq _ _).
  rewrite (read_log_end 0 j4); [by eexists| |done]. intros _. unfold read_log_transaction. change (buf j4) with b. change (cur j4) with c. unfold c.
  pose proof (blocks_fit n _ ltac:(lia) Hlater). assert (b = ((S ++ concat blocks) ++ commit_block u time old) ++ concat later) as Hb' by by rewrite Hb, <- !app_assoc.
  rewrite (find_commit_none j4 later); [done|cbn; lia|done|done|lia].
Qed.

(** C22: A logged transaction is not replayed: when a transaction has been written to an otherwise empty log and the file system is
    mounted again, opening the journal succeeds, but the transaction is not found and nothing is written: the
    checksum of its commit block is written without the sequence number and read with it. *)
Theorem logged_txn_not_replayed j S D old R1 later txns l d :
  fits j S D old (R1 ++ old ++ concat later) txns l -> length R1 = length (contents l) -> Z.of_nat (length S) = bs j -> Z.of_nat (length old) = bs j ->
  be32_at S 0 = Done jbd2_magic -> uuid S = Done d -> uuid_checksum j = crc32c 0xFFFFFFFF d -> crc32c (uuid_checksum j) [0; 0; 0; 0] <> uuid_checksum j ->
  Forall (fun x => plain (snd x)) l -> plain_blocks (bs j) later ->
  exists j1 j3, create_txn j txns = Done (j1, true) /\ active j1 = active j ++ [entered j S D l] /\
    on_open 2 (mounted (bs j) (jstore j1)) (Z.of_nat (length (buf j1))) = Done (j3, true) /\ active j3 = [] /\ jstore j3 = jstore j1.
Proof.
  intros F LR1 LS Lold Hmag Hd Hu Hfix Hpl Hlater. pose proof (fit_bs _ _ _ _ _ _ _ F) as Hbs. pose proof (fit_sized _ _ _ _ _ _ _ F) as Hsz.
  destruct (create_txn_ok j S D old (R1 ++ old ++ concat later) txns l F) as (j1 & D' & w & E & Hb1 & LD' & HD' & Hst & _ & Ha & _); [apply journal_writes|].
  exists j1. rewrite <- LR1, <- drop_drop, !drop_app_length in Hb1.
  destruct (reopen_skips (bs j) (uuid_checksum j) (sys_time (jstore j)) S (D' :: map snd l) old later (jstore j1) (buf j1)) as (j3 & Ho & Ha3 & Hs3);
    [lia|done|by apply (fit_sb _ _ _ _ _ _ _ F)|done|by exists d|done|done| |done| |rewrite Hst; apply journal_reads|by exists j3].
  - apply Forall_cons. split.
    + split; [rewrite LD'; by apply (fit_desc _ _ _ _ _ _ _ F)|]. right. rewrite <- (take_drop 12 D'), HD'. unfold header, be_bytes, bt_descriptor. done.
    + apply Forall_map. apply Forall_and. split; [exact Hsz|exact Hpl].
  - rewrite Hb1. cbn [concat]. by rewrite <- !app_assoc, contents_concat.
Qed.
End Restart.

(** ** A small journal *)
Module Log.
Definition sum (l : list Z) : Z := fold_right Z.add 0 l.
Record disk := MkDisk { log : option (list Z); written : list (Z * list Z) }.
#[global] Instance store : JournalStore disk := {|
  write_block d n b := (MkDisk (log d) (written d ++ [(n, b)]), true);
  write_journal d b := (MkDisk (Some b) (written d), true);
  read_journal := log;
  crc32c s l := (s + Z.of_nat (length l) + sum l) mod 2 ^ 32;
  sys_time _ := 1234567 |}.
#[global] Instance laws : JournalLaws disk.
Proof.
  split; [intros s d|intros s s' d Hs Hs' E|done..]; unfold crc32c, store in *; [apply Z.mod_pos_bound; lia|].
  assert (s mod 2 ^ 32 = s' mod 2 ^ 32) as H; [|by rewrite !Z.mod_small in H].
  replace s with (s + Z.of_nat (length d) + sum d - (Z.of_nat (length d) + sum d)) by lia. rewrite Zminus_mod, E, <- Zminus_mod. f_equal. lia.
Qed.
Definition sb : list Z := be_bytes 4 jbd2_magic ++ be_bytes 4 4 ++ replicate 28 0 ++ be_bytes 4 f_csum_v3 ++ replicate 8 0 ++ replicate 16 9.
Definition zero_block : list Z := replicate 64 0.
Definition empty : journal disk :=
  MkJ 64 (sb ++ zero_block ++ zero_block ++ zero_block ++ concat [zero_block]) 64 (crc32c 0xFFFFFFFF (replicate 16 9)) true [] 0 0 1 (MkDisk None []).
Definition request : list src_block := [MkSrc 5 (replicate 64 7) 1].
Definition block : list (Z * list Z) := [(5, replicate 64 7)].
Lemma request_fits : fits empty sb zero_block zero_block (zero_block ++ zero_block ++ concat [zero_block]) request block.
Proof.
  split; try done; [by repeat constructor| |exists zero_block, (concat [zero_block]); done].
  split; [simpl; lia|]. split; [by exists f_csum_v3|by exists 0].
Qed.
End Log.

Lemma sync_writes_logged_witness : exists j1 j2, create_txn Log.empty Log.request = Done (j1, true) /\ execute_pending_txns j1 = Done (j2, true) /\
    jstore j2 = (write_journal (write_all (jstore j1) Log.block) (buf j2)).1 /\ buf j2 = zeroed 64 (buf j1) /\ taken j2 = length (active j2) /\ cur j2 = 0.
Proof. apply (sync_writes_logged Log.empty Log.sb Log.zero_block Log.zero_block _ Log.request Log.block Log.request_fits); done. Defined.

Lemma logged_txn_not_replayed_witness : exists j1 j3, create_txn Log.empty Log.request = Done (j1, true) /\ active j1 = [entered Log.empty Log.sb Log.zero_block Log.block] /\
    on_open 2 (mounted 64 (jstore j1)) (Z.of_nat (length (buf j1))) = Done (j3, true) /\ active j3 = [] /\ jstore j3 = jstore j1.
Proof.
  apply (logged_txn_not_replayed Log.empty Log.sb Log.zero_block Log.zero_block Log.zero_block [Log.zero_block] Log.request Log.block (replicate 16 9) Log.request_fits); try done; (constructor; [|done]); [by left|]. split; [done|]. by left.
Defined.

Definition result_of {A} (o : outcome (A * bool)) (d : A) : A := match o with Done (x, _) => x | _ => d end.
Lemma txn_after_sync_overwrites_superblock_witness : exists j1 j2, execute_pending_txns Log.empty = Done (j1, true) /\ create_txn j1 Log.request = Done (j2, true) /\
  take 12 (buf j2) = header bt_descriptor (u32 (pending j1)) /\ be32_at (buf j2) 4 = Done bt_descriptor.
Proof.
  exists (result_of (execute_pending_txns Log.empty) Log.empty), (result_of (create_txn (result_of (execute_pending_txns Log.empty) Log.empty) Log.request) Log.empty).
  split; [by vm_compute|]. split; [by vm_compute|].
  apply (txn_after_sync_overwrites_superblock Log.empty _ _ true Log.request); [by vm_compute|done|simpl; lia|by vm_compute].
Defined.
End Jbd2Props.
