(* ===== verification/Vfs.v ===== *)
(** The file system layer (kernel/fs/filesystem.cpp, fs_node.cpp) over the RAM file system
    (kernel/fs/ramfs), and the system calls on files (kernel/syscalls/fs_syscalls.cpp).

    Nodes and directory entries ([vnode], [tnode]) are objects of a store, named by the
    numbers that stand for their addresses; erasing a directory entry frees it, and the
    address is not used again.  An operation is a function from the state to the state and a
    value or an exception.  The contents of files and pipes are an interface.  Device nodes
    and mounted file systems, of which the source creates none, are left out, as are times.
    A hash set of nodes is a map from the descriptor under which a node was inserted. *)
From S2P Require Import Prelude StateExn.
From Stdlib Require Import Ascii.
From stdpp Require Import strings sorting.
Local Open Scope Z_scope.

Module Vfs.

Inductive exn := permission_error | overflow_error | invalid_argument | out_of_range | domain_error | runtime_error | logic_error.

(** [std::ios_base::openmode] *)
Record openmode := MkOm { m_app : bool; m_ate : bool; m_in : bool; m_out : bool; m_trunc : bool }.
Definition in_out : openmode := MkOm false false true true false.

Inductive vkind := KFile | KDir | KPipe.
Record vnode := MkVn {
  kind : vkind;
  mode : Z;
  fd : Z;
  concrete_name : string;
  current_mode : openmode;
  directory_tnodes : gmap string nat;
  refs : gset nat;
  pipe_idx : nat }.
Record tnode := MkTn { my_node : option nat; my_name : string }.
(** The readers and the writers of a pipe. *)
Record pipe_ct := MkPipe { readers : Z; writers : Z }.

Inductive contents := OfFile (n : nat) | OfPipe (p : nat).
Class FileData (D : Type) := {
  sputn : D -> contents -> list Z -> D;
  sgetn : D -> contents -> Z -> D * Z;      (* with the number of bytes read *)
  clear_data : D -> contents -> D * bool;
  seek_start : D -> contents -> D;
  seek_end : D -> contents -> D;
  sync_data : D -> contents -> D * bool }.

Record fs (D : Type) := MkFs {
  nodes : gmap nat vnode;
  tnodes : gmap nat tnode;
  fresh_addr : nat;
  root : nat;
  open_files : gmap Z nat;
  next_fd : Z;
  pipes : list nat;
  pipe_cts : list pipe_ct;
  fdata : D }.
Arguments MkFs {D} nodes tnodes fresh_addr root open_files next_fd pipes pipe_cts fdata.
Arguments nodes {D} f.
Arguments tnodes {D} f.
Arguments fresh_addr {D} f.
Arguments root {D} f.
Arguments open_files {D} f.
Arguments next_fd {D} f.
Arguments pipes {D} f.
Arguments pipe_cts {D} f.
Arguments fdata {D} f.

(** ** Paths *)
Fixpoint pieces (acc s : string) : list string :=
  match s with
  | EmptyString => [acc]
  | String c r => if bool_decide (c = "/"%char) then acc :: match r with EmptyString => [] | _ => pieces "" r end else pieces (acc +:+ String c "") r
  end.
(** [std::ext::split] at the path separator: no piece after a separator at the end. *)
Definition split (path : string) : list string := pieces "" path.

(** ** Permissions *)
Definition OTHERS : Z := 0.
Definition GROUP : Z := 3.
Definition OWNER : Z := 6.
Definition CHK_NONE : Z := 0.
Definition CHK_EXECUTE : Z := 1.
Definition CHK_READ : Z := 2.
Definition CHK_WRITE : Z := 4.
Definition uid_undef : Z := 2 ^ 32 - 1.
Record user_info := MkUser { uid : Z; gid : Z; system_permissions : Z }.
Definition get_fs_permissions (p : Z) : Z := u8 (Z.shiftr (Z.land p 0xF0000) 16).
Definition get_user_permission_overrides (user : user_info) (is_dir : bool) : Z :=
  let o := get_fs_permissions (system_permissions user) in
  let o1 := if is_dir then Z.lor (Z.land o 0xFE) (Z.shiftr (Z.land o 8) 3) else o in
  Z.land o1 7.
Definition permission_bits (m which : Z) : Z := Z.land (Z.shiftr m which) 7.
Definition is_dir (v : vnode) : bool := match kind v with KDir => true | _ => false end.
Definition is_file (v : vnode) : bool := negb (is_dir v).
Definition is_pipe (v : vnode) : bool := match kind v with KPipe => true | _ => false end.
(** The owner of a node of the RAM file system is undefined. *)
Definition check_permissions (v : vnode) (user : user_info) (what : Z) : bool :=
  if what =? CHK_NONE then true else
  let o := get_user_permission_overrides user (is_dir v) in
  let which := if uid_undef =? uid user then OWNER else if uid_undef =? gid user then GROUP else OTHERS in
  Z.land (Z.lor (permission_bits (mode v) which) o) what =? what.
Definition mode_check (m : openmode) : Z := Z.lor (if m_in m then CHK_READ else CHK_NONE) (if m_out m then CHK_WRITE else CHK_NONE).

(** ** Types of a file mode *)
Definition t_fifo : Z := 0x1000.
Definition t_chardev : Z := 0x2000.
Definition t_directory : Z := 0x4000.
Definition t_regular : Z := 0x8000.
Definition type_bits (m : Z) : Z := Z.land m 0xF000.
Definition default_mode : Z := 508. (* 0774 *)

Section Fs.
Context {D : Type} `{!FileData D}.
Implicit Types (s : fs D).

Local Notation M := (SE (fs D) exn).

Definition with_nodes s m : fs D := MkFs m (tnodes s) (fresh_addr s) (root s) (open_files s) (next_fd s) (pipes s) (pipe_cts s) (fdata s).
Definition with_tnodes s m : fs D := MkFs (nodes s) m (fresh_addr s) (root s) (open_files s) (next_fd s) (pipes s) (pipe_cts s) (fdata s).
Definition with_fresh s n : fs D := MkFs (nodes s) (tnodes s) n (root s) (open_files s) (next_fd s) (pipes s) (pipe_cts s) (fdata s).
Definition with_open s m : fs D := MkFs (nodes s) (tnodes s) (fresh_addr s) (root s) m (next_fd s) (pipes s) (pipe_cts s) (fdata s).
Definition with_next_fd s n : fs D := MkFs (nodes s) (tnodes s) (fresh_addr s) (root s) (open_files s) n (pipes s) (pipe_cts s) (fdata s).
Definition with_pipes s l c : fs D := MkFs (nodes s) (tnodes s) (fresh_addr s) (root s) (open_files s) (next_fd s) l c (fdata s).
Definition with_data s d : fs D := MkFs (nodes s) (tnodes s) (fresh_addr s) (root s) (open_files s) (next_fd s) (pipes s) (pipe_cts s) d.

Definition set_fd (v : vnode) (n : Z) : vnode := MkVn (kind v) (mode v) n (concrete_name v) (current_mode v) (directory_tnodes v) (refs v) (pipe_idx v).
Definition set_mode (v : vnode) (m : Z) : vnode := MkVn (kind v) (u16 m) (fd v) (concrete_name v) (current_mode v) (directory_tnodes v) (refs v) (pipe_idx v).
Definition set_current_mode (v : vnode) (m : openmode) : vnode := MkVn (kind v) (mode v) (fd v) (concrete_name v) m (directory_tnodes v) (refs v) (pipe_idx v).
Definition set_dir (v : vnode) (m : gmap string nat) : vnode := MkVn (kind v) (mode v) (fd v) (concrete_name v) (current_mode v) m (refs v) (pipe_idx v).
Definition set_refs (v : vnode) (r : gset nat) : vnode := MkVn (kind v) (mode v) (fd v) (concrete_name v) (current_mode v) (directory_tnodes v) r (pipe_idx v).

(** Access to an object that is not there is undefined. *)
Definition get_node (n : nat) : M vnode := fun s => match nodes s !! n with Some v => Done (s, inr v) | None => Undef end.
Definition upd_node (n : nat) (f : vnode -> vnode) : M unit := v ← get_node n; modify (fun s => with_nodes s (<[n := f v]> (nodes s))).
Definition get_tnode (t : nat) : M tnode := fun s => match tnodes s !! t with Some x => Done (s, inr x) | None => Undef end.
Definition new_addr : M nat := fun s => Done (with_fresh s (S (fresh_addr s)), inr (fresh_addr s)).
(** [*node] *)
Definition ref (t : nat) : M nat := x ← get_tnode t; match my_node x with Some n => mret n | None => undef end.

(** ** Directories of the RAM file system *)

(** The constructor of [tnode] enters itself into the references of the node. *)
Definition new_tnode (n : option nat) (name : string) : M nat :=
  t ← new_addr;
  modify (fun s => with_tnodes s (<[t := MkTn n name]> (tnodes s)));;
  match n with Some k => upd_node k (fun v => set_refs v ({[t]} ∪ refs v)) | None => mret tt end;;
  mret t.
Definition free_tnode (t : nat) : M unit := modify (fun s => with_tnodes s (delete t (tnodes s))).
Definition find (d : nat) (name : string) : M (option nat) := v ← get_node d; mret (directory_tnodes v !! name).
Definition enter (d t : nat) (name : string) : M (nat * bool) :=
  v ← get_node d;
  match directory_tnodes v !! name with
  | Some t0 => free_tnode t;; mret (t0, false)
  | None => upd_node d (fun v => set_dir v (<[name := t]> (directory_tnodes v)));; mret (t, true)
  end.
Definition add (d n : nat) : M nat :=
  v ← get_node n; t ← new_tnode (Some n) (concrete_name v);
  '(t', _) ← enter d t (concrete_name v); mret t'.
(** [link]: the entry is a copy of a temporary, and it is the temporary that the node refers to. *)
Definition link_entry (d t : nat) (alias : string) : M bool :=
  x ← get_tnode t; tmp ← new_tnode (my_node x) alias;
  t' ← new_addr; modify (fun s => with_tnodes s (<[t' := MkTn (my_node x) alias]> (tnodes s)));;
  '(_, fresh) ← enter d t' alias;
  free_tnode tmp;; mret fresh.
Definition unlink_entry (d : nat) (what : string) : M bool :=
  v ← get_node d;
  match directory_tnodes v !! what with
  | None => mret false
  | Some t => upd_node d (fun v => set_dir v (delete what (directory_tnodes v)));; free_tnode t;; mret true
  end.
Definition lsdir (v : vnode) : list string := merge_sort String.le (map fst (map_to_list (directory_tnodes v))).
Definition new_node (k : vkind) (m : Z) (name : string) (n : Z) (cm : openmode) (p : nat) : M nat :=
  a ← new_addr; modify (fun s => with_nodes s (<[a := MkVn k m n name cm ∅ ∅ p]> (nodes s)));; mret a.
Definition take_fd : M Z := n ← gets next_fd; modify (fun s => with_next_fd s (n + 1));; mret n.
Definition mkfilenode (name : string) : M nat := n ← take_fd; new_node KFile default_mode name n in_out 0.
Definition mkdirnode (name : string) : M nat := n ← take_fd; new_node KDir default_mode name n in_out 0.
Definition dlfilenode (n : nat) : M unit := modify (fun s => with_nodes s (delete n (nodes s))).
Definition dldirnode (n : nat) : M unit :=
  v ← get_node n; if bool_decide (directory_tnodes v = ∅) then modify (fun s => with_nodes s (delete n (nodes s))) else throw logic_error.

(** ** Descriptors *)
Definition find_fd (i : Z) : M (option nat) := gets (fun s => open_files s !! i).
Definition contains (i : Z) : M bool := gets (fun s => bool_decide (is_Some (open_files s !! i))).
Fixpoint bump_fd (fuel n : nat) : M unit :=
  (v ← get_node n; o ← find_fd (fd v);
   if match o with Some n' => negb (Nat.eqb n' n) | None => false end then
     match fuel with O => no_fuel | S f => upd_node n (fun v => set_fd v (fd v + 1));; bump_fd f n end
   else mret tt) : M unit.
Definition add_fd (n : nat) : M Z :=
  c ← gets (fun s => size (open_files s));
  bump_fd c n;;
  v ← get_node n;
  modify (fun s => match open_files s !! fd v with Some _ => s | None => with_open s (<[fd v := n]> (open_files s)) end);;
  mret (fd v).
Definition register_fd (n : nat) : M unit :=
  v ← get_node n; nf ← gets next_fd;
  (if fd v <? 0 then upd_node n (fun v => set_fd v nf) else mret tt);;
  k ← add_fd n; modify (fun s => with_next_fd s (k + 1)).

(** ** Pipes *)
Definition get_pipe (p : nat) : M pipe_ct := fun s => match pipe_cts s !! p with Some c => Done (s, inr c) | None => Undef end.
Definition set_pipe (p : nat) (c : pipe_ct) : M unit := modify (fun s => with_pipes s (pipes s) (<[p := c]> (pipe_cts s))).
Definition data_of (n : nat) (v : vnode) : contents := if is_pipe v then OfPipe (pipe_idx v) else OfFile n.
Definition node_on_open (n : nat) : M unit :=
  v ← get_node n;
  if is_pipe v then
    c ← get_pipe (pipe_idx v);
    set_pipe (pipe_idx v) (MkPipe (if m_in (current_mode v) then u64 (readers c + 1) else readers c) (if m_out (current_mode v) then u64 (writers c + 1) else writers c))
  else mret tt.
Definition node_on_close (n : nat) : M unit :=
  v ← get_node n;
  if is_pipe v then
    c ← get_pipe (pipe_idx v);
    set_pipe (pipe_idx v) (MkPipe (if m_in (current_mode v) then u64 (readers c - 1) else readers c) (if m_out (current_mode v) then u64 (writers c - 1) else writers c))
  else mret tt.
(** A node of [pipes], and the pipe with index [id], or a new one when there is none. *)
Definition attach_pipe (id : option nat) : M nat :=
  cs ← gets pipe_cts;
  match id with
  | Some i => if (i <? length cs)%nat then mret i else modify (fun s => with_pipes s (pipes s) (pipe_cts s ++ [MkPipe 0 0]));; mret (length cs)
  | None => modify (fun s => with_pipes s (pipes s) (pipe_cts s ++ [MkPipe 0 0]));; mret (length cs)
  end.
Definition fifo_mode : Z := Z.lor default_mode t_fifo.
Definition mknode_pipe (name : string) (n : Z) (id : option nat) : M nat :=
  p ← attach_pipe id;
  a ← new_node KPipe fifo_mode name n (match id with None => MkOm false false true false false | Some _ => MkOm false false false true false end) p;
  modify (fun s => with_pipes s (a :: pipes s) (pipe_cts s));; mret a.
Definition pipe_with_fd s (k : Z) : option nat :=
  List.find (fun a => match nodes s !! a with Some v => fd v =? k | None => false end) (pipes s).
(** [pipes.emplace]: the node of [pipes] with the descriptor, or a new one. *)
Definition emplace_pipe (name : string) (k : Z) (id : option nat) : M nat :=
  o ← gets (fun s => pipe_with_fd s k);
  match o with Some a => mret a | None => mknode_pipe name k id end.
Fixpoint free_fd (fuel : nat) (k : Z) : M Z :=
  (c ← contains k;
   if c : bool then match fuel with O => no_fuel | S f => free_fd f (k + 1) end else mret k) : M Z.
Definition unused_fd : M Z := n ← gets next_fd; c ← gets (fun s => size (open_files s)); free_fd c n.
(** Both ends of a pipe; the second one is tied to the pipe that [pid] finds for the first. *)
Definition mkpipe_ends (name : string) (pid : vnode -> nat) : M (nat * nat) :=
  k1 ← unused_fd; a ← emplace_pipe name k1 None; v ← get_node a;
  register_fd a;;
  k2 ← unused_fd; b ← emplace_pipe name k2 (Some (pid v));
  register_fd b;;
  mret (a, b).
Definition mkpipe : M (nat * nat) := mkpipe_ends "" pipe_idx.
(** With a name, the identifier is [real_id], which is zero for a pipe. *)
Definition mkpipe_named (name : string) : M (nat * nat) := mkpipe_ends name (fun _ => 0%nat).

(** ** Paths and files *)

(** The directory above the last piece of a path; with [create] missing ones are made. *)
Fixpoint walk (start : nat) (create : bool) (l : list string) : M nat :=
  match l with
  | [] => mret start
  | p :: rest =>
      if bool_decide (p = EmptyString) then walk start create rest else
      o ← find start p;
      match o with
      | None => if create then c ← mkdirnode p; _ ← add start c; walk c create rest else throw out_of_range
      | Some t =>
          x ← get_tnode t;
          match my_node x with
          | None => throw invalid_argument
          | Some n => v ← get_node n; if is_dir v then walk n create rest else throw invalid_argument
          end
      end
  end.
Definition get_parent (start : nat) (path : string) (create : bool) : M (nat * string) :=
  let pathspec := split path in
  d ← walk start create (removelast pathspec);
  mret (d, List.last pathspec EmptyString).
(** [on_open] of the file system: nothing for a node that is no file. *)
Definition on_open (t : nat) (m : openmode) : M (option nat) :=
  x ← get_tnode t;
  match my_node x with
  | None => mret None
  | Some n =>
      v ← get_node n;
      if is_dir v then mret None else
      node_on_open n;;
      (if m_app m || m_ate m then modify (fun s => with_data s (seek_end (fdata s) (data_of n v))) else mret tt);;
      mret (Some n)
  end.

(** The user of the calling task, if accounts are in use. *)
Context (user : option user_info).
Definition require_access (v : vnode) (m : openmode) : M unit :=
  match user with
  | None => mret tt
  | Some u => if check_permissions v u (mode_check m) then mret tt else throw permission_error
  end.
Definition find_node (path : string) (m : openmode) : M (option nat) :=
  catch (
    r ← gets root; '(d, last) ← get_parent r path false;
    o ← find d last;
    match o with
    | None => mret None
    | Some t =>
        n ← ref t; v ← get_node n;
        require_access v m;;
        c ← contains (fd v);
        (if c : bool then mret tt else register_fd n);;
        if is_file v then on_open t m else mret (Some n)
    end)
  (fun e => match e with out_of_range => Some (mret None) | _ => None end).
Definition open_file (path : string) (m : openmode) (create : bool) : M (option nat) :=
  r ← gets root; '(d, last) ← get_parent r path create;
  o ← find d last;
  t ← match o with
      | None => if create then c ← mkfilenode last; add d c else throw out_of_range
      | Some t => x ← get_tnode t;
                  match my_node x with
                  | None => mret t
                  | Some n => v ← get_node n; if is_dir v then throw logic_error else mret t
                  end
      end;
  res ← on_open t m;
  match res with
  | None => mret None
  | Some n =>
      v ← get_node n;
      require_access v m;;
      register_fd n;;
      (if is_pipe v then mret tt else upd_node n (fun v => set_current_mode v m));;
      mret (Some n)
  end.
Definition get_file (path : string) : M (option nat) :=
  r ← gets root; '(d, last) ← get_parent r path false;
  o ← find d last;
  match o with
  | None => throw runtime_error
  | Some t => f ← on_open t in_out; match f with Some n => register_fd n;; mret f | None => mret None end
  end.
Definition get_file_or_null (path : string) : M (option nat) :=
  catch (
    r ← gets root; '(d, last) ← get_parent r path false;
    o ← find d last;
    match o with
    | None => mret None
    | Some t => f ← on_open t in_out; match f with Some n => register_fd n;; mret f | None => mret None end
    end)
  (fun _ => Some (mret None)).
Definition open_directory (path : string) (create : bool) : M (option nat) :=
  r ← gets root;
  if bool_decide (path = EmptyString) || bool_decide (path = "/"%string) then mret (Some r) else
  '(d, last) ← get_parent r path create;
  o ← find d last;
  match o with
  | None =>
      if create then
        c ← mkdirnode last; t ← add d c; register_fd c;;
        x ← get_tnode t;
        match my_node x with Some n => v ← get_node n; mret (if is_dir v then Some n else None) | None => mret None end
      else throw out_of_range
  | Some t =>
      x ← get_tnode t;
      match my_node x with
      | None => undef
      | Some n => v ← get_node n; if is_file v then throw invalid_argument else register_fd n;; mret (Some n)
      end
  end.
Definition get_directory_or_null (path : string) (create : bool) : M (option nat) := catch (open_directory path create) (fun _ => Some (mret None)).
Definition close_file (n : nat) : M unit :=
  v ← get_node n;
  (if is_file v then
     modify (fun s => with_data s (seek_start (fdata s) (data_of n v)));;
     modify (fun s => with_next_fd (with_open s (delete (fd v) (open_files s))) (fd v));;
     node_on_close n
   else mret tt);;
  upd_node n (fun v => set_fd v (-1)).

(** ** Links *)
Definition rm_reference (n t : nat) : M unit :=
  v ← get_node n;
  if bool_decide (t ∈ refs v) then
    upd_node n (fun v => set_refs v (refs v ∖ {[t]}));;
    x ← get_tnode t; modify (fun s => with_tnodes s (<[t := MkTn None (my_name x)]> (tnodes s)))
  else mret tt.
Definition dlpipenode (n : nat) : M unit :=
  v ← get_node n;
  modify (fun s => with_open s (delete (fd v) (open_files s)));;
  modify (fun s => with_nodes (with_pipes s (List.filter (fun a => negb (Nat.eqb a n)) (pipes s)) (pipe_cts s)) (delete n (nodes s))).
(** [xunlink]; [all] removes the names of a directory one by one. *)
Fixpoint xunlink (fuel : nat) (parent : nat) (what : string) (ignore_nonexistent dir_recurse : bool) : M bool :=
  match fuel with
  | O => no_fuel
  | S f =>
      o ← find parent what;
      match o with
      | None => if ignore_nonexistent then mret false else throw logic_error
      | Some node =>
          x ← get_tnode node;
          match my_node x with
          | None => undef
          | Some n =>
              v ← get_node n;
              (if is_dir v && (size (refs v) <? 2)%nat then
                 if negb (bool_decide (directory_tnodes v = ∅)) && negb dir_recurse then throw logic_error else
                 if dir_recurse then (fix all (l : list string) : M unit := match l with [] => mret tt | nm :: rest => _ ← xunlink f n nm true true; all rest end) (lsdir v)
                 else mret tt
               else mret tt);;
              ok ← unlink_entry parent what;
              if negb ok then mret false else
              m ← ref node; rm_reference m node;;
              m' ← ref node; w ← get_node m';
              (if bool_decide (refs w = ∅) then
                 if is_dir w then dldirnode m' else if is_pipe w then dlpipenode m' else dlfilenode m'
               else mret tt);;
              mret true
          end
      end
  end.
Definition unlink (fuel : nat) (what : string) (ignore_nonexistent dir_recurse : bool) : M bool :=
  p ← (let m := r ← gets root; '(d, last) ← get_parent r what false; mret (Some (d, last)) in
       if ignore_nonexistent then catch m (fun _ => Some (mret None)) else m);
  match p with None => mret false | Some (d, last) => xunlink fuel d last ignore_nonexistent dir_recurse end.
Definition link (ogpath tgpath : string) (create_parents : bool) : M (option nat) :=
  r ← gets root; '(d1, n1) ← get_parent r ogpath false; '(d2, n2) ← get_parent r tgpath create_parents;
  o ← find d1 n1;
  match o with
  | None => throw runtime_error
  | Some t =>
      o2 ← find d2 n2;
      match o2 with
      | Some _ => throw logic_error
      | None => ok ← link_entry d2 t n2; if ok : bool then find d2 n2 else throw runtime_error
      end
  end.

(** ** New nodes *)
Definition sync_node (n : nat) : M bool :=
  v ← get_node n;
  match kind v with
  | KFile => s ← gets (fun s => s); let '(d, ok) := sync_data (fdata s) (OfFile n) in modify (fun s => with_data s d);; mret ok
  | _ => mret true
  end.
(** [create_node]; a character device needs a registered device, of which there is none here. *)
Definition create_node (from : option nat) (path : string) (m : Z) : M unit :=
  r ← gets root; '(d, last) ← get_parent (default r from) path false;
  o ← find d last;
  match o with
  | Some _ => throw domain_error
  | None =>
      if type_bits m =? t_fifo then
        '(a, b) ← mkpipe_named last; upd_node a (fun v => set_mode v m);; upd_node b (fun v => set_mode v m)
      else if type_bits m =? t_chardev then _ ← take_fd; throw invalid_argument
      else
        n ← (if type_bits m =? t_directory then mkdirnode last else mkfilenode last);
        upd_node n (fun v => set_mode v m);;
        _ ← sync_node n; mret tt
  end.

(** ** System calls *)
Definition EPERM : Z := 1.
Definition ENOENT : Z := 2.
Definition EIO : Z := 5.
Definition EBADF : Z := 9.
Definition ENOMEM : Z := 12.
Definition EACCES : Z := 13.
Definition EEXIST : Z := 17.
Definition ENOTDIR : Z := 20.
Definition EISDIR : Z := 21.
Definition ENOSPC : Z := 28.
Definition EMLINK : Z := 31.
Definition EPIPE : Z := 32.
Definition ENOLCK : Z := 46.
Definition ENAMETOOLONG : Z := 91.
Definition O_RDONLY : Z := 0.
Definition O_WRONLY : Z := 1.
Definition O_RDWR : Z := 2.
Definition O_APPEND : Z := 8.
Definition O_CREAT : Z := 0x200.
Definition O_TRUNC : Z := 0x400.
Definition has_flag (flags f : Z) : bool := negb (Z.land flags f =? 0).
Definition open_mode (flags : Z) : openmode :=
  MkOm (has_flag flags O_APPEND) false (has_flag flags O_RDONLY || has_flag flags O_RDWR) (has_flag flags O_WRONLY || has_flag flags O_RDWR) (has_flag flags O_TRUNC).
Definition truncate (n : nat) : M bool :=
  v ← get_node n;
  match kind v with
  | KDir =>
      modify (fun s => with_tnodes s (foldr delete (tnodes s) (map snd (map_to_list (directory_tnodes v)))));;
      upd_node n (fun v => set_dir v ∅);; mret true
  | _ => s ← gets (fun s => s); let '(d, ok) := clear_data (fdata s) (data_of n v) in modify (fun s => with_data s d);; mret ok
  end.
Definition errno_open (e : exn) : Z :=
  match e with
  | permission_error => EPERM | overflow_error => EMLINK | invalid_argument => ENOTDIR | out_of_range => ENOENT
  | domain_error => ENOLCK | runtime_error => ENOSPC | logic_error => ENOMEM
  end.
Definition errno_mknod (e : exn) : Z :=
  match e with
  | permission_error => EPERM | overflow_error => EMLINK | invalid_argument => ENOTDIR | domain_error => EEXIST
  | runtime_error => ENOSPC | out_of_range => ENOENT | logic_error => ENOMEM
  end.
Definition errno_mkdir (e : exn) : Z :=
  match e with
  | permission_error => EPERM | overflow_error => EMLINK | invalid_argument => ENOTDIR | out_of_range => ENOENT
  | runtime_error => ENOSPC | domain_error => ENOMEM | logic_error => ENOMEM
  end.
Definition syscall_open (name : string) (flags : Z) : M Z :=
  let m := open_mode flags in
  catch (
    existing ← find_node name m;
    match existing with
    | Some n =>
        v ← get_node n;
        (if is_file v then upd_node n (fun v => set_current_mode v m) else mret tt);;
        ok ← (if has_flag flags O_TRUNC then truncate n else mret true);
        if negb ok then mret (- EIO) else v ← get_node n; mret (fd v)
    | None =>
        if negb (has_flag flags O_CREAT) then mret (- ENOENT) else
        o ← open_file name m true;
        match o with Some n => v ← get_node n; mret (fd v) | None => mret (- EIO) end
    end)
  (fun e => Some (mret (- errno_open e))).

(** [stdio_ptrs] of the task. *)
Context (stdio : list (option nat)).
Definition get_by_fd (k : Z) : M (option nat) :=
  if k <? 3 then
    if k <? 0 then undef else match stdio !! Z.to_nat k with Some o => mret o | None => undef end
  else
    o ← find_fd k;
    match o with None => mret None | Some n => v ← get_node n; mret (if is_dir v then None else Some n) end.
Definition syscall_close (k : Z) : M Z :=
  catch (o ← get_by_fd k; match o with Some n => close_file n;; mret 0 | None => mret (- EBADF) end) (fun _ => Some (mret (- ENOMEM))).
Definition is_logic_error (e : exn) : bool := match e with logic_error | invalid_argument | out_of_range | domain_error => true | _ => false end.
(** [write] and [read] of a node: those of a pipe fail when there is nobody at the other end. *)
Definition node_write (n : nat) (l : list Z) : M unit :=
  v ← get_node n;
  (if is_pipe v then c ← get_pipe (pipe_idx v); if readers c =? 0 then throw logic_error else mret tt else mret tt);;
  modify (fun s => with_data s (sputn (fdata s) (data_of n v) l)).
Definition node_read (n : nat) (len : Z) : M Z :=
  v ← get_node n;
  (if is_pipe v then c ← get_pipe (pipe_idx v); if writers c =? 0 then throw logic_error else mret tt else mret tt);;
  s ← gets (fun s => s); let '(d, k) := sgetn (fdata s) (data_of n v) len in modify (fun s => with_data s d);; mret k.
Definition syscall_write (k : Z) (l : list Z) : M Z :=
  catch (
    o ← get_by_fd k;
    match o with
    | None => mret (- EBADF)
    | Some n =>
        v ← get_node n;
        if negb (m_out (current_mode v)) then mret (- EACCES) else
        node_write n l;; ok ← sync_node n; mret (if ok : bool then 0 else - EIO)
    end)
  (fun e => Some (mret (if is_logic_error e then - EPIPE else - ENOMEM))).
Definition syscall_read (k len : Z) : M Z :=
  catch (
    o ← get_by_fd k;
    match o with
    | None => mret (- EBADF)
    | Some n =>
        v ← get_node n;
        if negb (m_in (current_mode v)) then mret (- EACCES) else
        c ← node_read n len; mret (if negb (len =? 0) && (c =? 0) then - EIO else 0)
    end)
  (fun e => Some (mret (if is_logic_error e then - EPIPE else - ENOMEM))).
Definition syscall_link (old new : string) : M Z :=
  catch (o ← link old new true; mret (match o with Some _ => 0 | None => - ENOSPC end))
    (fun e => Some (mret (match e with permission_error => - EPERM | overflow_error => - EMLINK | _ => - ENOMEM end))).
Definition syscall_unlink (fuel : nat) (name : string) : M Z :=
  catch (b ← unlink fuel name true false; mret (if b : bool then 0 else - ENOENT))
    (fun e => Some (mret (match e with permission_error => - EPERM | overflow_error => - EMLINK | _ => - ENOMEM end))).
Definition syscall_fchmod (k m : Z) : M Z :=
  catch (o ← get_by_fd k; match o with Some n => upd_node n (fun v => set_mode v m);; _ ← sync_node n; mret 0 | None => mret (- EBADF) end)
    (fun e => Some (mret (match e with permission_error => - EPERM | _ => - ENOMEM end))).
Definition syscall_chmod (name : string) (m : Z) : M Z :=
  catch (o ← get_file name; match o with Some n => upd_node n (fun v => set_mode v m);; _ ← sync_node n; mret 0 | None => mret (- EISDIR) end)
    (fun e => Some (mret (match e with permission_error => - EPERM | overflow_error => - EMLINK | _ => - ENOENT end))).
Definition syscall_mkdir (path : string) (m : Z) : M Z :=
  if (255 <? String.length path)%nat then mret (- ENAMETOOLONG) else
  o ← get_directory_or_null path false;
  match o with
  | Some _ => mret (- EEXIST)
  | None => catch (create_node None path (Z.lor m t_directory);; mret 0) (fun e => Some (mret (- errno_mkdir e)))
  end.
Definition syscall_mknod (name : string) (m : Z) : M Z :=
  catch (create_node None name m;; mret 0) (fun e => Some (mret (- errno_mknod e))).
Definition syscall_pipe : M (Z * Z) :=
  '(a, b) ← mkpipe; v ← get_node a; w ← get_node b; mret (fd v, fd w).
End Fs.
End Vfs.
