(* ===== verification/VfsProps.v ===== *)
(** Properties of the file system layer: descriptors, paths, permissions, and what the
    system calls on files do on the RAM file system. *)
From S2P Require Import Prelude StateExn Vfs.
From Stdlib Require Import Ascii.
From stdpp Require Import strings.
Import Vfs.
Local Open Scope Z_scope.

Module VfsProps.

Section Fs.
Context {D : Type} `{!FileData D}.
Local Notation M := (SE (fs D) exn).
Implicit Types (s : fs D) (v : vnode).

Lemma land_bit (x k : Z) : 0 <= k -> (Z.land x (2 ^ k) =? 2 ^ k) = Z.testbit x k.
Proof.
  intros Hk. destruct (Z.testbit x k) eqn:E.
  - apply Z.eqb_eq. apply Z.bits_inj'. intros i Hi. rewrite Z.land_spec, Z.pow2_bits_eqb by done. destruct (Z.eqb_spec k i) as [->|]; [by rewrite E|by rewrite andb_false_r].
  - apply Z.eqb_neq. intros H. apply (f_equal (fun y => Z.testbit y k)) in H. rewrite Z.land_spec, Z.pow2_bits_true, E in H by done. done.
Qed.

(** ** Running an operation *)
Lemma run_node {B} n v (f : vnode -> M B) s : nodes s !! n = Some v -> (get_node n ≫= f) s = f v s.
Proof. intros E. apply run_bind. unfold get_node. by rewrite E. Qed.
Lemma run_tnode {B} t x (f : tnode -> M B) s : tnodes s !! t = Some x -> (get_tnode t ≫= f) s = f x s.
Proof. intros E. apply run_bind. unfold get_tnode. by rewrite E. Qed.
Lemma get_node_inv n v s s1 : get_node n s = Done (s1, inr v) -> s1 = s /\ nodes s !! n = Some v.
Proof. unfold get_node. destruct (nodes s !! n); intros; by simplify_eq. Qed.
Lemma get_tnode_inv t x s s1 : get_tnode t s = Done (s1, inr x) -> s1 = s /\ tnodes s !! t = Some x.
Proof. unfold get_tnode. destruct (tnodes s !! t); intros; by simplify_eq. Qed.
Lemma find_inv d p o s s1 : find d p s = Done (s1, inr o) -> s1 = s /\ exists v, nodes s !! d = Some v /\ o = directory_tnodes v !! p.
Proof. unfold find. intros (s' & v & (-> & Hv)%get_node_inv & H)%run_bind_inv. unfold mret, SE_ret in H. simplify_eq. by eauto. Qed.
Lemma upd_node_run n v g s : nodes s !! n = Some v -> upd_node n g s = Done (with_nodes s (<[n := g v]> (nodes s)), inr tt).
Proof. intros E. unfold upd_node. by rewrite (run_node n v). Qed.
Lemma run_upd {B} n v g (f : unit -> M B) s : nodes s !! n = Some v -> (upd_node n g ≫= f) s = f tt (with_nodes s (<[n := g v]> (nodes s))).
Proof. intros E. by rewrite (run_bind _ _ _ _ _ (upd_node_run n v g s E)). Qed.
(** ** Descriptors *)

(** Every open node is registered under its own descriptor. *)
Definition fds_ok s : Prop := forall k n, open_files s !! k = Some n -> exists v, nodes s !! n = Some v /\ fd v = k.

(** From [k] on, the first descriptor in the map [m] that is free or [n]'s own. *)
Lemma free_from (m : gmap Z nat) k : exists i : nat, (i <= size m)%nat /\ m !! (k + Z.of_nat i) = None /\ forall j : nat, (j < i)%nat -> is_Some (m !! (k + Z.of_nat j)).
Proof.
  remember (size m) as c eqn:Hc. revert m k Hc. induction c as [|c IH]; intros m k Hc.
  - exists 0%nat. symmetry in Hc. apply map_size_empty_inv in Hc. subst. split; [done|]. split; [apply lookup_empty|lia].
  - destruct (m !! k) as [n|] eqn:E; [|exists 0%nat; rewrite Z.add_0_r; split_and!; [lia|done|lia]].
    destruct (IH (delete k m) (k + 1)) as (i & Hi & Hn & Hj). { rewrite map_size_delete_Some by done. lia. }
    exists (S i). split; [lia|]. split.
    + rewrite lookup_delete_ne in Hn by lia. by replace (k + Z.of_nat (S i)) with (k + 1 + Z.of_nat i) by lia.
    + intros [|j] Hlt; [rewrite Z.add_0_r; by eexists|]. specialize (Hj j ltac:(lia)). rewrite lookup_delete_ne in Hj by lia.
      by replace (k + Z.of_nat (S j)) with (k + 1 + Z.of_nat j) by lia.
Qed.
Lemma free_fd_run s k (i f : nat) : (i <= f)%nat -> open_files s !! (k + Z.of_nat i) = None -> (forall j : nat, (j < i)%nat -> is_Some (open_files s !! (k + Z.of_nat j))) ->
  free_fd f k s = Done (s, inr (k + Z.of_nat i)).
Proof.
  revert k f. induction i as [|i IH]; intros k f Hf Hn Hj.
  - rewrite Z.add_0_r in *. destruct f; cbn [free_fd]; unfold contains; rewrite run_gets, Hn; done.
  - destruct f as [|f]; [lia|]. cbn [free_fd]. unfold contains. rewrite run_gets. pose proof (Hj 0%nat ltac:(lia)) as [n E]. rewrite Z.add_0_r in E. rewrite E.
    rewrite bool_decide_true by by eexists. replace (k + Z.of_nat (S i)) with (k + 1 + Z.of_nat i) in * by lia. apply IH; [lia|done|].
    intros j Hlt. specialize (Hj (S j) ltac:(lia)). by replace (k + Z.of_nat (S j)) with (k + 1 + Z.of_nat j) in Hj by lia.
Qed.
(** A descriptor that is not in use is found. *)
Lemma unused_fd_run s : exists k, next_fd s <= k /\ open_files s !! k = None /\ unused_fd s = Done (s, inr k).
Proof.
  destruct (free_from (open_files s) (next_fd s)) as (i & Hi & Hn & Hj). exists (next_fd s + Z.of_nat i). split; [lia|]. split; [done|].
  unfold unused_fd. rewrite !run_gets. by apply free_fd_run.
Qed.
Lemma with_nodes_id s : with_nodes s (nodes s) = s.
Proof. by destruct s. Qed.
Lemma bump_fd_run s n v (i f : nat) : nodes s !! n = Some v -> (i <= f)%nat -> (forall n', open_files s !! (fd v + Z.of_nat i) = Some n' -> n' = n) ->
  (forall j : nat, (j < i)%nat -> exists n', open_files s !! (fd v + Z.of_nat j) = Some n' /\ n' <> n) ->
  bump_fd f n s = Done (with_nodes s (<[n := set_fd v (fd v + Z.of_nat i)]> (nodes s)), inr tt).
Proof.
  revert s v f. induction i as [|i IH]; intros s v f Hv Hf Hn Hj.
  - rewrite Z.add_0_r in *. assert (with_nodes s (<[n:=set_fd v (fd v)]> (nodes s)) = s) as ->.
    { rewrite insert_id; [by rewrite with_nodes_id|]. rewrite Hv. by destruct v. }
    assert (match open_files s !! fd v with Some n' => negb (Nat.eqb n' n) | None => false end = false) as Hc.
    { destruct (open_files s !! fd v) as [n'|]; [|done]. rewrite (Hn n' eq_refl). by rewrite Nat.eqb_refl. }
    destruct f; cbn [bump_fd]; rewrite (run_node n v) by done; unfold find_fd; rewrite run_gets, Hc; done.
  - destruct f as [|f]; [lia|]. cbn [bump_fd]. rewrite (run_node n v) by done. unfold find_fd at 1. rewrite run_gets.
    destruct (Hj 0%nat ltac:(lia)) as (n' & E & Hne). rewrite Z.add_0_r in E. rewrite E. apply Nat.eqb_neq in Hne. rewrite Hne. cbn [negb].
    rewrite (run_upd n v) by done. set (v1 := set_fd v (fd v + 1)). rewrite (IH _ v1); cycle 1.
    { cbn [nodes with_nodes]. by rewrite lookup_insert_eq. } { lia. }
    { intros n''. cbn [open_files with_nodes fd set_fd v1]. replace (fd v + 1 + Z.of_nat i) with (fd v + Z.of_nat (S i)) by lia. apply Hn. }
    { intros j Hlt. cbn [open_files with_nodes fd set_fd v1]. replace (fd v + 1 + Z.of_nat j) with (fd v + Z.of_nat (S j)) by lia. apply Hj. lia. }
    cbn [nodes with_nodes]. rewrite insert_insert_eq. replace (set_fd v1 (fd v1 + Z.of_nat i)) with (set_fd v (fd v + Z.of_nat (S i))); [done|].
    unfold set_fd. cbn [v1 set_fd fd kind mode concrete_name current_mode directory_tnodes refs pipe_idx]. f_equal. lia.
Qed.

Definition own (n : nat) (o : option nat) : Prop := forall n', o = Some n' -> n' = n.
Lemma not_own n o : (exists n', o = Some n' /\ n' <> n) \/ own n o.
Proof. destruct o as [m|]; [destruct (decide (m = n)) as [->|]; [right; by intros ? [= ->]|left; by exists m]|by right]. Qed.
Lemma least_own (m : gmap Z nat) n (i : nat) : forall k, own n (m !! (k + Z.of_nat i)) ->
  exists i' : nat, (i' <= i)%nat /\ own n (m !! (k + Z.of_nat i')) /\ forall j : nat, (j < i')%nat -> exists n', m !! (k + Z.of_nat j) = Some n' /\ n' <> n.
Proof.
  induction i as [|i IH]; intros k H; [exists 0%nat; split_and!; [lia|done|lia]|].
  destruct (not_own n (m !! k)) as [Hno|Hyes]; [|exists 0%nat; rewrite Z.add_0_r; split_and!; [lia|done|lia]].
  destruct (IH (k + 1)) as (i' & Hi & Ho & Hj). { by replace (k + 1 + Z.of_nat i) with (k + Z.of_nat (S i)) by lia. }
  exists (S i'). replace (k + Z.of_nat (S i')) with (k + 1 + Z.of_nat i') by lia. split_and!; [lia|done|].
  intros [|j] Hlt; [by rewrite Z.add_0_r|]. replace (k + Z.of_nat (S j)) with (k + 1 + Z.of_nat j) by lia. apply Hj. lia.
Qed.
Definition wanted_fd s v : Z := if fd v <? 0 then next_fd s else fd v.
(** The state after [n] got the descriptor [k]. *)
Definition registered s (n : nat) v (k : Z) : fs D :=
  with_next_fd (with_open (with_nodes s (<[n := set_fd v k]> (nodes s))) (<[k := n]> (open_files s))) (k + 1).
Lemma register_fd_run s n v : nodes s !! n = Some v ->
  exists k, register_fd n s = Done (registered s n v k, inr tt) /\ wanted_fd s v <= k /\ own n (open_files s !! k) /\ (own n (open_files s !! wanted_fd s v) -> k = wanted_fd s v).
Proof.
  intros Hv. set (v0 := set_fd v (wanted_fd s v)). set (s0 := with_nodes s (<[n := v0]> (nodes s))).
  assert (Hv0 : nodes s0 !! n = Some v0) by (cbn; by rewrite lookup_insert_eq).
  destruct (free_from (open_files s) (wanted_fd s v)) as (i & Hi & Hn & _).
  destruct (least_own (open_files s) n i (wanted_fd s v)) as (i' & Hi' & Ho & Hj). { by rewrite Hn. }
  exists (wanted_fd s v + Z.of_nat i'). split_and!; [|lia|done|]; cycle 1.
  { intros H. destruct i' as [|i']; [lia|]. destruct (Hj 0%nat ltac:(lia)) as (n' & E & Hne). rewrite Z.add_0_r in E. by destruct Hne; apply H. }
  unfold register_fd. rewrite (run_node n v), run_gets by done.
  assert (forall B (f : unit -> M B), ((if fd v <? 0 then upd_node n (fun v => set_fd v (next_fd s)) else mret tt) ≫= f) s = f tt s0) as ->.
  { intros B f. unfold s0, v0, wanted_fd. destruct (fd v <? 0); [by rewrite (run_upd n v) by done|]. rewrite run_ret. f_equal.
    rewrite insert_id; [by rewrite with_nodes_id|]. rewrite Hv. by destruct v. }
  unfold add_fd. rewrite run_assoc, run_gets, run_assoc.
  rewrite (run_bind _ _ _ _ _ (bump_fd_run s0 n v0 i' (size (open_files s)) Hv0 ltac:(lia) Ho Hj)). cbn [fd set_fd v0].
  set (k := wanted_fd s v + Z.of_nat i') in *. set (s1 := with_nodes s0 _).
  rewrite run_assoc, (run_node n (set_fd v0 k)) by (cbn; by rewrite lookup_insert_eq). rewrite run_assoc, run_modify, run_ret. cbn [fd set_fd].
  unfold modify, registered. do 2 f_equal. change (open_files s1) with (open_files s).
  assert (nodes s1 = <[n := set_fd v k]> (nodes s)) as Hs1. { unfold s1, s0. cbn [nodes with_nodes]. by rewrite insert_insert_eq. }
  destruct (open_files s !! k) as [n'|] eqn:E.
  - rewrite (Ho n' eq_refl) in *. unfold with_next_fd, with_open, with_nodes. cbn. rewrite (insert_id (open_files s)) by done. by rewrite insert_insert_eq.
  - unfold with_next_fd, with_open, with_nodes. cbn. by rewrite insert_insert_eq.
Qed.

(** ** An existing file *)

(** The path leads to the entry [last] of the directory [d], the entry [t] to the node [n]. *)
Record leads_to s (path : string) (d : nat) (last : string) (t n : nat) v : Prop := {
  lt_parent : get_parent (root s) path false s = Done (s, inr (d, last));
  lt_entry : exists dv, nodes s !! d = Some dv /\ directory_tnodes dv !! last = Some t;
  lt_tnode : exists nm, tnodes s !! t = Some (MkTn (Some n) nm);
  lt_node : nodes s !! n = Some v }.
Lemma find_run s path d last t n v : leads_to s path d last t n v -> find d last s = Done (s, inr (Some t)).
Proof. intros [_ (dv & Hd & He) _ _]. unfold find. rewrite (run_node d dv) by done. by rewrite He. Qed.
Lemma ref_run s t n nm : tnodes s !! t = Some (MkTn (Some n) nm) -> ref t s = Done (s, inr n).
Proof. intros H. unfold ref. by rewrite (run_tnode t _ _ _ H). Qed.
Lemma on_open_run s t n nm v m : tnodes s !! t = Some (MkTn (Some n) nm) -> nodes s !! n = Some v -> kind v = KFile -> m_app m = false -> m_ate m = false ->
  on_open t m s = Done (s, inr (Some n)).
Proof.
  intros Ht Hv Hk Ha He. unfold on_open. rewrite (run_tnode t _ _ _ Ht). cbn [my_node]. rewrite (run_node n v) by done. unfold is_dir. rewrite Hk.
  assert (node_on_open n s = Done (s, inr tt)) as E. { unfold node_on_open. rewrite (run_node n v) by done. unfold is_pipe. by rewrite Hk. }
  rewrite (run_bind _ _ _ _ _ E), Ha, He. done.
Qed.

(** Descriptors of the standard streams are not given to nodes, and the descriptor of [n] is not
    that of another open node. *)
Record usable s (n : nat) v : Prop := {
  us_own : own n (open_files s !! fd v);
  us_next : 3 <= next_fd s;
  us_open : forall k n', open_files s !! k = Some n' -> 3 <= k;
  us_fd : fd v < 0 \/ 3 <= fd v }.
Lemma find_node_run s user path d last t n v m :
  leads_to s path d last t n v -> kind v = KFile -> usable s n v -> m_app m = false -> m_ate m = false ->
  require_access user v m s = Done (s, inr tt) ->
  exists s1 k, find_node user path m s = Done (s1, inr (Some n)) /\ open_files s1 !! k = Some n /\ nodes s1 !! n = Some (set_fd v k) /\ 3 <= k.
Proof.
  intros L Hk U Ha He Hr. pose proof L as [Hp _ (nm & Ht) Hv]. assert (is_file v = true) as Hf by (unfold is_file, is_dir; by rewrite Hk).
  enough (exists s1 k, (c ← contains (fd v); (if c : bool then mret tt else register_fd n);; if is_file v then on_open t m else mret (Some n)) s = Done (s1, inr (Some n)) /\
    open_files s1 !! k = Some n /\ nodes s1 !! n = Some (set_fd v k) /\ 3 <= k) as (s1 & k & E & H).
  { exists s1, k. split; [|done]. unfold find_node, catch. rewrite run_gets, (run_bind _ _ _ _ _ Hp), (run_bind _ _ _ _ _ (find_run _ _ _ _ _ _ _ L)).
    rewrite (run_bind _ _ _ _ _ (ref_run _ _ _ _ Ht)), (run_node n v), (run_bind _ _ _ _ _ Hr) by done. by rewrite E. }
  unfold contains. rewrite run_gets, Hf. case_bool_decide as Hc.
  - destruct Hc as [n' E]. rewrite (us_own _ _ _ U n' E) in E. exists s, (fd v). rewrite run_ret. rewrite (on_open_run s t n nm v) by done. split_and!; [done|done|by destruct v|].
    by apply (us_open _ _ _ U) in E.
  - destruct (register_fd_run s n v Hv) as (k & E & Hw & _ & _). rewrite (run_bind _ _ _ _ _ E). exists (registered s n v k), k.
    rewrite (on_open_run _ t n nm (set_fd v k)) by (cbn; by rewrite ?lookup_insert_eq). split_and!; [done|cbn; by rewrite lookup_insert_eq..|].
    pose proof (us_fd _ _ _ U). pose proof (us_next _ _ _ U). unfold wanted_fd in Hw. destruct (Z.ltb_spec (fd v) 0); lia.
Qed.

Lemma get_by_fd_run s stdio k n v : 3 <= k -> open_files s !! k = Some n -> nodes s !! n = Some v -> is_dir v = false -> get_by_fd stdio k s = Done (s, inr (Some n)).
Proof. intros Hk Ho Hv Hd. unfold get_by_fd. destruct (Z.ltb_spec k 3); [lia|]. unfold find_fd. rewrite run_gets, Ho, (run_node n v) by done. by rewrite Hd. Qed.
(** Opening an existing file without truncating it. *)
Lemma syscall_open_run s user path d last t n v flags :
  leads_to s path d last t n v -> kind v = KFile -> usable s n v -> has_flag flags O_APPEND = false -> has_flag flags O_TRUNC = false ->
  require_access user v (open_mode flags) s = Done (s, inr tt) ->
  exists s1 k v1, syscall_open user path flags s = Done (s1, inr k) /\ 3 <= k /\ open_files s1 !! k = Some n /\ nodes s1 !! n = Some v1 /\ kind v1 = KFile /\ current_mode v1 = open_mode flags.
Proof.
  intros L Hk U Ha Ht Hr. destruct (find_node_run s user path d last t n v (open_mode flags) L Hk U Ha eq_refl Hr) as (s1 & k & E & Ho & Hv & H3).
  exists (with_nodes s1 (<[n := set_current_mode (set_fd v k) (open_mode flags)]> (nodes s1))), k, (set_current_mode (set_fd v k) (open_mode flags)).
  split_and!; try done; [|cbn; by rewrite lookup_insert_eq].
  unfold syscall_open, catch. rewrite (run_bind _ _ _ _ _ E), (run_node n (set_fd v k)) by done.
  assert (is_file (set_fd v k) = true) as -> by (unfold is_file, is_dir; cbn; by rewrite Hk). rewrite (run_upd n (set_fd v k)) by done.
  rewrite Ht, run_ret. cbn [negb]. rewrite (run_node n (set_current_mode (set_fd v k) (open_mode flags))) by (cbn; by rewrite lookup_insert_eq). done.
Qed.

(** A file opened read-only cannot be read: O_RDONLY is zero, so testing its bit never sets the mode to read; the
    call itself succeeds whatever the permissions, and every read from the
    descriptor it returns fails with EACCES. *)
Theorem readonly_open_cannot_read s user stdio path d last t n v :
  leads_to s path d last t n v -> kind v = KFile -> usable s n v ->
  exists s1 k, syscall_open user path O_RDONLY s = Done (s1, inr k) /\ 3 <= k /\ open_files s1 !! k = Some n /\
    forall len, syscall_read stdio k len s1 = Done (s1, inr (- EACCES)).
Proof.
  intros L Hk U. destruct (syscall_open_run s user path d last t n v O_RDONLY L Hk U) as (s1 & k & v1 & E & H3 & Ho & Hv & Hk1 & Hc); [done|done|by destruct user|].
  exists s1, k. split_and!; [done..|]. intros len. unfold syscall_read, catch. rewrite (run_bind _ _ _ _ _ (get_by_fd_run s1 stdio k n v1 H3 Ho Hv ltac:(unfold is_dir; by rewrite Hk1))).
  rewrite (run_node n v1) by done. by rewrite Hc.
Qed.

(** Opening a file for writing tests its read permission: the bits that are asked for have read and write the other way
    round from a file's mode, so that for a user with no special rights the call succeeds when others may read the file
    and fails with EPERM when they may not, whether or not they may write it. *)
Theorem write_open_tests_read_bit s u path d last t n v :
  leads_to s path d last t n v -> kind v = KFile -> usable s n v ->
  Z.land (system_permissions u) 0xF0000 = 0 -> uid u <> uid_undef -> gid u <> uid_undef ->
  if Z.testbit (mode v) 2 then exists s1 k, syscall_open (Some u) path O_WRONLY s = Done (s1, inr k) /\ 3 <= k /\ open_files s1 !! k = Some n
  else syscall_open (Some u) path O_WRONLY s = Done (s, inr (- EPERM)).
Proof.
  intros L Hk U Hp Hu Hg.
  assert (check_permissions v u CHK_WRITE = Z.testbit (mode v) 2) as Hc.
  { unfold check_permissions, get_user_permission_overrides, get_fs_permissions, is_dir. rewrite Hk, Hp. change (CHK_WRITE =? CHK_NONE) with false. cbn [Z.land].
    destruct (Z.eqb_spec uid_undef (uid u)); [congruence|]. destruct (Z.eqb_spec uid_undef (gid u)); [congruence|].
    change (Z.land (u8 (Z.shiftr 0 16)) 7) with 0. rewrite Z.lor_0_r. unfold permission_bits, OTHERS. rewrite Z.shiftr_0_r, <- Z.land_assoc. change (Z.land 7 CHK_WRITE) with (2 ^ 2).
    by apply land_bit. }
  destruct (Z.testbit (mode v) 2).
  - destruct (syscall_open_run s (Some u) path d last t n v O_WRONLY L Hk U) as (s1 & k & v1 & E & H3 & Ho & _); [done|done| |by exists s1, k].
    unfold require_access. change (mode_check (open_mode O_WRONLY)) with CHK_WRITE. by rewrite Hc.
  - pose proof L as [Hpar _ (nm & Ht) Hv]. assert (find_node (Some u) path (open_mode O_WRONLY) s = Done (s, inl permission_error)) as E.
    { unfold find_node. rewrite (run_catch _ _ s s (inl permission_error)); [done|]. rewrite run_gets, (run_bind _ _ _ _ _ Hpar), (run_bind _ _ _ _ _ (find_run _ _ _ _ _ _ _ L)).
      rewrite (run_bind _ _ _ _ _ (ref_run _ _ _ _ Ht)), (run_node n v) by done. apply run_exn.
      unfold require_access. change (mode_check (open_mode O_WRONLY)) with CHK_WRITE. by rewrite Hc. }
    unfold syscall_open. by rewrite (run_catch _ _ _ _ _ (run_exn _ _ _ _ _ E)).
Qed.

Lemma unlink_entry_run s d dv last t : nodes s !! d = Some dv -> directory_tnodes dv !! last = Some t ->
  exists s1, unlink_entry d last s = Done (s1, inr true) /\ tnodes s1 = delete t (tnodes s).
Proof. intros Hd He. unfold unlink_entry. rewrite (run_node d dv), He, (run_upd d dv) by done. unfold free_tnode. rewrite run_modify. by eexists. Qed.

(** Removing a file uses its directory entry after it has been freed: on the RAM file system, unlinking any existing file
    reads the entry that the directory has just erased. *)
Theorem unlink_uses_freed_entry s path d last t n v fuel :
  leads_to s path d last t n v -> kind v = KFile -> syscall_unlink (S fuel) path s = Undef.
Proof.
  intros L Hk. pose proof L as [Hp (dv & Hd & He) (nm & Ht) Hv]. unfold syscall_unlink. apply catch_undef, run_undef. unfold unlink.
  assert (catch (r ← gets root; '(d, last) ← get_parent r path false; mret (Some (d, last))) (fun _ => Some (mret None)) s = Done (s, inr (Some (d, last)))) as E.
  { rewrite (run_catch _ _ s s (inr (Some (d, last)))); [done|]. by rewrite run_gets, (run_bind _ _ _ _ _ Hp). }
  rewrite (run_bind _ _ _ _ _ E). cbn [xunlink]. rewrite (run_bind _ _ _ _ _ (find_run _ _ _ _ _ _ _ L)), (run_tnode t _ _ _ Ht). cbn [my_node].
  rewrite (run_node n v) by done. unfold is_dir. rewrite Hk. cbn [andb]. rewrite run_ret.
  destruct (unlink_entry_run s d dv last t Hd He) as (s1 & E1 & Hs1). rewrite (run_bind _ _ _ _ _ E1). cbn [negb].
  apply run_undef. unfold ref. apply run_undef. unfold get_tnode. by rewrite Hs1, lookup_delete_eq.
Qed.

(** ** Directories that are made *)

(** Nodes and entries stay, and so do the names of a directory. *)
Record extends s s1 : Prop := {
  ext_nodes : forall n v, nodes s !! n = Some v -> exists v1, nodes s1 !! n = Some v1 /\ kind v1 = kind v /\ directory_tnodes v ⊆ directory_tnodes v1;
  ext_tnodes : tnodes s ⊆ tnodes s1 }.
#[local] Instance extends_preorder : PreOrder extends.
Proof.
  split.
  - intros s. split; [|done]. intros n v Hv. by exists v.
  - intros s1 s2 s3 [N1 T1] [N2 T2]. split; [|by etrans]. intros n v Hv. destruct (N1 _ _ Hv) as (v1 & H1 & K1 & D1). destruct (N2 _ _ H1) as (v2 & H2 & K2 & D2).
    exists v2. split_and!; [done|congruence|by etrans].
Qed.
Definition addrs_ok s : Prop := (forall n, is_Some (nodes s !! n) -> (n < fresh_addr s)%nat) /\ (forall t, is_Some (tnodes s !! t) -> (t < fresh_addr s)%nat).

Lemma is_dir_kind v v1 : kind v1 = kind v -> is_dir v1 = is_dir v.
Proof. intros H. unfold is_dir. by rewrite H. Qed.
(** A path that exists is still there in a larger file system. *)
Lemma walk_extends l : forall r d s s1, walk r false l s = Done (s, inr d) -> extends s s1 -> walk r false l s1 = Done (s1, inr d).
Proof.
  induction l as [|p l IH]; intros r d s s1 H X; [cbn [walk] in *; unfold mret, SE_ret in *; by simplify_eq|]. cbn [walk] in *. destruct (bool_decide (p = EmptyString)); [by eapply IH|].
  apply run_bind_inv in H as (s' & o & (-> & v & Er & ->)%find_inv & H). destruct (ext_nodes _ _ X _ _ Er) as (rv1 & Er1 & _ & Hd).
  destruct (directory_tnodes v !! p) as [t|] eqn:Ep; [|done]. apply run_bind_inv in H as (s2 & x & (-> & Et)%get_tnode_inv & H).
  unfold find. rewrite run_assoc, (run_node r rv1) by done. rewrite run_ret, (lookup_weaken _ _ _ _ Ep Hd). rewrite (run_tnode t x) by by eapply lookup_weaken, ext_tnodes.
  destruct (my_node x) as [n|]; [|done]. apply run_bind_inv in H as (s3 & nv & (-> & En)%get_node_inv & H).
  destruct (ext_nodes _ _ X _ _ En) as (nv1 & En1 & Hk & _). rewrite (run_node n nv1) by done. rewrite (is_dir_kind _ _ Hk). destruct (is_dir nv); [|done]. by eapply IH.
Qed.

(** A new node, not yet in a directory. *)
Definition with_new s (v : vnode) : fs D := with_fresh (with_nodes (with_next_fd s (next_fd s + 1)) (<[fresh_addr s := v]> (nodes s))) (S (fresh_addr s)).
Definition new_dir s (p : string) : vnode := MkVn KDir default_mode (next_fd s) p in_out ∅ ∅ 0.
Lemma mkdirnode_run s p : mkdirnode p s = Done (with_new s (new_dir s p), inr (fresh_addr s)).
Proof. done. Qed.
Lemma not_present s : addrs_ok s -> nodes s !! fresh_addr s = None.
Proof. intros [Hn _]. destruct (nodes s !! fresh_addr s) eqn:E; [|done]. specialize (Hn (fresh_addr s) ltac:(by eexists)). lia. Qed.
Lemma tnode_not_present s : addrs_ok s -> tnodes s !! fresh_addr s = None.
Proof. intros [_ Hn]. destruct (tnodes s !! fresh_addr s) eqn:E; [|done]. specialize (Hn (fresh_addr s) ltac:(by eexists)). lia. Qed.
Lemma with_new_ok s v : addrs_ok s -> addrs_ok (with_new s v) /\ extends s (with_new s v).
Proof.
  intros H. pose proof (not_present s H) as Hnp. destruct H as [Hn Ht]. split; split.
  - intros n. cbn. destruct (decide (n = fresh_addr s)) as [->|]; [lia|]. rewrite lookup_insert_ne by done. intros Hs%Hn. lia.
  - intros t Hs%Ht. cbn. lia.
  - intros n w Hw. exists w. cbn. rewrite lookup_insert_ne; [done|]. intros <-. congruence.
  - done.
Qed.
(** Entering a node into a directory that does not have its name. *)
Lemma add_run s d dv n v : addrs_ok s -> nodes s !! d = Some dv -> nodes s !! n = Some v -> d <> n -> directory_tnodes dv !! concrete_name v = None ->
  exists s1 t, add d n s = Done (s1, inr t) /\ addrs_ok s1 /\ extends s s1 /\ tnodes s1 !! t = Some (MkTn (Some n) (concrete_name v)) /\
    (exists dv1, nodes s1 !! d = Some dv1 /\ directory_tnodes dv1 !! concrete_name v = Some t) /\ root s1 = root s /\ open_files s1 = open_files s.
Proof.
  intros Hok Hd Hn Hne He. pose proof (tnode_not_present s Hok) as Htp. set (t := fresh_addr s). set (v1 := set_refs v ({[t]} ∪ refs v)).
  set (dv1 := set_dir dv (<[concrete_name v := t]> (directory_tnodes dv))).
  exists (with_nodes (with_tnodes (with_fresh s (S t)) (<[t := MkTn (Some n) (concrete_name v)]> (tnodes s))) (<[d := dv1]> (<[n := v1]> (nodes s)))), t. split; [|split; [|split]].
  - unfold add. rewrite (run_node n v) by done. unfold new_tnode, new_addr. rewrite run_assoc. erewrite run_bind by done. rewrite run_assoc, run_modify, run_assoc.
    rewrite (run_upd n v) by done. rewrite run_ret. unfold enter. rewrite run_assoc, (run_node d dv) by (cbn; by rewrite lookup_insert_ne). rewrite He, run_assoc.
    rewrite (run_upd d dv) by (cbn; by rewrite lookup_insert_ne). done.
  - destruct Hok as [Hon Hot]. split; cbn.
    + intros m. destruct (decide (m = d)) as [->|]; [|rewrite lookup_insert_ne by done; destruct (decide (m = n)) as [->|]; [|rewrite lookup_insert_ne by done]].
      * intros _. assert (d < t)%nat by (apply Hon; by eexists). lia.
      * intros _. assert (n < t)%nat by (apply Hon; by eexists). lia.
      * intros Hs%Hon. fold t in Hs. lia.
    + intros m. destruct (decide (m = t)) as [->|]; [lia|]. rewrite lookup_insert_ne by done. intros Hs%Hot. fold t in Hs. lia.
  - split; cbn; [|by apply insert_subseteq]. intros m w Hw. destruct (decide (m = d)) as [->|].
    + rewrite lookup_insert_eq. simplify_eq. exists dv1. split_and!; [done|done|]. cbn. by apply insert_subseteq.
    + rewrite lookup_insert_ne by done. destruct (decide (m = n)) as [->|]; [rewrite lookup_insert_eq; simplify_eq; by exists v1|rewrite lookup_insert_ne by done; by exists w].
  - cbn. rewrite lookup_insert_eq. split_and!; [done| |done|done]. exists dv1. rewrite lookup_insert_eq. split; [done|]. cbn. by rewrite lookup_insert_eq.
Qed.
Lemma walk_create l : forall r d s s1, addrs_ok s -> walk r true l s = Done (s1, inr d) -> addrs_ok s1 /\ extends s s1 /\ walk r false l s1 = Done (s1, inr d).
Proof.
  induction l as [|p l IH]; intros r d s s1 Hok H; cbn [walk] in *; [unfold mret, SE_ret in *; by simplify_eq|]. destruct (bool_decide (p = EmptyString)); [by apply IH|].
  apply run_bind_inv in H as (s' & o & (-> & v & Er & ->)%find_inv & H). destruct (directory_tnodes v !! p) as [t|] eqn:Ep.
  - apply run_bind_inv in H as (s2 & x & (-> & Et)%get_tnode_inv & H).
    destruct (my_node x) as [n|] eqn:Ex; [|done]. apply run_bind_inv in H as (s3 & nv & (-> & En)%get_node_inv & H).
    destruct (is_dir nv) eqn:Edir; [|done]. apply IH in H as (Hok1 & X & H); [|done]. split_and!; [done..|].
    destruct (ext_nodes _ _ X _ _ Er) as (rv1 & Er1 & _ & Hd). destruct (ext_nodes _ _ X _ _ En) as (nv1 & En1 & Hk & _).
    unfold find. rewrite run_assoc, (run_node r rv1), run_ret, (lookup_weaken _ _ _ _ Ep Hd) by done. rewrite (run_tnode t x) by by eapply lookup_weaken, ext_tnodes.
    rewrite Ex, (run_node n nv1), (is_dir_kind _ _ Hk), Edir by done. done.
  - rewrite (run_bind _ _ _ _ _ (mkdirnode_run s p)) in H. set (s2 := with_new s (new_dir s p)) in H. destruct (with_new_ok s (new_dir s p) Hok) as [Hok2 X2].
    assert (r <> fresh_addr s) as Hne by (intros ->; rewrite not_present in Er; done).
    destruct (add_run s2 r v (fresh_addr s) (new_dir s p)) as (s3 & t & E & Hok3 & X3 & Ht & (v1 & Hv1 & Hp) & _); [done|cbn; by rewrite lookup_insert_ne|cbn; by rewrite lookup_insert_eq|done|done|].
    rewrite (run_bind _ _ _ _ _ E) in H. apply IH in H as (Hok1 & X & H); [|done]. assert (extends s s1) as X1 by (by etrans; [|etrans]). split_and!; [done..|].
    destruct (ext_nodes _ _ X _ _ Hv1) as (v2 & Hv2 & _ & Hd2). cbn in Hp.
    unfold find. rewrite run_assoc, (run_node r v2), run_ret, (lookup_weaken _ _ _ _ Hp Hd2) by done. rewrite (run_tnode t (MkTn (Some (fresh_addr s)) p)) by by eapply lookup_weaken, ext_tnodes.
    cbn [my_node]. destruct (ext_nodes _ _ X3 (fresh_addr s) (new_dir s p)) as (w & Hw & Hk & _); [cbn; by rewrite lookup_insert_eq|]. destruct (ext_nodes _ _ X _ _ Hw) as (w1 & Hw1 & Hk1 & _).
    rewrite (run_node (fresh_addr s) w1) by done. assert (is_dir w1 = true) as -> by (unfold is_dir; by rewrite Hk1, Hk). done.
Qed.

(** C24: Directories that a path was given are there afterwards: when the parent of a path is looked up with missing directories being made, looking it up again
    in the resulting file system without making any finds the same directory, and no name that
    was there before is lost. *)
Theorem created_path_resolves s r path s1 d last :
  addrs_ok s -> get_parent r path true s = Done (s1, inr (d, last)) ->
  get_parent r path false s1 = Done (s1, inr (d, last)) /\ extends s s1.
Proof.
  unfold get_parent. intros Hok (s2 & d' & H & Hr)%run_bind_inv. unfold mret, SE_ret in Hr. simplify_eq. apply walk_create in H as (_ & X & H); [|done].
  by rewrite (run_bind _ _ _ _ _ H).
Qed.

(** A directory made by mkdir has no name: on the RAM file system the call succeeds, but the new node is not entered into its
    parent, and the path still leads to nothing afterwards. *)
Theorem mkdir_leaves_no_name s path m d dv last :
  addrs_ok s -> get_parent (root s) path false s = Done (s, inr (d, last)) -> nodes s !! d = Some dv -> directory_tnodes dv !! last = None ->
  path <> EmptyString -> path <> "/"%string -> (String.length path <= 255)%nat -> Z.land m 0xF000 = 0 ->
  exists s1, syscall_mkdir path m s = Done (s1, inr 0) /\ forall user om, find_node user path om s1 = Done (s1, inr None).
Proof.
  intros Hok Hp Hd He Hne1 Hne2 Hlen Hm. set (n := fresh_addr s). set (s0 := with_new s (new_dir s last)). set (v := set_mode (new_dir s last) (Z.lor m t_directory)).
  destruct (with_new_ok s (new_dir s last) Hok) as [_ X0]. assert (Hnd : d <> n) by (intros ->; unfold n in Hd; rewrite not_present in Hd; done).
  assert (Hn0 : nodes s0 !! n = Some (new_dir s last)) by (cbn; by rewrite lookup_insert_eq).
  exists (with_nodes s0 (<[n := v]> (nodes s0))). assert (Hfind : forall s', nodes s' !! d = Some dv -> find d last s' = Done (s', inr None)).
  { intros s' H. unfold find. rewrite (run_node d dv) by done. by rewrite He. } split.
  - unfold syscall_mkdir. destruct (Nat.ltb_spec 255 (String.length path)); [lia|].
    assert (get_directory_or_null path false s = Done (s, inr None)) as E.
    { unfold get_directory_or_null. rewrite (run_catch _ _ s s (inl out_of_range)); [done|]. unfold open_directory. rewrite run_gets, !bool_decide_false by done. cbn [orb].
      by rewrite (run_bind _ _ _ _ _ Hp), (run_bind _ _ _ _ _ (Hfind s Hd)). }
    rewrite (run_bind _ _ _ _ _ E). eapply (run_catch _ _ _ _ (inr 0)). unfold create_node. rewrite run_assoc, run_gets. cbn [default].
    rewrite run_assoc, (run_bind _ _ _ _ _ Hp), run_assoc, (run_bind _ _ _ _ _ (Hfind s Hd)). unfold type_bits. rewrite Z.land_lor_distr_l, Hm.
    change (Z.lor 0 (Z.land t_directory 0xF000)) with t_directory. change (t_directory =? t_fifo) with false. change (t_directory =? t_chardev) with false. rewrite Z.eqb_refl.
    rewrite run_assoc, (run_bind _ _ _ _ _ (mkdirnode_run s last)). fold s0 n. rewrite run_assoc, (run_upd n (new_dir s last)) by done.
    unfold sync_node. rewrite !run_assoc, (run_node n v) by (cbn; by rewrite lookup_insert_eq). done.
  - set (s1 := with_nodes _ _). assert (extends s s1) as X.
    { etrans; [exact X0|]. split; [|done]. intros k w Hw. cbn. destruct (decide (k = n)) as [->|]; [|rewrite lookup_insert_ne by done; by exists w].
      rewrite lookup_insert_eq. assert (w = new_dir s last) as -> by (unfold s0 in Hn0; congruence). by exists v. }
    intros user om. unfold find_node. rewrite (run_catch _ _ s1 s1 (inr None)); [done|]. rewrite run_gets. change (root s1) with (root s).
    unfold get_parent in Hp |- *. apply run_bind_inv in Hp as (s' & d' & Hw & Hr). unfold mret, SE_ret in Hr. simplify_eq.
    rewrite run_assoc, (run_bind _ _ _ _ _ (walk_extends _ _ _ _ _ Hw X)), run_ret. rewrite (run_bind _ _ s1 s1 None); [done|]. apply Hfind. cbn. by rewrite !lookup_insert_ne.
Qed.

(** ** Pipes *)
Record pipes_ok s : Prop := {
  pk_addrs : addrs_ok s;
  pk_next : 3 <= next_fd s;
  pk_nodes : forall a, a ∈ pipes s -> exists v, nodes s !! a = Some v /\ (fd v < 0 \/ open_files s !! fd v = Some a) }.
Lemma no_pipe_with s k : pipes_ok s -> 3 <= k -> open_files s !! k = None -> pipe_with_fd s k = None.
Proof.
  intros Hok Hk Ho. unfold pipe_with_fd. destruct (List.find _ _) as [a|] eqn:E; [|done]. apply find_some in E as [Ha E].
  apply list_elem_of_In in Ha. destruct (pk_nodes _ Hok a Ha) as (v & Hv & Hf). rewrite Hv in E. apply Z.eqb_eq in E. subst k. destruct Hf; [lia|congruence].
Qed.

Definition end_mode (id : option nat) : openmode := match id with None => MkOm false false true false false | Some _ => MkOm false false false true false end.
Definition pipe_node (name : string) (k : Z) (id : option nat) (p : nat) : vnode := MkVn KPipe fifo_mode k name (end_mode id) ∅ ∅ p.
(** The state with a new end of the pipe [p]. *)
Definition with_end s (v : vnode) (cts : list pipe_ct) : fs D :=
  with_pipes (with_fresh (with_nodes s (<[fresh_addr s := v]> (nodes s))) (S (fresh_addr s))) (fresh_addr s :: pipes s) cts.
Definition opened s (name : string) (k : Z) (id : option nat) (p : nat) (cts : list pipe_ct) : fs D :=
  registered (with_end s (pipe_node name k id p) cts) (fresh_addr s) (pipe_node name k id p) k.

(** One end of a pipe: it gets a node and the descriptor that was chosen for it. *)
Definition end_pipe s (id : option nat) : nat := default (length (pipe_cts s)) id.
Definition end_cts s (id : option nat) : list pipe_ct := match id with None => pipe_cts s ++ [MkPipe 0 0] | Some _ => pipe_cts s end.
Lemma emplace_pipe_run s name k id :
  pipes_ok s -> 3 <= k -> open_files s !! k = None -> (forall p, id = Some p -> (p < length (pipe_cts s))%nat) ->
  emplace_pipe name k id s = Done (with_end s (pipe_node name k id (end_pipe s id)) (end_cts s id), inr (fresh_addr s)).
Proof.
  intros Hok Hk Ho Hid. unfold emplace_pipe. rewrite run_gets, no_pipe_with by done. unfold mknode_pipe, attach_pipe. rewrite run_assoc, run_gets.
  destruct id as [i|]; [|done]. specialize (Hid i eq_refl). apply Nat.ltb_lt in Hid. by rewrite Hid.
Qed.
Lemma register_end_run s name k id p cts : 3 <= k -> open_files s !! k = None ->
  register_fd (fresh_addr s) (with_end s (pipe_node name k id p) cts) = Done (opened s name k id p cts, inr tt).
Proof.
  intros Hk Ho. set (s1 := with_end s _ _). assert (Hv : nodes s1 !! fresh_addr s = Some (pipe_node name k id p)) by (cbn; by rewrite lookup_insert_eq).
  destruct (register_fd_run s1 (fresh_addr s) _ Hv) as (k' & Er & _ & _ & Hk').
  assert (wanted_fd s1 (pipe_node name k id p) = k) as Hw. { unfold wanted_fd. cbn [fd pipe_node]. destruct (Z.ltb_spec k 0); [lia|done]. }
  rewrite Hw in Hk'. by rewrite Hk' in Er by (change (open_files s1) with (open_files s); by rewrite Ho).
Qed.
Lemma opened_ok s name k id p cts : pipes_ok s -> 3 <= k -> open_files s !! k = None -> pipes_ok (opened s name k id p cts).
Proof.
  intros [[Hn Ht] H3 Hp] Hk Ho. split; [split| |]; cbn.
  - intros n. destruct (decide (n = fresh_addr s)) as [->|]; [lia|]. rewrite !lookup_insert_ne by done. intros H%Hn. lia.
  - intros t H%Ht. lia.
  - lia.
  - intros a [->|Ha]%elem_of_cons; [eexists; rewrite !lookup_insert_eq; split; [done|]; right; cbn; by rewrite lookup_insert_eq|].
    destruct (Hp a Ha) as (v & Hv & Hf). assert (a <> fresh_addr s) by (intros ->; specialize (Hn (fresh_addr s) ltac:(by eexists)); lia).
    exists v. rewrite !lookup_insert_ne by done. split; [done|]. destruct Hf as [|Hf]; [by left|]. right. rewrite lookup_insert_ne; [done|]. congruence.
Qed.

(** The two ends of a pipe that [mkpipe] made. *)
Record pipe_ends s (k1 k2 : Z) (a b p : nat) : Prop := {
  pe_lo : 3 <= k1; pe_lt : k1 < k2; pe_ne : a <> b;
  pe_in : open_files s !! k1 = Some a; pe_out : open_files s !! k2 = Some b;
  pe_a : nodes s !! a = Some (pipe_node "" k1 None p); pe_b : nodes s !! b = Some (pipe_node "" k2 (Some p) p);
  pe_ct : pipe_cts s !! p = Some (MkPipe 0 0) }.
Lemma syscall_pipe_run s : pipes_ok s -> exists s1 k1 k2 a b p, syscall_pipe s = Done (s1, inr (k1, k2)) /\ pipe_ends s1 k1 k2 a b p /\ pipes_ok s1.
Proof.
  intros Hok. destruct (unused_fd_run s) as (k1 & Hk1 & Ho1 & E1). pose proof (pk_next _ Hok) as H3.
  set (p := length (pipe_cts s)). set (cts := pipe_cts s ++ [MkPipe 0 0]). set (s1 := opened s "" k1 None p cts).
  assert (Hok1 : pipes_ok s1) by (apply opened_ok; [done|lia|done]). destruct (unused_fd_run s1) as (k2 & Hk2 & Ho2 & E2). change (next_fd s1) with (k1 + 1) in Hk2.
  set (s2 := opened s1 "" k2 (Some p) p cts). exists s2, k1, k2, (fresh_addr s), (fresh_addr s1), p. change (fresh_addr s1) with (S (fresh_addr s)) in *.
  assert (Hcts : cts !! p = Some (MkPipe 0 0)) by (unfold cts, p; by rewrite lookup_app_r, Nat.sub_diag by lia).
  assert (Hends : pipe_ends s2 k1 k2 (fresh_addr s) (S (fresh_addr s)) p).
  { split; cbn; [lia|lia|lia| | | | |done]; rewrite ?lookup_insert_eq; try done; rewrite !lookup_insert_ne by lia; by rewrite ?lookup_insert_eq. }
  split_and!; [|done|apply opened_ok; [done|lia|done]].
  assert (mkpipe s = Done (s2, inr (fresh_addr s, S (fresh_addr s)))) as E.
  { unfold mkpipe, mkpipe_ends. rewrite (run_bind _ _ _ _ _ E1), (run_bind _ _ _ _ _ (emplace_pipe_run s "" k1 None Hok ltac:(lia) Ho1 ltac:(done))).
    rewrite (run_node _ (pipe_node "" k1 None p)) by (cbn; by rewrite lookup_insert_eq). rewrite (run_bind _ _ _ _ _ (register_end_run s "" k1 None p cts ltac:(lia) Ho1)). fold s1.
    rewrite (run_bind _ _ _ _ _ E2). cbn [pipe_idx pipe_node].
    rewrite (run_bind _ _ _ _ _ (emplace_pipe_run s1 "" k2 (Some p) Hok1 ltac:(lia) Ho2 ltac:(intros ? [= <-]; change (pipe_cts s1) with cts; unfold cts, p; rewrite length_app; cbn; lia))).
    by rewrite (run_bind _ _ _ _ _ (register_end_run s1 "" k2 (Some p) p cts ltac:(lia) Ho2)). }
  unfold syscall_pipe. rewrite (run_bind _ _ _ _ _ E), (run_node _ _ _ _ (pe_a _ _ _ _ _ _ Hends)), (run_node _ _ _ _ (pe_b _ _ _ _ _ _ Hends)). done.
Qed.

Lemma pipe_write_run s stdio k b p c l : open_files s !! k = Some b -> 3 <= k -> nodes s !! b = Some (pipe_node "" k (Some p) p) -> pipe_cts s !! p = Some c ->
  syscall_write stdio k l s = if readers c =? 0 then Done (s, inr (- EPIPE)) else Done (with_data s (sputn (fdata s) (OfPipe p) l), inr 0).
Proof.
  intros Ho Hk Hb Hc. set (v := pipe_node "" k (Some p) p) in *.
  assert (node_write b l s = if readers c =? 0 then Done (s, inl logic_error) else Done (with_data s (sputn (fdata s) (OfPipe p) l), inr tt)) as E.
  { unfold node_write. rewrite (run_node b v) by done. cbn [is_pipe kind v pipe_node]. assert (get_pipe p s = Done (s, inr c)) as Eg by (unfold get_pipe; by rewrite Hc).
    rewrite run_assoc, (run_bind _ _ _ _ _ Eg). by destruct (readers c =? 0). }
  unfold syscall_write. destruct (readers c =? 0).
  - rewrite (run_catch _ _ s s (inl logic_error)); [done|]. rewrite (run_bind _ _ _ _ _ (get_by_fd_run s stdio k b v Hk Ho Hb eq_refl)), (run_node b v) by done. by apply run_exn.
  - eapply (run_catch _ _ _ _ (inr 0)). rewrite (run_bind _ _ _ _ _ (get_by_fd_run s stdio k b v Hk Ho Hb eq_refl)), (run_node b v) by done. cbn [negb m_out current_mode v pipe_node end_mode].
    rewrite (run_bind _ _ _ _ _ E). unfold sync_node. rewrite run_assoc, (run_node b v) by done. done.
Qed.

(** A new pipe is broken until its read end is closed: making a pipe counts neither end as open, so that writing to it fails with
    EPIPE; closing the read end lowers the count of readers below zero, and from then on
    writing succeeds. *)
Theorem pipe_broken_until_closed s stdio : pipes_ok s ->
  exists s1 r w s2, syscall_pipe s = Done (s1, inr (r, w)) /\ (forall l, syscall_write stdio w l s1 = Done (s1, inr (- EPIPE))) /\
    syscall_close stdio r s1 = Done (s2, inr 0) /\ forall l, exists s3, syscall_write stdio w l s2 = Done (s3, inr 0).
Proof.
  intros Hok. destruct (syscall_pipe_run s Hok) as (s1 & k1 & k2 & a & b & p & E & [Hlo Hlt Hne Ha Hb Hva Hvb Hct] & _).
  set (v := pipe_node "" k1 None p) in *. set (s2 := with_data s1 (seek_start (fdata s1) (OfPipe p))). set (s3 := with_next_fd (with_open s2 (delete k1 (open_files s2))) k1).
  set (s4 := with_pipes s3 (pipes s3) (<[p := MkPipe (u64 (0 - 1)) 0]> (pipe_cts s3))). exists s1, k1, k2, (with_nodes s4 (<[a := set_fd v (-1)]> (nodes s4))). split_and!; [done| | |].
  - intros l. by rewrite (pipe_write_run s1 stdio k2 b p (MkPipe 0 0)) by first [done | lia].
  - unfold syscall_close. eapply (run_catch _ _ _ _ (inr 0)). rewrite (run_bind _ _ _ _ _ (get_by_fd_run s1 stdio k1 a v Hlo Ha Hva eq_refl)).
    unfold close_file. rewrite run_assoc, (run_node a v) by done. cbn [is_file is_dir kind v pipe_node negb]. rewrite run_assoc, run_assoc, run_modify. unfold data_of. cbn [is_pipe kind v pipe_node pipe_idx]. fold v. fold s2.
    rewrite run_assoc, run_modify. cbn [fd v pipe_node]. fold v. fold s3. assert (node_on_close a s3 = Done (s4, inr tt)) as Ec.
    { unfold node_on_close. rewrite (run_node a v) by done. cbn [is_pipe kind v pipe_node pipe_idx]. assert (get_pipe p s3 = Done (s3, inr (MkPipe 0 0))) as Eg by (unfold get_pipe; cbn; by rewrite Hct).
      by rewrite (run_bind _ _ _ _ _ Eg). }
    rewrite (run_bind _ _ _ _ _ Ec), (run_upd a v) by done. done.
  - intros l. eexists. rewrite (pipe_write_run _ stdio k2 b p (MkPipe (u64 (0 - 1)) 0)); [done|cbn; by rewrite lookup_delete_ne by lia|lia|cbn; by rewrite lookup_insert_ne|].
    cbn. apply list_lookup_insert_eq. by eapply lookup_lt_Some.
Qed.
End Fs.

(** ** A small file system *)
Module Ram.
(** What has been written, in order. *)
Definition writes := list (contents * list Z).
#[global] Instance data : FileData writes := {|
  sputn d c l := d ++ [(c, l)];
  sgetn d c n := (d, n);
  clear_data d c := (d, true);
  seek_start d c := d;
  seek_end d c := d;
  sync_data d c := (d, true) |}.
(** The file system as it is constructed, with the root at address 0. *)
Definition empty : fs writes := MkFs {[0%nat := MkVn KDir default_mode 3 "" in_out ∅ ∅ 0]} ∅ 1 0 ∅ 4 [] [] [].
Definition after {A} (m : SE (fs writes) exn A) (s : fs writes) : fs writes := match m s with Done (s1, _) => s1 | _ => s end.
Definition create : Z := Z.lor O_CREAT O_RDWR.
(** With a file that has been closed again. *)
Definition one_file : fs writes := after (k ← syscall_open None "f" create; syscall_close [] k) empty.
Definition the_file : vnode := MkVn KFile default_mode (-1) "f" (open_mode create) ∅ {[2%nat]} 0.
Lemma file_there : leads_to one_file "f" 0 "f" 2 1 the_file.
Proof. split; [by vm_compute|by eexists|by eexists|by vm_compute]. Qed.
Lemma file_usable : usable one_file 1 the_file.
Proof. split; [done|vm_compute; congruence| |by left]. intros k n' H. exfalso. by apply (lookup_empty_Some k n'). Qed.
Lemma empty_addrs : addrs_ok empty.
Proof. split; intros n [x Hx]; cbn [nodes tnodes empty] in Hx; [apply lookup_singleton_Some in Hx as [<- _]; cbn; lia|]. by apply lookup_empty_Some in Hx. Qed.
Lemma empty_pipes : pipes_ok empty.
Proof. split; [apply empty_addrs|cbn; lia|]. intros a Ha. by apply not_elem_of_nil in Ha. Qed.
End Ram.

(** Two files can have one descriptor: on an empty file system, after two files have been opened and the first one closed, a directory made on the way
    to a link has the descriptor of the second file, and opening the directory returns it. *)
Theorem descriptor_of_another_file :
  exists s, (k1 ← syscall_open None "a" Ram.create; k2 ← syscall_open None "b" Ram.create; _ ← syscall_close [] k1; _ ← syscall_link "b" "d/e/x";
             k3 ← syscall_open None "d/e" O_RDWR; mret (k2, k3)) Ram.empty = Done (s, inr (5, 5)) /\
    (exists n v, open_files s !! 5 = Some n /\ nodes s !! n = Some v /\ concrete_name v = "b"%string) /\
    exists n v, nodes s !! n = Some v /\ fd v = 5 /\ concrete_name v = "e"%string.
Proof.
  eexists. split; [by vm_compute|]. split.
  - by eexists 3%nat, _.
  - by eexists 7%nat, _.
Qed.

Lemma readonly_open_cannot_read_witness : exists s1 k, syscall_open None "f" O_RDONLY Ram.one_file = Done (s1, inr k) /\ 3 <= k /\ open_files s1 !! k = Some 1%nat /\
    forall len, syscall_read [] k len s1 = Done (s1, inr (- EACCES)).
Proof. apply (readonly_open_cannot_read Ram.one_file None [] "f" 0 "f" 2 1 Ram.the_file Ram.file_there eq_refl Ram.file_usable). Defined.

Lemma write_open_tests_read_bit_witness : exists s1 k, syscall_open (Some (MkUser 7 7 0)) "f" O_WRONLY Ram.one_file = Done (s1, inr k) /\ 3 <= k /\ open_files s1 !! k = Some 1%nat.
Proof.
  apply (write_open_tests_read_bit Ram.one_file (MkUser 7 7 0) "f" 0 "f" 2 1 Ram.the_file Ram.file_there eq_refl Ram.file_usable eq_refl); by vm_compute.
Defined.

Lemma unlink_uses_freed_entry_witness : syscall_unlink 1 "f" Ram.one_file = Undef.
Proof. apply (unlink_uses_freed_entry Ram.one_file "f" 0 "f" 2 1 Ram.the_file 0 Ram.file_there eq_refl). Defined.

Lemma created_path_resolves_witness : exists s1 d, get_parent 0 "a/b/c" true Ram.empty = Done (s1, inr (d, "c"%string)) /\
  get_parent 0 "a/b/c" false s1 = Done (s1, inr (d, "c"%string)) /\ extends Ram.empty s1.
Proof.
  eexists (Ram.after (get_parent 0 "a/b/c" true) Ram.empty), 3%nat. split; [by vm_compute|].
  apply (created_path_resolves Ram.empty 0 "a/b/c" _ 3 "c" Ram.empty_addrs). by vm_compute.
Defined.

Lemma mkdir_leaves_no_name_witness : exists s1, syscall_mkdir "d" 493 Ram.empty = Done (s1, inr 0) /\ forall user om, find_node user "d" om s1 = Done (s1, inr None).
Proof.
  eapply (mkdir_leaves_no_name Ram.empty "d" 493 0 _ "d" Ram.empty_addrs); [by vm_compute|by vm_compute|done|done|done|cbn; lia|done].
Defined.

Lemma pipe_broken_until_closed_witness : exists s1 r w s2, syscall_pipe Ram.empty = Done (s1, inr (r, w)) /\ (forall l, syscall_write [] w l s1 = Done (s1, inr (- EPIPE))) /\
    syscall_close [] r s1 = Done (s2, inr 0) /\ forall l, exists s3, syscall_write [] w l s2 = Done (s3, inr 0).
Proof. apply (pipe_broken_until_closed Ram.empty [] Ram.empty_pipes). Defined.
End VfsProps.
