(* ===== verification/Dhcp.v ===== *)
(** The DHCP client (kernel/net/protocol/dhcp.cpp, dhcp.hpp).

    A message is the bytes from the field [operation] on, behind the Ethernet, IPv4 and UDP
    headers, of which a packet to send keeps the addresses.  The configuration that the
    client shares with the other protocols is part of its state.  The layer below, the clock,
    the random numbers and the resolution of addresses, for which Arp.v has an instance, are
    an interface. *)
From S2P Require Import Prelude StateExn Bytes.
Import Bytes.

Module Dhcp.

Inductive exn := runtime_error | invalid_argument.

Inductive ipv4_client_state := REBOOT | INIT | SELECTING | BOUND | RENEWING | REBINDING.
#[global] Instance state_eq_dec : EqDecision ipv4_client_state.
Proof. solve_decision. Defined.

Record ipv4_config := MkCfg {
  primary_gateway : Z;
  primary_dns_server : Z;
  alternate_gateway : Z;
  alternate_dns_server : Z;
  dhcp_server_addr : Z;
  leased_addr : Z;
  subnet_mask : Z;
  lease_acquired_time : Z;
  lease_duration : Z;
  lease_renew_time : Z;
  lease_rebind_time : Z;
  time_to_live_default : Z;
  time_to_live_tcp_default : Z;
  current_state : ipv4_client_state }.

Definition set_state (c : ipv4_config) (x : ipv4_client_state) : ipv4_config :=
  MkCfg (primary_gateway c) (primary_dns_server c) (alternate_gateway c) (alternate_dns_server c) (dhcp_server_addr c) (leased_addr c) (subnet_mask c) (lease_acquired_time c)
    (lease_duration c) (lease_renew_time c) (lease_rebind_time c) (time_to_live_default c) (time_to_live_tcp_default c) x.
Definition set_gateways (c : ipv4_config) (p a : Z) : ipv4_config :=
  MkCfg p (primary_dns_server c) a (alternate_dns_server c) (dhcp_server_addr c) (leased_addr c) (subnet_mask c) (lease_acquired_time c)
    (lease_duration c) (lease_renew_time c) (lease_rebind_time c) (time_to_live_default c) (time_to_live_tcp_default c) (current_state c).
Definition set_dns (c : ipv4_config) (p a : Z) : ipv4_config :=
  MkCfg (primary_gateway c) p (alternate_gateway c) a (dhcp_server_addr c) (leased_addr c) (subnet_mask c) (lease_acquired_time c)
    (lease_duration c) (lease_renew_time c) (lease_rebind_time c) (time_to_live_default c) (time_to_live_tcp_default c) (current_state c).
Definition set_server (c : ipv4_config) (x : Z) : ipv4_config :=
  MkCfg (primary_gateway c) (primary_dns_server c) (alternate_gateway c) (alternate_dns_server c) x (leased_addr c) (subnet_mask c) (lease_acquired_time c)
    (lease_duration c) (lease_renew_time c) (lease_rebind_time c) (time_to_live_default c) (time_to_live_tcp_default c) (current_state c).
Definition set_lease (c : ipv4_config) (addr time : Z) : ipv4_config :=
  MkCfg (primary_gateway c) (primary_dns_server c) (alternate_gateway c) (alternate_dns_server c) (dhcp_server_addr c) addr (subnet_mask c) time
    (lease_duration c) (lease_renew_time c) (lease_rebind_time c) (time_to_live_default c) (time_to_live_tcp_default c) (current_state c).
Definition set_mask (c : ipv4_config) (x : Z) : ipv4_config :=
  MkCfg (primary_gateway c) (primary_dns_server c) (alternate_gateway c) (alternate_dns_server c) (dhcp_server_addr c) (leased_addr c) x (lease_acquired_time c)
    (lease_duration c) (lease_renew_time c) (lease_rebind_time c) (time_to_live_default c) (time_to_live_tcp_default c) (current_state c).
Definition set_times (c : ipv4_config) (duration renew rebind : Z) : ipv4_config :=
  MkCfg (primary_gateway c) (primary_dns_server c) (alternate_gateway c) (alternate_dns_server c) (dhcp_server_addr c) (leased_addr c) (subnet_mask c) (lease_acquired_time c)
    duration renew rebind (time_to_live_default c) (time_to_live_tcp_default c) (current_state c).
Definition set_ttl (c : ipv4_config) (x : Z) : ipv4_config :=
  MkCfg (primary_gateway c) (primary_dns_server c) (alternate_gateway c) (alternate_dns_server c) (dhcp_server_addr c) (leased_addr c) (subnet_mask c) (lease_acquired_time c)
    (lease_duration c) (lease_renew_time c) (lease_rebind_time c) x (time_to_live_tcp_default c) (current_state c).
(** The configuration that [reset] constructs. *)
Definition reset_config : ipv4_config := MkCfg 0 0 0 0 0 0 0 0 0 0 0 64 64 INIT.

(** ** Message and option types *)
Definition DISCOVER : Z := 1.
Definition OFFER : Z := 2.
Definition REQUEST : Z := 3.
Definition DECLINE : Z := 4.
Definition ACK : Z := 5.
Definition NAK : Z := 6.
Definition PAD : Z := 0.
Definition SUBNET_MASK : Z := 1.
Definition ROUTER : Z := 3.
Definition DOMAIN_NAME_SERVER : Z := 6.
Definition DOMAIN_NAME : Z := 15.
Definition DEFAULT_TTL : Z := 23.
Definition REQUESTED_IP : Z := 50.
Definition IP_LEASE_TIME : Z := 51.
Definition MESSAGE_TYPE : Z := 53.
Definition SERVER_IDENTIFIER : Z := 54.
Definition PARAMETER_REQUEST_LIST : Z := 55.
Definition MESSAGE : Z := 56.
Definition RENEWAL_TIME_VALUE : Z := 58.
Definition REBINDING_TIME_VALUE : Z := 59.
Definition END_OF_TRANSMISSION : Z := 255.
Definition dhcp_magic : Z := 0x63825363.
Definition BOOTREQUEST : Z := 1.
Definition broadcast : Z := 0xFFFFFFFF.
Definition broadcast_mac : list Z := replicate 6 255.
Definition EPROTO : Z := 71.
Definition EINVAL : Z := 22.
Definition ENETDOWN : Z := 115.
(** Offsets in a message. *)
Definition o_xid : Z := 4.
Definition o_your_ip : Z := 16.
Definition o_server_ip : Z := 20.
Definition o_parameters : Z := 240.
(** [sizeof(dhcp_packet)], with the 42 bytes of the headers below. *)
Definition dhcp_size : Z := 282.
Definition total_dhcp_size (n : Z) : Z := n + dhcp_size.
Definition must_decline_msg : list Z :=
  [84; 104; 97; 116; 32; 97; 100; 100; 114; 101; 115; 115; 32; 105; 115; 32; 97; 108; 114; 101; 97; 100; 121; 32; 105; 110; 32; 117; 115; 101; 32;
   98; 121; 32; 97; 110; 111; 116; 104; 101; 114; 32; 99; 108; 105; 101; 110; 116; 46; 0].

(** A packet to send. *)
Record packet := MkPkt { dest_mac : list Z; dest_ip : Z; source_ip : Z; body : list Z }.

Class NetEnv (W : Type) := {
  transmit : W -> packet -> W * Z;                                   (* [next->transmit] *)
  rand : W -> W * Z;
  sys_time : W -> Z;
  check_presence : ipv4_config -> W -> Z -> outcome (W * (exn + bool));
  resolve_mac : ipv4_config -> W -> Z -> outcome (W * (exn + list Z));
  mac_addr : W -> list Z }.

Record client (W : Type) := MkClient { ipconfig : ipv4_config; transaction_timers : gmap Z Z; active_renewal_xid : Z; world : W }.
Arguments MkClient {W} ipconfig transaction_timers active_renewal_xid world.
Arguments ipconfig {W} c.
Arguments transaction_timers {W} c.
Arguments active_renewal_xid {W} c.
Arguments world {W} c.

Section Client.
Context {W : Type} `{!NetEnv W}.
Implicit Types (s : client W).
Local Notation M := (SE (client W) exn).

Definition with_cfg s c : client W := MkClient c (transaction_timers s) (active_renewal_xid s) (world s).
Definition with_timers s t : client W := MkClient (ipconfig s) t (active_renewal_xid s) (world s).
Definition with_xid s x : client W := MkClient (ipconfig s) (transaction_timers s) x (world s).
Definition with_world s w : client W := MkClient (ipconfig s) (transaction_timers s) (active_renewal_xid s) w.
Definition get_cfg : M ipv4_config := gets ipconfig.
Definition mod_cfg (f : ipv4_config -> ipv4_config) : M unit := modify (fun s => with_cfg s (f (ipconfig s))).
Definition lift {A} (o : outcome A) : M A := fun s => a ← o; Done (s, inr a).
Definition send (p : packet) : M Z := fun s => let '(w, r) := transmit (world s) p in Done (with_world s w, inr r).
Definition next_rand : M Z := fun s => let '(w, r) := rand (world s) in Done (with_world s w, inr (u32 r)).
Definition in_world {A} (f : ipv4_config -> W -> outcome (W * (exn + A))) : M A := fun s =>
  '(w, r) ← f (ipconfig s) (world s); Done (with_world s w, r).

(** ** Making messages *)
Definition message (op xid secs cip yip sip : Z) (mac params : list Z) : list Z :=
  [op; 1; 6; 0] ++ be_bytes 4 xid ++ be_bytes 2 secs ++ be_bytes 2 0 ++ be_bytes 4 cip ++ be_bytes 4 yip ++ be_bytes 4 sip ++ be_bytes 4 0
  ++ mac ++ replicate 10 0 ++ replicate 64 0 ++ replicate 128 0 ++ be_bytes 4 dhcp_magic ++ params.
Definition create_packet (mac : list Z) (ip total_size xid : Z) : M packet :=
  c ← get_cfg; t ← gets transaction_timers; w ← gets world;
  let secs := match t !! xid with Some t0 => u16 (sys_time w - t0) | None => 0 end in
  mret (MkPkt mac ip (leased_addr c)
    (message BOOTREQUEST xid secs (leased_addr c) 0 (dhcp_server_addr c) (mac_addr w) (replicate (Z.to_nat (total_size - dhcp_size)) 0))).
(** An option with its length at the offset [pos] of the parameters. *)
Definition put_param (b : list Z) (pos type : Z) (data : list Z) : outcome (list Z) :=
  b1 ← wr b (o_parameters + pos) [type]; b2 ← wr b1 (o_parameters + pos + 1) [u8 (Z.of_nat (length data))]; wr b2 (o_parameters + pos + 2) data.
Definition put_end (b : list Z) (total_param_size : Z) : outcome (list Z) := wr b (o_parameters + total_param_size - 1) [END_OF_TRANSMISSION].
Definition with_body (p : packet) (b : list Z) : packet := MkPkt (dest_mac p) (dest_ip p) (source_ip p) b.
Fixpoint new_xid (fuel : nat) (x : Z) : M Z :=
  (t ← gets transaction_timers;
   if bool_decide (is_Some (t !! x)) then match fuel with O => no_fuel | S f => y ← next_rand; new_xid f y end else mret x) : M Z.
Definition discover (fuel : nat) (param_requests : list Z) : M unit :=
  let num := Z.of_nat (length param_requests) in
  let total := num + 2 + 4 in
  x ← next_rand; xid ← new_xid fuel x;
  p ← create_packet broadcast_mac broadcast (up_to_nearest (total_dhcp_size total) 2) xid;
  w ← gets world;
  modify (fun s => with_timers s (<[xid := sys_time w]> (transaction_timers s)));;
  b1 ← lift (put_end (body p) total);
  b2 ← lift (put_param b1 0 MESSAGE_TYPE [DISCOVER]);
  b3 ← lift (if num =? 0 then Done b2 else put_param b2 3 PARAMETER_REQUEST_LIST param_requests);
  r ← send (with_body p b3);
  if r =? 0 then mret tt else throw runtime_error.
Definition request (addr xid : Z) : M Z :=
  c ← get_cfg;
  let st := current_state c in
  let total := 6 * (if decide (st = SELECTING) then 2 else if decide (st = REBOOT) then 1 else 0) + 4 in
  p ← create_packet broadcast_mac broadcast (total_dhcp_size total) xid;
  b1 ← lift (put_end (body p) total);
  b2 ← lift (put_param b1 0 MESSAGE_TYPE [REQUEST]);
  b3 ← lift (if decide (st = SELECTING) then b ← put_param b2 3 SERVER_IDENTIFIER (be_bytes 4 (dhcp_server_addr c)); put_param b 9 REQUESTED_IP (be_bytes 4 addr)
             else if decide (st = REBOOT) then put_param b2 6 REQUESTED_IP (be_bytes 4 addr)
             else Done b2);
  send (with_body p b3).
(** [decline]: the text is copied over the type of its option. *)
Definition decline (addr xid : Z) : M Z :=
  let total := Z.of_nat (length must_decline_msg) + 2 + 6 * 2 + 4 in
  c ← get_cfg;
  p ← create_packet broadcast_mac broadcast (up_to_nearest (total_dhcp_size total) 2) xid;
  b0 ← lift (wr (body p) 8 (be_bytes 2 0));
  b1 ← lift (put_end b0 total);
  b2 ← lift (put_param b1 0 MESSAGE_TYPE [DECLINE]);
  b3 ← lift (put_param b2 3 SERVER_IDENTIFIER (be_bytes 4 (dhcp_server_addr c)));
  b4 ← lift (put_param b3 9 REQUESTED_IP (be_bytes 4 addr));
  b5 ← lift (wr b4 (o_parameters + 15) [MESSAGE]);
  b6 ← lift (wr b5 (o_parameters + 15) must_decline_msg);
  send (with_body p b6).
Definition renew : M Z :=
  c ← get_cfg; x ← gets active_renewal_xid;
  if leased_addr c =? 0 then mret (- EINVAL) else
  mac ← in_world (fun c w => resolve_mac c w (dhcp_server_addr c));
  p ← create_packet mac (dhcp_server_addr c) (total_dhcp_size 4) x;
  b1 ← lift (put_end (body p) 4); b2 ← lift (put_param b1 0 MESSAGE_TYPE [REQUEST]);
  send (with_body p b2).
Definition rebind : M Z := c ← get_cfg; x ← gets active_renewal_xid; request (leased_addr c) x.
Definition reset (fuel : nat) : M unit :=
  mod_cfg (fun _ => reset_config);; discover fuel [SUBNET_MASK; DOMAIN_NAME_SERVER; DOMAIN_NAME; ROUTER].
Definition transition_state (fuel : nat) (to_state : ipv4_client_state) : M Z :=
  mod_cfg (fun c => set_state c to_state);;
  catch (match to_state with
         | INIT => reset fuel;; mret 0
         | RENEWING => x ← next_rand; modify (fun s => with_xid s x);; renew
         | REBINDING => rebind
         | BOUND => modify (fun s => with_xid s 0);; mret 0
         | _ => mret 0
         end)
    (fun e => match e with runtime_error => Some (mret (- ENETDOWN)) | _ => None end).

(** ** Reading messages *)
Definition u8_at (b : list Z) (p : Z) : outcome Z := l ← rd b p 1; Done (be l).
Definition u32_at (b : list Z) (p : Z) : outcome Z := l ← rd b p 4; Done (be l).
Definition not_bound (c : ipv4_config) : bool := negb (bool_decide (current_state c = BOUND)).
(** The option at [p]: the change of the configuration and the number of bytes to go on by,
    which is a byte. *)
Definition process_packet_parameter (b : list Z) (p : Z) : M Z :=
  t ← lift (u8_at b p);
  if t =? PAD then mret 1 else
  if t =? END_OF_TRANSMISSION then mret 0 else
  len ← lift (u8_at b (p + 1));
  c ← get_cfg;
  (if t =? SUBNET_MASK then x ← lift (u32_at b (p + 2)); mod_cfg (fun c => set_mask c x)
   else if t =? SERVER_IDENTIFIER then
     if dhcp_server_addr c =? 0 then x ← lift (u32_at b (p + 2)); mod_cfg (fun c => set_server c x) else mret tt
   else if t =? ROUTER then
     if negb (len mod 4 =? 0) then throw invalid_argument else
     x ← lift (u32_at b (p + 2)); y ← (if 4 <? len then lift (u32_at b (p + 6)) else mret (alternate_gateway c));
     mod_cfg (fun c => set_gateways c x y)
   else if t =? DOMAIN_NAME_SERVER then
     if negb (len mod 4 =? 0) then throw invalid_argument else
     x ← lift (u32_at b (p + 2)); y ← (if 4 <? len then lift (u32_at b (p + 6)) else mret (alternate_dns_server c));
     mod_cfg (fun c => set_dns c x y)
   else if t =? DEFAULT_TTL then x ← lift (u8_at b (p + 2)); mod_cfg (fun c => set_ttl c x)
   else if t =? RENEWAL_TIME_VALUE then
     if not_bound c then x ← lift (u32_at b (p + 2)); mod_cfg (fun c => set_times c (lease_duration c) x (lease_rebind_time c)) else mret tt
   else if t =? REBINDING_TIME_VALUE then
     if not_bound c then x ← lift (u32_at b (p + 2)); mod_cfg (fun c => set_times c (lease_duration c) (lease_renew_time c) x) else mret tt
   else if t =? IP_LEASE_TIME then
     if not_bound c then x ← lift (u32_at b (p + 2)); mod_cfg (fun c => set_times c x (lease_renew_time c) (lease_rebind_time c)) else mret tt
   else mret tt);;
  mret (u8 (len + 2)).
Fixpoint process_parameters (fuel : nat) (b : list Z) (p : Z) : M unit :=
  (t ← lift (u8_at b p);
   if t =? END_OF_TRANSMISSION then mret tt else
   match fuel with O => no_fuel | S f => n ← process_packet_parameter b p; process_parameters f b (p + n) end) : M unit.
(** The loop of both handlers: an error code when an option is malformed. *)
Definition read_parameters (fuel : nat) (b : list Z) : M Z :=
  catch (process_parameters fuel b o_parameters;; mret 0) (fun e => match e with invalid_argument => Some (mret (- EPROTO)) | _ => None end).
Definition process_offer_packet (fuel : nat) (b : list Z) : M Z :=
  c ← get_cfg; t ← gets transaction_timers;
  xid ← lift (u32_at b o_xid);
  if negb (bool_decide (current_state c = INIT)) || negb (bool_decide (is_Some (t !! xid))) then mret 0 else
  req_addr ← lift (u32_at b o_your_ip); srv ← lift (u32_at b o_server_ip);
  mod_cfg (fun c => set_server c srv);;
  _ ← transition_state fuel SELECTING;
  e ← read_parameters fuel b;
  if negb (e =? 0) then mret e else
  present ← in_world (fun c w => check_presence c w req_addr);
  if present : bool then
    err ← decline req_addr xid;
    if negb (err =? 0) then mret err else
    catch (discover fuel [];; mret 0) (fun e => match e with runtime_error => Some (mret (- ENETDOWN)) | _ => None end)
  else
    request req_addr xid.
Definition default_times (c : ipv4_config) : ipv4_config :=
  if lease_duration c =? 0xFFFFFFFF then c else
  set_times c (lease_duration c)
    (if lease_renew_time c =? 0 then lease_duration c / 2 else lease_renew_time c)
    (if lease_rebind_time c =? 0 then u32 (7 * lease_duration c) / 8 else lease_rebind_time c).
Definition process_ack_packet (fuel : nat) (b : list Z) : M Z :=
  w ← gets world; yip ← lift (u32_at b o_your_ip);
  mod_cfg (fun c => set_lease c yip (sys_time w));;
  e ← read_parameters fuel b;
  if negb (e =? 0) then mret e else
  c ← get_cfg;
  if lease_duration c =? 0 then mret (- EPROTO) else
  mod_cfg default_times;;
  _ ← transition_state fuel BOUND;
  xid ← lift (u32_at b o_xid);
  modify (fun s => with_timers s (delete xid (transaction_timers s)));;
  mret 0.
(** The loop of [receive]: another option is passed over by its length alone. *)
Fixpoint find_type (fuel : nat) (b : list Z) (p : Z) : outcome (option Z) :=
  t ← u8_at b p;
  if t =? END_OF_TRANSMISSION then Done None else
  match fuel with
  | O => NoFuel
  | S f =>
      if t =? PAD then find_type f b (p + 1) else
      if t =? MESSAGE_TYPE then x ← u8_at b (p + 2); Done (Some x) else
      len ← u8_at b (p + 1); find_type f b (p + len)
  end.
Definition receive (fuel : nat) (b : list Z) : M Z :=
  o ← lift (find_type fuel b o_parameters);
  match o with
  | None => mret (- EPROTO)
  | Some t =>
      if t =? OFFER then process_offer_packet fuel b
      else if t =? NAK then transition_state fuel INIT
      else if t =? ACK then process_ack_packet fuel b
      else mret 0
  end.
End Client.
End Dhcp.
