(* ===== verification/DhcpProps.v ===== *)
(** Properties of the DHCP client of Dhcp.v: the options of a message are read as RFC 2132
    encodes them, an OFFER and an ACK take a new client to a lease, and where the client
    hangs, trusts a stranger or gives up. *)
From S2P Require Import Prelude StateExn Bytes Dhcp.
Import Bytes Dhcp.

Module DhcpProps.

(** ** Options as RFC 2132 encodes them *)
Inductive item := Pad | Opt (t : Z) (d : list Z).
Definition encode1 (i : item) : list Z := match i with Pad => [0] | Opt t d => t :: Z.of_nat (length d) :: d end.
Definition encode (l : list item) : list Z := concat (map encode1 l).
Definition word (d : list Z) (i : nat) : Z := be (take 4 (drop (4 * i) d)).
(** What an option means to the client. *)
Definition apply_item (c : ipv4_config) (i : item) : ipv4_config :=
  match i with
  | Pad => c
  | Opt t d =>
      if t =? SUBNET_MASK then set_mask c (word d 0)
      else if t =? SERVER_IDENTIFIER then if dhcp_server_addr c =? 0 then set_server c (word d 0) else c
      else if t =? ROUTER then set_gateways c (word d 0) (if (4 <? length d)%nat then word d 1 else alternate_gateway c)
      else if t =? DOMAIN_NAME_SERVER then set_dns c (word d 0) (if (4 <? length d)%nat then word d 1 else alternate_dns_server c)
      else if t =? DEFAULT_TTL then set_ttl c (be (take 1 d))
      else if t =? RENEWAL_TIME_VALUE then if not_bound c then set_times c (lease_duration c) (word d 0) (lease_rebind_time c) else c
      else if t =? REBINDING_TIME_VALUE then if not_bound c then set_times c (lease_duration c) (lease_renew_time c) (word d 0) else c
      else if t =? IP_LEASE_TIME then if not_bound c then set_times c (word d 0) (lease_renew_time c) (lease_rebind_time c) else c
      else c
  end.
(** An option with the length that its type asks for, and less than 254 bytes. *)
Definition has_word (t : Z) : bool :=
  existsb (Z.eqb t) [SUBNET_MASK; SERVER_IDENTIFIER; ROUTER; DOMAIN_NAME_SERVER; RENEWAL_TIME_VALUE; REBINDING_TIME_VALUE; IP_LEASE_TIME].
Definition item_ok (i : item) : bool :=
  match i with
  | Pad => true
  | Opt t d =>
      (0 <? t) && (t <? 255) && (length d <=? 253)%nat && (if has_word t then (4 <=? length d)%nat else true)
      && (if t =? DEFAULT_TTL then (1 <=? length d)%nat else true)
      && (if (t =? ROUTER) || (t =? DOMAIN_NAME_SERVER) then (length d mod 4 =? 0)%nat else true)
  end.

Lemma encode_cons i l : encode (i :: l) = encode1 i ++ encode l.
Proof. done. Qed.
Lemma be_single x : be [x] = x.
Proof. unfold be. simpl. lia. Qed.
Lemma u8_at_in pre x post p : p = Z.of_nat (length pre) -> u8_at (pre ++ x :: post) p = Done x.
Proof. intros ->. unfold u8_at. rewrite (rd_at pre [x] post); [|done..]. cbn [mbind outcome_bind]. by rewrite be_single. Qed.
Lemma u32_at_in pre d post p i :
  p = Z.of_nat (length pre + 4 * i) -> (4 * i + 4 <= length d)%nat -> u32_at (pre ++ d ++ post) p = Done (word d i).
Proof.
  intros -> Hd. unfold u32_at, word.
  rewrite (rd_at (pre ++ take (4 * i) d) (take 4 (drop (4 * i) d)) (drop 4 (drop (4 * i) d) ++ post)).
  - done.
  - rewrite <- !app_assoc. f_equal. rewrite (app_assoc (take 4 _)), take_drop, app_assoc. by rewrite take_drop.
  - rewrite length_app, length_take. lia.
  - rewrite length_take, length_drop. lia.
Qed.
Lemma u8_at_data pre d post p : p = Z.of_nat (length pre) -> (1 <= length d)%nat -> u8_at (pre ++ d ++ post) p = Done (be (take 1 d)).
Proof. intros ->. destruct d as [|x d]; simpl; [lia|]. intros _. by rewrite (u8_at_in pre x (d ++ post)), take_0, be_single. Qed.

Section Client.
Context {W : Type} `{!NetEnv W}.
Implicit Types (s : client W) (c : ipv4_config) (b : list Z).

Lemma with_cfg_id s : with_cfg s (ipconfig s) = s.
Proof. by destruct s. Qed.
Lemma cfg_with s c : ipconfig (with_cfg s c) = c.
Proof. done. Qed.
Lemma run_lift {A B} (o : outcome A) (a : A) (f : A -> SE (client W) exn B) s : o = Done a -> (lift o ≫= f) s = f a s.
Proof. intros ->. done. Qed.

Lemma run_lift_done {A B} (a : A) (f : A -> SE (client W) exn B) s : (lift (Done a) ≫= f) s = f a s.
Proof. done. Qed.
Lemma run_mod_cfg {B} g (f : unit -> SE (client W) exn B) s : (mod_cfg g ≫= f) s = f tt (with_cfg s (g (ipconfig s))).
Proof. done. Qed.
Lemma run_get_cfg {B} (f : ipv4_config -> SE (client W) exn B) s : (get_cfg ≫= f) s = f (ipconfig s) s.
Proof. done. Qed.
Create HintDb dhcp_run.
#[local] Hint Rewrite @run_lift_done @run_mod_cfg @run_get_cfg @run_ret @run_gets @run_modify @run_assoc : dhcp_run.

(** The bytes that the handler reads of an option. *)
Record option_at b (p t : Z) (d : list Z) : Prop := {
  at_type : u8_at b p = Done t;
  at_length : u8_at b (p + 1) = Done (Z.of_nat (length d));
  at_word0 : (4 <= length d)%nat -> u32_at b (p + 2) = Done (word d 0);
  at_word1 : (8 <= length d)%nat -> u32_at b (p + 6) = Done (word d 1);
  at_byte : (1 <= length d)%nat -> u8_at b (p + 2) = Done (be (take 1 d)) }.
Lemma encoded_option_at pre t d post : option_at (pre ++ encode1 (Opt t d) ++ post) (Z.of_nat (length pre)) t d.
Proof.
  assert (pre ++ encode1 (Opt t d) ++ post = (pre ++ [t; Z.of_nat (length d)]) ++ d ++ post) as E by (by rewrite <- app_assoc).
  split.
  - by apply u8_at_in.
  - simpl. rewrite (cons_middle t pre), app_assoc. apply u8_at_in. rewrite length_app. simpl. lia.
  - intros. rewrite E. apply u32_at_in; [rewrite length_app; simpl; lia|lia].
  - intros. rewrite E. apply (u32_at_in _ _ _ _ 1); [rewrite length_app; simpl; lia|lia].
  - intros. rewrite E. apply u8_at_data; [rewrite length_app; simpl; lia|lia].
Qed.

(** Splits on the type of the option. *)
Ltac on_type t := match goal with |- context [t =? ?k] => destruct (Z.eqb_spec t k) as [->|?] end.
(** The options with one or two addresses or times. *)
Ltac option_word :=
  repeat match goal with H : (4 <= _)%nat -> u32_at _ _ = _ |- context [u32_at] => rewrite H by (by apply Nat.leb_le) end;
  autorewrite with dhcp_run; repeat match goal with H : _ = _ + 2 |- _ => rewrite H | H : forall u, with_cfg _ _ = u |- _ => rewrite H end; done.
Ltac option_words :=
  match goal with H : (8 <= _)%nat -> _, Hm : _ -> (length ?d mod 4 = 0)%nat |- _ =>
    specialize (Hm eq_refl); change 4 with (Z.of_nat 4) at 1; rewrite <- (Nat2Z.inj_mod (length d) 4), Hm; cbn [negb Z.eqb Z.of_nat];
    destruct (Nat.ltb_spec 4 (length d)), (Z.ltb_spec 4 (Z.of_nat (length d))); try lia;
    [rewrite H by (apply Nat.Div0.mod_divides in Hm as [q Hq]; lia)|]
  end; option_word.
Lemma process_parameter_option b p t d s :
  option_at b p t d -> item_ok (Opt t d) = true ->
  process_packet_parameter b p s = Done (with_cfg s (apply_item (ipconfig s) (Opt t d)), inr (Z.of_nat (length d) + 2)).
Proof.
  intros [Ht Hl H0 H1 H8] Hok. unfold process_packet_parameter. rewrite Ht, Hl. autorewrite with dhcp_run.
  unfold item_ok in Hok. rewrite !andb_true_iff in Hok. destruct Hok as [[[[[Ha Hb] Hc] Hd] He] Hf].
  apply Z.ltb_lt in Ha, Hb. apply Nat.leb_le in Hc.
  assert (u8 (Z.of_nat (length d) + 2) = Z.of_nat (length d) + 2) as Hu by (unfold u8; apply Z.mod_small; lia).
  destruct (Z.eqb_spec t PAD) as [->|_]; [done|]. destruct (Z.eqb_spec t END_OF_TRANSMISSION) as [->|_]; [done|].
  rewrite run_lift_done, run_get_cfg. unfold apply_item.
  assert ((t =? ROUTER) || (t =? DOMAIN_NAME_SERVER) = true -> (length d mod 4 = 0)%nat) as Hmod.
  { intros E. rewrite E in Hf. by apply Nat.eqb_eq. }
  clear Hf. assert (Hid : forall u, with_cfg u (ipconfig u) = u) by apply with_cfg_id.
  on_type t; [option_word|].
  on_type t; [destruct (dhcp_server_addr (ipconfig s) =? 0); option_word|].
  on_type t; [option_words|]. on_type t; [option_words|].
  on_type t; [rewrite H8 by (by apply Nat.leb_le); option_word|].
  do 3 (on_type t; [destruct (not_bound (ipconfig s)); option_word|]).
  option_word.
Qed.

Lemma process_parameters_step fuel b p t s :
  u8_at b p = Done t -> t <> END_OF_TRANSMISSION ->
  process_parameters (S fuel) b p s = (n ← process_packet_parameter b p; process_parameters fuel b (p + n)) s.
Proof. intros Ht He. cbn [process_parameters]. rewrite Ht, run_lift_done. by destruct (Z.eqb_spec t END_OF_TRANSMISSION). Qed.
Lemma process_parameters_items fuel items pre rest s :
  forallb item_ok items = true -> (length items <= fuel)%nat ->
  process_parameters fuel (pre ++ encode items ++ 255 :: rest) (Z.of_nat (length pre)) s = Done (with_cfg s (foldl apply_item (ipconfig s) items), inr tt).
Proof.
  revert fuel pre s. induction items as [|i items IH]; intros fuel pre s Hok Hf.
  - change (encode [] ++ 255 :: rest) with (255 :: rest). simpl foldl. rewrite with_cfg_id. destruct fuel; cbn [process_parameters]; by rewrite u8_at_in.
  - destruct fuel as [|fuel]; simpl in Hf; [lia|]. simpl in Hok. apply andb_true_iff in Hok as [Hi Hok].
    rewrite encode_cons, <- app_assoc. destruct i as [|t d].
    + erewrite process_parameters_step; [|by apply (u8_at_in pre 0)|done]. cbn [encode1 app].
      rewrite (run_bind _ _ s s 1).
      2: { unfold process_packet_parameter. rewrite (u8_at_in pre 0 _ (Z.of_nat (length pre))) by done. by rewrite run_lift_done. }
      simpl. rewrite (cons_middle 0 pre), app_assoc. replace (_ + 1) with (Z.of_nat (length (pre ++ [0]))) by (rewrite length_app; simpl; lia).
      rewrite IH by (done || lia). done.
    + pose proof (encoded_option_at pre t d (encode items ++ 255 :: rest)) as Ho. pose proof Hi as Ht.
      unfold item_ok in Ht. rewrite !andb_true_iff, !Z.ltb_lt in Ht.
      rewrite (process_parameters_step _ _ _ t) by (apply Ho || (unfold END_OF_TRANSMISSION; lia)).
      rewrite (run_bind _ _ _ _ _ (process_parameter_option _ _ _ _ s Ho Hi)).
      rewrite app_assoc. replace (_ + (_ + 2)) with (Z.of_nat (length (pre ++ encode1 (Opt t d)))) by (rewrite length_app; simpl; lia).
      rewrite IH by (done || lia). done.
Qed.

Lemma read_parameters_items fuel hdr items rest s :
  length hdr = 240%nat -> forallb item_ok items = true -> (length items <= fuel)%nat ->
  read_parameters fuel (hdr ++ encode items ++ 255 :: rest) s = Done (with_cfg s (foldl apply_item (ipconfig s) items), inr 0).
Proof.
  intros Hh Hok Hf. unfold read_parameters. erewrite run_catch.
  2: { erewrite run_bind; [reflexivity|]. change o_parameters with (Z.of_nat 240). rewrite <- Hh. by apply process_parameters_items. }
  done.
Qed.

(** ** Fields of a message *)
Definition u32_ok (x : Z) : Prop := 0 <= x < 2 ^ 32.
Lemma message_app op xid secs cip yip sip mac params :
  message op xid secs cip yip sip mac params = message op xid secs cip yip sip mac [] ++ params.
Proof. unfold message. by rewrite app_nil_r, <- !app_assoc. Qed.
Lemma length_message op xid secs cip yip sip mac : length mac = 6%nat -> length (message op xid secs cip yip sip mac []) = 240%nat.
Proof. intros H. unfold message. by rewrite !length_app, !length_be_bytes, !length_replicate, H. Qed.
(** A 32-bit field between two parts of a message. *)
Lemma u32_at_field pre x post b p : b = pre ++ be_bytes 4 x ++ post -> p = Z.of_nat (length pre) -> u32_ok x -> u32_at b p = Done x.
Proof.
  intros -> -> Hx. unfold u32_at. erewrite rd_at; [|done|done|by rewrite length_be_bytes]. cbn [mbind outcome_bind]. by rewrite be_be_bytes.
Qed.
Lemma message_xid op xid secs cip yip sip mac params : u32_ok xid -> u32_at (message op xid secs cip yip sip mac params) o_xid = Done xid.
Proof. intros H. by eapply (u32_at_field [op; 1; 6; 0]). Qed.
Lemma message_your_ip op xid secs cip yip sip mac params : u32_ok yip -> u32_at (message op xid secs cip yip sip mac params) o_your_ip = Done yip.
Proof.
  intros H. eapply (u32_at_field ([op; 1; 6; 0] ++ be_bytes 4 xid ++ be_bytes 2 secs ++ be_bytes 2 0 ++ be_bytes 4 cip)); [|by rewrite !length_app, !length_be_bytes|done].
  unfold message. by rewrite <- !app_assoc.
Qed.
Lemma message_server_ip op xid secs cip yip sip mac params : u32_ok sip -> u32_at (message op xid secs cip yip sip mac params) o_server_ip = Done sip.
Proof.
  intros H. eapply (u32_at_field ([op; 1; 6; 0] ++ be_bytes 4 xid ++ be_bytes 2 secs ++ be_bytes 2 0 ++ be_bytes 4 cip ++ be_bytes 4 yip));
    [|by rewrite !length_app, !length_be_bytes|done].
  unfold message. by rewrite <- !app_assoc.
Qed.

(** ** Making a message *)
Lemma put_param_at H pre mid post t d :
  length H = 240%nat -> length mid = (2 + length d)%nat -> (length d < 256)%nat ->
  put_param (H ++ pre ++ mid ++ post) (Z.of_nat (length pre)) t d = Done (H ++ pre ++ encode1 (Opt t d) ++ post).
Proof.
  intros HH Hm Hd. destruct mid as [|m1 [|m2 mid]]; simpl in Hm; [lia..|]. unfold put_param.
  rewrite (wr_at (H ++ pre) [m1] ((m2 :: mid) ++ post)); [|by rewrite <- !app_assoc|rewrite length_app; unfold o_parameters; lia|done].
  cbn [mbind outcome_bind].
  rewrite (wr_at (H ++ pre ++ [t]) [m2] (mid ++ post)); [|by rewrite <- !app_assoc|rewrite !length_app; unfold o_parameters; simpl; lia|done].
  cbn [mbind outcome_bind].
  replace (u8 (Z.of_nat (length d))) with (Z.of_nat (length d)) by (unfold u8; rewrite Z.mod_small; lia).
  rewrite (wr_at (H ++ pre ++ [t] ++ [Z.of_nat (length d)]) mid post); [|by rewrite <- !app_assoc|rewrite !length_app; unfold o_parameters; simpl; lia|lia].
  by rewrite <- !app_assoc.
Qed.
Lemma put_end_at H pre x post n :
  length H = 240%nat -> n = Z.of_nat (length pre) + 1 -> put_end (H ++ pre ++ x :: post) n = Done (H ++ pre ++ 255 :: post).
Proof.
  intros HH ->. unfold put_end. rewrite (wr_at (H ++ pre) [x] post); [by rewrite <- app_assoc|by rewrite <- app_assoc|rewrite length_app; unfold o_parameters; lia|done].
Qed.

(** A message of the client, and how long its transaction has run. *)
Definition secs_of s (xid : Z) : Z := match transaction_timers s !! xid with Some t0 => u16 (sys_time (world s) - t0) | None => 0 end.
Definition client_message s (xid secs : Z) (params : list Z) : list Z :=
  message BOOTREQUEST xid secs (leased_addr (ipconfig s)) 0 (dhcp_server_addr (ipconfig s)) (mac_addr (world s)) params.
Definition request_items s (addr : Z) : list item :=
  [Opt MESSAGE_TYPE [REQUEST]; Opt SERVER_IDENTIFIER (be_bytes 4 (dhcp_server_addr (ipconfig s))); Opt REQUESTED_IP (be_bytes 4 addr)].
Definition request_packet s (addr xid : Z) : packet :=
  MkPkt broadcast_mac broadcast (leased_addr (ipconfig s)) (client_message s xid (secs_of s xid) (encode (request_items s addr) ++ [255])).

Lemma create_packet_run mac ip n xid s :
  create_packet mac ip n xid s
  = Done (s, inr (MkPkt mac ip (leased_addr (ipconfig s)) (client_message s xid (secs_of s xid) (replicate (Z.to_nat (n - dhcp_size)) 0)))).
Proof. done. Qed.
Lemma length_client_header s xid secs : length (mac_addr (world s)) = 6%nat -> length (client_message s xid secs []) = 240%nat.
Proof. unfold client_message. apply length_message. Qed.
(** The options of a request, put one by one behind the fixed fields. *)
Lemma put_request H server addr :
  length H = 240%nat ->
  (b1 ← put_end (H ++ replicate 16 0) 16; b2 ← put_param b1 0 MESSAGE_TYPE [REQUEST];
   b3 ← put_param b2 3 SERVER_IDENTIFIER (be_bytes 4 server); put_param b3 9 REQUESTED_IP (be_bytes 4 addr))
  = Done (H ++ encode [Opt MESSAGE_TYPE [REQUEST]; Opt SERVER_IDENTIFIER (be_bytes 4 server); Opt REQUESTED_IP (be_bytes 4 addr)] ++ [255]).
Proof.
  intros HH. pose proof (length_be_bytes 4 server) as Hs. pose proof (length_be_bytes 4 addr) as Ha.
  generalize dependent (be_bytes 4 server). generalize dependent (be_bytes 4 addr). intros la Ha ls Hs.
  change (replicate 16 0) with (replicate 15 0 ++ [0]).
  rewrite (put_end_at H (replicate 15 0) 0 [] 16 HH eq_refl). cbn [mbind outcome_bind].
  rewrite (put_param_at H [] [0; 0; 0] (replicate 12 0 ++ [255]) _ [REQUEST] HH eq_refl ltac:(simpl; lia)). cbn [mbind outcome_bind].
  rewrite (put_param_at H (encode1 (Opt MESSAGE_TYPE [REQUEST])) (replicate 6 0) (replicate 6 0 ++ [255]) _ ls HH ltac:(by rewrite Hs) ltac:(lia)). cbn [mbind outcome_bind].
  rewrite (app_assoc (encode1 (Opt MESSAGE_TYPE _))).
  replace 9 with (Z.of_nat (length (encode1 (Opt MESSAGE_TYPE [REQUEST]) ++ encode1 (Opt SERVER_IDENTIFIER ls)))) by (simpl; by rewrite Hs).
  rewrite (put_param_at H _ (replicate 6 0) [255] _ la HH ltac:(by rewrite Ha) ltac:(lia)). by rewrite !encode_cons, <- !app_assoc.
Qed.
Lemma run_lift_bind {A B C} (o : outcome A) (f : A -> outcome B) (k : B -> SE (client W) exn C) s :
  (lift o ≫= (fun a => lift (f a) ≫= k)) s = (lift (o ≫= f) ≫= k) s.
Proof. unfold lift, mbind, SE_bind, mbind, outcome_bind. by destruct o. Qed.
Lemma outcome_assoc {A B C} (o : outcome A) (f : A -> outcome B) (g : B -> outcome C) : ((o ≫= f) ≫= g) = (o ≫= (fun a => f a ≫= g)).
Proof. by destruct o. Qed.
Lemma request_selecting addr xid s :
  current_state (ipconfig s) = SELECTING -> length (mac_addr (world s)) = 6%nat -> request addr xid s = send (request_packet s addr xid) s.
Proof.
  intros Hst Hm. unfold request. rewrite run_get_cfg, Hst.
  rewrite (run_bind _ _ _ _ _ (create_packet_run _ _ _ _ s)). cbn [body].
  pose proof (length_client_header s xid (secs_of s xid) Hm) as HH. unfold request_packet, request_items, client_message in *.
  rewrite !(message_app _ _ _ _ _ _ _ (_ ++ _)), !(message_app _ _ _ _ _ _ _ (replicate _ _)). generalize dependent (message BOOTREQUEST xid (secs_of s xid) (leased_addr (ipconfig s)) 0 (dhcp_server_addr (ipconfig s)) (mac_addr (world s)) []).
  intros H HH. pose proof (put_request H (dhcp_server_addr (ipconfig s)) addr HH) as Hput.
  rewrite !run_lift_bind, (run_lift _ _ _ _ (eq_trans (outcome_assoc _ _ _) Hput)). done.
Qed.

(** The options of a discovery. *)
Definition discover_items (reqs : list Z) : list item :=
  Opt MESSAGE_TYPE [DISCOVER] :: match reqs with [] => [Pad; Pad] | _ => [Opt PARAMETER_REQUEST_LIST reqs] end.
Definition discover_packet s (xid : Z) (reqs : list Z) : packet :=
  MkPkt broadcast_mac broadcast (leased_addr (ipconfig s))
    (client_message s xid 0 (encode (discover_items reqs) ++ 255 :: (if Nat.even (length reqs) then [] else [0]))).
Lemma put_discover H reqs tail :
  length H = 240%nat -> (length reqs < 256)%nat ->
  (b1 ← put_end (H ++ replicate (length reqs + 5) 0 ++ 0 :: tail) (Z.of_nat (length reqs) + 2 + 4); b2 ← put_param b1 0 MESSAGE_TYPE [DISCOVER];
   if Z.of_nat (length reqs) =? 0 then Done b2 else put_param b2 3 PARAMETER_REQUEST_LIST reqs)
  = Done (H ++ encode (discover_items reqs) ++ 255 :: tail).
Proof.
  intros HH Hr. rewrite put_end_at by (rewrite ?length_replicate; lia || done). cbn [mbind outcome_bind].
  replace (length reqs + 5)%nat with (3 + (2 + length reqs))%nat by lia. rewrite replicate_add, <- app_assoc.
  rewrite (put_param_at H [] [0; 0; 0] (replicate (2 + length reqs) 0 ++ 255 :: tail) _ [DISCOVER] HH eq_refl ltac:(simpl; lia)). cbn [mbind outcome_bind].
  destruct reqs as [|r reqs]; [done|]. destruct (Z.eqb_spec (Z.of_nat (length (r :: reqs))) 0) as [E|_]; [done|].
  rewrite (put_param_at H (encode1 (Opt MESSAGE_TYPE [DISCOVER])) (replicate (2 + length (r :: reqs)) 0) (255 :: tail) _ (r :: reqs) HH ltac:(by rewrite length_replicate) Hr).
  unfold discover_items. by rewrite !encode_cons, <- !app_assoc.
Qed.
Lemma discover_size n :
  Z.to_nat (up_to_nearest (total_dhcp_size (Z.of_nat n + 2 + 4)) 2 - dhcp_size) = (n + 5 + S (if Nat.even n then 0 else 1))%nat.
Proof.
  pose proof (up_to_nearest_spec (total_dhcp_size (Z.of_nat n + 2 + 4)) 2 ltac:(lia)) as [H1 H2]. unfold total_dhcp_size, dhcp_size in *.
  generalize dependent (up_to_nearest (Z.of_nat n + 2 + 4 + 282) 2). intros u H1 H2.
  destruct (Nat.even n) eqn:E; [apply Nat.even_spec in E as [k ->]|rewrite <- Nat.negb_odd, negb_false_iff, Nat.odd_spec in E; destruct E as [k ->]]; zlia.
Qed.
Lemma discover_run fuel reqs s w r :
  rand (world s) = (w, r) -> transaction_timers s !! u32 r = None -> length (mac_addr w) = 6%nat -> (length reqs < 256)%nat ->
  let s1 := with_timers (with_world s w) (<[u32 r := sys_time w]> (transaction_timers s)) in
  discover fuel reqs s = (n ← send (discover_packet s1 (u32 r) reqs); if n =? 0 then mret tt else throw runtime_error) s1.
Proof.
  intros Hrand Hx Hm Hr s1. unfold discover. rewrite (run_bind _ _ s (with_world s w) (u32 r)) by (unfold next_rand; by rewrite Hrand).
  rewrite (run_bind _ _ _ (with_world s w) (u32 r)).
  2: { destruct fuel; cbn [new_xid]; rewrite run_gets; change (transaction_timers (with_world s w)) with (transaction_timers s); by rewrite Hx. }
  rewrite (run_bind _ _ _ _ _ (create_packet_run _ _ _ _ _)), run_gets, run_modify, discover_size. cbn [body].
  unfold secs_of. change (transaction_timers (with_world s w)) with (transaction_timers s). rewrite Hx.
  pose proof (length_client_header s1 (u32 r) 0 Hm) as HH. unfold discover_packet, client_message in *. simpl ipconfig in *. simpl world in *.
  rewrite !(message_app _ _ _ _ _ _ _ (_ ++ _)), !(message_app _ _ _ _ _ _ _ (replicate _ _)), replicate_add.
  generalize dependent (message BOOTREQUEST (u32 r) 0 (leased_addr (ipconfig s)) 0 (dhcp_server_addr (ipconfig s)) (mac_addr w) []).
  intros H HH. pose proof (put_discover H reqs (replicate (if Nat.even (length reqs) then 0 else 1) 0) HH Hr) as Hput.
  rewrite !run_lift_bind, (run_lift _ _ _ _ (eq_trans (outcome_assoc _ _ _) Hput)). by destruct (Nat.even (length reqs)).
Qed.

(** The refusal of an address: the text stands where its option should begin. *)
Definition decline_items s (addr : Z) : list item :=
  [Opt MESSAGE_TYPE [DECLINE]; Opt SERVER_IDENTIFIER (be_bytes 4 (dhcp_server_addr (ipconfig s))); Opt REQUESTED_IP (be_bytes 4 addr)].
Definition decline_packet s (addr xid : Z) : packet :=
  MkPkt broadcast_mac broadcast (leased_addr (ipconfig s)) (client_message s xid 0 (encode (decline_items s addr) ++ must_decline_msg ++ [0; 0; 255])).
Lemma put_seconds op xid secs cip yip sip mac params n :
  wr (message op xid secs cip yip sip mac params) 8 (be_bytes 2 n) = Done (message op xid n cip yip sip mac params).
Proof.
  unfold message. erewrite (wr_at ([op; 1; 6; 0] ++ be_bytes 4 xid) (be_bytes 2 secs)); [|by rewrite <- app_assoc|done|done].
  by rewrite <- app_assoc.
Qed.
Lemma put_decline H server addr :
  length H = 240%nat ->
  (b1 ← put_end (H ++ replicate 68 0) 68; b2 ← put_param b1 0 MESSAGE_TYPE [DECLINE]; b3 ← put_param b2 3 SERVER_IDENTIFIER (be_bytes 4 server);
   b4 ← put_param b3 9 REQUESTED_IP (be_bytes 4 addr); b5 ← wr b4 (o_parameters + 15) [MESSAGE]; wr b5 (o_parameters + 15) must_decline_msg)
  = Done (H ++ encode [Opt MESSAGE_TYPE [DECLINE]; Opt SERVER_IDENTIFIER (be_bytes 4 server); Opt REQUESTED_IP (be_bytes 4 addr)]
            ++ must_decline_msg ++ [0; 0; 255]).
Proof.
  intros HH. pose proof (length_be_bytes 4 server) as Hs. pose proof (length_be_bytes 4 addr) as Ha.
  generalize dependent (be_bytes 4 server). generalize dependent (be_bytes 4 addr). intros la Ha ls Hs.
  change (replicate 68 0) with (replicate 67 0 ++ [0]). rewrite (put_end_at H (replicate 67 0) 0 [] 68 HH eq_refl). cbn [mbind outcome_bind].
  rewrite (put_param_at H [] [0; 0; 0] (replicate 64 0 ++ [255]) _ [DECLINE] HH eq_refl ltac:(simpl; lia)). cbn [mbind outcome_bind].
  rewrite (put_param_at H (encode1 (Opt MESSAGE_TYPE [DECLINE])) (replicate 6 0) (replicate 58 0 ++ [255]) _ ls HH ltac:(by rewrite Hs) ltac:(lia)).
  cbn [mbind outcome_bind]. rewrite (app_assoc (encode1 (Opt MESSAGE_TYPE _))).
  replace 9 with (Z.of_nat (length (encode1 (Opt MESSAGE_TYPE [DECLINE]) ++ encode1 (Opt SERVER_IDENTIFIER ls)))) by (rewrite length_app; simpl; rewrite Hs; lia).
  rewrite (put_param_at H _ (replicate 6 0) (replicate 52 0 ++ [255]) _ la HH ltac:(by rewrite Ha) ltac:(lia)). cbn [mbind outcome_bind].
  set (pre := H ++ (encode1 (Opt MESSAGE_TYPE [DECLINE]) ++ encode1 (Opt SERVER_IDENTIFIER ls)) ++ encode1 (Opt REQUESTED_IP la)).
  assert (length pre = 255%nat) as Hp by (unfold pre; rewrite !length_app, HH; simpl; lia).
  rewrite (wr_at pre [0] (replicate 51 0 ++ [255])); [|unfold pre; by rewrite <- !app_assoc|by rewrite Hp|done].
  cbn [mbind outcome_bind].
  rewrite (wr_at pre ([MESSAGE] ++ replicate 49 0) [0; 0; 255]) by (rewrite ?Hp; done).
  unfold pre. by rewrite !encode_cons, <- !app_assoc.
Qed.
Lemma decline_run addr xid s : length (mac_addr (world s)) = 6%nat -> decline addr xid s = send (decline_packet s addr xid) s.
Proof.
  intros Hm. unfold decline. rewrite run_get_cfg, (run_bind _ _ _ _ _ (create_packet_run _ _ _ _ s)). cbn [body].
  pose proof (length_client_header s xid 0 Hm) as HH. unfold decline_packet, decline_items, client_message in *.
  rewrite (run_lift _ _ _ _ (put_seconds _ _ _ _ _ _ _ _ 0)).
  rewrite !(message_app _ _ _ _ _ _ _ (_ ++ _)), !(message_app _ _ _ _ _ _ _ (replicate _ _)).
  generalize dependent (message BOOTREQUEST xid 0 (leased_addr (ipconfig s)) 0 (dhcp_server_addr (ipconfig s)) (mac_addr (world s)) []).
  intros H HH. pose proof (put_decline H (dhcp_server_addr (ipconfig s)) addr HH) as Hput.
  rewrite !run_lift_bind, !outcome_assoc. rewrite (run_lift _ _ _ _ Hput). done.
Qed.

(** ** Replies of a server *)
Definition server_reply (t xid cip yip sip : Z) (mac : list Z) (items : list item) (rest : list Z) : list Z :=
  message 2 xid 0 cip yip sip mac (encode (Opt MESSAGE_TYPE [t] :: items) ++ 255 :: rest).
Section Reply.
Context (fuel : nat) (xid cip yip sip : Z) (mac : list Z) (items : list item) (rest : list Z).
Hypothesis Hxid : u32_ok xid.
Hypothesis Hyip : u32_ok yip.
Hypothesis Hsip : u32_ok sip.
Hypothesis Hmac : length mac = 6%nat.
Hypothesis Hitems : forallb item_ok items = true.
Hypothesis Hfuel : (S (length items) <= fuel)%nat.
Local Notation reply t := (server_reply t xid cip yip sip mac items rest).

Lemma receive_reply t s :
  receive fuel (reply t) s
  = (if t =? OFFER then process_offer_packet fuel (reply t) else if t =? NAK then transition_state fuel INIT
     else if t =? ACK then process_ack_packet fuel (reply t) else mret 0) s.
Proof.
  unfold receive. rewrite (run_lift (find_type _ _ _) (Some t)); [reflexivity|].
  unfold server_reply. rewrite message_app. pose proof (length_message 2 xid 0 cip yip sip mac Hmac) as HH.
  generalize dependent (message 2 xid 0 cip yip sip mac []). intros H HH. destruct fuel as [|f]; [lia|].
  pose proof (encoded_option_at H MESSAGE_TYPE [t] (encode items ++ 255 :: rest)) as [H1 _ _ _ H2].
  rewrite encode_cons, <- app_assoc. cbn [find_type]. change o_parameters with (Z.of_nat 240). rewrite <- HH, H1. cbn [mbind outcome_bind].
  change (MESSAGE_TYPE =? END_OF_TRANSMISSION) with false. change (MESSAGE_TYPE =? PAD) with false. rewrite Z.eqb_refl. cbv iota.
  rewrite H2 by (simpl; lia). cbn [mbind outcome_bind]. simpl take. by rewrite be_single.
Qed.
Lemma read_reply t s : read_parameters fuel (reply t) s = Done (with_cfg s (foldl apply_item (ipconfig s) items), inr 0).
Proof.
  unfold server_reply. rewrite message_app.
  rewrite (read_parameters_items fuel _ (Opt MESSAGE_TYPE [t] :: items) rest s (length_message _ _ _ _ _ _ _ Hmac) ltac:(by simpl) Hfuel). done.
Qed.
Lemma reply_xid t : u32_at (reply t) o_xid = Done xid.
Proof. by apply message_xid. Qed.
Lemma reply_your_ip t : u32_at (reply t) o_your_ip = Done yip.
Proof. by apply message_your_ip. Qed.
Lemma reply_server_ip t : u32_at (reply t) o_server_ip = Done sip.
Proof. by apply message_server_ip. Qed.

(** An ACK is taken in every state. *)
Definition acked s : ipv4_config := foldl apply_item (set_lease (ipconfig s) yip (sys_time (world s))) items.
Lemma receive_ack s :
  lease_duration (acked s) <> 0 ->
  receive fuel (reply ACK) s = Done (MkClient (set_state (default_times (acked s)) BOUND) (delete xid (transaction_timers s)) 0 (world s), inr 0).
Proof.
  intros Hd. rewrite receive_reply. change (ACK =? OFFER) with false. change (ACK =? NAK) with false. change (ACK =? ACK) with true. cbv iota.
  unfold process_ack_packet. rewrite run_gets, reply_your_ip, run_lift_done, run_mod_cfg, (run_bind _ _ _ _ _ (read_reply _ _)).
  change (negb (0 =? 0)) with false. cbv iota. rewrite run_get_cfg, !cfg_with. fold (acked s).
  destruct (Z.eqb_spec (lease_duration (acked s)) 0) as [E|_]; [done|]. rewrite run_mod_cfg.
  unfold transition_state. rewrite run_assoc. rewrite run_mod_cfg.
  erewrite (run_bind (catch _ _)); [|reflexivity]. rewrite reply_xid, run_lift_done, run_modify. done.
Qed.

(** An OFFER of a transaction that the client began. *)
Definition offered s : ipv4_config := foldl apply_item (set_state (set_server (ipconfig s) sip) SELECTING) items.
Lemma receive_offer s w present :
  current_state (ipconfig s) = INIT -> is_Some (transaction_timers s !! xid) ->
  check_presence (offered s) (world s) yip = Done (w, inr present) ->
  let s1 := with_world (with_cfg s (offered s)) w in
  receive fuel (reply OFFER) s
  = (if present : bool then
       err ← decline yip xid;
       if negb (err =? 0) then mret err else
       catch (discover fuel [];; mret 0) (fun e => match e with runtime_error => Some (mret (- ENETDOWN)) | _ => None end)
     else request yip xid) s1.
Proof.
  intros Hst Hx Hp s1. rewrite receive_reply. change (OFFER =? OFFER) with true. cbv iota.
  unfold process_offer_packet. rewrite run_get_cfg, run_gets, reply_xid, run_lift_done, Hst, !bool_decide_true by done.
  change (negb true || negb true) with false. cbv iota. rewrite reply_your_ip, run_lift_done, reply_server_ip, run_lift_done, run_mod_cfg.
  unfold transition_state. rewrite run_assoc, run_mod_cfg. erewrite (run_bind (catch _ _)); [|reflexivity].
  rewrite (run_bind _ _ _ _ _ (read_reply _ _)). change (negb (0 =? 0)) with false. cbv iota.
  erewrite (run_bind (in_world _)); [|unfold in_world; rewrite !cfg_with; fold (offered s); cbn [world with_cfg]; by rewrite Hp]. done.
Qed.
(** Any other OFFER changes nothing. *)
Lemma receive_offer_ignored s :
  current_state (ipconfig s) <> INIT \/ transaction_timers s !! xid = None -> receive fuel (reply OFFER) s = Done (s, inr 0).
Proof.
  intros Hst. rewrite receive_reply. change (OFFER =? OFFER) with true. cbv iota.
  unfold process_offer_packet. rewrite run_get_cfg, run_gets, reply_xid, run_lift_done.
  destruct Hst as [Hst|Hx]; [by rewrite (bool_decide_false _ Hst)|].
  rewrite Hx, (bool_decide_false (is_Some None)) by (by intros []). by rewrite orb_true_r.
Qed.
End Reply.

(** ** What the options of a message do not change *)
Lemma apply_items_lease items c a t : foldl apply_item (set_lease c a t) items = set_lease (foldl apply_item c items) a t.
Proof.
  revert c. induction items as [|i items IH]; intros c; simpl; [done|]. rewrite <- IH. f_equal. destruct i as [|k d]; [done|].
  unfold apply_item. change (not_bound (set_lease c a t)) with (not_bound c). change (dhcp_server_addr (set_lease c a t)) with (dhcp_server_addr c).
  destruct (not_bound c), (dhcp_server_addr c =? 0); repeat case_match; done.
Qed.
Lemma apply_items_state items c : current_state (foldl apply_item c items) = current_state c.
Proof. revert c. induction items as [|i items IH]; intros c; simpl; [done|]. rewrite IH. destruct i; simpl; [done|]. repeat case_match; done. Qed.
Lemma apply_items_server items c : dhcp_server_addr c <> 0 -> dhcp_server_addr (foldl apply_item c items) = dhcp_server_addr c.
Proof.
  revert c. induction items as [|i items IH]; intros c Hc; simpl; [done|].
  assert (dhcp_server_addr (apply_item c i) = dhcp_server_addr c) as E.
  { destruct i; simpl; [done|]. apply Z.eqb_neq in Hc. rewrite Hc. repeat case_match; done. }
  rewrite IH by congruence. done.
Qed.
Lemma apply_items_bound items c : current_state c = BOUND -> lease_duration (foldl apply_item c items) = lease_duration c.
Proof.
  revert c. induction items as [|i items IH]; intros c Hc; simpl; [done|].
  assert (not_bound c = false) as E by (unfold not_bound; by rewrite bool_decide_true).
  rewrite IH; destruct i; simpl; try done; rewrite ?E; repeat case_match; done.
Qed.
Lemma default_times_keeps c :
  leased_addr (default_times c) = leased_addr c /\ lease_duration (default_times c) = lease_duration c
  /\ lease_acquired_time (default_times c) = lease_acquired_time c /\ dhcp_server_addr (default_times c) = dhcp_server_addr c.
Proof. unfold default_times. by case_match. Qed.

Lemma offer_then_ack fuel s xid cip yip sip mac items rest items' rest' w w' :
  u32_ok xid -> u32_ok yip -> u32_ok sip -> sip <> 0 -> length mac = 6%nat ->
  forallb item_ok items = true -> forallb item_ok items' = true -> (S (length items) <= fuel)%nat -> (S (length items') <= fuel)%nat ->
  current_state (ipconfig s) = INIT -> is_Some (transaction_timers s !! xid) ->
  check_presence (offered sip items s) (world s) yip = Done (w, inr false) -> length (mac_addr w) = 6%nat ->
  transmit w (request_packet (with_world (with_cfg s (offered sip items s)) w) yip xid) = (w', 0) ->
  lease_duration (foldl apply_item (offered sip items s) items') <> 0 ->
  exists s2,
    (_ ← receive fuel (server_reply OFFER xid cip yip sip mac items rest); receive fuel (server_reply ACK xid cip yip sip mac items' rest')) s = Done (s2, inr 0)
    /\ world s2 = w' /\ transaction_timers s2 = delete xid (transaction_timers s)
    /\ current_state (ipconfig s2) = BOUND /\ leased_addr (ipconfig s2) = yip /\ dhcp_server_addr (ipconfig s2) = sip
    /\ lease_acquired_time (ipconfig s2) = sys_time w'
    /\ lease_duration (ipconfig s2) = lease_duration (foldl apply_item (offered sip items s) items').
Proof.
  intros Hx Hy Hs Hs0 Hmac Hi Hi' Hf Hf' Hst Ht Hp Hw Htx Hd.
  set (s1 := with_world (with_cfg s (offered sip items s)) w) in *.
  assert (current_state (offered sip items s) = SELECTING) as Hsel by (unfold offered; by rewrite apply_items_state).
  erewrite run_bind.
  2: { rewrite (receive_offer fuel xid cip yip sip mac items rest Hx Hy Hs Hmac Hi Hf s w false Hst Ht Hp). fold s1.
       rewrite request_selecting by done. unfold send. change (world s1) with w. by rewrite Htx. }
  assert (acked yip items' (with_world s1 w') = set_lease (foldl apply_item (offered sip items s) items') yip (sys_time w')) as E by apply apply_items_lease.
  rewrite (receive_ack fuel xid cip yip sip mac items' rest' Hx Hy Hmac Hi' Hf') by (by rewrite E).
  eexists. split; [done|]. rewrite E. cbn [ipconfig].
  destruct (default_times_keeps (set_lease (foldl apply_item (offered sip items s) items') yip (sys_time w'))) as (E1 & E2 & E3 & E4).
  split_and!; try done. change (dhcp_server_addr (set_state ?c _)) with (dhcp_server_addr c). rewrite E4. simpl.
  assert (dhcp_server_addr (offered sip items s) = sip) as E5 by (unfold offered; by rewrite apply_items_server).
  rewrite apply_items_server; congruence.
Qed.
(** C26: A new client obtains a lease.  In INIT, an OFFER for a transaction that it began, for
    an address that no other host has, makes it broadcast one request with the message type,
    the server and the address offered; the ACK that follows binds it to that address from
    then on, for the time that the options of the two messages give, keeps the server, and
    ends the transaction.  The message type comes first in both, and the server's address in
    them is not zero. *)
Theorem lease_acquired fuel s xid cip yip sip mac items rest items' rest' w w' :
  u32_ok xid -> u32_ok yip -> u32_ok sip -> sip <> 0 -> length mac = 6%nat ->
  forallb item_ok items = true -> forallb item_ok items' = true -> (S (length items) <= fuel)%nat -> (S (length items') <= fuel)%nat ->
  current_state (ipconfig s) = INIT -> is_Some (transaction_timers s !! xid) ->
  check_presence (offered sip items s) (world s) yip = Done (w, inr false) -> length (mac_addr w) = 6%nat ->
  transmit w (request_packet (with_world (with_cfg s (offered sip items s)) w) yip xid) = (w', 0) ->
  lease_duration (foldl apply_item (offered sip items s) items') <> 0 ->
  exists s2,
    (_ ← receive fuel (server_reply OFFER xid cip yip sip mac items rest); receive fuel (server_reply ACK xid cip yip sip mac items' rest')) s = Done (s2, inr 0)
    /\ world s2 = w' /\ transaction_timers s2 = delete xid (transaction_timers s)
    /\ current_state (ipconfig s2) = BOUND /\ leased_addr (ipconfig s2) = yip /\ dhcp_server_addr (ipconfig s2) = sip
    /\ lease_acquired_time (ipconfig s2) = sys_time w'
    /\ lease_duration (ipconfig s2) = lease_duration (foldl apply_item (offered sip items s) items').
Proof. apply offer_then_ack. Qed.

(** A client that has a lease takes an ACK that nobody asked for: whatever the transaction
    of the message, also one that the client never began, it makes the client use the address
    in the message.  Only the time of the lease is kept. *)
Theorem unsolicited_ack_rebinds fuel s xid cip yip sip mac items rest :
  u32_ok xid -> u32_ok yip -> length mac = 6%nat -> forallb item_ok items = true -> (S (length items) <= fuel)%nat ->
  current_state (ipconfig s) = BOUND -> lease_duration (ipconfig s) <> 0 -> transaction_timers s !! xid = None ->
  exists s2, receive fuel (server_reply ACK xid cip yip sip mac items rest) s = Done (s2, inr 0)
    /\ leased_addr (ipconfig s2) = yip /\ current_state (ipconfig s2) = BOUND /\ lease_duration (ipconfig s2) = lease_duration (ipconfig s).
Proof.
  intros Hx Hy Hmac Hi Hf Hst Hd Hn.
  assert (acked yip items s = set_lease (foldl apply_item (ipconfig s) items) yip (sys_time (world s))) as E by apply apply_items_lease.
  assert (lease_duration (acked yip items s) = lease_duration (ipconfig s)) as Hk by (rewrite E; simpl; by apply apply_items_bound).
  rewrite (receive_ack fuel xid cip yip sip mac items rest Hx Hy Hmac Hi Hf) by congruence.
  eexists. split; [done|]. cbn [ipconfig]. destruct (default_times_keeps (acked yip items s)) as (E1 & E2 & _).
  split_and!; [|done|].
  - change (leased_addr (set_state ?c _)) with (leased_addr c). by rewrite E1, E.
  - change (lease_duration (set_state ?c _)) with (lease_duration c). congruence.
Qed.

(** C28: A client that refuses an address does not get another.  When the address offered is in
    use, the client sends the refusal and begins a new discovery, but it stays in SELECTING,
    and there every later OFFER, also one that answers the new discovery, is dropped without a
    word. *)
Theorem declined_client_ignores_offers fuel s xid cip yip sip mac items rest w w1 w2 w3 r :
  u32_ok xid -> u32_ok yip -> u32_ok sip -> length mac = 6%nat -> forallb item_ok items = true -> (S (length items) <= fuel)%nat ->
  current_state (ipconfig s) = INIT -> is_Some (transaction_timers s !! xid) ->
  check_presence (offered sip items s) (world s) yip = Done (w, inr true) -> length (mac_addr w) = 6%nat ->
  transmit w (decline_packet (with_world (with_cfg s (offered sip items s)) w) yip xid) = (w1, 0) ->
  rand w1 = (w2, r) -> transaction_timers s !! u32 r = None -> length (mac_addr w2) = 6%nat ->
  transmit w2 (discover_packet (with_world (with_cfg s (offered sip items s)) w2) (u32 r) []) = (w3, 0) ->
  exists s2, receive fuel (server_reply OFFER xid cip yip sip mac items rest) s = Done (s2, inr 0)
    /\ current_state (ipconfig s2) = SELECTING /\ is_Some (transaction_timers s2 !! u32 r)
    /\ forall xid' cip' yip' sip' mac' items' rest',
         u32_ok xid' -> length mac' = 6%nat -> forallb item_ok items' = true -> (S (length items') <= fuel)%nat ->
         receive fuel (server_reply OFFER xid' cip' yip' sip' mac' items' rest') s2 = Done (s2, inr 0).
Proof.
  intros Hx Hy Hs Hmac Hi Hf Hst Ht Hp Hw Htx Hr Hn Hw2 Htx2.
  set (s1 := with_world (with_cfg s (offered sip items s)) w) in *.
  rewrite (receive_offer fuel xid cip yip sip mac items rest Hx Hy Hs Hmac Hi Hf s w true Hst Ht Hp). fold s1. cbv iota.
  rewrite (run_bind _ _ s1 (with_world s1 w1) 0) by (rewrite decline_run by done; unfold send; change (world s1) with w; by rewrite Htx).
  change (negb (0 =? 0)) with false. cbv iota.
  rewrite (run_catch _ _ (with_world s1 w1) (with_world (with_timers (with_world s1 w2) (<[u32 r := sys_time w2]> (transaction_timers s))) w3) (inr 0)).
  2: { erewrite run_bind; [reflexivity|]. rewrite (discover_run fuel [] (with_world s1 w1) w2 r Hr Hn Hw2 ltac:(simpl; lia)).
       rewrite (run_bind _ _ _ (with_world (with_timers (with_world s1 w2) (<[u32 r := sys_time w2]> (transaction_timers s))) w3) 0); [done|]. unfold send.
       change (transmit _ _) with (transmit w2 (discover_packet (with_world (with_cfg s (offered sip items s)) w2) (u32 r) [])). by rewrite Htx2. }
  assert (current_state (offered sip items s) = SELECTING) as Hsel by (unfold offered; by rewrite apply_items_state).
  eexists. split; [done|]. split; [done|]. split; [cbn [transaction_timers with_world with_timers]; by rewrite lookup_insert_eq|].
  intros xid' cip' yip' sip' mac' items' rest' Hx' Hmac' Hi' Hf'.
  apply receive_offer_ignored; try done. left. cbn [ipconfig with_world with_timers with_cfg s1]. by rewrite Hsel.
Qed.

(** A message can stop the client for good: when an option of length zero stands before
    the message type, [receive] reads that option for ever.  (It goes on by the length of the
    data alone, not by the two bytes of the type and the length.) *)
Theorem empty_option_hangs_receive fuel hdr t rest s :
  length hdr = 240%nat -> t <> PAD -> t <> MESSAGE_TYPE -> t <> END_OF_TRANSMISSION -> receive fuel (hdr ++ t :: 0 :: rest) s = NoFuel.
Proof.
  intros Hh Hp Hm He. unfold receive.
  assert (find_type fuel (hdr ++ t :: 0 :: rest) o_parameters = NoFuel) as E; [|unfold lift, mbind, SE_bind; rewrite E; done].
  change o_parameters with (Z.of_nat 240). rewrite <- Hh.
  pose proof (encoded_option_at hdr t [] rest) as [H1 H2 _ _ _]. cbn [encode1 app length] in H1, H2.
  change (Z.of_nat 0) with 0 in H1, H2.
  apply Z.eqb_neq in Hp, Hm, He. induction fuel as [|f IH]; cbn [find_type]; rewrite H1; cbn [mbind outcome_bind]; rewrite He; [done|].
  rewrite Hp, Hm. cbv iota. rewrite H2. cbn [mbind outcome_bind]. rewrite Z.add_0_r. apply IH.
Qed.
(** The handlers themselves stop at an option of 254 bytes, whose size does not fit the byte
    that they go on by. *)
Lemma long_option_hangs_handler fuel hdr d rest s :
  length hdr = 240%nat -> length d = 254%nat -> read_parameters fuel (hdr ++ encode1 (Opt DOMAIN_NAME d) ++ rest) s = NoFuel.
Proof.
  intros Hh Hd. pose proof (encoded_option_at hdr DOMAIN_NAME d rest) as [H1 H2 _ _ _]. rewrite Hh in H1, H2. rewrite Hd in H2.
  unfold read_parameters, catch. enough (process_parameters fuel (hdr ++ encode1 (Opt DOMAIN_NAME d) ++ rest) o_parameters s = NoFuel) as E.
  { unfold mbind, SE_bind. rewrite E. done. }
  change o_parameters with (Z.of_nat 240). revert H1 H2. generalize (hdr ++ encode1 (Opt DOMAIN_NAME d) ++ rest). intros b H1 H2.
  induction fuel as [|f IH]; [cbn [process_parameters]; by rewrite H1, run_lift_done|]. rewrite (process_parameters_step f b _ DOMAIN_NAME) by done.
  rewrite (run_bind _ _ s s 0); [apply IH|]. unfold process_packet_parameter. rewrite H1, run_lift_done. change (if DOMAIN_NAME =? PAD then ?a else ?b) with b.
  change (if DOMAIN_NAME =? END_OF_TRANSMISSION then ?a else ?b) with b. rewrite H2. done.
Qed.
End Client.

(** ** Witnesses *)

(** A network that keeps what is sent; an address is in use or not. *)
Definition log : Type := bool * list packet.
#[global] Instance log_env : NetEnv log := {|
  transmit := fun w p => ((w.1, w.2 ++ [p]), 0);
  rand := fun w => (w, 77);
  sys_time := fun _ => 5000;
  check_presence := fun _ w _ => Done (w, inr w.1);
  resolve_mac := fun _ w _ => Done (w, inr (replicate 6 9));
  mac_addr := fun _ => [2; 0; 0; 0; 0; 1] |}.
Definition new_client (w : log) : client log := MkClient reset_config {[ 41 := 4990 ]} 0 w.
Definition bound_client (w : log) : client log := MkClient (set_times (set_state (set_lease reset_config 0x0A000005 100) BOUND) 3600 1800 3150) ∅ 0 w.
Definition offer_items : list item := [Opt SUBNET_MASK [255; 255; 255; 0]; Pad; Opt ROUTER [10; 0; 0; 1]; Opt IP_LEASE_TIME [0; 0; 14; 16]].

Lemma lease_acquired_witness :
  exists s2,
    (_ ← receive 9 (server_reply OFFER 41 0 0x0A000007 0x0A000001 (replicate 6 1) offer_items []);
     receive 9 (server_reply ACK 41 0 0x0A000007 0x0A000001 (replicate 6 1) offer_items [])) (new_client (false, [])) = Done (s2, inr 0)
    /\ leased_addr (ipconfig s2) = 0x0A000007 /\ lease_duration (ipconfig s2) = 3600.
Proof.
  destruct (lease_acquired 9 (new_client (false, [])) 41 0 0x0A000007 0x0A000001 (replicate 6 1) offer_items [] offer_items [] (false, [])
    (false, [request_packet (with_cfg (new_client (false, [])) (offered 0x0A000001 offer_items (new_client (false, [])))) 0x0A000007 41]))
    as (s2 & E & _ & _ & _ & H1 & _ & _ & H2); [unfold u32_ok; lia..|done|done|done|done|simpl; lia|simpl; lia|done|by eexists|done|done|done|by vm_compute|].
  exists s2. rewrite H2. split_and!; [exact E|exact H1|reflexivity].
Defined.
Lemma unsolicited_ack_rebinds_witness :
  exists s2, receive 9 (server_reply ACK 1234 0 0x0A000063 0 (replicate 6 1) offer_items []) (bound_client (false, [])) = Done (s2, inr 0)
    /\ leased_addr (ipconfig s2) = 0x0A000063.
Proof.
  destruct (unsolicited_ack_rebinds 9 (bound_client (false, [])) 1234 0 0x0A000063 0 (replicate 6 1) offer_items []) as (s2 & E & H & _);
    [unfold u32_ok; lia..|done|done|simpl; lia|done|done|done|].
  by exists s2.
Defined.
Lemma declined_client_ignores_offers_witness :
  exists s2, receive 9 (server_reply OFFER 41 0 0x0A000007 0x0A000001 (replicate 6 1) offer_items []) (new_client (true, [])) = Done (s2, inr 0)
    /\ receive 9 (server_reply OFFER 77 0 0x0A000008 0x0A000001 (replicate 6 1) offer_items []) s2 = Done (s2, inr 0).
Proof.
  set (s1 := with_cfg (new_client (true, [])) (offered 0x0A000001 offer_items (new_client (true, [])))).
  destruct (declined_client_ignores_offers 9 (new_client (true, [])) 41 0 0x0A000007 0x0A000001 (replicate 6 1) offer_items [] (true, [])
    (true, [decline_packet s1 0x0A000007 41]) (true, [decline_packet s1 0x0A000007 41])
    (true, [decline_packet s1 0x0A000007 41; discover_packet (with_world s1 (true, [decline_packet s1 0x0A000007 41])) 77 []]) 77)
    as (s2 & E & _ & _ & H); [unfold u32_ok; lia..|done|done|simpl; lia|done|by eexists|done|done|done|done|done|done|done|].
  exists s2. split; [exact E|]. apply H; [unfold u32_ok; lia|done|done|simpl; lia].
Defined.
Lemma empty_option_hangs_receive_witness : receive 1000 (replicate 240 0 ++ [12; 0; 53; 1; 2; 255]) (new_client (false, [])) = NoFuel.
Proof. apply (empty_option_hangs_receive 1000 (replicate 240 0) 12 [53; 1; 2; 255]); [done|unfold PAD, MESSAGE_TYPE, END_OF_TRANSMISSION; lia..]. Defined.
End DhcpProps.
