(* ===== verification/Arp.v ===== *)
(** Address resolution (kernel/net/protocol/arp.cpp, arp.hpp, and [abstract_ip_resolver] of
    net_abstract.cpp), and the interface that it gives to the DHCP client.

    A frame is the record of the fields that the code reads or writes.  The constructors that
    the handler uses leave three fields of a new frame as they were in memory; what was there
    is part of the link below, with the frames that arrive during a wait. *)
From S2P Require Import Prelude StateExn Dhcp.
Import Dhcp.

Module Arp.

Record arpv4_packet := MkArp {
  destination_mac : list Z;
  source_mac : list Z;
  opcode : Z;
  src_hw : list Z;
  src_pr : Z;
  dst_hw : list Z;
  dst_pr : Z }.
#[global] Instance arpv4_packet_eq_dec : EqDecision arpv4_packet.
Proof. solve_decision. Defined.
Definition arp_req : Z := 1.
Definition arp_res : Z := 2.
Definition empty_mac : list Z := replicate 6 0.
Definition with_opcode (p : arpv4_packet) (x : Z) : arpv4_packet := MkArp (destination_mac p) (source_mac p) x (src_hw p) (src_pr p) (dst_hw p) (dst_pr p).
Definition with_src_pr (p : arpv4_packet) (x : Z) : arpv4_packet := MkArp (destination_mac p) (source_mac p) (opcode p) (src_hw p) x (dst_hw p) (dst_pr p).
Definition with_dst_pr (p : arpv4_packet) (x : Z) : arpv4_packet := MkArp (destination_mac p) (source_mac p) (opcode p) (src_hw p) (src_pr p) (dst_hw p) x.
(** The constructor from an Ethernet header, in memory that holds [m]. *)
Definition packet_of_header (dst src : list Z) (m : Z * Z * Z) : arpv4_packet := let '(o, s, d) := m in MkArp dst src o src s dst d.

(** The link below, with the state [L]. *)
Class Link (L : Type) := {
  link_mac : L -> list Z;
  link_tx : L -> arpv4_packet -> L * Z;                              (* a frame of this protocol *)
  link_tx_ip : L -> Dhcp.packet -> L * Z;                            (* a datagram *)
  link_memory : L -> L * (Z * Z * Z);                                (* what a new frame holds *)
  link_wait : L -> L * list arpv4_packet;                            (* frames that arrive in a wait *)
  link_rand : L -> L * Z;
  link_time : L -> Z }.

Record arp (L : Type) := MkArpSt { previously_resolved : gmap Z (list Z); link : L }.
Arguments MkArpSt {L} previously_resolved link.
Arguments previously_resolved {L} a.
Arguments link {L} a.

Section Handler.
Context {L : Type} `{!Link L}.
Implicit Types (s : arp L) (p : arpv4_packet).
Local Notation M := (SE (arp L) exn).
Definition set_link s (l : L) : arp L := MkArpSt (previously_resolved s) l.
Definition transmit_frame p : M Z := fun s => let '(l, r) := link_tx (link s) p in Done (set_link s l, inr r).
Definition new_frame (dst : list Z) : M arpv4_packet := fun s =>
  let '(l, m) := link_memory (link s) in Done (set_link s l, inr (packet_of_header dst (link_mac l) m)).
Definition remember (addr : Z) (mac : list Z) : M unit := modify (fun s => MkArpSt (<[addr := mac]> (previously_resolved s)) (link s)).
(** [receive]: the frame that arrived, as the handler leaves it, and the result. *)
Definition receive (c : ipv4_config) (pkt : arpv4_packet) : M (arpv4_packet * Z) :=
  (if src_pr pkt =? 0 then mret tt else remember (src_pr pkt) (src_hw pkt));;
  if opcode pkt =? arp_res then mret (pkt, 0) else
  if negb (opcode pkt =? arp_req) then mret (pkt, - EPROTO) else
  l ← gets link;
  if (leased_addr c =? 0) || negb (bool_decide (link_mac l = dst_hw pkt)) then mret (pkt, 0) else
  response ← new_frame (src_hw pkt);
  let pkt1 := with_src_pr pkt (leased_addr c) in
  let pkt2 := with_dst_pr pkt1 (src_pr pkt1) in
  let pkt3 := with_opcode pkt2 arp_res in
  r ← transmit_frame response; mret (pkt3, r).
(** The interrupts of a wait. *)
Fixpoint receive_all (c : ipv4_config) (l : list arpv4_packet) : M unit :=
  match l with [] => mret tt | p :: l => receive c p;; receive_all c l end.
Definition delay_us (c : ipv4_config) : M unit :=
  l ← (fun s => let '(l, ps) := link_wait (link s) in Done (set_link s l, inr ps)); receive_all c l.
Definition check_presence (c : ipv4_config) (addr : Z) : M bool :=
  pkt ← new_frame empty_mac;
  let pkt1 := with_opcode (with_dst_pr pkt addr) arp_req in
  let pkt2 := with_src_pr pkt1 (if bool_decide (current_state c = BOUND) then leased_addr c else 0) in
  r ← transmit_frame pkt2;
  if negb (r =? 0) then throw runtime_error else
  delay_us c;;
  gets (fun s => bool_decide (is_Some (previously_resolved s !! addr))).
(** [await_result]: calls until one holds, at most [n]. *)
Fixpoint await_result (n : nat) (fn : M bool) : M bool :=
  match n with O => mret false | S n => b ← fn; if b : bool then mret true else await_result n fn end.
Definition max_wait : nat := Z.to_nat 10000000.
(** [previously_resolved[addr]], which makes an entry when there is none. *)
Definition resolved (addr : Z) : M (list Z) := fun s =>
  match previously_resolved s !! addr with
  | Some m => Done (s, inr m)
  | None => Done (MkArpSt (<[addr := empty_mac]> (previously_resolved s)) (link s), inr empty_mac)
  end.
Definition resolve (c : ipv4_config) (addr : Z) : M (list Z) :=
  ok ← await_result max_wait (check_presence c addr);
  if ok : bool then resolved addr else throw runtime_error.
(** [operator[]] of the resolver. *)
Definition lookup_mac (c : ipv4_config) (addr : Z) : M (list Z) :=
  t ← gets previously_resolved;
  if bool_decide (is_Some (t !! addr)) then resolved addr else resolve c addr.

(** The interface of the DHCP client over this handler. *)
#[global] Instance arp_env : NetEnv (arp L) := {|
  transmit := fun s d => let '(l, r) := link_tx_ip (link s) d in (set_link s l, r);
  rand := fun s => let '(l, r) := link_rand (link s) in (set_link s l, r);
  sys_time := fun s => link_time (link s);
  Dhcp.check_presence := fun c s addr => check_presence c addr s;
  resolve_mac := fun c s addr => lookup_mac c addr s;
  mac_addr := fun s => link_mac (link s) |}.
End Handler.
End Arp.
