(* ===== verification/ArpProps.v ===== *)
(** Properties of address resolution (Arp.v), alone and under the DHCP client (Dhcp.v), on a
    network whose hosts all run this code. *)
From S2P Require Import Prelude StateExn Bytes Dhcp DhcpProps Arp.
Import Bytes Dhcp DhcpProps Arp.

Module ArpProps.

(** ** Receiving a frame *)
Section Handler.
Context {L : Type} `{!Link L}.
Implicit Types (s : arp L) (p : arpv4_packet) (c : ipv4_config).
(** The cache after a frame. *)
Definition learn (m : gmap Z (list Z)) p : gmap Z (list Z) := if src_pr p =? 0 then m else <[src_pr p := src_hw p]> m.
Definition for_us (l : L) c p : bool := (opcode p =? arp_req) && negb (leased_addr c =? 0) && bool_decide (link_mac l = dst_hw p).
Lemma receive_quiet c p s :
  for_us (link s) c p = false ->
  Arp.receive c p s = Done (MkArpSt (learn (previously_resolved s) p) (link s), inr (p, if existsb (Z.eqb (opcode p)) [arp_req; arp_res] then 0 else - EPROTO)).
Proof.
  intros H. unfold Arp.receive, for_us, learn in *.
  rewrite (run_bind _ _ s (MkArpSt (if src_pr p =? 0 then previously_resolved s else <[src_pr p := src_hw p]> (previously_resolved s)) (link s)) tt).
  2: { destruct (src_pr p =? 0); by destruct s. }
  cbn [existsb]. destruct (opcode p =? arp_res); [by rewrite orb_true_r|].
  destruct (opcode p =? arp_req); [|done]. cbn [negb]. rewrite run_gets. cbn [link].
  rewrite andb_true_l in H.
  destruct (leased_addr c =? 0); [done|]. destruct (bool_decide _); done.
Qed.
Lemma receive_for_us c p s l1 m l2 r :
  for_us (link s) c p = true -> link_memory (link s) = (l1, m) -> link_tx l1 (packet_of_header (src_hw p) (link_mac l1) m) = (l2, r) ->
  exists p', Arp.receive c p s = Done (MkArpSt (learn (previously_resolved s) p) l2, inr (p', r)).
Proof.
  intros H Hm Ht. unfold for_us in H. rewrite !andb_true_iff in H. destruct H as [[Ho Hl] Hd]. apply Z.eqb_eq in Ho. apply negb_true_iff in Hl.
  eexists. unfold Arp.receive, learn.
  rewrite (run_bind _ _ s (MkArpSt (if src_pr p =? 0 then previously_resolved s else <[src_pr p := src_hw p]> (previously_resolved s)) (link s)) tt).
  2: { destruct (src_pr p =? 0); by destruct s. }
  rewrite Ho. change (arp_req =? arp_res) with false. change (negb (arp_req =? arp_req)) with false. cbv iota. rewrite run_gets.
  cbn [link]. rewrite Hl, Hd. cbn [negb orb]. unfold new_frame, transmit_frame, mbind, SE_bind, mbind, outcome_bind. cbn [link set_link].
  rewrite Hm. cbn [link set_link]. rewrite Ht. done.
Qed.

(** What a frame does.  The handler always returns; it remembers the sender of every frame
    that has an address, whatever the frame says; it sends a frame only for a request to its
    own hardware address while it has a lease, and then exactly one, to the sender, whose
    operation and addresses are what the memory held before (the code sets these fields in
    the frame that arrived instead). *)
Theorem arp_receive_effect c p s :
  exists p' r l', Arp.receive c p s = Done (MkArpSt (learn (previously_resolved s) p) l', inr (p', r))
    /\ if for_us (link s) c p
       then let '(l1, m) := link_memory (link s) in
            let q := packet_of_header (src_hw p) (link_mac l1) m in
            link_tx l1 q = (l', r) /\ destination_mac q = src_hw p /\ (opcode q, src_pr q, dst_pr q) = m
       else l' = link s /\ p' = p /\ r = (if existsb (Z.eqb (opcode p)) [arp_req; arp_res] then 0 else - EPROTO).
Proof.
  destruct (for_us (link s) c p) eqn:E.
  - destruct (link_memory (link s)) as [l1 [[m1 m2] m3]] eqn:Em. destruct (link_tx l1 (packet_of_header (src_hw p) (link_mac l1) (m1, m2, m3))) as [l2 r] eqn:Et.
    destruct (receive_for_us c p s l1 _ l2 r E Em Et) as [p' ->]. by eexists p', r, l2.
  - rewrite (receive_quiet c p s E). by eexists p, _, (link s).
Qed.
End Handler.

(** ** A network of hosts that run this code *)

(** A host keeps the frames that it sends. *)
Record port := MkPort { port_mac : list Z; port_mem : Z * Z * Z; port_out : list arpv4_packet }.
#[global] Instance port_link : Link port := {|
  link_mac := port_mac;
  link_tx := fun l p => (MkPort (port_mac l) (port_mem l) (port_out l ++ [p]), 0);
  link_tx_ip := fun l _ => (l, 0);
  link_memory := fun l => (l, port_mem l);
  link_wait := fun l => (l, []);
  link_rand := fun l => (l, 0);
  link_time := fun _ => 0 |}.
Definition host : Type := ipv4_config * arp port.
Definition host_mac (h : host) : list Z := port_mac (link h.2).
Definition deliver (p : arpv4_packet) (h : host) : host * list arpv4_packet :=
  match Arp.receive h.1 p h.2 with
  | Done (s, _) => ((h.1, set_link s (MkPort (port_mac (link s)) (port_mem (link s)) [])), port_out (link s))
  | _ => (h, [])
  end.
(** The link of one host: a frame reaches every other one, and what they send arrives in the
    next wait. *)
Record lan := MkLan {
  lan_mac : list Z;
  lan_mem : Z * Z * Z;
  lan_hosts : list host;
  lan_inbox : list arpv4_packet;
  lan_sent : list packet;
  lan_seed : Z;
  lan_time : Z }.
#[global] Instance lan_link : Link lan := {|
  link_mac := lan_mac;
  link_tx := fun l p =>
    let rs := map (deliver p) (lan_hosts l) in
    (MkLan (lan_mac l) (lan_mem l) (map fst rs) (lan_inbox l ++ concat (map snd rs)) (lan_sent l) (lan_seed l) (lan_time l), 0);
  link_tx_ip := fun l d => (MkLan (lan_mac l) (lan_mem l) (lan_hosts l) (lan_inbox l) (lan_sent l ++ [d]) (lan_seed l) (lan_time l), 0);
  link_memory := fun l => (l, lan_mem l);
  link_wait := fun l => (MkLan (lan_mac l) (lan_mem l) (lan_hosts l) [] (lan_sent l) (lan_seed l) (lan_time l), lan_inbox l);
  link_rand := fun l => (MkLan (lan_mac l) (lan_mem l) (lan_hosts l) (lan_inbox l) (lan_sent l) (lan_seed l + 1) (lan_time l), lan_seed l);
  link_time := lan_time |}.
Definition host_ok (h : host) : Prop := host_mac h <> empty_mac /\ port_out (link h.2) = [].
Definition lan_ok (l : lan) : Prop := lan_inbox l = [] /\ Forall host_ok (lan_hosts l).

(** No host answers a request for the hardware address zero. *)
Lemma probe_unanswered p h : dst_hw p = empty_mac -> host_ok h -> snd (deliver p h) = [] /\ host_ok (fst (deliver p h)).
Proof.
  intros Hp [Hm Ho]. unfold deliver. rewrite receive_quiet; [done|].
  unfold for_us. rewrite (bool_decide_false (link_mac _ = _)); [by rewrite andb_false_r|]. rewrite Hp. exact Hm.
Qed.
Lemma probe_all p hosts : dst_hw p = empty_mac -> Forall host_ok hosts ->
  concat (map snd (map (deliver p) hosts)) = [] /\ Forall host_ok (map fst (map (deliver p) hosts)).
Proof.
  intros Hp. induction 1 as [|h hosts Hh _ [IH1 IH2]]; simpl; [done|]. destruct (probe_unanswered p h Hp Hh) as [-> Hk].
  split; [done|]. by constructor.
Qed.
Lemma check_presence_run c addr (s : arp lan) :
  lan_ok (link s) ->
  exists s', Arp.check_presence c addr s = Done (s', inr (bool_decide (is_Some (previously_resolved s !! addr))))
    /\ previously_resolved s' = previously_resolved s /\ lan_ok (link s')
    /\ lan_mac (link s') = lan_mac (link s) /\ lan_sent (link s') = lan_sent (link s) /\ lan_seed (link s') = lan_seed (link s).
Proof.
  intros [Hi Hh]. unfold Arp.check_presence. destruct (lan_mem (link s)) as [[m1 m2] m3] eqn:Em.
  rewrite (run_bind _ _ s s (packet_of_header empty_mac (lan_mac (link s)) (m1, m2, m3))) by (unfold new_frame; simpl; rewrite Em; by destruct s).
  cbn zeta. match goal with |- context [transmit_frame ?q] => set (p := q) end.
  assert (dst_hw p = empty_mac) as Hp by done. destruct (probe_all p (lan_hosts (link s)) Hp Hh) as [H1 H2].
  set (s1 := set_link s (MkLan (lan_mac (link s)) (lan_mem (link s)) (map fst (map (deliver p) (lan_hosts (link s)))) [] (lan_sent (link s)) (lan_seed (link s)) (lan_time (link s)))).
  exists s1. rewrite (run_bind _ _ s s1 0) by (unfold transmit_frame; cbn [link_tx lan_link]; by rewrite H1, Hi, app_nil_r).
  change (negb (0 =? 0)) with false. cbv iota. rewrite (run_bind _ _ s1 s1 tt) by done. done.
Qed.
Lemma await_absent c addr n (s : arp lan) :
  lan_ok (link s) -> previously_resolved s !! addr = None ->
  exists s', Arp.await_result n (Arp.check_presence c addr) s = Done (s', inr false) /\ previously_resolved s' = previously_resolved s /\ lan_ok (link s').
Proof.
  revert s. induction n as [|n IH]; intros s Hok Hn; cbn [await_result]; [by exists s|].
  destruct (check_presence_run c addr s Hok) as (s1 & H1 & Hr & Hok1 & _). rewrite Hn in H1.
  rewrite (bool_decide_false (is_Some None)) in H1 by (by intros []). rewrite (run_bind _ _ _ _ _ H1).
  destruct (IH s1 Hok1 ltac:(congruence)) as (s2 & H2 & Hr2 & Hok2). exists s2. rewrite H2. split_and!; congruence || done.
Qed.

(** The test of an offered address finds nobody.  Another host on the network that runs
    this code has the address; the client, which has not heard of it, is offered the same
    address, asks the network, gets no answer, since the question goes to the hardware address
    zero, and requests and takes the address: both hosts have it. *)
Theorem duplicate_address_taken fuel (s : client (arp lan)) other xid cip yip sip mac items rest items' rest' :
  u32_ok xid -> u32_ok yip -> u32_ok sip -> sip <> 0 -> length mac = 6%nat ->
  forallb item_ok items = true -> forallb item_ok items' = true -> (S (length items) <= fuel)%nat -> (S (length items') <= fuel)%nat ->
  current_state (ipconfig s) = INIT -> is_Some (transaction_timers s !! xid) ->
  lan_ok (link (world s)) -> length (lan_mac (link (world s))) = 6%nat ->
  In other (lan_hosts (link (world s))) -> leased_addr other.1 = yip -> previously_resolved (world s) !! yip = None ->
  lease_duration (foldl apply_item (offered sip items s) items') <> 0 ->
  exists s2 q,
    (_ ← Dhcp.receive fuel (server_reply OFFER xid cip yip sip mac items rest); Dhcp.receive fuel (server_reply ACK xid cip yip sip mac items' rest')) s = Done (s2, inr 0)
    /\ current_state (ipconfig s2) = BOUND /\ leased_addr (ipconfig s2) = leased_addr other.1
    /\ lan_sent (link (world s2)) = lan_sent (link (world s)) ++ [q].
Proof.
  intros Hx Hy Hs Hs0 Hmac Hi Hi' Hf Hf' Hst Ht Hok Hlm Hin Ho Hn Hd.
  destruct (check_presence_run (offered sip items s) yip (world s) Hok) as (w & Hp & _ & _ & Hm & Hsent & _).
  rewrite Hn, (bool_decide_false (is_Some None)) in Hp by (by intros []).
  set (q := request_packet (with_world (with_cfg s (offered sip items s)) w) yip xid).
  destruct (offer_then_ack fuel s xid cip yip sip mac items rest items' rest' w
    (set_link w (MkLan (lan_mac (link w)) (lan_mem (link w)) (lan_hosts (link w)) (lan_inbox (link w)) (lan_sent (link w) ++ [q]) (lan_seed (link w)) (lan_time (link w)))))
    as (s2 & E & Hw & _ & H1 & H2 & _); try done.
  - change (mac_addr w) with (lan_mac (link w)). by rewrite Hm.
  - exists s2, q. rewrite E, Hw. simpl. by rewrite Hsent, Ho.
Qed.

(** A lease is not renewed unless the hardware address of the server is known.  At the time
    of the renewal, the client asks for that address up to ten million times, no host answers,
    and the renewal ends with ENETDOWN in the state RENEWING, without a request. *)
Theorem renewal_fails fuel (s : client (arp lan)) :
  lan_ok (link (world s)) -> leased_addr (ipconfig s) <> 0 -> previously_resolved (world s) !! dhcp_server_addr (ipconfig s) = None ->
  exists s2, transition_state fuel RENEWING s = Done (s2, inr (- ENETDOWN)) /\ ipconfig s2 = set_state (ipconfig s) RENEWING.
Proof.
  intros Hok Hl Hn. unfold transition_state. rewrite run_mod_cfg.
  set (l := link (world s)). set (w1 := set_link (world s) (MkLan (lan_mac l) (lan_mem l) (lan_hosts l) (lan_inbox l) (lan_sent l) (lan_seed l + 1) (lan_time l))).
  set (c := set_state (ipconfig s) RENEWING). set (s1 := with_xid (with_world (with_cfg s c) w1) (u32 (lan_seed l))).
  destruct (await_absent c (dhcp_server_addr c) max_wait w1 Hok Hn) as (w2 & Hw & _ & _).
  exists (with_world s1 w2). split; [|done]. rewrite (run_catch _ _ _ (with_world s1 w2) (inl runtime_error)); [done|].
  rewrite (run_bind _ _ _ (with_world (with_cfg s c) w1) (u32 (lan_seed l))) by done. rewrite run_modify. fold s1.
  unfold renew. rewrite run_get_cfg, run_gets. change (leased_addr (ipconfig s1)) with (leased_addr (ipconfig s)).
  destruct (Z.eqb_spec (leased_addr (ipconfig s)) 0) as [E|_]; [done|]. apply run_exn. unfold in_world.
  change (ipconfig s1) with c. change (world s1) with w1. cbn [resolve_mac arp_env]. unfold lookup_mac. rewrite run_gets.
  change (previously_resolved w1 !! dhcp_server_addr c) with (previously_resolved (world s) !! dhcp_server_addr (ipconfig s)).
  rewrite Hn, (bool_decide_false (is_Some None)) by (by intros []). unfold resolve. by rewrite (run_bind _ _ _ _ _ Hw).
Qed.

(** ** Witnesses: two hosts *)
Definition neighbour : host := (set_state (set_lease reset_config 0x0A000007 100) BOUND, MkArpSt ∅ (MkPort [2; 0; 0; 0; 0; 7] (0, 0, 0) [])).
Definition two_hosts : arp lan := MkArpSt ∅ (MkLan [2; 0; 0; 0; 0; 1] (7, 7, 7) [neighbour] [] [] 5 1000).
Lemma two_hosts_ok : lan_ok (link two_hosts).
Proof. split; [done|]. constructor; [|done]. by split. Qed.
Definition joining : client (arp lan) := MkClient reset_config {[ 41 := 990 ]} 0 two_hosts.
Definition leased : client (arp lan) := MkClient (set_server (set_state (set_lease reset_config 0x0A000005 100) BOUND) 0x0A000001) ∅ 0 two_hosts.
Lemma duplicate_address_taken_witness :
  exists s2, (_ ← Dhcp.receive 9 (server_reply OFFER 41 0 0x0A000007 0x0A000001 (replicate 6 1) offer_items []);
              Dhcp.receive 9 (server_reply ACK 41 0 0x0A000007 0x0A000001 (replicate 6 1) offer_items [])) joining = Done (s2, inr 0)
    /\ leased_addr (ipconfig s2) = leased_addr neighbour.1.
Proof.
  destruct (duplicate_address_taken 9 joining neighbour 41 0 0x0A000007 0x0A000001 (replicate 6 1) offer_items [] offer_items [])
    as (s2 & q & E & _ & H & _); [unfold u32_ok; lia..|done|done|done|done|simpl; lia|simpl; lia|done|by eexists|apply two_hosts_ok|done|by left|done|done|by vm_compute|].
  exists s2. split; [exact E|exact H].
Defined.
Lemma renewal_fails_witness : exists s2, transition_state 9 RENEWING leased = Done (s2, inr (-115)) /\ current_state (ipconfig s2) = RENEWING.
Proof.
  destruct (renewal_fails 9 leased) as (s2 & E & H); [apply two_hosts_ok|done|done|]. exists s2. split; [exact E|by rewrite H].
Defined.
End ArpProps.
