(* ===== verification/Sysfs.v ===== *)
(** The system configuration store (kernel/fs/sysfs/, kernel/fs/sysfs.hpp): objects with an
    extent tree each, kept in four files.

    A file is the list of its records, behind a header of which only the number of records is
    kept (no code reads the rest).  How the files grow, what the new part holds, and the
    checksum are an interface.  An open object is the buffer of its stream with what the
    source's node keeps. *)
From S2P Require Import Prelude StateExn Bytes.
Import Bytes.

Module Sysfs.

Inductive exn := out_of_range | runtime_error | bad_alloc.

Definition sysfs_data_block_size : Z := 1024.
Definition sysfs_object_name_size_max : Z := 22.
Definition num_entries : Z := (128 - (8 + 8)) / 16.

Record sysfs_extent_entry := MkExt { ordinal : Z; length_ : Z; start : Z }.
Record sysfs_extent_branch := MkBr { depth : Z; entries : list sysfs_extent_entry; b_checksum : Z }.
Record sysfs_inode := MkIno { type : Z; root_depth : Z; size_bytes : Z; extent_root : sysfs_extent_entry; i_checksum : Z }.
Record sysfs_dir_entry := MkDirent { inode_number : Z; object_type : Z; object_name : list Z; d_checksum : Z }.
Definition ext0 : sysfs_extent_entry := MkExt 0 0 0.
Definition blank_entries : list sysfs_extent_entry := replicate (Z.to_nat num_entries) ext0.

(** ** The bytes of a record in front of its checksum *)
Definition ext_bytes (e : sysfs_extent_entry) : list Z := le_bytes 4 (ordinal e) ++ le_bytes 4 (length_ e) ++ le_bytes 8 (start e).
Definition branch_bytes (b : sysfs_extent_branch) : list Z := le_bytes 8 (depth b) ++ concat (map ext_bytes (entries b)).
Definition inode_bytes (n : sysfs_inode) : list Z :=
  le_bytes 2 (type n) ++ le_bytes 2 (root_depth n) ++ le_bytes 8 (size_bytes n) ++ ext_bytes (extent_root n).
Definition dirent_bytes (d : sysfs_dir_entry) : list Z := le_bytes 4 (inode_number d) ++ le_bytes 2 (object_type d) ++ object_name d.

(** How the backing files grow: the new records, or nothing when there is no room. *)
Class Backing (W : Type) := {
  grow_data : Z -> W -> W * option (list (list Z));
  grow_index : W -> W * option sysfs_inode;
  grow_extents : W -> W * option sysfs_extent_branch;
  grow_directory : W -> W * option sysfs_dir_entry;
  crc32c : list Z -> Z }.

(** An open object; [buf] is the whole capacity of its buffer. *)
Record sysfs_vnode := MkV { ino : Z; total_extent : Z; stored_leaf_index : Z; buf : list Z; dirty_blocks : list (Z * Z); is_dirty : bool }.
Record sysfs (W : Type) := MkFs {
  data_file : list (list Z);
  index_file : list sysfs_inode;
  extents_file : list sysfs_extent_branch;
  directory_file : list sysfs_dir_entry;
  directory_map : gmap (list Z) Z;
  opened_nodes : gmap Z sysfs_vnode;
  backend : W }.
Arguments MkFs {W} data_file index_file extents_file directory_file directory_map opened_nodes backend.
Arguments data_file {W} s.
Arguments index_file {W} s.
Arguments extents_file {W} s.
Arguments directory_file {W} s.
Arguments directory_map {W} s.
Arguments opened_nodes {W} s.
Arguments backend {W} s.

Section Fs.
Context {W : Type} `{!Backing W}.
Implicit Types (s : sysfs W) (v : sysfs_vnode).
Local Notation M := (SE (sysfs W) exn).

Definition set_data s x : sysfs W := MkFs x (index_file s) (extents_file s) (directory_file s) (directory_map s) (opened_nodes s) (backend s).
Definition set_index s x : sysfs W := MkFs (data_file s) x (extents_file s) (directory_file s) (directory_map s) (opened_nodes s) (backend s).
Definition set_extents s x : sysfs W := MkFs (data_file s) (index_file s) x (directory_file s) (directory_map s) (opened_nodes s) (backend s).
Definition set_directory s x : sysfs W := MkFs (data_file s) (index_file s) (extents_file s) x (directory_map s) (opened_nodes s) (backend s).
Definition set_map s x : sysfs W := MkFs (data_file s) (index_file s) (extents_file s) (directory_file s) x (opened_nodes s) (backend s).
Definition set_opened s x : sysfs W := MkFs (data_file s) (index_file s) (extents_file s) (directory_file s) (directory_map s) x (backend s).
Definition set_backend s x : sysfs W := MkFs (data_file s) (index_file s) (extents_file s) (directory_file s) (directory_map s) (opened_nodes s) x.

(** ** Records by their numbers, from 1 *)
Definition record {A} (f : sysfs W -> list A) (i : Z) : M A := fun s =>
  if (i =? 0) || (Z.of_nat (length (f s)) <? i) then Done (s, inl out_of_range)
  else match f s !! Z.to_nat (i - 1) with Some x => Done (s, inr x) | None => Undef end.
Definition get_extent_branch (i : Z) : M sysfs_extent_branch := record extents_file i.
Definition get_inode (i : Z) : M sysfs_inode := record index_file i.
Definition get_dir_entry (i : Z) : M sysfs_dir_entry := record directory_file i.
(** A store through the reference that such a call returned. *)
Definition put_extent_branch (i : Z) (b : sysfs_extent_branch) : M unit := modify (fun s => set_extents s (<[Z.to_nat (i - 1) := b]> (extents_file s))).
Definition put_inode (i : Z) (n : sysfs_inode) : M unit := modify (fun s => set_index s (<[Z.to_nat (i - 1) := n]> (index_file s))).
Definition put_dir_entry (i : Z) (d : sysfs_dir_entry) : M unit := modify (fun s => set_directory s (<[Z.to_nat (i - 1) := d]> (directory_file s))).
Definition num_blocks s : Z := Z.of_nat (length (data_file s)).
Definition block (st_block : Z) : M (list Z) := record data_file st_block.
Definition write_data (st_block : Z) (data : list Z) : M unit :=
  b ← block st_block;
  match wr b 0 data with
  | Done b1 => modify (fun s => set_data s (<[Z.to_nat (st_block - 1) := b1]> (data_file s)))
  | _ => undef
  end.
Definition read_data (st_block n : Z) : M (list Z) :=
  b ← block st_block; match rd b 0 n with Done l => mret l | _ => undef end.

(** ** New records: the number of the first one, or 0 *)
Definition with_backend {A} (f : W -> W * A) : M A := fun s => let '(w, a) := f (backend s) in Done (set_backend s w, inr a).
Definition add_extent_branch : M Z :=
  n ← gets (fun s => u32 (Z.of_nat (length (extents_file s)) + 1)); o ← with_backend grow_extents;
  match o with Some b => modify (fun s => set_extents s (extents_file s ++ [b]));; mret n | None => mret 0 end.
Definition add_blocks (how_many : Z) : M Z :=
  n ← gets (fun s => u32 (num_blocks s + 1)); o ← with_backend (grow_data how_many);
  match o with Some l => modify (fun s => set_data s (data_file s ++ l));; mret n | None => mret 0 end.
Definition add_inode : M Z :=
  n ← gets (fun s => u32 (Z.of_nat (length (index_file s)) + 1)); o ← with_backend grow_index;
  match o with Some i => modify (fun s => set_index s (index_file s ++ [i]));; mret n | None => mret 0 end.
Definition add_directory_entry : M Z :=
  n ← gets (fun s => u32 (Z.of_nat (length (directory_file s)) + 1)); o ← with_backend grow_directory;
  match o with Some d => modify (fun s => set_directory s (directory_file s ++ [d]));; mret n | None => mret 0 end.

(** ** Names *)
(** [strnlen] of the repository: [l] is the memory from the string on.  The byte behind the
    [n] asked for is read, and when that is not zero either, a null pointer is subtracted. *)
Fixpoint strnlen (l : list Z) (n : nat) : option nat :=
  match l with
  | [] => None
  | b :: r => if b =? 0 then Some O else match n with O => None | S n => S <$> strnlen r n end
  end.
(** [strncpy]: it does not fill the rest. *)
Definition strncpy (dest src : list Z) (n : nat) : option (list Z) := k ← strnlen src n; Some (take k src ++ drop k dest).
Definition verify_dirent_csum (d : sysfs_dir_entry) : bool := d_checksum d =? crc32c (dirent_bytes d).
Definition dir_add_object (name : list Z) (i : Z) : M unit :=
  eno ← add_directory_entry;
  if eno =? 0 then throw runtime_error else
  d ← get_dir_entry eno;
  stored ← match strncpy (object_name d) (name ++ [0]) (Z.to_nat sysfs_object_name_size_max) with Some l => mret l | None => undef end;
  let d1 := MkDirent i (object_type d) stored (d_checksum d) in
  put_dir_entry eno (MkDirent (inode_number d1) (object_type d1) (object_name d1) (crc32c (dirent_bytes d1)));;
  modify (fun s => match directory_map s !! name with Some _ => s | None => set_map s (<[name := i]> (directory_map s)) end).
Definition find_node (name : list Z) : M Z := gets (fun s => default 0 (directory_map s !! name)).
(** [init_load]: entries with a wrong checksum are passed over; the first entry of a name
    counts.  The checksum of an entry lies behind its name. *)
Definition load_entry (m : gmap (list Z) Z) (d : sysfs_dir_entry) : option (gmap (list Z) Z) :=
  if verify_dirent_csum d then
    k ← strnlen (object_name d ++ le_bytes 4 (d_checksum d)) (Z.to_nat sysfs_object_name_size_max);
    let name := take k (object_name d) in Some (match m !! name with Some _ => m | None => <[name := inode_number d]> m end)
  else Some m.
Fixpoint load_entries (m : gmap (list Z) Z) (l : list sysfs_dir_entry) : option (gmap (list Z) Z) :=
  match l with [] => Some m | d :: l => m1 ← load_entry m d; load_entries m1 l end.
Definition init_load : M unit := fun s =>
  match load_entries (directory_map s) (directory_file s) with Some m => Done (set_map s m, inr tt) | None => Undef end.
Definition sum_inode (n : sysfs_inode) : sysfs_inode := MkIno (type n) (root_depth n) (size_bytes n) (extent_root n) (crc32c (inode_bytes n)).
Definition mknod (name : list Z) (t : Z) : M Z :=
  i ← add_inode;
  if i =? 0 then throw runtime_error else
  n ← get_inode i;
  put_inode i (sum_inode (MkIno t (root_depth n) (size_bytes n) (extent_root n) 0));;
  dir_add_object name i;;
  mret i.

(** ** Extent trees *)
Definition sum_branch (b : sysfs_extent_branch) : sysfs_extent_branch := MkBr (depth b) (entries b) (crc32c (branch_bytes b)).
Definition entry (b : sysfs_extent_branch) (i : Z) : M sysfs_extent_entry :=
  match (if (i <? 0) || (num_entries <=? i) then None else entries b !! Z.to_nat i) with Some e => mret e | None => undef end.
Definition put_entry (b : sysfs_extent_branch) (i : Z) (e : sysfs_extent_entry) : sysfs_extent_branch :=
  MkBr (depth b) (<[Z.to_nat i := e]> (entries b)) (b_checksum b).
Fixpoint extend_to_leaf (fuel : nat) (from_idx ord : Z) : M Z :=
  (b0 ← get_extent_branch from_idx;
   if depth b0 =? 0 then mret from_idx else
   match fuel with
   | O => no_fuel
   | S f =>
       next ← add_extent_branch;
       if next =? 0 then throw runtime_error else
       br ← get_extent_branch from_idx; _ ← get_extent_branch next;
       put_extent_branch next (sum_branch (MkBr (depth br - 1) blank_entries 0));;
       put_extent_branch from_idx (put_entry br 0 (MkExt ord 0 next));;
       extend_to_leaf f next ord
   end) : M Z.
(** The first free entry of a branch, from the [i]th. *)
Definition first_free (b : sysfs_extent_branch) (from : Z) : option Z :=
  k ← fst <$> list_find (fun e => start e = 0) (drop (Z.to_nat from) (entries b)); Some (from + Z.of_nat k).
Fixpoint next_available_extent_entry (fuel : nat) (from_idx : Z) : M (option (Z * Z)) :=
  (br ← get_extent_branch from_idx;
   if depth br =? 0 then mret (i ← first_free br 0; Some (from_idx, i)) else
   match first_free br 0 with
   | None => mret None
   | Some i =>
       if i =? 0 then mret (Some (from_idx, 0)) else
       match fuel with
       | O => no_fuel
       | S f =>
           e ← entry br (i - 1);
           r ← next_available_extent_entry f (start e);
           mret (match r with None => Some (from_idx, i) | _ => r end)
       end
   end) : M (option (Z * Z)).
Fixpoint total_extents_branch (fuel : nat) (b : sysfs_extent_branch) : M Z :=
  (if depth b =? 0 then mret (foldr (fun e x => length_ e + x) 0 (entries b)) else
   match fuel with
   | O => no_fuel
   | S f => foldr (fun e (k : Z -> M Z) x => b1 ← get_extent_branch (start e); t ← total_extents_branch f b1; k (x + t)) (fun x => mret x) (entries b) 0
   end) : M Z.
Definition total_extents (fuel : nat) (i : Z) : M Z :=
  n ← get_inode i;
  if root_depth n =? 0 then mret (length_ (extent_root n)) else
  b ← get_extent_branch (start (extent_root n)); total_extents_branch fuel b.
Definition start_pos : Z := num_entries / 2.
Definition start_incr : Z := if div_round_up 4 2 <=? num_entries mod 4 then div_round_up num_entries 4 else num_entries / 4.
Fixpoint find_from (fuel : nat) (b : sysfs_extent_branch) (idx pos incr : Z) : M sysfs_extent_entry :=
  match fuel with
  | O => no_fuel
  | S f =>
      e ← entry b pos;
      if incr =? 0 then
        (if depth b =? 0 then mret e else b1 ← get_extent_branch (start e); find_from f b1 idx start_pos start_incr)
      else if (idx <? ordinal e) || (start e =? 0) then find_from f b idx (pos - incr) (incr / 2)
      else find_from f b idx (pos + incr) (incr / 2)
  end.
Definition calc_inode_csum (i : Z) : M unit := n ← get_inode i; put_inode i (sum_inode n).
Definition overflow_root v : M unit :=
  next ← add_extent_branch;
  if next =? 0 then throw bad_alloc else
  n ← get_inode (ino v); _ ← get_extent_branch next;
  put_extent_branch next (sum_branch (MkBr (root_depth n) (extent_root n :: drop 1 blank_entries) 0));;
  put_inode (ino v) (MkIno (type n) (u16 (root_depth n + 1)) (size_bytes n) (MkExt (ordinal (extent_root n)) (length_ (extent_root n)) next) (i_checksum n));;
  calc_inode_csum (ino v).
Definition root_index v : M Z := n ← get_inode (ino v); mret (start (extent_root n)).
(** The leaf to put the next extent in: the number of the branch and the place in it. *)
Definition next_leaf_branch (fuel : nat) v : M (Z * Z) :=
  r ← root_index v;
  avail ← next_available_extent_entry fuel r;
  match avail with
  | Some (bi, i) =>
      b ← get_extent_branch bi;
      if depth b =? 0 then mret (bi, i) else
      e ← entry b i;
      li ← extend_to_leaf fuel (start e) (u32 (total_extent v)); mret (li, 0)
  | None =>
      overflow_root v;;
      added ← add_extent_branch;
      if added =? 0 then throw runtime_error else
      ri ← root_index v; root ← get_extent_branch ri;
      put_extent_branch ri (sum_branch (put_entry root 1 (MkExt (u32 (total_extent v)) 0 added)));;
      li ← extend_to_leaf fuel added (u32 (total_extent v)); mret (li, 0)
  end.
Definition push (fuel : nat) v (n_blocks : Z) : M sysfs_vnode :=
  added_start ← add_blocks n_blocks;
  if added_start =? 0 then throw runtime_error else
  n ← get_inode (ino v);
  let e := MkExt (u32 (total_extent v)) n_blocks added_start in
  li ← (if root_depth n =? 0 then overflow_root v;; ri ← root_index v; mret (ri, 0, stored_leaf_index v)
        else '(bi, i) ← next_leaf_branch fuel v; mret (bi, i, i));
  let '(bi, i, leaf) := li in
  b ← get_extent_branch bi;
  put_extent_branch bi (sum_branch (put_entry b i e));;
  mret (MkV (ino v) (u64 (total_extent v + n_blocks)) leaf (buf v) (dirty_blocks v) (is_dirty v)).
(** [operator[]] of the tree *)
Definition extent_at (fuel : nat) v (i : Z) : M sysfs_extent_entry :=
  if total_extent v <=? i then throw out_of_range else
  n ← get_inode (ino v);
  if root_depth n =? 0 then mret (extent_root n) else
  b ← get_extent_branch (start (extent_root n)); find_from fuel b i start_pos start_incr.

(** ** Open objects *)
Definition actual_block (fuel : nat) v (ord : Z) : M Z := e ← extent_at fuel v ord; mret (u32 (start e + (ord - ordinal e))).
Definition block_capacity v : Z := total_extent v * sysfs_data_block_size.
(** [sector_ptr(i)] with [min(sector_size, __max() - ptr)] bytes, which is the sector size
    when the pointer is behind the buffer. *)
Definition sector v (i : Z) : outcome (list Z) :=
  let p := i * sysfs_data_block_size in
  rd (buf v) p (Z.min sysfs_data_block_size (u64 (Z.of_nat (length (buf v)) - p))).
Fixpoint write_range (k : nat) (fuel : nat) v (i : Z) : M unit :=
  match k with
  | O => mret tt
  | S k =>
      a ← actual_block fuel v i;
      match sector v i with Done d => write_data a d;; write_range k fuel v (i + 1) | _ => undef end
  end.
Fixpoint write_ranges (fuel : nat) v (l : list (Z * Z)) : M unit :=
  match l with [] => mret tt | (st, en) :: l => write_range (Z.to_nat (en - st)) fuel v st;; write_ranges fuel v l end.
Definition EINVAL : Z := 22.
Definition write_dev (fuel : nat) v : M (sysfs_vnode * Z) :=
  catch (write_ranges fuel v (dirty_blocks v);; mret (MkV (ino v) (total_extent v) (stored_leaf_index v) (buf v) [] (is_dirty v), 0))
    (fun _ => Some (mret (v, - EINVAL))).
(** [sync] of the stream *)
Definition sync (fuel : nat) v : M (sysfs_vnode * Z) :=
  if is_dirty v then
    '(v1, r) ← write_dev fuel v;
    mret (if r =? 0 then MkV (ino v1) (total_extent v1) (stored_leaf_index v1) (buf v1) (dirty_blocks v1) false else v1, r)
  else mret (v, 0).
Definition commit v (target_pos : Z) : sysfs_vnode * Z :=
  if Z.of_nat (length (buf v)) <? target_pos then (v, -1) else
  let pos_block := u32 (target_pos / sysfs_data_block_size + 1) in
  (MkV (ino v) (total_extent v) (stored_leaf_index v) (buf v) (dirty_blocks v ++ [(0, pos_block)]) true, pos_block * sysfs_data_block_size).
(** The blocks of one extent, read to the sectors with the numbers of the blocks. *)
Fixpoint read_extent (k : nat) (b : list Z) (actual : Z) : M (list Z) :=
  match k with
  | O => mret b
  | S k =>
      d ← read_data actual sysfs_data_block_size;
      match wr b (actual * sysfs_data_block_size) d with Done b1 => read_extent k b1 (u32 (actual + 1)) | _ => undef end
  end.
Fixpoint read_all (k : nat) (fuel : nat) v (i : Z) : M sysfs_vnode :=
  match k with
  | O => mret v
  | S k =>
      e ← extent_at fuel v i;
      b ← read_extent (Z.to_nat (length_ e)) (buf v) (u32 (start e));
      read_all k fuel (MkV (ino v) (total_extent v) (stored_leaf_index v) b (dirty_blocks v) (is_dirty v)) (i + 1)
  end.
(** [init]: [mem] is the memory that the buffer gets, if there is any. *)
Definition init (fuel : nat) (mem : Z -> option (list Z)) v : M sysfs_vnode :=
  if total_extent v =? 0 then mret v else
  match mem (block_capacity v) with
  | None => throw bad_alloc
  | Some b => read_all (Z.to_nat (total_extent v)) fuel (MkV (ino v) (total_extent v) (stored_leaf_index v) b (dirty_blocks v) (is_dirty v)) 0
  end.
Definition open (fuel : nat) (mem : Z -> option (list Z)) (i : Z) : M sysfs_vnode :=
  o ← gets (fun s => opened_nodes s !! i);
  match o with
  | Some v => mret v
  | None =>
      n ← gets (fun s => Z.of_nat (length (index_file s)));
      if n <? i then throw out_of_range else
      t ← total_extents fuel i;
      v ← init fuel mem (MkV i t 0 [] [] false);
      modify (fun s => set_opened s (<[i := v]> (opened_nodes s)));; mret v
  end.
(** [__grow_buffer_exact]: [resize] is the buffer made larger by so many bytes, if there is memory. *)
Definition grow_buffer_exact (resize : list Z -> Z -> option (list Z)) (b : list Z) (n : Z) : option (list Z) := if n =? 0 then Some b else resize b n.
Definition on_overflow (fuel : nat) (resize : list Z -> Z -> option (list Z)) v (n : Z) : M (sysfs_vnode * Z) :=
  i ← get_inode (ino v);
  let target := u64 (size_bytes i + n) in
  let cur_cap := block_capacity v in
  o ← (if cur_cap <=? target then
         catch (v1 ← push fuel v (div_round_up (u16 (Z.max 1 (target - cur_cap))) sysfs_data_block_size); mret (Some v1)) (fun _ => Some (mret None))
       else mret (Some v));
  match o with
  | None => mret (v, 0)
  | Some v1 =>
      i1 ← get_inode (ino v1);
      put_inode (ino v1) (MkIno (type i1) (root_depth i1) (u64 (size_bytes i1 + n)) (extent_root i1) (i_checksum i1));;
      match grow_buffer_exact resize (buf v1) n with
      | Some b => mret (MkV (ino v1) (total_extent v1) (stored_leaf_index v1) b (dirty_blocks v1) (is_dirty v1), n)
      | None => throw bad_alloc
      end
  end.
Definition expand_to_size (fuel : nat) (resize : list Z -> Z -> option (list Z)) v (target : Z) : M (sysfs_vnode * bool) :=
  let cap := Z.of_nat (length (buf v)) in
  if target <=? cap then mret (v, true) else '(v1, r) ← on_overflow fuel resize v (target - cap); mret (v1, negb (r =? 0)).
End Fs.
End Sysfs.
