(* ===== verification/SysfsProps.v ===== *)
(** Properties of the configuration store (Sysfs.v): names and written objects are kept, and
    where the extent tree and the loading of an object go wrong. *)
From S2P Require Import Prelude StateExn Bytes Sysfs.
Import Bytes Sysfs.

Module SysfsProps.

Section Fs.
Context {W : Type} `{!Backing W}.
Implicit Types (s : sysfs W) (v : sysfs_vnode).

(** ** Records *)
Lemma record_in {A} (f : sysfs W -> list A) s i x : 0 < i -> f s !! Z.to_nat (i - 1) = Some x -> record f i s = Done (s, inr x).
Proof.
  intros Hi Hx. unfold record. pose proof (lookup_lt_Some _ _ _ Hx). rewrite Hx. destruct (Z.eqb_spec i 0), (Z.ltb_spec (Z.of_nat (length (f s))) i); try lia. done.
Qed.
Lemma record_last {A} (f : sysfs W -> list A) s l x i : f s = l ++ [x] -> i = Z.of_nat (length l) + 1 -> record f i s = Done (s, inr x).
Proof.
  intros Hf ->. apply record_in; [lia|]. rewrite Hf, lookup_app_r by lia. by replace (_ - _)%nat with 0%nat by lia.
Qed.
Lemma run_record {A B} (f : sysfs W -> list A) (k : A -> SE (sysfs W) exn B) s i x :
  0 < i -> f s !! Z.to_nat (i - 1) = Some x -> (record f i ≫= k) s = k x s.
Proof. intros. by rewrite (run_bind _ _ _ _ _ (record_in f s i x ltac:(done) ltac:(done))). Qed.
Lemma u32_small x : 0 <= x < 2 ^ 32 -> u32 x = x.
Proof. intros. unfold u32. by apply Z.mod_small. Qed.

Lemma insert_last {A} (l : list A) x y i : i = Z.of_nat (length l) + 1 -> <[Z.to_nat (i - 1) := y]> (l ++ [x]) = l ++ [y].
Proof. intros ->. rewrite insert_app_r_alt by lia. by replace (_ - _)%nat with 0%nat by lia. Qed.

(** New records. *)
Lemma add_extent_branch_run s w b :
  grow_extents (backend s) = (w, Some b) -> Z.of_nat (length (extents_file s)) + 1 < 2 ^ 32 ->
  add_extent_branch s = Done (set_extents (set_backend s w) (extents_file s ++ [b]), inr (Z.of_nat (length (extents_file s)) + 1)).
Proof.
  intros Hg Hl. unfold add_extent_branch. rewrite run_gets. rewrite (run_bind _ _ _ (set_backend s w) (Some b)) by (unfold with_backend; by rewrite Hg).
  rewrite run_modify, u32_small by lia. done.
Qed.
Lemma add_blocks_run s n w l :
  grow_data n (backend s) = (w, Some l) -> num_blocks s + 1 < 2 ^ 32 ->
  add_blocks n s = Done (set_data (set_backend s w) (data_file s ++ l), inr (num_blocks s + 1)).
Proof.
  intros Hg Hl. unfold add_blocks. rewrite run_gets. rewrite (run_bind _ _ _ (set_backend s w) (Some l)) by (unfold with_backend; by rewrite Hg).
  rewrite run_modify, u32_small by (unfold num_blocks in *; lia). done.
Qed.
Lemma add_inode_run s w i :
  grow_index (backend s) = (w, Some i) -> Z.of_nat (length (index_file s)) + 1 < 2 ^ 32 ->
  add_inode s = Done (set_index (set_backend s w) (index_file s ++ [i]), inr (Z.of_nat (length (index_file s)) + 1)).
Proof.
  intros Hg Hl. unfold add_inode. rewrite run_gets. rewrite (run_bind _ _ _ (set_backend s w) (Some i)) by (unfold with_backend; by rewrite Hg).
  rewrite run_modify, u32_small by lia. done.
Qed.
Lemma add_directory_entry_run s w d :
  grow_directory (backend s) = (w, Some d) -> Z.of_nat (length (directory_file s)) + 1 < 2 ^ 32 ->
  add_directory_entry s = Done (set_directory (set_backend s w) (directory_file s ++ [d]), inr (Z.of_nat (length (directory_file s)) + 1)).
Proof.
  intros Hg Hl. unfold add_directory_entry. rewrite run_gets. rewrite (run_bind _ _ _ (set_backend s w) (Some d)) by (unfold with_backend; by rewrite Hg).
  rewrite run_modify, u32_small by lia. done.
Qed.

(** ** Names *)
Definition name_ok (name : list Z) : Prop := Forall (fun b => b <> 0) name /\ (length name < 22)%nat.
Lemma strnlen_to_nul l r n : Forall (fun b => b <> 0) l -> (length l <= n)%nat -> strnlen (l ++ 0 :: r) n = Some (length l).
Proof.
  intros Hl. revert n. induction Hl as [|b l Hb _ IH]; intros n Hn; simpl in *; [done|].
  rewrite (proj2 (Z.eqb_neq b 0) Hb). destruct n as [|n]; [lia|]. by rewrite IH by lia.
Qed.
Lemma strnlen_too_long l n : Forall (fun b => b <> 0) l -> (n < length l)%nat -> forall r, strnlen (l ++ r) n = None.
Proof.
  intros Hl. revert n. induction Hl as [|b l Hb _ IH]; intros n Hn r; simpl in *; [lia|].
  rewrite (proj2 (Z.eqb_neq b 0) Hb). destruct n as [|n]; [done|]. by rewrite IH by lia.
Qed.
(** The bytes of an entry of that name whose bytes were zero. *)
Definition padded (name : list Z) : list Z := name ++ replicate (22 - length name) 0.
Lemma name_stored name : name_ok name -> strncpy (replicate 22 0) (name ++ [0]) 22 = Some (padded name).
Proof. intros [Hz Hl]. unfold strncpy, padded. rewrite (strnlen_to_nul name [] 22) by (done || lia). cbn [mbind option_bind]. by rewrite take_app_length, drop_replicate. Qed.
(** A name that fits comes back from its entry. *)
Lemma name_read_back name r : name_ok name -> strnlen (padded name ++ r) 22 = Some (length name).
Proof.
  intros [Hz Hl]. unfold padded. destruct (22 - length name)%nat eqn:E; [lia|]. simpl replicate.
  rewrite <- app_assoc. simpl. apply strnlen_to_nul; [done|lia].
Qed.
(** The entry that [dir_add_object] makes in a zero record. *)
Definition new_dirent (name : list Z) (i : Z) : sysfs_dir_entry :=
  MkDirent i 0 (padded name) (crc32c (dirent_bytes (MkDirent i 0 (padded name) 0))).
Definition insert_new {A} (name : list Z) (i : A) (m : gmap (list Z) A) : gmap (list Z) A := match m !! name with Some _ => m | None => <[name := i]> m end.
Lemma load_new_dirent m name i : name_ok name -> load_entry m (new_dirent name i) = Some (insert_new name i m).
Proof.
  intros H. unfold load_entry, verify_dirent_csum.
  change (d_checksum (new_dirent name i)) with (crc32c (dirent_bytes (new_dirent name i))). rewrite Z.eqb_refl.
  change (object_name (new_dirent name i)) with (padded name). change (Z.to_nat sysfs_object_name_size_max) with 22%nat.
  rewrite name_read_back by done. cbn [mbind option_bind]. unfold padded at 1 2. by rewrite take_app_length.
Qed.
Lemma load_entries_app m l d m1 : load_entries m l = Some m1 -> load_entries m (l ++ [d]) = load_entry m1 d.
Proof.
  revert m. induction l as [|e l IH]; intros m; simpl; [intros [= ->]; by destruct (load_entry m1 d)|].
  destruct (load_entry m e); simpl; [apply IH|done].
Qed.
Lemma dir_add_object_run s name i w :
  grow_directory (backend s) = (w, Some (MkDirent 0 0 (replicate 22 0) 0)) -> Z.of_nat (length (directory_file s)) + 1 < 2 ^ 32 ->
  name_ok name -> dir_add_object name i s
  = Done (MkFs (data_file s) (index_file s) (extents_file s) (directory_file s ++ [new_dirent name i]) (insert_new name i (directory_map s)) (opened_nodes s) w, inr tt).
Proof.
  intros Hg Hl Hn. unfold dir_add_object. rewrite (run_bind _ _ _ _ _ (add_directory_entry_run s w _ Hg Hl)).
  destruct (Z.eqb_spec (Z.of_nat (length (directory_file s)) + 1) 0) as [E|_]; [lia|].
  unfold get_dir_entry. erewrite run_bind; [|by eapply record_last]. cbn [object_name object_type d_checksum].
  change (Z.to_nat sysfs_object_name_size_max) with 22%nat. rewrite (name_stored name Hn), run_ret.
  unfold put_dir_entry. rewrite run_modify. cbn [directory_file set_directory]. rewrite insert_last by lia. unfold modify, insert_new. simpl directory_map. by destruct (directory_map s !! name).
Qed.

(** A name of more than 22 bytes makes [strncpy] copy as many bytes as the negated address
    of the name. *)
Lemma long_name_undefined s name i w :
  grow_directory (backend s) = (w, Some (MkDirent 0 0 (replicate 22 0) 0)) -> Z.of_nat (length (directory_file s)) + 1 < 2 ^ 32 ->
  Forall (fun b => b <> 0) name -> (22 < length name)%nat -> dir_add_object name i s = Undef.
Proof.
  intros Hg Hl Hz Hn. unfold dir_add_object. rewrite (run_bind _ _ _ _ _ (add_directory_entry_run s w _ Hg Hl)).
  destruct (Z.eqb_spec (Z.of_nat (length (directory_file s)) + 1) 0) as [E|_]; [lia|].
  unfold get_dir_entry. erewrite run_bind; [|by eapply record_last].
  apply run_undef. unfold strncpy. change (Z.to_nat sysfs_object_name_size_max) with 22%nat. by rewrite strnlen_too_long.
Qed.


(** ** Extent trees of one leaf *)
(** The inode of [v] and the branch that is its root. *)
Definition leaf_root s v (n : sysfs_inode) (b : sysfs_extent_branch) : Prop :=
  0 < ino v /\ index_file s !! Z.to_nat (ino v - 1) = Some n /\ root_depth n = 1 /\ 0 < start (extent_root n)
  /\ extents_file s !! Z.to_nat (start (extent_root n) - 1) = Some b /\ depth b = 0.
Lemma overflow_root_run s v n w b0 :
  0 < ino v -> index_file s !! Z.to_nat (ino v - 1) = Some n -> grow_extents (backend s) = (w, Some b0) -> Z.of_nat (length (extents_file s)) + 1 < 2 ^ 32 ->
  let next := Z.of_nat (length (extents_file s)) + 1 in
  let n' := sum_inode (MkIno (type n) (u16 (root_depth n + 1)) (size_bytes n) (MkExt (ordinal (extent_root n)) (length_ (extent_root n)) next) (i_checksum n)) in
  let b := sum_branch (MkBr (root_depth n) (extent_root n :: drop 1 blank_entries) 0) in
  overflow_root v s = Done (set_index (set_extents (set_backend s w) (extents_file s ++ [b])) (<[Z.to_nat (ino v - 1) := n']> (index_file s)), inr tt).
Proof.
  intros Hv Hn Hg He next n' b. pose proof (lookup_lt_Some _ _ _ Hn) as Hlt.
  unfold overflow_root. rewrite (run_bind _ _ _ _ _ (add_extent_branch_run s w b0 Hg He)). fold next.
  destruct (Z.eqb_spec next 0) as [E|_]; [lia|]. unfold get_inode, get_extent_branch. erewrite run_record; [|done|exact Hn].
  erewrite run_bind; [|by eapply record_last]. unfold put_extent_branch. rewrite run_modify. cbn [extents_file set_extents]. rewrite insert_last by done.
  unfold put_inode. rewrite run_modify. unfold calc_inode_csum, get_inode. erewrite run_record; [|done|by apply list_lookup_insert_eq].
  unfold put_inode, modify. cbn [index_file set_index set_extents set_backend]. by rewrite list_insert_insert_eq.
Qed.
Lemma push_first s v n n1 w1 l w2 b0 fuel :
  0 < ino v -> index_file s !! Z.to_nat (ino v - 1) = Some n -> root_depth n = 0 ->
  grow_data n1 (backend s) = (w1, Some l) -> grow_extents w1 = (w2, Some b0) ->
  num_blocks s + 1 < 2 ^ 32 -> Z.of_nat (length (extents_file s)) + 1 < 2 ^ 32 ->
  exists s' n' b,
    push fuel v n1 s = Done (s', inr (MkV (ino v) (u64 (total_extent v + n1)) (stored_leaf_index v) (buf v) (dirty_blocks v) (is_dirty v)))
    /\ leaf_root s' v n' b /\ entries b = MkExt (u32 (total_extent v)) n1 (num_blocks s + 1) :: drop 1 blank_entries
    /\ data_file s' = data_file s ++ l /\ backend s' = w2.
Proof.
  intros Hv Hn Hd Hg1 Hg2 Hb He. unfold push. rewrite (run_bind _ _ _ _ _ (add_blocks_run s n1 w1 l Hg1 Hb)).
  destruct (Z.eqb_spec (num_blocks s + 1) 0) as [E|_]; [unfold num_blocks in *; lia|].
  set (s1 := set_data _ _). unfold get_inode. rewrite (run_record index_file _ s1 _ n Hv Hn), Hd. change (0 =? 0) with true. cbv iota.
  rewrite !run_assoc. rewrite (run_bind _ _ _ _ _ (overflow_root_run s1 v n w2 b0 Hv Hn Hg2 He)).
  pose proof (lookup_lt_Some _ _ _ Hn) as Hlt. rewrite run_assoc. unfold root_index, get_inode. rewrite run_assoc.
  erewrite run_record; [|done|by apply list_lookup_insert_eq]. rewrite !run_ret. cbn [sum_inode extent_root start].
  unfold get_extent_branch. erewrite run_bind; [|by eapply record_last]. unfold put_extent_branch. rewrite run_modify.
  cbn [extents_file set_extents set_index]. rewrite insert_last by done.
  eexists _, _, _. split; [done|]. split; [|split_and!; [|done..]].
  - split; [done|]. split; [by apply list_lookup_insert_eq|].
    cbn [sum_inode root_depth extent_root start extents_file set_extents set_index sum_branch put_entry depth]. change (extents_file s1) with (extents_file s).
    rewrite Hd. split; [done|]. split; [lia|]. split.
    + rewrite lookup_app_r by lia. by replace (_ - _)%nat with 0%nat by lia.
    + done.
  - by cbn.
Qed.
Lemma push_next s v n b i n1 w1 l fuel :
  leaf_root s v n b -> first_free b 0 = Some i -> grow_data n1 (backend s) = (w1, Some l) -> num_blocks s + 1 < 2 ^ 32 ->
  exists s' b',
    push fuel v n1 s = Done (s', inr (MkV (ino v) (u64 (total_extent v + n1)) i (buf v) (dirty_blocks v) (is_dirty v)))
    /\ leaf_root s' v n b' /\ entries b' = <[Z.to_nat i := MkExt (u32 (total_extent v)) n1 (num_blocks s + 1)]> (entries b)
    /\ data_file s' = data_file s ++ l /\ backend s' = w1.
Proof.
  intros (Hv & Hn & Hd & Hr & Hb & Hbd) Hf Hg Hnb. unfold push. rewrite (run_bind _ _ _ _ _ (add_blocks_run s n1 w1 l Hg Hnb)).
  destruct (Z.eqb_spec (num_blocks s + 1) 0) as [E|_]; [unfold num_blocks in *; lia|].
  set (s1 := set_data _ _). unfold get_inode. rewrite (run_record index_file _ s1 _ n Hv Hn), Hd. change (1 =? 0) with false. cbv iota.
  assert (next_leaf_branch fuel v s1 = Done (s1, inr (start (extent_root n), i))) as Hleaf.
  { unfold next_leaf_branch, root_index, get_inode. rewrite run_assoc. rewrite (run_record index_file _ s1 _ n Hv Hn), run_ret.
    rewrite (run_bind _ _ s1 s1 (Some (start (extent_root n), i))).
    2: { destruct fuel; cbn [next_available_extent_entry]; unfold get_extent_branch; rewrite (run_record extents_file _ s1 _ b Hr Hb), Hbd, Hf; done. }
    unfold get_extent_branch. rewrite (run_record extents_file _ s1 _ b Hr Hb), Hbd. done. }
  rewrite run_assoc, (run_bind _ _ _ _ _ Hleaf), run_ret. unfold get_extent_branch. rewrite (run_record extents_file _ s1 _ b Hr Hb).
  unfold put_extent_branch. rewrite run_modify. pose proof (lookup_lt_Some _ _ _ Hb) as Hlt.
  eexists _, (sum_branch (put_entry b i (MkExt (u32 (total_extent v)) n1 (num_blocks s + 1)))). split; [done|]. split; [|split_and!; [|done..]].
  - split_and!; try done. by apply list_lookup_insert_eq.
  - by cbn.
Qed.

(** Looking up a block in a leaf that is the root. *)
Lemma extent_at_leaf fuel s v n b i :
  leaf_root s v n b -> i < total_extent v -> extent_at fuel v i s = find_from fuel b i 3 2 s.
Proof.
  intros (Hv & Hn & Hd & Hr & Hb & Hbd) Hi. unfold extent_at. destruct (Z.leb_spec (total_extent v) i); [lia|].
  unfold get_inode. rewrite (run_record index_file _ s _ n Hv Hn), Hd. change (1 =? 0) with false. cbv iota.
  unfold get_extent_branch. by rewrite (run_record extents_file _ s _ b Hr Hb).
Qed.
Lemma run_entry {B} b i e (k : sysfs_extent_entry -> SE (sysfs W) exn B) s :
  0 <= i < num_entries -> entries b !! Z.to_nat i = Some e -> (entry b i ≫= k) s = k e s.
Proof. intros Hi He. unfold entry. destruct (Z.ltb_spec i 0), (Z.leb_spec num_entries i); try lia. simpl. by rewrite He. Qed.
Lemma find_from_step fuel b i pos incr e s :
  0 <= pos < num_entries -> entries b !! Z.to_nat pos = Some e -> depth b = 0 ->
  find_from (S fuel) b i pos incr s
  = (if incr =? 0 then mret e else if (i <? ordinal e) || (start e =? 0) then find_from fuel b i (pos - incr) (incr / 2) else find_from fuel b i (pos + incr) (incr / 2)) s.
Proof. intros Hp He Hd. cbn [find_from]. rewrite (run_entry _ _ _ _ _ Hp He), Hd. by destruct (incr =? 0). Qed.
Ltac find_next He := erewrite find_from_step; [|done|rewrite He; reflexivity|done]; change (2 =? 0) with false; change (2 / 2 =? 0) with false; change (2 / 2 / 2 =? 0) with true;
  cbn [start ordinal ext0]; rewrite ?Z.eqb_refl, ?orb_true_r; cbv iota.
Lemma find_one fuel s b e0 i :
  depth b = 0 -> entries b = e0 :: drop 1 blank_entries -> find_from (S (S (S fuel))) b i 3 2 s = Done (s, inr e0).
Proof.
  intros Hd He. do 3 find_next He. done.
Qed.
Lemma find_two fuel s b e0 e1 i :
  depth b = 0 -> entries b = e0 :: e1 :: drop 2 blank_entries -> start e1 <> 0 ->
  find_from (S (S (S fuel))) b i 3 2 s = Done (s, inr (if i <? ordinal e1 then e0 else ext0)).
Proof.
  intros Hd He Hs. apply Z.eqb_neq in Hs.
  do 2 find_next He. rewrite Hs, orb_false_r. destruct (i <? ordinal e1); find_next He; done.
Qed.

(** The second extent of an object is not found.  An object that is extended twice, by [n1]
    and then by [n2] blocks, has its first [n1] blocks where they were allocated, but every
    block behind them is taken to be the block of the data file with the number that it has
    in the object: the search of a leaf never arrives at an entry with an odd number.  For the
    first object these are its own first blocks or those of the objects after it. *)
Theorem second_extent_misplaced fuel s v n n1 n2 w1 l1 w2 b0 w3 l2 :
  0 < ino v -> index_file s !! Z.to_nat (ino v - 1) = Some n -> root_depth n = 0 -> total_extent v = 0 ->
  grow_data n1 (backend s) = (w1, Some l1) -> grow_extents w1 = (w2, Some b0) -> grow_data n2 w2 = (w3, Some l2) ->
  0 < n1 < 2 ^ 16 -> 0 < n2 < 2 ^ 16 -> Z.of_nat (length l1) = n1 -> num_blocks s + n1 + n2 + 1 < 2 ^ 32 -> Z.of_nat (length (extents_file s)) + 1 < 2 ^ 32 ->
  exists s2 v2, (v1 ← push fuel v n1; push fuel v1 n2) s = Done (s2, inr v2)
    /\ total_extent v2 = n1 + n2 /\ data_file s2 = data_file s ++ l1 ++ l2
    /\ (forall i, 0 <= i < n1 -> actual_block (3 + fuel) v2 i s2 = Done (s2, inr (num_blocks s + 1 + i)))
    /\ (forall i, n1 <= i < n1 + n2 -> actual_block (3 + fuel) v2 i s2 = Done (s2, inr i)).
Proof.
  intros Hv Hn Hd Ht Hg1 Hg2 Hg3 Hn1 Hn2 Hl1 Hnb He.
  destruct (push_first s v n n1 w1 l1 w2 b0 fuel Hv Hn Hd Hg1 Hg2 ltac:(unfold num_blocks in *; lia) He) as (s1 & n' & b & E1 & Hroot & Hents & Hdata & Hw).
  rewrite (run_bind _ _ _ _ _ E1). rewrite Ht in *. change (u32 0) with 0 in Hents. rewrite Z.add_0_l.
  assert (u64 n1 = n1) as -> by (unfold u64; apply Z.mod_small; lia). set (v1 := MkV _ _ _ _ _ _).
  assert (first_free b 0 = Some 1) as Hff.
  { unfold first_free. rewrite drop_0, Hents. cbn [list_find]. rewrite decide_False by (cbn [start]; unfold num_blocks; lia). done. }
  assert (num_blocks s1 = num_blocks s + n1) as Hnb1 by (unfold num_blocks; rewrite Hdata, length_app; lia).
  destruct (push_next s1 v1 n' b 1 n2 w3 l2 fuel Hroot Hff ltac:(by rewrite Hw) ltac:(lia)) as (s2 & b' & E2 & Hroot2 & Hents2 & Hdata2 & _).
  rewrite E2. exists s2. eexists. split; [done|]. cbn [total_extent v1].
  assert (u64 (n1 + n2) = n1 + n2) as -> by (unfold u64; apply Z.mod_small; lia). split; [done|]. split; [by rewrite Hdata2, Hdata, <- app_assoc|].
  rewrite Hents, u32_small, Hnb1 in Hents2 by (cbn [total_extent v1]; lia).
  assert (forall i, i < n1 + n2 -> extent_at (3 + fuel) (MkV (ino v1) (n1 + n2) 1 (buf v1) (dirty_blocks v1) (is_dirty v1)) i s2
            = Done (s2, inr (if i <? n1 then MkExt 0 n1 (num_blocks s + 1) else ext0))) as Hfind.
  { intros i Hi. rewrite (extent_at_leaf _ s2 _ n' b'); [|exact Hroot2|done]. destruct Hroot2 as (_ & _ & _ & _ & _ & Hd2).
    erewrite (find_two fuel s2 b'); [|done|exact Hents2|cbn [start]; unfold num_blocks in *; lia]. done. }
  split; intros i Hi; unfold actual_block; rewrite (run_bind _ _ _ _ _ (Hfind i ltac:(lia))).
  - destruct (Z.ltb_spec i n1); [|lia]. cbn [start ordinal]. rewrite u32_small by (unfold num_blocks in *; lia). by rewrite Z.sub_0_r.
  - destruct (Z.ltb_spec i n1); [lia|]. cbn [start ordinal ext0]. rewrite u32_small by (unfold num_blocks in *; lia). by rewrite Z.sub_0_r.
Qed.

(** ** Objects of one extent *)
Record one_extent s v (m a : Z) : Prop := {
  one_root : exists n b, leaf_root s v n b /\ entries b = MkExt 0 m a :: drop 1 blank_entries;
  one_total : total_extent v = m;
  one_blocks : 0 < m /\ 1 <= a /\ a - 1 + m <= num_blocks s /\ a + m < 2 ^ 32 }.
Definition full_blocks (d : list (list Z)) : Prop := Forall (fun b => length b = 1024%nat) d.
Lemma one_extent_at fuel s v m a i : one_extent s v m a -> i < m -> extent_at (3 + fuel) v i s = Done (s, inr (MkExt 0 m a)).
Proof.
  intros [(n & b & Hroot & He) Ht Hb] Hi. rewrite (extent_at_leaf _ s v n b i Hroot) by lia. destruct Hroot as (_ & _ & _ & _ & _ & Hd).
  by apply find_one.
Qed.
Lemma one_actual fuel s v m a i : one_extent s v m a -> 0 <= i < m -> actual_block (3 + fuel) v i s = Done (s, inr (a + i)).
Proof.
  intros H Hi. unfold actual_block. rewrite (run_bind _ _ _ _ _ (one_extent_at fuel s v m a i H ltac:(lia))). destruct H as [_ _ Hb].
  cbn [start ordinal]. rewrite u32_small by lia. by rewrite Z.sub_0_r.
Qed.
Lemma one_extent_data s v m a d : length d = length (data_file s) -> one_extent s v m a -> one_extent (set_data s d) v m a.
Proof. intros Hl [Hr Ht Hb]. split; [done|done|]. unfold num_blocks in *. cbn [data_file set_data]. by rewrite Hl. Qed.

(** The part of the buffer that belongs to a block, and the block with it: what the buffer does
    not reach stays. *)
Definition buf_sector v (i : Z) : list Z := take 1024 (drop (Z.to_nat (i * 1024)) (buf v)).
Definition stored_block v (i : Z) (b : list Z) : list Z := buf_sector v i ++ drop (length (buf_sector v i)) b.
Lemma stored_twice v i b : stored_block v i (stored_block v i b) = stored_block v i b.
Proof. unfold stored_block at 1. f_equal. unfold stored_block. by rewrite drop_app_length. Qed.
Lemma length_stored_block v i b : length b = 1024%nat -> length (stored_block v i b) = 1024%nat.
Proof. intros H. unfold stored_block. rewrite length_app, length_drop. unfold buf_sector. rewrite length_take. lia. Qed.
Lemma sector_in v i : 0 <= i -> i * 1024 <= Z.of_nat (length (buf v)) < 2 ^ 64 -> sector v i = Done (buf_sector v i).
Proof.
  intros Hi Hl. unfold sector, sysfs_data_block_size. assert (u64 (Z.of_nat (length (buf v)) - i * 1024) = Z.of_nat (length (buf v)) - i * 1024) as -> by (unfold u64; rewrite Z.mod_small; lia).
  unfold rd, buf_sector. case_cmp; try lia. simpl andb. cbv iota. f_equal. destruct (Z.min_spec 1024 (Z.of_nat (length (buf v)) - i * 1024)) as [[? ->]|[? ->]]; [done|].
  rewrite !take_ge; rewrite ?length_drop; try lia; done.
Qed.
(** The data file after the blocks of some ranges of an object that begins with the block [a]
    were written. *)
Definition in_ranges (l : list (Z * Z)) (i : Z) : bool := existsb (fun r => (r.1 <=? i) && (i <? r.2)) l.
Definition store_one v (a : Z) (l : list (Z * Z)) (j : nat) (b : list Z) : list Z :=
  let i := Z.of_nat j - (a - 1) in if in_ranges l i then stored_block v i b else b.
Definition store_ranges v (a : Z) (l : list (Z * Z)) (d : list (list Z)) : list (list Z) := imap (store_one v a l) d.
Lemma store_ranges_app v a l1 l2 d : store_ranges v a l2 (store_ranges v a l1 d) = store_ranges v a (l1 ++ l2) d.
Proof.
  unfold store_ranges. apply list_eq. intros j. rewrite !list_lookup_imap. destruct (d !! j) as [b|]; [|done]. simpl. f_equal. unfold store_one, in_ranges.
  rewrite existsb_app. destruct (existsb _ l1), (existsb _ l2); simpl; try done. apply stored_twice.
Qed.
Lemma store_ranges_full v a l d : full_blocks d -> full_blocks (store_ranges v a l d).
Proof.
  intros Hd. apply Forall_lookup_2. intros j b. unfold store_ranges. rewrite list_lookup_imap. destruct (d !! j) as [b'|] eqn:E; [|done]. intros [= <-].
  pose proof (Forall_lookup_1 _ _ _ _ Hd E) as Hl. unfold store_one. destruct (in_ranges l _); [by apply length_stored_block|done].
Qed.
Lemma store_ranges_insert v a i d b :
  0 <= i -> 1 <= a -> d !! Z.to_nat (a + i - 1) = Some b -> <[Z.to_nat (a + i - 1) := stored_block v i b]> d = store_ranges v a [(i, i + 1)] d.
Proof.
  intros Hi Ha Hb. apply list_eq. intros j. unfold store_ranges. rewrite list_lookup_imap. unfold store_one, in_ranges. cbn [existsb fst snd]. rewrite orb_false_r.
  destruct (decide (j = Z.to_nat (a + i - 1))) as [->|Hne].
  - rewrite list_lookup_insert_eq by (by eapply lookup_lt_Some). rewrite Hb. simpl. replace (Z.of_nat (Z.to_nat (a + i - 1)) - (a - 1)) with i by lia. by case_cmp; try lia.
  - rewrite list_lookup_insert_ne by done. destruct (d !! j); [|done]. simpl. case_cmp; simpl; try done; lia.
Qed.
Lemma store_ranges_empty v a i d : store_ranges v a [(i, i)] d = d.
Proof.
  apply list_eq. intros j. unfold store_ranges. rewrite list_lookup_imap. destruct (d !! j); [|done]. simpl. unfold store_one, in_ranges. cbn [existsb fst snd].
  case_cmp; simpl; try done; lia.
Qed.
Lemma store_ranges_join v a i j k d : i <= j <= k -> store_ranges v a [(i, j); (j, k)] d = store_ranges v a [(i, k)] d.
Proof.
  intros H. apply list_eq. intros n. unfold store_ranges. rewrite !list_lookup_imap. destruct (d !! n); [|done]. simpl. unfold store_one, in_ranges. cbn [existsb fst snd].
  case_cmp; simpl; try done; lia.
Qed.
Lemma write_data_run (s : sysfs W) (st : Z) v i b :
  0 < st -> data_file s !! Z.to_nat (st - 1) = Some b -> length b = 1024%nat ->
  write_data st (buf_sector v i) s = Done (set_data s (<[Z.to_nat (st - 1) := stored_block v i b]> (data_file s)), inr tt).
Proof.
  intros Hs Hb Hl. unfold write_data, block. rewrite (run_record data_file _ s _ b Hs Hb).
  assert (length (buf_sector v i) <= 1024)%nat as Hle by (unfold buf_sector; rewrite length_take; lia). unfold wr. case_cmp; try lia. simpl andb. cbv iota.
  change (Z.to_nat 0) with 0%nat. by rewrite take_0, Nat.add_0_l.
Qed.
(** A range of blocks that the object has, and its buffer reaches. *)
Definition range_ok v (m : Z) (r : Z * Z) : Prop := 0 <= r.1 /\ forall i, r.1 <= i < r.2 -> i < m /\ i * 1024 <= Z.of_nat (length (buf v)).
Lemma write_range_run k fuel s v m a i d :
  one_extent s v m a -> Z.of_nat (length (buf v)) < 2 ^ 64 -> range_ok v m (i, i + Z.of_nat k) -> length d = length (data_file s) -> full_blocks d ->
  write_range k (3 + fuel) v i (set_data s d) = Done (set_data s (store_ranges v a [(i, i + Z.of_nat k)] d), inr tt).
Proof.
  intros H1 Hbuf. revert i d. induction k as [|k IH]; intros i d Hr Hl Hf; cbn [write_range]; [by rewrite Z.add_0_r, store_ranges_empty|].
  destruct Hr as [Hi Hr]. cbn [fst snd] in Hi, Hr. destruct (Hr i ltac:(lia)) as [Him Hib].
  pose proof (one_extent_data _ _ _ _ d Hl H1) as H1d. destruct (one_blocks _ _ _ _ H1) as (Hm & Ha & Hab & Ham). unfold num_blocks in Hab.
  rewrite (run_bind _ _ _ _ _ (one_actual fuel (set_data s d) v m a i H1d ltac:(lia))), (sector_in v i ltac:(lia) ltac:(lia)).
  destruct (lookup_lt_is_Some_2 d (Z.to_nat (a + i - 1)) ltac:(lia)) as [b Hb].
  rewrite (run_bind _ _ _ _ _ (write_data_run (set_data s d) (a + i) v i b ltac:(lia) Hb (Forall_lookup_1 _ _ _ _ Hf Hb))).
  cbn [data_file set_data]. rewrite (store_ranges_insert v a i d b ltac:(lia) ltac:(lia) Hb). change (set_data (set_data s d) ?x) with (set_data s x).
  rewrite IH; [|split; [cbn; lia|cbn [fst snd]; intros; apply Hr; lia]|unfold store_ranges; by rewrite length_imap|by apply store_ranges_full].
  rewrite store_ranges_app. cbn [app]. replace (i + 1 + Z.of_nat k) with (i + Z.of_nat (S k)) by lia. rewrite store_ranges_join by lia. done.
Qed.
Lemma write_ranges_run l fuel s v m a d :
  one_extent s v m a -> Z.of_nat (length (buf v)) < 2 ^ 64 -> Forall (range_ok v m) l -> length d = length (data_file s) -> full_blocks d ->
  write_ranges (3 + fuel) v l (set_data s d) = Done (set_data s (store_ranges v a l d), inr tt).
Proof.
  intros H1 Hbuf Hl. revert d. induction Hl as [|[st en] l Hr _ IH]; intros d Hd Hf; cbn [write_ranges].
  { unfold store_ranges. assert (imap (store_one v a []) d = d) as ->; [|done]. apply list_eq. intros j. rewrite list_lookup_imap. by destruct (d !! j). }
  assert (write_range (Z.to_nat (en - st)) (3 + fuel) v st (set_data s d) = Done (set_data s (store_ranges v a [(st, en)] d), inr tt)) as Hw.
  { destruct (Z.le_gt_cases st en) as [Hle|Hgt].
    - replace en with (st + Z.of_nat (Z.to_nat (en - st))) at 2 by lia. apply (write_range_run _ _ _ _ m); try done. by replace (st + Z.of_nat (Z.to_nat (en - st))) with en by lia.
    - replace (Z.to_nat (en - st)) with 0%nat by lia. cbn [write_range]. assert (store_ranges v a [(st, en)] d = d) as ->; [|done].
      apply list_eq. intros j. unfold store_ranges. rewrite list_lookup_imap. destruct (d !! j); [|done]. simpl. unfold store_one, in_ranges. cbn [existsb fst snd].
      case_cmp; simpl; try done; lia. }
  rewrite (run_bind _ _ _ _ _ Hw), IH; [|unfold store_ranges; by rewrite length_imap|by apply store_ranges_full].
  by rewrite store_ranges_app.
Qed.

(** C30: What an object holds is written where it belongs, as long as it has one extent.  Let
    ranges of its blocks be waiting to be written, each inside the object and no further than
    its buffer reaches.  After [commit] up to a position of the buffer that lies in a block of
    the object, and [sync], every block in one of these ranges and every block up to that
    position begins with its part of the buffer and keeps the bytes that the buffer does not
    reach, all other blocks are as before, and nothing is left to write. *)
Theorem committed_object_is_written fuel s v m a pos :
  one_extent s v m a -> Z.of_nat (length (buf v)) < 2 ^ 64 -> full_blocks (data_file s) -> Forall (range_ok v m) (dirty_blocks v) ->
  0 <= pos <= Z.of_nat (length (buf v)) -> pos / 1024 < m ->
  let '(v1, r) := commit v pos in
  r = (pos / 1024 + 1) * 1024
  /\ exists d, sync (3 + fuel) v1 s = Done (set_data s d, inr (MkV (ino v) (total_extent v) (stored_leaf_index v) (buf v) [] false, 0))
    /\ (forall i b, 0 <= i -> data_file s !! Z.to_nat (a - 1 + i) = Some b ->
          i <= pos / 1024 \/ in_ranges (dirty_blocks v) i = true -> d !! Z.to_nat (a - 1 + i) = Some (buf_sector v i ++ drop (length (buf_sector v i)) b))
    /\ (forall j, let i := Z.of_nat j - (a - 1) in ~ (0 <= i <= pos / 1024) -> in_ranges (dirty_blocks v) i = false -> d !! j = data_file s !! j).
Proof.
  intros H1 Hbuf Hfull Hdirty Hpos Hblk. destruct (one_blocks _ _ _ _ H1) as (Hm & Ha & Hab & Ham). unfold num_blocks in Hab.
  unfold commit, sysfs_data_block_size. destruct (Z.ltb_spec (Z.of_nat (length (buf v))) pos); [lia|].
  assert (0 <= pos / 1024) as Hq by (apply Z.div_pos; lia). rewrite u32_small by lia. split; [done|].
  set (l := dirty_blocks v ++ [(0, pos / 1024 + 1)]). set (v1 := MkV _ _ _ _ _ _).
  assert (Forall (range_ok v1 m) l) as Hl.
  { apply Forall_app. split; [exact Hdirty|]. constructor; [|done]. split; [done|]. cbn [fst snd]. intros i Hi. cbn [buf v1]. split; [lia|]. zlia. }
  exists (store_ranges v1 a l (data_file s)). split_and!.
  - pose proof (write_ranges_run l fuel s v1 m a (data_file s) ltac:(by destruct H1) Hbuf Hl eq_refl Hfull) as Hw.
    assert (set_data s (data_file s) = s) as Hid by (by destruct s). rewrite Hid in Hw.
    unfold sync. cbn [is_dirty v1]. unfold write_dev. cbn [dirty_blocks v1]. fold l. fold v1.
    erewrite run_bind; [|eapply (run_catch _ _ _ _ (inr _)); rewrite (run_bind _ _ _ _ _ Hw); reflexivity]. done.
  - intros i b Hi Hb Hin. unfold store_ranges. rewrite list_lookup_imap, Hb. simpl. f_equal. unfold store_one. replace (Z.of_nat _ - _) with i by lia.
    assert (in_ranges l i = true) as ->; [|done]. unfold l, in_ranges. rewrite existsb_app. fold (in_ranges (dirty_blocks v) i). cbn [existsb fst snd].
    destruct Hin as [Hle| ->]; [|done]. case_cmp; try lia.
  - intros j Hout Hno. set (i := Z.of_nat j - (a - 1)) in *. unfold store_ranges. rewrite list_lookup_imap. destruct (data_file s !! j) as [b|]; [|done]. simpl. f_equal. unfold store_one. fold i.
    assert (in_ranges l i = false) as ->; [|done]. unfold l, in_ranges. rewrite existsb_app. fold (in_ranges (dirty_blocks v) i). rewrite Hno. cbn [existsb fst snd].
    case_cmp; simpl; try done; lia.
Qed.

(** Reading blocks to the sectors with their numbers leaves the buffer. *)
Lemma read_extent_undefined k b x s m :
  Z.of_nat (length b) = m * 1024 -> (1 <= k)%nat -> 1 <= x -> m < x + Z.of_nat k -> x - 1 + Z.of_nat k <= num_blocks s -> x + Z.of_nat k < 2 ^ 32 ->
  full_blocks (data_file s) -> read_extent k b x s = Undef.
Proof.
  revert b x. induction k as [|k IH]; intros b x Hb Hk Hx Hm Hn H32 Hf; [lia|]. cbn [read_extent]. unfold num_blocks in Hn.
  destruct (lookup_lt_is_Some_2 (data_file s) (Z.to_nat (x - 1)) ltac:(lia)) as [d Hd]. assert (length d = 1024%nat) as Hl by (by eapply Forall_lookup_1 in Hf).
  rewrite (run_bind _ _ s s d).
  2: { unfold read_data, block. rewrite (run_record data_file _ s x d ltac:(lia) Hd), rd_whole by (unfold sysfs_data_block_size; lia). done. }
  unfold wr, sysfs_data_block_size. destruct (Z.leb_spec (x * 1024 + Z.of_nat (length d)) (Z.of_nat (length b))) as [Hle|Hgt]; [|by rewrite andb_false_r].
  destruct (Z.leb_spec 0 (x * 1024)); [|lia]. simpl andb. cbv iota. rewrite u32_small by lia.
  apply IH; unfold num_blocks; try done; try lia. rewrite !length_app, length_take, length_drop. lia.
Qed.
(** No object can be opened again.  For every object of one extent, whose blocks are all
    there, opening it after a start writes behind the end of the buffer made for it: block
    number [b] of the data file is read to sector [b] of the object, and the numbers of the
    blocks begin with one. *)
Theorem reopened_object_overruns fuel s i m a n b mem :
  leaf_root s (MkV i m 0 [] [] false) n b -> entries b = MkExt 0 m a :: drop 1 blank_entries ->
  0 < m < 2 ^ 16 -> 1 <= a -> a - 1 + m <= num_blocks s -> a + m < 2 ^ 32 -> full_blocks (data_file s) ->
  opened_nodes s !! i = None -> (forall c, exists l, mem c = Some l /\ length l = Z.to_nat c) ->
  open (3 + fuel) mem i s = Undef.
Proof.
  intros Hroot He Hm Ha Hn H32 Hf Hop Hmem. pose proof Hroot as (Hi & Hino & Hd & Hr & Hb & Hbd). cbn [ino] in Hi, Hino.
  unfold open. rewrite run_gets, Hop, run_gets. pose proof (lookup_lt_Some _ _ _ Hino). destruct (Z.ltb_spec (Z.of_nat (length (index_file s))) i); [lia|].
  rewrite (run_bind _ _ s s m).
  2: { unfold total_extents, get_inode. rewrite (run_record index_file _ s _ n Hi Hino), Hd. change (1 =? 0) with false. cbv iota.
       unfold get_extent_branch. rewrite (run_record extents_file _ s _ b Hr Hb). cbn [total_extents_branch Nat.add]. rewrite Hbd. change (0 =? 0) with true. cbv iota.
       rewrite He. change (drop 1 blank_entries) with (replicate 6 ext0). cbn [foldr replicate length_ ext0]. by rewrite !Z.add_0_r. }
  apply run_undef. unfold init. cbn [total_extent]. destruct (Z.eqb_spec m 0); [lia|].
  destruct (Hmem (block_capacity (MkV i m 0 [] [] false))) as (l & -> & Hlen).
  destruct (Z.to_nat m) as [|k] eqn:Ek; [lia|]. cbn [read_all]. set (v := MkV _ _ _ _ _ _).
  assert (one_extent s v m a) as H1 by (split; [by exists n, b|done|lia]).
  rewrite (run_bind _ _ _ _ _ (one_extent_at fuel s v m a 0 H1 ltac:(lia))). apply run_undef. cbn [length_ start buf v].
  rewrite u32_small by lia. apply (read_extent_undefined _ _ _ s m); try done; try lia.
  rewrite Hlen. unfold block_capacity, sysfs_data_block_size. cbn [total_extent]. lia.
Qed.
End Fs.

(** ** Witnesses: files that grow with zeros *)
#[global] Instance zero_backing : Backing unit := {|
  grow_data := fun n w => (w, Some (replicate (Z.to_nat n) (replicate 1024 0)));
  grow_index := fun w => (w, Some (MkIno 0 0 0 ext0 0));
  grow_extents := fun w => (w, Some (MkBr 0 blank_entries 0));
  grow_directory := fun w => (w, Some (MkDirent 0 0 (replicate 22 0) 0));
  crc32c := fun l => foldr (fun b x => u32 (b + 31 * x)) 7 l |}.
Definition blank_fs : sysfs unit := MkFs [] [] [] [] ∅ ∅ tt.
Definition one_object : sysfs unit := MkFs [] [MkIno 1 0 0 ext0 0] [] [] ∅ ∅ tt.
Definition no_blocks : sysfs_vnode := MkV 1 0 0 [] [] false.
Definition two_blocks : sysfs unit := MkFs (replicate 2 (replicate 1024 0)) [MkIno 1 1 1024 (MkExt 0 0 1) 0] [MkBr 0 (MkExt 0 2 1 :: drop 1 blank_entries) 0] [] ∅ ∅ tt.
Lemma two_blocks_root v : ino v = 1 -> leaf_root two_blocks v (MkIno 1 1 1024 (MkExt 0 0 1) 0) (MkBr 0 (MkExt 0 2 1 :: drop 1 blank_entries) 0).
Proof. intros Hv. unfold leaf_root. rewrite Hv. done. Qed.
Lemma two_blocks_full : full_blocks (data_file two_blocks).
Proof. repeat constructor. Qed.
Lemma second_extent_misplaced_witness :
  exists s2 v2, (v1 ← push 5 no_blocks 1; push 5 v1 2) one_object = Done (s2, inr v2) /\ actual_block 8 v2 1 s2 = Done (s2, inr 1).
Proof.
  destruct (second_extent_misplaced 5 one_object no_blocks (MkIno 1 0 0 ext0 0) 1 2 tt (replicate 1 (replicate 1024 0)) tt (MkBr 0 blank_entries 0) tt (replicate 2 (replicate 1024 0)))
    as (s2 & v2 & H1 & _ & _ & _ & H2); try done; try (unfold num_blocks; simpl; lia).
  exists s2, v2. split; [exact H1|]. apply H2. lia.
Defined.
(** A buffer that ends in the second block, which also waits to be written. *)
Definition partly : sysfs_vnode := MkV 1 2 0 (replicate 1100 9) [(1, 2)] true.
Lemma partly_extent : one_extent two_blocks partly 2 1.
Proof. split; [eexists _, _; split; [by apply two_blocks_root|done]|done|unfold num_blocks; simpl; lia]. Qed.
Lemma committed_object_is_written_witness :
  exists d, sync 5 (fst (commit partly 30)) two_blocks = Done (set_data two_blocks d, inr (MkV 1 2 0 (replicate 1100 9) [] false, 0))
    /\ d !! 0%nat = Some (replicate 1024 9) /\ d !! 1%nat = Some (replicate 76 9 ++ replicate 948 0).
Proof.
  destruct (committed_object_is_written 2 two_blocks partly 2 1 30 partly_extent ltac:(simpl; lia) two_blocks_full) as (_ & d & H1 & H2 & _); [|simpl; lia|reflexivity|].
  { repeat constructor; cbn [fst snd] in *; [lia|lia|simpl; lia]. }
  exists d. split; [exact H1|]. split.
  - change 0%nat with (Z.to_nat (1 - 1 + 0)). erewrite (H2 0 (replicate 1024 0)); [vm_compute; reflexivity|lia|reflexivity|by left].
  - change 1%nat with (Z.to_nat (1 - 1 + 1)). erewrite (H2 1 (replicate 1024 0)); [vm_compute; reflexivity|lia|reflexivity|by right].
Defined.
Lemma reopened_object_overruns_witness : open 5 (fun c => Some (replicate (Z.to_nat c) 0)) 1 two_blocks = Undef.
Proof.
  apply (reopened_object_overruns 2 two_blocks 1 2 1 (MkIno 1 1 1024 (MkExt 0 0 1) 0) (MkBr 0 (MkExt 0 2 1 :: drop 1 blank_entries) 0)); try done; try lia.
  - exact two_blocks_full.
  - intros c. eexists. split; [done|]. apply length_replicate.
Defined.
End SysfsProps.
