(* ===== verification/SysfsTable.v ===== *)
(** The hash tables of the configuration store (kernel/fs/sysfs/sysfs_object_table.cpp and the
    templates at the end of kernel/fs/sysfs.hpp).

    A table is its two numbers and the 64-bit words behind its header, the buckets and then two
    words for each entry, as they lie in the buffer of the table's node; the values are those
    in the buffer of the data node.  Whether the two nodes could grow and be written is given. *)
From S2P Require Import Prelude StateExn.

Module SysfsTable.

Inductive exn := out_of_range | bad_alloc.

Record table (V : Type) := MkT { num_buckets : Z; num_entries : Z; words : list Z; values : list V }.
Arguments MkT {V} num_buckets num_entries words values.
Arguments num_buckets {V} t.
Arguments num_entries {V} t.
Arguments words {V} t.
Arguments values {V} t.

Section Table.
Context {K V : Type} (key_of : V -> K) (hash_of : K -> Z) (key_eqb : K -> K -> bool).
Implicit Types (t : table V).
Local Notation M := (SE (table V) exn).

Definition at_word {A} (l : list A) (i : Z) : M A := match (if i <? 0 then None else l !! Z.to_nat i) with Some x => mret x | None => undef end.
Definition word (i : Z) : M Z := w ← gets words; at_word w i.
Definition put_word (i x : Z) : M unit := _ ← word i; modify (fun t => MkT (num_buckets t) (num_entries t) (<[Z.to_nat i := x]> (words t)) (values t)).
(** Where the words of the entry [k] are; the first entry has the number 0. *)
Definition index_word t (k : Z) : Z := num_buckets t + 2 * k.
Definition next_word t (k : Z) : Z := num_buckets t + 2 * k + 1.

(** [total_table_bytes], in words *)
Definition total_table_words t : Z := num_buckets t + num_entries t * 2.
(** The end of the chain from the entry with the number [prev_idx], from 1. *)
Fixpoint chain_end (fuel : nat) (prev_idx : Z) : M Z :=
  (t ← gets id;
   n ← word (next_word t (prev_idx - 1));
   if n =? 0 then mret prev_idx else
   match fuel with O => no_fuel | S f => p ← word (next_word t prev_idx); chain_end f p end) : M Z.
Definition write_entry (pos : Z) (e : list Z) : M unit :=
  modify (fun t => MkT (num_buckets t) (num_entries t) (take (Z.to_nat pos) (words t) ++ e ++ drop (Z.to_nat pos + length e) (words t)) (values t)).
(** [add_entry]: [stored] and [synced] are whether the entry could be written and the node be
    written out. *)
Definition add_entry (fuel : nat) (stored synced : bool) (object_hash object_index : Z) : M bool :=
  t ← gets id;
  if negb stored then mret false else
  write_entry (total_table_words t) [object_index + 1; 0];;
  let bucket := object_hash mod num_buckets t in
  let entry_idx := num_entries t in
  prev_idx ← word bucket;
  (if prev_idx =? 0 then put_word bucket (entry_idx + 1)
   else e ← chain_end fuel prev_idx; put_word (next_word t (e - 1)) (entry_idx + 1));;
  modify (fun t => MkT (num_buckets t) (num_entries t + 1) (words t) (values t));;
  mret synced.
(** An entry is its number, from 0. *)
Definition get_chain_start (object_hash : Z) : M (option Z) :=
  t ← gets id; i ← word (object_hash mod num_buckets t); mret (if i =? 0 then None else Some (i - 1)).
Definition get_chain_next (e : Z) : M (option Z) :=
  t ← gets id; n ← word (next_word t e);
  if n =? 0 then mret None else if num_entries t <? n then throw out_of_range else mret (Some (n - 1)).
Fixpoint find_in_chain (fuel : nat) (key : K) (e : option Z) : M Z :=
  match e with
  | None => mret 0
  | Some e =>
      match fuel with
      | O => no_fuel
      | S f =>
          t ← gets id;
          i ← word (index_word t e);
          v ← at_word (values t) (i - 1);
          if key_eqb key (key_of v) then mret i else n ← get_chain_next e; find_in_chain f key n
      end
  end.
(** 0 when there is no such value, its number from 1 otherwise. *)
Definition find_value_index (fuel : nat) (key : K) : M Z := e ← get_chain_start (hash_of key); find_in_chain fuel key e.
Definition contains (fuel : nat) (key : K) : M bool := i ← find_value_index fuel key; mret (negb (i =? 0)).
(** The value of a handle; [nxobj] is 0. *)
Definition value_at (i : Z) : M V := t ← gets id; at_word (values t) (i - 1).
Definition get (fuel : nat) (key : K) : M Z := i ← find_value_index fuel key; if i =? 0 then throw out_of_range else mret i.
(** [add]: [grown] is whether the data node could grow, by the bytes of one value. *)
Definition put_value (i : nat) (v : V) : M unit :=
  modify (fun t => MkT (num_buckets t) (num_entries t) (words t) (take i (values t) ++ v :: drop (i + 1) (values t))).
Definition add (fuel : nat) (grown stored synced : bool) (v : V) : M (Z * bool) :=
  i ← find_value_index fuel (key_of v);
  if negb (i =? 0) then mret (i, false) else
  t ← gets id;
  let target_index := num_entries t in
  ok ← (if grown then add_entry fuel stored synced (hash_of (key_of v)) target_index else mret false);
  if negb ok then throw bad_alloc else
  put_value (Z.to_nat target_index) v;;
  mret (target_index + 1, true).
End Table.
(** A new table, as [create_sysfs_hashtable] makes it in the new object: [expanded] is what the
    object's buffer holds behind the header once it was made large enough, if it could be.
    Only the header is written: the buckets are what the new memory holds, zeros when the
    buffer had no storage before. *)
Definition create_sysfs_hashtable {V} (expanded : option (list Z)) (buckets : Z) : exn + table V :=
  match expanded with Some words => inr (MkT buckets 0 words []) | None => inl bad_alloc end.
End SysfsTable.
