(* ===== verification/SysfsTableProps.v ===== *)
(** Properties of the hash tables of the configuration store (SysfsTable.v): a value whose
    bucket is empty is found after it was added, and so is every value from before; the third
    value of a bucket is not. *)
From S2P Require Import Prelude StateExn SysfsTable.
Import SysfsTable.

Module SysfsTableProps.

Section Table.
Context {K V : Type} (key_of : V -> K) (hash_of : K -> Z) (key_eqb : K -> K -> bool).
Hypothesis key_eqb_refl : forall k, key_eqb k k = true.
Implicit Types (t : table V).

(** The word at an index. *)
Definition w_at t (i : Z) : option Z := if i <? 0 then None else words t !! Z.to_nat i.
Lemma run_word {B} t i x (k : Z -> SE (table V) exn B) : w_at t i = Some x -> (word i ≫= k) t = k x t.
Proof. unfold w_at, word. intros H. rewrite run_assoc, run_gets. unfold at_word. by rewrite H. Qed.
Lemma run_put_word {B} t i x y (k : unit -> SE (table V) exn B) :
  w_at t i = Some x -> (put_word i y ≫= k) t = k tt (MkT (num_buckets t) (num_entries t) (<[Z.to_nat i := y]> (words t)) (values t)).
Proof. intros H. unfold put_word. by rewrite run_assoc, (run_word t i x), run_modify. Qed.

(** Buckets and chains stay inside the table; the value of an entry has the entry's number. *)
Record table_ok t : Prop := {
  ok_buckets : 0 < num_buckets t;
  ok_size : 0 <= num_entries t /\ num_buckets t + 2 * num_entries t <= Z.of_nat (length (words t));
  ok_values : Z.of_nat (length (values t)) = num_entries t;
  ok_bucket : forall b, 0 <= b < num_buckets t -> exists x, w_at t b = Some x /\ 0 <= x <= num_entries t;
  ok_index : forall e, 0 <= e < num_entries t -> w_at t (index_word t e) = Some (e + 1);
  ok_next : forall e, 0 <= e < num_entries t -> exists x, w_at t (next_word t e) = Some x /\ 0 <= x <= num_entries t }.
(** A table made in memory whose bucket words are zero. *)
Lemma new_table_ok ws n t :
  create_sysfs_hashtable (Some ws) n = inr t -> 0 < n -> n <= Z.of_nat (length ws) -> Forall (fun x => x = 0) (take (Z.to_nat n) ws) -> table_ok t.
Proof.
  intros [= <-] Hn Hl Hz. split; simpl; try lia.
  intros b Hb. exists 0. split; [|lia]. unfold w_at. destruct (Z.ltb_spec b 0); [lia|]. simpl.
  destruct (lookup_lt_is_Some_2 ws (Z.to_nat b)) as [x Hx]; [lia|]. rewrite Hx. f_equal.
  apply (Forall_lookup_1 _ _ (Z.to_nat b) x Hz). by rewrite lookup_take_lt by lia.
Qed.

(** The words below the entries that are in use. *)
Definition used t : Z := num_buckets t + 2 * num_entries t.
(** A table with a new entry: the words in use are the old ones but for the word [p]. *)
Definition with_entry t (p : Z) (v : V) : table V :=
  MkT (num_buckets t) (num_entries t + 1)
    (<[Z.to_nat p := num_entries t + 1]> (take (Z.to_nat (used t)) (words t) ++ [num_entries t + 1; 0] ++ drop (Z.to_nat (used t) + 2) (words t)))
    (values t ++ [v]).
Lemma with_entry_same t p v i : table_ok t -> 0 <= p < used t -> 0 <= i < used t -> i <> p -> w_at (with_entry t p v) i = w_at t i.
Proof.
  intros Hok Hp Hi Hne. destruct (ok_size t Hok). unfold w_at, used in *. destruct (Z.ltb_spec i 0); [lia|]. cbn [words with_entry].
  rewrite list_lookup_insert_ne by lia. rewrite lookup_app_l by (rewrite length_take; unfold used; lia). by rewrite lookup_take_lt by (unfold used; lia).
Qed.
Lemma with_entry_at t p v : table_ok t -> 0 <= p < used t -> w_at (with_entry t p v) p = Some (num_entries t + 1).
Proof.
  intros Hok Hp. destruct (ok_size t Hok). unfold w_at, used in *. destruct (Z.ltb_spec p 0); [lia|]. cbn [words with_entry].
  apply list_lookup_insert_eq. rewrite length_app, length_take. unfold used. lia.
Qed.
Lemma with_entry_new t p v k : table_ok t -> 0 <= p < used t -> k = 0 \/ k = 1 -> w_at (with_entry t p v) (used t + k) = Some (if k =? 0 then num_entries t + 1 else 0).
Proof.
  intros Hok Hp Hk. destruct (ok_size t Hok). unfold w_at, used in *. destruct (Z.ltb_spec (num_buckets t + 2 * num_entries t + k) 0); [lia|]. cbn [words with_entry].
  rewrite list_lookup_insert_ne by lia. rewrite lookup_app_r by (rewrite length_take; unfold used; lia). rewrite length_take. unfold used.
  replace (_ - _)%nat with (Z.to_nat k) by lia. by destruct Hk as [-> | ->].
Qed.
Lemma with_entry_ok t p v : table_ok t -> 0 <= p < used t -> (p < num_buckets t \/ exists e, 0 <= e < num_entries t /\ p = next_word t e) -> table_ok (with_entry t p v).
Proof.
  intros Hok Hp Hpos. pose proof (ok_size t Hok) as [Hs1 Hs2]. pose proof (ok_buckets t Hok) as Hb.
  assert (forall e, 0 <= e < num_entries t -> index_word t e <> p) as Hidx.
  { intros e He <-. unfold index_word, next_word in Hpos. destruct Hpos as [?|(e' & ? & E)]; lia. }
  split; cbn [num_buckets num_entries values with_entry]; try done.
  - split; [lia|]. cbn [words with_entry]. rewrite length_insert, !length_app, length_take, length_drop. simpl. unfold used in *. lia.
  - rewrite length_app. simpl. pose proof (ok_values t Hok). lia.
  - intros b Hbb. destruct (decide (b = p)) as [->|Hne]; [exists (num_entries t + 1); split; [by apply with_entry_at|lia]|].
    destruct (ok_bucket t Hok b Hbb) as (x & Hx & Hr). exists x. rewrite with_entry_same; [split; [done|lia]|done|done|unfold used in *; lia|done].
  - intros e He. destruct (decide (e = num_entries t)) as [->|Hne].
    + pose proof (with_entry_new t p v 0 Hok Hp ltac:(by left)) as H. rewrite Z.add_0_r in H. exact H.
    + change (index_word (with_entry t p v) e) with (index_word t e). rewrite with_entry_same; [by apply ok_index; [done|lia]|done|done|unfold index_word, used in *; lia|apply Hidx; lia].
  - intros e He. change (next_word (with_entry t p v) e) with (next_word t e). destruct (decide (next_word t e = p)) as [Ep|Hne].
    + rewrite Ep. exists (num_entries t + 1). split; [by apply with_entry_at|lia].
    + destruct (decide (e = num_entries t)) as [->|Hne'].
      * exists 0. split; [exact (with_entry_new t p v 1 Hok Hp ltac:(by right))|lia].
      * destruct (ok_next t Hok e ltac:(lia)) as (x & Hx & Hr). exists x. rewrite with_entry_same; [split; [done|lia]|done|done|unfold next_word, used in *; lia|done].
Qed.

(** ** Searching *)
Local Notation find_in_chain := (find_in_chain key_of key_eqb).
Local Notation find_value_index := (find_value_index key_of hash_of key_eqb).
Local Notation add := (add key_of hash_of key_eqb).
Lemma find_entry_run t fuel key e v x :
  table_ok t -> 0 <= e < num_entries t -> values t !! Z.to_nat e = Some v -> w_at t (next_word t e) = Some x ->
  find_in_chain (S fuel) key (Some e) t
  = if key_eqb key (key_of v) then Done (t, inr (e + 1)) else find_in_chain fuel key (if x =? 0 then None else Some (x - 1)) t.
Proof.
  intros Hok He Hv Hx. cbn [SysfsTable.find_in_chain]. rewrite run_gets. unfold id. rewrite (run_word _ _ _ _ (ok_index t Hok e He)).
  unfold at_word. destruct (Z.ltb_spec (e + 1 - 1) 0); [lia|]. replace (e + 1 - 1) with e by lia. rewrite Hv, run_ret.
  destruct (key_eqb key (key_of v)); [done|]. unfold get_chain_next. rewrite run_assoc, run_gets. unfold id. rewrite run_assoc, (run_word _ _ _ _ Hx).
  destruct (ok_next t Hok e He) as (x' & Hx' & Hr). assert (x' = x) as -> by congruence.
  destruct (Z.eqb_spec x 0); [done|]. destruct (Z.ltb_spec (num_entries t) x); [lia|]. done.
Qed.
Lemma find_start t fuel key x : w_at t (hash_of key mod num_buckets t) = Some x -> find_value_index fuel key t = find_in_chain fuel key (if x =? 0 then None else Some (x - 1)) t.
Proof. intros Hx. unfold SysfsTable.find_value_index, get_chain_start. rewrite run_assoc, run_gets. unfold id. by rewrite run_assoc, (run_word _ _ _ _ Hx). Qed.
(** A search that does not read the changed word is not changed. *)
Lemma with_entry_find t p v fuel key e r :
  table_ok t -> 0 <= p < used t -> (forall x, 0 <= x < num_entries t -> next_word t x <> p) -> table_ok (with_entry t p v) ->
  match e with None => True | Some e => 0 <= e < num_entries t end ->
  find_in_chain fuel key e t = Done (t, inr r) -> find_in_chain fuel key e (with_entry t p v) = Done (with_entry t p v, inr r).
Proof.
  intros Hok Hp Hq Hok'. revert e. induction fuel as [|fuel IH]; intros [e|] He; [done| |  |].
  - cbn [SysfsTable.find_in_chain]. unfold mret, SE_ret. intros; by simplify_eq.
  - pose proof (ok_values t Hok). destruct (lookup_lt_is_Some_2 (values t) (Z.to_nat e) ltac:(lia)) as [ve Hve].
    destruct (ok_next t Hok e He) as (x & Hx & Hr). rewrite (find_entry_run t fuel key e ve x Hok He Hve Hx).
    assert (w_at (with_entry t p v) (next_word (with_entry t p v) e) = Some x) as Hx'.
    { change (next_word (with_entry t p v) e) with (next_word t e). rewrite with_entry_same; [done|done|done| |by apply Hq].
      destruct (ok_size t Hok). pose proof (ok_buckets t Hok). unfold next_word, used. lia. }
    rewrite (find_entry_run (with_entry t p v) fuel key e ve x Hok'); [|cbn [num_entries with_entry]; lia| |done].
    2: { cbn [values with_entry]. rewrite lookup_app_l by lia. done. }
    destruct (key_eqb key (key_of ve)); [intros; by simplify_eq|]. apply IH. destruct (Z.eqb_spec x 0); lia.
  - cbn [SysfsTable.find_in_chain]. unfold mret, SE_ret. intros; by simplify_eq.
Qed.

(** ** Adding *)
Lemma add_absent t fuel v p t1 :
  table_ok t -> find_value_index fuel (key_of v) t = Done (t, inr 0) ->
  add_entry fuel true true (hash_of (key_of v)) (num_entries t) t = Done (t1, inr true) -> with_entry t p v = MkT (num_buckets t1) (num_entries t1) (words t1) (values t1 ++ [v]) ->
  values t1 = values t -> add fuel true true true v t = Done (with_entry t p v, inr (num_entries t + 1, true)).
Proof.
  intros Hok Hf Ha Hw Hv. unfold SysfsTable.add. rewrite (run_bind _ _ _ _ _ Hf). change (negb (0 =? 0)) with false. cbv iota. rewrite run_gets. unfold id.
  rewrite (run_bind _ _ _ _ _ Ha). cbn [negb]. unfold put_value. rewrite run_modify, Hw, Hv. pose proof (ok_values t Hok).
  rewrite firstn_all2 by lia. rewrite drop_ge by lia. done.
Qed.
Lemma add_entry_empty t fuel h :
  table_ok t -> w_at t (h mod num_buckets t) = Some 0 ->
  exists t1, add_entry fuel true true h (num_entries t) t = Done (t1, inr true) /\ values t1 = values t
    /\ forall v, with_entry t (h mod num_buckets t) v = MkT (num_buckets t1) (num_entries t1) (words t1) (values t1 ++ [v]).
Proof.
  intros Hok Hb. unfold add_entry. rewrite run_gets. unfold id. cbn [negb]. unfold write_entry. rewrite run_modify.
  pose proof (ok_buckets t Hok) as Hnb. destruct (ok_size t Hok) as [Hs1 Hs2]. pose proof (Z.mod_pos_bound h (num_buckets t) Hnb) as Hm.
  set (t0 := MkT _ _ _ _).
  assert (w_at t0 (h mod num_buckets t) = Some 0) as Hb0.
  { rewrite <- Hb. unfold w_at. destruct (Z.ltb_spec (h mod num_buckets t) 0); [lia|]. cbn [words t0]. unfold total_table_words.
    rewrite lookup_app_l by (rewrite length_take; lia). by rewrite lookup_take_lt by lia. }
  rewrite (run_word _ _ _ _ Hb0). change (0 =? 0) with true. cbv iota. rewrite (run_put_word _ _ _ _ _ Hb0), run_modify.
  eexists. split; [done|]. split; [done|]. intros v. unfold with_entry, used, total_table_words. cbn [num_buckets num_entries words values t0].
  do 2 f_equal. by rewrite Z.mul_comm.
Qed.

(** C32: A value whose bucket is empty is stored.  In a table whose chains are inside it, [add]
    returns the number of the new value, at which the value stands, the table is as it should
    be, a search for the key finds the value, and every search that found another value finds
    it as before. *)
Theorem added_value_found t fuel v :
  table_ok t -> w_at t (hash_of (key_of v) mod num_buckets t) = Some 0 ->
  exists t', add fuel true true true v t = Done (t', inr (num_entries t + 1, true))
    /\ table_ok t' /\ value_at (num_entries t + 1) t' = Done (t', inr v)
    /\ find_value_index (S fuel) (key_of v) t' = Done (t', inr (num_entries t + 1))
    /\ forall key i, i <> 0 -> find_value_index fuel key t = Done (t, inr i) -> find_value_index fuel key t' = Done (t', inr i).
Proof.
  intros Hok Hb. set (p := hash_of (key_of v) mod num_buckets t).
  pose proof (ok_buckets t Hok) as Hnb. pose proof (ok_values t Hok) as Hvs. destruct (ok_size t Hok) as [Hs1 Hs2].
  assert (0 <= p < num_buckets t) as Hp by (by apply Z.mod_pos_bound). assert (0 <= p < used t) as Hpu by (unfold used; lia).
  destruct (add_entry_empty t fuel (hash_of (key_of v)) Hok Hb) as (t1 & Ha & Hv1 & Hw). fold p in Hw.
  pose proof (with_entry_ok t p v Hok Hpu ltac:(left; lia)) as Hok'.
  exists (with_entry t p v). split_and!.
  - eapply add_absent; [done| |exact Ha|apply Hw|done]. rewrite (find_start t _ _ _ Hb). by destruct fuel.
  - done.
  - unfold value_at. rewrite run_gets. unfold id, at_word. destruct (Z.ltb_spec (num_entries t + 1 - 1) 0); [lia|]. cbn [values with_entry].
    rewrite lookup_app_r by lia. by replace (_ - _)%nat with 0%nat by lia.
  - rewrite (find_start _ _ _ (num_entries t + 1)) by (cbn [num_buckets with_entry]; fold p; by apply with_entry_at).
    destruct (Z.eqb_spec (num_entries t + 1) 0); [lia|]. replace (num_entries t + 1 - 1) with (num_entries t) by lia.
    rewrite (find_entry_run _ _ _ _ v 0 Hok'); [by rewrite key_eqb_refl|cbn [num_entries with_entry]; lia| |exact (with_entry_new t p v 1 Hok Hpu ltac:(by right))].
    cbn [values with_entry]. rewrite lookup_app_r by lia. by replace (_ - _)%nat with 0%nat by lia.
  - intros key i Hi. destruct (ok_bucket t Hok (hash_of key mod num_buckets t) ltac:(by apply Z.mod_pos_bound)) as (x & Hx & Hr).
    rewrite (find_start t _ _ _ Hx). destruct (decide (hash_of key mod num_buckets t = p)) as [E|Hne].
    + rewrite E in Hx. fold p in Hb. rewrite Hb in Hx. injection Hx as <-. change (0 =? 0) with true. cbv iota. destruct fuel; cbn [SysfsTable.find_in_chain]; unfold mret, SE_ret; by intros [= <-].
    + intros Hf. rewrite (find_start _ _ _ x) by (cbn [num_buckets with_entry]; rewrite with_entry_same; try done; unfold used; pose proof (Z.mod_pos_bound (hash_of key) _ Hnb); lia).
      apply with_entry_find; try done; [intros y Hy; unfold next_word; lia|]. destruct (Z.eqb_spec x 0); lia.
Qed.

(** The end of a chain of two entries that follow each other, for the third: the search for it
    arrives before the first entry, at the last bucket. *)
Lemma add_entry_third t fuel h e :
  table_ok t -> w_at t (h mod num_buckets t) = Some (e + 1) -> 0 <= e -> e + 1 < num_entries t ->
  w_at t (next_word t e) = Some (e + 2) -> w_at t (next_word t (e + 1)) = Some 0 -> w_at t (num_buckets t - 1) = Some 0 ->
  exists t1, add_entry (S fuel) true true h (num_entries t) t = Done (t1, inr true) /\ values t1 = values t
    /\ forall v, with_entry t (num_buckets t - 1) v = MkT (num_buckets t1) (num_entries t1) (words t1) (values t1 ++ [v]).
Proof.
  intros Hok Hb He Hlt Hn1 Hn2 Hlast. unfold add_entry. rewrite run_gets. unfold id. cbn [negb]. unfold write_entry. rewrite run_modify.
  pose proof (ok_buckets t Hok) as Hnb. destruct (ok_size t Hok) as [Hs1 Hs2]. pose proof (Z.mod_pos_bound h (num_buckets t) Hnb) as Hm.
  set (t0 := MkT _ _ _ _).
  assert (forall i, 0 <= i < used t -> w_at t0 i = w_at t i) as Hsame.
  { intros i Hi. unfold w_at, used in *. destruct (Z.ltb_spec i 0); [lia|]. cbn [words t0]. unfold total_table_words.
    rewrite lookup_app_l by (rewrite length_take; lia). by rewrite lookup_take_lt by lia. }
  unfold used in Hsame. assert (w_at t0 (num_buckets t - 1) = Some 0) as Hl0 by (rewrite Hsame; [done|lia]).
  rewrite (run_word t0 _ (e + 1)) by (rewrite Hsame; [done|lia]). destruct (Z.eqb_spec (e + 1) 0); [lia|].
  rewrite run_assoc. rewrite (run_bind _ _ t0 t0 0).
  2: { cbn [chain_end]. rewrite run_gets. unfold id. change (next_word t0 ?x) with (next_word t x). replace (e + 1 - 1) with e by lia.
       rewrite (run_word t0 _ (e + 2)) by (rewrite Hsame; [done|unfold next_word; lia]). destruct (Z.eqb_spec (e + 2) 0); [lia|].
       rewrite (run_word t0 _ 0) by (rewrite Hsame; [done|unfold next_word; lia]).
       destruct fuel; cbn [chain_end]; rewrite run_gets; unfold id; change (next_word t0 ?x) with (next_word t x);
         (replace (next_word t (0 - 1)) with (num_buckets t - 1) by (unfold next_word; lia)); by rewrite (run_word t0 _ 0). }
  replace (next_word t (0 - 1)) with (num_buckets t - 1) by (unfold next_word; lia). rewrite (run_put_word _ _ _ _ _ Hl0), run_modify.
  eexists. split; [done|]. split; [done|]. intros v. unfold with_entry, used, total_table_words. cbn [num_buckets num_entries words values t0].
  do 2 f_equal. by rewrite Z.mul_comm.
Qed.
(** The third value of a bucket is lost.  When a bucket holds two values, added one after
    the other, the last bucket is empty and a third value of the same bucket is added, [add]
    reports success; but the value is put in the last bucket, and a search for its key does not
    find it. *)
Theorem third_value_lost t fuel v e v1 v2 :
  let b := hash_of (key_of v) mod num_buckets t in
  table_ok t -> b <> num_buckets t - 1 -> w_at t b = Some (e + 1) -> 0 <= e -> e + 1 < num_entries t ->
  w_at t (next_word t e) = Some (e + 2) -> w_at t (next_word t (e + 1)) = Some 0 -> w_at t (num_buckets t - 1) = Some 0 ->
  values t !! Z.to_nat e = Some v1 -> values t !! Z.to_nat (e + 1) = Some v2 -> key_eqb (key_of v) (key_of v1) = false -> key_eqb (key_of v) (key_of v2) = false ->
  exists t', add (2 + fuel) true true true v t = Done (t', inr (num_entries t + 1, true))
    /\ w_at t' (num_buckets t - 1) = Some (num_entries t + 1)
    /\ find_value_index (2 + fuel) (key_of v) t' = Done (t', inr 0).
Proof.
  intros b Hok Hbl Hb He Hlt Hn1 Hn2 Hlast Hv1 Hv2 Hk1 Hk2. set (p := num_buckets t - 1).
  pose proof (ok_buckets t Hok) as Hnb. destruct (ok_size t Hok) as [Hs1 Hs2]. assert (0 <= p < used t) as Hpu by (unfold p, used; lia).
  pose proof (with_entry_ok t p v Hok Hpu ltac:(left; lia)) as Hok'.
  assert (find_value_index (2 + fuel) (key_of v) t = Done (t, inr 0)) as Hf.
  { rewrite (find_start t _ _ _ Hb). destruct (Z.eqb_spec (e + 1) 0); [lia|]. replace (e + 1 - 1) with e by lia. cbn [Nat.add].
    rewrite (find_entry_run t _ _ e v1 (e + 2) Hok ltac:(lia) Hv1 Hn1), Hk1. destruct (Z.eqb_spec (e + 2) 0); [lia|]. replace (e + 2 - 1) with (e + 1) by lia.
    rewrite (find_entry_run t _ _ (e + 1) v2 0 Hok ltac:(lia) Hv2 Hn2), Hk2. by destruct fuel. }
  destruct (add_entry_third t (1 + fuel) (hash_of (key_of v)) e Hok Hb He Hlt Hn1 Hn2 Hlast) as (t1 & Ha & Hvs & Hw).
  exists (with_entry t p v). split_and!.
  - eapply add_absent; [done|exact Hf|exact Ha|apply Hw|done].
  - by apply with_entry_at.
  - rewrite (find_start t _ _ _ Hb) in Hf. rewrite (find_start _ _ _ (e + 1)).
    2: { change (num_buckets (with_entry t p v)) with (num_buckets t). rewrite with_entry_same; try done. pose proof (Z.mod_pos_bound (hash_of (key_of v)) _ Hnb). unfold used. lia. }
    apply with_entry_find; try done; [intros y Hy; unfold next_word; lia|]. destruct (Z.eqb_spec (e + 1) 0); lia.
Qed.
End Table.

(** ** Witnesses: numbers in a table of four buckets *)
Definition four : table Z := MkT 4 0 (replicate 6 0) [].
Lemma four_ok : table_ok four.
Proof. by apply (new_table_ok (replicate 6 0) 4); [|lia|simpl; lia|repeat constructor]. Qed.
(** Should the new memory hold something else in a bucket, the first lookup goes wrong. *)
Example stale_bucket_undefined :
  match create_sysfs_hashtable (Some [0; 9; 0; 0; 0; 0]) 4 with inr t => find_value_index (fun x => x) (fun x => x) Z.eqb 5 1 t | inl _ => NoFuel end = Undef.
Proof. reflexivity. Qed.
Definition two_of_bucket_1 : table Z := MkT 4 2 [0; 1; 0; 0; 1; 2; 2; 0] [1; 5].
Lemma two_of_bucket_1_made :
  (_ ← add (fun x => x) (fun x => x) Z.eqb 5 true true true 1; add (fun x => x) (fun x => x) Z.eqb 5 true true true 5) four
  = Done (two_of_bucket_1, inr (2, true)).
Proof. reflexivity. Qed.
Lemma two_of_bucket_1_ok : table_ok two_of_bucket_1.
Proof.
  split; simpl; try done.
  - intros b Hb. assert (b = 0 \/ b = 1 \/ b = 2 \/ b = 3) as [-> | [-> | [-> | ->]]] by lia; eexists; (split; [reflexivity|lia]).
  - intros e He. assert (e = 0 \/ e = 1) as [-> | ->] by lia; reflexivity.
  - intros e He. assert (e = 0 \/ e = 1) as [-> | ->] by lia; eexists; (split; [reflexivity|lia]).
Qed.
Lemma added_value_found_witness :
  exists t', add (fun x => x) (fun x => x) Z.eqb 5 true true true 6 four = Done (t', inr (1, true)) /\ find_value_index (fun x => x) (fun x => x) Z.eqb 6 6 t' = Done (t', inr 1).
Proof.
  destruct (added_value_found (fun x => x) (fun x => x) Z.eqb Z.eqb_refl four 5 6 four_ok eq_refl) as (t' & H1 & _ & _ & H2 & _). by exists t'.
Defined.
Lemma third_value_lost_witness :
  exists t', add (fun x => x) (fun x => x) Z.eqb 9 true true true 9 two_of_bucket_1 = Done (t', inr (3, true))
    /\ find_value_index (fun x => x) (fun x => x) Z.eqb 9 9 t' = Done (t', inr 0).
Proof.
  destruct (third_value_lost (fun x => x) (fun x => x) Z.eqb two_of_bucket_1 7 9 0 1 5 two_of_bucket_1_ok) as (t' & H1 & _ & H2); try done.
  by exists t'.
Defined.
End SysfsTableProps.
