(* ===== verification/Elf.v ===== *)
(** Dynamic symbols of program images (kernel/prog/elf64_dynsym_index.cpp, elf64_index.hpp and
    the part of kernel/prog/elf64_dynamic.cpp that makes and uses the index).

    A string table and the sections with versions are their bytes, the table of symbols is the
    list of its entries; a read outside of them is undefined.  A string is its bytes and may hold
    a zero byte, at which what works on [c_str()] stops. *)
From S2P Require Import Prelude Bytes.
Import Bytes.

Module Elf.

(** ** Strings and their hashes *)
Fixpoint to_nul (l : list Z) : list Z := match l with [] => [] | b :: r => if b =? 0 then [] else b :: to_nul r end.
Definition gnu_string_hash (s : list Z) : Z := foldl (fun h b => u32 (h + (b + u32 (Z.shiftl h 5)))) 5381 (to_nul s).
Definition elf64_string_hash (s : list Z) : Z :=
  foldl (fun h b =>
    let h1 := u32 (u32 (Z.shiftl h 4) + b) in
    let g := Z.land h1 0xF0000000 in
    if g =? 0 then h1 else Z.land (Z.lxor h1 (Z.shiftr g 24)) (u32 (Z.lnot g))) 0 (to_nul s).
(** [strtab[n]]: the string at an offset. *)
Definition str_at (strtab : list Z) (n : Z) : outcome (list Z) :=
  let s := to_nul (drop (Z.to_nat n) strtab) in
  if (0 <=? n) && (Z.to_nat n + length s <? length strtab)%nat then Done s else Undef.

Record elf64_sym := MkSym { st_name : Z; st_type : Z; st_shndx : Z; st_value : Z }.
Definition sym0 : elf64_sym := MkSym 0 0 0 0.
Definition SHN_UNDEF : Z := 0.
Definition ST_TLS : Z := 6.
Record elf64_gnu_htbl := MkHt {
  nbucket : Z;
  symndx : Z;
  maskwords : Z;
  shift2 : Z;
  bloom_filter_words : list Z;
  buckets : list Z;
  hash_value_array : list Z }.

Definition at_vec {A} (l : list A) (i : Z) : outcome A := match (if i <? 0 then None else l !! Z.to_nat i) with Some x => Done x | None => Undef end.

(** ** The address of a symbol *)
(** The classes of images that implement [resolve]: an object at its own addresses, a dynamic
    executable and a shared object, with their [virtual_load_base]. *)
Inductive image := ElfObject | DynamicExecutable (virtual_load_base : Z) | SharedObject (virtual_load_base : Z).
Definition object_resolve (sym : elf64_sym) : Z := if negb (st_shndx sym =? SHN_UNDEF) then st_value sym else 0.
Definition executable_resolve (virtual_load_base : Z) (sym : elf64_sym) : Z :=
  if negb (virtual_load_base =? 0) then u64 (virtual_load_base + st_value sym) else st_value sym.
Definition shared_resolve (virtual_load_base : Z) (sym : elf64_sym) : Z :=
  if negb (st_shndx sym =? SHN_UNDEF) then u64 (virtual_load_base + st_value sym) else 0.
Definition resolve (img : image) : elf64_sym -> Z :=
  match img with ElfObject => object_resolve | DynamicExecutable b => executable_resolve b | SharedObject b => shared_resolve b end.

(** ** The index *)
Section Index.
Context (strtab : list Z) (symtab : list elf64_sym) (htbl : elf64_gnu_htbl).

Definition bloom_bits : Z := 64.
Definition index_present : bool := negb (bool_decide (bloom_filter_words htbl = [])) && negb (bool_decide (buckets htbl = [])) && negb (bool_decide (hash_value_array htbl = [])).
Definition without_bit0 (x : Z) : Z := Z.land x 0xFFFFFFFE.
(** The loop over the symbols of a bucket, at the symbol [i] with the value [other_hash]. *)
Fixpoint scan_bucket (fuel : nat) (str : list Z) (hash_val i other_hash : Z) : outcome (option Z) :=
  hit ← (if hash_val =? without_bit0 other_hash
         then sym ← at_vec symtab i; name ← str_at strtab (st_name sym); Done (bool_decide (to_nul str = name))
         else Done false);
  if hit : bool then Done (Some i) else
  if negb (Z.land other_hash 1 =? 0) then Done None else
  match fuel with
  | O => NoFuel
  | S f => o ← at_vec (hash_value_array htbl) (i + 1 - symndx htbl); scan_bucket f str hash_val (i + 1) o
  end.
(** [operator[]]: the number of the symbol. *)
Definition lookup_symbol (fuel : nat) (str : list Z) : outcome (option Z) :=
  if negb index_present then Done None else
  let hash := gnu_string_hash str in
  if (maskwords htbl =? 0) || (nbucket htbl =? 0) then Undef else
  bloom ← at_vec (bloom_filter_words htbl) (hash / bloom_bits mod maskwords htbl);
  if 32 <=? shift2 htbl then Undef else
  let mask := Z.lor (Z.shiftl 1 (hash mod bloom_bits)) (Z.shiftl 1 (Z.shiftr hash (shift2 htbl) mod bloom_bits)) in
  if negb (Z.land bloom mask =? mask) then Done None else
  i ← at_vec (buckets htbl) (hash mod nbucket htbl);
  if i =? 0 then Done None else
  o ← at_vec (hash_value_array htbl) (i - symndx htbl);
  scan_bucket fuel str (without_bit0 hash) i o.

(** [resolve_by_name] and [fallback_resolve]; [segments] and [num_seg_descriptors] are the
    members of the object and [self] the object itself, the result for a symbol of thread storage. *)
Context (img : image) (segments num_seg_descriptors self : Z).
Definition resolved_as (sym : elf64_sym) : elf64_sym * Z := (sym, if st_type sym =? ST_TLS then self else resolve img sym).
Definition resolve_by_name (fuel : nat) (str : list Z) : outcome (elf64_sym * Z) :=
  if (segments =? 0) || (num_seg_descriptors =? 0) then Done (sym0, 0) else
  o ← lookup_symbol fuel str;
  match o with Some i => sym ← at_vec symtab i; Done (resolved_as sym) | None => Done (sym0, 0) end.
Fixpoint fallback_from (syms : list elf64_sym) (str : list Z) : outcome (elf64_sym * Z) :=
  match syms with
  | [] => Done (sym0, 0)
  | sym :: rest => name ← str_at strtab (st_name sym); if decide (name = str) then Done (resolved_as sym) else fallback_from rest str
  end.
Definition fallback_resolve (str : list Z) : outcome (elf64_sym * Z) := fallback_from symtab str.
End Index.

(** The table in the image, made by [process_dynamic] for DT_GNU_HASH: [mem] is the memory from
    the table on, [n_syms] the number of symbols. *)
Definition words_at (w : nat) (mem : list Z) (p : Z) (n : Z) : outcome (list Z) :=
  b ← rd mem p (Z.of_nat w * n); Done (map (fun k => le (take w (drop (w * k) b))) (seq 0 (Z.to_nat n))).
Definition u32_le (mem : list Z) (p : Z) : outcome Z := b ← rd mem p 4; Done (le b).
Definition u16_le (mem : list Z) (p : Z) : outcome Z := b ← rd mem p 2; Done (le b).
Definition load_gnu_hash (mem : list Z) (n_syms : Z) : outcome elf64_gnu_htbl :=
  nb ← u32_le mem 0; sx ← u32_le mem 4; mw ← u32_le mem 8; sh ← u32_le mem 12;
  let n_hvals := u64 (n_syms - sx) in
  bl ← words_at 8 mem 16 mw;
  bu ← words_at 4 mem (16 + 8 * mw) nb;
  hv ← words_at 4 mem (16 + 8 * mw + 4 * nb) n_hvals;
  Done (MkHt nb sx mw sh bl bu hv).

(** ** Versions *)
Record elf64_sym_version := MkVer { base_or_weak : bool; name_hash : Z; name : list Z }.
Definition ver0 : elf64_sym_version := MkVer false 0 [].
Definition version_eqb (a b : elf64_sym_version) : bool := (name_hash a =? name_hash b) && bool_decide (name a = name b).
Definition VER_FLG_BASE : Z := 1.
Definition VER_FLG_WEAK : Z := 2.
(** [vec[target] = v], after the vector has been made long enough. *)
Definition put_version (l : list elf64_sym_version) (target : Z) (v : elf64_sym_version) : list elf64_sym_version :=
  let l1 := l ++ replicate (Z.to_nat target + 1 - length l) ver0 in <[Z.to_nat target := v]> l1.
Fixpoint build_verdefs (n : nat) (sec strtab : list Z) (p : Z) (defs : list elf64_sym_version) : outcome (list elf64_sym_version) :=
  match n with
  | O => Done defs
  | S n =>
      flags ← u16_le sec (p + 2); ndx ← u16_le sec (p + 4); hash ← u32_le sec (p + 8); aux ← u32_le sec (p + 12); nxt ← u32_le sec (p + 16);
      vda_name ← u32_le sec (p + aux); nm ← str_at strtab vda_name;
      build_verdefs n sec strtab (p + nxt) (put_version defs ndx (MkVer (negb (Z.land flags VER_FLG_BASE =? 0)) hash nm))
  end.
(** [elf64_version_index::build] *)
Definition build_versions (verdef_num : Z) (sec strtab : list Z) : outcome (list elf64_sym_version) := build_verdefs (Z.to_nat verdef_num) sec strtab 0 [ver0].
Definition check_version (definitions : list elf64_sym_version) (ver : elf64_sym_version) : bool := base_or_weak ver || existsb (version_eqb ver) definitions.
Fixpoint build_vernauxs (n : nat) (sec strtab : list Z) (p : Z) (reqs : list elf64_sym_version) (vec : list Z) : outcome (list elf64_sym_version * list Z) :=
  match n with
  | O => Done (reqs, vec)
  | S n =>
      hash ← u32_le sec p; flags ← u16_le sec (p + 4); other ← u16_le sec (p + 6); nmo ← u32_le sec (p + 8); nxt ← u32_le sec (p + 12);
      nm ← str_at strtab nmo;
      build_vernauxs n sec strtab (p + nxt) (put_version reqs other (MkVer (negb (Z.land flags VER_FLG_WEAK =? 0)) hash nm)) (vec ++ [other])
  end.
(** The numbers of the requisites of each object, by its name; a second entry for a name goes on
    with the first. *)
Fixpoint build_verneeds (n : nat) (sec strtab : list Z) (p : Z) (reqs : list elf64_sym_version) (by_object : gmap (list Z) (list Z))
  : outcome (list elf64_sym_version * gmap (list Z) (list Z)) :=
  match n with
  | O => Done (reqs, by_object)
  | S n =>
      cnt ← u16_le sec (p + 2); file ← u32_le sec (p + 4); aux ← u32_le sec (p + 8); nxt ← u32_le sec (p + 12);
      fname ← str_at strtab file;
      '(reqs1, vec) ← build_vernauxs (Z.to_nat cnt) sec strtab (p + aux) reqs (default [] (by_object !! fname));
      build_verneeds n sec strtab (p + nxt) reqs1 (<[fname := vec]> by_object)
  end.
(** [elf64_requisites_index::build] *)
Definition build_requisites (verneed_num : Z) (sec strtab : list Z) : outcome (list elf64_sym_version * gmap (list Z) (list Z)) :=
  build_verneeds (Z.to_nat verneed_num) sec strtab 0 [ver0; MkVer true 0 []] ∅.
End Elf.
