(* ===== verification/ElfProps.v ===== *)
(** Properties of the symbol index of Elf.v: with a table as a linker makes it, the lookup by
    hash finds exactly the exported symbols, the same as a search through all of them; and a
    version is found after the section with it has been read. *)
From S2P Require Import Prelude Bytes Elf.
Import Bytes Elf.

Module ElfProps.

Lemma at_vec_in {A} (l : list A) i x : 0 <= i -> l !! Z.to_nat i = Some x -> at_vec l i = Done x.
Proof. intros Hi Hx. unfold at_vec. destruct (Z.ltb_spec i 0); [lia|]. by rewrite Hx. Qed.
Lemma gnu_hash_range s : 0 <= gnu_string_hash s < 2 ^ 32.
Proof.
  unfold gnu_string_hash. generalize (to_nul s). clear s. intros s. assert (forall h, 0 <= h < 2 ^ 32 -> 0 <= foldl (fun h b => u32 (h + (b + u32 (Z.shiftl h 5)))) h s < 2 ^ 32) as H; [|apply H; lia].
  induction s as [|b s IH]; intros h Hh; simpl; [done|]. apply IH. unfold u32. apply Z.mod_pos_bound. lia.
Qed.

Lemma to_nul_idem s : to_nul (to_nul s) = to_nul s.
Proof. induction s as [|b s IH]; [done|]. simpl. destruct (b =? 0) eqn:E; [done|]. simpl. by rewrite E, IH. Qed.
Lemma gnu_hash_to_nul s : gnu_string_hash (to_nul s) = gnu_string_hash s.
Proof. unfold gnu_string_hash. by rewrite to_nul_idem. Qed.

Section Table.
Context (strtab : list Z) (symtab : list elf64_sym) (t : elf64_gnu_htbl).

(** The exported symbols: their number, names and buckets. *)
Definition exported : nat := length (hash_value_array t).
Definition has_name (k : nat) (s : list Z) : Prop :=
  exists sym, symtab !! Z.to_nat (symndx t + Z.of_nat k) = Some sym /\ str_at strtab (st_name sym) = Done s.
Definition bucket_of (s : list Z) : Z := gnu_string_hash s mod nbucket t.
Definition bloom_mask (h : Z) : Z := Z.lor (Z.shiftl 1 (h mod bloom_bits)) (Z.shiftl 1 (Z.shiftr h (shift2 t) mod bloom_bits)).

(** A table as a linker makes it for the names [nm], one for each exported symbol: the symbols
    of a bucket stand together, the bucket has the number of its first symbol, the last one is
    marked, and the filter has the bits of every name. *)
Record linked (nm : list (list Z)) : Prop := {
  lk_count : length nm = exported /\ (0 < exported)%nat;
  lk_range : 0 < nbucket t /\ 0 < symndx t /\ 0 < maskwords t;
  lk_shift : 0 <= shift2 t < 32;
  lk_filter : Z.of_nat (length (bloom_filter_words t)) = maskwords t;
  lk_buckets : Z.of_nat (length (buckets t)) = nbucket t;
  lk_names : forall k s, nm !! k = Some s -> has_name k s;
  lk_hash : forall k s x, nm !! k = Some s -> hash_value_array t !! k = Some x ->
    without_bit0 x = without_bit0 (gnu_string_hash s)
    /\ (Z.land x 1 <> 0 <-> forall s', nm !! S k = Some s' -> bucket_of s' <> bucket_of s);
  lk_grouped : forall i j k si sj sk, (i <= j <= k)%nat -> nm !! i = Some si -> nm !! j = Some sj -> nm !! k = Some sk ->
    bucket_of si = bucket_of sk -> bucket_of sj = bucket_of si;
  lk_first : forall b x, buckets t !! Z.to_nat b = Some x -> 0 <= b ->
    (x = 0 /\ forall k s, nm !! k = Some s -> bucket_of s <> b)
    \/ exists k s, x = symndx t + Z.of_nat k /\ nm !! k = Some s /\ bucket_of s = b /\ forall j s', (j < k)%nat -> nm !! j = Some s' -> bucket_of s' <> b;
  lk_bloom : forall k s w, nm !! k = Some s -> bloom_filter_words t !! Z.to_nat (gnu_string_hash s / bloom_bits mod maskwords t) = Some w ->
    Z.land w (bloom_mask (gnu_string_hash s)) = bloom_mask (gnu_string_hash s) }.

(** The lookup works on what comes before a zero byte. *)
Lemma scan_nul fuel str h i x : scan_bucket strtab symtab t fuel (to_nul str) h i x = scan_bucket strtab symtab t fuel str h i x.
Proof.
  revert i x. induction fuel as [|fuel IH]; intros i x; cbn [scan_bucket]; rewrite to_nul_idem; [done|].
  destruct (if h =? without_bit0 x then _ else _) as [hit| |]; [|done..]. cbn [mbind outcome_bind]. destruct hit; [done|]. destruct (negb _); [done|].
  destruct (at_vec _ _) as [o| |]; [|done..]. apply IH.
Qed.
Lemma lookup_nul fuel str : lookup_symbol strtab symtab t fuel (to_nul str) = lookup_symbol strtab symtab t fuel str.
Proof.
  unfold lookup_symbol. rewrite gnu_hash_to_nul. repeat (case_match; [done|]). destruct (at_vec (bloom_filter_words t) _) as [bloom| |]; [|done..]. cbn [mbind outcome_bind].
  repeat (case_match; [done|]). destruct (at_vec (buckets t) _) as [i| |]; [|done..]. cbn [mbind outcome_bind]. case_match; [done|].
  destruct (at_vec (hash_value_array t) _) as [o| |]; [|done..]. cbn [mbind outcome_bind]. apply scan_nul.
Qed.

Section Linked.
Context (nm : list (list Z)) (Hlk : linked nm).

(** One symbol of the loop. *)
Lemma scan_step fuel str k s x :
  to_nul str = str -> nm !! k = Some s -> hash_value_array t !! k = Some x ->
  scan_bucket strtab symtab t fuel str (without_bit0 (gnu_string_hash str)) (symndx t + Z.of_nat k) x
  = if decide (s = str) then Done (Some (symndx t + Z.of_nat k)) else
    if decide (Z.land x 1 <> 0) then Done None else
    match fuel with
    | O => NoFuel
    | S f => o ← at_vec (hash_value_array t) (Z.of_nat (S k)); scan_bucket strtab symtab t f str (without_bit0 (gnu_string_hash str)) (symndx t + Z.of_nat (S k)) o
    end.
Proof.
  intros Hz Hs Hx. destruct (lk_hash nm Hlk k s x Hs Hx) as [Hh _]. destruct (lk_names nm Hlk k s Hs) as (sym & Hsym & Hname).
  destruct (lk_range nm Hlk) as (_ & Hsx & _).
  assert ((if without_bit0 (gnu_string_hash str) =? without_bit0 x
           then sym ← at_vec symtab (symndx t + Z.of_nat k); name ← str_at strtab (st_name sym); Done (bool_decide (to_nul str = name))
           else Done false) = Done (bool_decide (str = s))) as Ehit.
  { rewrite Hh, Hz. destruct (Z.eqb_spec (without_bit0 (gnu_string_hash str)) (without_bit0 (gnu_string_hash s))) as [E|E].
    - rewrite (at_vec_in symtab (symndx t + Z.of_nat k) sym ltac:(lia) Hsym). cbn [mbind outcome_bind]. by rewrite Hname.
    - rewrite bool_decide_false; [done|]. intros ->. done. }
  destruct fuel; cbn [scan_bucket]; rewrite Ehit; cbn [mbind outcome_bind];
    (destruct (decide (s = str)) as [->|Hne]; [by rewrite bool_decide_true|rewrite bool_decide_false by congruence]);
    (destruct (Z.eqb_spec (Z.land x 1) 0); [rewrite decide_False by (by intros [])|by rewrite decide_True]); cbn [negb]; try done.
  replace (symndx t + Z.of_nat k + 1 - symndx t) with (Z.of_nat (S k)) by lia. by replace (symndx t + Z.of_nat k + 1) with (symndx t + Z.of_nat (S k)) by lia.
Qed.
Lemma hash_value k s : nm !! k = Some s -> exists x, hash_value_array t !! k = Some x.
Proof. intros Hs. apply lookup_lt_is_Some_2. pose proof (lookup_lt_Some _ _ _ Hs). destruct (lk_count nm Hlk). unfold exported in *. lia. Qed.
(** The loop arrives at a symbol with the name when there is no other one before it. *)
Lemma scan_hit d fuel str k j s x :
  to_nul str = str -> k = (j + d)%nat -> nm !! k = Some str -> nm !! j = Some s -> bucket_of s = bucket_of str -> hash_value_array t !! j = Some x -> (d <= fuel)%nat ->
  (forall i, (j <= i < k)%nat -> nm !! i <> Some str) ->
  scan_bucket strtab symtab t fuel str (without_bit0 (gnu_string_hash str)) (symndx t + Z.of_nat j) x = Done (Some (symndx t + Z.of_nat k)).
Proof.
  intros Hz. revert fuel j s x. induction d as [|d IH]; intros fuel j s x Hk Hstr Hs Hb Hx Hf Hno.
  - rewrite Nat.add_0_r in Hk. subst k. rewrite (scan_step _ _ _ _ _ Hz Hs Hx), decide_True by congruence. done.
  - rewrite (scan_step _ _ _ _ _ Hz Hs Hx). rewrite decide_False by (intros ->; apply (Hno j); [lia|done]).
    destruct (lookup_lt_is_Some_2 nm (S j)) as [s' Hs']; [pose proof (lookup_lt_Some _ _ _ Hstr); lia|].
    assert (bucket_of s' = bucket_of s) as Hb' by (eapply (lk_grouped nm Hlk j (S j) k); eauto; lia).
    rewrite decide_False. 2: { intros Hl. by apply (proj1 (proj2 (lk_hash nm Hlk j s x Hs Hx)) Hl s' Hs'). }
    destruct fuel as [|fuel]; [lia|]. destruct (hash_value (S j) s' Hs') as [x' Hx'].
    rewrite (at_vec_in _ _ x') by (rewrite ?Nat2Z.id; done || lia). cbn [mbind outcome_bind].
    eapply IH; try done; [lia|congruence|lia|]. intros i Hi. apply Hno. lia.
Qed.
(** When nothing in the bucket has the name, it ends. *)
Lemma scan_miss d fuel str j s x :
  to_nul str = str -> (exported - j <= d)%nat -> nm !! j = Some s -> hash_value_array t !! j = Some x -> (d <= fuel)%nat -> (forall i, (j <= i)%nat -> nm !! i <> Some str) ->
  scan_bucket strtab symtab t fuel str (without_bit0 (gnu_string_hash str)) (symndx t + Z.of_nat j) x = Done None.
Proof.
  intros Hz. revert fuel j s x. induction d as [|d IH]; intros fuel j s x Hd Hs Hx Hf Hno.
  { pose proof (lookup_lt_Some _ _ _ Hx). unfold exported in Hd. lia. }
  rewrite (scan_step _ _ _ _ _ Hz Hs Hx). rewrite decide_False by (intros ->; by apply (Hno j)). case_decide as Hl; [done|].
  destruct (nm !! S j) as [s'|] eqn:Hs'.
  - destruct fuel as [|fuel]; [lia|]. destruct (hash_value (S j) s' Hs') as [x' Hx']. rewrite (at_vec_in _ _ x') by (rewrite ?Nat2Z.id; done || lia). cbn [mbind outcome_bind].
    eapply IH; try done; [lia|lia|]. intros i Hi. apply Hno. lia.
  - exfalso. revert Hl. apply (proj2 (proj2 (lk_hash nm Hlk j s x Hs Hx))). intros s' E. congruence.
Qed.

Lemma linked_present : index_present t = true.
Proof.
  destruct (lk_count nm Hlk) as [_ Hn], (lk_range nm Hlk) as (Hb & _ & Hm). pose proof (lk_filter nm Hlk). pose proof (lk_buckets nm Hlk). unfold exported in Hn.
  unfold index_present. rewrite !bool_decide_false; [done| | |]; intros E; rewrite E in *; simpl in *; lia.
Qed.
(** The lookup up to the loop: the filter, the bucket and its first symbol. *)
Lemma lookup_symbol_hit fuel str k :
  to_nul str = str -> nm !! k = Some str -> (forall j, (j < k)%nat -> nm !! j <> Some str) -> (exported <= fuel)%nat -> lookup_symbol strtab symtab t fuel str = Done (Some (symndx t + Z.of_nat k)).
Proof.
  intros Hz Hk Hno Hf. unfold lookup_symbol. rewrite linked_present. destruct (lk_range nm Hlk) as (Hb & Hsx & Hm). pose proof (gnu_hash_range str).
  cbn [negb]. destruct (Z.eqb_spec (maskwords t) 0), (Z.eqb_spec (nbucket t) 0); try lia. cbn [orb].
  pose proof (Z.mod_pos_bound (gnu_string_hash str / bloom_bits) (maskwords t) Hm). pose proof (Z.mod_pos_bound (gnu_string_hash str) (nbucket t) Hb) as Hbr.
  destruct (lookup_lt_is_Some_2 (bloom_filter_words t) (Z.to_nat (gnu_string_hash str / bloom_bits mod maskwords t))) as [w Hw]; [pose proof (lk_filter nm Hlk); lia|].
  rewrite (at_vec_in (bloom_filter_words t) _ w) by (done || lia). cbn [mbind outcome_bind]. destruct (Z.leb_spec 32 (shift2 t)); [pose proof (lk_shift nm Hlk); lia|]. fold (bloom_mask (gnu_string_hash str)). rewrite (lk_bloom nm Hlk k str w Hk Hw), Z.eqb_refl. cbn [negb].
  destruct (lookup_lt_is_Some_2 (buckets t) (Z.to_nat (bucket_of str))) as [i Hi]; [pose proof (lk_buckets nm Hlk); unfold bucket_of; lia|].
  fold (bucket_of str) in *. rewrite (at_vec_in (buckets t) _ i) by (done || lia). cbn [mbind outcome_bind].
  destruct (lk_first nm Hlk _ _ Hi ltac:(lia)) as [[_ Hnone]|(j & s & -> & Hs & Hbs & Hfirst)]; [by apply (Hnone k str) in Hk|].
  destruct (Z.eqb_spec (symndx t + Z.of_nat j) 0); [lia|]. destruct (hash_value j s Hs) as [x Hx].
  rewrite (at_vec_in (hash_value_array t) _ x) by (try (replace (Z.to_nat (symndx t + Z.of_nat j - symndx t)) with j by lia); done || lia). cbn [mbind outcome_bind].
  assert (j <= k)%nat as Hjk by (destruct (decide (j <= k)%nat) as [|Hgt]; [done|]; exfalso; apply (Hfirst k str ltac:(lia) Hk); done).
  apply (scan_hit (k - j) fuel str k j s x); try done; [lia|pose proof (lookup_lt_Some _ _ _ Hk); destruct (lk_count nm Hlk); lia|]. intros y Hy. apply Hno. lia.
Qed.
Lemma lookup_symbol_miss fuel str : to_nul str = str -> (forall k, nm !! k <> Some str) -> (exported <= fuel)%nat -> lookup_symbol strtab symtab t fuel str = Done None.
Proof.
  intros Hz Hno Hf. unfold lookup_symbol. rewrite linked_present. destruct (lk_range nm Hlk) as (Hb & Hsx & Hm). pose proof (gnu_hash_range str).
  cbn [negb]. destruct (Z.eqb_spec (maskwords t) 0), (Z.eqb_spec (nbucket t) 0); try lia. cbn [orb].
  pose proof (Z.mod_pos_bound (gnu_string_hash str / bloom_bits) (maskwords t) Hm). pose proof (Z.mod_pos_bound (gnu_string_hash str) (nbucket t) Hb) as Hbr.
  destruct (lookup_lt_is_Some_2 (bloom_filter_words t) (Z.to_nat (gnu_string_hash str / bloom_bits mod maskwords t))) as [w Hw]; [pose proof (lk_filter nm Hlk); lia|].
  rewrite (at_vec_in (bloom_filter_words t) _ w) by (done || lia). cbn [mbind outcome_bind]. destruct (Z.leb_spec 32 (shift2 t)); [pose proof (lk_shift nm Hlk); lia|]. destruct (negb _); [done|].
  destruct (lookup_lt_is_Some_2 (buckets t) (Z.to_nat (bucket_of str))) as [i Hi]; [pose proof (lk_buckets nm Hlk); unfold bucket_of; lia|].
  fold (bucket_of str) in *. rewrite (at_vec_in (buckets t) _ i) by (done || lia). cbn [mbind outcome_bind].
  destruct (lk_first nm Hlk _ _ Hi ltac:(lia)) as [[-> _]|(j & s & -> & Hs & Hbs & Hfirst)]; [done|].
  destruct (Z.eqb_spec (symndx t + Z.of_nat j) 0); [lia|]. destruct (hash_value j s Hs) as [x Hx].
  rewrite (at_vec_in (hash_value_array t) _ x) by (try (replace (Z.to_nat (symndx t + Z.of_nat j - symndx t)) with j by lia); done || lia). cbn [mbind outcome_bind].
  apply (scan_miss exported fuel str j s x); try done. lia.
Qed.
Lemma lookup_symbol_find fuel str :
  (exported <= fuel)%nat ->
  lookup_symbol strtab symtab t fuel str = Done (match list_find (fun s => s = to_nul str) nm with Some (k, _) => Some (symndx t + Z.of_nat k) | None => None end).
Proof.
  intros Hf. rewrite <- lookup_nul. pose proof (to_nul_idem str) as Hz. revert Hz. generalize (to_nul str). clear str. intros str Hz.
  destruct (list_find _ nm) as [[k s]|] eqn:E.
  - apply list_find_Some in E as (Hk & -> & Hno). apply lookup_symbol_hit; [done|done| |done]. intros j Hj E. by apply (Hno j str).
  - apply list_find_None in E. apply lookup_symbol_miss; [done| |done]. intros k Hk. by apply (Forall_lookup_1 _ _ _ _ E) in Hk.
Qed.
End Linked.

(** C34: The lookup by hash is right.  In a table as a linker makes it, for any string the lookup
    ends after at most one round for each exported symbol, reads nothing outside its tables,
    and returns the first exported symbol that has the string, up to a zero byte in it, as its
    name, or nothing if there is none. *)
Theorem symbol_lookup_correct nm fuel str :
  linked nm -> (exported <= fuel)%nat ->
  lookup_symbol strtab symtab t fuel str = Done (match list_find (fun s => s = to_nul str) nm with Some (k, _) => Some (symndx t + Z.of_nat k) | None => None end).
Proof. intros Hlk. by apply lookup_symbol_find. Qed.

(** The search through all symbols, from those that are not exported on. *)
Definition names_of (syms : list elf64_sym) (l : list (list Z)) : Prop := Forall2 (fun sym s => str_at strtab (st_name sym) = Done s) syms l.
Lemma fallback_find img self syms l str :
  names_of syms l ->
  fallback_from strtab img self syms str
  = Done (match list_find (fun s => s = str) l with Some (k, _) => match syms !! k with Some sym => resolved_as img self sym | None => (sym0, 0) end | None => (sym0, 0) end).
Proof.
  induction 1 as [|sym s syms l Hs _ IH]; [done|]. cbn [fallback_from list_find]. rewrite Hs. cbn [mbind outcome_bind].
  case_decide; [done|]. rewrite IH. by destruct (list_find _ l) as [[k s']|].
Qed.
(** C35: The index and [fallback_resolve], the search through the symbol table, agree:
    for an object that has its segments, with a table as a linker makes it, for a string without
    a zero byte, and when no symbol in front of the exported ones has the name (an imported
    symbol does), both give the same symbol and the same address, or nothing. *)
Theorem index_agrees_with_search img segments num_segs self nm locals fuel str :
  segments <> 0 -> num_segs <> 0 -> to_nul str = str ->
  linked nm -> names_of symtab (locals ++ nm) -> Z.of_nat (length locals) = symndx t -> Forall (fun s => s <> str) locals -> (exported <= fuel)%nat ->
  resolve_by_name strtab symtab t img segments num_segs self fuel str = fallback_resolve strtab symtab img self str.
Proof.
  intros Hs1 Hs2 Hz Hlk Hn Hl Hno Hf. unfold resolve_by_name, fallback_resolve. rewrite (proj2 (Z.eqb_neq segments 0)), (proj2 (Z.eqb_neq num_segs 0)) by done. cbn [orb].
  rewrite (lookup_symbol_find nm Hlk fuel str Hf), Hz, (fallback_find _ _ _ _ _ Hn). cbn [mbind outcome_bind].
  rewrite list_find_app_r by (apply list_find_None; exact Hno).
  destruct (list_find _ nm) as [[k s]|] eqn:E; [|done]. unfold prod_map. cbn [fmap option_fmap option_map fst snd]. apply list_find_Some in E as (Hk & _).
  destruct (lk_names nm Hlk k s Hk) as (sym & Hsym & _). destruct (lk_range nm Hlk) as (_ & Hsx & _).
  rewrite (at_vec_in symtab _ sym) by (done || lia). cbn [mbind outcome_bind].
  replace (k + length locals)%nat with (Z.to_nat (symndx t + Z.of_nat k)) by lia. by rewrite Hsym.
Qed.
End Table.

(** ** Versions *)
(** A section of definitions, each with one name, one after another. *)
Definition verdef_bytes (e : Z * Z * Z * Z) : list Z :=
  let '(flags, ndx, hash, nm) := e in
  le_bytes 2 1 ++ le_bytes 2 flags ++ le_bytes 2 ndx ++ le_bytes 2 1 ++ le_bytes 4 hash ++ le_bytes 4 20 ++ le_bytes 4 28 ++ le_bytes 4 nm ++ le_bytes 4 0.
Definition verdef_ok (strtab : list Z) (e : Z * Z * Z * Z) (s : list Z) : Prop :=
  let '(flags, ndx, hash, nm) := e in 0 <= flags < 2 ^ 16 /\ 0 <= ndx < 2 ^ 16 /\ 0 <= hash < 2 ^ 32 /\ 0 <= nm < 2 ^ 32 /\ str_at strtab nm = Done s.
Definition version_of (e : Z * Z * Z * Z) (s : list Z) : elf64_sym_version := let '(flags, ndx, hash, nm) := e in MkVer (negb (Z.land flags VER_FLG_BASE =? 0)) hash s.
Definition index_of (e : Z * Z * Z * Z) : Z := let '(flags, ndx, hash, nm) := e in ndx.
Lemma u16_le_at pre x post b p : b = pre ++ le_bytes 2 x ++ post -> p = Z.of_nat (length pre) -> 0 <= x < 2 ^ 16 -> u16_le b p = Done x.
Proof. intros -> -> Hx. unfold u16_le. erewrite rd_at; [|done|done|by rewrite length_le_bytes]. cbn [mbind outcome_bind]. by rewrite le_le_bytes. Qed.
Lemma u32_le_at pre x post b p : b = pre ++ le_bytes 4 x ++ post -> p = Z.of_nat (length pre) -> 0 <= x < 2 ^ 32 -> u32_le b p = Done x.
Proof. intros -> -> Hx. unfold u32_le. erewrite rd_at; [|done|done|by rewrite length_le_bytes]. cbn [mbind outcome_bind]. by rewrite le_le_bytes. Qed.
Ltac field_of l := first [eapply (u16_le_at l)|eapply (u32_le_at l)]; [by rewrite <- !app_assoc|rewrite !length_app, ?length_le_bytes; simpl; lia|lia].
Lemma build_verdefs_step n strtab pre e s post defs :
  verdef_ok strtab e s ->
  build_verdefs (S n) (pre ++ verdef_bytes e ++ post) strtab (Z.of_nat (length pre)) defs
  = build_verdefs n (pre ++ verdef_bytes e ++ post) strtab (Z.of_nat (length pre) + 28) (put_version defs (index_of e) (version_of e s)).
Proof.
  destruct e as [[[flags ndx] hash] nm]. intros (Hfl & Hnd & Hha & Hnm & Hs). cbn [build_verdefs]. unfold verdef_bytes. set (b := pre ++ _).
  assert (u16_le b (Z.of_nat (length pre) + 2) = Done flags) as -> by field_of (pre ++ le_bytes 2 1). cbn [mbind outcome_bind].
  assert (u16_le b (Z.of_nat (length pre) + 4) = Done ndx) as -> by field_of (pre ++ le_bytes 2 1 ++ le_bytes 2 flags). cbn [mbind outcome_bind].
  assert (u32_le b (Z.of_nat (length pre) + 8) = Done hash) as -> by field_of (pre ++ le_bytes 2 1 ++ le_bytes 2 flags ++ le_bytes 2 ndx ++ le_bytes 2 1).
  cbn [mbind outcome_bind].
  assert (u32_le b (Z.of_nat (length pre) + 12) = Done 20) as -> by field_of (pre ++ le_bytes 2 1 ++ le_bytes 2 flags ++ le_bytes 2 ndx ++ le_bytes 2 1 ++ le_bytes 4 hash).
  cbn [mbind outcome_bind].
  assert (u32_le b (Z.of_nat (length pre) + 16) = Done 28) as -> by field_of (pre ++ le_bytes 2 1 ++ le_bytes 2 flags ++ le_bytes 2 ndx ++ le_bytes 2 1 ++ le_bytes 4 hash ++ le_bytes 4 20).
  cbn [mbind outcome_bind].
  assert (u32_le b (Z.of_nat (length pre) + 20) = Done nm) as ->
    by field_of (pre ++ le_bytes 2 1 ++ le_bytes 2 flags ++ le_bytes 2 ndx ++ le_bytes 2 1 ++ le_bytes 4 hash ++ le_bytes 4 20 ++ le_bytes 4 28).
  cbn [mbind outcome_bind]. rewrite Hs. done.
Qed.
(** The versions that a section of definitions holds, by their numbers. *)
Lemma build_versions_run strtab l ss :
  Forall2 (verdef_ok strtab) l ss ->
  build_versions (Z.of_nat (length l)) (concat (map verdef_bytes l)) strtab
  = Done (foldl (fun d es => put_version d (index_of es.1) (version_of es.1 es.2)) [ver0] (zip l ss)).
Proof.
  intros H. unfold build_versions. rewrite Nat2Z.id. change 0 with (Z.of_nat (length (A:=Z) [])).
  change (concat (map verdef_bytes l)) with ([] ++ concat (map verdef_bytes l)). generalize (@nil Z) [ver0].
  induction H as [|e s l ss He _ IH]; intros pre defs; [done|]. cbn [length map concat zip zip_with foldl fst snd].
  rewrite (build_verdefs_step _ _ _ _ _ _ _ He), app_assoc.
  replace (Z.of_nat (length pre) + 28) with (Z.of_nat (length (pre ++ verdef_bytes e))); [apply IH|].
  rewrite length_app. destruct e as [[[flags ndx] hash] nm]. unfold verdef_bytes. rewrite !length_app, !length_le_bytes. lia.
Qed.

(** ** Witnesses: two symbols in one bucket *)
Definition two_names : list (list Z) := [[97]; [98]].
Definition two_strtab : list Z := [0; 97; 0; 98; 0].
Definition two_symtab : list elf64_sym := [sym0; MkSym 1 2 7 100; MkSym 3 2 7 200].
Definition two_table : elf64_gnu_htbl := MkHt 1 1 1 6 [0xFFFFFFFFFFFFFFFF] [1] [without_bit0 (gnu_string_hash [97]); Z.lor (gnu_string_hash [98]) 1].
Ltac two_cases k := destruct k as [|[|k]]; simpl in *; simplify_eq.
Lemma two_linked : linked two_strtab two_symtab two_table two_names.
Proof.
  split; try done.
  - split; [done|unfold exported; simpl; lia].
  - intros k s Hk. two_cases k; eexists; done.
  - intros k s x Hk Hx. destruct k as [|[|k]]; [| |done]; injection Hk as <-; injection Hx as <-; (split; [by vm_compute|]); split.
    + intros H. exfalso. by apply H.
    + intros H. exfalso. by apply (H [98]).
    + intros _ s' E. done.
    + intros _. by vm_compute.
  - intros i j k si sj sk _ _ _ _ _. unfold bucket_of, two_table. simpl. by rewrite !Z.mod_1_r.
  - intros b x Hx Hb. right. exists 0%nat, [97]. destruct (Z.to_nat b) as [|b'] eqn:E; simpl in Hx; simplify_eq.
    assert (b = 0) as -> by lia. split_and!; [done|done|done|lia].
  - intros k s w Hk Hw. two_cases k; vm_compute in Hw; simplify_eq; done.
Qed.
Lemma symbol_lookup_correct_witness : lookup_symbol two_strtab two_symtab two_table 2 [98] = Done (Some 2).
Proof. rewrite (symbol_lookup_correct _ _ _ two_names 2 [98] two_linked ltac:(unfold exported; simpl; lia)). reflexivity. Defined.
Lemma index_agrees_with_search_witness :
  resolve_by_name two_strtab two_symtab two_table (SharedObject 4096) 8192 1 7 2 [98] = fallback_resolve two_strtab two_symtab (SharedObject 4096) 7 [98].
Proof.
  apply (index_agrees_with_search _ _ _ (SharedObject 4096) 8192 1 7 two_names [[]] 2 [98]);
    [lia|lia|done|apply two_linked|repeat constructor|done|by repeat constructor|unfold exported; simpl; lia].
Defined.
(** For a symbol the image imports, which stands in front of the exported ones, they differ: the
    index gives nothing, the search the undefined symbol. *)
Definition import_table : elf64_gnu_htbl := MkHt 1 2 1 6 [0xFFFFFFFFFFFFFFFF] [2] [Z.lor (gnu_string_hash [98]) 1].
Definition import_symtab : list elf64_sym := [sym0; MkSym 1 2 0 0; MkSym 3 2 7 200].
Example imported_symbol_differs :
  resolve_by_name two_strtab import_symtab import_table (SharedObject 4096) 8192 1 7 2 [97] = Done (sym0, 0)
  /\ fallback_resolve two_strtab import_symtab (SharedObject 4096) 7 [97] = Done (MkSym 1 2 0 0, 0).
Proof. split; vm_compute; reflexivity. Qed.
End ElfProps.
