(* ===== verification/Numstr.v ===== *)
(** Numbers as strings: the conversions of libk (lib/libk/string_impl.tcc, to_string.cpp,
    string_impl.cpp).

    A string is the list of its characters without the zero at its end.  An integer type is its
    width and sign; the arithmetic of a signed type is undefined outside its range, that of an
    unsigned type wraps. *)
From S2P Require Import Prelude.

Module Numstr.

Record int_type := MkInt { bits : Z; is_signed : bool; max_dec : nat }.
Definition int_t : int_type := MkInt 32 true 10.
Definition uint_t : int_type := MkInt 32 false 10.
Definition long_t : int_type := MkInt 64 true 19.
Definition ulong_t : int_type := MkInt 64 false 20.
Definition min_value (T : int_type) : Z := if is_signed T then - 2 ^ (bits T - 1) else 0.
Definition max_value (T : int_type) : Z := if is_signed T then 2 ^ (bits T - 1) - 1 else 2 ^ bits T - 1.
(** The result of an operation of the type. *)
Definition in_type (T : int_type) (x : Z) : outcome Z :=
  if is_signed T then if (min_value T <=? x) && (x <=? max_value T) then Done x else Undef else Done (x mod 2 ^ bits T).

(** ** Characters *)
Definition isdigit (c : Z) : bool := (c <=? 57) && (48 <=? c).
Definition isupper (c : Z) : bool := (65 <=? c) && (c <=? 90).
Definition isalpha (c : Z) : bool := ((97 <=? c) && (c <=? 122)) || ((65 <=? c) && (c <=? 90)).
Definition isalnum (c : Z) : bool := isdigit c || isalpha c.
Definition isspace (c : Z) : bool := existsb (Z.eqb c) [32; 9; 10; 13; 12; 11].
Definition tolower (c : Z) : Z := if isupper c then c + (97 - 65) else c.
Definition minus : Z := 45.
Definition plus : Z := 43.
Definition digits (v : Z) : Z := if v <? 10 then 48 + v else 65 + (v - 10).
Definition hexpref : list Z := [120; 48].

(** ** To a string *)
Section To.
Context (T : int_type).
Definition abs (i : Z) : outcome Z := if is_signed T then if i <? 0 then in_type T (- i) else Done i else Done i.
Definition get_pow10 (idx : nat) : Z := 10 ^ Z.of_nat idx.
Definition get_dec_digit_v (num : Z) (idx : nat) : Z :=
  if (idx <? max_dec T - 1)%nat then num mod get_pow10 (idx + 1) / get_pow10 idx else num / get_pow10 idx.
Definition get_hex_digit_v (num : Z) (idx : nat) : Z := Z.shiftr (Z.land num (Z.shiftl 15 (Z.of_nat idx * 4))) (Z.of_nat idx * 4).
(** The loop from the digit [n], of which [k] are left. *)
Fixpoint dec_digits (k n : nat) (j : Z) : list Z :=
  match k with O => [] | S k => if get_pow10 n <=? j then digits (get_dec_digit_v j n) :: dec_digits k (n + 1) j else [] end.
Definition signed_mark (i : Z) : list Z := if is_signed T && (i <? 0) then [minus] else [].
Definition to_string (i : Z) : outcome (list Z) :=
  if i =? 0 then Done [digits 0] else
  j ← abs i; Done (rev (dec_digits (max_dec T) 0 j ++ signed_mark i)).
(** The number of hexadecimal digits; the width less the leading zeros is the binary length. *)
Definition xdigits (i : Z) : nat := Z.to_nat (div_round_up (Z.log2 (i mod 2 ^ bits T) + 1) 4).
Definition hex_digits (nd : nat) (j : Z) : list Z := map (fun n => digits (get_hex_digit_v j n)) (seq 0 nd).
Definition to_hex_string (i : Z) : outcome (list Z) :=
  if i =? 0 then Done [digits 0] else
  j ← abs i; Done (rev (hex_digits (xdigits i) j ++ hexpref ++ signed_mark i)).
Definition to_bare_hex_string (i : Z) : outcome (list Z) :=
  if i =? 0 then Done [digits 0] else
  j ← abs i; Done (rev (hex_digits (xdigits i) j ++ signed_mark i)).

(** ** From a string *)
Definition char_at (s : list Z) (i : nat) : Z := default 0 (s !! i).
Definition ends_number (base c : Z) : bool :=
  negb (isalnum c) || (isalpha c && ((base <? 11) || (base - 10 <=? c - 97))) || (isdigit c && (base <=? c - 48)).
(** The length of the part that is read: up to the end or a character that does not belong to it. *)
Fixpoint span (base : Z) (s : list Z) : nat :=
  match s with
  | [] => 0
  | c :: r => if c =? 0 then 0%nat else let c := tolower c in if isspace c then S (span base r) else if ends_number base c then 0%nat else S (span base r)
  end.
Fixpoint accumulate (base : Z) (s : list Z) (result : Z) : outcome Z :=
  match s with
  | [] => Done result
  | c :: r =>
      r1 ← in_type T (result * base);
      let c := tolower c in
      if isspace c then accumulate base r r1 else
      r2 ← in_type T (r1 + (if isalpha c then c - 97 + 10 else c - 48));
      accumulate base r r2
  end.
(** [ston]: the number, and where it ends. *)
Definition ston (str : list Z) (base : Z) : outcome (Z * option nat) :=
  if 32 <? base then Done (0, None) else
  let o1 := if char_at str 0 =? plus then 1%nat else 0%nat in
  let neg := char_at str o1 =? minus in
  let o2 := (if neg then o1 + 1 else o1)%nat in
  let hex := ((base =? 0) || (base =? 16)) && (char_at str o2 =? 48) && (tolower (char_at str (o2 + 1)) =? 120) in
  let base1 := if hex then 16 else if base =? 0 then (if char_at str o2 =? 48 then 8 else 10) else base in
  let o3 := (if hex then o2 + 2 else o2)%nat in
  let n := span base1 (drop o3 str) in
  r ← accumulate base1 (take n (drop o3 str)) 0;
  r1 ← (if neg then in_type T (- r) else Done r);
  Done (r1, Some (o3 + n)%nat).
End To.
(** [atoi] and [atol] *)
Definition atoi (str : list Z) : outcome Z := '(r, _) ← ston int_t str 10; Done r.
Definition atol (str : list Z) : outcome Z := '(r, _) ← ston long_t str 10; Done r.
End Numstr.

(** The pseudo-random numbers of libk (lib/libk/rand.cpp): the seed is an unsigned long, and
    [rdseed] the value of the hardware when there is no seed. *)
Module Rand.
Definition s64 (x : Z) : Z := let y := u64 x in if y <? 2 ^ 63 then y else y - 2 ^ 64.
(** [rand]: the new seed is the result too. *)
Definition rand (rdseed local_seed : Z) : Z :=
  let seed := if local_seed =? 0 then rdseed else local_seed in
  let k := s64 (seed / 127773) in
  let result := s64 (u64 (16807 * u64 (seed - u64 (127773 * k))) - u64 (2836 * k)) in
  Z.land result 0x7FFFFFFF.
Definition srand (rdseed seed : Z) : Z := Z.land rdseed seed.
End Rand.
