(* ===== verification/NumstrProps.v ===== *)
(** Properties of the conversions of Numstr.v: a number that was made a string, in decimal or in
    hexadecimal, is read back; and what a space behind a number does. *)
From S2P Require Import Prelude Numstr.
Import Numstr.

Module NumstrProps.

(** A type whose largest number has at most [max_dec] digits. *)
Definition type_ok (T : int_type) : Prop := 8 <= bits T /\ max_value T < 10 ^ Z.of_nat (max_dec T) /\ (0 < max_dec T)%nat.
Lemma types_ok : type_ok int_t /\ type_ok uint_t /\ type_ok long_t /\ type_ok ulong_t.
Proof. unfold type_ok; simpl; unfold max_value; simpl; lia. Qed.
Lemma in_type_id T x : type_ok T -> min_value T <= x <= max_value T -> in_type T x = Done x.
Proof.
  intros (Hb & _) Hx. unfold in_type. destruct (is_signed T) eqn:E.
  - case_cmp; try lia. done.
  - unfold min_value, max_value in Hx. rewrite E in Hx. rewrite Z.mod_small by lia. done.
Qed.
Lemma type_range T : type_ok T -> min_value T <= 0 /\ 0 < max_value T /\ max_value T < 2 ^ bits T.
Proof.
  intros (Hb & _). unfold min_value, max_value. pose proof (Z.pow_le_mono_r 2 7 (bits T - 1) ltac:(lia) ltac:(lia)). change (2 ^ 7) with 128 in *.
  pose proof (Z.pow_lt_mono_r 2 (bits T - 1) (bits T) ltac:(lia) ltac:(lia) ltac:(lia)). destruct (is_signed T); lia.
Qed.

(** ** Digits *)
Ltac case_chars := repeat match goal with |- context [?a <=? ?b] => destruct (Z.leb_spec a b); try lia | |- context [?a =? ?b] => destruct (Z.eqb_spec a b); try lia end; done.
Lemma digits_low v : 0 <= v < 10 -> digits v = 48 + v /\ tolower (digits v) = 48 + v.
Proof. intros Hv. unfold digits. destruct (Z.ltb_spec v 10); [|lia]. unfold tolower, isupper. destruct (Z.leb_spec 65 (48 + v)); [lia|]. done. Qed.
Lemma digits_high v : 10 <= v < 16 -> digits v = 55 + v /\ tolower (digits v) = 87 + v.
Proof.
  intros Hv. unfold digits. destruct (Z.ltb_spec v 10); [lia|]. unfold tolower, isupper.
  destruct (Z.leb_spec 65 (65 + (v - 10))); [|lia]. destruct (Z.leb_spec (65 + (v - 10)) 90); [|lia]. simpl. lia.
Qed.
Ltac digit_cases v Hv :=
  destruct (decide (v < 10)); [destruct (digits_low v ltac:(lia)) as [? ?]|destruct (digits_high v ltac:(lia)) as [? ?]];
  match goal with H : tolower _ = _ |- _ => rewrite ?H end.
Lemma digit_char v : 0 <= v < 16 -> digits v <> 0 /\ isspace (tolower (digits v)) = false.
Proof. intros Hv. unfold isspace. cbn [existsb]. digit_cases v Hv; (split; [lia|]); case_chars. Qed.
Lemma digit_value v : 0 <= v < 16 -> (if isalpha (tolower (digits v)) then tolower (digits v) - 97 + 10 else tolower (digits v) - 48) = v.
Proof. intros Hv. unfold isalpha. digit_cases v Hv; repeat (match goal with |- context [?a <=? ?b] => destruct (Z.leb_spec a b); try lia end); simpl; lia. Qed.
Lemma digit_continues base v : 0 <= v < 16 -> v < base -> ends_number base (tolower (digits v)) = false.
Proof.
  intros Hv Hb. unfold ends_number, isalnum, isalpha, isdigit. digit_cases v Hv;
    repeat (match goal with |- context [?a <=? ?b] => destruct (Z.leb_spec a b); try lia | |- context [?a <? ?b] => destruct (Z.ltb_spec a b); try lia end); done.
Qed.
Lemma span_digits base vs : Forall (fun v => 0 <= v < 16 /\ v < base) vs -> span base (map digits vs) = length vs.
Proof.
  induction 1 as [|v vs [Hv Hb] _ IH]; [done|]. cbn [map span length]. destruct (digit_char v Hv) as [H0 Hs].
  rewrite (proj2 (Z.eqb_neq _ _) H0), Hs, (digit_continues base v Hv Hb), IH. done.
Qed.
Definition horner (base r : Z) (vs : list Z) : Z := foldl (fun r v => r * base + v) r vs.
Lemma horner_grows base r vs : 1 <= base -> 0 <= r -> Forall (fun v => 0 <= v) vs -> r <= horner base r vs.
Proof. intros Hb Hr H. revert r Hr. induction H as [|v vs Hv _ IH]; intros r Hr; simpl; [lia|]. etrans; [|apply IH]; nia. Qed.
Lemma accumulate_digits T base r vs :
  type_ok T -> 1 <= base -> 0 <= r -> Forall (fun v => 0 <= v < 16) vs -> horner base r vs <= max_value T -> accumulate T base (map digits vs) r = Done (horner base r vs).
Proof.
  intros HT Hb Hr H. pose proof (type_range T HT) as (Hmin & _). revert r Hr. induction H as [|v vs Hv Hvs IH]; intros r Hr Hm; [done|].
  cbn [map accumulate]. cbn [horner foldl] in Hm |- *.
  assert (r * base + v <= max_value T) as Hle.
  { etrans; [|exact Hm]. apply horner_grows; [done|nia|]. eapply Forall_impl; [exact Hvs|]. simpl. lia. }
  rewrite in_type_id by (try done; nia). cbn [mbind outcome_bind]. rewrite (proj2 (digit_char v Hv)), (digit_value v Hv).
  rewrite in_type_id by (try done; nia). cbn [mbind outcome_bind]. apply IH; [nia|done].
Qed.

(** ** Reading a string of digits, with its sign *)
Lemma char_at_app_r s r i : char_at (s ++ r) (length s + i) = char_at r i.
Proof. unfold char_at. by rewrite lookup_app_r, Nat.add_comm, Nat.add_sub by lia. Qed.
Lemma digit_not_sign v : 0 <= v < 16 -> digits v =? plus = false /\ digits v =? minus = false /\ (tolower (digits v) =? 120) = false.
Proof. intros Hv. unfold plus, minus. digit_cases v Hv; split_and!; apply Z.eqb_neq; lia. Qed.
Lemma ston_decimal T vs (neg : bool) :
  type_ok T -> vs <> [] -> Forall (fun v => 0 <= v < 10) vs -> horner 10 0 vs <= max_value T -> (neg = true -> min_value T <= - horner 10 0 vs) ->
  ston T ((if neg then [minus] else []) ++ map digits vs) 10 = Done (if neg then - horner 10 0 vs else horner 10 0 vs, Some (length ((if neg then [minus] else []) ++ map digits vs))).
Proof.
  intros HT Hne Hvs Hm Hn. destruct vs as [|v vs]; [done|]. pose proof (Forall_inv Hvs) as Hv. simpl in Hv.
  destruct (digit_not_sign v ltac:(lia)) as (H1 & H2 & _). pose proof (type_range T HT) as (Hmin & _).
  assert (span 10 (map digits (v :: vs)) = length (v :: vs)) as Hspan by (apply span_digits; eapply Forall_impl; [exact Hvs|]; simpl; lia).
  assert (accumulate T 10 (map digits (v :: vs)) 0 = Done (horner 10 0 (v :: vs))) as Hacc.
  { apply accumulate_digits; try done; try lia. eapply Forall_impl; [exact Hvs|]. simpl. lia. }
  pose proof (horner_grows 10 0 (v :: vs) ltac:(lia) ltac:(lia) ltac:(eapply Forall_impl; [exact Hvs|]; simpl; lia)) as Hpos.
  unfold ston. change (32 <? 10) with false. change (10 =? 0) with false. change (10 =? 16) with false. cbn [orb andb].
  destruct neg; cbn [app].
  - change (char_at (minus :: map digits (v :: vs)) 0 =? plus) with false. cbv iota. change (char_at (minus :: map digits (v :: vs)) 0 =? minus) with true. cbv iota.
    change (drop (0 + 1) (minus :: map digits (v :: vs))) with (map digits (v :: vs)). rewrite Hspan, firstn_all2 by (by rewrite length_map).
    rewrite Hacc. cbn [mbind outcome_bind]. rewrite in_type_id by (try done; specialize (Hn eq_refl); lia). cbn [mbind outcome_bind].
    do 3 f_equal. simpl. by rewrite length_map.
  - change (char_at (map digits (v :: vs)) 0) with (digits v). rewrite H1. cbv iota. change (char_at (map digits (v :: vs)) 0) with (digits v). rewrite H2. cbv iota.
    rewrite drop_0, Hspan, firstn_all2 by (by rewrite length_map). rewrite Hacc. cbn [mbind outcome_bind]. do 3 f_equal. simpl. by rewrite length_map.
Qed.

(** ** Decimal *)
(** The values of the digits that the loop appends, the last one first. *)
Definition le_value (base : Z) (vs : list Z) : Z := foldr (fun v a => v + base * a) 0 vs.
Lemma horner_rev base vs : horner base 0 (rev vs) = le_value base vs.
Proof. unfold horner, le_value. induction vs as [|v vs IH]; simpl; [done|]. rewrite foldl_app. simpl. rewrite IH. lia. Qed.
Fixpoint dec_values (k n : nat) (j : Z) : list Z :=
  match k with O => [] | S k => if get_pow10 n <=? j then j / get_pow10 n mod 10 :: dec_values k (n + 1) j else [] end.
Lemma pow10_S n : get_pow10 (n + 1) = 10 * get_pow10 n.
Proof. unfold get_pow10. rewrite Nat2Z.inj_add, Z.pow_add_r by lia. lia. Qed.
Lemma pow10_pos n : 0 < get_pow10 n.
Proof. unfold get_pow10. apply Z.pow_pos_nonneg; lia. Qed.
Lemma dec_digit_value T j n : 0 <= j < get_pow10 (max_dec T) -> (n < max_dec T)%nat -> get_dec_digit_v T j n = j / get_pow10 n mod 10.
Proof.
  intros Hj Hn. unfold get_dec_digit_v. pose proof (pow10_pos n). destruct (Nat.ltb_spec n (max_dec T - 1)).
  - rewrite pow10_S, (Z.mul_comm 10). rewrite Z.rem_mul_r by lia. rewrite (Z.mul_comm (get_pow10 n)), Z.div_add, Z.div_small by (try lia; apply Z.mod_pos_bound; lia). lia.
  - rewrite Z.mod_small; [done|]. split; [apply Z.div_pos; lia|]. apply Z.div_lt_upper_bound; [lia|]. pose proof (pow10_S n) as E. replace (n + 1)%nat with (max_dec T) in E by lia. lia.
Qed.
Lemma dec_digits_values T k n j : 0 <= j < get_pow10 (max_dec T) -> (n + k <= max_dec T)%nat -> dec_digits T k n j = map digits (dec_values k n j).
Proof.
  intros Hj. revert n. induction k as [|k IH]; intros n Hn; simpl; [done|]. destruct (get_pow10 n <=? j); [|done]. simpl. rewrite dec_digit_value, IH by (done || lia). done.
Qed.
Lemma dec_values_range k n j : Forall (fun v => 0 <= v < 10) (dec_values k n j).
Proof. revert n. induction k as [|k IH]; intros n; simpl; [done|]. destruct (_ <=? _); constructor; [apply Z.mod_pos_bound; lia|apply IH]. Qed.
Lemma dec_values_sum k n j : 0 <= j < get_pow10 (n + k) -> le_value 10 (dec_values k n j) = j / get_pow10 n.
Proof.
  revert n. induction k as [|k IH]; intros n Hj; simpl; [rewrite Nat.add_0_r in Hj; by rewrite Z.div_small|].
  pose proof (pow10_pos n). destruct (Z.leb_spec (get_pow10 n) j); [|by rewrite Z.div_small by lia]. cbn [le_value foldr]. fold (le_value 10 (dec_values k (n + 1) j)).
  rewrite IH by (by rewrite <- Nat.add_assoc). rewrite pow10_S, (Z.mul_comm 10 (get_pow10 n)), <- Z.div_div by lia. pose proof (Z.div_mod (j / get_pow10 n) 10). lia.
Qed.
Lemma abs_value T i :
  type_ok T -> min_value T <= i <= max_value T -> (is_signed T = true -> i <> min_value T) -> i <> 0 ->
  0 < Z.abs i <= max_value T /\ abs T i = Done (Z.abs i) /\ signed_mark T i = if i <? 0 then [minus] else [].
Proof.
  intros HT Hi Hmin Hne. unfold abs, signed_mark. destruct (is_signed T) eqn:Es; [specialize (Hmin eq_refl)|]; unfold min_value, max_value in *; rewrite Es in *.
  - destruct (Z.ltb_spec i 0); [rewrite Z.abs_neq by lia|rewrite Z.abs_eq by lia; split_and!; (done || lia)].
    rewrite in_type_id; [split_and!; (done || lia)|done|]. unfold min_value, max_value. rewrite Es. lia.
  - destruct (Z.ltb_spec i 0); [lia|]. rewrite Z.abs_eq by lia. split_and!; (done || lia).
Qed.
(** C36: A number and its decimal string.  For every number of the types int, long and their
    unsigned forms, but the least one of a signed type, [to_string] gives a string from which
    [ston], that is [atoi], [strtol] and the like, reads the number back, to the end of the
    string. *)
Theorem decimal_roundtrip T i :
  type_ok T -> min_value T <= i <= max_value T -> (is_signed T = true -> i <> min_value T) ->
  exists s, to_string T i = Done s /\ ston T s 10 = Done (i, Some (length s)).
Proof.
  intros HT Hi Hmin. pose proof (type_range T HT) as (Hr1 & Hr2 & _). destruct HT as (Hb & Hd & Hp). assert (type_ok T) as HT by done.
  destruct (Z.eqb_spec i 0) as [->|Hne].
  { exists [digits 0]. split; [done|]. pose proof (ston_decimal T [0] false HT ltac:(done) ltac:(by repeat constructor) ltac:(simpl; lia) ltac:(done)) as H. exact H. }
  unfold to_string. rewrite (proj2 (Z.eqb_neq i 0) Hne).
  destruct (abs_value T i HT Hi Hmin Hne) as (Hj & -> & Hmark).
  cbn [mbind outcome_bind]. eexists. split; [done|].
  assert (0 <= Z.abs i < get_pow10 (max_dec T)) as Hlt by (unfold get_pow10; lia).
  rewrite (dec_digits_values T (max_dec T) 0 (Z.abs i) Hlt ltac:(lia)), Hmark, rev_app_distr, <- map_rev. set (vs := rev (dec_values (max_dec T) 0 (Z.abs i))).
  assert (horner 10 0 vs = Z.abs i) as Hval.
  { unfold vs. rewrite horner_rev, dec_values_sum by done. unfold get_pow10. simpl. by rewrite Z.div_1_r. }
  assert (vs <> []) as Hvs by (intros E; rewrite E in Hval; simpl in Hval; lia).
  assert (Forall (fun v => 0 <= v < 10) vs) as Hrange by (unfold vs; apply Forall_rev, dec_values_range).
  pose proof (ston_decimal T vs (i <? 0) HT Hvs Hrange ltac:(lia)) as H. rewrite Hval in H. specialize (H ltac:(intros E; apply Z.ltb_lt in E; lia)).
  destruct (Z.ltb_spec i 0); cbn [rev app] in H |- *; rewrite H; do 3 f_equal; lia.
Qed.

(** ** Space behind a number *)
Lemma span_app base vs r : Forall (fun v => 0 <= v < 16 /\ v < base) vs -> span base (map digits vs ++ r) = (length vs + span base r)%nat.
Proof.
  induction 1 as [|v vs [Hv Hb] _ IH]; [done|]. cbn [map span length app Nat.add]. destruct (digit_char v Hv) as [H0 Hs].
  rewrite (proj2 (Z.eqb_neq _ _) H0), Hs, (digit_continues base v Hv Hb), IH. done.
Qed.
Lemma accumulate_app T base l1 l2 r : accumulate T base (l1 ++ l2) r = (r1 ← accumulate T base l1 r; accumulate T base l2 r1).
Proof.
  revert r. induction l1 as [|c l1 IH]; intros r; [done|]. cbn [app accumulate]. destruct (in_type T (r * base)) as [r1| |]; [|done|done]. cbn [mbind outcome_bind].
  destruct (isspace (tolower c)); [apply IH|]. destruct (in_type T _) as [r2| |]; [apply IH|done|done].
Qed.
(** The string of a positive number has its digits. *)
Lemma to_string_digits T i : type_ok T -> 0 < i <= max_value T ->
  exists v vs, to_string T i = Done (map digits (v :: vs)) /\ Forall (fun v => 0 <= v < 10) (v :: vs) /\ horner 10 0 (v :: vs) = i.
Proof.
  intros HT Hi. pose proof HT as (Hb & Hd & Hp). unfold to_string. destruct (Z.eqb_spec i 0); [lia|].
  assert (abs T i = Done i /\ signed_mark T i = []) as [-> ->] by (unfold abs, signed_mark; destruct (is_signed T); [destruct (Z.ltb_spec i 0); [lia|]|]; done).
  cbn [mbind outcome_bind]. assert (0 <= i < get_pow10 (max_dec T)) as Hlt by (unfold get_pow10; lia).
  rewrite app_nil_r, (dec_digits_values T (max_dec T) 0 i Hlt ltac:(lia)), <- map_rev.
  assert (horner 10 0 (rev (dec_values (max_dec T) 0 i)) = i) as Hval by (rewrite horner_rev, dec_values_sum by done; unfold get_pow10; simpl; by rewrite Z.div_1_r).
  assert (Forall (fun v => 0 <= v < 10) (rev (dec_values (max_dec T) 0 i))) as Hrange by (apply Forall_rev, dec_values_range).
  destruct (rev _) as [|v vs]; [simpl in Hval; lia|]. by exists v, vs.
Qed.
(** A space behind a number counts as a zero.  When the string of a positive number has a
    newline behind it, as a line that was read has, the number read is ten times as large, and
    the newline is taken as part of the number. *)
Theorem trailing_newline_multiplies T i :
  type_ok T -> 0 < i -> 10 * i <= max_value T ->
  exists s, to_string T i = Done s /\ ston T (s ++ [10]) 10 = Done (10 * i, Some (length s + 1)%nat).
Proof.
  intros HT Hi Hm. pose proof (type_range T HT) as (Hmin & _). destruct (to_string_digits T i HT ltac:(lia)) as (v & vs & E & Hvs & Hval). exists (map digits (v :: vs)). split; [exact E|].
  pose proof (Forall_inv Hvs) as Hv. simpl in Hv. destruct (digit_not_sign v ltac:(lia)) as (H1 & H2 & _).
  unfold ston. change (32 <? 10) with false. change (10 =? 0) with false. change (10 =? 16) with false. cbn [orb andb].
  change (char_at (map digits (v :: vs) ++ [10]) 0) with (digits v). rewrite H1. cbv iota. change (char_at (map digits (v :: vs) ++ [10]) 0) with (digits v). rewrite H2. cbv iota.
  rewrite drop_0, span_app by (eapply Forall_impl; [exact Hvs|]; simpl; lia). change (span 10 [10]) with 1%nat.
  rewrite firstn_all2 by (rewrite length_app, length_map; simpl; lia). rewrite accumulate_app, (accumulate_digits T 10 0 (v :: vs) HT ltac:(lia) ltac:(lia)), Hval;
    [|eapply Forall_impl; [exact Hvs|]; simpl; lia|lia].
  cbn [mbind outcome_bind accumulate]. rewrite in_type_id by (try done; lia). cbn [mbind outcome_bind]. change (isspace (tolower 10)) with true. cbv iota.
  cbn [mbind outcome_bind]. rewrite length_map, Z.mul_comm. done.
Qed.

(** ** Hexadecimal *)
Lemma hex_digit_value j n : 0 <= j -> get_hex_digit_v j n = j / 16 ^ Z.of_nat n mod 16.
Proof.
  intros Hj. unfold get_hex_digit_v. set (k := Z.of_nat n * 4). assert (0 <= k) by lia.
  apply Z.bits_inj'. intros b Hb. rewrite Z.shiftr_spec, Z.land_spec, Z.shiftl_spec by lia.
  change 16 with (2 ^ 4) at 2. rewrite Z.testbit_mod_pow2 by lia. assert (16 ^ Z.of_nat n = 2 ^ k) as -> by (unfold k; change 16 with (2 ^ 4); rewrite <- Z.pow_mul_r by lia; f_equal; lia).
  rewrite Z.div_pow2_bits by lia. replace (b + k - k) with b by lia.
  change 15 with (Z.ones 4). rewrite Z.testbit_ones_nonneg by lia. destruct (b <? 4); [by rewrite andb_true_r|by rewrite andb_false_r].
Qed.
Definition hex_values (nd : nat) (j : Z) : list Z := map (fun n => j / 16 ^ Z.of_nat n mod 16) (seq 0 nd).
Lemma hex_values_range nd j : Forall (fun v => 0 <= v < 16) (hex_values nd j).
Proof. unfold hex_values. apply Forall_map, Forall_true. intros n. simpl. apply Z.mod_pos_bound. lia. Qed.
Lemma hex_values_sum nd j : 0 <= j < 16 ^ Z.of_nat nd -> le_value 16 (hex_values nd j) = j.
Proof.
  intros Hj. enough (forall k n, (n + k = nd)%nat -> le_value 16 (map (fun n => j / 16 ^ Z.of_nat n mod 16) (seq n k)) = j / 16 ^ Z.of_nat n) as H.
  { unfold hex_values. rewrite H by lia. simpl. by rewrite Z.div_1_r. }
  induction k as [|k IH]; intros n Hn; [simpl; replace n with nd by lia; by rewrite Z.div_small|]. cbn [seq map]. change (le_value 16 (?x :: ?l)) with (x + 16 * le_value 16 l). rewrite IH by lia.
  pose proof (Z.pow_pos_nonneg 16 (Z.of_nat n) ltac:(lia) ltac:(lia)). rewrite Nat2Z.inj_succ, Z.pow_succ_r, (Z.mul_comm 16 (16 ^ _)), <- Z.div_div by lia.
  pose proof (Z.div_mod (j / 16 ^ Z.of_nat n) 16). lia.
Qed.
Lemma xdigits_enough T i : type_ok T -> i <> 0 -> min_value T < i <= max_value T -> Z.abs i < 16 ^ Z.of_nat (xdigits T i) /\ (0 < xdigits T i)%nat.
Proof.
  intros HT Hne Hi. pose proof (type_range T HT) as (Hr1 & Hr2 & Hr3). destruct HT as (Hb & _). unfold xdigits. set (u := i mod 2 ^ bits T).
  assert (Z.abs i <= u) as Hu.
  { unfold u. destruct (decide (0 <= i)); [rewrite Z.mod_small, Z.abs_eq; lia|].
    assert (is_signed T = true) as Es by (unfold min_value in Hi; destruct (is_signed T); [done|lia]). unfold min_value in Hi. rewrite Es in Hi.
    pose proof (Z.pow_succ_r 2 (bits T - 1) ltac:(lia)) as E. replace (Z.succ (bits T - 1)) with (bits T) in E by lia.
    rewrite <- (Z.mod_add i 1) by lia. rewrite Z.mod_small by lia. lia. }
  pose proof (Z.log2_spec u ltac:(lia)) as [_ Hl]. pose proof (Z.log2_nonneg u). pose proof (up_to_nearest_spec (Z.log2 u + 1) 4 ltac:(lia)) as [Hq _].
  assert (Z.log2 u + 1 <= 4 * div_round_up (Z.log2 u + 1) 4) as Hd.
  { unfold div_round_up. case_match; zlia. }
  split; [|zlia]. rewrite Z2Nat.id by lia. change 16 with (2 ^ 4). rewrite <- Z.pow_mul_r by lia.
  eapply Z.le_lt_trans; [exact Hu|]. eapply Z.lt_le_trans; [exact Hl|]. apply Z.pow_le_mono_r; lia.
Qed.
Lemma ston_hex T vs (neg : bool) base :
  type_ok T -> base = 0 \/ base = 16 -> Forall (fun v => 0 <= v < 16) vs -> horner 16 0 vs <= max_value T -> (neg = true -> min_value T <= - horner 16 0 vs) ->
  let s := (if neg then [minus] else []) ++ [48; 120] ++ map digits vs in
  ston T s base = Done (if neg then - horner 16 0 vs else horner 16 0 vs, Some (length s)).
Proof.
  intros HT Hbase Hvs Hm Hn s. pose proof (type_range T HT) as (Hmin & _).
  assert (span 16 (map digits vs) = length vs) as Hspan by (apply span_digits; eapply Forall_impl; [exact Hvs|]; simpl; lia).
  assert (accumulate T 16 (map digits vs) 0 = Done (horner 16 0 vs)) as Hacc by (apply accumulate_digits; done || lia).
  pose proof (horner_grows 16 0 vs ltac:(lia) ltac:(lia) ltac:(eapply Forall_impl; [exact Hvs|]; simpl; lia)) as Hpos.
  unfold ston. assert (32 <? base = false) as -> by (by destruct Hbase as [-> | ->]). assert ((base =? 0) || (base =? 16) = true) as -> by (by destruct Hbase as [-> | ->]).
  unfold s. destruct neg.
  - change (char_at _ 0 =? plus) with false. cbv iota. change (char_at ([minus] ++ [48; 120] ++ map digits vs) 0 =? minus) with true. cbv iota.
    change (char_at ([minus] ++ [48; 120] ++ map digits vs) (0 + 1) =? 48) with true. change (tolower (char_at ([minus] ++ [48; 120] ++ map digits vs) (0 + 1 + 1)) =? 120) with true.
    cbn [andb]. change (drop (0 + 1 + 2) ([minus] ++ [48; 120] ++ map digits vs)) with (map digits vs). rewrite Hspan, firstn_all2 by (by rewrite length_map).
    rewrite Hacc. cbn [mbind outcome_bind]. rewrite in_type_id by (try done; specialize (Hn eq_refl); lia). cbn [mbind outcome_bind]. do 3 f_equal. simpl. by rewrite length_map.
  - change (char_at _ 0 =? plus) with false. cbv iota. change (char_at ([] ++ [48; 120] ++ map digits vs) 0 =? minus) with false. cbv iota.
    change (char_at ([] ++ [48; 120] ++ map digits vs) 0 =? 48) with true. change (tolower (char_at ([] ++ [48; 120] ++ map digits vs) (0 + 1)) =? 120) with true.
    cbn [andb]. change (drop (0 + 2) ([] ++ [48; 120] ++ map digits vs)) with (map digits vs). rewrite Hspan, firstn_all2 by (by rewrite length_map).
    rewrite Hacc. cbn [mbind outcome_bind]. do 3 f_equal. simpl. by rewrite length_map.
Qed.
(** A number and its hexadecimal string: what [to_string] writes with the mark for
    hexadecimal, for every number but zero and the least one of a signed type, is read back by
    [strtol] and the like with the base 16, and with the base 0. *)
Theorem hexadecimal_roundtrip T i base :
  type_ok T -> i <> 0 -> min_value T <= i <= max_value T -> (is_signed T = true -> i <> min_value T) -> base = 0 \/ base = 16 ->
  exists s, to_hex_string T i = Done s /\ ston T s base = Done (i, Some (length s)).
Proof.
  intros HT Hne Hi Hmin Hbase. pose proof (type_range T HT) as (Hr1 & Hr2 & _).
  assert (min_value T < i) as Hlt by (unfold min_value in *; destruct (is_signed T); [specialize (Hmin eq_refl)|]; lia).
  destruct (xdigits_enough T i HT Hne ltac:(lia)) as [Hx _]. unfold to_hex_string. rewrite (proj2 (Z.eqb_neq i 0) Hne).
  destruct (abs_value T i HT Hi Hmin Hne) as (Hj & -> & ->). cbn [mbind outcome_bind]. eexists. split; [done|].
  assert (hex_digits (xdigits T i) (Z.abs i) = map digits (hex_values (xdigits T i) (Z.abs i))) as ->.
  { unfold hex_digits, hex_values. rewrite map_map. apply map_ext. intros n. by rewrite hex_digit_value by lia. }
  rewrite !rev_app_distr, <- map_rev. set (vs := rev (hex_values (xdigits T i) (Z.abs i))).
  assert (horner 16 0 vs = Z.abs i) as Hval by (unfold vs; rewrite horner_rev; apply hex_values_sum; lia).
  assert (Forall (fun v => 0 <= v < 16) vs) as Hrange by (unfold vs; apply Forall_rev, hex_values_range).
  pose proof (ston_hex T vs (i <? 0) base HT Hbase Hrange ltac:(lia)) as H. cbn zeta in H. rewrite Hval in H. specialize (H ltac:(intros E; apply Z.ltb_lt in E; lia)).
  destruct (Z.ltb_spec i 0); cbn [rev app hexpref] in H |- *; rewrite H; do 3 f_equal; lia.
Qed.

Lemma decimal_roundtrip_witness : exists s, to_string int_t (-2147483647) = Done s /\ ston int_t s 10 = Done (-2147483647, Some (length s)).
Proof. apply (decimal_roundtrip int_t (-2147483647)); [apply types_ok|unfold min_value, max_value; simpl; lia|intros _; unfold min_value; simpl; lia]. Defined.
Lemma trailing_newline_multiplies_witness : exists s, to_string int_t 80 = Done s /\ ston int_t (s ++ [10]) 10 = Done (800, Some (length s + 1)%nat).
Proof. apply (trailing_newline_multiplies int_t 80); [apply types_ok|lia|unfold max_value; simpl; lia]. Defined.
Lemma hexadecimal_roundtrip_witness : exists s, to_hex_string long_t (-48879) = Done s /\ ston long_t s 0 = Done (-48879, Some (length s)).
Proof. apply (hexadecimal_roundtrip long_t (-48879) 0); [apply types_ok|lia|unfold min_value, max_value; simpl; lia|intros _; unfold min_value; simpl; lia|by left]. Defined.

(** ** Random numbers *)
(** The generator that the comment in the source names, I -> a I mod m, by Schrage's method. *)
Definition minimal_standard (seed : Z) : Z := 16807 * seed mod 2147483647.
Definition schrage (seed : Z) : Z := 16807 * (seed mod 127773) - 2836 * (seed / 127773).
Lemma schrage_mod seed : 0 < seed < 2147483647 -> minimal_standard seed = if schrage seed <? 0 then schrage seed + 2147483647 else schrage seed.
Proof.
  intros Hs. unfold minimal_standard, schrage. set (q := seed / 127773). set (r := seed mod 127773).
  assert (seed = 127773 * q + r) as E by (unfold q, r; apply Z.div_mod; lia). assert (0 <= r < 127773) by (unfold r; apply Z.mod_pos_bound; lia).
  assert (0 <= q <= 16807) by (unfold q; split; [apply Z.div_pos; lia|apply Z.lt_succ_r, Z.div_lt_upper_bound; lia]).
  clearbody q r. destruct (Z.ltb_spec (16807 * r - 2836 * q) 0); symmetry.
  - apply Z.mod_unique_pos with (q := q - 1); lia.
  - apply Z.mod_unique_pos with (q := q); lia.
Qed.
(** The numbers of [rand] are those of the generator that the source names, except that they
    are larger by one when the difference of Schrage's method is negative: the code clears the
    sign bit where the modulus should be added. *)
Theorem rand_minimal_standard rdseed seed :
  0 < seed < 2147483647 -> Rand.rand rdseed seed = minimal_standard seed + (if schrage seed <? 0 then 1 else 0).
Proof.
  intros Hs. rewrite schrage_mod by done. unfold Rand.rand. destruct (Z.eqb_spec seed 0); [lia|]. unfold schrage.
  set (q := seed / 127773). set (r := seed mod 127773). assert (seed - 127773 * q = r) as Er by (unfold q, r; pose proof (Z.div_mod seed 127773); lia).
  assert (0 <= r < 127773) as Hr by (unfold r; apply Z.mod_pos_bound; lia). assert (0 <= q <= 16807) as Hq by (unfold q; split; [apply Z.div_pos; lia|apply Z.lt_succ_r, Z.div_lt_upper_bound; lia]).
  assert (Rand.s64 q = q) as -> by (unfold Rand.s64, u64; rewrite Z.mod_small by lia; destruct (Z.ltb_spec q (2 ^ 63)); lia).
  assert (u64 (127773 * q) = 127773 * q) as -> by (unfold u64; apply Z.mod_small; lia). rewrite Er.
  assert (u64 r = r) as -> by (unfold u64; apply Z.mod_small; lia). assert (u64 (16807 * r) = 16807 * r) as -> by (unfold u64; apply Z.mod_small; lia).
  assert (u64 (2836 * q) = 2836 * q) as -> by (unfold u64; apply Z.mod_small; lia). set (d := 16807 * r - 2836 * q).
  assert (Rand.s64 d = d) as ->.
  { unfold Rand.s64, u64. destruct (Z.ltb_spec d 0); [rewrite <- (Z.mod_add d 1 (2 ^ 64)) by lia|]; rewrite Z.mod_small by lia; match goal with |- context [?a <? 2 ^ 63] => destruct (Z.ltb_spec a (2 ^ 63)); lia end. }
  change 2147483647 with (Z.ones 31) at 1. rewrite Z.land_ones by lia.
  destruct (Z.ltb_spec d 0); [rewrite <- (Z.mod_add d 1 (2 ^ 31)) by lia|]; rewrite Z.mod_small by lia; lia.
Qed.
Lemma rand_minimal_standard_witness : Rand.rand 0 16807 = 282475249.
Proof. rewrite (rand_minimal_standard 0 16807 ltac:(lia)). reflexivity. Defined.
End NumstrProps.
