(* ===== verification/NetBuf.v ===== *)
(** The buffers between the network stack and a device (kernel/net/netstack_buffer.cpp over
    c++/ext/dynamic_duplex_streambuf.hpp): a region of bytes with a position for each of the two
    directions, and the packets that are written to and made from them
    (kernel/net/net_abstract.cpp).

    What a region holds in front of its position counts as written or received.  A region
    without memory is the empty list; the allocator is an interface. *)
From S2P Require Import Prelude StateExn Bytes.
Import Bytes.

Module NetBuf.

Inductive exn := overflow_error | bad_alloc.

(** [__buf_ptrs] of one direction: [mem] is all of its capacity. *)
Record region := MkRg { mem : list Z; pos : Z }.
Record netbuf := MkNb { in_region : region; out_region : region; rx_limit : Z; tx_limit : Z }.
Definition cap (r : region) : Z := Z.of_nat (length (mem r)).
Definition set_ptrs (r : region) (l : list Z) : region := MkRg l (Z.min (Z.of_nat (length l)) (pos r)).
Definition setc (r : region) (p : Z) : region := MkRg (mem r) p.
Definition set_in (b : netbuf) (r : region) : netbuf := MkNb r (out_region b) (rx_limit b) (tx_limit b).
Definition set_out (b : netbuf) (r : region) : netbuf := MkNb (in_region b) r (rx_limit b) (tx_limit b).
(** What was written to a region, or received. *)
Definition filled (r : region) : list Z := take (Z.to_nat (pos r)) (mem r).

(** [realloc l n]: memory of [n] bytes that takes over the bytes of [l], or none. *)
Class Memory (W : Type) := { realloc : list Z -> Z -> W -> W * option (list Z) }.

Section Buffer.
Context {W : Type} `{!Memory W}.
Local Notation M := (SE (netbuf * W) exn).

Definition alloc (l : list Z) (n : Z) : M (list Z) := fun '(b, w) =>
  match realloc l n w with (w', Some l') => Done ((b, w'), inr l') | (w', None) => Done ((b, w'), inl bad_alloc) end.
Definition put_in (r : region) : M unit := modify (fun '(b, w) => (set_in b r, w)).
Definition put_out (r : region) : M unit := modify (fun '(b, w) => (set_out b r, w)).
Definition buf : M netbuf := gets fst.
Definition lift {A} (o : outcome A) : M A := fun s => a ← o; Done (s, inr a).

(** [which] is a pair: [in] and [out]. *)
Definition size_to (target : Z) (which : bool * bool) : M unit :=
  (if fst which then b ← buf; l ← alloc (mem (in_region b)) target; put_in (set_ptrs (in_region b) l) else mret tt);;
  (if snd which then b ← buf; l ← alloc (mem (out_region b)) target; put_out (set_ptrs (out_region b) l) else mret tt).
Definition size (b : netbuf) (which : bool * bool) : Z :=
  (if fst which then cap (in_region b) else 0) + (if snd which then cap (out_region b) else 0).
Definition count (b : netbuf) (which : bool * bool) : Z :=
  (if fst which then u64 (pos (in_region b)) else 0) + (if snd which then u64 (pos (out_region b)) else 0).
Definition expand (amount : Z) (which : bool * bool) : M unit :=
  (if fst which then b ← buf; size_to (cap (in_region b) + amount) (true, false) else mret tt);;
  (if snd which then b ← buf; size_to (cap (out_region b) + amount) (false, true) else mret tt).
(** The new position of a region; no position in front of the region is refused. *)
Definition seek (r : region) (p : Z) : option region := if cap r <? p then None else Some (setc r p).
Definition seekpos (p : Z) (which : bool * bool) : M Z :=
  b ← buf;
  match (if fst which then seek (in_region b) p else Some (in_region b)) with
  | None => mret (-1)
  | Some ri =>
      put_in ri;;
      match (if snd which then seek (out_region b) p else Some (out_region b)) with
      | None => mret (-1)
      | Some ro => put_out ro;; mret (if fst which && snd which then 0 else if fst which then pos ri else if snd which then pos ro else 0)
      end
  end.
(** [way]: negative for the beginning, positive for the end, else the position. *)
Definition from_way (r : region) (way off : Z) : Z := (if way <? 0 then 0 else if 0 <? way then cap r else pos r) + off.
Definition seekoff (off way : Z) (which : bool * bool) : M Z :=
  b ← buf;
  match (if fst which then seek (in_region b) (from_way (in_region b) way off) else Some (in_region b)) with
  | None => mret (-1)
  | Some ri =>
      put_in ri;;
      match (if snd which then seek (out_region b) (from_way (out_region b) way off) else Some (out_region b)) with
      | None => mret (-1)
      | Some ro => put_out ro;; mret (if fst which && snd which then 0 else if fst which then pos ri else if snd which then pos ro else 0)
      end
  end.

Definition xsputn (s : list Z) : M Z :=
  b ← buf;
  let n := Z.of_nat (length s) in
  let target := u64 (pos (out_region b) + n) in
  (if cap (out_region b) <? target then
     if negb (tx_limit b =? 0) && (tx_limit b <? target) then throw overflow_error else size_to target (false, true)
   else mret tt);;
  b ← buf;
  l ← lift (wr (mem (out_region b)) (pos (out_region b)) s);
  put_out (MkRg l (pos (out_region b) + n));;
  mret n.
Definition xsgetn (n : Z) : M (list Z) :=
  b ← buf;
  let r := in_region b in
  let k := Z.min n (u64 (cap r - pos r)) in
  l ← lift (rd (mem r) (pos r) k);
  put_in (setc r (pos r + k));;
  mret l.
Definition zeroed (r : region) : region := MkRg (replicate (length (mem r)) 0) 0.
(** The poll functions only read the buffer. *)
Definition polled (poll : option (netbuf -> W -> outcome (W * Z))) : M Z := fun '(b, w) =>
  match poll with None => Done ((b, w), inr 0) | Some f => '(w', r) ← f b w; Done ((b, w'), inr r) end.
Definition tx_flush (tx_poll : option (netbuf -> W -> outcome (W * Z))) : M Z :=
  err ← polled tx_poll;
  if negb (err =? 0) then mret err else
  b ← buf; put_out (zeroed (out_region b));; mret 0.
Definition rx_flush (rx_poll : option (netbuf -> W -> outcome (W * Z))) : M Z :=
  err ← polled rx_poll;
  if negb (err =? 0) then mret err else
  b ← buf;
  (if rx_limit b <? cap (in_region b) then size_to (rx_limit b) (true, false) else mret tt);;
  b ← buf; put_in (zeroed (in_region b));; mret 0.
(** [rx_accumulate]: the other buffer is given and returned. *)
Definition rx_accumulate (that : netbuf) : M netbuf :=
  let incoming := u64 (pos (in_region that)) in
  if incoming =? 0 then mret that else
  expand incoming (true, false);;
  b ← buf;
  d ← lift (rd (mem (in_region that)) 0 incoming);
  l ← lift (wr (mem (in_region b)) (pos (in_region b)) d);
  put_in (MkRg l (pos (in_region b) + incoming));;
  z ← lift (wr (mem (in_region that)) 0 (replicate (Z.to_nat incoming) 0));
  mret (set_in that (MkRg z 0)).
(** The constructor, in the order of its parameters: the limits are [txl] and [rxl]. *)
Definition make_netbuf (initial_rx_cap initial_tx_cap txl rxl : Z) (w : W) : W * option netbuf :=
  match realloc [] initial_rx_cap w with
  | (w1, Some i) =>
      match realloc [] initial_tx_cap w1 with
      | (w2, Some o) => (w2, Some (MkNb (zeroed (MkRg i 0)) (zeroed (MkRg o 0)) rxl txl))
      | (w2, None) => (w2, None)
      end
  | (w1, None) => (w1, None)
  end.

(** ** Packets *)
Definition EPROTO : Z := 71.
Definition ENOMEM : Z := 12.
Definition EOVERFLOW : Z := 139.
(** A packet made of what was received. *)
Definition packet_of : M (list Z) :=
  b ← buf; let n := count b (true, false) in _ ← alloc [] n; lift (rd (mem (in_region b)) 0 n).
(** [read_from] of a packet with [packet_size] bytes: its new contents. *)
Definition read_from (packet : list Z) : M (list Z * Z) :=
  b ← buf;
  let n := Z.of_nat (length packet) in
  if count b (true, false) <? n then mret (packet, - EPROTO) else
  l ← lift (rd (mem (in_region b)) 0 n); mret (l, 0).
Definition write_to (packet : list Z) : M Z :=
  catch (_ ← xsputn packet; mret 0)
    (fun e => Some (mret (match e with overflow_error => - EOVERFLOW | bad_alloc => - ENOMEM end))).
End Buffer.
End NetBuf.
