(* ===== verification/NetDev.v ===== *)
(** A network device between the stack and its driver: the buffers for transfers and what the
    kernel does with them (kernel/util/kernel_api.cpp, [netdev_api_helper_impl]), and the
    descriptor rings of the e1000e driver (modules/e1000e/intel_e1000e.cpp).

    The queue of buffers is a list with a cursor, as DynQueue.v shows that it is.  The protocols
    above and the device below are an interface.  What the device has received is in the
    memory of the buffers. *)
From S2P Require Import Prelude StateExn Bytes NetBuf.
Import Bytes NetBuf.

Module NetDev.

Definition EINVAL : Z := 22.
Definition ENETDOWN : Z := 115.
Definition EPROTONOSUPPORT : Z := 123.
Definition ethertype_arp : Z := 2054.

(** What the handlers of protocols throw. *)
Inductive hexn := h_bad_alloc | h_bad_cast | h_other.
Class Stack (W : Type) := {
  arp_receive : list Z -> W -> outcome (W * (hexn + Z));
  ethernet_receive : list Z -> W -> outcome (W * (hexn + Z)) }.
(** The registers of the device: the receive head, and waiting for a transmit descriptor of
    which the driver gave the number and the length. *)
Class Card (W : Type) := {
  read_rxh : W -> Z;
  send : Z -> Z -> W -> W * bool }.

Record e1000e_receive_descriptor := MkRx { rx_length : Z; rx_done : bool; rx_eop : bool; rx_errors : Z }.
Record e1000e_transmit_descriptor := MkTx { tx_length : Z; tx_cmd : Z; tx_status : Z }.
Record e1000e_ring (T : Type) := MkRing { descriptors : list T; head_descriptor : Z; tail_descriptor : Z }.
Arguments MkRing {T} descriptors head_descriptor tail_descriptor.
Arguments descriptors {T} e.
Arguments head_descriptor {T} e.
Arguments tail_descriptor {T} e.

Record netdev (W : Type) := MkDev {
  transfer_buffers : list netbuf; cursor : Z;
  rx_ring : e1000e_ring e1000e_receive_descriptor;
  world : W }.
Arguments MkDev {W} transfer_buffers cursor rx_ring world.
Arguments transfer_buffers {W} n.
Arguments cursor {W} n.
Arguments rx_ring {W} n.
Arguments world {W} n.
(** What the driver has for sending, as a world of its own. *)
Record sender (W : Type) := MkSnd { tx_ring : e1000e_ring e1000e_transmit_descriptor; beyond : W }.
Arguments MkSnd {W} tx_ring beyond.
Arguments tx_ring {W} s.
Arguments beyond {W} s.
#[global] Instance sender_memory {W} `{!Memory W} : Memory (sender W) := {|
  realloc l n w := let '(w', o) := realloc l n (beyond w) in (MkSnd (tx_ring w) w', o) |}.

Section Device.
Context {W : Type} `{!Memory W} `{!Stack W} `{!Card W}.
Local Notation M := (SE (netdev W) exn).
Implicit Types (s : netdev W).

Definition set_buffers s x : netdev W := MkDev x (cursor s) (rx_ring s) (world s).
Definition set_cursor s x : netdev W := MkDev (transfer_buffers s) x (rx_ring s) (world s).
Definition set_rx s x : netdev W := MkDev (transfer_buffers s) (cursor s) x (world s).
Definition set_world s x : netdev W := MkDev (transfer_buffers s) (cursor s) (rx_ring s) x.

(** An operation on one of the buffers, by its number. *)
Definition on_buffer {A} (i : Z) (m : SE (netbuf * W) exn A) : M A := fun s =>
  if i <? 0 then Undef else
  match transfer_buffers s !! Z.to_nat i with
  | None => Undef
  | Some b => '((b', w'), r) ← m (b, world s); Done (set_world (set_buffers s (<[Z.to_nat i := b']> (transfer_buffers s))) w', r)
  end.

(** ** The kernel's side *)
Fixpoint emplace_buffers (count : nat) (rx_sz tx_sz : Z) : M bool :=
  match count with
  | O => mret true
  | S k =>
      (fun s =>
        match make_netbuf rx_sz tx_sz rx_sz tx_sz (world s) with
        | (w', Some b) => emplace_buffers k rx_sz tx_sz (set_world (set_buffers s (transfer_buffers s ++ [b])) w')
        | (w', None) => Done (set_world s w', inr false)
        end) : M bool
  end.
Definition construct_transfer_buffers (count rx_sz tx_sz : Z) : M bool := emplace_buffers (Z.to_nat count) rx_sz tx_sz.
(** [transmit], with the driver's [poll_tx]. *)
Definition transmit (poll_tx : netbuf -> W -> outcome (W * Z)) (p : list Z) : M Z :=
  modify (fun s => if Z.of_nat (length (transfer_buffers s)) <=? cursor s then set_cursor s 0 else s);;
  i ← gets cursor;
  modify (fun s => set_cursor s (i + 1));;
  err ← on_buffer i (write_to p);
  if negb (err =? 0) then mret err else on_buffer i (tx_flush (Some poll_tx)).
Fixpoint transmit_all (poll_tx : netbuf -> W -> outcome (W * Z)) (ps : list (list Z)) : M (list Z) :=
  match ps with [] => mret [] | p :: ps => r ← transmit poll_tx p; rs ← transmit_all poll_tx ps; mret (r :: rs) end.
Definition protocol_type (p : list Z) : outcome Z := l ← rd p 12 2; Done (be l).
(** The result of a handler, as [rx_transfer] returns it. *)
Definition handled (r : hexn + Z) (unknown_ok : bool) : Z :=
  match r with
  | inl h_bad_alloc => - ENOMEM
  | inl h_bad_cast => - EPROTO
  | inl h_other => - EINVAL
  | inr e => if unknown_ok && (e =? - EPROTONOSUPPORT) then 0 else e
  end.
Definition rx_transfer (b : netbuf) (w : W) : outcome (W * Z) :=
  '((_, w1), r) ← packet_of (b, w);
  match r with
  | inl _ => Done (w1, - ENOMEM)
  | inr p =>
      t ← protocol_type p;
      if t =? ethertype_arp then '(w2, r) ← arp_receive p w1; Done (w2, handled r false)
      else '(w2, r) ← ethernet_receive p w1; Done (w2, handled r true)
  end.

(** ** The e1000e driver *)
Definition e1000_rxtxdesclen_base : Z := 8.
Definition ring_count {T} (r : e1000e_ring T) : Z := Z.of_nat (length (descriptors r)).
(** The number of the buffer that each descriptor gets: the buffer with the descriptor's own
    number has to be there. *)
Definition configure_rx : M unit := fun s =>
  if ring_count (rx_ring s) <=? Z.of_nat (length (transfer_buffers s))
  then Done (set_rx s (MkRing (map (fun _ => MkRx 0 false false 0) (descriptors (rx_ring s))) (head_descriptor (rx_ring s)) (u32 (ring_count (rx_ring s)) / e1000_rxtxdesclen_base)), inr tt)
  else Undef.
Definition create_ring (s : netdev W) (count_factor : Z) (d : e1000e_receive_descriptor) : netdev W :=
  set_rx s (MkRing (replicate (Z.to_nat (count_factor * e1000_rxtxdesclen_base)) d) (head_descriptor (rx_ring s)) (tail_descriptor (rx_ring s))).
Definition next_tail {T} (r : e1000e_ring T) : outcome Z :=
  if ring_count r =? 0 then Undef else Done (u32 (tail_descriptor r + 1) mod ring_count r).
(** [poll_tx]: the buffer's only part in it is its count. *)
Definition poll_tx (b : netbuf) (w : sender W) : outcome (sender W * Z) :=
  let r := tx_ring w in
  match descriptors r !! Z.to_nat (tail_descriptor r) with
  | None => Undef
  | Some _ =>
      let n := u16 (count b (false, true)) in
      t ← next_tail r;
      let '(w', ok) := send (tail_descriptor r) n (beyond w) in
      Done (MkSnd (MkRing (<[Z.to_nat (tail_descriptor r) := MkTx n 11 (if ok then 1 else 0)]> (descriptors r)) (head_descriptor r) t) w',
            if ok then 0 else - ENETDOWN)
  end.
Definition set_desc (i : Z) (d : e1000e_receive_descriptor) : M unit := fun s =>
  let r := rx_ring s in
  if (i <? 0) || (ring_count r <=? i) then Undef
  else Done (set_rx s (MkRing (<[Z.to_nat i := d]> (descriptors r)) (head_descriptor r) (tail_descriptor r)), inr tt).
(** One descriptor: the buffer that a frame is gathered in, and the buffers to hand over. *)
Definition rx_take (i : Z) (d : e1000e_receive_descriptor) (active : option Z) (todo : list Z) : M (option Z * list Z) :=
  if rx_done d && (rx_errors d =? 0) then
    _ ← on_buffer i (seekpos (rx_length d) (true, false));
    if rx_eop d then mret (None, todo ++ [default i active]) else
    match active with
    | None => mret (Some i, todo)
    | Some a =>
        o ← gets (fun s => transfer_buffers s !! Z.to_nat i);
        match o with
        | None => undef
        | Some that =>
            that' ← on_buffer a (rx_accumulate that);
            modify (fun s => set_buffers s (<[Z.to_nat i := that']> (transfer_buffers s)));; mret (active, todo)
        end
    end
  else mret (active, todo).
(** The descriptor's status is cleared, the tail moves on and the new tail is cleared. *)
Definition rx_release (i : Z) (d : e1000e_receive_descriptor) : M unit :=
  set_desc i (MkRx (rx_length d) false false (rx_errors d));;
  r ← gets rx_ring;
  match next_tail r with
  | Done t => modify (fun s => set_rx s (MkRing (descriptors (rx_ring s)) (head_descriptor (rx_ring s)) t));; set_desc t (MkRx 0 false false 0)
  | _ => undef
  end.
Fixpoint rx_loop (k : nat) (i : Z) (active : option Z) (todo : list Z) : M (list Z) :=
  match k with
  | O => mret todo
  | S k =>
      o ← gets (fun s => descriptors (rx_ring s) !! Z.to_nat i);
      match o with
      | None => undef
      | Some d =>
          '(active1, todo1) ← rx_take i d active todo;
          rx_release i d;;
          rx_loop k (i + 1) active1 todo1
      end
  end.
Fixpoint flush_all (todo : list Z) : M unit :=
  match todo with [] => mret tt | i :: todo => _ ← on_buffer i (rx_flush (Some rx_transfer)); flush_all todo end.
Definition poll_rx : M Z :=
  head ← gets (fun s => head_descriptor (rx_ring s));
  modify (fun s => set_rx s (MkRing (descriptors (rx_ring s)) (read_rxh (world s)) (tail_descriptor (rx_ring s))));;
  new_head ← gets (fun s => head_descriptor (rx_ring s));
  todo ← rx_loop (Z.to_nat (new_head - head)) head None [];
  flush_all todo;;
  mret 0.
End Device.
End NetDev.
