(* ===== verification/NetDevProps.v ===== *)
(** What goes out of and comes in through the transfer buffers of NetDev.v. *)
From S2P Require Import Prelude StateExn Bytes NetBuf NetDev.
Import Bytes NetBuf NetDev.

Module NetDevProps.

Section Device.
Context {W : Type} `{!Memory W} `{!Stack W} `{!Card W}.
Implicit Types (s : netdev W) (b : netbuf).

Lemma on_buffer_run {A} i (m : SE (netbuf * W) exn A) s b b' w' r :
  0 <= i -> transfer_buffers s !! Z.to_nat i = Some b -> m (b, world s) = Done ((b', w'), r) ->
  on_buffer i m s = Done (set_world (set_buffers s (<[Z.to_nat i := b']> (transfer_buffers s))) w', r).
Proof. intros Hi Hb Hm. unfold on_buffer. case_cmp; [lia|]. by rewrite Hb, Hm. Qed.

(** ** Sending *)
(** A buffer that is ready for packets of up to [n] bytes. *)
Definition ready (n : Z) (b : netbuf) : Prop := pos (out_region b) = 0 /\ n <= cap (out_region b) < 2 ^ 63.
(** What is written to a buffer with room for it comes behind what was written before. *)
Lemma write_to_appends b (w : W) p :
  0 <= pos (out_region b) -> pos (out_region b) + Z.of_nat (length p) <= cap (out_region b) < 2 ^ 63 ->
  exists r, write_to p (b, w) = Done ((set_out b r, w), inr 0) /\ length (mem r) = length (mem (out_region b))
    /\ pos r = pos (out_region b) + Z.of_nat (length p) /\ filled r = filled (out_region b) ++ p.
Proof.
  intros Hp Hc. unfold cap in Hc. set (m := mem (out_region b)) in *. set (k := pos (out_region b)) in *. set (i := Z.to_nat k).
  exists (MkRg (take i m ++ p ++ drop (i + length p) m) (k + Z.of_nat (length p))). split_and!.
  - unfold write_to. erewrite run_catch; [|erewrite run_bind; [reflexivity|]].
    2: { unfold xsputn. unfold buf. rewrite run_gets. cbn [fst]. fold k.
         rewrite wrap_small by (split; lia). unfold cap. fold m. rewrite (proj2 (Z.ltb_ge (Z.of_nat (length m)) (k + Z.of_nat (length p)))) by lia.
         rewrite run_ret, run_gets. cbn [fst]. fold m k.
         rewrite (run_bind _ _ _ (b, w) (take i m ++ p ++ drop (i + length p) m)).
         2: { unfold lift, wr. rewrite (proj2 (Z.leb_le 0 k)), (proj2 (Z.leb_le (k + Z.of_nat (length p)) (Z.of_nat (length m)))) by lia. reflexivity. }
         unfold put_out. rewrite run_modify. reflexivity. }
    reflexivity.
  - simpl. rewrite !length_app, length_take, length_drop. lia.
  - done.
  - unfold filled. cbn [mem pos]. fold m k i. replace (Z.to_nat (k + Z.of_nat (length p))) with (length (take i m ++ p)) by (rewrite length_app, length_take; lia).
    by rewrite app_assoc, take_app_length.
Qed.
Lemma write_to_ready n b (w : W) p : ready n b -> Z.of_nat (length p) <= n ->
  exists l, write_to p (b, w) = Done ((set_out b (MkRg l (Z.of_nat (length p))), w), inr 0)
    /\ length l = length (mem (out_region b)) /\ take (length p) l = p.
Proof.
  intros [Hp Hc] Hl. destruct (write_to_appends b w p) as ([l k] & E & H1 & H2 & H3); [lia..|].
  rewrite Hp in H2. cbn [pos mem] in *. rewrite Z.add_0_l in H2. subst k. exists l. split_and!; [done|done|].
  unfold filled in H3. cbn [pos mem] in H3. by rewrite Hp, Nat2Z.id in H3.
Qed.
(** A packet that the limit forbids is refused, and the buffer stays as it was. *)
Lemma long_packet_refused b (w : W) p :
  0 <= pos (out_region b) -> cap (out_region b) <= tx_limit b -> 0 < tx_limit b -> tx_limit b < pos (out_region b) + Z.of_nat (length p) < 2 ^ 64 ->
  write_to p (b, w) = Done ((b, w), inr (- EOVERFLOW)).
Proof.
  intros Hp Hc Hl Hn. unfold write_to. erewrite run_catch; [|apply run_exn; unfold xsputn, buf; rewrite run_gets; cbn [fst]; rewrite wrap_small by (split; lia)].
  2: { rewrite (proj2 (Z.ltb_lt (cap (out_region b)) (pos (out_region b) + Z.of_nat (length p)))) by lia.
       rewrite (proj2 (Z.eqb_neq (tx_limit b) 0)), (proj2 (Z.ltb_lt (tx_limit b) (pos (out_region b) + Z.of_nat (length p)))) by lia. reflexivity. }
  reflexivity.
Qed.
(** A packet that the driver could not send stays in its buffer, and the next packet in that
    buffer is sent behind it. *)
Lemma unsent_packet_sent_again (poll : netbuf -> W -> outcome (W * Z)) b w p q w1 e :
  ready (Z.of_nat (length p + length q)) b -> (forall b', poll b' w = Done (w1, e)) -> e <> 0 ->
  exists b1, (_ ← write_to p; r ← tx_flush (Some poll); k ← write_to q; mret (r, k)) (b, w) = Done ((b1, w1), inr (e, 0))
    /\ filled (out_region b1) = p ++ q.
Proof.
  intros [Hp Hc] Hpoll He. rewrite Nat2Z.inj_add in Hc. destruct (write_to_appends b w p) as (r & E & H1 & H2 & H3); [lia..|].
  destruct (write_to_appends (set_out b r) w1 q) as (r2 & E2 & _ & _ & H4); [unfold cap in *; cbn [out_region set_out]; rewrite ?H1; lia..|].
  exists (set_out (set_out b r) r2). rewrite (run_bind _ _ _ _ _ E). erewrite run_bind.
  2: { unfold tx_flush. erewrite run_bind by (unfold polled; by rewrite Hpoll). rewrite (proj2 (Z.eqb_neq e 0) He). reflexivity. }
  rewrite (run_bind _ _ _ _ _ E2). split; [done|]. cbn [out_region set_out] in *. rewrite H4, H3. unfold filled at 1. by rewrite Hp.
Qed.

Definition sent (g : list Z -> W -> W) (w : W) (ps : list (list Z)) : W := foldl (fun w p => g p w) w ps.
Lemma filled_put (b : netbuf) l n : filled (out_region (set_out b (MkRg l n))) = take (Z.to_nat n) l.
Proof. done. Qed.
(** One packet goes through the buffer at the cursor, which is ready again afterwards. *)
Lemma transmit_one (poll : netbuf -> W -> outcome (W * Z)) g (I : W -> Prop) n s p :
  (forall b w, I w -> Z.of_nat (length (filled (out_region b))) = pos (out_region b) -> pos (out_region b) <= n -> poll b w = Done (g (filled (out_region b)) w, 0)) ->
  Forall (ready n) (transfer_buffers s) -> transfer_buffers s <> [] -> 0 <= cursor s -> I (world s) -> Z.of_nat (length p) <= n ->
  exists bs c, transmit poll p s = Done (MkDev bs c (rx_ring s) (g p (world s)), inr 0)
    /\ Forall (ready n) bs /\ length bs = length (transfer_buffers s) /\ 0 <= c.
Proof.
  intros Hpoll Hr Hne Hc HI Hp. set (len := Z.of_nat (length (transfer_buffers s))).
  assert (0 < len) as Hlen by (unfold len; destruct (transfer_buffers s); [done|simpl; lia]).
  set (i := if len <=? cursor s then 0 else cursor s).
  assert (0 <= i < len) as Hi by (unfold i; case_cmp; lia).
  destruct (lookup_lt_is_Some_2 (transfer_buffers s) (Z.to_nat i)) as [b Hb]; [unfold len in Hi; lia|].
  pose proof (Forall_lookup_1 _ _ _ _ Hr Hb) as Hrb.
  destruct (write_to_ready n b (world s) p Hrb Hp) as (l & Hw & Hll & Hlp).
  unfold transmit. rewrite run_modify, run_gets.
  set (s1 := if Z.of_nat (length (transfer_buffers s)) <=? cursor s then set_cursor s 0 else s). assert (cursor s1 = i) as -> by (unfold s1, i, len; by case_cmp).
  assert (transfer_buffers s1 = transfer_buffers s) as E1 by (unfold s1; by case_cmp).
  assert (world s1 = world s) as E2 by (unfold s1; by case_cmp).
  assert (rx_ring s1 = rx_ring s) as E3 by (unfold s1; by case_cmp).
  rewrite run_modify. erewrite run_bind.
  2: { eapply on_buffer_run; [lia| |]; cbn [transfer_buffers set_cursor world]; rewrite ?E1, ?E2; [exact Hb|exact Hw]. }
  cbn [negb Z.eqb]. cbv iota. erewrite on_buffer_run; [|lia| |].
  2: { cbn [transfer_buffers set_world set_buffers set_cursor]. rewrite E1. apply list_lookup_insert_eq. apply lookup_lt_Some in Hb. exact Hb. }
  2: { unfold tx_flush. erewrite run_bind.
       2: { unfold polled. cbn [world set_world]. rewrite Hpoll; [|done|rewrite filled_put, Nat2Z.id, Hlp; done|simpl; lia]. reflexivity. }
       change (negb (0 =? 0)) with false. cbv iota. unfold buf. rewrite run_gets. unfold put_out. rewrite run_modify. reflexivity. }
  cbn [fst]. unfold set_world, set_buffers, set_cursor. cbn [transfer_buffers cursor rx_ring world]. rewrite E1, E3, list_insert_insert_eq.
  rewrite filled_put, Nat2Z.id, Hlp. eexists _, _. split; [reflexivity|]. split_and!; [|by rewrite length_insert|lia].
  apply Forall_insert; [done|]. unfold ready, cap. cbn. rewrite length_replicate, Hll. destruct Hrb as [_ Hrb]. by split.
Qed.

(** C16: Packets go out in order and unchanged.  When every buffer is free and large enough,
    and the driver takes what it is given, then any number of packets (also more than there
    are buffers) are transmitted with result 0, the driver is given exactly the bytes of each
    of them, one after the other, and all buffers are free again afterwards. *)
Theorem packets_go_out_in_order (poll : netbuf -> W -> outcome (W * Z)) g (I : W -> Prop) n ps s :
  (forall b w, I w -> Z.of_nat (length (filled (out_region b))) = pos (out_region b) -> pos (out_region b) <= n -> poll b w = Done (g (filled (out_region b)) w, 0)) ->
  (forall p w, I w -> Z.of_nat (length p) <= n -> I (g p w)) ->
  Forall (ready n) (transfer_buffers s) -> transfer_buffers s <> [] -> 0 <= cursor s -> I (world s) ->
  Forall (fun p => Z.of_nat (length p) <= n) ps ->
  exists s', transmit_all poll ps s = Done (s', inr (replicate (length ps) 0))
    /\ world s' = sent g (world s) ps /\ Forall (ready n) (transfer_buffers s') /\ length (transfer_buffers s') = length (transfer_buffers s).
Proof.
  intros Hpoll Hstep Hr Hne Hc HI Hps. revert s Hr Hne Hc HI. induction Hps as [|p ps Hp _ IH]; intros s Hr Hne Hc HI.
  - exists s. done.
  - destruct (transmit_one poll g I n s p Hpoll Hr Hne Hc HI Hp) as (bs & c & E & Hr' & Hl & Hc').
    simpl transmit_all. rewrite (run_bind _ _ _ _ _ E).
    assert (bs <> []) as Hne' by (intros ->; destruct (transfer_buffers s); done).
    destruct (IH (MkDev bs c (rx_ring s) (g p (world s))) Hr' Hne' Hc' (Hstep p _ HI Hp)) as (s' & E' & Hw & Hr'' & Hl').
    exists s'. rewrite (run_bind _ _ _ _ _ E'). split; [done|]. split; [exact Hw|]. split; [done|]. by rewrite Hl'.
Qed.

(** ** Receiving *)
Definition rx_good (d : e1000e_receive_descriptor) : bool := rx_done d && (rx_errors d =? 0).
Definition put_all (f : Z -> netbuf) (bs : list netbuf) (js : list Z) : list netbuf := foldl (fun bs j => <[Z.to_nat j := f j]> bs) bs js.
Lemma put_all_other f bs js n : ~ (exists j, j ∈ js /\ Z.to_nat j = n) -> put_all f bs js !! n = bs !! n.
Proof.
  revert bs. induction js as [|j js IH]; intros bs H; [done|]. simpl. rewrite IH by (intros (j' & Hj & E); apply H; exists j'; split; [by right|done]).
  apply list_lookup_insert_ne. intros E. apply H. exists j. split; [by left|done].
Qed.
Lemma length_put_all f bs js : length (put_all f bs js) = length bs.
Proof. revert bs. induction js as [|j js IH]; intros bs; simpl; [done|]. by rewrite IH, length_insert. Qed.
Lemma put_all_in f bs js j : Forall (fun j => 0 <= j < Z.of_nat (length bs)) js -> NoDup js -> j ∈ js -> put_all f bs js !! Z.to_nat j = Some (f j).
Proof.
  intros Hb Hn. revert bs Hb. induction Hn as [|i js Hi _ IH]; intros bs Hb Hj; [by apply not_elem_of_nil in Hj|].
  apply Forall_cons in Hb as [Hib Hb]. simpl. apply elem_of_cons in Hj as [->|Hj].
  - rewrite put_all_other; [apply list_lookup_insert_eq; lia|]. intros (k & Hk & E).
    pose proof (proj1 (Forall_forall _ _) Hb k Hk). cbv beta in *. replace k with i in * by lia. done.
  - apply IH; [|done]. by rewrite length_insert.
Qed.
(** A buffer with so many bytes received. *)
Definition received (b : netbuf) (n : Z) : netbuf := set_in b (setc (in_region b) n).
Lemma seek_received b (w : W) n : n <= cap (in_region b) -> seekpos n (true, false) (b, w) = Done ((received b n, w), inr n).
Proof.
  intros H. unfold seekpos, buf. rewrite run_gets. cbn [fst snd]. unfold seek.
  rewrite (proj2 (Z.ltb_ge _ _) H). unfold put_in, put_out. rewrite run_modify. rewrite run_modify. reflexivity.
Qed.
Lemma rx_take_frame i d todo s b :
  rx_good d = true -> rx_eop d = true -> 0 <= i -> transfer_buffers s !! Z.to_nat i = Some b -> rx_length d <= cap (in_region b) ->
  rx_take i d None todo s = Done (set_buffers s (<[Z.to_nat i := received b (rx_length d)]> (transfer_buffers s)), inr (None, todo ++ [i])).
Proof.
  intros Hg He Hi Hb Hl. unfold rx_take. change (rx_done d && (rx_errors d =? 0)) with (rx_good d). rewrite Hg.
  rewrite (run_bind _ _ _ _ _ (on_buffer_run i _ s b _ _ _ Hi Hb (seek_received b (world s) (rx_length d) Hl))). by rewrite He.
Qed.
Lemma rx_take_other i d todo s : rx_good d = false -> rx_take i d None todo s = Done (s, inr (None, todo)).
Proof. intros Hg. unfold rx_take. change (rx_done d && (rx_errors d =? 0)) with (rx_good d). by rewrite Hg. Qed.
Lemma rx_release_run i d s :
  let c := ring_count (rx_ring s) in let t := (tail_descriptor (rx_ring s) + 1) mod c in
  0 <= i < c -> 0 <= tail_descriptor (rx_ring s) < c -> c < 2 ^ 32 ->
  exists ds, rx_release i d s = Done (set_rx s (MkRing ds (head_descriptor (rx_ring s)) t), inr tt)
    /\ length ds = length (descriptors (rx_ring s))
    /\ forall j, 0 <= j -> j <> i -> j <> t -> ds !! Z.to_nat j = descriptors (rx_ring s) !! Z.to_nat j.
Proof.
  intros c t Hi Ht Hc. assert (0 <= t < c) as Htc by (apply Z.mod_pos_bound; lia).
  unfold rx_release. erewrite run_bind.
  2: { unfold set_desc. fold c. rewrite (proj2 (Z.ltb_ge i 0)), (proj2 (Z.leb_gt c i)) by lia. reflexivity. }
  rewrite run_gets. cbn [rx_ring set_rx]. unfold next_tail, ring_count. cbn [descriptors tail_descriptor]. rewrite length_insert.
  fold (ring_count (rx_ring s)). fold c. rewrite (proj2 (Z.eqb_neq c 0)) by lia. rewrite wrap_small by (split; lia). fold t.
  rewrite run_modify. unfold set_desc, ring_count. cbn [rx_ring set_rx descriptors head_descriptor tail_descriptor]. rewrite length_insert.
  fold (ring_count (rx_ring s)). fold c. rewrite (proj2 (Z.ltb_ge t 0)), (proj2 (Z.leb_gt c t)) by lia.
  eexists. split; [reflexivity|]. split; [by rewrite !length_insert|]. intros j Hj H1 H2. rewrite !list_lookup_insert_ne by lia. done.
Qed.

(** The loop over descriptors whose frames are in one buffer each.  [D] and [B] are the
    descriptors and buffers, [H] and [T] the head and tail that the loop began with. *)
Lemma rx_loop_run (D : Z -> e1000e_receive_descriptor) (B : Z -> netbuf) H T nh k i todo s :
  let c := ring_count (rx_ring s) in
  i + Z.of_nat k = nh -> 0 <= H <= i -> nh <= T < c -> c < 2 ^ 32 -> tail_descriptor (rx_ring s) = (T + (i - H)) mod c ->
  (forall j, i <= j < nh -> descriptors (rx_ring s) !! Z.to_nat j = Some (D j) /\ transfer_buffers s !! Z.to_nat j = Some (B j)
     /\ (rx_good (D j) = true -> rx_eop (D j) = true /\ rx_length (D j) <= cap (in_region (B j)))) ->
  let js := filter (fun j => rx_good (D j) = true) (seqZ i (Z.of_nat k)) in
  exists s', rx_loop k i None todo s = Done (s', inr (todo ++ js)) /\ world s' = world s
    /\ transfer_buffers s' = put_all (fun j => received (B j) (rx_length (D j))) (transfer_buffers s) js.
Proof.
  revert i todo s. induction k as [|k IH]; intros i todo s c Hk HH HT Hc Ht Hj js.
  { exists s. split; [simpl; by rewrite app_nil_r|done]. }
  destruct (Hj i) as (Hd & Hb & Hgood); [lia|]. cbn [rx_loop]. rewrite run_gets, Hd.
  assert (exists s1, rx_take i (D i) None todo s = Done (s1, inr (None, todo ++ filter (fun j => rx_good (D j) = true) [i]))
    /\ rx_ring s1 = rx_ring s /\ world s1 = world s
    /\ transfer_buffers s1 = put_all (fun j => received (B j) (rx_length (D j))) (transfer_buffers s) (filter (fun j => rx_good (D j) = true) [i])) as (s1 & E1 & R1 & W1 & B1).
  { rewrite filter_cons. destruct (decide (rx_good (D i) = true)) as [G|G].
    - destruct (Hgood G) as [He Hl]. eexists. split; [exact (rx_take_frame i (D i) todo s (B i) G He ltac:(lia) Hb Hl)|done].
    - exists s. rewrite (rx_take_other i (D i) todo s) by (by destruct (rx_good (D i))). rewrite app_nil_r. done. }
  rewrite (run_bind _ _ _ _ _ E1).
  assert (0 <= (T + (i - H)) mod c < c) as Hmod by (apply Z.mod_pos_bound; lia).
  destruct (rx_release_run i (D i) s1) as (ds & E2 & Hlen & Hds); [rewrite R1; fold c; lia..|].
  rewrite (run_bind _ _ _ _ _ E2). rewrite R1 in *. fold c in Hds, E2 |- *. rewrite Ht in *.
  assert ((((T + (i - H)) mod c + 1) mod c) = (T + (i + 1 - H)) mod c) as Et by (rewrite Zplus_mod_idemp_l; f_equal; lia).
  rewrite Et in *. set (s2 := set_rx s1 _).
  assert (ring_count (rx_ring s2) = c) as Ec by (unfold s2, ring_count; cbn [rx_ring set_rx descriptors]; by rewrite Hlen).
  destruct (IH (i + 1) (todo ++ filter (fun j => rx_good (D j) = true) [i]) s2) as (s' & E3 & W3 & B3).
  { lia. } { lia. } { rewrite Ec. lia. } { rewrite Ec. lia. } { rewrite Ec. done. }
  { intros j Hji. destruct (Hj j) as (Hd' & Hb' & Hg'); [lia|]. split_and!; [| |done].
    - unfold s2. cbn [rx_ring set_rx descriptors]. rewrite Hds; [done|lia|lia|].
      intros ->. destruct (Z.lt_ge_cases (T + (i + 1 - H)) c) as [L|L]; [rewrite Z.mod_small in Hji by lia; lia|].
      rewrite <- (Z_mod_plus_full (T + (i + 1 - H)) (-1) c), Z.mod_small in Hji by lia. lia.
    - unfold s2. cbn [transfer_buffers set_rx]. rewrite B1, put_all_other; [done|].
      intros (j' & Hin & E). apply list_elem_of_filter in Hin as [_ Hin]. apply list_elem_of_singleton in Hin as ->. lia. }
  exists s'. rewrite E3. unfold js. rewrite (seqZ_cons i (Z.of_nat (S k))) by lia. replace (Z.pred (Z.of_nat (S k))) with (Z.of_nat k) by lia. replace (Z.succ i) with (i + 1) by lia.
  change (i :: seqZ (i + 1) (Z.of_nat k)) with ([i] ++ seqZ (i + 1) (Z.of_nat k)). rewrite filter_app, app_assoc. split; [done|].
  split; [by rewrite W3|]. rewrite B3. unfold s2. cbn [transfer_buffers set_rx]. rewrite B1. unfold put_all. by rewrite foldl_app.
Qed.

(** Memory that never runs out; [W] is what the handlers see. *)
Definition enough_memory : Prop := forall l n (w : W), 0 <= n -> exists l', realloc l n w = (w, Some l') /\ Z.of_nat (length l') = n.
(** Handlers that take every frame, or do not know its protocol. *)
Definition takes_frames (g : list Z -> W -> W) : Prop := forall p w,
  arp_receive p w = Done (g p w, inr 0)
  /\ (ethernet_receive p w = Done (g p w, inr 0) \/ ethernet_receive p w = Done (g p w, inr (- EPROTONOSUPPORT))).
(** A buffer after its frame was handed over: cleared, and cut to its limit. *)
Definition cleared (b : netbuf) : netbuf := set_in b (MkRg (replicate (Z.to_nat (Z.min (cap (in_region b)) (rx_limit b))) 0) 0).
Definition frame_at (b : netbuf) (n : Z) : list Z := take (Z.to_nat n) (mem (in_region b)).
Lemma rx_transfer_run g b n w : enough_memory -> takes_frames g -> 14 <= n <= cap (in_region b) -> cap (in_region b) < 2 ^ 64 ->
  rx_transfer (received b n) w = Done (g (frame_at b n) w, 0).
Proof.
  intros Hm Hg Hn Hc. set (p := frame_at b n). unfold rx_transfer.
  assert (packet_of (received b n, w) = Done ((received b n, w), inr p)) as ->.
  { unfold packet_of, buf. rewrite run_gets. cbn [fst]. unfold count. cbn [fst snd received set_in in_region setc pos]. rewrite wrap_small by (split; lia).
    rewrite Z.add_0_r. destruct (Hm [] n w) as (l & E & _); [lia|].
    rewrite (run_bind _ _ _ (received b n, w) l) by (unfold alloc; by rewrite E).
    unfold lift, rd. cbn [mem received set_in in_region setc]. fold (cap (in_region b)).
    rewrite (proj2 (Z.leb_le 0 n)), (proj2 (Z.leb_le (0 + n) (cap (in_region b)))) by lia. done. }
  assert (exists t, protocol_type p = Done t) as (t & Et).
  { unfold protocol_type, rd, p, frame_at. rewrite length_take. unfold cap in *. eexists. case_cmp; try lia. reflexivity. }
  destruct (Hg p w) as [Ha He]. cbn [mbind outcome_bind]. rewrite Et. cbn [mbind outcome_bind]. destruct (t =? ethertype_arp).
  - by rewrite Ha.
  - destruct He as [-> | ->]; done.
Qed.
Lemma rx_flush_run g b n w : enough_memory -> takes_frames g -> 14 <= n <= cap (in_region b) -> cap (in_region b) < 2 ^ 64 -> 0 <= rx_limit b ->
  rx_flush (Some rx_transfer) (received b n, w) = Done ((cleared b, g (frame_at b n) w), inr 0).
Proof.
  intros Hm Hg Hn Hc Hl. unfold rx_flush. erewrite run_bind by (unfold polled; by rewrite (rx_transfer_run g)). change (negb (0 =? 0)) with false. cbv iota.
  unfold buf. rewrite run_gets. cbn [fst]. change (rx_limit (received b n)) with (rx_limit b). change (cap (in_region (received b n))) with (cap (in_region b)).
  unfold cleared. destruct (Z.ltb_spec (rx_limit b) (cap (in_region b))) as [L|L].
  - destruct (Hm (mem (in_region b)) (rx_limit b) (g (frame_at b n) w) Hl) as (l & E & El).
    rewrite (run_bind _ _ _ (set_in b (set_ptrs (setc (in_region b) n) l), g (frame_at b n) w) tt).
    2: { unfold size_to. cbn [fst snd]. unfold buf. erewrite run_bind; [reflexivity|]. rewrite run_gets. cbn [fst].
         erewrite run_bind by (unfold alloc; change (mem (in_region (received b n))) with (mem (in_region b)); by rewrite E). reflexivity. }
    unfold buf. rewrite run_gets. unfold put_in. rewrite run_modify. unfold zeroed, set_in, mret, SE_ret. cbn [fst in_region mem set_ptrs out_region rx_limit tx_limit].
    rewrite Z.min_r by lia. by replace (length l) with (Z.to_nat (rx_limit b)) by lia.
  - rewrite run_ret. unfold buf. rewrite run_gets. unfold put_in. rewrite run_modify. rewrite Z.min_l by lia. unfold cap. rewrite Nat2Z.id. reflexivity.
Qed.
Lemma flush_all_run g (B : Z -> netbuf) (n : Z -> Z) js s :
  enough_memory -> takes_frames g -> NoDup js ->
  Forall (fun j => 0 <= j /\ transfer_buffers s !! Z.to_nat j = Some (received (B j) (n j))
    /\ 14 <= n j <= cap (in_region (B j)) /\ cap (in_region (B j)) < 2 ^ 64 /\ 0 <= rx_limit (B j)) js ->
  exists s', flush_all js s = Done (s', inr tt) /\ world s' = sent g (world s) (map (fun j => frame_at (B j) (n j)) js)
    /\ transfer_buffers s' = put_all (fun j => cleared (B j)) (transfer_buffers s) js.
Proof.
  intros Hm Hg Hnd. revert s. induction Hnd as [|j js Hj _ IH]; intros s Hf; [by exists s|].
  apply Forall_cons in Hf as [(H0 & Hb & Hn & Hc & Hl) Hf].
  simpl. rewrite (run_bind _ _ _ _ _ (on_buffer_run j _ s _ _ _ _ H0 Hb (rx_flush_run g (B j) (n j) (world s) Hm Hg Hn Hc Hl))).
  destruct (IH (set_world (set_buffers s (<[Z.to_nat j := cleared (B j)]> (transfer_buffers s))) (g (frame_at (B j) (n j)) (world s)))) as (s' & E & Hw & Hs).
  { apply Forall_forall. intros k Hk. pose proof (proj1 (Forall_forall _ _) Hf k Hk) as (K0 & Kb & K). split; [done|]. split; [|done].
    cbn [transfer_buffers set_world set_buffers]. rewrite list_lookup_insert_ne; [done|]. intros E. replace k with j in * by lia. done. }
  exists s'. by rewrite E.
Qed.

(** C17: Received frames reach the stack, in order and unchanged.  Let the card have moved its
    head from [H] to [nh] (not past the tail, which it does not do), and let every finished
    descriptor between them be the end of its frame, with a length from that of a header to
    that of its buffer; let there be enough memory and the stack accept every frame.  Then [poll_rx] returns 0, the stack is given the frames of the
    finished descriptors without errors, each with exactly the bytes received, the buffers of
    these frames are cleared and no other buffer is changed. *)
Theorem frames_reach_the_stack g (D : Z -> e1000e_receive_descriptor) (B : Z -> netbuf) s :
  let H := head_descriptor (rx_ring s) in let nh := read_rxh (world s) in let T := tail_descriptor (rx_ring s) in
  enough_memory -> takes_frames g -> 0 <= H <= nh -> nh <= T < ring_count (rx_ring s) -> ring_count (rx_ring s) < 2 ^ 32 ->
  (forall j, H <= j < nh -> descriptors (rx_ring s) !! Z.to_nat j = Some (D j) /\ transfer_buffers s !! Z.to_nat j = Some (B j)
     /\ cap (in_region (B j)) < 2 ^ 64 /\ 0 <= rx_limit (B j)
     /\ (rx_good (D j) = true -> rx_eop (D j) = true /\ 14 <= rx_length (D j) <= cap (in_region (B j)))) ->
  let js := filter (fun j => rx_good (D j) = true) (seqZ H (nh - H)) in
  exists s', poll_rx s = Done (s', inr 0) /\ world s' = sent g (world s) (map (fun j => frame_at (B j) (rx_length (D j))) js)
    /\ (forall j, j ∈ js -> transfer_buffers s' !! Z.to_nat j = Some (cleared (B j)))
    /\ (forall j, 0 <= j -> j ∉ js -> transfer_buffers s' !! Z.to_nat j = transfer_buffers s !! Z.to_nat j).
Proof.
  intros H nh T Hm Hg HH HT Hc Hj js. unfold poll_rx. rewrite run_gets, run_modify, run_gets. cbn [rx_ring set_rx head_descriptor]. fold H nh.
  set (s1 := set_rx s _). destruct (rx_loop_run D B H T nh (Z.to_nat (nh - H)) H [] s1) as (s2 & E2 & W2 & B2).
  { lia. } { lia. } { exact HT. } { exact Hc. } { rewrite Z.sub_diag, Z.add_0_r, Z.mod_small; [done|]. cbn [rx_ring set_rx s1]. unfold ring_count in *. cbn [descriptors]. lia. }
  { intros j Hjr. destruct (Hj j Hjr) as (Hd & Hb & _ & _ & Hg'). split_and!; [done|done|]. intros G. destruct (Hg' G) as [He ?]. split; [done|lia]. }
  rewrite Z2Nat.id in E2, B2 by lia. fold js in E2, B2. rewrite (run_bind _ _ _ _ _ E2). simpl app.
  assert (NoDup js) as Hnd by (apply NoDup_filter, NoDup_seqZ).
  assert (forall j, j ∈ js -> H <= j < nh /\ rx_good (D j) = true) as Hin.
  { intros j [Hgd Hs]%list_elem_of_filter. apply elem_of_seqZ in Hs. split; [lia|done]. }
  assert (Forall (fun j => 0 <= j < Z.of_nat (length (transfer_buffers s))) js) as Hrange.
  { apply Forall_forall. intros j Hjs. destruct (Hin j Hjs) as [Hr _]. destruct (Hj j Hr) as (_ & Hb & _). apply lookup_lt_Some in Hb. lia. }
  destruct (flush_all_run g B (fun j => rx_length (D j)) js s2 Hm Hg Hnd) as (s' & E3 & W3 & B3).
  { apply Forall_forall. intros j Hjs. destruct (Hin j Hjs) as [Hr Gd]. destruct (Hj j Hr) as (_ & _ & H1 & H2 & H3). destruct (H3 Gd) as [_ H4].
    split; [lia|]. split; [|done]. rewrite B2. by apply (put_all_in (fun j => received (B j) (rx_length (D j)))). }
  rewrite (run_bind _ _ _ _ _ E3). exists s'. split; [done|]. split; [by rewrite W3, W2|]. rewrite B3, B2. split.
  - intros j Hjs. apply (put_all_in (fun j => cleared (B j))); [|done|done]. by rewrite length_put_all.
  - intros j H0 Hnj. assert (~ (exists k, k ∈ js /\ Z.to_nat k = Z.to_nat j)) as Hno.
    { intros (k & Hk & E). destruct (Hin k Hk) as [Hr _]. replace k with j in * by lia. done. }
    by rewrite !put_all_other.
Qed.

(** ** Where it goes wrong *)
(** The last part of a frame that came in several buffers is not added to the others: the
    buffer that is handed over stays as it was. *)
Lemma last_fragment_lost i a d todo s b :
  rx_good d = true -> rx_eop d = true -> 0 <= i -> a <> i -> 0 <= a -> transfer_buffers s !! Z.to_nat i = Some b -> rx_length d <= cap (in_region b) ->
  exists s', rx_take i d (Some a) todo s = Done (s', inr (None, todo ++ [a])) /\ transfer_buffers s' !! Z.to_nat a = transfer_buffers s !! Z.to_nat a.
Proof.
  intros Hg He Hi Ha H0 Hb Hl. unfold rx_take. change (rx_done d && (rx_errors d =? 0)) with (rx_good d). rewrite Hg.
  rewrite (run_bind _ _ _ _ _ (on_buffer_run i _ s b _ _ _ Hi Hb (seek_received b (world s) (rx_length d) Hl))), He.
  eexists. split; [reflexivity|]. cbn [transfer_buffers set_world set_buffers]. by rewrite list_lookup_insert_ne by lia.
Qed.
(** The limits of the two directions are exchanged. *)
Lemma limits_exchanged count rx_sz tx_sz s : enough_memory -> 0 <= rx_sz -> 0 <= tx_sz -> 0 <= count -> transfer_buffers s = [] ->
  exists s', construct_transfer_buffers count rx_sz tx_sz s = Done (s', inr true) /\ Z.of_nat (length (transfer_buffers s')) = count
    /\ Forall (fun b => cap (in_region b) = rx_sz /\ rx_limit b = tx_sz /\ cap (out_region b) = tx_sz /\ tx_limit b = rx_sz) (transfer_buffers s').
Proof.
  intros Hm Hr Ht Hc Hs. unfold construct_transfer_buffers.
  enough (forall k s, Forall (fun b => cap (in_region b) = rx_sz /\ rx_limit b = tx_sz /\ cap (out_region b) = tx_sz /\ tx_limit b = rx_sz) (transfer_buffers s) ->
    exists s', emplace_buffers k rx_sz tx_sz s = Done (s', inr true) /\ length (transfer_buffers s') = (k + length (transfer_buffers s))%nat
    /\ Forall (fun b => cap (in_region b) = rx_sz /\ rx_limit b = tx_sz /\ cap (out_region b) = tx_sz /\ tx_limit b = rx_sz) (transfer_buffers s')) as He.
  { destruct (He (Z.to_nat count) s) as (s' & E & Hl & Hf); [by rewrite Hs|]. exists s'. rewrite Hs in Hl. simpl in Hl. split_and!; [done|lia|done]. }
  induction k as [|k IH]; intros s0 Hf; [by exists s0|]. simpl. unfold make_netbuf.
  destruct (Hm [] rx_sz (world s0) Hr) as (i & -> & Hi). destruct (Hm [] tx_sz (world s0) Ht) as (o & -> & Ho).
  destruct (IH (set_world (set_buffers s0 (transfer_buffers s0 ++ [MkNb (zeroed (MkRg i 0)) (zeroed (MkRg o 0)) tx_sz rx_sz])) (world s0))) as (s' & E & Hl & Hf').
  { cbn [transfer_buffers set_world set_buffers]. apply Forall_app. split; [done|]. apply Forall_singleton. unfold cap. cbn. by rewrite !length_replicate, Hi, Ho. }
  exists s'. split; [done|]. split; [|done]. rewrite Hl. cbn [transfer_buffers set_world set_buffers]. rewrite length_app. simpl. lia.
Qed.
(** The driver makes eight times as many descriptors as there are buffers, and the start of
    the receive ring reads behind the buffers. *)
Lemma ring_exceeds_buffers count_factor d s : 0 < count_factor -> Z.of_nat (length (transfer_buffers s)) = count_factor -> configure_rx (create_ring s count_factor d) = Undef.
Proof.
  intros Hc Hb. unfold configure_rx, create_ring, ring_count, e1000_rxtxdesclen_base. cbn [rx_ring set_rx descriptors transfer_buffers]. rewrite length_replicate, Hb.
  by rewrite (proj2 (Z.leb_gt (Z.of_nat (Z.to_nat (count_factor * 8))) count_factor)) by lia.
Qed.
End Device.

(** ** Witnesses: memory that is zero, a card and a stack that keep a log *)
#[global] Instance zero_memory {A} : Memory A := {| realloc := fun l n w => (w, Some (take (Z.to_nat n) (l ++ replicate (Z.to_nat n) 0))) |}.
#[global] Instance log_card : Card (list (Z * Z)) := {| read_rxh := fun _ => 0; send := fun d n w => (w ++ [(d, n)], true) |}.
#[global] Instance log_stack : Stack (list (list Z)) := {|
  arp_receive := fun p w => Done (w ++ [p], inr 0); ethernet_receive := fun p w => Done (w ++ [p], inr (- EPROTONOSUPPORT)) |}.
#[global] Instance two_received : Card (list (list Z)) := {| read_rxh := fun _ => 2; send := fun _ _ w => (w, false) |}.
Lemma zero_memory_enough {A} : @enough_memory A zero_memory.
Proof. intros l n w Hn. eexists. split; [reflexivity|]. rewrite length_take, length_app, length_replicate. lia. Qed.
Lemma log_takes_frames : takes_frames (fun p (w : list (list Z)) => w ++ [p]).
Proof. intros p w. split; [done|]. by right. Qed.
Definition small_buffer : netbuf := MkNb (MkRg (replicate 20 7) 0) (MkRg (replicate 16 0) 0) 16 20.
Definition four_descriptors : e1000e_ring e1000e_transmit_descriptor := MkRing (replicate 4 (MkTx 0 0 0)) 0 0.
Definition after_send (p : list Z) (w : sender (list (Z * Z))) : sender (list (Z * Z)) :=
  let r := tx_ring w in let n := u16 (Z.of_nat (length p)) in
  MkSnd (MkRing (<[Z.to_nat (tail_descriptor r) := MkTx n 11 1]> (descriptors r)) (head_descriptor r) ((tail_descriptor r + 1) mod 4)) (beyond w ++ [(tail_descriptor r, n)]).
Definition good_sender (w : sender (list (Z * Z))) : Prop := length (descriptors (tx_ring w)) = 4%nat /\ 0 <= tail_descriptor (tx_ring w) < 4.
Lemma good_sender_poll b w : good_sender w -> Z.of_nat (length (filled (out_region b))) = pos (out_region b) -> pos (out_region b) <= 16 ->
  poll_tx b w = Done (after_send (filled (out_region b)) w, 0).
Proof.
  intros [Hl Ht] Hf Hn. unfold poll_tx. destruct (lookup_lt_is_Some_2 (descriptors (tx_ring w)) (Z.to_nat (tail_descriptor (tx_ring w)))) as [d ->]; [lia|].
  unfold next_tail, ring_count, count. rewrite Hl. change (Z.of_nat 4 =? 0) with false. cbn [fst snd mbind outcome_bind]. change (Z.of_nat 4) with 4.
  rewrite (wrap_small 32), (wrap_small 64) by (split; lia). unfold after_send. rewrite Hf. reflexivity.
Qed.
Lemma good_sender_step p w : good_sender w -> good_sender (after_send p w).
Proof.
  intros [Hl Ht]. split; cbn [after_send tx_ring descriptors tail_descriptor]; [by rewrite length_insert|]. apply Z.mod_pos_bound. lia.
Qed.
Definition two_buffers : netdev (sender (list (Z * Z))) := MkDev [small_buffer; small_buffer] 0 (MkRing [] 0 0) (MkSnd four_descriptors []).
Lemma packets_go_out_in_order_witness :
  exists s', transmit_all poll_tx [[1; 2]; [3]; [4; 5; 6]] two_buffers = Done (s', inr [0; 0; 0]) /\ beyond (world s') = [(0, 2); (1, 1); (2, 3)].
Proof.
  destruct (packets_go_out_in_order poll_tx after_send good_sender 16 [[1; 2]; [3]; [4; 5; 6]] two_buffers) as (s' & E & Hw & _).
  - exact good_sender_poll.
  - intros p w H _. by apply good_sender_step.
  - repeat constructor; vm_compute; congruence.
  - done.
  - vm_compute. congruence.
  - repeat constructor; vm_compute; congruence.
  - repeat constructor; vm_compute; congruence.
  - exists s'. split; [exact E|]. rewrite Hw. vm_compute. reflexivity.
Defined.
(** Two finished descriptors, the second with an error. *)
Definition frame_received (j : Z) : e1000e_receive_descriptor := if j =? 0 then MkRx 14 true true 0 else MkRx 20 true true 1.
Definition received_two : netdev (list (list Z)) :=
  MkDev [small_buffer; small_buffer] 0 (MkRing (map frame_received [0; 1] ++ replicate 2 (MkRx 0 false false 0)) 0 2) [].
Lemma frames_reach_the_stack_witness :
  exists s', poll_rx received_two = Done (s', inr 0) /\ world s' = [replicate 14 7] /\ transfer_buffers s' !! 0%nat = Some (cleared small_buffer).
Proof.
  destruct (frames_reach_the_stack (fun p w => w ++ [p]) frame_received (fun _ => small_buffer) received_two) as (s' & E & Hw & Hin & _).
  - exact zero_memory_enough.
  - exact log_takes_frames.
  - vm_compute. split; congruence.
  - vm_compute. split; congruence.
  - vm_compute. reflexivity.
  - intros j Hj. change (0 <= j < 2) in Hj. assert (j = 0 \/ j = 1) as [-> | ->] by lia;
      (split_and!; [done|done|vm_compute; reflexivity|vm_compute; congruence|]); vm_compute; intros; split; congruence || split; congruence.
  - exists s'. split; [exact E|]. split; [rewrite Hw; vm_compute; reflexivity|]. apply (Hin 0). vm_compute. by left.
Defined.
End NetDevProps.
